(* ===== verification/_CoqProject ===== *)
-Q . S2P
Prelude.v
PyText.v
PyNum.v
PyJson.v
Tenancy.v
TenantStatus.v
Windows.v
Sessions.v
CapabilityAudit.v
AuditDrain.v
AlertErrors.v
FeatureStore.v
AlertDb.v
RulesEngine.v
EngineProps.v
AlertConsumer.v
AlertWorker.v
SqlWire.v
SqlScram.v
SqlBinding.v
HubCapabilities.v
ApiCapabilities.v
ColdBroker.v
TrackingPolicy.v
PlaneCapabilities.v
TrackingRoutes.v
TrackingGateway.v
TrackingAdmission.v
TrackingUploads.v
TrackingOffboarding.v
TrackingServer.v
SqlProxy.v
SqlUpstream.v
SqlServer.v
RedisProg.v
RefreshTokens.v
RefreshRuns.v
RefreshLogic.v
RefreshProps.v
ColdNaming.v
ColdExport.v
ColdExportProps.v
ColdRuns.v
TenantDeletion.v
DeletionStores.v
DeletionProps.v
CapabilityPurge.v
DeletionPlatform.v
DeletionQuiet.v
DeletionRuns.v
MlExtensions.v
MlFeatures.v
MlFeatureProps.v
MlDetectors.v
MlWorld.v
MlTrust.v
MlLoading.v
MlLoadProps.v
MlCompat.v
MlProfile.v
MlRepository.v
MlKeeps.v
MlRepositoryProps.v
MlAuth.v
MlServing.v
MlServingProps.v
MlGates.v
MlProbe.v
MlModels.v
MlGateProps.v
MlModelsProps.v
MlRegisterProps.v
MlRequests.v
MlRequestProps.v
MlRuns.v
MlUpload.v
MlUploadRoute.v
