(* ===== verification/Prelude.v ===== *)
(** * IndustryFlow: a verification development

    IndustryFlow is a multi-tenant platform for industrial telemetry.  Devices
    send readings over Kafka; Spark jobs aggregate them into TimescaleDB, one
    schema per tenant; an alert worker evaluates every aggregated reading
    against the tenant's rules; the API gateway serves users and records how
    capabilities are used; notebook users reach their tenant's data through
    proxies that hold every credential; aged readings are archived, deleted
    tenants are removed from every store, and a service registers, deploys and
    scores with models.  This development models ten parts of it and how they
    interact.

    ** Parts, files and sources

    Shared vocabulary.  [Prelude]: exceptions, the state-and-exception monad
    [M] in which every effectful function is written ([catch], [finally],
    [zoom]), and [respects]: a relation that every step of a computation
    keeps, closed under its structure ([respecting]).  [PyText], [PyNum],
    [PyJson]: Python's strings and UUIDs, its floats (binary64), JSON values
    and datetimes.

    Contracts, libs/industryflow_contracts: [Tenancy] (tenancy.py), [Windows]
    (windows.py), [Sessions] (sessions.py), [TenantStatus] (tenant_status.py,
    with its publisher and its follower), [CapabilityAudit]
    (capability_audit.py: the events and the Lua scripts).

    The capability-use record: [AuditDrain]
    (services/api_gateway/messaging/capability_audit_drain.py and the
    table's checks), the consumer of CapabilityAudit's stream, which its
    appends trim to a length.

    The alert worker, services/alert_service/worker: [AlertErrors]
    (errors.py), [FeatureStore] (feature_store.py), [AlertDb] (repository.py
    and its tables), [RulesEngine] (rules_engine.py) with [EngineProps],
    [AlertConsumer] (kafka_consumer.py), and [AlertWorker], where the engine
    discharges the consumer's interface [ReadingEvaluator].

    The notebook SQL proxy, services/notebook_sql_proxy: [SqlWire] (wire.py
    and the stream readers of server.py), [SqlScram] (scram.py), [SqlBinding]
    (binding.py), [SqlProxy] (proxy.py, over the interface [Backend]),
    [SqlUpstream] and [SqlServer] (server.py; [postgres_backend] is the
    interface's instance).

    Notebook capabilities, the opaque handles a notebook holds instead of
    credentials: [HubCapabilities] (services/notebook_hub/capabilities.py, the
    minter), [ApiCapabilities] (services/api_gateway/capability_auth.py),
    [ColdBroker] (services/notebook_cold_broker/policy.py), [TrackingPolicy]
    (services/notebook_tracking_gateway/policy.py, with the recording and
    consumption of gateway.py), verifiers beside SqlBinding's, and
    [PlaneCapabilities], what they do together.

    The tracking gateway, services/notebook_tracking_gateway, which forces
    MLflow and its artifacts into the caller's tenant: [TrackingRoutes]
    (routes.py, scoping.py and policy.py's names), [TrackingGateway] (the
    message, the ownership lookups and the proxy of gateway.py),
    [TrackingAdmission] (admission.py), [TrackingUploads] (staging.py and the
    artifact and upload handlers), [TrackingServer] (who may call them) and
    [TrackingOffboarding] (offboarding.py).

    Sessions of the gateway: [RedisProg] (programs of Redis commands, alone or
    interleaved), [RefreshTokens]
    (services/api_gateway/messaging/refresh_tokens.py and
    routers/auth_tokens.py), [RefreshRuns] (what one refresh does),
    [RefreshLogic] and [RefreshProps] (what every interleaving keeps).

    The cold store's export, services/cold_export: [ColdNaming] (names and the
    calendar), [ColdExport] (the run over the database and the archive),
    [ColdExportProps] and [ColdRuns].

    Tenant deletion, services/tenant_delete with its tables' functions
    (init-scripts 26 and 27) and services/notebook_hub/reclaim.py:
    [TenantDeletion] (job.py and registry.py), [DeletionStores] (the cold
    layer, the tracking gateway, the certificates, the notebook volumes),
    [CapabilityPurge] (capability_store.py), [DeletionPlatform] (main.py's steps
    over the stores of one platform), [DeletionProps], [DeletionQuiet] and
    [DeletionRuns].

    The ML service, services/ml_service/api: [MlExtensions] and
    [MlDetectors] (extensions), [MlFeatures] (feature_engineering),
    [MlWorld] (the tables, stores and history its processes share),
    [MlTrust] and [MlLoading] (skops_trust.py, uploaded_model.py,
    model_uri.py, model_loader.py, model_cache.py), [MlCompat]
    (model_compat.py), [MlProfile] (drift/reference_profile.py),
    [MlRepository] (repository.py and the tables' rules), [MlAuth]
    (auth.py), [MlServing] (routers/inference.py), [MlGates] (the gates of
    routers/models.py and its registration), [MlProbe] (load_probe.py, its
    worker, baseline_gate.py), [MlModels] (deployment, retirement and
    routers/feature_configs.py), [MlRequests] (what a process is asked),
    [MlUpload] (upload_capability.py and the minting transaction, on the
    hub's store) and [MlUploadRoute] (the route that mints).
    [MlFeatureProps], [MlLoadProps], [MlKeeps], [MlRepositoryProps],
    [MlServingProps], [MlGateProps], [MlModelsProps], [MlRegisterProps] and
    [MlRequestProps] prove what they guarantee; [MlRuns] runs them.

    A definition has the name of the function it translates.  A method's
    object is a record, passed as the state of [M]; a call into another
    component works on that component's record through [zoom].

    ** How failures and other parties are modelled

    A call to another system has an outcome taken from the state: a list of
    outcomes consumed in order ([call], [redis_step], [drains], [dials]); past
    the list every later call runs (a connection attempt is refused).  A
    statement for every initial state is thus one for every pattern of
    failures, before or after the call took effect.  What others do between
    two calls is part of the same lists where they share the state
    ([redis_step] for the capability store, [Recheck] and the pipe events for
    the relay) or a step relation ([AlertDb]'s writers, [SqlUpstream]'s
    registry, [AlertConsumer]'s broker, [RedisProg]'s [step], where commands
    fail, replies are lost and any request runs in between).  The cold export,
    the deletion and the ML service take a script of turns: before each call
    others may change the shared stores in any way, or within a law a theorem
    names ([lawful]), and the call runs, fails, or takes effect and loses its
    reply ([world_turn], [db_turn], the hub's and the lifecycle's steps).  The
    ML service keeps a history of what its stores answered and what it opened,
    loaded and recorded ([event]), which no code reads and its theorems speak
    of.  Python exceptions are the
    constructors of [exn], with their subclassing written out; cancellation of
    a task is not modelled.

    ** What the theorems show

    Alert worker: no message is lost ([committed_means_handled]) and none
    takes effect twice while its rules stand ([redelivered_message],
    [redelivered_reading]); an outage never dead-letters
    ([outage_never_dead_letters]); alerts of one scope stay a cooldown apart
    in every run and under every interleaving ([cooldown_durable],
    [concurrent_cooldown], [lock_follows_scope]); [emit_refines_save] is the
    refinement of the cached path by the table's atomic save.

    Capability-use record: events decode ([decode_event]), repeats are
    counted and none lost ([repeats_none_lost]), floods are bounded
    ([unknown_flood_bounded]); the drain loses nothing but what the stream's
    own bound drops, writes nothing twice and empties its backlog
    ([record_loses_nothing], [redelivery_exact], [passes_empty_backlog]).

    Tenancy: names and keys belong to one tenant and names invert
    ([company_id_from_schema_exact], [owned_key_one_tenant],
    [scope_key_confined], [mlflow_names_owned]); suspension reaches the
    devices ([publish_round_followed]).

    SQL proxy: only a granted handle gets a session, recorded first and
    closed always ([resolve_grants], [serve_lifecycle],
    [no_session_without_grant]); revocation ends it, up to what a transport
    had not sent ([revoked_session_forwards_nothing],
    [congested_session_forwards]); a login is enrolled at most once, by one
    quoted statement, and is the login made ([connect_enrols_once],
    [enrol_statement_quoted], [scram_login_matches_enrolment]); nothing but
    the SSLRequest crosses in clear ([only_tls_request_in_clear]); a cancel
    reaches its own session ([cancel_resolves_live_ticket]); what is built
    is read ([handshake_roundtrip], [frame_self_delimiting]) and waiting
    ends ([waiting_ends]).

    Capabilities: what the hub mints, the planes resolve, each for its own
    audience, and the copies of the contract are one, but for the type the
    tracking gateway keeps a user in ([minted_handle_resolves],
    [planes_agree]); no handle lives unrecorded ([stored_handles_recorded]);
    sign-out and a server's stop end what the index lists and a refresh
    brings nothing back ([signed_out_user_has_no_handle],
    [revoked_server_has_no_handle], [refresh_never_revives]); an upload
    handle is a writer's, for ten minutes, and is ended with the sessions
    ([upload_capability_is_the_writers], [signed_out_user_holds_nothing]).

    Tracking gateway: every endpoint serves its own audience and acts in the
    grant's tenant, the operator's for its secret and the tenant named
    ([planes_act_for_their_grant]); what is forwarded is in the
    table and vouched for ([forwarded_request_owned]), what is answered is the
    tenant's ([answer_shows_own_entries]); an upload is staged out of reach,
    admitted whole or not at all, as the bytes that were judged, and not
    rewritten after ([staged_out_of_reach], [commit_all_or_nothing],
    [uploads_stay_judged], [kernel_writes_avoid_uploads],
    [evaluate_admits_exactly]); a deleted tenant's removal touches nothing else
    ([emptying_touches_only_the_tenant], [listing_ends]).

    Sessions: however requests interleave a session has one refresh token and
    a token is taken once ([one_token_per_session], [token_claimed_once]); a
    retry gets the rotation's own token ([retry_gets_the_successor]), a reuse
    ends the session ([reuse_ends_the_session]) and an ended session gets no
    more ([ended_session_gets_no_token]).

    Cold export: a chunk is dropped only when its rows are in the archive
    ([dropped_rows_archived]), the archive only grows ([archive_only_grows]),
    and a tenant left in peace is exported ([quiet_tenant_exported],
    [export_day_exact]).

    Tenant deletion: the database goes last, when every store was emptied
    ([deletion_order]); a purge leaves nothing of the tenant's in the
    capability store and records what it revokes ([tenant_purged],
    [purged_handles_recorded]); the job nothing disturbs deletes every
    tenant that can go ([quiet_job_completes]); certificates are believed
    exactly when the CA's signed list shows them revoked
    ([certificates_verified]).

    ML service: a score is answered only for an established tenant, of its own
    deployed model, on a complete reading, by the detector its record names
    ([answered_score]); a model is registered or deployed only past every gate,
    whatever the call's outcome ([registered_models_passed],
    [deployed_models_passed]); what is served, warm or not, was
    opened from its record's address under its record's trust
    ([served_model_is_the_tenants]); features are honest slot by slot
    ([transform_spec]); versions are compared exactly ([compare_exact]); an
    accepted sample is kept as it was and reads as complete up to the sensors
    only a transformation names ([accepted_sample_readings]); no request
    changes what a bound configuration computes ([bound_inputs_fixed]) or
    breaks a process's invariant ([process_stays_sound]).

    ** Bounds and fuel

    Python integers are [Z]; floats are binary64 with their rounding.  Wire
    integers are 32 bits, big-endian, [pack_I] refusing what does not fit.
    Loops over a stream take fuel from the octets still to come, each round
    taking some ([waiting_ends]); a paged listing from the answers still to come
    ([listing_ends]); a manifest's walk stops at the interpreter's recursion
    limit, a parameter; the cancel registry's search takes one more
    than the keys in use ([search_free]); a purge of the cold layer one more
    page than there are objects.  Everything else recurs on its data.

    ** Parameters

    SHA-256 (its digests are 32 octets long), [int] of a string of any
    digits, [repr] of a value that is no plain scalar, the clock as a float
    and its text, the JSON and ISO 8601 codecs ([JsonCodec], [IsoCodec]: the
    round trips and the errors their documentation promises), XADD's
    approximate trimming, the number format of a duration, [yaml.safe_load]
    and the replacing UTF-8 decoder, that an ETag names the bytes of one
    version, that a day's rows are told by their digest, X.509 signatures
    and strptime, what skops, xgboost and MLflow make of a file, the power
    and the exponential of floats, the rows a truncated sample keeps, fresh
    UUIDs, the transforms and detectors of extension modules.  Each is
    instantiated in the witnesses.

    ** Not modelled

    Logging, metrics, timers, signal handling and process start-up; sockets,
    TLS and the Redis, Kafka and Postgres servers beyond the calls above;
    what one pipe of a relay still moves while an exception of the other
    ends the session; the hub's JupyterHub configuration, the HTTP handlers
    of the cold broker.  Of the ML service: the listing reads, drift scoring
    (Evidently's) and the routes that shape MLflow's answers; a process
    serves one request at a time, the pages of a run's logged models are one
    call, the lock and the insert of a registration one step, metric columns
    are left out and the texts of refusals shortened.  Of the record's
    drain: the expiry of old rows.  Of tenant deletion: a SCAN is one
    command, the export is not run beside the job (DeletionRuns'
    [deleted_tenant_exported_again]), and the provisioning guard is the
    database's.  Of the platform's other services: the gateway's CRUD
    routers, ingestion, the Spark jobs and the operations agent: SQL,
    dataflow descriptions and glue around libraries. *)

From stdpp Require Import base gmap strings list fin_maps.
From Stdlib Require Import ZArith Lia.

Set Default Goal Selector "!".

(** ** Exceptions

    One constructor per exception class the modelled code raises, catches or
    classifies.  Subclassing is written out by the [is_*] predicates below. *)

Inductive exn :=
  | ValueError
  | TypeError
  | AttributeError
  | KeyError
  | OverflowError
  | ZeroDivisionError
  | RecursionError
  | UnicodeDecodeError
  | JSONDecodeError
  | MessageValidationError (reason : string)
  | ProtocolError
  | IncompleteReadError
  | OSError
  | ConnectionError
  | UpstreamAuthRejected
  | TimeoutError
  | InterfaceError
  | PostgresError (sqlstate : option string)
  | RedisError
  | ClientError
  | KafkaError (retriable : bool)
  | CommitFailed
  | StickyProducerError
  | CompanySuspended
  | YAMLError
  | OffboardingError
  | ExportError
  | MissingSensors (sensors : list string)
  | InvalidFeature
  | UnknownTransform (types : list string)
  | StatefulUnavailable
  | UninterpretableModel
  | ModelNotAdmissible
  | TrackingStoreUnavailable
  | UnsafeArtifact
  | ArtifactUnreadable
  | FeatureConfigChanged
  | SystemExit
  | HTTPException (status : Z) (detail : string)
  | OtherError.

#[export] Instance exn_eq_dec : EqDecision exn.
Proof. solve_decision. Defined.

(** [isinstance(e, ValueError)]: the subclasses are UnicodeDecodeError,
    JSONDecodeError, errors.MessageValidationError, wire.ProtocolError,
    capabilities.CompanySuspended, the ML extensions' FeatureRefused classes
    and skops_trust.UnsafeArtifact. *)
Definition is_value_error (e : exn) : bool :=
  match e with
  | ValueError | UnicodeDecodeError | JSONDecodeError
  | MessageValidationError _ | ProtocolError | CompanySuspended
  | MissingSensors _ | InvalidFeature | UnknownTransform _ | UnsafeArtifact => true
  | _ => false
  end.

(** [isinstance(e, OSError)]: the builtin TimeoutError (which asyncio's is)
    and ConnectionError are subclasses; server.UpstreamAuthRejected is a
    ConnectionError. *)
Definition is_os_error (e : exn) : bool :=
  match e with
  | OSError | ConnectionError | UpstreamAuthRejected | TimeoutError => true
  | _ => false
  end.

(** ** Results and the state-and-exception monad

    [res A] is what a pure Python function gives; [M S A] is an effectful one.
    State changes made before an exception persist, as they do in Python. *)

Inductive res (A : Type) : Type :=
  | Ok (a : A)
  | Err (e : exn).
Arguments Ok {A} a.
Arguments Err {A} e.

#[export] Instance res_eq_dec `{EqDecision A} : EqDecision (res A).
Proof. solve_decision. Defined.

#[export] Instance res_ret : MRet res := λ A a, Ok a.
#[export] Instance res_bind : MBind res := λ A B f r,
  match r with Ok a => f a | Err e => Err e end.
#[export] Instance res_fmap : FMap res := λ A B f r,
  match r with Ok a => Ok (f a) | Err e => Err e end.

(** [o] if it is a value, the exception [e] otherwise. *)
Definition or_raise {A} (e : exn) (o : option A) : res A :=
  match o with Some a => Ok a | None => Err e end.

Definition res_opt {A} (r : res A) : option A :=
  match r with Ok a => Some a | Err _ => None end.

Definition is_ok {A} (r : res A) : bool :=
  match r with Ok _ => true | Err _ => false end.

Definition M (S A : Type) : Type := S → res A * S.

#[export] Instance M_ret {S} : MRet (M S) := λ A a s, (Ok a, s).
#[export] Instance M_bind {S} : MBind (M S) := λ A B f m s,
  match m s with
  | (Ok a, s') => f a s'
  | (Err e, s') => (Err e, s')
  end.

Definition raise {S A} (e : exn) : M S A := λ s, (Err e, s).
Definition lift {S A} (r : res A) : M S A := λ s, (r, s).
Definition getS {S} : M S S := λ s, (Ok s, s).
Definition gets {S A} (f : S → A) : M S A := λ s, (Ok (f s), s).
Definition modify {S} (f : S → S) : M S unit := λ s, (Ok tt, f s).

(** [try: m  except e: h e], the handler deciding by class and re-raising
    what it does not catch. *)
Definition catch {S A} (m : M S A) (h : exn → M S A) : M S A := λ s,
  match m s with
  | (Ok a, s') => (Ok a, s')
  | (Err e, s') => h e s'
  end.

(** [try: m  finally: f]: [f] runs on both exits; an exception it raises
    replaces the outcome. *)
Definition finally {S A} (m : M S A) (f : M S unit) : M S A := λ s,
  match m s with
  | (r, s') => match f s' with
               | (Ok _, s'') => (r, s'')
               | (Err e, s'') => (Err e, s'')
               end
  end.

(** [for x in l: acc = f acc x] *)
Fixpoint foldM {S A B} (f : B → A → M S B) (acc : B) (l : list A) : M S B :=
  match l with
  | [] => mret acc
  | x :: l' => acc' ← f acc x; foldM f acc' l'
  end.

(** The outcome and the final state of a run. *)
Definition outcome {S A} (m : M S A) (s : S) : res A := fst (m s).
Definition final {S A} (m : M S A) (s : S) : S := snd (m s).

(** A computation on a part of the state. *)
Definition zoom {S T A} (get : S → T) (set : T → S → S) (m : M T A) : M S A := λ s,
  let '(r, t) := m (get s) in (r, set t s).

(** The outcome of a call to another system: it runs, it fails without
    effect, or it takes effect and its reply is lost.  A component's [calls]
    are the outcomes of the calls it will make, consumed in order; when the
    list is exhausted every later call runs. *)
Inductive call := Runs | Fails (e : exn) | Lost (e : exn).

Definition first_call (l : list call) : call * list call :=
  match l with [] => (Runs, []) | c :: r => (c, r) end.

(** ** Reasoning about [M]: relations every step of a computation respects

    [respects R m] says that whatever [m] returns or raises, its final state
    is [R]-related to its initial one.  For a preorder [R] the property is
    closed under sequencing, handlers and loops, so an operation's frame or
    monotonicity fact follows from those of the calls it makes. *)

Definition respects {S A} (R : S → S → Prop) (m : M S A) : Prop :=
  ∀ s, R s (final m s).

(** [I] survives [m], on return and on exception. *)
Definition preserves {S A} (I : S → Prop) (m : M S A) : Prop :=
  ∀ s, I s → I (final m s).

Create HintDb pym.

Section respects.
Context {S : Type} (R : S → S → Prop) `{!Reflexive R} `{!Transitive R}.

Lemma respects_ret {A} (a : A) : respects R (mret a : M S A).
Proof. intros s. unfold final. simpl. reflexivity. Qed.

Lemma respects_raise {A} e : respects R (raise e : M S A).
Proof. intros s. unfold final. simpl. reflexivity. Qed.

Lemma respects_lift {A} (r : res A) : respects R (lift r : M S A).
Proof. intros s. unfold final. simpl. reflexivity. Qed.

Lemma respects_gets {A} (f : S → A) : respects R (gets f).
Proof. intros s. unfold final. simpl. reflexivity. Qed.

Lemma respects_getS : respects R (getS).
Proof. intros s. unfold final. simpl. reflexivity. Qed.

Lemma respects_bind {A B} (m : M S A) (k : A → M S B) :
  respects R m → (∀ a, respects R (k a)) → respects R (m ≫= k).
Proof.
  intros Hm Hk s. specialize (Hm s). unfold final in *.
  unfold mbind, M_bind. destruct (m s) as [[a | e] s'] eqn:E; simpl in *; [|done].
  etrans; [done | apply Hk].
Qed.

Lemma respects_catch {A} (m : M S A) (h : exn → M S A) :
  respects R m → (∀ e, respects R (h e)) → respects R (catch m h).
Proof.
  intros Hm Hh s. specialize (Hm s). unfold final, catch in *.
  destruct (m s) as [[a | e] s'] eqn:E; simpl in *; [done|].
  etrans; [done | apply Hh].
Qed.

Lemma respects_finally {A} (m : M S A) (f : M S unit) :
  respects R m → respects R f → respects R (finally m f).
Proof.
  intros Hm Hf s. specialize (Hm s). unfold final, finally in *.
  destruct (m s) as [r s'] eqn:E. specialize (Hf s'). unfold final in Hf.
  destruct (f s') as [[u | e] s''] eqn:E'; simpl in *; by etrans.
Qed.

Lemma respects_foldM {A B} (f : B → A → M S B) l :
  (∀ b a, respects R (f b a)) → ∀ b, respects R (foldM f b l).
Proof.
  intros Hf. induction l as [|x l IH]; intros b; simpl.
  - apply respects_ret.
  - apply respects_bind; [apply Hf | apply IH].
Qed.

Lemma respects_zoom {T A} (get : S → T) (set : T → S → S) (Q : T → T → Prop) (m : M T A) :
  (∀ s t, Q (get s) t → R s (set t s)) → respects Q m → respects R (zoom get set m).
Proof.
  intros HQ Hm s. specialize (Hm (get s)). unfold final, zoom in *.
  destruct (m (get s)) as [r t] eqn:E. simpl in *. auto.
Qed.

Lemma respects_modify (f : S → S) : (∀ s, R s (f s)) → respects R (modify f).
Proof. intros Hf s. unfold final. simpl. apply Hf. Qed.
End respects.

#[export] Hint Resolve respects_ret respects_raise respects_lift respects_gets
  respects_getS respects_bind respects_catch respects_finally respects_foldM
  respects_modify : pym.

(** An invariant is the relation "if it held, it still holds". *)
Lemma preserves_respects {S A} (I : S → Prop) (m : M S A) :
  respects (λ s s', I s → I s') m ↔ preserves I m.
Proof. done. Qed.

#[export] Instance impl_rel_refl {S} (I : S → Prop) :
  Reflexive (λ s s' : S, I s → I s').
Proof. intros s H. exact H. Qed.
#[export] Instance impl_rel_trans {S} (I : S → Prop) :
  Transitive (λ s s' : S, I s → I s').
Proof. intros s1 s2 s3 H1 H2 H. auto. Qed.

(** ** Running [M] step by step *)

Lemma bind_ok {S A B} (m : M S A) (k : A → M S B) s a s' :
  m s = (Ok a, s') → (m ≫= k) s = k a s'.
Proof. intros E. unfold mbind, M_bind. by rewrite E. Qed.

Lemma bind_err {S A B} (m : M S A) (k : A → M S B) s e s' :
  m s = (Err e, s') → (m ≫= k) s = (Err e, s').
Proof. intros E. unfold mbind, M_bind. by rewrite E. Qed.

Lemma bind_inv_ok {S A B} (m : M S A) (k : A → M S B) s b s'' :
  (m ≫= k) s = (Ok b, s'') →
  ∃ a s', m s = (Ok a, s') ∧ k a s' = (Ok b, s'').
Proof.
  unfold mbind, M_bind. destruct (m s) as [[a | e] s'] eqn:E; [|done].
  intros H. by exists a, s'.
Qed.

Lemma foldM_app {S A B} (f : B → A → M S B) l1 l2 b s :
  foldM f b (l1 ++ l2) s = (foldM f b l1 ≫= λ b', foldM f b' l2) s.
Proof.
  revert b s. induction l1 as [|x l1 IH]; intros b s; [done|].
  simpl. unfold mbind, M_bind. destruct (f b x s) as [[b' | e] s']; [|done].
  apply IH.
Qed.

(** A computation that neither raises nor changes the state. *)
Lemma lift_ok {S A} (a : A) (s : S) : lift (Ok a) s = (Ok a, s).
Proof. done. Qed.

Lemma lift_inv {S A} (r : res A) (s : S) o s' : lift r s = (o, s') → r = o ∧ s' = s.
Proof. intros H. injection H as <- <-. done. Qed.

Lemma Ok_inj {A} (a b : A) : Ok a = Ok b → a = b.
Proof. intros H. by injection H. Qed.

Lemma res_bind_ok {A B} (f : A → res B) a : (Ok a ≫= f) = f a.
Proof. done. Qed.

Lemma res_bind_inv_ok {A B} (f : A → res B) r b :
  r ≫= f = Ok b → ∃ a, r = Ok a ∧ f a = Ok b.
Proof. destruct r as [a | e]; simpl; [|done]. intros H. by exists a. Qed.

(** Every value [m] returns satisfies [P]. *)
Definition yields {S A} (P : A → Prop) (m : M S A) : Prop :=
  ∀ s a s', m s = (Ok a, s') → P a.

Lemma respects_bind_when {S A B} (R : S → S → Prop) `{!Transitive R} (P : A → Prop)
    (m : M S A) (k : A → M S B) :
  respects R m → yields P m → (∀ a, P a → respects R (k a)) → respects R (m ≫= k).
Proof.
  intros Hm HP Hk s. specialize (Hm s). unfold final in *.
  unfold mbind, M_bind. destruct (m s) as [[a | e] s'] eqn:E; simpl in *; [|done].
  etrans; [done|]. apply Hk. by eapply HP.
Qed.

Lemma respects_then {S A B} (R : S → S → Prop) `{!Transitive R} (m : M S A) (k : A → M S B) s :
  R s (final m s) → (∀ a s1, m s = (Ok a, s1) → R s1 (final (k a) s1)) → R s (final (m ≫= k) s).
Proof.
  unfold final, mbind, M_bind. intros Hm Hk. destruct (m s) as [[a|e] s1] eqn:E; [|done]. etrans; [exact Hm|]. by apply Hk.
Qed.

Lemma yields_bind {S A B} (P : B → Prop) (m : M S A) (k : A → M S B) :
  (∀ a, yields P (k a)) → yields P (m ≫= k).
Proof. intros Hk s b s' (a & s1 & _ & E)%bind_inv_ok. by eapply Hk. Qed.

Lemma yields_catch {S A} (P : A → Prop) (m : M S A) h :
  yields P m → (∀ e, yields P (h e)) → yields P (catch m h).
Proof.
  intros Hm Hh s a s' E. unfold catch in E. destruct (m s) as [[b|e] s1] eqn:Em.
  - injection E as <- <-. by eapply Hm.
  - by eapply Hh.
Qed.

Lemma yields_ret {S A} (P : A → Prop) a : P a → yields P (mret a : M S A).
Proof. intros H s b s' [= <- _]. done. Qed.

Lemma yields_lift {S A} (P : A → Prop) (r : res A) : (∀ a, r = Ok a → P a) → yields P (lift r : M S A).
Proof. intros H s b s' [= -> _]. by apply H. Qed.

(** ** Tactics *)

(** A computation respects a preorder when its calls do: go through its
    structure, [tac] closing the calls. *)
Ltac respecting tac :=
  repeat first
    [ apply respects_ret, _ | apply respects_raise, _ | apply respects_lift, _
    | apply respects_gets, _ | apply respects_getS, _ | tac
    | apply respects_bind; [apply _ | | intros ?]
    | apply respects_catch; [apply _ | | intros ?]
    | apply respects_finally; [apply _ | | ]
    | case_match ].

(** Split every boolean connective of the hypotheses into propositions. *)
Ltac bool_hyps :=
  repeat match goal with
  | H : (_ && _) = true |- _ => apply andb_true_iff in H as [? ?]
  | H : (_ || _) = false |- _ => apply orb_false_iff in H as [? ?]
  | H : negb _ = true |- _ => apply negb_true_iff in H
  | H : negb _ = false |- _ => apply negb_false_iff in H
  | H : bool_decide _ = true |- _ => apply bool_decide_eq_true in H
  | H : bool_decide _ = false |- _ => apply bool_decide_eq_false in H
  | H : (_ <? _)%Z = true |- _ => apply Z.ltb_lt in H
  | H : (_ <? _)%Z = false |- _ => apply Z.ltb_ge in H
  | H : (_ <=? _)%Z = true |- _ => apply Z.leb_le in H
  | H : (_ <=? _)%Z = false |- _ => apply Z.leb_gt in H
  | H : (_ =? _)%Z = true |- _ => apply Z.eqb_eq in H
  | H : (_ =? _)%Z = false |- _ => apply Z.eqb_neq in H
  | H : (_ =? _)%nat = true |- _ => apply Nat.eqb_eq in H
  | H : (_ =? _)%nat = false |- _ => apply Nat.eqb_neq in H
  | H : (_ <? _)%nat = true |- _ => apply Nat.ltb_lt in H
  | H : (_ <? _)%nat = false |- _ => apply Nat.ltb_ge in H
  | H : (_ <=? _)%nat = true |- _ => apply Nat.leb_le in H
  | H : (_ <=? _)%nat = false |- _ => apply Nat.leb_gt in H
  end.

(** Case analysis on every match of the goal, closing the absurd cases. *)
Ltac split_matches := repeat (case_match; simplify_eq/=; try done).

(** ** Lists *)

Lemma list_find_true {A} (p : A → bool) l x :
  List.find p l = Some x → x ∈ l ∧ p x = true.
Proof.
  intros H. apply List.find_some in H as [H1 H2].
  split; [by apply list_elem_of_In | done].
Qed.

Lemma existsb_elem {A} (p : A → bool) l :
  existsb p l = true ↔ ∃ x, x ∈ l ∧ p x = true.
Proof.
  rewrite existsb_exists. split.
  - intros (x & H1 & H2). exists x. by rewrite list_elem_of_In.
  - intros (x & H1 & H2). exists x. by rewrite <- list_elem_of_In.
Qed.

Lemma forallb_elem {A} (p : A → bool) l :
  forallb p l = true ↔ ∀ x, x ∈ l → p x = true.
Proof.
  rewrite forallb_forall. split; intros H x Hx; apply H; by apply list_elem_of_In.
Qed.

Lemma filter_true {A} (P : A → Prop) `{∀ x, Decision (P x)} (l : list A) :
  (∀ x, x ∈ l → P x) → base.filter P l = l.
Proof.
  induction l as [|x l IH]; intros Hl; [done|].
  rewrite filter_cons_True by (apply Hl; left). f_equal. apply IH. intros y Hy. apply Hl. by right.
Qed.

Lemma filter_false {A} (P : A → Prop) `{∀ x, Decision (P x)} (l : list A) :
  (∀ x, x ∈ l → ¬ P x) → base.filter P l = [].
Proof.
  induction l as [|x l IH]; intros Hl; [done|].
  rewrite filter_cons_False by (apply Hl; left). apply IH. intros y Hy. apply Hl. by right.
Qed.
