(* ===== verification/PyText.v ===== *)
(** * Python text

    The [str] operations the modelled code uses, over Stdlib [string].  A
    Rocq [string] stands for a Python string whose code points are all below
    256; within that range every definition below is the built-in's.  The
    parser of [uuid.UUID] and the printer of [str(uuid)] are here because the
    whole program names tenants, devices, rules and handles through them. *)

From stdpp Require Import base strings list.
From Stdlib Require Import ZArith Lia Ascii.
From S2P Require Import Prelude.

Local Open Scope string_scope.

#[local] Arguments String.append !_ _ / : simpl nomatch.

(** ** Operations *)

Definition code (c : ascii) : Z := Z.of_N (N_of_ascii c).

Fixpoint str_all (p : ascii → bool) (s : string) : bool :=
  match s with
  | EmptyString => true
  | String c r => p c && str_all p r
  end.

Definition str_any (p : ascii → bool) (s : string) : bool :=
  negb (str_all (λ c, negb (p c)) s).

(** [c in s] for a one-character [c]. *)
Definition str_has (c : ascii) (s : string) : bool := str_any (λ d, bool_decide (d = c)) s.

(** [s[n:]] *)
Fixpoint str_drop (n : nat) (s : string) : string :=
  match n, s with
  | O, _ => s
  | S n', EmptyString => EmptyString
  | S n', String _ r => str_drop n' r
  end.

(** [s[:n]] *)
Fixpoint str_take (n : nat) (s : string) : string :=
  match n, s with
  | O, _ => EmptyString
  | S _, EmptyString => EmptyString
  | S n', String c r => String c (str_take n' r)
  end.

(** [s.removeprefix(p)] if [s.startswith(p)]. *)
Fixpoint strip_prefix (p s : string) : option string :=
  match p, s with
  | EmptyString, _ => Some s
  | String a p', String b s' => if bool_decide (a = b) then strip_prefix p' s' else None
  | String _ _, EmptyString => None
  end.

(** [s.startswith(p)] *)
Definition startswith (p s : string) : bool := bool_decide (is_Some (strip_prefix p s)).

(** [s.replace(a, b)] for one-character [a] and [b]. *)
Fixpoint str_subst (a b : ascii) (s : string) : string :=
  match s with
  | EmptyString => EmptyString
  | String c r => String (if bool_decide (c = a) then b else c) (str_subst a b r)
  end.

(** [s.replace(a, "")] for a one-character [a]. *)
Fixpoint str_remove (a : ascii) (s : string) : string :=
  match s with
  | EmptyString => EmptyString
  | String c r => if bool_decide (c = a) then str_remove a r else String c (str_remove a r)
  end.

(** [s.replace(old, new)], leftmost first, non-overlapping; [old] non-empty.
    Each step consumes a character of [s], so [length s] of fuel suffices. *)
Fixpoint str_replace_fuel (fuel : nat) (old new s : string) : string :=
  match fuel, s with
  | O, _ => s
  | S _, EmptyString => EmptyString
  | S f, String c r =>
      match strip_prefix old s with
      | Some rest => new +:+ str_replace_fuel f old new rest
      | None => String c (str_replace_fuel f old new r)
      end
  end.
Definition str_replace (old new s : string) : string :=
  str_replace_fuel (String.length s) old new s.

Fixpoint lstrip (p : ascii → bool) (s : string) : string :=
  match s with
  | EmptyString => EmptyString
  | String c r => if p c then lstrip p r else s
  end.
Fixpoint rstrip (p : ascii → bool) (s : string) : string :=
  match s with
  | EmptyString => EmptyString
  | String c r => match rstrip p r with
                  | EmptyString => if p c then EmptyString else String c EmptyString
                  | r' => String c r'
                  end
  end.
Definition strip (p : ascii → bool) (s : string) : string := rstrip p (lstrip p s).

(** [s.split(c)] for a one-character [c]: never empty. *)
Fixpoint str_split (c : ascii) (s : string) : list string :=
  match s with
  | EmptyString => [EmptyString]
  | String d r =>
      if bool_decide (d = c) then EmptyString :: str_split c r
      else match str_split c r with
           | [] => [String d EmptyString]
           | w :: ws => String d w :: ws
           end
  end.

(** [s.partition(c)] for a one-character [c], less the separator. *)
Fixpoint str_partition (c : ascii) (s : string) : string * string :=
  match s with
  | EmptyString => (EmptyString, EmptyString)
  | String d r =>
      if bool_decide (d = c) then (EmptyString, r)
      else let '(h, t) := str_partition c r in (String d h, t)
  end.

(** [s.removesuffix(t)], None where [s.endswith(t)] is False. *)
Definition strip_suffix (t s : string) : option string :=
  let n := (String.length s - String.length t)%nat in
  if bool_decide (s = str_take n s +:+ t) then Some (str_take n s) else None.

(** [sep.join(l)] *)
Fixpoint str_join (sep : string) (l : list string) : string :=
  match l with
  | [] => EmptyString
  | [w] => w
  | w :: ws => w +:+ sep +:+ str_join sep ws
  end.

(** [str.isspace] below 256: what [int()] and [float()] strip. *)
Definition is_space (c : ascii) : bool :=
  let n := code c in
  (Z.leb 9 n && Z.leb n 13) || (Z.leb 28 n && Z.leb n 32) || Z.eqb n 133 || Z.eqb n 160.

(** [unicodedata.category(c) == "Cc"] below 256. *)
Definition is_control (c : ascii) : bool :=
  let n := code c in Z.leb n 31 || (Z.leb 127 n && Z.leb n 159).

(** ** Hexadecimal and decimal *)

Definition hex_value (c : ascii) : option Z :=
  let n := code c in
  if Z.leb 48 n && Z.leb n 57 then Some (n - 48)%Z
  else if Z.leb 97 n && Z.leb n 102 then Some (n - 87)%Z
  else if Z.leb 65 n && Z.leb n 70 then Some (n - 55)%Z
  else None.

Definition hex_char (d : Z) : ascii :=
  ascii_of_N (Z.to_N (if Z.ltb d 10 then d + 48 else d + 87)%Z).

Definition dec_char (d : Z) : ascii := ascii_of_N (Z.to_N (d + 48)%Z).

Definition is_lower_hex (c : ascii) : bool :=
  let n := code c in (Z.leb 48 n && Z.leb n 57) || (Z.leb 97 n && Z.leb n 102).

(** The digits of [int(s, 16)] after its sign and prefix: single underscores
    may separate digits; [us] says the previous character was one. *)
Fixpoint hex_digits (acc : Z) (us : bool) (s : string) : option Z :=
  match s with
  | EmptyString => if us then None else Some acc
  | String c r =>
      if bool_decide (c = "_"%char) then (if us then None else hex_digits acc true r)
      else match hex_value c with
           | Some d => hex_digits (acc * 16 + d)%Z false r
           | None => None
           end
  end.

Definition hex_body (s : string) : option Z :=
  match s with
  | EmptyString => None
  | String c r => match hex_value c with
                  | Some d => hex_digits d false r
                  | None => None
                  end
  end.

(** The optional [0x] prefix, after which one underscore is allowed. *)
Definition hex_prefix (s : string) : string :=
  match s with
  | String "0" (String "x" r) | String "0" (String "X" r) =>
      match r with String "_" r' => r' | _ => r end
  | _ => s
  end.

(** [int(s, 16)] *)
Definition int16 (s : string) : option Z :=
  let s := strip is_space s in
  match s with
  | String "-" r => Z.opp <$> hex_body (hex_prefix r)
  | String "+" r => hex_body (hex_prefix r)
  | _ => hex_body (hex_prefix s)
  end.

(** ['%0{n}x' % z] for [0 <= z < 16^n]. *)
Fixpoint hex_fixed (n : nat) (z : Z) : string :=
  match n with
  | O => EmptyString
  | S n' => hex_fixed n' (z / 16)%Z +:+ String (hex_char (z mod 16)%Z) EmptyString
  end.

(** [str(z)] of an integer.  [fuel] bounds the number of digits; the value
    drops tenfold per digit, so its binary size is enough. *)
Fixpoint dec_fuel (fuel : nat) (z : Z) (acc : string) : string :=
  match fuel with
  | O => acc
  | S f => let acc' := String (dec_char (z mod 10)%Z) acc in
           if Z.ltb z 10 then acc' else dec_fuel f (z / 10)%Z acc'
  end.
Definition str_of_nonneg (z : Z) : string := dec_fuel (S (Z.to_nat (Z.log2 z))) z EmptyString.
Definition str_of_Z (z : Z) : string :=
  if Z.ltb z 0 then String "-" (str_of_nonneg (- z)%Z) else str_of_nonneg z.

(** ** UUIDs

    A [uuid.UUID] is its 128-bit integer. *)

Definition uuid_bound : Z := (2 ^ 128)%Z.

Definition is_brace (c : ascii) : bool := bool_decide (c = "{"%char) || bool_decide (c = "}"%char).

(** [uuid.UUID(s)], [None] for its ValueError. *)
Definition uuid_parse (s : string) : option Z :=
  let hex := str_replace "uuid:" "" (str_replace "urn:" "" s) in
  let hex := str_remove "-" (strip is_brace hex) in
  if (String.length hex =? 32)%nat then
    match int16 hex with
    | Some n => if Z.leb 0 n && Z.ltb n uuid_bound then Some n else None
    | None => None
    end
  else None.

(** [str(u)]: eight, four, four, four and twelve lower-case digits. *)
Definition uuid_layout (h : string) : string :=
  str_take 8 h +:+ "-" +:+ str_take 4 (str_drop 8 h) +:+ "-" +:+
  str_take 4 (str_drop 12 h) +:+ "-" +:+ str_take 4 (str_drop 16 h) +:+ "-" +:+
  str_drop 20 h.
Definition uuid_str (u : Z) : string := uuid_layout (hex_fixed 32 u).

(** The characters of a canonical UUID string. *)
Definition is_uuid_char (c : ascii) : bool := is_lower_hex c || bool_decide (c = "-"%char).

(** ** Lemmas: characters *)

(** Facts about characters are decided by evaluating all 256 of them. *)
Ltac all_chars c := destruct c as [[] [] [] [] [] [] [] []]; try done; try (vm_compute; done).

Lemma hex_char_value d : (0 ≤ d < 16)%Z → hex_value (hex_char d) = Some d.
Proof.
  intros H. assert (d = 0 ∨ d = 1 ∨ d = 2 ∨ d = 3 ∨ d = 4 ∨ d = 5 ∨ d = 6 ∨ d = 7 ∨ d = 8 ∨
    d = 9 ∨ d = 10 ∨ d = 11 ∨ d = 12 ∨ d = 13 ∨ d = 14 ∨ d = 15)%Z as Hd by lia.
  repeat destruct Hd as [-> | Hd]; try reflexivity. by rewrite Hd.
Qed.

Lemma hex_char_lower d : (0 ≤ d < 16)%Z → is_lower_hex (hex_char d) = true.
Proof.
  intros H. assert (d = 0 ∨ d = 1 ∨ d = 2 ∨ d = 3 ∨ d = 4 ∨ d = 5 ∨ d = 6 ∨ d = 7 ∨ d = 8 ∨
    d = 9 ∨ d = 10 ∨ d = 11 ∨ d = 12 ∨ d = 13 ∨ d = 14 ∨ d = 15)%Z as Hd by lia.
  repeat destruct Hd as [-> | Hd]; try reflexivity. by rewrite Hd.
Qed.

(** ** Lemmas: concatenation, slices and predicates *)

Lemma str_app_nil_r s : s +:+ "" = s.
Proof. induction s as [|c s IH]; simpl; [done | by rewrite IH]. Qed.

Lemma str_app_assoc a b c : (a +:+ b) +:+ c = a +:+ (b +:+ c).
Proof. induction a as [|x a IH]; simpl; [done | by rewrite IH]. Qed.

Lemma str_length_app a b : String.length (a +:+ b) = (String.length a + String.length b)%nat.
Proof. induction a as [|x a IH]; simpl; [done | by rewrite IH]. Qed.

Lemma str_app_inj_l a b c : a +:+ b = a +:+ c → b = c.
Proof. induction a as [|x a IH]; simpl; [done|]. intros [= H]. auto. Qed.

Lemma str_all_app p a b : str_all p (a +:+ b) = str_all p a && str_all p b.
Proof. induction a as [|x a IH]; simpl; [done|]. by rewrite IH, andb_assoc. Qed.

Lemma str_all_impl (p q : ascii → bool) s :
  (∀ c, p c = true → q c = true) → str_all p s = true → str_all q s = true.
Proof.
  intros Hpq. induction s as [|c s IH]; simpl; [done|].
  intros [H1 H2]%andb_true_iff. rewrite (Hpq _ H1). by apply IH.
Qed.

Lemma str_take_drop n s : str_take n s +:+ str_drop n s = s.
Proof.
  revert s. induction n as [|n IH]; intros [|c s]; simpl; try done. by rewrite IH.
Qed.

Lemma str_drop_drop n m s : str_drop n (str_drop m s) = str_drop (m + n) s.
Proof.
  revert s. induction m as [|m IH]; intros s; simpl; [done|].
  destruct s as [|c s]; [by destruct n | apply IH].
Qed.

Lemma str_length_take n s : String.length (str_take n s) = Nat.min n (String.length s).
Proof. revert s. induction n as [|n IH]; intros [|c s]; simpl; auto. Qed.

Lemma str_all_take p n s : str_all p s = true → str_all p (str_take n s) = true.
Proof.
  revert s. induction n as [|n IH]; intros [|c s]; simpl; try done.
  intros [H1 H2]%andb_true_iff. by rewrite H1, IH.
Qed.

Lemma str_all_drop p n s : str_all p s = true → str_all p (str_drop n s) = true.
Proof.
  revert s. induction n as [|n IH]; intros [|c s]; simpl; try done.
  intros [H1 H2]%andb_true_iff. by apply IH.
Qed.

(** ** Lemmas: prefixes *)

Lemma strip_prefix_app p s : strip_prefix p (p +:+ s) = Some s.
Proof. induction p as [|c p IH]; simpl; [done|]. by rewrite bool_decide_true. Qed.

Lemma strip_prefix_Some p s r : strip_prefix p s = Some r → s = p +:+ r.
Proof.
  revert s. induction p as [|c p IH]; intros [|d s]; simpl; try (intros; by simplify_eq).
  case_bool_decide; [|done]. intros H1. subst. by rewrite (IH _ H1).
Qed.

Lemma startswith_spec p s : startswith p s = true ↔ ∃ r, s = p +:+ r.
Proof.
  unfold startswith. rewrite bool_decide_eq_true. split.
  - intros [r Hr]. exists r. by apply strip_prefix_Some.
  - intros [r ->]. rewrite strip_prefix_app. done.
Qed.

Lemma startswith_app p s : startswith p (p +:+ s) = true.
Proof. apply startswith_spec. by exists s. Qed.

Lemma str_drop_prefix p s : str_drop (String.length p) (p +:+ s) = s.
Proof. induction p as [|c p IH]; simpl; done. Qed.

(** Two prefixes of one string, equally long, are equal. *)
Lemma startswith_same_length p q s :
  startswith p s = true → startswith q s = true →
  String.length p = String.length q → p = q.
Proof.
  rewrite !startswith_spec. intros [r ->] [r' Hr'] Hlen.
  revert q Hr' Hlen. induction p as [|c p IH]; intros [|d q]; simpl; try done.
  intros [= -> H] [= Hl]. f_equal. by apply IH.
Qed.

(** ** Lemmas: substitution, removal, replacement *)

Lemma str_subst_app a b s t : str_subst a b (s +:+ t) = str_subst a b s +:+ str_subst a b t.
Proof. induction s as [|c s IH]; simpl; [done | by rewrite IH]. Qed.

Lemma str_subst_inv a b s :
  str_all (λ c, negb (bool_decide (c = b))) s = true → str_subst b a (str_subst a b s) = s.
Proof.
  induction s as [|c s IH]; simpl; [done|].
  intros [H1 H2]%andb_true_iff. rewrite (IH H2). bool_hyps. f_equal.
  destruct (bool_decide (c = a)) eqn:E; bool_hyps.
  - by rewrite bool_decide_true by done.
  - by rewrite bool_decide_false by done.
Qed.

Lemma str_length_subst a b s : String.length (str_subst a b s) = String.length s.
Proof. induction s as [|c s IH]; simpl; [done | by rewrite IH]. Qed.

Lemma str_remove_app a s t : str_remove a (s +:+ t) = str_remove a s +:+ str_remove a t.
Proof.
  induction s as [|c s IH]; simpl; [done|]. rewrite IH. by case_bool_decide.
Qed.

Lemma str_remove_id a s :
  str_all (λ c, negb (bool_decide (c = a))) s = true → str_remove a s = s.
Proof.
  induction s as [|c s IH]; simpl; [done|].
  intros [H1 H2]%andb_true_iff. bool_hyps. rewrite bool_decide_false by done. by rewrite IH.
Qed.

(** Replacing a string whose first character does not occur changes nothing. *)
Lemma str_replace_id a old new s :
  str_all (λ c, negb (bool_decide (c = a))) s = true →
  str_replace (String a old) new s = s.
Proof.
  unfold str_replace. generalize (String.length s) as fuel. intros fuel.
  revert s. induction fuel as [|f IH]; intros [|c s]; simpl; try done.
  intros [H1 H2]%andb_true_iff. bool_hyps.
  rewrite bool_decide_false by (intros ->; done). by rewrite IH.
Qed.

Lemma lstrip_id p s : str_all (λ c, negb (p c)) s = true → lstrip p s = s.
Proof. destruct s as [|c s]; simpl; [done|]. intros [H _]%andb_true_iff. bool_hyps. by rewrite H. Qed.

Lemma rstrip_id p s : str_all (λ c, negb (p c)) s = true → rstrip p s = s.
Proof.
  induction s as [|c s IH]; simpl; [done|]. intros [H1 H2]%andb_true_iff.
  rewrite (IH H2). bool_hyps. rewrite H1. by destruct s.
Qed.

Lemma strip_id p s : str_all (λ c, negb (p c)) s = true → strip p s = s.
Proof. intros H. unfold strip. rewrite lstrip_id by done. by apply rstrip_id. Qed.

(** ** Lemmas: hexadecimal *)

Lemma hex_fixed_length n z : String.length (hex_fixed n z) = n.
Proof.
  revert z. induction n as [|n IH]; intros z; simpl; [done|].
  rewrite str_length_app, IH. simpl. lia.
Qed.

Lemma hex_fixed_lower n z : str_all is_lower_hex (hex_fixed n z) = true.
Proof.
  revert z. induction n as [|n IH]; intros z; simpl; [done|].
  rewrite str_all_app, IH. simpl. rewrite hex_char_lower; [done|].
  apply Z.mod_pos_bound. lia.
Qed.

Lemma hex_digits_app acc s d :
  str_all is_lower_hex s = true → (0 ≤ d < 16)%Z →
  hex_digits acc false (s +:+ String (hex_char d) "") =
  (λ v, v * 16 + d)%Z <$> hex_digits acc false s.
Proof.
  revert acc. induction s as [|c s IH]; intros acc Hs Hd; simpl.
  - rewrite hex_char_value by done. rewrite bool_decide_false; [done|].
    intros Hc. pose proof (hex_char_lower d Hd) as Hl. by rewrite Hc in Hl.
  - simpl in Hs. apply andb_true_iff in Hs as [Hc Hs].
    rewrite bool_decide_false by (intros ->; done).
    destruct (hex_value c) as [v|]; [|done]. by apply IH.
Qed.

Lemma hex_digits_fixed acc n z :
  (0 ≤ z < 16 ^ Z.of_nat n)%Z →
  hex_digits acc false (hex_fixed n z) = Some (acc * 16 ^ Z.of_nat n + z)%Z.
Proof.
  revert z. induction n as [|n IH]; intros z Hz.
  - simpl. f_equal. simpl in Hz. lia.
  - simpl hex_fixed. pose proof (Z.mod_pos_bound z 16 ltac:(lia)) as Hm.
    rewrite hex_digits_app; [| apply hex_fixed_lower | done].
    rewrite Nat2Z.inj_succ, Z.pow_succ_r in * by lia.
    rewrite IH.
    + simpl. f_equal. pose proof (Z.div_mod z 16). lia.
    + split; [apply Z.div_pos; lia | apply Z.div_lt_upper_bound; lia].
Qed.

(** No [0x] prefix, sign or space in lower-case hexadecimal. *)
Lemma int16_lower s :
  str_all is_lower_hex s = true → s ≠ "" → int16 s = hex_digits 0 false s.
Proof.
  intros Hs Hne. unfold int16.
  rewrite strip_id by (eapply str_all_impl; [|done]; intros c; all_chars c).
  destruct s as [|c s]; [done|]. simpl in Hs. apply andb_true_iff in Hs as [Hc Hs].
  assert (hex_prefix (String c s) = String c s) as Hp.
  { destruct s as [|d s]; [by destruct c as [[] [] [] [] [] [] [] []]|].
    simpl in Hs. apply andb_true_iff in Hs as [Hd _].
    revert Hd. clear. all_chars c; all_chars d. }
  rewrite Hp. transitivity (hex_body (String c s)).
  { revert Hc. clear. all_chars c. }
  unfold hex_body. simpl. rewrite bool_decide_false by (intros ->; done).
  by destruct (hex_value c).
Qed.

Lemma int16_fixed n z :
  (0 < n)%nat → (0 ≤ z < 16 ^ Z.of_nat n)%Z → int16 (hex_fixed n z) = Some z.
Proof.
  intros Hn Hz. rewrite int16_lower.
  - rewrite hex_digits_fixed by done. f_equal; lia.
  - apply hex_fixed_lower.
  - intros H. pose proof (hex_fixed_length n z) as Hl. rewrite H in Hl. simpl in Hl. lia.
Qed.

(** ** Lemmas: UUIDs *)

#[local] Arguments str_take : simpl never.
#[local] Arguments str_drop : simpl never.

Lemma uuid_str_chars u : str_all is_uuid_char (uuid_str u) = true.
Proof.
  unfold uuid_str, uuid_layout. set (h := hex_fixed 32 u).
  assert (str_all is_uuid_char h = true) as Hh.
  { eapply str_all_impl; [|apply hex_fixed_lower]. intros c Hc. unfold is_uuid_char.
    by rewrite Hc. }
  rewrite !str_all_app, !str_all_take, !str_all_drop; try done; by apply str_all_drop.
Qed.

Lemma uuid_str_avoids a u :
  is_uuid_char a = false → str_all (λ c, negb (bool_decide (c = a))) (uuid_str u) = true.
Proof.
  intros Ha. eapply str_all_impl; [|apply uuid_str_chars].
  intros c Hc. apply negb_true_iff, bool_decide_eq_false. intros ->. congruence.
Qed.

Lemma uuid_layout_split (h : string) :
  str_take 8 h +:+ str_take 4 (str_drop 8 h) +:+ str_take 4 (str_drop 12 h) +:+
  str_take 4 (str_drop 16 h) +:+ str_drop 20 h = h.
Proof.
  change 20%nat with (16 + 4)%nat. rewrite <- (str_drop_drop 4 16).
  rewrite str_take_drop. change 16%nat with (12 + 4)%nat.
  rewrite <- (str_drop_drop 4 12), str_take_drop. change 12%nat with (8 + 4)%nat.
  rewrite <- (str_drop_drop 4 8), str_take_drop. apply str_take_drop.
Qed.

Lemma uuid_layout_undash h :
  str_all is_lower_hex h = true → str_remove "-" (uuid_layout h) = h.
Proof.
  intros Hh. unfold uuid_layout.
  assert (∀ s, str_all is_lower_hex s = true → str_remove "-" s = s) as Hid.
  { intros s Hs. apply str_remove_id. eapply str_all_impl; [|done]. intros c. all_chars c. }
  rewrite !str_remove_app. change (str_remove "-" "-") with "".
  rewrite !Hid by auto using str_all_take, str_all_drop. apply uuid_layout_split.
Qed.

Lemma uuid_parse_str u : (0 ≤ u < uuid_bound)%Z → uuid_parse (uuid_str u) = Some u.
Proof.
  intros Hu. unfold uuid_parse.
  rewrite !str_replace_id by (rewrite ?str_replace_id; by apply uuid_str_avoids).
  rewrite strip_id.
  - unfold uuid_str. rewrite uuid_layout_undash by apply hex_fixed_lower.
    rewrite hex_fixed_length, Nat.eqb_refl, int16_fixed by (unfold uuid_bound in *; simpl; lia).
    destruct Hu as [H1 H2]. apply Z.leb_le in H1. apply Z.ltb_lt in H2. by rewrite H1, H2.
  - eapply str_all_impl; [|apply uuid_str_chars]. intros c. all_chars c.
Qed.

Lemma uuid_parse_bound s u : uuid_parse s = Some u → (0 ≤ u < uuid_bound)%Z.
Proof.
  unfold uuid_parse. repeat case_match; try done. intros [= <-]. by bool_hyps.
Qed.

Lemma uuid_str_inj u v :
  (0 ≤ u < uuid_bound)%Z → (0 ≤ v < uuid_bound)%Z → uuid_str u = uuid_str v → u = v.
Proof.
  intros Hu Hv H. apply (f_equal uuid_parse) in H. rewrite !uuid_parse_str in H by done.
  congruence.
Qed.

Lemma uuid_str_length u : String.length (uuid_str u) = 36%nat.
Proof.
  unfold uuid_str, uuid_layout. pose proof (hex_fixed_length 32 u) as Hl.
  set (h := hex_fixed 32 u) in *. pose proof (uuid_layout_split h) as Hs.
  apply (f_equal String.length) in Hs. rewrite !str_length_app in *. simpl String.length in *. lia.
Qed.

#[export] Hint Resolve uuid_parse_bound : pym.
