(* ===== verification/PyNum.v ===== *)
(** * Python floats

    A Python [float] is an IEEE 754 binary64 number: Rocq's [spec_float] at
    precision 53, exponent bound 1024, whose operations round to nearest even
    as the hardware does.  [float_of_Z] and [float_of_str] are [float(int)]
    and [float(str)]; [float_div_int] is [int / int]. *)

From stdpp Require Import base strings list.
From Stdlib Require Import ZArith Lia Ascii.
From Corelib Require Import SpecFloat.
From S2P Require Import Prelude PyText.

Local Open Scope string_scope.

Definition prec : Z := 53.
Definition emax : Z := 1024.

Abbreviation float := spec_float.

#[export] Instance float_eq_dec : EqDecision float.
Proof. solve_decision. Defined.

(** Comparisons are IEEE's: every one with a NaN is false, [!=] excepted. *)
Definition flt (a b : float) : bool := SFltb a b.
Definition fle (a b : float) : bool := SFleb a b.
Definition fgt (a b : float) : bool := SFltb b a.
Definition fge (a b : float) : bool := SFleb b a.
Definition feq (a b : float) : bool := SFeqb a b.
Definition fne (a b : float) : bool := negb (SFeqb a b).

Definition fadd : float → float → float := SFadd prec emax.
Definition fsub : float → float → float := SFsub prec emax.
Definition fmul : float → float → float := SFmul prec emax.
Definition fdiv : float → float → float := SFdiv prec emax.

Definition is_finite (f : float) : bool :=
  match f with
  | S754_zero _ | S754_finite _ _ _ => true
  | S754_infinity _ | S754_nan => false
  end.

(** [bool(f)]: only the two zeros are false. *)
Definition float_truthy (f : float) : bool :=
  match f with S754_zero _ => false | _ => true end.

(** [float(z)]: OverflowError when the rounded value is out of range. *)
Definition float_of_Z (z : Z) : res float :=
  match binary_normalize prec emax z 0 false with
  | S754_infinity _ => Err OverflowError
  | f => Ok f
  end.

(** [a / b] on ints: the quotient rounded once.  OverflowError when it is out
    of range. *)
Definition float_div_int (a b : Z) : res float :=
  if Z.eqb b 0 then Err ZeroDivisionError
  else let neg := xorb (Z.ltb a 0) (Z.ltb b 0) in
       if Z.eqb a 0 then Ok (S754_zero neg)
       else let '(q, e, l) := SFdiv_core_binary prec emax (Z.abs a) 0 (Z.abs b) 0 in
            match binary_round_aux prec emax neg q e l with
            | S754_infinity _ => Err OverflowError
            | f => Ok f
            end.

(** The double nearest to [(-1)^neg * m * 10^e]; infinity past the range. *)
Definition float_of_dec (neg : bool) (m e : Z) : float :=
  match m with
  | Zpos p =>
      if Z.leb 0 e
      then binary_normalize prec emax ((if neg then -1 else 1) * m * 10 ^ e)%Z 0 neg
      else let '(q, e', l) := SFdiv_core_binary prec emax (Zpos p) 0 (10 ^ (- e))%Z 0 in
           binary_round_aux prec emax neg q e' l
  | _ => S754_zero neg
  end.

(** *** [float(str)] *)

Definition dec_value (c : ascii) : option Z :=
  let n := code c in if Z.leb 48 n && Z.leb n 57 then Some (n - 48)%Z else None.

(** A run of decimal digits, single underscores between them: its value, how
    many digits it has, and what follows. *)
Fixpoint dec_run (acc : Z) (n : nat) (us : bool) (s : string) : option (Z * nat * string) :=
  match s with
  | EmptyString => if us then None else Some (acc, n, EmptyString)
  | String c r =>
      if bool_decide (c = "_"%char)
      then (if us || (n =? 0)%nat then None else dec_run acc n true r)
      else match dec_value c with
           | Some d => dec_run (acc * 10 + d)%Z (S n) false r
           | None => if us then None else Some (acc, n, s)
           end
  end.

Definition lower (c : ascii) : ascii :=
  let n := code c in
  if Z.leb 65 n && Z.leb n 90 then ascii_of_N (Z.to_N (n + 32)%Z) else c.
Fixpoint str_lower (s : string) : string :=
  match s with EmptyString => EmptyString | String c r => String (lower c) (str_lower r) end.

Definition split_sign (s : string) : bool * string :=
  match s with
  | String "-" r => (true, r)
  | String "+" r => (false, r)
  | _ => (false, s)
  end.

(** The optional exponent, which must end the text. *)
Definition dec_exponent (s : string) : option Z :=
  match s with
  | EmptyString => Some 0%Z
  | String c r =>
      if bool_decide (lower c = "e"%char) then
        let '(neg, r) := split_sign r in
        match dec_run 0 0 false r with
        | Some (v, S _, EmptyString) => Some (if neg then - v else v)%Z
        | _ => None
        end
      else None
  end.

Definition float_number (neg : bool) (s : string) : option float :=
  match dec_run 0 0 false s with
  | None => None
  | Some (m, n, r) =>
      match (match r with
             | String "." r' => match dec_run m 0 false r' with
                                | Some (m', n', r'') => Some (m', n', r'')
                                | None => None
                                end
             | _ => Some (m, O, r)
             end) with
      | None => None
      | Some (m', n', r') =>
          if ((n + n') =? 0)%nat then None
          else match dec_exponent r' with
               | Some e => Some (float_of_dec neg m' (e - Z.of_nat n')%Z)
               | None => None
               end
      end
  end.

Definition float_of_str (s : string) : res float :=
  let '(neg, r) := split_sign (strip is_space s) in
  let w := str_lower r in
  if bool_decide (w = "inf") || bool_decide (w = "infinity") then Ok (S754_infinity neg)
  else if bool_decide (w = "nan") then Ok S754_nan
  else or_raise ValueError (float_number neg r).

(** ** Facts *)

Lemma flt_irrefl_nan f : flt S754_nan f = false ∧ flt f S754_nan = false.
Proof. split; [done | by destruct f]. Qed.

Lemma is_finite_not_nan f : is_finite f = true → f ≠ S754_nan.
Proof. by destruct f. Qed.

Example float_of_str_ex :
  map float_of_str ["12.5"; " -1_0e-1 "; "1e400"; "0x1"; "1__0"] =
  [Ok (S754_finite false 7036874417766400 (-49)); Ok (S754_finite true 4503599627370496 (-52));
   Ok (S754_infinity false); Err ValueError; Err ValueError].
Proof. vm_compute. reflexivity. Qed.

Example float_div_int_ex :
  map (float_div_int 1) [10; -3; 0]%Z =
  [Ok (S754_finite false 7205759403792794 (-56)); Ok (S754_finite true 6004799503160661 (-54));
   Err ZeroDivisionError].
Proof. vm_compute. reflexivity. Qed.
