(* ===== verification/PyJson.v ===== *)
(** * JSON values and datetimes

    What [json.loads] gives the program ([json]), the [dict.get] and
    truthiness it applies to it, and the interface ([JsonCodec]) through
    which messages are encoded and decoded.  Event times are [datetime]s:
    [pydt], with [as_utc]'s arithmetic on them and the ISO 8601 codec as an
    interface ([IsoCodec]). *)

From stdpp Require Import base strings list.
From Stdlib Require Import ZArith Lia Ascii.
From Corelib Require Import SpecFloat.
From S2P Require Import Prelude PyText PyNum.

Local Open Scope string_scope.

Set Warnings "-register-all".

(** ** Values *)

(** A dict keeps one entry per key: [json.loads] keeps the last of a repeated
    one, so the entries have distinct keys. *)
Inductive json :=
  | JNull
  | JBool (b : bool)
  | JInt (z : Z)
  | JFloat (f : float)
  | JStr (s : string)
  | JList (l : list json)
  | JDict (d : list (string * json)).

Abbreviation dict := (list (string * json)).

(** [d.get(k)], a missing key giving None as [JNull] is None. *)
Fixpoint dict_lookup (k : string) (d : dict) : option json :=
  match d with
  | [] => None
  | (k', v) :: d' => if bool_decide (k = k') then Some v else dict_lookup k d'
  end.
Definition jget (k : string) (d : dict) : json := default JNull (dict_lookup k d).

(** [k in d], and [d[k] = v], which keeps the place of a key that is there. *)
Definition dict_has (k : string) (d : dict) : bool := bool_decide (is_Some (dict_lookup k d)).
Fixpoint dict_put (k : string) (v : json) (d : dict) : dict :=
  match d with
  | [] => [(k, v)]
  | (k', v') :: r => if bool_decide (k = k') then (k, v) :: r else (k', v') :: dict_put k v r
  end.

Definition truthy (v : json) : bool :=
  match v with
  | JNull => false
  | JBool b => b
  | JInt z => negb (Z.eqb z 0)
  | JFloat f => float_truthy f
  | JStr s => negb (bool_decide (s = ""))
  | JList l => match l with [] => false | _ => true end
  | JDict d => match d with [] => false | _ => true end
  end.

Lemma dict_put_eq k v d : dict_lookup k (dict_put k v d) = Some v.
Proof.
  induction d as [|[k' v'] d IH]; cbn; [by rewrite bool_decide_true|].
  case_bool_decide as E; cbn; [by rewrite bool_decide_true | by rewrite bool_decide_false].
Qed.

Lemma dict_put_ne k k' v d : k ≠ k' → dict_lookup k' (dict_put k v d) = dict_lookup k' d.
Proof.
  intros Hne. induction d as [|[k0 v0] d IH]; cbn; [by rewrite bool_decide_false|].
  case_bool_decide as E; cbn.
  - subst k0. by rewrite !bool_decide_false.
  - by rewrite IH.
Qed.

Lemma dict_has_lookup k d : dict_has k d = true ↔ is_Some (dict_lookup k d).
Proof. apply bool_decide_eq_true. Qed.

Definition is_null (v : json) : bool := match v with JNull => true | _ => false end.

(** [uuid.UUID(str(v))].  Of the values that are not strings only an int can
    spell a UUID (32 decimal digits are 32 hexadecimal ones): [str] of a bool,
    None or a float is shorter than 32 characters, and of a list or non-empty
    dict it holds a bracket or a quote. *)
Definition json_uuid (v : json) : option Z :=
  match v with
  | JStr s => uuid_parse s
  | JInt z => uuid_parse (str_of_Z z)
  | _ => None
  end.

(** [float(v)] *)
Definition json_float (v : json) : res float :=
  match v with
  | JFloat f => Ok f
  | JInt z => float_of_Z z
  | JBool b => float_of_Z (if b then 1 else 0)%Z
  | JStr s => float_of_str s
  | JNull | JList _ | JDict _ => Err TypeError
  end.

(** ** The codec

    [json_loads] raises JSONDecodeError on text that is not JSON,
    UnicodeDecodeError on bytes that are not UTF-8, a plain ValueError on an
    integer literal past the interpreter's digit limit and RecursionError on
    nesting past its depth limit.  [loads_dumps] is the documented round trip,
    for the flat objects of strings, bools and floats the program encodes. *)

Definition flat_value (v : json) : bool :=
  match v with JNull | JBool _ | JStr _ | JFloat _ => true | _ => false end.
Definition flat_object (v : json) : bool :=
  match v with JDict d => forallb (λ kv, flat_value kv.2) d | _ => false end.

Class JsonCodec := {
  bytes : Type;
  json_loads : bytes → res json;
  json_dumps : json → bytes;
  loads_dumps v : flat_object v = true → json_loads (json_dumps v) = Ok v
}.

(** The codec of already-decoded messages: a message is what loading it
    gives.  Concrete, for evaluating examples. *)
Definition decoded_codec : JsonCodec := {|
  bytes := res json;
  json_loads r := r;
  json_dumps v := Ok v;
  loads_dumps _ _ := eq_refl
|}.

(** ** Datetimes

    Microseconds since 0001-01-01T00:00:00, in the datetime's own clock; an
    aware one carries its UTC offset. *)

Inductive pydt :=
  | Naive (us : Z)
  | Aware (us offset : Z).

(** [datetime.max], exclusive: the end of year 9999. *)
Definition max_us : Z := (315537897600 * 1000000)%Z.
Definition in_range (us : Z) : bool := Z.leb 0 us && Z.ltb us max_us.

(** [astimezone(timezone.utc)], or [replace(tzinfo=utc)] for a naive time:
    the instant in UTC.  OverflowError when it leaves the calendar. *)
Definition dt_utc (t : pydt) : res Z :=
  match t with
  | Naive us => Ok us
  | Aware us off =>
      let u := (us - off)%Z in if in_range u then Ok u else Err OverflowError
  end.

(** [datetime.fromisoformat], and [isoformat] of an aware UTC datetime.  The
    hypotheses are the documented ones: the round trip, that [fromisoformat]
    raises ValueError and gives a datetime between [datetime.min] and
    [datetime.max], and that [isoformat] writes no [Z] (the offset is
    [+00:00]) and no [|], and is not empty. *)
Class IsoCodec := {
  fromisoformat : string → res pydt;
  isoformat : Z → string;
  iso_roundtrip t : in_range t = true → fromisoformat (isoformat t) = Ok (Aware t 0);
  iso_errors s e : fromisoformat s = Err e → e = ValueError;
  iso_naive s us : fromisoformat s = Ok (Naive us) → in_range us = true;
  iso_no_z t : str_all (λ c, negb (bool_decide (c = "Z"%char))) (isoformat t) = true;
  iso_no_bar t : str_all (λ c, negb (bool_decide (c = "|"%char))) (isoformat t) = true;
  iso_nonempty t : isoformat t ≠ ""
}.

(** Rewriting a [Z] suffix leaves [isoformat]'s own output alone. *)
Lemma iso_roundtrip_z `{IsoCodec} t :
  in_range t = true → fromisoformat (str_replace "Z" "+00:00" (isoformat t)) = Ok (Aware t 0).
Proof. intros Ht. rewrite str_replace_id by apply iso_no_z. by apply iso_roundtrip. Qed.

Lemma isoformat_inj `{IsoCodec} t u :
  in_range t = true → in_range u = true → isoformat t = isoformat u → t = u.
Proof.
  intros Ht Hu E. pose proof (iso_roundtrip t Ht) as Rt. pose proof (iso_roundtrip u Hu) as Ru.
  rewrite E in Rt. congruence.
Qed.

(** A codec of instants for evaluating examples: sixteen hexadecimal digits
    stand for the calendar notation. *)
Definition hex_fromiso (s : string) : res pydt :=
  match s with
  | String "T" r => (λ z, Aware z 0) <$> or_raise ValueError (int16 r)
  | _ => Err ValueError
  end.

Definition hex_isoformat (t : Z) : string := "T" +:+ hex_fixed 16 t.

Lemma hex_iso_roundtrip t :
  in_range t = true → hex_fromiso (hex_isoformat t) = Ok (Aware t 0).
Proof.
  intros Ht. change (hex_isoformat t) with (String "T" (hex_fixed 16 t)). unfold hex_fromiso.
  rewrite int16_fixed; [done | lia |].
  change (16 ^ Z.of_nat 16)%Z with 18446744073709551616%Z.
  unfold in_range, max_us in Ht. bool_hyps. lia.
Qed.

Lemma hex_iso_no_z t : str_all (λ c, negb (bool_decide (c = "Z"%char))) (hex_isoformat t) = true.
Proof.
  unfold hex_isoformat. rewrite str_all_app. apply andb_true_iff. split; [done|].
  eapply str_all_impl; [|apply hex_fixed_lower]. intros c. all_chars c.
Qed.

Lemma hex_iso_no_bar t : str_all (λ c, negb (bool_decide (c = "|"%char))) (hex_isoformat t) = true.
Proof.
  unfold hex_isoformat. rewrite str_all_app. apply andb_true_iff. split; [done|].
  eapply str_all_impl; [|apply hex_fixed_lower]. intros c. all_chars c.
Qed.

Lemma hex_iso_errors s e : hex_fromiso s = Err e → e = ValueError.
Proof.
  unfold hex_fromiso. destruct s as [|c r]; [by intros [= <-]|].
  destruct c as [[] [] [] [] [] [] [] []]; try by intros [= <-].
  destruct (int16 r); simpl; [done | by intros [= <-]].
Qed.

Lemma hex_iso_naive s us : hex_fromiso s = Ok (Naive us) → in_range us = true.
Proof.
  unfold hex_fromiso. destruct s as [|c r]; [done|].
  destruct c as [[] [] [] [] [] [] [] []]; try done. by destruct (int16 r).
Qed.

Definition hex_iso : IsoCodec := {|
  fromisoformat := hex_fromiso;
  isoformat := hex_isoformat;
  iso_roundtrip := hex_iso_roundtrip;
  iso_errors := hex_iso_errors;
  iso_naive := hex_iso_naive;
  iso_no_z := hex_iso_no_z;
  iso_no_bar := hex_iso_no_bar;
  iso_nonempty t H := ltac:(discriminate H)
|}.
