(* ===== verification/Tenancy.v ===== *)
(** * Tenant naming: libs/industryflow_contracts/industryflow_contracts/tenancy.py

    The one mapping from a [company_id] to every name derived from it
    (schema, roles, MLflow prefixes, cold-archive prefixes), its strict
    inverse [company_id_from_schema], and the ownership tests on names and
    object-store keys.

    A [company_id] is the string [str(company_id)] gives; a key or name that
    Python receives as a non-[str] is [None]. *)

From stdpp Require Import base strings list.
From Stdlib Require Import ZArith Lia Ascii.
From S2P Require Import Prelude PyText.

Local Open Scope string_scope.

#[local] Arguments String.append !_ _ / : simpl nomatch.

(** ** Names *)

Definition tenant_prefix : string := "tenant_".

(** [SCHEMA_LIKE]: the SQL pattern [tenant\_%], its underscore escaped. *)
Definition schema_like (name : string) : bool := startswith tenant_prefix name.

Definition canonical_company_id (company_id : string) : res string :=
  uuid_str <$> or_raise ValueError (uuid_parse company_id).

Definition underscored (company_id : string) : res string :=
  str_subst "-" "_" <$> canonical_company_id company_id.

Definition tenant_token (company_id : string) : res string :=
  (λ u, tenant_prefix +:+ u) <$> underscored company_id.

Definition schema_name (company_id : string) : res string := tenant_token company_id.

Definition reader_role_name (company_id : string) : res string :=
  (λ u, tenant_prefix +:+ "reader_" +:+ u) <$> underscored company_id.

Definition sql_login_name (company_id : string) : res string :=
  (λ u, tenant_prefix +:+ "sqlproxy_" +:+ u) <$> underscored company_id.

Definition mlflow_name_prefix (company_id : string) : res string :=
  (λ t, t +:+ ".") <$> tenant_token company_id.

Definition mlflow_deleted_name_root : string := "_deleted.".

Definition mlflow_deleted_name_prefix (company_id : string) : res string :=
  (λ p, mlflow_deleted_name_root +:+ p) <$> mlflow_name_prefix company_id.

Definition mlflow_artifact_prefix (company_id : string) : res string :=
  (λ t, t +:+ "/") <$> tenant_token company_id.

Definition cold_object_prefix (company_id : string) : res string :=
  (λ c, tenant_prefix +:+ c) <$> canonical_company_id company_id.

Definition cold_key_prefix (company_id : string) : res string :=
  (λ p, p +:+ "/") <$> cold_object_prefix company_id.

(** ** Ownership *)

Definition qualify_name (prefix name : string) : string :=
  if startswith prefix name then name else prefix +:+ name.

Definition owned_name (prefix : string) (qualified : option string) : option string :=
  match qualified with
  | None => None
  | Some q =>
      if bool_decide (q = "") || negb (startswith prefix q) then None
      else Some (str_drop (String.length prefix) q)
  end.

Definition plain_segment (seg : string) : bool :=
  negb (bool_decide (seg = "") || bool_decide (seg = ".") || bool_decide (seg = "..")).

Definition is_plain_key (key : string) : bool :=
  negb (str_has "\" key) && negb (str_any is_control key) &&
  forallb plain_segment (str_split "/" key).

Definition is_slash (c : ascii) : bool := bool_decide (c = "/"%char).

Definition owns_key (prefix : string) (key : option string) (encoded : bool) : bool :=
  match key with
  | None => false
  | Some k =>
      let k := lstrip is_slash k in
      if bool_decide (k = "") || (encoded && str_has "%" k) then false
      else is_plain_key k && startswith prefix k
  end.

Definition scope_key (prefix : string) (path : option string) : res string :=
  let path := lstrip is_slash (default "" path) in
  if negb (bool_decide (path = "")) && negb (is_plain_key (rstrip is_slash path))
  then Err ValueError
  else Ok (if startswith prefix path then path else prefix +:+ path).

Definition company_id_from_schema (name : string) : res string :=
  if negb (startswith tenant_prefix name) then Err ValueError
  else
    company_id ← canonical_company_id
                   (str_subst "_" "-" (str_drop (String.length tenant_prefix) name));
    schema ← schema_name company_id;
    if bool_decide (schema = name) then Ok company_id else Err ValueError.

(** ** Canonical identifiers *)

(** [c] is the canonical form of some tenant. *)
Definition canonical (c : string) : Prop := canonical_company_id c = Ok c.

Lemma canonical_inv s c :
  canonical_company_id s = Ok c →
  ∃ u, uuid_parse s = Some u ∧ (0 ≤ u < uuid_bound)%Z ∧ c = uuid_str u.
Proof.
  unfold canonical_company_id. destruct (uuid_parse s) as [u|] eqn:E; [|done].
  intros [= <-]. eauto using uuid_parse_bound.
Qed.

Lemma canonical_str u : (0 ≤ u < uuid_bound)%Z → canonical (uuid_str u).
Proof. intros Hu. unfold canonical, canonical_company_id. by rewrite uuid_parse_str. Qed.

(** Canonicalising is idempotent. *)
Lemma canonical_idem s c : canonical_company_id s = Ok c → canonical c.
Proof. intros (u & _ & Hu & ->)%canonical_inv. by apply canonical_str. Qed.

Lemma canonical_value_error s e : canonical_company_id s = Err e → e = ValueError.
Proof. unfold canonical_company_id. destruct (uuid_parse s); simpl; congruence. Qed.

Lemma canonical_length s c : canonical_company_id s = Ok c → String.length c = 36%nat.
Proof. intros (u & _ & _ & ->)%canonical_inv. apply uuid_str_length. Qed.

Lemma canonical_avoids a s c :
  canonical_company_id s = Ok c → is_uuid_char a = false →
  str_all (λ d, negb (bool_decide (d = a))) c = true.
Proof. intros (u & _ & _ & ->)%canonical_inv. apply uuid_str_avoids. Qed.

(** The underscored spelling loses nothing. *)
Lemma underscore_inv s c :
  canonical_company_id s = Ok c → str_subst "_" "-" (str_subst "-" "_" c) = c.
Proof. intros H. apply str_subst_inv. by eapply canonical_avoids. Qed.

Lemma underscored_inj a b u :
  underscored a = Ok u → underscored b = Ok u →
  canonical_company_id a = canonical_company_id b.
Proof.
  unfold underscored. destruct (canonical_company_id a) as [ca|] eqn:Ea; [|done].
  destruct (canonical_company_id b) as [cb|] eqn:Eb; [|done].
  intros [= <-] [= H]. f_equal.
  rewrite <- (underscore_inv _ _ Ea), <- (underscore_inv _ _ Eb). by rewrite H.
Qed.

Lemma underscored_length a u : underscored a = Ok u → String.length u = 36%nat.
Proof.
  unfold underscored. destruct (canonical_company_id a) as [c|] eqn:E; [|done].
  intros [= <-]. rewrite str_length_subst. by eapply canonical_length.
Qed.

Lemma res_fmap_inv {A B} (f : A → B) r b : f <$> r = Ok b → ∃ a, r = Ok a ∧ b = f a.
Proof. destruct r as [a|e]; simpl; [|done]. intros [= <-]. by exists a. Qed.

(** ** Prefixes and ownership *)

(** A tenant-name builder: every name it gives has one length and names its
    tenant.  The ownership lemmas below hold for each such builder. *)
Class TenantNaming (f : string → res string) (len : nat) := {
  naming_length : ∀ c n, f c = Ok n → String.length n = len;
  naming_inj : ∀ a b n, f a = Ok n → f b = Ok n →
               canonical_company_id a = canonical_company_id b
}.

Lemma fixed_frame_naming (f : string → res string) (g : string → res string) pre post l :
  TenantNaming g l → (∀ c, f c = (λ u, pre +:+ u +:+ post) <$> g c) →
  TenantNaming f (String.length pre + (l + String.length post)).
Proof.
  intros [Hl Hi] Hf. split.
  - intros c n. rewrite Hf. intros (u & Hu & ->)%res_fmap_inv.
    rewrite !str_length_app. by rewrite (Hl _ _ Hu).
  - intros a b n. rewrite !Hf. intros (u & Hu & ->)%res_fmap_inv (v & Hv & H)%res_fmap_inv.
    apply str_app_inj_l in H.
    assert (u = v) as ->.
    { apply (startswith_same_length u v (u +:+ post)).
      - apply startswith_app.
      - rewrite H. apply startswith_app.
      - by rewrite (Hl _ _ Hu), (Hl _ _ Hv). }
    eauto.
Qed.

#[export] Instance canonical_naming : TenantNaming canonical_company_id 36.
Proof.
  split.
  - apply canonical_length.
  - intros a b n Ha Hb. congruence.
Qed.

#[export] Instance underscored_naming : TenantNaming underscored 36.
Proof. split; eauto using underscored_length, underscored_inj. Qed.

Ltac naming_frame g pre post l :=
  apply (fixed_frame_naming _ g pre post l); [typeclasses eauto |];
  let c := fresh in intros c;
  match goal with |- ?f _ = _ => unfold f end;
  destruct (g c); simpl; rewrite ?str_app_nil_r; reflexivity.

#[export] Instance token_naming : TenantNaming tenant_token 43.
Proof. naming_frame underscored "tenant_" "" 36%nat. Qed.
#[export] Instance schema_naming : TenantNaming schema_name 43.
Proof. apply token_naming. Qed.
#[export] Instance reader_naming : TenantNaming reader_role_name 50.
Proof. naming_frame underscored "tenant_reader_" "" 36%nat. Qed.
#[export] Instance login_naming : TenantNaming sql_login_name 52.
Proof. naming_frame underscored "tenant_sqlproxy_" "" 36%nat. Qed.
#[export] Instance mlflow_naming : TenantNaming mlflow_name_prefix 44.
Proof. naming_frame tenant_token "" "." 43%nat. Qed.
#[export] Instance artifact_naming : TenantNaming mlflow_artifact_prefix 44.
Proof. naming_frame tenant_token "" "/" 43%nat. Qed.
#[export] Instance cold_naming : TenantNaming cold_object_prefix 43.
Proof. naming_frame canonical_company_id "tenant_" "" 36%nat. Qed.
#[export] Instance cold_key_naming : TenantNaming cold_key_prefix 44.
Proof. naming_frame cold_object_prefix "" "/" 43%nat. Qed.

(** No string carries the prefixes of two tenants. *)
Lemma prefix_exclusive `{TenantNaming f l} a b pa pb s :
  f a = Ok pa → f b = Ok pb → startswith pa s = true → startswith pb s = true →
  canonical_company_id a = canonical_company_id b.
Proof.
  intros Ha Hb Sa Sb.
  assert (pa = pb) as <-.
  { eapply startswith_same_length; [done.. |].
    by rewrite (naming_length _ _ Ha), (naming_length _ _ Hb). }
  by eapply naming_inj.
Qed.

Lemma owns_key_startswith prefix k enc :
  owns_key prefix (Some k) enc = true →
  startswith prefix (lstrip is_slash k) = true ∧ is_plain_key (lstrip is_slash k) = true.
Proof. simpl. case_match; [done|]. intros Hk. by bool_hyps. Qed.

Lemma owned_name_startswith prefix q n :
  owned_name prefix (Some q) = Some n → startswith prefix q = true ∧ q = prefix +:+ n.
Proof.
  simpl. case_match eqn:E; [done|]. bool_hyps.
  intros [= <-]. split; [done|].
  match goal with H : startswith _ _ = true |- _ => apply startswith_spec in H as [r ->] end.
  by rewrite str_drop_prefix.
Qed.

(** *** Key segments *)

Lemma str_all_iff p q s : (∀ c, p c = q c) → str_all p s = str_all q s.
Proof. intros H. induction s as [|c s IH]; simpl; [done|]. by rewrite H, IH. Qed.

Lemma str_any_app p a b : str_any p (a +:+ b) = str_any p a || str_any p b.
Proof. unfold str_any. rewrite str_all_app. by rewrite negb_andb. Qed.

Lemma str_has_app c a b : str_has c (a +:+ b) = str_has c a || str_has c b.
Proof. apply str_any_app. Qed.

(** Splitting at a separator that follows [a]. *)
Lemma str_split_app_sep c a b :
  str_split c (a +:+ String c b) = (str_split c a ++ str_split c b)%list.
Proof.
  induction a as [|d a IH]; simpl.
  - by rewrite bool_decide_true.
  - case_bool_decide; [by rewrite IH|]. rewrite IH.
    destruct (str_split c a) as [|w ws] eqn:E; simpl; [|done].
    exfalso. clear -E. destruct a as [|e a]; simpl in E; [done|].
    case_bool_decide; [done|]. by destruct (str_split c a).
Qed.

Lemma str_split_no_sep c s :
  str_all (λ d, negb (bool_decide (d = c))) s = true → str_split c s = [s].
Proof.
  induction s as [|d s IH]; simpl; [done|].
  intros [H1 H2]%andb_true_iff. bool_hyps. rewrite bool_decide_false by done.
  by rewrite IH.
Qed.

(** A one-segment directory prefix [seg/], itself plain. *)
Definition dir_prefix (p seg : string) : Prop :=
  p = seg +:+ "/" ∧ str_all (λ d, negb (bool_decide (d = "/"%char))) seg = true ∧
  is_plain_key seg = true.

Lemma plain_key_under p seg k :
  dir_prefix p seg → is_plain_key k = true → is_plain_key (p +:+ k) = true.
Proof.
  intros (-> & Hs & Hp) Hk. unfold is_plain_key in *. bool_hyps.
  rewrite str_app_assoc, !str_has_app, !str_any_app.
  simpl (_ +:+ k). rewrite str_split_app_sep, str_split_no_sep, forallb_app by done.
  rewrite str_split_no_sep in * by done.
  rewrite !andb_true_iff, !negb_true_iff, !orb_false_iff.
  repeat split; try done.
Qed.

Lemma lstrip_cons c s : is_slash c = false → lstrip is_slash (String c s) = String c s.
Proof. intros H. simpl. by rewrite H. Qed.

Lemma lstrip_idem p s : lstrip p (lstrip p s) = lstrip p s.
Proof. induction s as [|c s IH]; simpl; [done|]. case_match eqn:E; [done|]. simpl. by rewrite E. Qed.

Lemma tenant_first_char (f : string → res string) c n :
  (∀ c n, f c = Ok n → ∃ r, n = tenant_prefix +:+ r) → f c = Ok n →
  ∀ k, lstrip is_slash (n +:+ k) = n +:+ k.
Proof.
  intros Hf Hn k. destruct (Hf _ _ Hn) as [r ->]. unfold tenant_prefix.
  rewrite str_app_assoc. reflexivity.
Qed.

Lemma token_shape c n :
  tenant_token c = Ok n → ∃ u, (0 ≤ u < uuid_bound)%Z ∧ n = tenant_prefix +:+ str_subst "-" "_" (uuid_str u).
Proof.
  unfold tenant_token, underscored. intros (x & (y & (u & _ & Hu & ->)%canonical_inv & ->)%res_fmap_inv & ->)%res_fmap_inv.
  eauto.
Qed.

Definition token_char (c : ascii) : bool :=
  is_uuid_char c || bool_decide (c = "_"%char) ||
  str_has c "tenant_".

Lemma token_chars c n : tenant_token c = Ok n → str_all token_char n = true.
Proof.
  intros (u & _ & ->)%token_shape. rewrite str_all_app. apply andb_true_iff. split; [done|].
  pose proof (uuid_str_chars u) as H. induction (uuid_str u) as [|d s IH]; simpl in *; [done|].
  apply andb_true_iff in H as [Hd Hs]. rewrite (IH Hs), andb_true_r.
  unfold token_char. case_bool_decide as Hc; [done|]. by rewrite Hd.
Qed.

Lemma token_plain c n : tenant_token c = Ok n →
  str_all (λ d, negb (bool_decide (d = "/"%char))) n = true ∧ is_plain_key n = true.
Proof.
  intros Hn. pose proof (token_chars _ _ Hn) as Ht.
  assert (∀ p, (∀ d, token_char d = true → p d = true) → str_all p n = true) as Hall
    by (intros p Hp; by eapply str_all_impl).
  assert (str_all (λ d, negb (bool_decide (d = "/"%char))) n = true) as Hsl
    by (apply Hall; intros d; all_chars d).
  split; [done|]. unfold is_plain_key, str_has, str_any.
  rewrite !negb_involutive, str_split_no_sep by done.
  rewrite !andb_true_iff. repeat split.
  - apply Hall. intros d; all_chars d.
  - apply Hall. intros d; all_chars d.
  - simpl. destruct (token_shape _ _ Hn) as (u & _ & ->). done.
Qed.

Lemma artifact_dir c p : mlflow_artifact_prefix c = Ok p → ∃ seg, dir_prefix p seg.
Proof.
  unfold mlflow_artifact_prefix. intros (n & Hn & ->)%res_fmap_inv.
  exists n. destruct (token_plain _ _ Hn). by repeat split.
Qed.

Lemma company_id_from_schema_error n e : company_id_from_schema n = Err e → e = ValueError.
Proof.
  unfold company_id_from_schema. case_match; [congruence|].
  destruct (canonical_company_id _) as [d|e'] eqn:Ed; simpl.
  - unfold schema_name, tenant_token, underscored.
    apply canonical_idem in Ed. rewrite Ed. simpl. case_bool_decide; congruence.
  - apply canonical_value_error in Ed as ->. congruence.
Qed.

Lemma schema_inverse (name c : string) :
  company_id_from_schema name = Ok c ↔ canonical c ∧ schema_name c = Ok name.
Proof.
  unfold company_id_from_schema. split.
  - case_match; [done|].
    intros (d & Hd & (s & Hs & Hif)%res_bind_inv_ok)%res_bind_inv_ok.
    case_bool_decide; simplify_eq. eauto using canonical_idem.
  - intros [Hc Hn]. pose proof Hn as Hn'.
    unfold schema_name, tenant_token in Hn'.
    apply res_fmap_inv in Hn' as (u & Hu & ->).
    rewrite startswith_app, str_drop_prefix. simpl.
    unfold underscored in Hu. rewrite Hc in Hu. simpl in Hu. simplify_eq.
    erewrite underscore_inv by done. rewrite Hc. simpl. rewrite Hn. simpl.
    by rewrite bool_decide_true.
Qed.

Lemma schema_name_ok c : canonical c → ∃ n, schema_name c = Ok n ∧ schema_like n = true.
Proof.
  intros Hc. unfold schema_name, tenant_token, underscored. rewrite Hc. simpl.
  eexists. split; [done|]. apply (startswith_app tenant_prefix).
Qed.

(** ** Properties *)

(** C36: [company_id_from_schema] is the exact inverse of [schema_name]: it
    accepts a name if and only if it is the schema of a canonical company id,
    and then returns that id; any other name is refused with ValueError.  So
    distinct tenants have distinct schemas, and a look-alike schema is never
    taken for a tenant. *)
Theorem company_id_from_schema_exact (name : string) :
  (∀ c, company_id_from_schema name = Ok c ↔ canonical c ∧ schema_name c = Ok name) ∧
  (∀ e, company_id_from_schema name = Err e → e = ValueError) ∧
  (∀ a, schema_name a = Ok name → company_id_from_schema name = canonical_company_id a).
Proof.
  split; [intros c; apply schema_inverse|]. split; [apply company_id_from_schema_error|].
  intros a Ha. destruct (canonical_company_id a) as [c|] eqn:Ea.
  - apply schema_inverse. split; [by eapply canonical_idem|].
    rewrite <- Ha. unfold schema_name, tenant_token, underscored.
    by rewrite Ea, (canonical_idem _ _ Ea).
  - exfalso. unfold schema_name, tenant_token, underscored in Ha. by rewrite Ea in Ha.
Qed.

(** [company_id_from_schema] applies at a concrete tenant, in both directions. *)
Lemma company_id_from_schema_example :
  company_id_from_schema "tenant_6f1c2a4e_7d3b_5e8a_9c0f_1b2d3e4f5a6b" =
    Ok "6f1c2a4e-7d3b-5e8a-9c0f-1b2d3e4f5a6b" ∧
  company_id_from_schema "tenant_6F1C2A4E_7d3b_5e8a_9c0f_1b2d3e4f5a6b" = Err ValueError.
Proof. split; vm_compute; reflexivity. Qed.

Lemma schema_length_strict n c : company_id_from_schema n = Ok c → String.length n = 43%nat.
Proof.
  unfold company_id_from_schema. case_match; [done|].
  intros (d & Hd & (s & Hs & Hif)%res_bind_inv_ok)%res_bind_inv_ok.
  case_bool_decide; simplify_eq. apply (naming_length _ _ Hs).
Qed.


(** A database role is never mistaken for a tenant schema and no two
    names of different kinds collide: the reader role, the proxy login and the
    schema of any three tenants are pairwise distinct, and
    [company_id_from_schema] refuses both roles with ValueError. *)
Theorem tenant_roles_distinct a b c reader login schema
    (Hr : reader_role_name a = Ok reader) (Hl : sql_login_name b = Ok login)
    (Hs : schema_name c = Ok schema) :
  reader ≠ login ∧ reader ≠ schema ∧ login ≠ schema ∧
  company_id_from_schema reader = Err ValueError ∧
  company_id_from_schema login = Err ValueError.
Proof.
  pose proof (naming_length _ _ Hr) as Lr. pose proof (naming_length _ _ Hl) as Ll.
  pose proof (naming_length _ _ Hs) as Ls.
  assert (∀ n, String.length n ≠ 43%nat → company_id_from_schema n = Err ValueError) as Hno.
  { intros n Hn. destruct (company_id_from_schema n) as [d|e] eqn:E.
    - by apply schema_length_strict in E.
    - by apply company_id_from_schema_error in E as ->. }
  repeat split; try (apply Hno; lia); intros ->; lia.
Qed.

Lemma tenant_roles_distinct_witness :
  let a := "6f1c2a4e-7d3b-5e8a-9c0f-1b2d3e4f5a6b" in
  company_id_from_schema "tenant_reader_6f1c2a4e_7d3b_5e8a_9c0f_1b2d3e4f5a6b" = Err ValueError.
Proof.
  intros a.
  apply (tenant_roles_distinct a a a "tenant_reader_6f1c2a4e_7d3b_5e8a_9c0f_1b2d3e4f5a6b"
    "tenant_sqlproxy_6f1c2a4e_7d3b_5e8a_9c0f_1b2d3e4f5a6b"
    "tenant_6f1c2a4e_7d3b_5e8a_9c0f_1b2d3e4f5a6b"); vm_compute; reflexivity.
Defined.

(** Tenant isolation of the object store: a key that two tenants' key
    prefixes (the MLflow artifact prefixes, or the cold-archive ones) both own
    belongs to one tenant, in whatever spelling its id was given. *)
Theorem owned_key_one_tenant (prefix_of : string → res string) a b pa pb key ea eb
    (Hf : prefix_of = mlflow_artifact_prefix ∨ prefix_of = cold_key_prefix)
    (Ha : prefix_of a = Ok pa) (Hb : prefix_of b = Ok pb)
    (Oa : owns_key pa key ea = true) (Ob : owns_key pb key eb = true) :
  canonical_company_id a = canonical_company_id b.
Proof.
  destruct key as [k|]; [|done].
  apply owns_key_startswith in Oa as [Sa _], Ob as [Sb _].
  destruct Hf as [-> | ->]; exact (prefix_exclusive _ _ _ _ _ Ha Hb Sa Sb).
Qed.

Lemma owned_key_one_tenant_witness :
  let k := "/tenant_6f1c2a4e_7d3b_5e8a_9c0f_1b2d3e4f5a6b/1/artifacts/model.pkl" in
  canonical_company_id "{6F1C2A4E-7d3b-5e8a-9c0f-1b2d3e4f5a6b}" =
  canonical_company_id "urn:uuid:6f1c2a4e7d3b5e8a9c0f1b2d3e4f5a6b".
Proof.
  intros k. apply (owned_key_one_tenant mlflow_artifact_prefix _ _
    "tenant_6f1c2a4e_7d3b_5e8a_9c0f_1b2d3e4f5a6b/"
    "tenant_6f1c2a4e_7d3b_5e8a_9c0f_1b2d3e4f5a6b/" (Some k) false true);
    [left; reflexivity | vm_compute; reflexivity ..].
Defined.

(** *** Scoping a path *)

Lemma rstrip_app_nonempty p a b :
  rstrip p b ≠ "" → rstrip p (a +:+ b) = a +:+ rstrip p b.
Proof.
  intros Hb. induction a as [|c a IH]; simpl; [done|]. rewrite IH.
  destruct a as [|d a]; simpl; [|done]. by destruct (rstrip p b).
Qed.

Lemma rstrip_nonempty p c s : p c = false → rstrip p (String c s) ≠ "".
Proof. intros Hc. simpl. rewrite Hc. by destruct (rstrip p s). Qed.

Lemma lstrip_nonempty_rstrip s :
  lstrip is_slash s ≠ "" → rstrip is_slash (lstrip is_slash s) ≠ "".
Proof.
  induction s as [|c s IH]; simpl; [done|]. destruct (is_slash c) eqn:E; [done|].
  intros _. by apply rstrip_nonempty.
Qed.

(** Under a tenant directory prefix, the scoped path is plain up to trailing
    separators and starts with the prefix. *)
Lemma scope_key_shape p seg path k :
  dir_prefix p seg → scope_key p path = Ok k →
  startswith p k = true ∧ is_plain_key (rstrip is_slash k) = true.
Proof.
  intros Hdir. pose proof Hdir as (Hp & Hns & Hpl). unfold scope_key.
  set (s := lstrip is_slash (default "" path)).
  destruct (bool_decide (s = "")) eqn:Es; simpl.
  - bool_hyps. intros [= <-]. rewrite Es. subst p.
    assert (startswith (seg +:+ "/") "" = false) as ->.
    { apply not_true_iff_false. intros [r Hr]%startswith_spec. by destruct seg. }
    split; [apply startswith_app|]. rewrite str_app_nil_r.
    assert (rstrip is_slash (seg +:+ "/") = seg) as ->; [|done].
    clear -Hns. induction seg as [|c r IH]; simpl in *; [done|].
    apply andb_true_iff in Hns as [Hc Hr]. rewrite (IH Hr). bool_hyps.
    destruct r; [|done]. unfold is_slash. by rewrite bool_decide_false.
  - case_match eqn:Eg; [done|]. bool_hyps. intros [= <-].
    destruct (startswith p s) eqn:Esw; [done|]. split; [apply startswith_app|].
    rewrite rstrip_app_nonempty by (by apply lstrip_nonempty_rstrip).
    by eapply plain_key_under.
Qed.

(** Whatever path a caller sends, [scope_key] under a tenant's artifact
    prefix either refuses it or yields a key that starts with that prefix, is
    plain (no empty, [.] or [..] segment, no backslash or control character)
    up to trailing separators, is a fixed point of [scope_key], and is owned
    by the tenant when it names an object rather than a listing. *)
Theorem scope_key_confined c p path k
    (Hc : mlflow_artifact_prefix c = Ok p) (Hk : scope_key p path = Ok k) :
  startswith p k = true ∧ is_plain_key (rstrip is_slash k) = true ∧
  scope_key p (Some k) = Ok k ∧
  (rstrip is_slash k = k → owns_key p (Some k) false = true).
Proof.
  destruct (artifact_dir _ _ Hc) as [seg Hdir].
  destruct (scope_key_shape _ _ _ _ Hdir Hk) as [Hs Hp].
  assert (∃ d r, k = String d r ∧ is_slash d = false) as (d & r & -> & Hd).
  { apply startswith_spec in Hs as [r ->].
    unfold mlflow_artifact_prefix in Hc. apply res_fmap_inv in Hc as (n & Hn & ->).
    apply token_shape in Hn as (u & _ & ->).
    exists "t"%char. eexists. split; [reflexivity | done]. }
  split; [done|]. split; [done|]. split.
  - unfold scope_key. simpl default. rewrite lstrip_cons by done.
    by rewrite Hp, Hs, andb_false_r.
  - intros Hr. unfold owns_key. rewrite lstrip_cons by done.
    rewrite bool_decide_false by done. rewrite Hr in Hp. simpl andb. by rewrite Hp, Hs.
Qed.

Lemma scope_key_confined_witness :
  let p := "tenant_6f1c2a4e_7d3b_5e8a_9c0f_1b2d3e4f5a6b/" in
  owns_key p (Some (p +:+ "1/model")) false = true.
Proof.
  intros p.
  apply (scope_key_confined "6f1c2a4e-7d3b-5e8a-9c0f-1b2d3e4f5a6b" p (Some "//1/model"));
    vm_compute; reflexivity.
Defined.

(** Refusals of [scope_key]. *)
Example scope_key_refuses :
  map (λ s, scope_key "tenant_x/" (Some s)) ["../y"; "a//b"; "./a"; "a\b"] =
  replicate 4 (Err ValueError).
Proof. vm_compute. reflexivity. Qed.

(** Any number of trailing separators passes, not one only. *)
Example scope_key_trailing : scope_key "tenant_x/" (Some "a///") = Ok "tenant_x/a///".
Proof. vm_compute. reflexivity. Qed.

(** *** Names *)

Lemma mlflow_prefix_shape c p :
  mlflow_name_prefix c = Ok p → ∃ r, p = String "t" r.
Proof.
  unfold mlflow_name_prefix. intros (n & Hn & ->)%res_fmap_inv.
  apply token_shape in Hn as (u & _ & ->). eexists. reflexivity.
Qed.

(** Names in the model registry: qualifying is idempotent and the owner
    reads back the plain name it gave; a name another tenant's prefix owns
    belongs to that same tenant; and a deleted tenant's renamed experiments
    are in no tenant's name space. *)
Theorem mlflow_names_owned a b pa pb da n
    (Ha : mlflow_name_prefix a = Ok pa) (Hb : mlflow_name_prefix b = Ok pb)
    (Hd : mlflow_deleted_name_prefix a = Ok da) :
  qualify_name pa (qualify_name pa n) = qualify_name pa n ∧
  (startswith pa n = false → owned_name pa (Some (qualify_name pa n)) = Some n) ∧
  (is_Some (owned_name pb (Some (qualify_name pa n))) →
     canonical_company_id a = canonical_company_id b) ∧
  owned_name pb (Some (da +:+ n)) = None.
Proof.
  destruct (mlflow_prefix_shape _ _ Ha) as [ra Hpa].
  destruct (mlflow_prefix_shape _ _ Hb) as [rb Hpb].
  assert (startswith pa (qualify_name pa n) = true) as Hq.
  { unfold qualify_name. destruct (startswith pa n) eqn:E; [done|]. apply startswith_app. }
  repeat split.
  - unfold qualify_name at 1. by rewrite Hq.
  - intros E. unfold qualify_name. rewrite E. simpl.
    rewrite startswith_app, str_drop_prefix. subst pa. done.
  - intros [m [Hm _]%owned_name_startswith]. exact (prefix_exclusive _ _ _ _ _ Ha Hb Hq Hm).
  - unfold mlflow_deleted_name_prefix in Hd. apply res_fmap_inv in Hd as (q & _ & ->).
    destruct (owned_name pb _) as [m|] eqn:E; [|done].
    apply owned_name_startswith in E as [_ E]. subst pb. discriminate E.
Qed.

Lemma mlflow_names_owned_witness :
  owned_name "tenant_6f1c2a4e_7d3b_5e8a_9c0f_1b2d3e4f5a6b."
    (Some "_deleted.tenant_6f1c2a4e_7d3b_5e8a_9c0f_1b2d3e4f5a6b.pump") = None.
Proof.
  apply (mlflow_names_owned "6f1c2a4e-7d3b-5e8a-9c0f-1b2d3e4f5a6b"
    "6f1c2a4e-7d3b-5e8a-9c0f-1b2d3e4f5a6b"
    "tenant_6f1c2a4e_7d3b_5e8a_9c0f_1b2d3e4f5a6b." _
    "_deleted.tenant_6f1c2a4e_7d3b_5e8a_9c0f_1b2d3e4f5a6b." "pump"); vm_compute; reflexivity.
Defined.
