(* ===== verification/TenantStatus.v ===== *)
(** * The tenant-status stream

    Three files of three services that agree through one contract:
    libs/industryflow_contracts/industryflow_contracts/tenant_status.py (the
    message), services/alert_service/worker/tenant_status_publisher.py (the
    publisher, which sends the whole registry each round) and
    services/ingestion_service/tenant_status.py (the follower, which refuses
    the devices of a suspended tenant until the status goes stale).

    Times are the follower's monotonic clock, in seconds times 10^6. *)

From stdpp Require Import base strings list gmap.
From Stdlib Require Import ZArith Lia.
From S2P Require Import Prelude PyText PyNum PyJson Tenancy.

Local Open Scope string_scope.

Definition publish_interval_seconds : Z := 10.
Definition stale_after_seconds : Z := (6 * publish_interval_seconds)%Z.
Definition second : Z := 1000000.

Section messages.
Context `{J : JsonCodec}.

(** ** The message *)

(** [encode(company_id, active)]: the key is the canonical id. *)
Definition encode (company_id : string) (active : json) : res (string * bytes) :=
  canonical ← canonical_company_id company_id;
  match active with
  | JBool b =>
      Ok (canonical, json_dumps (JDict [("company_id", JStr canonical); ("active", JBool b)]))
  | _ => Err ValueError
  end.

Definition decode (value : bytes) : res (string * bool) :=
  match json_loads value with
  | Err e =>
      if is_value_error e || bool_decide (e = TypeError) then Err ValueError else Err e
  | Ok (JDict body) =>
      match jget "active" body with
      | JBool active =>
          company_id ← or_raise ValueError (json_uuid (jget "company_id" body));
          Ok (uuid_str company_id, active)
      | _ => Err ValueError
      end
  | Ok _ => Err ValueError
  end.

(** ** The publisher *)

(** [registry_status]: the rows [(schema_name, is_active)] of the registry
    whose name is exactly a tenant's; the query selects by [SCHEMA_LIKE]. *)
Definition registry_status (companies : list (string * bool)) : list (string * bool) :=
  omap (λ row, (λ c, (c, row.2)) <$> res_opt (company_id_from_schema row.1))
       (List.filter (λ row, schema_like row.1) companies).

(** [publish_once]: the messages sent, in order, until one send fails.
    [send i] is the outcome of the [i]-th send of the round. *)
Fixpoint publish_from (send : nat → res unit) (i : nat) (status : list (string * bool))
  : list (string * bytes) * res nat :=
  match status with
  | [] => ([], Ok i)
  | (company_id, active) :: rest =>
      match encode company_id (JBool active) with
      | Err e => ([], Err e)
      | Ok msg => match send i with
                  | Err e => ([], Err e)
                  | Ok _ => let '(sent, r) := publish_from send (S i) rest in (msg :: sent, r)
                  end
      end
  end.
Definition publish_once (send : nat → res unit) (companies : list (string * bool)) :=
  publish_from send 0 (registry_status companies).

(** ** The follower *)

(** [TenantStatus]: the last status heard of each tenant, with when. *)
Record status_state := { stale_after : Z; heard : gmap string (bool * Z) }.

Definition apply_message (clock : Z) (value : bytes) (s : status_state) : res status_state :=
  match decode value with
  | Ok (company_id, active) =>
      Ok {| stale_after := stale_after s;
            heard := <[company_id := (active, clock)]> (heard s) |}
  | Err e => if is_value_error e then Ok s else Err e
  end.

Definition is_suspended (clock : Z) (company_id : string) (s : status_state)
  : bool * status_state :=
  match heard s !! company_id with
  | None => (false, s)
  | Some (active, at_) =>
      if Z.ltb (stale_after s) (clock - at_)
      then (false, {| stale_after := stale_after s; heard := delete company_id (heard s) |})
      else (negb active, s)
  end.

(** [async for message in consumer: status.apply(message.value)], each
    message heard at the time paired with it. *)
Fixpoint follow (msgs : list (Z * bytes)) (s : status_state) : res status_state :=
  match msgs with
  | [] => Ok s
  | (t, v) :: rest => s' ← apply_message t v s; follow rest s'
  end.

(** ** Lemmas *)

Lemma decode_encode c active k v :
  encode c (JBool active) = Ok (k, v) → decode v = Ok (k, active).
Proof.
  unfold encode. intros (d & Hd & [= <- <-])%res_bind_inv_ok.
  unfold decode. rewrite loads_dumps by done. simpl.
  pose proof (canonical_inv _ _ (canonical_idem _ _ Hd)) as (u & Hu & _ & ->).
  by rewrite Hu.
Qed.

Lemma encode_ok c active : canonical c → ∃ v, encode c (JBool active) = Ok (c, v).
Proof. unfold encode, canonical. intros ->. simpl. eauto. Qed.

Lemma registry_canonical companies c active :
  (c, active) ∈ registry_status companies →
  canonical c ∧ ∃ n, (n, active) ∈ companies ∧ schema_name c = Ok n.
Proof.
  unfold registry_status. rewrite list_elem_of_omap.
  intros ([n b] & Hin & Hr). simpl in Hr.
  apply list_elem_of_In, filter_In in Hin as [Hin _]. apply list_elem_of_In in Hin.
  destruct (company_id_from_schema n) as [d|] eqn:E; simplify_eq/=.
  apply schema_inverse in E as [Hc Hs]. eauto.
Qed.

Lemma registry_complete companies n c active :
  (n, active) ∈ companies → company_id_from_schema n = Ok c →
  (c, active) ∈ registry_status companies.
Proof.
  intros Hin Hn. unfold registry_status. apply list_elem_of_omap.
  exists (n, active). simpl. rewrite Hn. split; [|done].
  apply list_elem_of_In, filter_In. split; [by apply list_elem_of_In|].
  apply schema_inverse in Hn as [Hc Hn].
  destruct (schema_name_ok _ Hc) as (n' & Hn' & Hl). simpl. congruence.
Qed.

Lemma registry_nodup companies :
  NoDup (fst <$> companies) → NoDup (fst <$> registry_status companies).
Proof.
  induction companies as [|[n b] l IH]; [constructor|].
  intros [Hn Hl]%NoDup_cons. unfold registry_status. simpl.
  destruct (schema_like n); [|by apply IH]. simpl.
  destruct (company_id_from_schema n) as [c|] eqn:E; simpl; [|by apply IH].
  apply NoDup_cons. split; [|by apply IH].
  intros ([c' b'] & Hc & Hin)%list_elem_of_fmap. simpl in Hc. subst c'.
  apply registry_canonical in Hin as (_ & n' & Hin & Hs).
  apply schema_inverse in E as [_ E]. assert (n' = n) as -> by congruence.
  apply Hn, list_elem_of_fmap. by exists (n, b').
Qed.

(** With every send succeeding, a round sends one message per tenant. *)
Lemma publish_from_ok send i status :
  (∀ j, send j = Ok tt) → (∀ c b, (c, b) ∈ status → canonical c) →
  ∃ msgs, publish_from send i status = (msgs, Ok (i + length status)%nat) ∧
          Forall2 (λ row msg, encode row.1 (JBool row.2) = Ok msg) status msgs.
Proof.
  intros Hs. revert i. induction status as [|[c b] l IH]; intros i Hc; simpl.
  - exists []. split; [f_equal; f_equal; lia | constructor].
  - destruct (encode_ok c b) as [v Hv]; [by apply (Hc c b); left|]. rewrite Hv, Hs.
    destruct (IH (S i)) as (msgs & E & HF); [intros c' b' H'; eapply Hc; by right|].
    rewrite E. eexists. split; [do 2 f_equal; lia|]. by constructor.
Qed.

(** ** What the follower knows: the last well-formed status it heard *)

Fixpoint last_status (c : string) (msgs : list (Z * bytes)) : option (bool * Z) :=
  match msgs with
  | [] => None
  | (t, v) :: rest =>
      match last_status c rest with
      | Some x => Some x
      | None => match decode v with
                | Ok (c', active) => if bool_decide (c' = c) then Some (active, t) else None
                | Err _ => None
                end
      end
  end.

Lemma follow_heard msgs s s' c :
  follow msgs s = Ok s' →
  stale_after s' = stale_after s ∧
  heard s' !! c = match last_status c msgs with Some x => Some x | None => heard s !! c end.
Proof.
  revert s. induction msgs as [|[t v] l IH]; intros s; simpl; [by intros [= <-]|].
  intros (s1 & H1 & [Hst ->]%IH)%res_bind_inv_ok. rewrite Hst. unfold apply_message in H1.
  destruct (decode v) as [[c' b]|e]; simpl in *.
  - simplify_eq. simpl. split; [done|].
    destruct (last_status c l) as [x|]; [done|]. case_bool_decide; subst; simplify_map_eq; done.
  - destruct (is_value_error e); simplify_eq. split; [done|]. by destruct (last_status c l).
Qed.

(** A round is heard when every message decodes to its registry row. *)
Definition heard_round (status : list (string * bool)) (values : list bytes) : Prop :=
  Forall2 (λ row v, decode v = Ok row) status values.

Lemma round_heard status msgs :
  (∀ c b, (c, b) ∈ status → canonical c) →
  Forall2 (λ row msg, encode row.1 (JBool row.2) = Ok msg) status msgs →
  heard_round status (snd <$> msgs).
Proof.
  intros Hc HF. induction HF as [|[c b] [k v] l ms Hm HF IH]; [constructor|].
  constructor; [|apply IH; intros c' b' H; eapply Hc; by right].
  simpl in *. pose proof (decode_encode _ _ _ _ Hm) as ->. f_equal. f_equal.
  unfold encode in Hm. rewrite (Hc c b) in Hm by left. simpl in Hm. congruence.
Qed.

Lemma follow_round status values times s :
  heard_round status values → length times = length values →
  ∃ s', follow (zip times values) s = Ok s'.
Proof.
  intros HF. revert times s.
  induction HF as [|[c b] v l vs Hm _ IH]; intros [|t ts] s Hl; simplify_eq/=; [by exists s|].
  unfold apply_message. rewrite Hm. simpl. by apply IH.
Qed.

Lemma last_status_absent status values times c :
  heard_round status values → length times = length values →
  c ∉ fst <$> status → last_status c (zip times values) = None.
Proof.
  intros HF. revert times.
  induction HF as [|[d b] v l vs Hm HF IH]; intros [|t ts] Hl Hc; simplify_eq/=; [done|].
  apply not_elem_of_cons in Hc as [Hd Hc].
  rewrite IH by done. rewrite Hm. by rewrite bool_decide_false by congruence.
Qed.

Lemma last_status_round status values times c active :
  heard_round status values → length times = length values →
  NoDup (fst <$> status) → (c, active) ∈ status →
  ∃ t, t ∈ times ∧ last_status c (zip times values) = Some (active, t).
Proof.
  intros HF. revert times.
  induction HF as [|[d b] v l vs Hm HF IH]; intros [|t ts] Hl Hnd Hin; simplify_eq/=;
    [by apply elem_of_nil in Hin|].
  apply NoDup_cons in Hnd as [Hd Hnd]. apply elem_of_cons in Hin as [Hin | Hin].
  - simplify_eq. exists t. split; [left|].
    rewrite (last_status_absent l) by done. rewrite Hm. by rewrite bool_decide_true by done.
  - destruct (IH ts Hl Hnd Hin) as (t' & Ht & ->). exists t'. split; [by right | done].
Qed.

(** ** Properties *)

(** The tenant-status stream carries the registry: after a round whose
    sends all succeed, a follower that heard its messages at any times in
    [[t0, t1]] refuses exactly the suspended tenants of the registry for as
    long as the statuses are not stale, lets every tenant through once they
    are, and keeps its view of every other tenant. *)
Theorem publish_round_followed send companies times s t0 t1
    (Hsend : ∀ i, send i = Ok tt)
    (Huniq : NoDup (fst <$> companies))
    (Htimes : ∀ t, t ∈ times → (t0 ≤ t ≤ t1)%Z)
    (Hlen : length times = length (publish_once send companies).1) :
  ∃ s', follow (zip times (snd <$> (publish_once send companies).1)) s = Ok s' ∧
    (publish_once send companies).2 = Ok (length (registry_status companies)) ∧
    (∀ n c active clock, (n, active) ∈ companies → company_id_from_schema n = Ok c →
       (t1 ≤ clock)%Z →
       ((clock - t0 ≤ stale_after s)%Z → (is_suspended clock c s').1 = negb active) ∧
       ((stale_after s < clock - t1)%Z → (is_suspended clock c s').1 = false)) ∧
    (∀ c, c ∉ fst <$> registry_status companies → heard s' !! c = heard s !! c).
Proof.
  assert (∀ c b, (c, b) ∈ registry_status companies → canonical c) as Hcan.
  { intros c b H. by apply registry_canonical in H as []. }
  destruct (publish_from_ok send 0 (registry_status companies)) as (msgs & E & HF); [done..|].
  unfold publish_once in *. rewrite E in *. simpl in *.
  apply round_heard in HF; [|done]. rewrite <- (length_fmap snd) in Hlen.
  destruct (follow_round _ _ times s HF Hlen) as [s' Hs'].
  exists s'. split; [done|]. split; [done|]. split.
  - intros n c active clock Hin Hn Hclock.
    destruct (follow_heard _ _ _ c Hs') as [Hst Hh].
    destruct (last_status_round _ _ times c active HF Hlen) as (t & Ht & Hl).
    { by apply registry_nodup. }
    { by eapply registry_complete. }
    rewrite Hl in Hh. unfold is_suspended. rewrite Hh, Hst.
    specialize (Htimes t Ht).
    split; intros Hc; case_match; bool_hyps; try done; lia.
  - intros c Hc. destruct (follow_heard _ _ _ c Hs') as [_ ->].
    by rewrite (last_status_absent _ _ _ _ HF Hlen Hc).
Qed.

(** Ingestion refuses a tenant only on evidence: whatever messages came,
    well formed or not, a tenant is refused at [clock] exactly when the last
    well-formed status of it (heard since the start, or before) said
    inactive and is not older than the stale bound. *)
Theorem suspended_only_on_fresh_status msgs s s' clock c
    (Hf : follow msgs s = Ok s') :
  (is_suspended clock c s').1 = true ↔
  ∃ t, (match last_status c msgs with Some x => Some x | None => heard s !! c end)
         = Some (false, t) ∧ (clock - t ≤ stale_after s)%Z.
Proof.
  destruct (follow_heard _ _ _ c Hf) as [Hst Hh]. unfold is_suspended. rewrite Hh, Hst.
  destruct (match last_status c msgs with Some x => _ | None => _ end) as [[a t]|].
  - case_match; bool_hyps; simpl.
    + split; [done|]. intros (t' & [= -> ->] & Hc). lia.
    + destruct a; simpl; split; try done.
      * by intros (t' & [= ] & _).
      * intros _. exists t. split; [done | lia].
  - simpl. split; [done|]. by intros (t & [= ] & _).
Qed.
End messages.

Section witnesses.
#[local] Existing Instance decoded_codec.

Let tenant := "6f1c2a4e-7d3b-5e8a-9c0f-1b2d3e4f5a6b".
Let registry := [("tenant_6f1c2a4e_7d3b_5e8a_9c0f_1b2d3e4f5a6b", false); ("public", true)].
Let fresh := {| stale_after := (stale_after_seconds * second)%Z; heard := ∅ |}.

Lemma publish_round_followed_witness :
  ∃ s', follow (zip [5%Z] (snd <$> (publish_once (λ _, Ok tt) registry).1)) fresh = Ok s' ∧
        (is_suspended 6%Z tenant s').1 = true.
Proof.
  destruct (publish_round_followed (λ _, Ok tt) registry [5%Z] fresh 5%Z 5%Z)
    as (s' & Hs & _ & Hc & _).
  - reflexivity.
  - vm_compute. repeat constructor; set_solver.
  - intros t Ht%list_elem_of_singleton. subst. lia.
  - vm_compute. reflexivity.
  - exists s'. split; [exact Hs|].
    apply (Hc "tenant_6f1c2a4e_7d3b_5e8a_9c0f_1b2d3e4f5a6b" tenant false 6%Z);
      [left | vm_compute; reflexivity | lia | vm_compute; discriminate].
Defined.

Lemma suspended_only_on_fresh_status_witness :
  let msg := json_dumps (JDict [("company_id", JStr tenant); ("active", JBool false)]) in
  ∃ s', follow [(0%Z, json_dumps JNull); (7%Z, msg)] fresh = Ok s' ∧
        ((is_suspended 8%Z tenant s').1 = true ↔
         ∃ t, Some (false, 7%Z) = Some (false, t) ∧ (8 - t ≤ stale_after fresh)%Z).
Proof.
  intros msg. eexists. split; [reflexivity|].
  apply (suspended_only_on_fresh_status [(0%Z, json_dumps JNull); (7%Z, msg)] fresh _ 8%Z tenant).
  reflexivity.
Defined.
End witnesses.
