(* ===== verification/Windows.v ===== *)
(** * Aggregation windows: libs/industryflow_contracts/industryflow_contracts/windows.py

    One width and one allowed lateness per granularity, and the index of the
    newest window the streaming job has emitted at an event time.  Python's
    [//] on ints is [Z.div]. *)

From stdpp Require Import base strings list sets.
From Stdlib Require Import ZArith Lia.
From S2P Require Import Prelude.

Local Open Scope string_scope.

Record Window := { table : string; width_seconds : Z; lateness_seconds : Z }.

Definition WINDOWS : list (string * Window) := [
  ("1min", {| table := "sensor_aggregations_1min"; width_seconds := 60; lateness_seconds := 120 |});
  ("5min", {| table := "sensor_aggregations_5min"; width_seconds := 300; lateness_seconds := 600 |});
  ("1hour", {| table := "sensor_aggregations_1hour"; width_seconds := 3600; lateness_seconds := 900 |})
].

Definition DEFAULT_GRANULARITY : string := "1min".

Definition window (granularity : string) : res Window :=
  or_raise ValueError (snd <$> List.find (λ kw, bool_decide (kw.1 = granularity)) WINDOWS).

Definition latest_emitted_window (epoch_seconds : Z) (granularity : string) : res Z :=
  w ← window granularity;
  Ok ((epoch_seconds - lateness_seconds w) / width_seconds w - 1)%Z.

(** ** The specification: append-mode emission

    Window [m] covers [[m * width, (m + 1) * width)]; its row exists once the
    watermark, the event time less the lateness, has reached its end. *)
Definition emitted (w : Window) (t m : Z) : Prop :=
  ((m + 1) * width_seconds w ≤ t - lateness_seconds w)%Z.

Lemma window_width g w : window g = Ok w → (0 < width_seconds w)%Z.
Proof.
  unfold window, WINDOWS. simpl. repeat case_bool_decide; simpl; intros [= <-]; simpl; lia.
Qed.

(** [latest_emitted_window] is the newest emitted window: a window is
    emitted at event time [t] if and only if its index is at most the result,
    so the result is the greatest such index, and it never goes back as event
    time advances.  An unknown granularity is a ValueError. *)
Theorem latest_emitted_window_spec t g :
  (∀ m, latest_emitted_window t g = Ok m →
     ∃ w, window g = Ok w ∧ (∀ k, emitted w t k ↔ (k ≤ m)%Z) ∧
          ∀ t' m', (t ≤ t')%Z → latest_emitted_window t' g = Ok m' → (m ≤ m')%Z) ∧
  (∀ e, latest_emitted_window t g = Err e ↔
        e = ValueError ∧ g ∉ ["1min"; "5min"; "1hour"]).
Proof.
  unfold latest_emitted_window. split.
  - intros m (w & Hw & [= <-])%res_bind_inv_ok. pose proof (window_width _ _ Hw) as Hpos.
    exists w. split; [done|]. split.
    + intros k. unfold emitted. set (x := (t - lateness_seconds w)%Z).
      split; intros H.
      * assert (k + 1 ≤ x / width_seconds w)%Z; [|lia].
        apply Z.div_le_lower_bound; lia.
      * assert (k + 1 ≤ x / width_seconds w)%Z as Hk by lia.
        pose proof (Z.mul_div_le x (width_seconds w) Hpos). nia.
    + intros t' m' Ht. rewrite Hw. simpl. intros [= <-].
      pose proof (Z.div_le_mono (t - lateness_seconds w) (t' - lateness_seconds w) _ Hpos). lia.
  - intros e. unfold window, WINDOWS. simpl.
    repeat case_bool_decide; simpl; split; subst; try done.
    + by intros [_ []%not_elem_of_cons].
    + intros [_ H']. set_solver.
    + intros [_ H']. set_solver.
    + intros [= <-]. split; [done|]. set_solver.
    + by intros [-> _].
Qed.
