(* ===== verification/Sessions.v ===== *)
(** * Ended sessions: libs/industryflow_contracts/industryflow_contracts/sessions.py

    Whether the session an access token was issued in has since ended, read
    from the shared capability store on every request.  The store is a
    parameter ([store_get]); a read takes time and may fail. *)

From stdpp Require Import base strings list.
From Stdlib Require Import ZArith Lia.
From Corelib Require Import SpecFloat.
From S2P Require Import Prelude PyText PyNum PyJson.

Local Open Scope string_scope.

Definition ENDED_SESSION_PREFIX : string := "session-ended:".
Definition USER_ENDED_PREFIX : string := "sessions-ended-at:".

(** [CLOCK_SKEW_SECONDS = 2], as the float it is added as; the read timeout
    in microseconds. *)
Definition CLOCK_SKEW_SECONDS : float := S754_finite false 4503599627370496 (-51).
Definition READ_TIMEOUT : Z := 2000000.

Definition ended_session_key (session_id : string) : string := ENDED_SESSION_PREFIX +:+ session_id.
Definition user_ended_key (user_id : string) : string := USER_ENDED_PREFIX +:+ user_id.

Section sessions.
(** [store.get]: how long the read takes, and its text, absence or error. *)
Context (store_get : string → Z * res (option string)).

(** [issued_at is None or float(issued_at) <= ended + CLOCK_SKEW_SECONDS],
    a token time that is not a number counting as before the end. *)
Definition issued_before (issued_at : json) (ended : float) : res bool :=
  if is_null issued_at then Ok true
  else match json_float issued_at with
       | Ok f => Ok (fle f (fadd ended CLOCK_SKEW_SECONDS))
       | Err e => if is_value_error e || bool_decide (e = TypeError) then Ok true else Err e
       end.

(** The second half of [_ended]: the end of all the user's sessions, read
    after [spent]. *)
Definition user_end_read (user_id : string) (issued_at : json) (spent : Z) : Z * res bool :=
  let '(d, r) := store_get (user_ended_key user_id) in
  ((spent + d)%Z,
   match r with
   | Err e => Err e
   | Ok None => Ok false
   | Ok (Some text) =>
       match float_of_str text with
       | Ok end_time => issued_before issued_at end_time
       | Err e => if is_value_error e then Ok true else Err e
       end
   end).

(** [_ended]: the time its reads take, and its answer. *)
Definition ended (user_id : string) (session_id : option string) (issued_at : json)
  : Z * res bool :=
  match session_id with
  | Some sid =>
      if bool_decide (sid = "") then user_end_read user_id issued_at 0
      else let '(d, r) := store_get (ended_session_key sid) in
           match r with
           | Err e => (d, Err e)
           | Ok (Some _) => (d, Ok true)
           | Ok None => user_end_read user_id issued_at d
           end
  | None => user_end_read user_id issued_at 0
  end.

(** [asyncio.wait_for(_ended(...), timeout)] *)
Definition session_ended (user_id : string) (session_id : option string) (issued_at : json)
  (timeout : Z) : res bool :=
  let '(elapsed, answer) := ended user_id session_id issued_at in
  if Z.ltb timeout elapsed then Err TimeoutError else answer.

(** The store said that no end of all the user's sessions covers a token
    issued at [issued_at]. *)
Definition no_user_end (user_id : string) (issued_at : json) : Prop :=
  (store_get (user_ended_key user_id)).2 = Ok None ∨
  ∃ text end_time f, (store_get (user_ended_key user_id)).2 = Ok (Some text) ∧
    float_of_str text = Ok end_time ∧ json_float issued_at = Ok f ∧
    fle f (fadd end_time CLOCK_SKEW_SECONDS) = false.

Lemma user_end_read_false user_id issued_at spent el :
  user_end_read user_id issued_at spent = (el, Ok false) → no_user_end user_id issued_at.
Proof.
  unfold user_end_read, no_user_end.
  destruct (store_get (user_ended_key user_id)) as [d [[text|]|e]]; simpl;
    [|by left|by intros [= ]].
  intros [= _ Hr]. right. exists text.
  destruct (float_of_str text) as [end_time|e]; [|by case_match].
  unfold issued_before in Hr. destruct (is_null issued_at); [done|].
  destruct (json_float issued_at) as [f|e]; [|by case_match].
  exists end_time, f. repeat split; congruence.
Qed.

(** A token is accepted only on a timely, complete answer from the
    store: if [session_ended] is False then neither read failed and the
    reads fit in the timeout, the token's own session has no ended record,
    and the user's sessions either were never all ended or were ended at a
    readable time more than the clock skew before the token's issue time.
    A failed or late read raises instead; it is never a False. *)
Theorem session_ended_false user_id session_id issued_at timeout
    (H : session_ended user_id session_id issued_at timeout = Ok false) :
  ((ended user_id session_id issued_at).1 ≤ timeout)%Z ∧
  (∀ sid, session_id = Some sid → sid ≠ "" →
     (store_get (ended_session_key sid)).2 = Ok None) ∧
  no_user_end user_id issued_at.
Proof.
  unfold session_ended in H. destruct (ended _ _ _) as [el answer] eqn:E.
  case_match; [done|]. bool_hyps. subst answer. split; [done|].
  unfold ended in E. destruct session_id as [sid|].
  - case_bool_decide as Hs.
    + split; [|by eapply user_end_read_false]. intros sid' [= <-]. done.
    + destruct (store_get (ended_session_key sid)) as [d [[x|]|e]] eqn:Eg; simplify_eq.
      split; [|by eapply user_end_read_false]. intros sid' [= <-] _. by rewrite Eg.
  - split; [done|]. by eapply user_end_read_false.
Qed.
End sessions.

Lemma session_ended_false_witness :
  let store (key : string) : Z * res (option string) :=
    (1000%Z, Ok (if bool_decide (key = user_ended_key "u1") then Some "100.5" else None)) in
  session_ended store "u1" (Some "s1") (JInt 103) READ_TIMEOUT = Ok false ∧
  (store (ended_session_key "s1")).2 = Ok None.
Proof.
  intros store.
  assert (session_ended store "u1" (Some "s1") (JInt 103) READ_TIMEOUT = Ok false) as H
    by (vm_compute; reflexivity).
  split; [exact H|].
  apply (session_ended_false store "u1" (Some "s1") (JInt 103) READ_TIMEOUT H); [reflexivity | discriminate].
Defined.
