(* ===== verification/CapabilityAudit.v ===== *)
(** * The capability-use record: libs/industryflow_contracts/industryflow_contracts/capability_audit.py

    The event contract ([event], [decode]), the Redis scripts through which
    every plane appends to the one stream, each an atomic step on the
    capability store, and what they guarantee: a handle's first use is
    recorded once, repeats are counted and none is lost, and a flood of
    unknown handles is bounded per source.

    Text that is not an identifier is a list of code points ([text]), because
    [_text] writes U+FFFD; times are whole seconds. *)

From stdpp Require Import base strings list gmap.
From Stdlib Require Import ZArith Lia Ascii.
From S2P Require Import Prelude PyText PyJson Tenancy.

Local Open Scope string_scope.

(** ** Text *)

Abbreviation text := (list Z).

Fixpoint t_of (s : string) : text :=
  match s with EmptyString => [] | String c r => code c :: t_of r end.

(** The Rocq string of a text below U+0100.  An identifier field holding a
    code point above that is read as malformed. *)
Fixpoint s_of (t : text) : option string :=
  match t with
  | [] => Some EmptyString
  | c :: r => if Z.leb 0 c && Z.ltb c 256
              then String (ascii_of_N (Z.to_N c)) <$> s_of r else None
  end.

Definition MAX_DETAIL : nat := 512.

(** [str(value).replace("\x00", "\ufffd")[:_MAX_DETAIL]] *)
Definition clean_text (t : text) : text :=
  take MAX_DETAIL (map (λ c, if Z.eqb c 0 then 65533 else c)%Z t).

(** ** Constants *)

Definition STREAM_KEY : string := "nbcap-audit".
Definition STREAM_MAXLEN : nat := Z.to_nat 100000.
Definition FIRST_USE_PREFIX : string := "nbcap-audit-seen:".
Definition FIRST_USE_MARKER_TTL_SECONDS : Z := (7 * 24 * 3600)%Z.
Definition UNKNOWN_REFUSAL_PREFIX : string := "nbcap-audit-refused:".
Definition UNKNOWN_REFUSAL_WINDOW_SECONDS : Z := 3600.
Definition SOURCE_LIMIT_PREFIX : string := "nbcap-audit-source:".
Definition SOURCE_LIMIT : Z := 60.
Definition SOURCE_WINDOW_SECONDS : Z := 60.
Definition REPEAT_PREFIX : string := "nbcap-audit-repeat:".
Definition REPEAT_COUNT_PREFIX : string := "nbcap-audit-repeats:".
Definition REPEAT_WINDOW_SECONDS : Z := 300.
Definition REPEAT_COUNT_TTL_SECONDS : Z := (7 * 24 * 3600)%Z.

Definition KINDS : list string :=
  ["minted"; "first_use"; "refused"; "revoked"; "consumed"; "environment_started";
   "environment_stopped"; "sql_session_opened"; "sql_session_closed"].
Definition REPEATABLE : list string := ["refused"; "sql_session_opened"; "sql_session_closed"].
Definition PLANES : list string :=
  ["hub"; "ml_service"; "api_gateway"; "sql_proxy"; "tracking_gateway"; "cold_broker";
   "tenant_delete"].
Definition AUDIENCES : list string := ["api"; "sql"; "tracking"; "cold"; "upload"].

(** ** Events *)

(** [_DIGEST.match]: [^[0-9a-f]{16}$], whose [$] also matches before a final
    newline. *)
Definition newline : Z := 10.
Definition hex_cp (c : Z) : bool := (Z.leb 48 c && Z.leb c 57) || (Z.leb 97 c && Z.leb c 102).
Definition digest_match (t : text) : bool :=
  (length t =? 16)%nat && forallb hex_cp t ||
  (length t =? 17)%nat && forallb hex_cp (take 16 t) &&
    bool_decide (t !! 16%nat = Some newline).

(** A stream entry's fields, in the order the dict was filled. *)
Abbreviation fields := (list (string * text)).

Fixpoint field (k : string) (f : fields) : option text :=
  match f with
  | [] => None
  | (k', v) :: r => if bool_decide (k = k') then Some v else field k r
  end.

(** [uuid.UUID(str(t))] of a field. *)
Definition text_uuid (t : text) : option Z := s_of t ≫= uuid_parse.

Record event_args := {
  a_kind : string; a_plane : string; a_user : option text; a_company_id : option string;
  a_audience : option string; a_handle_id : option string; a_digest : option text;
  a_reason : option text; a_detail : option text }.

Definition opt_field (k : string) (v : option text) : fields :=
  match v with Some t => [(k, t)] | None => [] end.

Definition event `{IsoCodec} (a : event_args) (now : Z) : res fields :=
  if negb (bool_decide (a_kind a ∈ KINDS)) then Err ValueError else
  if negb (bool_decide (a_plane a ∈ PLANES)) then Err ValueError else
  if (match a_audience a with Some x => negb (bool_decide (x ∈ AUDIENCES)) | None => false end)
  then Err ValueError else
  company ← (match a_company_id a with
             | None => Ok None
             | Some c => Some <$> canonical_company_id c
             end);
  handle ← (match a_handle_id a with
            | None => Ok None
            | Some h => (λ u, Some (uuid_str u)) <$> or_raise ValueError (uuid_parse h)
            end);
  if (match a_digest a with Some d => negb (digest_match d) | None => false end)
  then Err ValueError else
  Ok ([("kind", t_of (a_kind a)); ("plane", t_of (a_plane a)); ("at", t_of (isoformat now))]
      ++ opt_field "company_id" (t_of <$> company)
      ++ opt_field "handle_id" (t_of <$> handle)
      ++ opt_field "user" (clean_text <$> a_user a)
      ++ opt_field "audience" ((λ x, clean_text (t_of x)) <$> a_audience a)
      ++ opt_field "digest" (clean_text <$> a_digest a)
      ++ opt_field "reason" (clean_text <$> a_reason a)
      ++ opt_field "detail" (clean_text <$> a_detail a))%list.

(** [flat]: XADD's alternating arguments. *)
Fixpoint flat (f : fields) : list text :=
  match f with [] => [] | (k, v) :: r => t_of k :: v :: flat r end.

(** The writer's reading: one column each, [None] where absent. *)
Record audit_row := {
  r_kind : string; r_plane : string; r_at : pydt; r_user : option text;
  r_company_id : option string; r_audience : option string; r_handle_id : option string;
  r_digest : option text; r_reason : option text; r_detail : option text;
  r_suppressed : option Z }.

(** [re.fullmatch(r"[1-9][0-9]{0,9}", s) and int(s) < 2**31] *)
Definition dec_cp (c : Z) : bool := Z.leb 48 c && Z.leb c 57.
Definition parse_suppressed (t : text) : option Z :=
  match t with
  | c :: r =>
      if Z.leb 49 c && Z.leb c 57 && (length r <=? 9)%nat && forallb dec_cp r
      then let n := fold_left (λ acc d, acc * 10 + (d - 48))%Z t 0%Z in
           if Z.ltb n (2 ^ 31) then Some n else None
      else None
  | [] => None
  end.

Definition one_of (l : list string) (o : option text) : option string :=
  match o ≫= s_of with
  | Some s => if bool_decide (s ∈ l) then Some s else None
  | None => None
  end.

(** [None] for an absent field, the parsed value, or ValueError. *)
Definition opt_parse {A} (p : text → option A) (o : option text) : res (option A) :=
  match o with
  | None => Ok None
  | Some t => Some <$> or_raise ValueError (p t)
  end.

Definition decode `{IsoCodec} (raw : fields) : res audit_row :=
  kind ← or_raise ValueError (one_of KINDS (field "kind" raw));
  plane ← or_raise ValueError (one_of PLANES (field "plane" raw));
  at_text ← or_raise KeyError (field "at" raw);
  at_str ← or_raise ValueError (s_of at_text);
  dt ← fromisoformat at_str;
  at_ ← (match dt with Naive _ => Err ValueError | Aware _ _ => Ok dt end);
  company ← opt_parse text_uuid (field "company_id" raw);
  handle ← opt_parse text_uuid (field "handle_id" raw);
  audience ← opt_parse (λ t, one_of AUDIENCES (Some t)) (field "audience" raw);
  digest ← opt_parse (λ t, if digest_match t then Some t else None) (field "digest" raw);
  suppressed ← opt_parse parse_suppressed (field "suppressed" raw);
  Ok {| r_kind := kind; r_plane := plane; r_at := at_;
        r_user := clean_text <$> field "user" raw;
        r_company_id := uuid_str <$> company; r_audience := audience;
        r_handle_id := uuid_str <$> handle; r_digest := digest;
        r_reason := clean_text <$> field "reason" raw;
        r_detail := clean_text <$> field "detail" raw; r_suppressed := suppressed |}.

(** ** The capability store

    A key holds a value and the second it expires at ([None]: never).  A
    script is atomic, so it sees one instant [now]. *)

Inductive rval :=
  | RText (s : text)
  | RCount (z : Z).

Record store := {
  keys : gmap string (rval * option Z);
  stream : list (nat * fields);
  next_id : nat
}.

Definition live (now : Z) (e : rval * option Z) : bool :=
  match e.2 with None => true | Some at_ => Z.ltb now at_ end.

Definition rget (now : Z) (k : string) (s : store) : option rval :=
  match keys s !! k with
  | Some e => if live now e then Some e.1 else None
  | None => None
  end.

Definition rexists (now : Z) (k : string) (s : store) : bool :=
  match rget now k s with Some _ => true | None => false end.

Definition with_keys (f : gmap string (rval * option Z) → gmap string (rval * option Z))
  (s : store) : store :=
  {| keys := f (keys s); stream := stream s; next_id := next_id s |}.

(** SET k v EX ttl *)
Definition rset_ex (now : Z) (k : string) (v : rval) (ttl : Z) (s : store) : store :=
  with_keys <[k := (v, Some (now + ttl)%Z)]> s.

(** SET k v NX EX ttl: whether it was set. *)
Definition rset_nx_ex (now : Z) (k : string) (v : rval) (ttl : Z) (s : store) : bool * store :=
  if rexists now k s then (false, s) else (true, rset_ex now k v ttl s).

(** INCR k: a fresh key starts at 1 with no expiry, a live one keeps its own. *)
Definition rincr (now : Z) (k : string) (s : store) : Z * store :=
  match keys s !! k with
  | Some (RCount n, exp) =>
      if live now (RCount n, exp)
      then ((n + 1)%Z, with_keys <[k := (RCount (n + 1), exp)]> s)
      else (1%Z, with_keys <[k := (RCount 1, None)]> s)
  | _ => (1%Z, with_keys <[k := (RCount 1, None)]> s)
  end.

(** EXPIRE k ttl, on a key that is there. *)
Definition rexpire (now : Z) (k : string) (ttl : Z) (s : store) : store :=
  with_keys (alter (λ e, (e.1, Some (now + ttl)%Z)) k) s.

(** GETDEL k *)
Definition rgetdel (now : Z) (k : string) (s : store) : option rval * store :=
  (rget now k s, with_keys (delete k) s).

(** DEL k: how many keys were removed. *)
Definition rdel (now : Z) (k : string) (s : store) : Z * store :=
  (if rexists now k s then 1 else 0, with_keys (delete k) s)%Z.

Section scripts.
(** XADD with [MAXLEN ~]: how many of the oldest entries an append to a
    stream of [n] entries drops.  Approximate trimming may keep more than
    the bound, never fewer. *)
Context (trim : nat → nat).

Definition xadd (f : fields) (s : store) : store :=
  let grown := (stream s ++ [(next_id s, f)])%list in
  {| keys := keys s; stream := drop (trim (length grown)) grown; next_id := S (next_id s) |}.

(** FIRST_USE_SCRIPT *)
Definition first_use_script (now : Z) (marker : string) (ttl : Z) (f : fields) (s : store)
  : Z * store :=
  match rset_nx_ex now marker (RText (t_of "1")) ttl s with
  | (true, s') => (1%Z, xadd f s')
  | (false, s') => (0%Z, s')
  end.

(** DELETE_RECORDED_SCRIPT *)
Definition delete_recorded_script (now : Z) (store_key : string) (f : fields) (s : store)
  : Z * store :=
  match rdel now store_key s with
  | (removed, s') => (removed, if Z.eqb removed 1 then xadd f s' else s')
  end.

(** UNKNOWN_REFUSAL_SCRIPT *)
Definition unknown_refusal_script (now : Z) (digest_key source_key : string)
  (window limit source_window : Z) (f : fields) (s : store) : Z * store :=
  if rexists now digest_key s then (0%Z, s)
  else
    let '(n, s1) := rincr now source_key s in
    let s2 := if Z.eqb n 1 then rexpire now source_key source_window s1 else s1 in
    if Z.ltb limit n then (if Z.eqb n (limit + 1) then (-1)%Z else (-2)%Z, s2)
    else (1%Z, xadd f (rset_ex now digest_key (RText (t_of "1")) window s2)).

(** REPEAT_SCRIPT *)
Definition repeat_script (now : Z) (marker count : string) (window count_ttl : Z)
  (f : fields) (s : store) : Z * store :=
  match rset_nx_ex now marker (RText (t_of "1")) window s with
  | (true, s1) =>
      let '(n, s2) := rgetdel now count s1 in
      let f' := match n with
                | Some (RCount z) => (f ++ [("suppressed", t_of (str_of_Z z))])%list
                | Some (RText t) => (f ++ [("suppressed", t)])%list
                | None => f
                end in
      (1%Z, xadd f' s2)
  | (false, s1) =>
      let '(_, s2) := rincr now count s1 in (0%Z, rexpire now count count_ttl s2)
  end.
End scripts.

(** *** Keys and arguments *)

Definition first_use_key (handle_id plane : string) : string :=
  FIRST_USE_PREFIX +:+ plane +:+ ":" +:+ handle_id.
Definition unknown_refusal_key (digest plane : string) : string :=
  UNKNOWN_REFUSAL_PREFIX +:+ plane +:+ ":" +:+ digest.
Definition source_limit_key (plane source : string) : string :=
  SOURCE_LIMIT_PREFIX +:+ plane +:+ ":" +:+ source.

(** [repeat_keys]: one window and one count per entry, plane and kind, a
    refusal's reason included. *)
Definition repeat_keys (handle_id plane kind reason : string) : string * string :=
  let what := handle_id +:+ ":" +:+ plane +:+ ":" +:+ kind +:+ ":" +:+ reason in
  (REPEAT_PREFIX +:+ what, REPEAT_COUNT_PREFIX +:+ what).

(** What a plane evaluates on the store. *)
Inductive script_call :=
  | CallFirstUse (marker : string) (f : fields)
  | CallDelete (store_key : string) (f : fields)
  | CallUnknown (digest_key source_key : string) (f : fields)
  | CallRepeat (marker count : string) (f : fields).

Definition eval_call (trim : nat → nat) (now : Z) (c : script_call) (s : store) : Z * store :=
  match c with
  | CallFirstUse m f => first_use_script trim now m FIRST_USE_MARKER_TTL_SECONDS f s
  | CallDelete k f => delete_recorded_script trim now k f s
  | CallUnknown d src f =>
      unknown_refusal_script trim now d src UNKNOWN_REFUSAL_WINDOW_SECONDS SOURCE_LIMIT
        SOURCE_WINDOW_SECONDS f s
  | CallRepeat m c f =>
      repeat_script trim now m c REPEAT_WINDOW_SECONDS REPEAT_COUNT_TTL_SECONDS f s
  end.

(** A field the contract requires to spell an identifier. *)
Definition id_field (k : string) (f : fields) : option string := field k f ≫= s_of.

Definition first_use_script_args (f : fields) : res script_call :=
  match id_field "kind" f, id_field "handle_id" f with
  | Some "first_use", Some h =>
      p ← or_raise KeyError (id_field "plane" f);
      Ok (CallFirstUse (first_use_key h p) f)
  | _, _ => Err ValueError
  end.

Definition repeat_script_args (f : fields) : res script_call :=
  match id_field "kind" f, id_field "handle_id" f with
  | Some k, Some h =>
      if bool_decide (k ∈ REPEATABLE) then
        p ← or_raise KeyError (id_field "plane" f);
        let '(m, c) := repeat_keys h p k (default "" (id_field "reason" f)) in
        Ok (CallRepeat m c f)
      else Err ValueError
  | _, _ => Err ValueError
  end.

Definition delete_recorded_args (store_key : string) (f : fields) : res script_call :=
  match id_field "kind" f with
  | Some k => if bool_decide (k ∈ ["revoked"; "consumed"]) then Ok (CallDelete store_key f)
              else Err ValueError
  | None => Err ValueError
  end.

(** [_entry_facts]' shape: what a record may say of an entry. *)
Record facts := {
  fact_user : option text; fact_company_id : option string;
  fact_audience : option string; fact_handle_id : option string }.
Definition no_facts : facts :=
  {| fact_user := None; fact_company_id := None; fact_audience := None; fact_handle_id := None |}.

Section refusal.
(** SHA-256 of the presented value, as hexadecimal text. *)
Context `{IsoCodec} (sha256_hex : text → string).

Definition presented_digest (handle : text) : string := str_take 16 (sha256_hex handle).

Definition refusal (plane : string) (handle : text) (reason : string) (fs : facts)
  (source : option string) (now : Z) : res script_call :=
  match fact_handle_id fs with
  | None =>
      let digest := presented_digest handle in
      f ← event {| a_kind := "refused"; a_plane := plane; a_user := fact_user fs;
                   a_company_id := fact_company_id fs; a_audience := fact_audience fs;
                   a_handle_id := None; a_digest := Some (t_of digest);
                   a_reason := Some (t_of reason);
                   a_detail := match source with
                               | Some src => if bool_decide (src = "") then None
                                             else Some (t_of ("source=" +:+ src))
                               | None => None
                               end |} now;
      let src := match source with
                 | Some src => if bool_decide (src = "") then "unknown" else src
                 | None => "unknown"
                 end in
      Ok (CallUnknown (unknown_refusal_key digest plane) (source_limit_key plane src) f)
  | Some h =>
      f ← event {| a_kind := "refused"; a_plane := plane; a_user := fact_user fs;
                   a_company_id := fact_company_id fs; a_audience := fact_audience fs;
                   a_handle_id := Some h; a_digest := None;
                   a_reason := Some (t_of reason); a_detail := None |} now;
      repeat_script_args f
  end.
End refusal.

(** [client_source]: the address the edge reported, when the peer is the edge
    ([from_edge] is [EdgePeers.contains(peer)]). *)
Definition client_source (peer reported : option string) (from_edge : bool) : option string :=
  match peer, reported with
  | Some p, Some r =>
      if negb (bool_decide (r = "")) && from_edge then
        let first := str_take 64 (strip is_space (default "" (head (str_split "," r)))) in
        Some (if bool_decide (first = "") then p else first)
      else peer
  | _, _ => peer
  end.

(** ** Lemmas: the store *)

Lemma rget_set now t k k' v ttl s :
  rget now k' (rset_ex t k v ttl s) =
  if decide (k = k') then (if Z.ltb now (t + ttl) then Some v else None) else rget now k' s.
Proof.
  unfold rget, rset_ex, with_keys. simpl. rewrite lookup_insert. by case_decide.
Qed.

Lemma set_nx_ex_other now k k' v ttl s b s' :
  rset_nx_ex now k v ttl s = (b, s') → k ≠ k' → keys s' !! k' = keys s !! k'.
Proof.
  unfold rset_nx_ex. case_match; intros [= <- <-] Hk; [done|].
  simpl. by rewrite lookup_insert_ne.
Qed.

(** ** The gate [SET NX EX] makes: it opens at most once per [ttl], and while
    it is shut someone passed within [ttl] before. *)

Definition gate_open (ttl : Z) (last : option Z) (t : Z) : bool :=
  match last with None => true | Some r => Z.leb (r + ttl) t end.

Fixpoint gate_run (ttl : Z) (last : option Z) (times : list Z) : list Z :=
  match times with
  | [] => []
  | t :: ts => if gate_open ttl last t then t :: gate_run ttl (Some t) ts
               else gate_run ttl last ts
  end.

(** [prev], then each time, no earlier than the one before. *)
Fixpoint ordered (prev : Z) (times : list Z) : Prop :=
  match times with [] => True | t :: ts => (prev ≤ t)%Z ∧ ordered t ts end.

(** Successive times at least [ttl] apart. *)
Fixpoint spaced (ttl : Z) (last : option Z) (times : list Z) : Prop :=
  match times with
  | [] => True
  | t :: ts => (match last with None => True | Some r => r + ttl ≤ t end)%Z ∧ spaced ttl (Some t) ts
  end.

Lemma gate_spaced ttl last times : spaced ttl last (gate_run ttl last times).
Proof.
  revert last. induction times as [|t ts IH]; intros last; simpl; [done|].
  destruct (gate_open ttl last t) eqn:E; [|apply IH]. split; [|apply IH].
  destruct last as [r|]; [|done]. unfold gate_open in E. by bool_hyps.
Qed.

(** Every time is within [ttl] after a recorded one. *)
Lemma gate_covers ttl last prev times t :
  (0 < ttl)%Z → ordered prev times → (match last with Some r => r ≤ prev | None => True end)%Z →
  t ∈ times → ∃ r, (r ∈ gate_run ttl last times ∨ last = Some r) ∧ (r ≤ t < r + ttl)%Z.
Proof.
  intros Hp. revert last prev. induction times as [|u us IH]; intros last prev Ho Hl Hin;
    [by apply elem_of_nil in Hin|].
  destruct Ho as [Hpu Ho]. apply elem_of_cons in Hin as [-> | Hin]; simpl.
  - destruct (gate_open ttl last u) eqn:E; [exists u; split; [left; left | lia]|].
    destruct last as [r|]; [|done]. unfold gate_open in E. bool_hyps. exists r. split; [by right | lia].
  - destruct (gate_open ttl last u) eqn:E.
    + destruct (IH (Some u) u Ho) as (r & Hr & Ht); [lia | done |].
      exists r. split; [|done]. left. destruct Hr as [Hr | [= ->]]; [by right | left].
    + destruct (IH last u Ho) as (r & Hr & Ht); [destruct last; [lia | done] | done |].
      exists r. by split.
Qed.

(** What the marker key says of the gate: open, or shut since [r]. *)
Definition marker_at (m : string) (ttl : Z) (s : store) (last : option Z) : Prop :=
  match last with
  | None => keys s !! m = None
  | Some r => ∃ v, keys s !! m = Some (v, Some (r + ttl)%Z)
  end.

Lemma marker_gate m ttl s last now v :
  marker_at m ttl s last →
  rset_nx_ex now m v ttl s =
    (if gate_open ttl last now then (true, rset_ex now m v ttl s) else (false, s)).
Proof.
  unfold marker_at, rset_nx_ex, rexists, rget, gate_open, live. intros H.
  destruct last as [r|]; [destruct H as [w ->] | by rewrite H]. simpl.
  destruct (Z.ltb_spec now (r + ttl)), (Z.leb_spec (r + ttl) now); done || lia.
Qed.

Lemma marker_at_set m ttl s now v : marker_at m ttl (rset_ex now m v ttl s) (Some now).
Proof. exists v. unfold rset_ex, with_keys. simpl. by rewrite lookup_insert_eq. Qed.

(** ** First use *)

Section first_use.
Context (trim : nat → nat).

(** The uses of one handle by one plane, at [times]: when the script
    answered 1, and the store after. *)
Fixpoint first_uses (m : string) (ttl : Z) (f : fields) (times : list Z) (s : store)
  : list Z * store :=
  match times with
  | [] => ([], s)
  | t :: ts =>
      let '(r, s1) := first_use_script trim t m ttl f s in
      let '(rec, s2) := first_uses m ttl f ts s1 in
      (if Z.eqb r 1 then t :: rec else rec, s2)
  end.

Lemma first_uses_gate m ttl f times s last :
  marker_at m ttl s last → (first_uses m ttl f times s).1 = gate_run ttl last times.
Proof.
  revert s last. induction times as [|t ts IH]; intros s last Hm; simpl; [done|].
  unfold first_use_script. rewrite (marker_gate _ _ _ _ _ _ Hm).
  destruct (gate_open ttl last t).
  - set (s1 := xadd trim f _). specialize (IH s1 (Some t)).
    destruct (first_uses m ttl f ts s1) as [rec s2]. simpl in *. f_equal. apply IH.
    apply marker_at_set.
  - specialize (IH s last Hm). by destruct (first_uses m ttl f ts s) as [rec s2].
Qed.

(** A handle's first use by a plane is recorded once and never missed:
    over any run of uses the script appends at times at least the marker's
    lifetime apart, and every use falls within that lifetime after a use
    that was recorded. *)
Theorem first_use_recorded_once m f prev times s
    (Hfresh : keys s !! m = None) (Hord : ordered prev times) :
  let ttl := FIRST_USE_MARKER_TTL_SECONDS in
  let recorded := (first_uses m ttl f times s).1 in
  spaced ttl None recorded ∧
  (∀ t, t ∈ times → ∃ r, r ∈ recorded ∧ (r ≤ t < r + ttl)%Z).
Proof.
  intros ttl recorded. subst recorded. rewrite (first_uses_gate _ _ _ _ _ None) by done.
  split; [apply gate_spaced|]. intros t Ht.
  destruct (gate_covers ttl None prev times t) as (r & [Hr | [=]] & Hrt); [done..|].
  by exists r.
Qed.
End first_use.

Lemma first_use_recorded_once_witness :
  let s := {| keys := ∅; stream := []; next_id := 0 |} in
  (first_uses (λ _, 0%nat) "m" FIRST_USE_MARKER_TTL_SECONDS [] [5; 9; 700000]%Z s).1 = [5; 700000]%Z ∧
  spaced FIRST_USE_MARKER_TTL_SECONDS None
    (first_uses (λ _, 0%nat) "m" FIRST_USE_MARKER_TTL_SECONDS [] [5; 9; 700000]%Z s).1.
Proof.
  intros s. split; [vm_compute; reflexivity|].
  apply (first_use_recorded_once (λ _, 0%nat) "m" [] 0%Z [5; 9; 700000]%Z s);
    [reflexivity | simpl; lia].
Defined.

(** ** Decimal counts survive the stream *)

Definition digits_value (t : text) : Z := fold_left (λ acc d, acc * 10 + (d - 48))%Z t 0%Z.

Lemma digits_value_snoc t d : digits_value (t ++ [d])%list = (digits_value t * 10 + (d - 48))%Z.
Proof. unfold digits_value. by rewrite fold_left_app. Qed.

Lemma dec_char_code d : (0 ≤ d < 10)%Z → code (dec_char d) = (d + 48)%Z.
Proof.
  intros H. unfold code, dec_char. rewrite N_ascii_embedding by lia. lia.
Qed.

Lemma dec_fuel_digits fuel z acc :
  (0 < z < 10 ^ Z.of_nat fuel)%Z →
  ∃ c r, t_of (dec_fuel fuel z acc) = ((c :: r) ++ t_of acc)%list ∧
         (49 ≤ c ≤ 57)%Z ∧ forallb dec_cp r = true ∧
         digits_value (c :: r) = z ∧ (10 ^ Z.of_nat (length r) ≤ z)%Z.
Proof.
  revert z acc. induction fuel as [|f IH]; intros z acc Hz.
  { change (10 ^ Z.of_nat 0)%Z with 1%Z in Hz. lia. }
  simpl dec_fuel. pose proof (Z.mod_pos_bound z 10 ltac:(lia)) as Hm.
  pose proof (Z.div_mod z 10 ltac:(lia)) as Hd.
  destruct (Z.ltb_spec z 10) as [Hlt | Hge].
  - exists (z + 48)%Z, []. rewrite Z.mod_small by lia. simpl t_of.
    rewrite dec_char_code by lia. split; [done|]. split; [lia|]. split; [done|].
    unfold digits_value. simpl. lia.
  - destruct (IH (z / 10)%Z (String (dec_char (z mod 10)) acc)) as (c & r & E & Hc & Hr & Hv & Hp).
    + rewrite Nat2Z.inj_succ, Z.pow_succ_r in Hz by lia.
      split; [apply Z.div_str_pos; lia | apply Z.div_lt_upper_bound; lia].
    + exists c, (r ++ [(z mod 10 + 48)%Z])%list. rewrite E. simpl t_of. rewrite dec_char_code by lia.
      split; [by simplify_list_eq|]. split; [done|]. split.
      { rewrite forallb_app, Hr. simpl. unfold dec_cp.
        rewrite (proj2 (Z.leb_le 48 _)), (proj2 (Z.leb_le _ 57)) by lia. done. }
      split.
      * change (c :: r ++ [(z mod 10 + 48)%Z])%list with ((c :: r) ++ [(z mod 10 + 48)%Z])%list.
        rewrite digits_value_snoc, Hv. lia.
      * rewrite length_app, Nat2Z.inj_add, Z.pow_add_r by lia. simpl (length [_]).
        change (10 ^ Z.of_nat 1)%Z with 10%Z. lia.
Qed.

Lemma parse_suppressed_count z :
  (0 < z < 2 ^ 31)%Z → parse_suppressed (t_of (str_of_Z z)) = Some z.
Proof.
  intros Hz. unfold str_of_Z. rewrite (proj2 (Z.ltb_ge z 0)) by lia. unfold str_of_nonneg.
  destruct (dec_fuel_digits (S (Z.to_nat (Z.log2 z))) z "") as (c & r & -> & Hc & Hr & Hv & Hp).
  { split; [lia|]. rewrite Nat2Z.inj_succ, Z2Nat.id by apply Z.log2_nonneg.
    apply Z.lt_le_trans with (2 ^ Z.succ (Z.log2 z))%Z.
    - apply Z.log2_spec. lia.
    - apply Z.pow_le_mono_l. lia. }
  simpl t_of. rewrite app_nil_r. unfold parse_suppressed.
  rewrite (proj2 (Z.leb_le 49 c)), (proj2 (Z.leb_le c 57)) by lia. rewrite Hr.
  assert (length r ≤ 9)%nat as Hlen.
  { destruct (Nat.le_gt_cases (length r) 9) as [|Hgt]; [done|exfalso].
    assert (10 ^ 10 ≤ 10 ^ Z.of_nat (length r))%Z by (apply Z.pow_le_mono_r; lia).
    change (2 ^ 31)%Z with 2147483648%Z in Hz. change (10 ^ 10)%Z with 10000000000%Z in *. lia. }
  rewrite (proj2 (Nat.leb_le _ _) Hlen). simpl andb.
  fold (digits_value (c :: r)). rewrite Hv. by rewrite (proj2 (Z.ltb_lt _ _)) by lia.
Qed.

Lemma field_app k f g :
  field k (f ++ g)%list = match field k f with Some v => Some v | None => field k g end.
Proof. induction f as [|[k' v] f IH]; simpl; [done|]. by case_bool_decide. Qed.

(** ** Repeats: recorded once per window, and none lost *)

Section repeats.
Context (trim : nat → nat).

(** How many occurrences a stream entry stands for: itself and those its
    [suppressed] count says were not recorded. *)
Definition stands_for (f : fields) : Z :=
  (1 + default 0 (field "suppressed" f ≫= parse_suppressed))%Z.

(** How many occurrences the recorded events stand for together. *)
Definition accounted (rec : list (Z * fields)) : Z :=
  foldr (λ e acc, stands_for e.2 + acc)%Z 0%Z rec.

(** The repeats of one (entry, plane, kind) at [times]: when each was
    recorded, what was appended, and the store after. *)
Fixpoint repeats (m c : string) (window ttl : Z) (f : fields) (times : list Z) (s : store)
  : list (Z * fields) * store :=
  match times with
  | [] => ([], s)
  | t :: ts =>
      let '(r, s1) := repeat_script trim t m c window ttl f s in
      let '(rec, s2) := repeats m c window ttl f ts s1 in
      (if Z.eqb r 1 then (t, default [] (snd <$> last (stream s1))) :: rec else rec, s2)
  end.

(** The count not yet carried by a recorded event; it was last touched at
    [prev]. *)
Definition pending_at (c : string) (ttl prev : Z) (s : store) (n : Z) : Prop :=
  (n = 0%Z ∧ keys s !! c = None) ∨
  ((0 < n)%Z ∧ ∃ ex, keys s !! c = Some (RCount n, Some ex) ∧ (prev + ttl ≤ ex)%Z).

(** Each time less than [ttl] after the one before. *)
Fixpoint paced (ttl prev : Z) (times : list Z) : Prop :=
  match times with
  | [] => True
  | t :: ts => (prev ≤ t < prev + ttl)%Z ∧ paced ttl t ts
  end.

(** No append drops the entry it adds. *)
Context (trim_keeps : ∀ n, (0 < n)%nat → (trim n < n)%nat).

Lemma last_xadd f s : snd <$> last (stream (xadd trim f s)) = Some f.
Proof.
  unfold xadd. simpl. set (l := (stream s ++ _)%list).
  assert (trim (length l) ≤ length (stream s))%nat as Hle.
  { pose proof (trim_keeps (length l)) as H. unfold l in *. rewrite length_app in *. simpl in *. lia. }
  unfold l at 2. rewrite drop_app_le by done. by rewrite last_snoc.
Qed.

Lemma xadd_keys f s k : keys (xadd trim f s) !! k = keys s !! k.
Proof. done. Qed.

Lemma pending_get c ttl prev s n t :
  pending_at c ttl prev s n → (prev ≤ t < prev + ttl)%Z →
  rget t c s = if Z.eqb n 0 then None else Some (RCount n).
Proof.
  intros [[-> Hc] | (Hn & ex & Hc & Hex)] Ht; unfold rget; rewrite Hc; [done|].
  unfold live. simpl. rewrite (proj2 (Z.ltb_lt t ex)) by lia.
  by rewrite (proj2 (Z.eqb_neq n 0)) by lia.
Qed.

(** A passage: the event is appended and stands for the pending ones too. *)
Lemma repeat_passes t m c window ttl f s prior n prev :
  m ≠ c → marker_at m window s prior → pending_at c ttl prev s n → (prev ≤ t < prev + ttl)%Z →
  field "suppressed" f = None → (n < 2 ^ 31)%Z → gate_open window prior t = true →
  ∃ s' g, repeat_script trim t m c window ttl f s = (1%Z, s') ∧
    marker_at m window s' (Some t) ∧ pending_at c ttl t s' 0 ∧
    snd <$> last (stream s') = Some g ∧ stands_for g = (1 + n)%Z.
Proof.
  intros Hmc Hm Hc Ht Hf Hn Hg. unfold repeat_script.
  rewrite (marker_gate _ _ _ _ _ _ Hm), Hg. unfold rgetdel.
  assert (rget t c (rset_ex t m (RText (t_of "1")) window s) = rget t c s) as ->.
  { rewrite rget_set. by rewrite decide_False. }
  rewrite (pending_get _ _ _ _ _ _ Hc Ht).
  eexists _, _. split; [reflexivity|]. split; [|split; [|split; [apply last_xadd|]]].
  - unfold marker_at. eexists. rewrite xadd_keys. simpl.
    rewrite lookup_delete_ne, lookup_insert_eq by done. reflexivity.
  - left. split; [done|]. rewrite xadd_keys. simpl. apply lookup_delete_eq.
  - unfold stands_for. destruct (Z.eqb_spec n 0) as [-> | Hne]; [by rewrite Hf|].
    rewrite field_app, Hf. simpl.
    rewrite parse_suppressed_count; [done|]. destruct Hc as [[-> _] | [? _]]; [done | lia].
Qed.

(** A refusal: nothing is appended and the pending count grows by one. *)
Lemma repeat_counts t m c window ttl f s prior n prev :
  m ≠ c → marker_at m window s prior → pending_at c ttl prev s n → (prev ≤ t < prev + ttl)%Z →
  gate_open window prior t = false →
  ∃ s', repeat_script trim t m c window ttl f s = (0%Z, s') ∧
    marker_at m window s' prior ∧ pending_at c ttl t s' (n + 1).
Proof.
  intros Hmc Hm Hc Ht Hg. unfold repeat_script.
  rewrite (marker_gate _ _ _ _ _ _ Hm), Hg. unfold rincr.
  assert (∃ e, rincr t c s = ((n + 1)%Z, with_keys <[c := (RCount (n + 1), e)]> s)) as [e He].
  { unfold rincr. destruct Hc as [[-> Hc] | (Hn & ex & Hc & Hex)]; rewrite Hc; [by exists None|].
    unfold live. simpl. rewrite (proj2 (Z.ltb_lt t ex)) by lia. by exists (Some ex). }
  unfold rincr in He. rewrite He.
  eexists. split; [reflexivity|]. split.
  - unfold marker_at in *. simpl. destruct prior as [r|].
    + destruct Hm as [v Hv]. exists v. by rewrite lookup_alter_ne, lookup_insert_ne by done.
    + by rewrite lookup_alter_ne, lookup_insert_ne by done.
  - right. split; [destruct Hc as [[-> _] | [? _]]; lia|].
    exists (t + ttl)%Z. simpl. rewrite lookup_alter_eq, lookup_insert_eq. simpl. by split; [|lia].
Qed.

Lemma repeats_account m c window ttl f times s prior n prev :
  m ≠ c → marker_at m window s prior → pending_at c ttl prev s n →
  paced ttl prev times → field "suppressed" f = None →
  (n + Z.of_nat (length times) ≤ 2 ^ 31)%Z →
  let rec := (repeats m c window ttl f times s).1 in
  fst <$> rec = gate_run window prior times ∧
  ∃ n' prev', pending_at c ttl prev' (repeats m c window ttl f times s).2 n' ∧
    (accounted rec + n' = n + Z.of_nat (length times))%Z.
Proof.
  intros Hmc Hm Hc Hp Hf. revert s prior n prev Hm Hc Hp.
  induction times as [|t ts IH]; intros s prior n prev Hm Hc Hp Hb; simpl.
  { split; [done|]. exists n, prev. split; [done | lia]. }
  destruct Hp as [Ht Hp]. simpl length in Hb.
  destruct (gate_open window prior t) eqn:Eg.
  - destruct (repeat_passes t m c window ttl f s prior n prev)
      as (s' & g & -> & Hm' & Hc' & Hl & Hg); try done; [lia|].
    specialize (IH s' (Some t) 0%Z t Hm' Hc' Hp ltac:(destruct Hc as [[-> _]|[? _]]; lia)).
    destruct (repeats m c window ttl f ts s') as [rec s2]. simpl in *. rewrite Hl. simpl.
    destruct IH as [Hr (n' & prev' & Hn' & Hsum)]. split; [f_equal; exact Hr|].
    exists n', prev'. split; [done|]. rewrite Hg. lia.
  - destruct (repeat_counts t m c window ttl f s prior n prev) as (s' & -> & Hm' & Hc'); try done.
    specialize (IH s' prior (n + 1)%Z t Hm' Hc' Hp ltac:(lia)).
    destruct (repeats m c window ttl f ts s') as [rec s2]. simpl in *.
    destruct IH as [Hr (n' & prev' & Hn' & Hsum)]. split; [done|].
    exists n', prev'. split; [done | lia].
Qed.

(** A repeatable event (a refusal, a SQL session opening or closing) is
    recorded at most once per window, and none is lost: the recorded events
    together with the [suppressed] counts they carry and the count still
    pending in the store add up to the number of occurrences, provided the
    next occurrence comes before the pending count's lifetime runs out. *)
Theorem repeats_none_lost m c f times s t0
    (Hmc : m ≠ c) (Hm : keys s !! m = None) (Hc : keys s !! c = None)
    (Hf : field "suppressed" f = None)
    (Hp : paced REPEAT_COUNT_TTL_SECONDS t0 times)
    (Hn : (Z.of_nat (length times) ≤ 2 ^ 31)%Z) :
  let '(rec, s') := repeats m c REPEAT_WINDOW_SECONDS REPEAT_COUNT_TTL_SECONDS f times s in
  spaced REPEAT_WINDOW_SECONDS None (fst <$> rec) ∧
  ∃ n' prev', pending_at c REPEAT_COUNT_TTL_SECONDS prev' s' n' ∧
    (accounted rec + n' = Z.of_nat (length times))%Z.
Proof.
  pose proof (repeats_account m c REPEAT_WINDOW_SECONDS REPEAT_COUNT_TTL_SECONDS f times s
    None 0 t0 Hmc Hm (or_introl (conj eq_refl Hc)) Hp Hf Hn) as [Hr Hs].
  destruct (repeats _ _ _ _ _ _ _) as [rec s']. simpl in *.
  split; [rewrite Hr; apply gate_spaced | done].
Qed.
End repeats.

Lemma repeats_none_lost_witness :
  let s := {| keys := ∅; stream := []; next_id := 0 |} in
  let run := repeats (λ _, 0%nat) "m" "c" REPEAT_WINDOW_SECONDS REPEAT_COUNT_TTL_SECONDS []
               [0; 10; 20; 400]%Z s in
  stands_for <$> (snd <$> run.1) = [1; 3]%Z ∧ spaced REPEAT_WINDOW_SECONDS None (fst <$> run.1).
Proof.
  intros s run. split; [vm_compute; reflexivity|].
  apply (repeats_none_lost (λ _, 0%nat) (λ n H, H) "m" "c" [] [0; 10; 20; 400]%Z s 0%Z);
    [discriminate | reflexivity | reflexivity | reflexivity | vm_compute; intuition discriminate
    | vm_compute; discriminate].
Defined.

(** ** Unknown handles: a flood from one source is bounded *)

Section unknown.
Context (trim : nat → nat).

(** The refusals of unknown values from one source: each at a time, with
    its digest's key and its event; the answer of each. *)
Fixpoint refusals (src : string) (calls : list (Z * string * fields)) (s : store)
  : list (string * Z) * store :=
  match calls with
  | [] => ([], s)
  | (t, d, f) :: rest =>
      let '(r, s1) := eval_call trim t (CallUnknown d src f) s in
      let '(out, s2) := refusals src rest s1 in
      ((d, r) :: out, s2)
  end.

Fixpoint answers (r : Z) (out : list (string * Z)) : list string :=
  match out with
  | [] => []
  | (d, a) :: rest => if Z.eqb a r then d :: answers r rest else answers r rest
  end.

(** Inside the window ending at [e]: [n] values counted so far. *)
Definition counted (src : string) (now e : Z) (s : store) (n : Z) : Prop :=
  (n = 0%Z ∧ rget now src s = None) ∨
  ((0 < n)%Z ∧ ∃ ex, keys s !! src = Some (RCount n, Some ex) ∧ (e ≤ ex)%Z).

Lemma counted_later src now now' e s n :
  counted src now e s n → (now ≤ now')%Z → counted src now' e s n.
Proof.
  intros [[Hn Hg] | H] Hle; [left | by right]. split; [done|].
  unfold rget, live in *. destruct (keys s !! src) as [[v [x|]]|]; simpl in *; try done.
  destruct (Z.ltb_spec now x); [done|]. by rewrite (proj2 (Z.ltb_ge now' x)) by lia.
Qed.

(** Counting one more value: the counter after INCR and the first EXPIRE. *)
Lemma incr_counted src now e s n :
  counted src now e s n → (now < e)%Z → (e ≤ now + SOURCE_WINDOW_SECONDS)%Z →
  ∃ s1, rincr now src s = ((n + 1)%Z, s1) ∧
    let s2 := if Z.eqb (n + 1) 1 then rexpire now src SOURCE_WINDOW_SECONDS s1 else s1 in
    counted src now e s2 (n + 1) ∧ (∀ k, k ≠ src → keys s2 !! k = keys s !! k).
Proof.
  intros Hc Hlt He. destruct Hc as [[-> Hg] | (Hn & ex & Hk & Hex)].
  - assert (∃ e0, rincr now src s = (1%Z, with_keys <[src := (RCount 1, e0)]> s)) as [e0 ->].
    { unfold rincr, rget in *. destruct (keys s !! src) as [[[x|z] o]|]; eauto.
      destruct (live now (RCount z, o)); [done | eauto]. }
    eexists. split; [reflexivity|]. simpl. split.
    + right. split; [lia|]. exists (now + SOURCE_WINDOW_SECONDS)%Z. simpl.
      by rewrite lookup_alter_eq, lookup_insert_eq.
    + intros k Hk. by rewrite lookup_alter_ne, lookup_insert_ne by done.
  - eexists. unfold rincr. rewrite Hk. unfold live. simpl.
    rewrite (proj2 (Z.ltb_lt now ex)) by lia. split; [reflexivity|].
    rewrite (proj2 (Z.eqb_neq (n + 1) 1)) by lia. simpl. split.
    + right. split; [lia|]. exists ex. simpl. by rewrite lookup_insert_eq.
    + intros k Hk'. by rewrite lookup_insert_ne.
Qed.

(** A digest recorded within its own window. *)
Definition seen (e : Z) (d : string) (s : store) : Prop :=
  ∃ v ex, keys s !! d = Some (v, Some ex) ∧ (e ≤ ex)%Z.

Lemma refusal_step src e now d f s n r s' :
  d ≠ src → counted src now e s n → (0 ≤ n)%Z → (now < e)%Z →
  (e ≤ now + SOURCE_WINDOW_SECONDS)%Z →
  eval_call trim now (CallUnknown d src f) s = (r, s') →
  (∀ k, seen e k s → k ≠ src → seen e k s') ∧ (seen e d s → r = 0%Z) ∧
  ∃ n', counted src now e s' n' ∧ (n ≤ n')%Z ∧
    (r = 1%Z → n' = (n + 1)%Z ∧ (n' ≤ SOURCE_LIMIT)%Z ∧ seen e d s') ∧
    (r = (-1)%Z → n' = (SOURCE_LIMIT + 1)%Z ∧ n = SOURCE_LIMIT).
Proof.
  intros Hd Hc Hn0 Hlt He. simpl. unfold unknown_refusal_script.
  assert (seen e d s → rexists now d s = true) as Hseen.
  { intros (v & ex & Hk & Hex). unfold rexists, rget, live. rewrite Hk. simpl.
    by rewrite (proj2 (Z.ltb_lt now ex)) by lia. }
  destruct (rexists now d s) eqn:Ex.
  { intros [= <- <-]. split; [done|]. split; [done|]. exists n. repeat split; done || lia. }
  destruct (incr_counted _ _ _ _ _ Hc Hlt He) as (s1 & -> & Hc' & Hother).
  set (s2 := if Z.eqb (n + 1) 1 then _ else _) in *.
  assert (∀ k, seen e k s → k ≠ src → seen e k s2) as Hkeep.
  { intros k (v & ex & Hk & Hex) Hne. exists v, ex. by rewrite Hother. }
  destruct (Z.ltb_spec SOURCE_LIMIT (n + 1)) as [Hover | Hunder].
  - intros [= <- <-]. split; [done|]. split; [by intros H%Hseen|].
    exists (n + 1)%Z. split; [done|]. split; [lia|].
    destruct (Z.eqb_spec (n + 1) (SOURCE_LIMIT + 1)); split; intros; done || lia.
  - intros [= <- <-]. split.
    { intros k Hk Hne. destruct (Hkeep k Hk Hne) as (v & ex & Hk2 & Hex).
      unfold seen. simpl. destruct (decide (d = k)) as [-> | Hdk].
      - rewrite lookup_insert_eq. eexists _, _. split; [reflexivity|].
        unfold UNKNOWN_REFUSAL_WINDOW_SECONDS, SOURCE_WINDOW_SECONDS in *. lia.
      - rewrite lookup_insert_ne by done. eauto. }
    split; [by intros H%Hseen|].
    exists (n + 1)%Z. split.
    { destruct Hc' as [[H0 _] | (Hn & ex & Hk & Hex)]; [lia|]. right. split; [done|].
      exists ex. simpl. by rewrite lookup_insert_ne. }
    split; [lia|]. split; [|done]. intros _. split; [done|]. split; [done|].
    unfold seen. simpl. rewrite lookup_insert_eq. eexists _, _. split; [reflexivity|].
    unfold UNKNOWN_REFUSAL_WINDOW_SECONDS, SOURCE_WINDOW_SECONDS in *. lia.
Qed.

Lemma refusals_bounded src e prev calls s n :
  (∀ t d f, (t, d, f) ∈ calls → d ≠ src ∧ (t < e ≤ t + SOURCE_WINDOW_SECONDS)%Z) →
  ordered prev ((λ c, c.1.1) <$> calls) → counted src prev e s n → (0 ≤ n)%Z →
  let out := (refusals src calls s).1 in
  (Z.of_nat (length (answers 1 out)) ≤ Z.max 0 (SOURCE_LIMIT - n))%Z ∧
  (Z.of_nat (length (answers (-1) out)) ≤ if decide (n ≤ SOURCE_LIMIT)%Z then 1 else 0)%Z ∧
  NoDup (answers 1 out) ∧ (∀ d, d ≠ src → seen e d s → d ∉ answers 1 out).
Proof.
  revert prev s n. induction calls as [|[[t d] f] rest IH]; intros prev s n Hin Ho Hc Hn; simpl.
  { repeat split; try case_decide; try lia; [constructor | intros d _ _ []%elem_of_nil]. }
  destruct Ho as [Hpt Ho]. destruct (Hin t d f) as [Hd Ht]; [left|].
  destruct (unknown_refusal_script _ _ _ _ _ _ _ _ _) as [r s1] eqn:E.
  pose proof (counted_later _ _ t _ _ _ Hc Hpt) as Hct.
  destruct (refusal_step src e t d f s n r s1 Hd Hct Hn ltac:(lia) ltac:(lia) E)
    as (Hkeep & Hzero & n' & Hc' & Hle & H1 & Hm1).
  destruct (IH t s1 n') as (IH1 & IH2 & IH3 & IH4);
    [intros t' d' f' H'; eapply (Hin t' d' f'); by right | done | done | lia |].
  destruct (refusals src rest s1) as [out s2]. simpl in *.
  destruct (Z.eqb_spec r 1) as [-> | Hr1]; simpl.
  - destruct (H1 eq_refl) as (-> & Hlim & Hsd). split; [lia|]. split; [repeat case_decide; lia|].
    split; [apply NoDup_cons; split; [by apply IH4 | done]|].
    intros k Hk Hs [-> | Hx]%elem_of_cons; [by specialize (Hzero Hs)|].
    by eapply IH4; [|apply Hkeep|].
  - split; [lia|]. split; [|split; [done|]].
    + destruct (Z.eqb_spec r (-1)) as [-> | Hrm]; simpl; [|repeat case_decide; lia].
      destruct (Hm1 eq_refl) as [-> ->]. repeat case_decide; lia.
    + intros k Hk Hs. apply IH4; [done|]. by apply Hkeep.
Qed.

(** However many distinct unknown values a source presents, at most
    [SOURCE_LIMIT] of them are recorded in a source window, each at most
    once, and the plane is told that the limit was passed at most once. *)
Theorem unknown_flood_bounded src t0 calls s
    (Hin : ∀ t d f, (t, d, f) ∈ calls → d ≠ src ∧ (t0 ≤ t < t0 + SOURCE_WINDOW_SECONDS)%Z)
    (Hord : ordered t0 ((λ c, c.1.1) <$> calls))
    (Hfresh : rget t0 src s = None) :
  let out := (refusals src calls s).1 in
  (Z.of_nat (length (answers 1 out)) ≤ SOURCE_LIMIT)%Z ∧ NoDup (answers 1 out) ∧
  (Z.of_nat (length (answers (-1) out)) ≤ 1)%Z.
Proof.
  assert (counted src t0 (t0 + SOURCE_WINDOW_SECONDS) s 0) as Hc by (by left).
  destruct (refusals_bounded src (t0 + SOURCE_WINDOW_SECONDS) t0 calls s 0)
    as (H1 & H2 & H3 & _); [|done|done|done|].
  - intros t d f H. destruct (Hin t d f H). split; [done | lia].
  - rewrite decide_True in H2 by (unfold SOURCE_LIMIT; lia).
    unfold SOURCE_LIMIT in *. simpl in *. split; [lia | done].
Qed.
End unknown.

Lemma unknown_flood_bounded_witness :
  let s := {| keys := ∅; stream := []; next_id := 0 |} in
  let calls := [(3, "d1", []); (4, "d2", []); (5, "d1", [])]%Z in
  (refusals (λ _, 0%nat) "src" calls s).1 = [("d1", 1); ("d2", 1); ("d1", 0)]%Z ∧
  NoDup (answers 1 (refusals (λ _, 0%nat) "src" calls s).1).
Proof.
  intros s calls. split; [vm_compute; reflexivity|].
  apply (unknown_flood_bounded (λ _, 0%nat) "src" 0%Z calls s).
  - intros t d f. unfold calls, SOURCE_WINDOW_SECONDS. rewrite !elem_of_cons, elem_of_nil.
    intros [? | [? | [? | []]]]; simplify_eq; split; (discriminate || lia).
  - simpl. lia.
  - reflexivity.
Defined.

(** ** Every event a plane can append is one the writer reads *)

Lemma s_of_t_of s : s_of (t_of s) = Some s.
Proof.
  induction s as [|c s IH]; simpl; [done|]. rewrite IH. simpl. unfold code.
  pose proof (N_ascii_bounded c) as Hb.
  rewrite (proj2 (Z.leb_le 0 _)), (proj2 (Z.ltb_lt _ 256)) by lia. simpl.
  by rewrite N2Z.id, ascii_N_embedding.
Qed.

Lemma clean_text_idem t : clean_text (clean_text t) = clean_text t.
Proof.
  unfold clean_text.
  set (g := λ c : Z, if Z.eqb c 0 then 65533%Z else c).
  assert (∀ l, map g (take MAX_DETAIL l) = take MAX_DETAIL (map g l)) as Hm.
  { intros l. symmetry. apply (firstn_map g). }
  assert (∀ l, map g (map g l) = map g l) as Hg.
  { intros l. rewrite map_map. apply map_ext. intros c. unfold g.
    destruct (Z.eqb_spec c 0) as [->|H]; [done|]. by rewrite (proj2 (Z.eqb_neq c 0)). }
  rewrite Hm, Hg, take_take. by rewrite Nat.min_id.
Qed.

Lemma field_opt k k' v : field k (opt_field k' v) = if bool_decide (k = k') then v else None.
Proof. destruct v; simpl; by case_bool_decide. Qed.

Definition not_nul (c : Z) : bool := negb (Z.eqb c 0).

Lemma clean_id t : forallb not_nul t = true → (length t ≤ MAX_DETAIL)%nat → clean_text t = t.
Proof.
  intros Ht Hl. unfold clean_text.
  assert (map (λ c, if Z.eqb c 0 then 65533%Z else c) t = t) as ->.
  { clear Hl. induction t as [|c t IH]; simpl in *; [done|]. bool_hyps. rewrite IH by done.
    unfold not_nul in *. bool_hyps. by rewrite (proj2 (Z.eqb_neq c 0)). }
  by rewrite take_ge.
Qed.

Lemma hex_not_nul t : forallb hex_cp t = true → forallb not_nul t = true.
Proof.
  induction t as [|c t IH]; simpl; [done|]. intros [Hc Ht]%andb_true_iff.
  rewrite IH by done. unfold not_nul. destruct (Z.eqb_spec c 0) as [->|]; done.
Qed.

(** Cleaning leaves a digest alone, a final newline included. *)
Lemma digest_clean t : digest_match t = true → clean_text t = t.
Proof.
  unfold digest_match. intros [H | H]%orb_true_iff; bool_hyps.
  - apply clean_id; [by apply hex_not_nul | unfold MAX_DETAIL; lia].
  - apply clean_id; [|unfold MAX_DETAIL; lia].
    rewrite <- (take_drop 16 t), forallb_app, hex_not_nul by done. simpl.
    erewrite drop_S by done.
    rewrite (drop_ge t 17) by lia. done.
Qed.

Lemma one_of_t l s : s ∈ l → one_of l (Some (t_of s)) = Some s.
Proof. intros H. unfold one_of. simpl. rewrite s_of_t_of. by rewrite bool_decide_true. Qed.

Lemma audience_clean x : x ∈ AUDIENCES → clean_text (t_of x) = t_of x.
Proof.
  intros H. unfold AUDIENCES in H. rewrite !elem_of_cons, elem_of_nil in H.
  repeat destruct H as [-> | H]; done.
Qed.

Lemma res_fmap_ok {A B} (f : A → B) r a : r = Ok a → f <$> r = Ok (f a).
Proof. by intros ->. Qed.

#[local] Arguments clean_text : simpl never.

(** The row the writer reads from an event. *)
Definition row_of (a : event_args) (company handle : option string) (now : Z) : audit_row :=
  {| r_kind := a_kind a; r_plane := a_plane a; r_at := Aware now 0;
     r_user := clean_text <$> a_user a; r_company_id := company; r_audience := a_audience a;
     r_handle_id := handle; r_digest := a_digest a; r_reason := clean_text <$> a_reason a;
     r_detail := clean_text <$> a_detail a; r_suppressed := None |}.

Section roundtrip.
Context `{I : IsoCodec}.

Lemma text_uuid_canonical c d : canonical_company_id c = Ok d →
  ∃ u, text_uuid (t_of d) = Some u ∧ uuid_str u = d.
Proof.
  intros (u & _ & Hu & ->)%canonical_inv. exists u. unfold text_uuid.
  rewrite s_of_t_of. simpl. by rewrite uuid_parse_str.
Qed.

Lemma ids_parse o :
  (∀ x, o = Some x → ∃ u, text_uuid (t_of x) = Some u ∧ uuid_str u = x) →
  ∃ o', opt_parse text_uuid (t_of <$> o) = Ok o' ∧ uuid_str <$> o' = o.
Proof.
  intros H. destruct o as [x|]; [|by exists None].
  destruct (H x eq_refl) as (u & Hu & Hx). exists (Some u).
  unfold opt_parse. cbn [fmap option_fmap option_map]. rewrite Hu. cbn. by rewrite Hx.
Qed.

(** Every event a plane can append is one the writer reads: if [event]
    accepts its arguments, [decode] accepts the fields and returns them,
    the ids in canonical form and the free text cleaned, whatever text the
    caller passed. *)
Theorem decode_event a now f
    (Ht : in_range now = true) (He : event a now = Ok f) :
  ∃ company handle, decode f = Ok (row_of a company handle now) ∧
    (∀ c, a_company_id a = Some c → Ok <$> company = Some (canonical_company_id c)) ∧
    (∀ h, a_handle_id a = Some h → Ok <$> handle = Some (canonical_company_id h)).
Proof.
  unfold event in He. destruct (bool_decide (a_kind a ∈ KINDS)) eqn:Hk; [|done].
  destruct (bool_decide (a_plane a ∈ PLANES)) eqn:Hp; [|done]. simpl in He.
  destruct (match a_audience a with Some x => _ | None => _ end) eqn:Haud; [done|].
  apply res_bind_inv_ok in He as (company & Hc & He).
  apply res_bind_inv_ok in He as (handle & Hh & He).
  destruct (match a_digest a with Some d => _ | None => _ end) eqn:Hd; [done|].
  injection He as <-. bool_hyps. exists company, handle. split; [|split].
  - unfold decode. simpl field. rewrite !field_app, !field_opt. simpl bool_decide. cbv iota.
    rewrite !one_of_t by done. simpl or_raise. rewrite !res_bind_ok, s_of_t_of. simpl or_raise.
    rewrite res_bind_ok.
    rewrite iso_roundtrip by done. simpl.
    assert (∀ o : option text, match o with Some v => Some v | None => None end = o) as Hid
      by (by intros []).
    rewrite !Hid.
    destruct (ids_parse company) as (o1 & -> & Hcu).
    { intros x ->. destruct (a_company_id a) as [c|]; [|discriminate Hc].
      apply res_fmap_inv in Hc as (d & Hc & Hx). injection Hx as <-.
      exact (text_uuid_canonical _ _ Hc). }
    destruct (ids_parse handle) as (o2 & -> & Hhu).
    { intros x ->. destruct (a_handle_id a) as [h|]; [|discriminate Hh].
      apply res_fmap_inv in Hh as (u & Hu & Hx). injection Hx as ->.
      apply (text_uuid_canonical h). unfold canonical_company_id.
      rewrite (res_fmap_ok _ _ _ Hu). reflexivity. }
    rewrite !res_bind_ok.
    assert (opt_parse (λ t, one_of AUDIENCES (Some t))
              ((λ x, clean_text (t_of x)) <$> a_audience a) = Ok (a_audience a)) as ->.
    { destruct (a_audience a) as [x|]; [|done]. bool_hyps. simpl.
      rewrite audience_clean by assumption. rewrite one_of_t by assumption. reflexivity. }
    assert (opt_parse (λ t, if digest_match t then Some t else None)
              (clean_text <$> a_digest a) = Ok (a_digest a)) as ->.
    { destruct (a_digest a) as [d|]; [|done]. bool_hyps. simpl.
      rewrite digest_clean by assumption. rewrite Hd. reflexivity. }
    assert (∀ o : option text, clean_text <$> (clean_text <$> o) = clean_text <$> o) as Hidem.
    { intros [t|]; simpl; [|done]. by rewrite clean_text_idem. }
    rewrite !res_bind_ok. unfold row_of. simpl. rewrite Hcu, Hhu, !Hidem. reflexivity.
  - intros c Hac. rewrite Hac in Hc. apply res_fmap_inv in Hc as (d & Hc & ->).
    rewrite Hc. reflexivity.
  - intros h Hah. rewrite Hah in Hh. apply res_fmap_inv in Hh as (u & Hu & ->).
    unfold canonical_company_id. rewrite (res_fmap_ok _ _ _ Hu). reflexivity.
Qed.
End roundtrip.

(** A sign-in event with every optional column present. *)
Definition sample_args : event_args :=
  {| a_kind := "refused"; a_plane := "hub"; a_company_id := Some "00000000-0000-0000-0000-00000000000A";
     a_user := Some (t_of "ops"); a_audience := None; a_handle_id := None;
     a_digest := None; a_reason := Some (t_of "expired"); a_detail := None |}.

#[local] Existing Instance hex_iso.

Lemma decode_event_witness :
  in_range 0 = true ∧ ∃ f, event sample_args 0 = Ok f ∧
    ∃ company handle, decode f = Ok (row_of sample_args company handle 0) ∧
      (∀ c, a_company_id sample_args = Some c → Ok <$> company = Some (canonical_company_id c)) ∧
      (∀ h, a_handle_id sample_args = Some h → Ok <$> handle = Some (canonical_company_id h)).
Proof.
  split; [reflexivity|]. eexists. split; [vm_compute; reflexivity|].
  apply decode_event; [reflexivity | vm_compute; reflexivity].
Defined.
