(* ===== verification/AuditDrain.v ===== *)
(** * The one writer of the capability-use record: services/api_gateway/messaging/capability_audit_drain.py

    The consumer group on the stream of CapabilityAudit, the table behind
    [public.record_capability_use], and the drain between them.  Every call to
    Redis or the database may fail, before or after it took effect: the
    outcomes of the calls are the world's [faults], consumed in order, and an
    exhausted list means every later call runs.  A stream id is its position
    in the stream's order; times are milliseconds. *)

From stdpp Require Import base strings list gmap sorting.
From Stdlib Require Import ZArith Lia.
From S2P Require Import Prelude PyText PyJson CapabilityAudit.

Local Open Scope string_scope.

Definition BATCH : nat := 500.
Definition CLAIM_IDLE_MS : Z := 60000.

(** ** Exceptions, and what they say about a row *)

(** An exception object: whether it is a DBAPIError, its [sqlstate]
    attribute, its [orig] attribute and its [__cause__]. *)
#[warnings="-register-all"]
Inductive pyexc :=
  | PyExc (dbapi : bool) (state : option string) (orig cause : option pyexc).

Definition is_dbapi (e : pyexc) : bool := let 'PyExc d _ _ _ := e in d.

(** The chain is walked through [orig], or [__cause__] where there is none;
    an empty code is no code.  (The walk's visited set only matters on a
    cyclic chain, which a tree is not.) *)
Fixpoint _sqlstate (e : pyexc) : option string :=
  let 'PyExc _ state orig cause := e in
  let next :=
    match orig with
    | Some o => _sqlstate o
    | None => match cause with Some c => _sqlstate c | None => None end
    end in
  match state with
  | Some EmptyString | None => next
  | Some code => Some code
  end.

Definition _row_fault (e : pyexc) : bool :=
  match _sqlstate e with
  | Some code => let c := str_take 2 code in bool_decide (c = "22" ∨ c = "23")
  | None => false
  end.

(** ** The world *)

(** A row as [_params] binds it. *)
Record row := { p_stream_id : nat; p_at : Z; p_event : audit_row }.

(** A call's outcome: it runs, it fails without effect, or it takes effect
    and its reply is lost. *)
Inductive fault := Run | Failed (e : pyexc) | Lost (e : pyexc).

Record world := {
  entries : list (nat * fields);
  last_delivered : nat;
  pending : list (nat * (string * Z));
  table : list row;
  written : nat; unreadable : nat; refused : nat;
  faults : list fault }.

Definition set_entries e w := {| entries := e; last_delivered := last_delivered w;
  pending := pending w; table := table w; written := written w; unreadable := unreadable w;
  refused := refused w; faults := faults w |}.
Definition set_group p l w := {| entries := entries w; last_delivered := l;
  pending := p; table := table w; written := written w; unreadable := unreadable w;
  refused := refused w; faults := faults w |}.
Definition set_table t w := {| entries := entries w; last_delivered := last_delivered w;
  pending := pending w; table := t; written := written w; unreadable := unreadable w;
  refused := refused w; faults := faults w |}.
Definition set_faults l w := {| entries := entries w; last_delivered := last_delivered w;
  pending := pending w; table := table w; written := written w; unreadable := unreadable w;
  refused := refused w; faults := l |}.
Definition count_written n w := {| entries := entries w; last_delivered := last_delivered w;
  pending := pending w; table := table w; written := (written w + n)%nat;
  unreadable := unreadable w; refused := refused w; faults := faults w |}.
Definition count_unreadable w := {| entries := entries w; last_delivered := last_delivered w;
  pending := pending w; table := table w; written := written w;
  unreadable := S (unreadable w); refused := refused w; faults := faults w |}.
Definition count_refused w := {| entries := entries w; last_delivered := last_delivered w;
  pending := pending w; table := table w; written := written w; unreadable := unreadable w;
  refused := S (refused w); faults := faults w |}.

(** Effects: an exception object or a value, and the world after. *)
Definition D (A : Type) : Type := world → (pyexc + A) * world.
#[local] Instance D_ret : MRet D := λ A a w, (inr a, w).
#[local] Instance D_bind : MBind D := λ A B f m w,
  match m w with (inl e, w') => (inl e, w') | (inr a, w') => f a w' end.
Definition d_raise {A} (e : pyexc) : D A := λ w, (inl e, w).
Definition d_modify (f : world → world) : D unit := λ w, (inr tt, f w).

(** The next call's outcome. *)
Definition next_fault : D fault := λ w,
  match faults w with
  | [] => (inr Run, w)
  | f :: l => (inr f, set_faults l w)
  end.

Definition d_run {A} (f : world → A * world) : D A := λ w, let '(a, w') := f w in (inr a, w').

(** A call that changes the world by [f]. *)
Definition external {A} (f : world → A * world) : D A :=
  o ← next_fault;
  match o with
  | Run => d_run f
  | Failed e => d_raise e
  | Lost e => d_modify (λ w, snd (f w)) ≫= λ _, d_raise e
  end.

(** ** The record: infrastructure/timescaledb/init-scripts/31-capability-audit.sql *)

(** The table's CHECK constraints.  PostgreSQL's [$] matches at the end of
    the string only. *)
Definition row_check (r : row) : bool :=
  let e := p_event r in
  bool_decide (r_kind e ∈ KINDS) && bool_decide (r_plane e ∈ PLANES)
  && match r_audience e with Some a => bool_decide (a ∈ AUDIENCES) | None => true end
  && match r_digest e with
     | Some d => (length d =? 16)%nat && forallb hex_cp d
     | None => true
     end
  && match r_suppressed e with Some n => Z.ltb 0 n | None => true end.

(** The refusal as SQLAlchemy raises it: check_violation through the
    adapter's wrapping. *)
Definition check_violation : pyexc :=
  PyExc true None (Some (PyExc false (Some "23514") None None)) None.

Definition recorded (t : list row) (i : nat) : bool := existsb (λ r, p_stream_id r =? i)%nat t.

(** [INSERT ... ON CONFLICT (stream_id) DO NOTHING] *)
Definition insert_row (t : list row) (r : row) : list row :=
  if recorded t (p_stream_id r) then t else (t ++ [r])%list.

(** [conn.execute(RECORD, row)] *)
Definition execute (r : row) : D unit :=
  o ← next_fault;
  match o with
  | Failed e | Lost e => d_raise e
  | Run => if row_check r then d_modify (λ w, set_table (insert_row (table w) r) w)
           else d_raise check_violation
  end.

(** [async with engine.begin() as conn: body]: committed when the body
    returns, rolled back when it raises. *)
Definition committing (body : D unit) : D unit := λ w,
  match body w with
  | (inl e, w') => (inl e, set_table (table w) w')
  | (inr _, w') =>
      match next_fault w' with
      | (inr (Failed e), w'') => (inl e, set_table (table w) w'')
      | (inr (Lost e), w'') => (inl e, w'')
      | (_, w'') => (inr tt, w'')
      end
  end.

Definition transaction (body : D unit) : D unit :=
  o ← next_fault;
  match o with
  | Failed e | Lost e => d_raise e
  | Run => committing body
  end.

Fixpoint each (body : row → D unit) (rows : list row) : D unit :=
  match rows with
  | [] => mret tt
  | r :: rs => body r ≫= λ _, each body rs
  end.

(** ** The drain *)

(** [_params(stream_id, audit.decode(fields))]: the instant in UTC. *)
Definition _params `{IsoCodec} (e : nat * fields) : res row :=
  ev ← decode e.2;
  at_ ← dt_utc (r_at ev);
  Ok {| p_stream_id := e.1; p_at := at_; p_event := ev |}.

Definition reads_as_unreadable (e : exn) : bool :=
  is_value_error e || bool_decide (e ∈ [KeyError; TypeError; OverflowError]).

(** The readable rows of [entries]; the ids to acknowledge are all of them. *)
Fixpoint read_rows `{IsoCodec} (es : list (nat * fields)) : D (list row) :=
  match es with
  | [] => mret []
  | e :: r =>
      match _params e with
      | Ok p => read_rows r ≫= λ rows, mret (p :: rows)
      | Err x => if reads_as_unreadable x
                 then d_modify count_unreadable ≫= λ _, read_rows r
                 else d_raise (PyExc false None None None)
      end
  end.

(** One row alone: a row fault is counted and swallowed. *)
Definition write_alone (r : row) : D unit := λ w,
  match transaction (execute r) w with
  | (inr _, w') => (inr tt, count_written 1 w')
  | (inl e, w') => if is_dbapi e && _row_fault e then (inr tt, count_refused w') else (inl e, w')
  end.

Definition write_rows (rows : list row) : D unit := λ w,
  match transaction (each execute rows) w with
  | (inr _, w') => (inr tt, count_written (length rows) w')
  | (inl e, w') => if is_dbapi e && _row_fault e then each write_alone rows w' else (inl e, w')
  end.

Definition write_batch `{IsoCodec} (es : list (nat * fields)) : D (list nat) :=
  rows ← read_rows es;
  match rows with
  | [] => mret es.*1
  | _ => write_rows rows ≫= λ _, mret es.*1
  end.

(** A reply: XAUTOCLAIM's, or XREADGROUP's in either protocol; an item whose
    entry is gone has no fields. *)
Abbreviation item := (nat * option fields)%type.
Inductive reply :=
  | NoReply
  | Claimed (next : nat) (items : list item) (deleted : list nat)
  | Read2 (batches : list (string * list item))
  | Read3 (batches : list (string * (list item + list (list item)))).

Definition with_fields (items : list item) : list (nat * fields) :=
  omap (λ i, match i.2 with Some [] | None => None | Some f => Some (i.1, f) end) items.

Definition _entries (r : reply) : list (nat * fields) :=
  match r with
  | NoReply => []
  | Claimed _ items _ => with_fields items
  | Read2 bs => with_fields (mjoin (snd <$> bs))
  | Read3 bs => with_fields (mjoin ((λ b, match b.2 with
                                          | inl items => items
                                          | inr (items :: _) => items
                                          | inr [] => []
                                          end) <$> bs))
  end.

Definition fields_of (i : nat) (es : list (nat * fields)) : option fields :=
  snd <$> List.find (λ e, e.1 =? i)%nat es.

(** XAUTOCLAIM from the start: the pending ids in order, up to [attempts] of
    them, until [count] are claimed or found deleted; the idle ones pass to
    [consumer], the deleted ones leave the pending list. *)
Fixpoint autoclaim (es : list (nat * fields)) (consumer : string) (now : Z)
  (attempts count : nat) (p : list (nat * (string * Z)))
  : list item * list (nat * (string * Z)) :=
  match attempts, count, p with
  | S a, S c, (i, (who, at_)) :: r =>
      match fields_of i es with
      | None => autoclaim es consumer now a c r
      | Some f =>
          if Z.ltb (now - at_) CLAIM_IDLE_MS
          then let '(got, r') := autoclaim es consumer now a (S c) r in (got, (i, (who, at_)) :: r')
          else let '(got, r') := autoclaim es consumer now a c r in
               ((i, Some f) :: got, (i, (consumer, now)) :: r')
      end
  | _, _, _ => ([], p)
  end.

Definition xautoclaim (consumer : string) (now : Z) (w : world) : reply * world :=
  let '(got, p) := autoclaim (entries w) consumer now (10 * BATCH) BATCH (pending w) in
  (Claimed 0 got [], set_group p (last_delivered w) w).

(** The entries no consumer was given yet. *)
Definition undelivered (w : world) : list (nat * fields) :=
  base.filter (λ e, last_delivered w < e.1)%nat (entries w).

(** XREADGROUP ">" *)
Definition xreadgroup (consumer : string) (now : Z) (w : world) : reply * world :=
  match take BATCH (undelivered w) with
  | [] => (NoReply, w)
  | es => (Read2 [(STREAM_KEY, (λ e, (e.1, Some e.2)) <$> es)],
           set_group (pending w ++ ((λ e, (e.1, (consumer, now))) <$> es))%list
                     (default (last_delivered w) (last es.*1)) w)
  end.

(** MULTI; XACK; XDEL; EXEC *)
Definition ack_and_delete (ids : list nat) (w : world) : unit * world :=
  (tt, set_entries (base.filter (λ e, e.1 ∉ ids) (entries w))
         (set_group (base.filter (λ p, p.1 ∉ ids) (pending w)) (last_delivered w) w)).

Definition drain_once `{IsoCodec} (consumer : string) (now : Z) : D nat :=
  c ← external (xautoclaim consumer now);
  f ← external (xreadgroup consumer now);
  match (_entries c ++ _entries f)%list with
  | [] => mret O
  | es => ack ← write_batch es;
          match ack with
          | [] => mret O
          | _ => _ ← external (ack_and_delete ack); mret (length ack)
          end
  end.

(** The passes of [run]: a failed pass is retried, whatever raised. *)
Fixpoint passes `{IsoCodec} (consumer : string) (times : list Z) (w : world) : world :=
  match times with
  | [] => w
  | t :: ts => passes consumer ts (snd (drain_once consumer t w))
  end.

(** ** What a run of the writer leaves in the table *)

(** The table after every one of [rows] was put to it, the refused left out. *)
Definition record_row (t : list row) (r : row) : list row :=
  if row_check r then insert_row t r else t.
Abbreviation record_all := (foldl record_row).

(** Everything but the table, the counters and the faults consumed. *)
Definition frame (w w' : world) : Prop :=
  entries w' = entries w ∧ pending w' = pending w ∧ last_delivered w' = last_delivered w ∧
  faults w' `suffix_of` faults w.

#[local] Instance frame_preorder : PreOrder frame.
Proof.
  split; [by intros w|].
  intros w1 w2 w3 (? & ? & ? & ?) (? & ? & ? & ?). repeat split; try congruence. by etrans.
Qed.

Definition scripted (e : pyexc) (l : list fault) : Prop := Failed e ∈ l ∨ Lost e ∈ l.

Lemma scripted_suffix e l l' : l' `suffix_of` l → scripted e l' → scripted e l.
Proof. intros [k ->] [H | H]; [left | right]; apply elem_of_app; by right. Qed.

(** The server refuses as data, or against a constraint, only what a row
    holds: no other failure carries class 22 or 23. *)
Definition no_row_faults (l : list fault) : Prop := ∀ e, scripted e l → _row_fault e = false.

Lemma no_row_faults_suffix l l' : l' `suffix_of` l → no_row_faults l → no_row_faults l'.
Proof. intros Hs H e He. apply H. by eapply scripted_suffix. Qed.

Lemma frame_faults w w' : frame w w' → faults w' `suffix_of` faults w.
Proof. by intros (_ & _ & _ & ?). Qed.

Lemma recorded_app t u i : recorded (t ++ u) i = recorded t i || recorded u i.
Proof. apply existsb_app. Qed.

Lemma insert_row_prefix t r : t `prefix_of` insert_row t r.
Proof. unfold insert_row. destruct (recorded _ _); [done | by exists [r]]. Qed.

Lemma record_row_prefix t r : t `prefix_of` record_row t r.
Proof. unfold record_row. destruct (row_check r); [apply insert_row_prefix | done]. Qed.

Lemma record_all_prefix t rows : t `prefix_of` record_all t rows.
Proof.
  revert t. induction rows as [|r rows IH]; intros t; simpl; [done|].
  etrans; [apply record_row_prefix | apply IH].
Qed.

Lemma recorded_prefix t t' i : t `prefix_of` t' → recorded t i = true → recorded t' i = true.
Proof. intros [u ->] H. by rewrite recorded_app, H. Qed.

Lemma insert_row_recorded t r : recorded (insert_row t r) (p_stream_id r) = true.
Proof.
  unfold insert_row. destruct (recorded t _) eqn:E; [done|].
  rewrite recorded_app. simpl. rewrite Nat.eqb_refl. simpl. apply orb_true_r.
Qed.

(** A row put to the table is in it, unless the table refuses it. *)
Definition settled (t : list row) (r : row) : Prop :=
  row_check r = false ∨ recorded t (p_stream_id r) = true.

Lemma record_all_settled t rows r : r ∈ rows → settled (record_all t rows) r.
Proof.
  revert t. induction rows as [|r' rows IH]; intros t Hr; [by apply elem_of_nil in Hr|].
  simpl. apply elem_of_cons in Hr as [-> | Hr]; [|by apply IH].
  unfold settled, record_row. destruct (row_check r') eqn:E; [right | by left].
  eapply recorded_prefix; [apply record_all_prefix | apply insert_row_recorded].
Qed.

Lemma record_settled t rows : Forall (settled t) rows → record_all t rows = t.
Proof.
  induction 1 as [|r rows Hr _ IH]; simpl; [done|].
  unfold record_row at 2. destruct Hr as [-> | Hr]; [done|].
  destruct (row_check r); [|done]. unfold insert_row. by rewrite Hr.
Qed.

(** Putting the same rows to the table again, after any part of them, ends
    in the same table. *)
Lemma record_again t rows k :
  record_all (record_all t (take k rows)) rows = record_all t rows.
Proof.
  rewrite <- (take_drop k rows) at 2 3. rewrite !foldl_app. f_equal.
  apply record_settled, Forall_forall. intros r Hr. by apply record_all_settled.
Qed.

(** ** The transactions *)

Definition body_spec (rows : list row) (body : D unit) : Prop := ∀ w o w',
  body w = (o, w') →
  frame w w' ∧
  (o = inr tt → forallb row_check rows = true ∧ table w' = record_all (table w) rows) ∧
  (∀ e, o = inl e → e = check_violation ∧ forallb row_check rows = false ∨ scripted e (faults w)).

Lemma next_fault_spec w o w' :
  next_fault w = (o, w') →
  frame w w' ∧ table w' = table w ∧
  ∃ f, o = inr f ∧ (∀ e, f = Failed e ∨ f = Lost e → scripted e (faults w)).
Proof.
  unfold next_fault. destruct (faults w) as [|f l] eqn:E; intros [= <- <-].
  - split; [done|]. split; [done|]. exists Run. split; [done|]. intros e [? | ?]; done.
  - split.
    { repeat split; try done. simpl. rewrite E. by exists [f]. }
    split; [done|]. exists f. split; [done|]. unfold scripted.
    intros e [-> | ->]; [left | right]; left.
Qed.

Lemma execute_spec r : body_spec [r] (execute r).
Proof.
  intros w o w' E. unfold execute, mbind, D_bind in E.
  destruct (next_fault w) as [fo w1] eqn:E1.
  apply next_fault_spec in E1 as (Hf & Ht & f & -> & Hs).
  destruct f as [|e|e].
  - unfold d_modify, d_raise in E. simpl. unfold record_row. destruct (row_check r) eqn:Hc; injection E as <- <-.
    + split; [|split; [by rewrite Ht | done]]. etrans; [done|]. by repeat split.
    + split; [done|]. split; [done|]. intros e [= <-]. by left.
  - injection E as <- <-. split; [done|]. split; [done|].
    intros e' [= <-]. right. apply Hs. by left.
  - injection E as <- <-. split; [done|]. split; [done|].
    intros e' [= <-]. right. apply Hs. by right.
Qed.

Lemma each_execute_spec rows : body_spec rows (each execute rows).
Proof.
  induction rows as [|r rows IH]; intros w o w' E; simpl in E.
  { unfold mret, D_ret in E. injection E as <- <-. by split_and!. }
  unfold mbind, D_bind in E. destruct (execute r w) as [o1 w1] eqn:E1.
  apply execute_spec in E1 as (Hf & Hok & Herr). destruct o1 as [e | []].
  - injection E as <- <-. split; [done|]. split; [done|]. intros e' [= <-].
    destruct (Herr e eq_refl) as [[-> Hc] | Hs]; [left | by right].
    split; [done|]. simpl in *. rewrite andb_true_r in Hc. by rewrite Hc.
  - destruct (Hok eq_refl) as [Hc Ht]. simpl in Hc, Ht. rewrite andb_true_r in Hc.
    apply IH in E as (Hf' & Hok' & Herr'). split; [by etrans|]. simpl. rewrite Hc. simpl. split.
    + intros Ho. destruct (Hok' Ho) as [-> ->]. split; [done|]. by rewrite Ht.
    + intros e He. destruct (Herr' e He) as [? | Hs]; [by left | right].
      eapply scripted_suffix; [by apply frame_faults | done].
Qed.

(** A transaction commits all of its rows or none; when it reports success
    it committed, and when it reports a failure of its own it did not. *)
Lemma transaction_spec rows body : body_spec rows body → ∀ w o w',
  transaction body w = (o, w') →
  frame w w' ∧
  (o = inr tt → forallb row_check rows = true ∧ table w' = record_all (table w) rows) ∧
  (∀ e, o = inl e →
     e = check_violation ∧ forallb row_check rows = false ∧ table w' = table w ∨
     scripted e (faults w) ∧ (table w' = table w ∨ table w' = record_all (table w) rows)).
Proof.
  intros Hb w o w' E. unfold transaction, mbind, D_bind in E.
  destruct (next_fault w) as [fo w1] eqn:E1.
  apply next_fault_spec in E1 as (Hf & Ht & f & -> & Hs). destruct f as [|e|e].
  2-3: injection E as <- <-; split; [done|]; split; [done|];
    intros e' [= <-]; right; split; [apply Hs; tauto | by left].
  unfold committing in E. destruct (body w1) as [o2 w2] eqn:E2.
  apply Hb in E2 as (Hf2 & Hok & Herr). rewrite Ht in Hok.
  assert (scripted_up : ∀ e, scripted e (faults w1) → scripted e (faults w))
    by (intros e; apply scripted_suffix; by apply frame_faults).
  destruct o2 as [e | []].
  - injection E as <- <-. split; [etrans; [done|]; etrans; [done|]; by repeat split|].
    split; [done|]. intros e' [= <-]. simpl.
    destruct (Herr e eq_refl) as [[-> Hc] | H]; [by left | right]. split; [auto | by left].
  - destruct (Hok eq_refl) as [Hc Ht2]. destruct (next_fault w2) as [fo3 w3] eqn:E3.
    apply next_fault_spec in E3 as (Hf3 & Ht3 & f & -> & Hs3).
    assert (frame w w3) as Hw3 by (etrans; [done|]; by etrans).
    destruct f as [|e|e]; injection E as <- <-.
    + split; [done|]. split; [by rewrite Ht3, Ht2|]. done.
    + split; [etrans; [exact Hw3|]; by repeat split|]. split; [done|]. intros e' [= <-]. right.
      split; [|by left]. apply scripted_up. eapply scripted_suffix; [by apply frame_faults | auto].
    + split; [done|]. split; [done|]. intros e' [= <-]. right.
      split; [|right; by rewrite Ht3, Ht2].
      apply scripted_up. eapply scripted_suffix; [by apply frame_faults | auto].
Qed.

(** ** The batch *)

(** What a write of [rows] does to the table: some of the rows in order, all
    of them when it returns, and it returns when no call fails. *)
Definition run_spec (rows : list row) (m : D unit) : Prop := ∀ w o w',
  no_row_faults (faults w) → m w = (o, w') →
  frame w w' ∧
  (∃ k, table w' = record_all (table w) (take k rows)) ∧
  (o = inr tt → table w' = record_all (table w) rows) ∧
  (faults w = [] → o = inr tt).

Lemma check_violation_fault : is_dbapi check_violation && _row_fault check_violation = true.
Proof. done. Qed.

Lemma scripted_nil e : ¬ scripted e [].
Proof. intros [H | H]; by apply elem_of_nil in H. Qed.

Lemma record_refused t r : forallb row_check [r] = false → record_row t r = t.
Proof. simpl. rewrite andb_true_r. unfold record_row. by intros ->. Qed.

Lemma execute_one r : body_spec [r] (execute r).
Proof. exact (execute_spec r). Qed.

Lemma write_alone_spec r : run_spec [r] (write_alone r).
Proof.
  intros w o w' Hn E. unfold write_alone in E.
  destruct (transaction (execute r) w) as [[e | []] w1] eqn:E1;
    apply (transaction_spec _ _ (execute_one r)) in E1 as (Hf & Hok & Herr).
  - destruct (Herr e eq_refl) as [(-> & Hc & Ht) | (Hs & Ht)].
    + rewrite check_violation_fault in E. injection E as <- <-. simpl.
      rewrite Ht, (record_refused _ _ Hc). split; [by etrans|].
      split; [by exists 0%nat|]. done.
    + rewrite (Hn e Hs), andb_false_r in E. injection E as <- <-. split; [done|]. split.
      { destruct Ht as [-> | ->]; [by exists 0%nat | by exists 1%nat]. }
      split; [done|]. intros Hnil. rewrite Hnil in Hs. by apply scripted_nil in Hs.
  - injection E as <- <-. destruct (Hok eq_refl) as [_ Ht]. simpl. rewrite Ht.
    split; [by etrans|]. split; [by exists 1%nat|]. done.
Qed.

Lemma each_alone_spec rows : run_spec rows (each write_alone rows).
Proof.
  induction rows as [|r rows IH]; intros w o w' Hn E; simpl in E.
  { unfold mret, D_ret in E. injection E as <- <-. split; [done|]. split; [by exists 0%nat|done]. }
  unfold mbind, D_bind in E. destruct (write_alone r w) as [o1 w1] eqn:E1.
  apply write_alone_spec in E1 as (Hf & (k & Hk) & Hok & Hnil); [|done]. destruct o1 as [e | []].
  - injection E as <- <-. split; [done|]. split; [|split; [done|]].
    + exists (k `min` 1)%nat. rewrite Hk. by destruct k as [|[|k]].
    + intros Hw. by apply Hnil in Hw.
  - specialize (Hok eq_refl). simpl in Hok.
    assert (Hn1 : no_row_faults (faults w1))
      by (eapply no_row_faults_suffix; [by apply frame_faults | done]).
    apply IH in E as (Hf' & (k' & Hk') & Hok' & Hnil'); [|done].
    split; [by etrans|]. split; [|split].
    + exists (S k'). simpl. by rewrite Hk', Hok.
    + intros Ho. simpl. by rewrite (Hok' Ho), Hok.
    + intros Hw. apply Hnil'. pose proof (frame_faults _ _ Hf) as Hs. rewrite Hw in Hs.
      by apply suffix_nil_inv in Hs.
Qed.

Lemma write_rows_spec rows : run_spec rows (write_rows rows).
Proof.
  intros w o w' Hn E. unfold write_rows in E.
  destruct (transaction (each execute rows) w) as [[e | []] w1] eqn:E1;
    apply (transaction_spec _ _ (each_execute_spec rows)) in E1 as (Hf & Hok & Herr).
  - destruct (Herr e eq_refl) as [(-> & Hc & Ht) | (Hs & Ht)].
    + rewrite check_violation_fault in E. rewrite <- Ht.
      assert (Hn1 : no_row_faults (faults w1))
        by (eapply no_row_faults_suffix; [by apply frame_faults | done]).
      apply each_alone_spec in E as (Hf' & Hk & Hok' & Hnil); [|done].
      split; [by etrans|]. split; [done|]. split; [done|]. intros Hw. apply Hnil.
      pose proof (frame_faults _ _ Hf) as Hsf. rewrite Hw in Hsf. by apply suffix_nil_inv in Hsf.
    + rewrite (Hn e Hs), andb_false_r in E. injection E as <- <-. split; [done|]. split.
      { destruct Ht as [-> | ->]; [by exists 0%nat|].
        exists (length rows). by rewrite take_ge. }
      split; [done|]. intros Hnil. rewrite Hnil in Hs. by apply scripted_nil in Hs.
  - injection E as <- <-. destruct (Hok eq_refl) as [_ Ht]. simpl. rewrite Ht.
    split; [by etrans|]. split; [exists (length rows); by rewrite take_ge | done].
Qed.

Section batch.
Context `{I : IsoCodec}.

Definition readable (es : list (nat * fields)) : list row := omap (λ e, res_opt (_params e)) es.

(** Every entry reads, or fails to in a way the writer skips. *)
Definition decodable (e : nat * fields) : bool :=
  match _params e with Ok _ => true | Err x => reads_as_unreadable x end.

Lemma read_rows_spec es w o w' :
  read_rows es w = (o, w') →
  frame w w' ∧ faults w' = faults w ∧ table w' = table w ∧
  if forallb decodable es then o = inr (readable es) else ∃ e, o = inl e.
Proof.
  revert w o w'. induction es as [|e es IH]; intros w o w' E; simpl in E.
  { unfold mret, D_ret in E. by injection E as <- <-. }
  unfold mbind, D_bind in E. simpl. unfold decodable at 1.
  destruct (_params e) as [p | x] eqn:Hp; simpl.
  - destruct (read_rows es w) as [o1 w1] eqn:E1.
    apply IH in E1 as (Hf & Hfl & Ht & Ho).
    destruct (forallb decodable es).
    + subst o1. injection E as <- <-. by split_and!.
    + destruct Ho as [e' ->]. injection E as <- <-. repeat (split; [done|]). by exists e'.
  - destruct (reads_as_unreadable x); simpl.
    + unfold d_modify in E. apply IH in E as (Hf & Hfl & Ht & Ho).
      split; [etrans; [|exact Hf]; by repeat split | done].
    + injection E as <- <-. repeat (split; [done|]). eauto.
Qed.

(** The batch: a function of the entries, the table and the faults. *)
Lemma write_batch_spec es w o w' :
  no_row_faults (faults w) → write_batch es w = (o, w') →
  frame w w' ∧
  (∃ k, table w' = record_all (table w) (take k (readable es))) ∧
  (∀ ids, o = inr ids → ids = es.*1 ∧ table w' = record_all (table w) (readable es)) ∧
  (faults w = [] → forallb decodable es = true → o = inr es.*1) ∧
  (forallb decodable es = false → table w' = table w).
Proof.
  intros Hn E. unfold write_batch, mbind, D_bind in E.
  destruct (read_rows es w) as [o1 w1] eqn:E1.
  apply read_rows_spec in E1 as (Hf & Hfl & Ht & Ho).
  destruct (forallb decodable es); [subst o1|].
  2:{ destruct Ho as [e ->]. injection E as <- <-. split; [done|].
      split; [by exists 0%nat|]. done. }
  destruct (readable es) as [|r rows] eqn:Hr.
  { injection E as <- <-. split; [done|]. split; [by exists 0%nat|].
    split; [by intros ids [= <-] | done]. }
  rewrite <- Hfl in Hn. destruct (write_rows (r :: rows) w1) as [o2 w2] eqn:E2.
  apply write_rows_spec in E2 as (Hf2 & Hk & Hok & Hnil); [|done].
  rewrite Ht in Hk, Hok. rewrite Hfl in Hnil.
  destruct o2 as [e | []]; injection E as <- <-.
  - split; [by etrans|]. split; [done|]. split; [done|]. split; [|done].
    intros Hw. by apply Hnil in Hw.
  - split; [by etrans|]. split; [done|]. split; [|done]. intros ids [= <-]. auto.
Qed.

Lemma write_batch_clean es w :
  faults w = [] → table (snd (write_batch es w)) =
    if forallb decodable es then record_all (table w) (readable es) else table w.
Proof.
  intros Hw. destruct (write_batch es w) as [o w'] eqn:E.
  apply write_batch_spec in E as (_ & _ & Hok & Hnil & Hbad).
  2:{ intros e He. rewrite Hw in He. by apply scripted_nil in He. }
  simpl. destruct (forallb decodable es); [|auto].
  destruct (Hok _ (Hnil Hw eq_refl)) as [_ ->]. done.
Qed.
End batch.

(** ** Delivery *)

Section drain.
Context `{I : IsoCodec}.

(** What becomes of a delivered entry: it is not an event the contract
    reads, or it is in the record, or the record refuses what it holds. *)
Definition accounted_for (t : list row) (e : nat * fields) : Prop :=
  (∃ x, _params e = Err x) ∨ (∃ r, _params e = Ok r ∧ settled t r).

Lemma readable_settled es t e : e ∈ es → accounted_for (record_all t (readable es)) e.
Proof.
  intros He. destruct (_params e) as [r | x] eqn:Hp; [right | by left; exists x].
  exists r. split; [done|]. apply record_all_settled.
  apply list_elem_of_omap. exists e. split; [done|]. by rewrite Hp.
Qed.

Lemma with_fields_elem items e :
  e ∈ with_fields items → (e.1, Some e.2) ∈ items.
Proof.
  unfold with_fields. rewrite list_elem_of_omap. intros ([i [[|x f]|]] & Hi & [= <-]); done.
Qed.

Lemma fields_of_elem i es f : fields_of i es = Some f → (i, f) ∈ es.
Proof.
  unfold fields_of. destruct (List.find _ es) as [[j g]|] eqn:E; [|done]. intros [= <-].
  apply list_find_true in E as [? ?]. simpl in *. bool_hyps. by subst.
Qed.

Lemma autoclaim_elem es c now a n p got p' :
  autoclaim es c now a n p = (got, p') → ∀ i f, (i, Some f) ∈ got → (i, f) ∈ es.
Proof.
  revert n p got p'. induction a as [|a IH]; intros n p got p' E i f Hi; simpl in E.
  { injection E as <- <-. by apply elem_of_nil in Hi. }
  destruct n as [|n]; [injection E as <- <-; by apply elem_of_nil in Hi|].
  destruct p as [|[j [who at_]] r]; [injection E as <- <-; by apply elem_of_nil in Hi|].
  destruct (fields_of j es) as [g|] eqn:Hg; [|by eapply IH].
  destruct (now - at_ <? CLAIM_IDLE_MS)%Z.
  - destruct (autoclaim es c now a (S n) r) as [got1 r1] eqn:E1. injection E as <- <-. by eapply IH.
  - destruct (autoclaim es c now a n r) as [got1 r1] eqn:E1. injection E as <- <-.
    apply elem_of_cons in Hi as [[= -> ->] | Hi]; [by apply fields_of_elem | by eapply IH].
Qed.

Lemma claimed_elem c now w e : e ∈ _entries (fst (xautoclaim c now w)) → e ∈ entries w.
Proof.
  unfold xautoclaim. destruct (autoclaim _ _ _ _ _ _) as [got p] eqn:E. simpl.
  intros H%with_fields_elem. destruct e as [i f]. by eapply autoclaim_elem.
Qed.

Lemma fresh_elem c now w e :
  e ∈ _entries (fst (xreadgroup c now w)) → e ∈ take BATCH (undelivered w).
Proof.
  unfold xreadgroup. destruct (take BATCH (undelivered w)) as [|e' es] eqn:Heq; [done|].
  intros H. assert (e ∈ with_fields (((λ e, (e.1, Some e.2)) <$> (e' :: es)) ++ [])%list) as H1
    by exact H.
  rewrite app_nil_r in H1.
  apply with_fields_elem, list_elem_of_fmap in H1 as ([j g] & Hjg & H1).
  destruct e as [i f]. simpl in Hjg. injection Hjg as -> ->. exact H1.
Qed.

Lemma undelivered_elem w e : e ∈ undelivered w → e ∈ entries w.
Proof. intros [_ ?]%list_elem_of_filter. done. Qed.

Lemma take_elem {A} n (l : list A) x : x ∈ take n l → x ∈ l.
Proof. intros H. rewrite <- (take_drop n l). apply elem_of_app. by left. Qed.

(** A call that only moves the consumer group leaves the stream, the table
    and the verdicts of later calls alone. *)
Definition group_only (w w' : world) : Prop :=
  entries w' = entries w ∧ table w' = table w ∧ faults w' `suffix_of` faults w.

#[local] Instance group_only_preorder : PreOrder group_only.
Proof.
  split; [by intros w|]. intros w1 w2 w3 (? & ? & ?) (? & ? & ?).
  split_and!; [congruence | congruence | by etrans].
Qed.

Lemma external_group {A} (f : world → A * world) w o w' :
  (∀ w, entries (snd (f w)) = entries w ∧ table (snd (f w)) = table w ∧
        faults (snd (f w)) = faults w) →
  external f w = (o, w') →
  group_only w w' ∧ ∀ a, o = inr a → ∃ w1, group_only w w1 ∧ a = fst (f w1) ∧ w' = snd (f w1).
Proof.
  intros Hf E. unfold external, mbind, D_bind in E.
  destruct (next_fault w) as [fo w1] eqn:E1.
  apply next_fault_spec in E1 as ((He & _ & _ & Hs) & Ht & x & -> & _).
  assert (group_only w w1) as Hg by (by split_and!).
  destruct (Hf w1) as (He1 & Ht1 & Hs1).
  assert (group_only w (snd (f w1))) as Hg1 by (split_and!; congruence).
  destruct x as [|e|e]; unfold d_run, d_modify, d_raise in E.
  - destruct (f w1) as [a w2] eqn:Ef. injection E as <- <-. split; [done|].
    intros a' [= <-]. exists w1. by rewrite Ef.
  - by injection E as <- <-.
  - by injection E as <- <-.
Qed.

Lemma group_faults w w' : group_only w w' → no_row_faults (faults w) → no_row_faults (faults w').
Proof. intros (_ & _ & Hs). by apply no_row_faults_suffix. Qed.

Lemma ack_spec ids w o w' :
  external (ack_and_delete ids) w = (o, w') →
  table w' = table w ∧
  (entries w' = entries w ∨ entries w' = base.filter (λ e, e.1 ∉ ids) (entries w)).
Proof.
  unfold external, mbind, D_bind. destruct (next_fault w) as [fo w1] eqn:E1.
  apply next_fault_spec in E1 as ((He & _) & Ht & x & -> & _).
  destruct x; intros E; injection E as <- <-; simpl; rewrite ?He, ?Ht; auto.
Qed.

(** A pass delivers some entries of the stream; either they are all still
    there, or exactly they left it and every row read from them was put to
    the record. *)
Lemma drain_once_cases c now w o w' :
  no_row_faults (faults w) → drain_once c now w = (o, w') →
  table w `prefix_of` table w' ∧
  (entries w' = entries w ∨
   ∃ es, (∀ e, e ∈ es → e ∈ entries w) ∧
     entries w' = base.filter (λ e, e.1 ∉ es.*1) (entries w) ∧
     table w' = record_all (table w) (readable es)).
Proof.
  intros Hn E. unfold drain_once, mbind, D_bind in E.
  destruct (external (xautoclaim c now) w) as [o1 w1] eqn:E1.
  apply external_group in E1 as (Hg1 & Hc);
    [|intros v; unfold xautoclaim; by destruct (autoclaim _ _ _ _ _ _)].
  destruct o1 as [e|cl]; [injection E as <- <-; destruct Hg1 as (-> & -> & _); auto|].
  destruct (Hc cl eq_refl) as (v1 & (Hv1 & _) & -> & ->). clear Hc.
  set (w1 := snd (xautoclaim c now v1)) in *.
  destruct (external (xreadgroup c now) w1) as [o2 w2] eqn:E2.
  apply external_group in E2 as (Hg2 & Hf); [|intros v; unfold xreadgroup; by destruct (take _ _)].
  assert (Hg : group_only w w2) by (by etrans).
  destruct o2 as [e|fr]; [injection E as <- <-; destruct Hg as (-> & -> & _); auto|].
  destruct (Hf fr eq_refl) as (v2 & (Hv2 & _) & -> & ->). clear Hf.
  assert (Hin : ∀ e, e ∈ (_entries (fst (xautoclaim c now v1)) ++
                          _entries (fst (xreadgroup c now v2)))%list → e ∈ entries w).
  { intros e [He%claimed_elem | He%fresh_elem%take_elem%undelivered_elem]%elem_of_app.
    - by rewrite <- Hv1.
    - rewrite Hv2 in He. destruct Hg1 as (He1 & _). by rewrite <- He1. }
  set (w2 := snd (xreadgroup c now v2)) in *.
  destruct (_ ++ _)%list as [|e0 es0] eqn:Hes.
  { injection E as <- <-. destruct Hg as (-> & -> & _). auto. }
  destruct (write_batch (e0 :: es0) w2) as [o3 w3] eqn:E3.
  apply write_batch_spec in E3 as (Hfr & (k & Hk) & Hok & _); [|exact (group_faults _ _ Hg Hn)].
  destruct Hfr as (He3 & _). destruct Hg as (Hge & Hgt & _).
  rewrite Hge in He3. rewrite Hgt in Hk, Hok. destruct o3 as [e|ids].
  { injection E as <- <-. rewrite Hk. split; [apply record_all_prefix | auto]. }
  destruct (Hok ids eq_refl) as [-> Ht3]. simpl in E.
  destruct (external (ack_and_delete _) w3) as [o4 w4] eqn:E4. apply ack_spec in E4 as (Ht4 & Hd).
  rewrite He3 in Hd. assert (w' = w4) as -> by (by destruct o4; injection E as <- <-).
  rewrite Ht4, Ht3. split; [apply record_all_prefix|].
  destruct Hd as [-> | ->]; [auto|]. right. by exists (e0 :: es0).
Qed.

Lemma settled_prefix t t' r : t `prefix_of` t' → settled t r → settled t' r.
Proof. intros Hp [H | H]; [by left | right]. by eapply recorded_prefix. Qed.

Lemma accounted_prefix t t' e : t `prefix_of` t' → accounted_for t e → accounted_for t' e.
Proof.
  intros Hp [H | (r & Hr & H)]; [by left | right]. exists r. eauto using settled_prefix.
Qed.

Lemma NoDup_fst_inj {B} (l : list (nat * B)) i x y :
  NoDup l.*1 → (i, x) ∈ l → (i, y) ∈ l → x = y.
Proof.
  induction l as [|[j z] l IH]; intros Hn Hx Hy; [by apply elem_of_nil in Hx|].
  simpl in Hn. apply NoDup_cons in Hn as [Hj Hn].
  apply elem_of_cons in Hx as [Ex | Hx]; apply elem_of_cons in Hy as [Ey | Hy];
    simplify_eq/=;
    [done | | | by apply IH].
  - destruct Hj. apply list_elem_of_fmap. by exists (j, y).
  - destruct Hj. apply list_elem_of_fmap. by exists (j, x).
Qed.

(** One pass loses nothing. *)
Lemma drain_once_keeps c now w o w' e :
  no_row_faults (faults w) → NoDup (entries w).*1 → drain_once c now w = (o, w') →
  e ∈ entries w → e ∈ entries w' ∨ accounted_for (table w') e.
Proof.
  intros Hn Hd E He.
  destruct (drain_once_cases _ _ _ _ _ Hn E) as (_ & [-> | (es & Hes & -> & ->)]); [by left|].
  destruct (decide (e.1 ∈ es.*1)) as [Hin | Hout].
  - right. apply list_elem_of_fmap in Hin as ([i f] & Hi & Hf). destruct e as [j g]. simpl in Hi. subst j.
    rewrite (NoDup_fst_inj _ _ _ _ Hd He (Hes _ Hf)). by apply readable_settled.
  - left. by apply list_elem_of_filter.
Qed.
End drain.

(** ** Runs: the planes append, any number of writers pass *)

Definition empty_world : world :=
  {| entries := []; last_delivered := 0; pending := []; table := [];
     written := 0; unreadable := 0; refused := 0; faults := [] |}.

(** [reach hist dropped w]: [w] is reached from the empty world by appends,
    [hist] in all, and by passes of any consumer at any time, whose calls fail
    in any way but as the refusal of a row.  Every append is an XADD with
    [MAXLEN ~]: of the stream it leaves it may drop the oldest entries, as long
    as the bound's number stay; [dropped] is what was dropped so. *)
Inductive reach `{IsoCodec} : list (nat * fields) → list (nat * fields) → world → Prop :=
  | reach_empty : reach [] [] empty_world
  | reach_append hist dropped w i f k :
      reach hist dropped w → Forall (λ e, e.1 < i)%nat hist →
      let grown := (entries w ++ [(i, f)])%list in
      (k ≤ length grown - STREAM_MAXLEN)%nat →
      reach (hist ++ [(i, f)]) (dropped ++ take k grown) (set_entries (drop k grown) w)
  | reach_pass hist dropped w consumer now l :
      reach hist dropped w → no_row_faults l →
      reach hist dropped (snd (drain_once consumer now (set_faults l w))).

Section runs.
Context `{I : IsoCodec}.

Lemma NoDup_filter_fst {B} (P : nat * B → Prop) `{∀ x, Decision (P x)} (l : list (nat * B)) :
  NoDup l.*1 → NoDup (base.filter P l).*1.
Proof.
  induction l as [|x l IH]; [done|]. simpl. rewrite NoDup_cons. intros [Hx Hn].
  rewrite filter_cons. destruct (decide (P x)); [|auto].
  simpl. apply NoDup_cons. split; [|auto]. intros Hin. apply Hx.
  apply list_elem_of_fmap in Hin as (y & -> & Hy). apply list_elem_of_filter in Hy as [_ Hy].
  apply list_elem_of_fmap. by exists y.
Qed.

Lemma sorted_filter_fst {B} (P : nat * B → Prop) `{∀ x, Decision (P x)} (l : list (nat * B)) :
  StronglySorted lt l.*1 → StronglySorted lt (base.filter P l).*1.
Proof.
  induction l as [|x l IH]; [done|]. simpl. intros [Hs Hx]%StronglySorted_inv. rewrite filter_cons.
  destruct (decide (P x)); [|auto]. simpl. constructor; [auto|].
  apply Forall_forall. intros i (y & -> & [_ Hy]%list_elem_of_filter)%list_elem_of_fmap.
  rewrite Forall_forall in Hx. apply Hx, list_elem_of_fmap. by exists y.
Qed.

Lemma sorted_NoDup (l : list nat) : StronglySorted lt l → NoDup l.
Proof.
  induction 1 as [|i l _ IH Hi]; constructor; [|done]. intros Hin. rewrite Forall_forall in Hi. specialize (Hi i Hin). lia.
Qed.

Lemma sorted_snoc (l : list nat) i : StronglySorted lt l → Forall (λ j, j < i)%nat l → StronglySorted lt (l ++ [i]).
Proof.
  induction 1 as [|j l _ IH Hj]; simpl; [by repeat constructor|]. intros [Hi Hl]%Forall_cons.
  constructor; [by apply IH|]. apply Forall_app. split; [done|]. by constructor.
Qed.

Lemma sorted_drop {B} (l : list (nat * B)) k : StronglySorted lt l.*1 → StronglySorted lt (drop k l).*1.
Proof. intros H. rewrite fmap_drop. rewrite <- (take_drop k l.*1) in H. by apply StronglySorted_app_1_r in H. Qed.

(** The stream is in order, and what it holds was appended. *)
Lemma reach_wf hist dropped w :
  reach hist dropped w → StronglySorted lt (entries w).*1 ∧ ∀ e, e ∈ entries w → e ∈ hist.
Proof.
  induction 1 as [|hist dropped w i f k _ [Hs Hin] Hlt grown Hk|hist dropped w c now l _ [Hs Hin] Hl].
  - split; [constructor | done].
  - cbn [set_entries entries]. split.
    + apply sorted_drop. subst grown. rewrite fmap_app. apply sorted_snoc; [done|].
      apply Forall_forall. intros j (e & -> & He%Hin)%list_elem_of_fmap. rewrite Forall_forall in Hlt. by apply Hlt.
    + intros e He. apply elem_of_app. assert (e ∈ grown) as [?|?]%elem_of_app by (rewrite <- (take_drop k grown); set_solver); auto.
  - destruct (drain_once c now (set_faults l w)) as [o w'] eqn:E. simpl.
    apply drain_once_cases in E as (_ & [-> | (es & _ & -> & _)]); [done| |done].
    split; [by apply sorted_filter_fst|]. intros e [_ He]%list_elem_of_filter. by apply Hin.
Qed.

(** Trimming drops an entry only from before a full stream of newer ones. *)
Definition overrun (hist : list (nat * fields)) (e : nat * fields) : Prop :=
  ∃ backlog, (STREAM_MAXLEN ≤ length backlog)%nat ∧ NoDup backlog ∧
    ∀ b, b ∈ backlog → b ∈ hist ∧ (e.1 < b.1)%nat.

Lemma trimmed_overrun (grown hist : list (nat * fields)) k e : StronglySorted lt grown.*1 → (∀ b, b ∈ grown → b ∈ hist) →
  (k ≤ length grown - STREAM_MAXLEN)%nat → e ∈ take k grown → overrun hist e.
Proof.
  intros Hs Hin Hk He. exists (drop k grown). split; [|split].
  - assert (take k grown ≠ []) as Hne by (by intros E; rewrite E in He; apply elem_of_nil in He).
    rewrite length_drop. destruct (decide (STREAM_MAXLEN ≤ length grown)%nat); [lia|].
    exfalso. apply Hne. by replace k with 0%nat by lia.
  - apply (NoDup_fmap_1 fst). by apply sorted_NoDup, sorted_drop.
  - intros b Hb. split; [apply Hin; rewrite <- (take_drop k grown); set_solver|].
    rewrite <- (take_drop k grown), fmap_app in Hs.
    apply (StronglySorted_app_1_elem_of _ _ _ e.1 b.1) in Hs; [done| |]; apply list_elem_of_fmap; eauto.
Qed.

Lemma overrun_later hist hist' e : overrun hist e → overrun (hist ++ hist') e.
Proof.
  intros (b & ? & ? & Hb). exists b. split_and!; [done..|]. intros x [? ?]%Hb. split; [|done]. apply elem_of_app. by left.
Qed.

(** C14: Nothing a plane appended is lost on the way to the record but by the
    stream's own bound: in every run, whatever calls to Redis or the database
    fail, before or after they took effect, every appended entry is still in
    the stream, or is accounted for (the contract does not read it, it is in the
    record, or the record refuses what it holds), or is one an append dropped,
    and that only while the stream held a full bound of newer ones. *)
Theorem record_loses_nothing hist dropped w (Hr : reach hist dropped w) :
  (∀ e, e ∈ hist → e ∈ entries w ∨ accounted_for (table w) e ∨ e ∈ dropped) ∧
  (∀ e, e ∈ dropped → overrun hist e).
Proof.
  induction Hr as [|hist dropped w i f k Hr [IH IHd] Hlt grown Hk|hist dropped w c now l Hr [IH IHd] Hl].
  - split; intros e He; by apply elem_of_nil in He.
  - destruct (reach_wf _ _ _ Hr) as [Hs Hin]. cbn [set_entries entries table]. split.
    + intros e He. assert (e ∈ grown ∨ accounted_for (table w) e ∨ e ∈ dropped) as [Hg|[?|?]].
      { subst grown. rewrite elem_of_app. apply elem_of_app in He as [He|He]; [destruct (IH e He); auto | auto]. }
      * rewrite <- (take_drop k grown) in Hg. apply elem_of_app in Hg as [?|?]; [right; right; set_solver | by left].
      * auto.
      * right; right. set_solver.
    + intros e [He|He]%elem_of_app; [by apply overrun_later, IHd|].
      apply (trimmed_overrun grown _ k); [| |done|done].
      * subst grown. rewrite fmap_app. apply sorted_snoc; [done|].
        apply Forall_forall. intros j (b & -> & Hb%Hin)%list_elem_of_fmap. rewrite Forall_forall in Hlt. by apply Hlt.
      * subst grown. intros b [?|?]%elem_of_app; apply elem_of_app; auto.
  - split; [|done]. intros e He. destruct (drain_once c now (set_faults l w)) as [o w'] eqn:E. simpl.
    destruct (IH e He) as [Hin | [Hacc|?]]; [| |auto].
    + destruct (drain_once_keeps _ _ (set_faults l w) _ _ e Hl
                  (sorted_NoDup _ (proj1 (reach_wf _ _ _ Hr))) E Hin); auto.
    + right. left. eapply accounted_prefix; [|exact Hacc]. by apply drain_once_cases in E as [Hp _].
Qed.

(** Delivering a batch again adds nothing: whatever failed in the first
    write of a batch, in one transaction or row by row, a later write of the
    same batch in which nothing fails leaves the table as one undisturbed
    write would have. *)
Theorem redelivery_exact es w (Hn : no_row_faults (faults w)) :
  table (snd (write_batch es (set_faults [] (snd (write_batch es w))))) =
  table (snd (write_batch es (set_faults [] w))).
Proof.
  destruct (write_batch es w) as [o w'] eqn:E.
  apply write_batch_spec in E as (_ & (k & Hk) & _ & _ & Hbad); [|done].
  rewrite !write_batch_clean by done. simpl. destruct (forallb decodable es); [|auto].
  rewrite Hk. apply record_again.
Qed.
End runs.

(** ** A writer nothing disturbs empties the stream *)

Section drains.
Context `{I : IsoCodec}.

(** A stream whose entries are in order and none of them delivered. *)
Definition backlog (w : world) : Prop :=
  StronglySorted lt (entries w).*1 ∧ Forall (λ e, last_delivered w < e.1)%nat (entries w) ∧
  Forall (λ e, e.2 ≠ []) (entries w) ∧ pending w = [] ∧ faults w = [].

Lemma external_clean {A} (f : world → A * world) w :
  faults w = [] → external f w = (inr (fst (f w)), snd (f w)).
Proof.
  intros Hw. unfold external, mbind, D_bind, next_fault. rewrite Hw. unfold d_run.
  by destruct (f w).
Qed.

Lemma undelivered_backlog w : backlog w → undelivered w = entries w.
Proof.
  intros (_ & Hall & _). unfold undelivered. induction Hall as [|e l He _ IH]; [done|].
  rewrite filter_cons_True by done. by f_equal.
Qed.

Lemma with_fields_some es :
  Forall (λ e : nat * fields, e.2 ≠ []) es → with_fields ((λ e, (e.1, Some e.2)) <$> es) = es.
Proof.
  induction 1 as [|[i f] l He _ IH]; [done|]. simpl in *. destruct f as [|x f]; [done|].
  change ((i, x :: f) :: with_fields ((λ e, (e.1, Some e.2)) <$> l) = (i, x :: f) :: l).
  by rewrite IH.
Qed.

Lemma filter_suffix {B} (l1 l2 : list (nat * B)) :
  StronglySorted lt (l1 ++ l2)%list.*1 → base.filter (λ e, e.1 ∉ l1.*1) (l1 ++ l2)%list = l2.
Proof.
  intros Hs. rewrite filter_app. rewrite fmap_app in Hs.
  rewrite filter_false, filter_true; [done| |].
  - intros e He Hin. apply (StronglySorted_app_1_elem_of _ _ _ e.1 e.1) in Hs; [lia | done |].
    apply list_elem_of_fmap. by exists e.
  - intros e He Hn. apply Hn. apply list_elem_of_fmap. by exists e.
Qed.

(** An undisturbed pass takes the first [BATCH] entries off the backlog,
    every readable one of them put to the record. *)
Lemma drain_once_backlog c now w :
  backlog w → Forall (λ e, decodable e = true) (entries w) →
  let '(o, w') := drain_once c now w in
  o = inr (length (take BATCH (entries w))) ∧ backlog w' ∧
  entries w' = drop BATCH (entries w) ∧
  table w' = record_all (table w) (readable (take BATCH (entries w))).
Proof.
  intros Hb Hdec. pose proof Hb as (Hs & Hld & Hne & Hp & Hf).
  unfold drain_once, mbind, D_bind. rewrite external_clean by done.
  assert (xautoclaim c now w = (Claimed 0 [] [], w)) as ->.
  { unfold xautoclaim. rewrite Hp. destruct w; simpl in *. by subst. }
  cbn [fst snd]. rewrite external_clean by done.
  unfold xreadgroup. rewrite undelivered_backlog by done.
  pose proof (take_drop BATCH (entries w)) as Htd.
  set (es := take BATCH (entries w)) in *. set (rest := drop BATCH (entries w)) in *.
  destruct es as [|e0 es0] eqn:Hes.
  { split_and!; [done | done | exact (eq_sym Htd) | done]. }
  rewrite <- Hes in *. assert (Hne' : es ≠ []) by (by rewrite Hes). cbn [fst snd].
  rewrite <- Htd in Hs, Hld, Hne, Hdec.
  apply Forall_app in Hne as [Hnes Hner]. apply Forall_app in Hdec as [Hdes _].
  apply Forall_app in Hld as [_ Hldr].
  assert (_entries (Claimed 0 [] []) ++
          _entries (Read2 [(STREAM_KEY, (λ e, (e.1, Some e.2)) <$> es)]) = es)%list as ->.
  { unfold _entries at 1. simpl. rewrite app_nil_r. by apply with_fields_some. }
  clearbody es rest. clear Hes. destruct es as [|e1 es1]; [done|].
  match goal with |- context [write_batch (e1 :: es1) ?v] => set (w2 := v) end.
  destruct (write_batch (e1 :: es1) w2) as [o3 w3] eqn:E3.
  apply write_batch_spec in E3 as ((He3 & Hp3 & Hl3 & Hf3) & _ & Hok & Hcl & _);
    [|intros e He; simpl in He; rewrite Hf in He; by apply scripted_nil in He].
  assert (forallb decodable (e1 :: es1) = true) as Hall
    by (apply forallb_elem; by apply Forall_forall).
  specialize (Hcl Hf Hall). subst o3. destruct (Hok _ eq_refl) as [_ Ht3].
  assert (faults w3 = []) as Hw3 by (change (faults w2) with (faults w) in Hf3; rewrite Hf in Hf3;
        by apply suffix_nil_inv in Hf3).
  simpl. rewrite external_clean by done.
  change (e1.1 :: list_fmap _ _ fst es1) with (e1 :: es1).*1.
  unfold ack_and_delete, mret, D_ret. cbn [fst snd].
  assert (He' : base.filter (λ e, e.1 ∉ (e1 :: es1).*1) (entries w3) = rest)
    by (rewrite He3; cbn [w2 set_group entries]; rewrite <- Htd; by apply filter_suffix).
  split; [do 2 f_equal; exact (length_fmap fst es1)|]. split; [|split; [exact He' | exact Ht3]].
  unfold backlog. cbn [set_entries set_group entries last_delivered pending faults].
  rewrite He', Hl3, Hp3. rewrite fmap_app in Hs.
  split; [by eapply StronglySorted_app_1_r|].
  split; [|split; [done|split; [|done]]].
  - apply Forall_forall. intros e He. cbn [w2 set_group last_delivered].
    destruct (last (e1 :: es1).*1) as [i|] eqn:Hlast;
      [|by apply last_None in Hlast].
    simpl. apply (StronglySorted_app_1_elem_of _ _ _ i e.1) in Hs; [done| |].
    + by apply last_Some_elem_of.
    + apply list_elem_of_fmap. by exists e.
  - cbn [w2 set_group pending]. rewrite Hp, app_nil_l. apply filter_false.
    intros x Hx Hn. apply Hn. apply list_elem_of_fmap in Hx as (y & -> & Hy).
    apply list_elem_of_fmap. by exists y.
Qed.

Lemma readable_app es es' : readable (es ++ es')%list = (readable es ++ readable es')%list.
Proof. apply omap_app. Qed.

(** C38: A writer nothing disturbs empties the stream: from a backlog of [n]
    entries, all readable or skippable, any number of passes that covers
    them ([BATCH] a pass) leaves the stream empty and the record as putting the
    row of every readable entry to it does, in the stream's order: each is in
    it, unless the table's constraints refuse what it holds. *)
Theorem passes_empty_backlog c times w (Hb : backlog w)
    (Hdec : Forall (λ e, decodable e = true) (entries w))
    (Hn : (length (entries w) ≤ BATCH * length times)%nat) :
  entries (passes c times w) = [] ∧
  table (passes c times w) = record_all (table w) (readable (entries w)) ∧
  ∀ e, e ∈ entries w → accounted_for (table (passes c times w)) e.
Proof.
  assert (entries (passes c times w) = [] ∧ table (passes c times w) = record_all (table w) (readable (entries w))) as [He Ht];
    [|split_and!; [done..|]; rewrite Ht; intros e Hin; by apply readable_settled].
  revert w Hb Hdec Hn. induction times as [|t ts IH]; intros w Hb Hdec Hn.
  { simpl length in Hn. rewrite Nat.mul_0_r in Hn.
    destruct (entries w) eqn:E; simpl in *; [|lia]. by rewrite E. }
  pose proof (drain_once_backlog c t w Hb Hdec) as H. cbn [passes].
  destruct (drain_once c t w) as [o w']. destruct H as (_ & Hb' & He & Ht). cbn [snd].
  destruct (IH w' Hb') as [IH1 IH2].
  - rewrite He. by apply Forall_drop.
  - rewrite He, length_drop. simpl length in Hn. lia.
  - split; [done|]. rewrite IH2, He, Ht, <- foldl_app, <- readable_app, take_drop. done.
Qed.
End drains.

(** ** Concrete runs *)

#[local] Existing Instance hex_iso.

Definition sample_event : fields :=
  [("kind", t_of "minted"); ("plane", t_of "hub"); ("at", t_of (isoformat 0))].
(** A digest with a final newline: the contract reads it, the table refuses it. *)
Definition sample_refused : fields :=
  (sample_event ++ [("digest", t_of "0123456789abcdef" ++ [newline])])%list.
Definition sample_unreadable : fields := [("kind", t_of "minted")].
Definition sample_entries : list (nat * fields) :=
  [(1, sample_event); (2, sample_refused); (3, sample_unreadable)]%nat.
Definition sample_world : world := set_entries sample_entries empty_world.
Definition db_down : pyexc := PyExc true None None None.

Example sample_pass :
  let '(o, w) := drain_once "w1" 0 sample_world in
  (o, entries w, p_stream_id <$> table w, written w, refused w, unreadable w) =
  (inr 3%nat, [], [1%nat], 1%nat, 1%nat, 1%nat).
Proof. vm_compute. reflexivity. Qed.

(** The batch's commit is lost after it took effect. *)
Example sample_lost_commit :
  let '(o, w) := drain_once "w1" 0 (set_faults [Run; Run; Run; Run; Lost db_down]
                                      (set_entries [(1%nat, sample_event)] empty_world)) in
  (o, length (entries w), p_stream_id <$> table w) = (inl db_down, 1%nat, [1%nat]).
Proof. vm_compute. reflexivity. Qed.

Definition sample_run : world :=
  snd (drain_once "w1" 0 (set_faults [] (set_entries (drop 0 ([] ++ [(1%nat, sample_event)])%list) empty_world))).

Lemma record_loses_nothing_witness :
  ((1%nat, sample_event) ∈ entries sample_run ∨ accounted_for (table sample_run) (1%nat, sample_event) ∨
   (1%nat, sample_event) ∈ ([] : list (nat * fields))) ∧ p_stream_id <$> table sample_run = [1%nat].
Proof.
  split; [|by vm_compute].
  apply (record_loses_nothing ([] ++ [(1%nat, sample_event)])%list ([] ++ [])%list); [|left]. apply reach_pass.
  - apply (reach_append [] [] empty_world 1 sample_event 0); [apply reach_empty | by apply Forall_nil | lia].
  - intros e [H | H]; by apply elem_of_nil in H.
Defined.

Lemma redelivery_exact_witness :
  no_row_faults [Run; Run; Lost db_down] ∧
  table (snd (write_batch sample_entries (set_faults [] (snd (write_batch sample_entries
    (set_faults [Run; Run; Lost db_down] sample_world)))))) =
  table (snd (write_batch sample_entries (set_faults []
    (set_faults [Run; Run; Lost db_down] sample_world)))).
Proof.
  assert (no_row_faults [Run; Run; Lost db_down]) as H.
  { intros e [He | He]; rewrite !elem_of_cons, elem_of_nil in He;
      destruct He as [He | [He | [He | []]]]; by simplify_eq. }
  split; [exact H|]. apply redelivery_exact. exact H.
Defined.

Lemma passes_empty_backlog_witness :
  backlog sample_world ∧ Forall (λ e, decodable e = true) (entries sample_world) ∧
  entries (passes "w1" [0%Z] sample_world) = [] ∧
  table (passes "w1" [0%Z] sample_world) =
    record_all (table sample_world) (readable (entries sample_world)) ∧
  ∀ e, e ∈ entries sample_world → accounted_for (table (passes "w1" [0%Z] sample_world)) e.
Proof.
  assert (backlog sample_world) as Hb.
  { split; [repeat constructor; simpl; lia|]. split; [repeat constructor; simpl; lia|].
    split; [repeat constructor; discriminate | by split]. }
  assert (Forall (λ e, decodable e = true) (entries sample_world)) as Hd
    by (repeat constructor; vm_compute; reflexivity).
  split; [exact Hb|]. split; [exact Hd|].
  apply passes_empty_backlog; [exact Hb | exact Hd | vm_compute; lia].
Defined.
