(* ===== verification/AlertErrors.v ===== *)
(** * Failure classes: services/alert_service/worker/errors.py

    Which exceptions blame the platform, so a reading that met one is retried
    and never dead-lettered. *)

From stdpp Require Import base strings list.
From S2P Require Import Prelude PyText.

Local Open Scope string_scope.

Definition _TRANSIENT_SQLSTATE_CLASSES : list string := ["08"; "40"; "53"; "57"; "58"].

Definition is_infrastructure_error (e : exn) : bool :=
  match e with
  | MessageValidationError _ => false
  | InterfaceError => true
  | PostgresError sqlstate =>
      bool_decide (str_take 2 (default "" sqlstate) ∈ _TRANSIENT_SQLSTATE_CLASSES)
  | e => is_os_error e
  end.

Example deadlock_is_infrastructure :
  map is_infrastructure_error
    [PostgresError (Some "40P01"); PostgresError (Some "42P01"); PostgresError None;
     TimeoutError; InterfaceError; ValueError; MessageValidationError "no value"] =
  [true; false; false; true; true; false; false].
Proof. reflexivity. Qed.
