(* ===== verification/FeatureStore.v ===== *)
(** * The latest-value snapshot store: services/alert_service/worker/feature_store.py

    Both backends: the dict of the development mode and the Redis keys with
    their expiry.  A stored JSON array is the list of readings it encodes; a
    Redis call may fail.  Times are microseconds, the expiry included. *)

From stdpp Require Import base strings list gmap.
From Corelib Require Import SpecFloat.
From Stdlib Require Import ZArith Lia.
From S2P Require Import Prelude PyText PyNum PyJson Tenancy.

Local Open Scope string_scope.

Record reading := { re_timestamp : string; re_value : float }.

Record feature_store := {
  use_memory : bool; max_window : Z; ttl_us : Z;
  storage : gmap string (list reading);
  redis : gmap string (list reading * Z);
  fs_calls : list call }.

Definition set_storage m s := {| use_memory := use_memory s; max_window := max_window s;
  ttl_us := ttl_us s; storage := m; redis := redis s; fs_calls := fs_calls s |}.
Definition set_redis m s := {| use_memory := use_memory s; max_window := max_window s;
  ttl_us := ttl_us s; storage := storage s; redis := m; fs_calls := fs_calls s |}.
Definition set_fs_calls l s := {| use_memory := use_memory s; max_window := max_window s;
  ttl_us := ttl_us s; storage := storage s; redis := redis s; fs_calls := l |}.

(** [l[-n:]]: for [n = 0] the whole list, for a negative [n] a suffix from
    the front. *)
Definition py_tail {A} (n : Z) (l : list A) : list A :=
  if Z.ltb 0 n then drop (length l - Z.to_nat n) l else drop (Z.to_nat (- n)) l.

(** [_make_key]; the ids are given as text. *)
Definition _make_key (company_id equipment_id sensor_name : string) : res string :=
  tenant ← canonical_company_id company_id;
  equipment ← uuid_str <$> or_raise ValueError (uuid_parse equipment_id);
  Ok ("features:" +:+ tenant +:+ ":" +:+ equipment +:+ ":" +:+ sensor_name).

(** One Redis call: a read, or a write. *)
Definition next_fs_call : M feature_store call := λ s,
  let '(c, l) := first_call (fs_calls s) in (Ok c, set_fs_calls l s).
Definition redis_get (now : Z) (key : string) : M feature_store (list reading) :=
  c ← next_fs_call;
  match c with
  | Fails e | Lost e => raise e
  | Runs => gets (λ s, match redis s !! key with
                       | Some (l, expires) => if Z.ltb now expires then l else []
                       | None => []
                       end)
  end.
Definition redis_setex (now : Z) (key : string) (l : list reading) : M feature_store unit :=
  c ← next_fs_call;
  let write := modify (λ s, set_redis (<[key := (l, now + ttl_us s)%Z]> (redis s)) s) in
  match c with
  | Runs => write
  | Fails e => raise e
  | Lost e => write ≫= λ _, raise e
  end.

(** The append, trimmed to the window. *)
Definition push (window : Z) (r : reading) (l : list reading) : list reading :=
  let l' := (l ++ [r])%list in
  if Z.ltb window (Z.of_nat (length l')) then py_tail window l' else l'.

Definition store_reading (now : Z) (company_id equipment_id sensor_name timestamp : string)
  (value : float) : M feature_store unit :=
  key ← lift (_make_key company_id equipment_id sensor_name);
  s ← getS;
  let r := {| re_timestamp := timestamp; re_value := value |} in
  if use_memory s
  then modify (set_storage (<[key := push (max_window s) r (default [] (storage s !! key))]> (storage s)))
  else readings ← redis_get now key;
       redis_setex now key (push (max_window s) r readings).

Definition get_recent_readings (now : Z) (company_id equipment_id sensor_name : string) (limit : Z)
  : M feature_store (list reading) :=
  key ← lift (_make_key company_id equipment_id sensor_name);
  s ← getS;
  readings ← (if use_memory s then gets (λ s, default [] (storage s !! key)) else redis_get now key);
  mret (py_tail limit readings).

Section snapshot.
Context `{IsoCodec}.

Definition reading_time (ts : string) : res (option Z) :=
  match fromisoformat (str_replace "Z" "+00:00" ts) with
  | Err e => if is_value_error e then Ok None else Err e
  | Ok at_ => Some <$> dt_utc at_
  end.

(** [(now - at).total_seconds() > max_age_seconds] *)
Definition too_old (now at_ : Z) (max_age : float) : res bool :=
  (λ age, fgt age max_age) <$> float_div_int (now - at_) 1000000.

Definition is_stale (now : Z) (at_ : option Z) (max_age : option float) : res bool :=
  match max_age, at_ with
  | None, _ => Ok false
  | Some _, None => Ok true
  | Some m, Some t => too_old now t m
  end.

Definition later (as_of at_ : option Z) : option Z :=
  match at_, as_of with
  | None, _ => as_of
  | Some t, None => Some t
  | Some t, Some u => if Z.ltb u t then Some t else Some u
  end.

(** One sensor of [get_current_snapshot]'s loop. *)
Definition snapshot_step (now : Z) (company_id equipment_id : string) (max_age : option float)
  (acc : gmap string float * option Z) (sensor_name : string)
  : M feature_store (gmap string float * option Z) :=
  readings ← get_recent_readings now company_id equipment_id sensor_name 1;
  match last readings with
  | None => mret acc
  | Some latest =>
      at_ ← lift (reading_time (re_timestamp latest));
      stale ← lift (is_stale now at_ max_age);
      if stale : bool then mret acc
      else mret (<[sensor_name := re_value latest]> acc.1, later acc.2 at_)
  end.

Definition get_current_snapshot (now : Z) (company_id equipment_id : string)
  (sensor_names : list string) (max_age : option float)
  : M feature_store (gmap string float * option Z) :=
  foldM (snapshot_step now company_id equipment_id max_age) (∅, None) sensor_names.
End snapshot.

(** ** The window *)

Lemma py_tail_last {A} n (l : list A) : (0 < n)%Z → last (py_tail n l) = last l.
Proof.
  intros Hn. unfold py_tail. rewrite (proj2 (Z.ltb_lt 0 n)) by done.
  destruct l as [|x l] using rev_ind; [done|].
  rewrite drop_app_le by (rewrite length_app; simpl; lia). by rewrite !last_snoc.
Qed.

Lemma py_tail_nil {A} n : py_tail n (@nil A) = [].
Proof. unfold py_tail. by destruct (0 <? n)%Z; rewrite drop_nil. Qed.

Lemma py_tail_short {A} n (l : list A) :
  (0 < n)%Z → (Z.of_nat (length l) ≤ n)%Z → py_tail n l = l.
Proof.
  intros Hn Hl. unfold py_tail. rewrite (proj2 (Z.ltb_lt 0 n)) by done.
  by replace (length l - Z.to_nat n)%nat with 0%nat by lia.
Qed.

Lemma py_tail_length {A} n (l : list A) :
  (0 < n)%Z → Z.of_nat (length (py_tail n l)) = Z.min n (Z.of_nat (length l)).
Proof.
  intros Hn. unfold py_tail. rewrite (proj2 (Z.ltb_lt 0 n)) by done. rewrite length_drop. lia.
Qed.

Lemma push_tail w r l : (0 < w)%Z → push w r (py_tail w l) = py_tail w (l ++ [r])%list.
Proof.
  intros Hw. unfold push. destruct (Z.leb_spec (Z.of_nat (length l)) w) as [Hl | Hl].
  - rewrite (py_tail_short w l) by done.
    case_match eqn:E; [done|]. bool_hyps. by rewrite py_tail_short.
  - pose proof (py_tail_length w l Hw) as Hlen.
    rewrite length_app. simpl. rewrite (proj2 (Z.ltb_lt _ _)) by lia.
    unfold py_tail in *. rewrite (proj2 (Z.ltb_lt 0 w)) in * by done.
    rewrite !length_app, length_drop. simpl.
    rewrite <- drop_app_le, drop_drop by lia. f_equal. lia.
Qed.

(** What a key holds at [now]. *)
Definition contents (now : Z) (key : string) (s : feature_store) : list reading :=
  if use_memory s then default [] (storage s !! key)
  else match redis s !! key with
       | Some (l, expires) => if Z.ltb now expires then l else []
       | None => []
       end.

Lemma set_fs_calls_id s l : fs_calls s = l → set_fs_calls l s = s.
Proof. intros <-. by destruct s. Qed.

Lemma get_recent_spec now c e n limit s r s' :
  get_recent_readings now c e n limit s = (r, s') →
  (∃ k, s' = set_fs_calls k s) ∧
  (∀ l, r = Ok l → ∃ key, _make_key c e n = Ok key ∧ l = py_tail limit (contents now key s)).
Proof.
  unfold get_recent_readings, mbind, M_bind, lift, getS.
  assert (∃ k, s = set_fs_calls k s) as Hid by (exists (fs_calls s); by rewrite set_fs_calls_id).
  destruct (_make_key c e n) as [key|x]; [|by intros [= <- <-]].
  unfold contents. destruct (use_memory s) eqn:Hm.
  - unfold gets, mret, M_ret. intros [= <- <-]. split; [done|]. intros l [= <-]. by exists key.
  - unfold redis_get, next_fs_call, mbind, M_bind.
    destruct (first_call (fs_calls s)) as [c0 cs]. destruct c0; unfold gets, raise, mret, M_ret; simpl;
      intros [= <- <-]; (split; [by exists cs|]); intros l [= <-]. by exists key.
Qed.

Lemma get_recent_clean now c e n limit s key :
  fs_calls s = [] → _make_key c e n = Ok key →
  get_recent_readings now c e n limit s = (Ok (py_tail limit (contents now key s)), s).
Proof.
  intros Hf Hk. unfold get_recent_readings, mbind, M_bind, lift, getS. rewrite Hk.
  unfold contents. destruct (use_memory s) eqn:Hm; [done|].
  unfold redis_get, next_fs_call, mbind, M_bind. rewrite Hf. simpl.
  by rewrite set_fs_calls_id.
Qed.

(** An undisturbed store appends to its own key and touches no other. *)
Lemma store_reading_clean now c e n ts v s key :
  fs_calls s = [] → _make_key c e n = Ok key →
  ∃ s', store_reading now c e n ts v s = (Ok tt, s') ∧
    fs_calls s' = [] ∧ max_window s' = max_window s ∧ ttl_us s' = ttl_us s ∧
    (∀ now', (now ≤ now' < now + ttl_us s)%Z →
       contents now' key s' =
       push (max_window s) {| re_timestamp := ts; re_value := v |} (contents now key s)) ∧
    (∀ now' k, k ≠ key → contents now' k s' = contents now' k s).
Proof.
  intros Hf Hk. unfold store_reading, mbind, M_bind, lift, getS. rewrite Hk. unfold contents.
  destruct (use_memory s) eqn:Hm.
  - eexists. split; [reflexivity|]. simpl. rewrite Hm. split_and!; try done.
    + intros _ _. by rewrite lookup_insert_eq.
    + intros _ k Hne. by rewrite lookup_insert_ne.
  - unfold redis_get, redis_setex, next_fs_call, mbind, M_bind. rewrite Hf. simpl.
    eexists. split; [reflexivity|]. simpl. rewrite Hm. split_and!; try done.
    + intros now' Hn. rewrite lookup_insert_eq. by rewrite (proj2 (Z.ltb_lt _ _)) by lia.
    + intros now' k Hne. by rewrite lookup_insert_ne.
Qed.

(** Stores of one sensor, each at its time. *)
Fixpoint store_all (c e n : string) (rs : list (Z * reading)) : M feature_store unit :=
  match rs with
  | [] => mret tt
  | (t, r) :: rest => store_reading t c e n (re_timestamp r) (re_value r) ≫= λ _, store_all c e n rest
  end.

(** Each time less than [ttl] after the one before, down to [now]. *)
Fixpoint paced (ttl prev : Z) (times : list Z) (now : Z) : Prop :=
  match times with
  | [] => (prev ≤ now < prev + ttl)%Z
  | t :: ts => (prev ≤ t < prev + ttl)%Z ∧ paced ttl t ts now
  end.

Lemma store_all_contents c e n key rs prev now s :
  fs_calls s = [] → _make_key c e n = Ok key → (0 < max_window s)%Z →
  paced (ttl_us s) prev rs.*1 now → ∀ l,
  (∀ t, (prev ≤ t < prev + ttl_us s)%Z → contents t key s = py_tail (max_window s) l) →
  ∃ s', store_all c e n rs s = (Ok tt, s') ∧ fs_calls s' = [] ∧
    contents now key s' = py_tail (max_window s) (l ++ rs.*2).
Proof.
  intros Hf Hk Hw. revert prev s Hf Hw.
  induction rs as [|[t r] rs IH]; intros prev s Hf Hw Hp l Hl; simpl in Hp.
  { exists s. split; [done|]. split; [done|]. rewrite app_nil_r. by apply Hl. }
  destruct Hp as [Ht Hp].
  destruct (store_reading_clean t c e n (re_timestamp r) (re_value r) s key Hf Hk)
    as (s1 & E1 & Hf1 & Hw1 & Httl1 & Hc1 & _).
  rewrite <- Httl1 in Hp.
  destruct (IH t s1 Hf1 ltac:(by rewrite Hw1) Hp (l ++ [r])%list) as (s' & E' & Hf' & Hc').
  - intros u Hu. rewrite Hw1, Httl1 in *. rewrite Hc1, Hl, push_tail by done. by destruct r.
  - exists s'. split; [|split; [done|]].
    + simpl. by rewrite (bind_ok _ _ _ _ _ E1).
    + rewrite Hc', Hw1. simpl. by rewrite <- app_assoc.
Qed.

(** The store keeps the last readings: after any sequence of readings of
    one sensor, each stored before the last expires, a query returns the last
    [limit] of the last [max_window] of them, oldest first, on either
    backend. *)
Theorem recent_readings_window c e n key rs t0 now limit s
    (Hf : fs_calls s = []) (Hk : _make_key c e n = Ok key) (Hw : (0 < max_window s)%Z)
    (Hnew : ∀ t, contents t key s = []) (Hp : paced (ttl_us s) t0 rs.*1 now) :
  outcome (store_all c e n rs ≫= λ _, get_recent_readings now c e n limit) s =
  Ok (py_tail limit (py_tail (max_window s) rs.*2)).
Proof.
  destruct (store_all_contents c e n key rs t0 now s Hf Hk Hw Hp []) as (s' & E & Hf' & Hc).
  { intros t _. by rewrite Hnew, py_tail_nil. }
  unfold outcome. rewrite (bind_ok _ _ _ _ _ E).
  rewrite (get_recent_clean now c e n limit s' key) by done. simpl. by rewrite Hc.
Qed.

(** ** Tenants do not share keys *)

Lemma make_key_shape c e n k : _make_key c e n = Ok k →
  ∃ t u, canonical_company_id c = Ok t ∧ uuid_parse e = Some u ∧
    k = "features:" +:+ t +:+ ":" +:+ uuid_str u +:+ ":" +:+ n.
Proof.
  unfold _make_key. intros (t & Ht & H)%res_bind_inv_ok. apply res_bind_inv_ok in H as (eq & He & [= <-]).
  destruct (uuid_parse e) as [u|]; simplify_eq/=. by exists t, u.
Qed.

Lemma app_same_length a b x y :
  String.length a = String.length b → a +:+ x = b +:+ y → a = b ∧ x = y.
Proof.
  revert b. induction a as [|c a IH]; intros [|d b]; simpl; try done.
  intros [= Hl] [= -> E]. destruct (IH b Hl E) as [-> ->]. done.
Qed.

(** No two tenants, equipments or sensors share a key: equal keys have
    the same company, the same equipment and the same sensor name, whatever
    the name holds. *)
Theorem make_key_injective c1 e1 n1 c2 e2 n2 k
    (H1 : _make_key c1 e1 n1 = Ok k) (H2 : _make_key c2 e2 n2 = Ok k) :
  canonical_company_id c1 = canonical_company_id c2 ∧ uuid_parse e1 = uuid_parse e2 ∧ n1 = n2.
Proof.
  apply make_key_shape in H1 as (t1 & u1 & Hc1 & He1 & ->).
  apply make_key_shape in H2 as (t2 & u2 & Hc2 & He2 & E).
  apply str_app_inj_l in E. apply app_same_length in E as [-> E];
    [|by rewrite (canonical_length _ _ Hc1), (canonical_length _ _ Hc2)].
  apply str_app_inj_l in E. apply app_same_length in E as [Eu E]; [|by rewrite !uuid_str_length].
  apply str_app_inj_l in E as ->.
  apply uuid_str_inj in Eu; [|by eapply uuid_parse_bound..]. subst. by rewrite Hc1, Hc2, He1, He2.
Qed.

(** ** The snapshot *)

Section snapshot_spec.
Context `{I : IsoCodec}.

(** The latest stored reading of a sensor, if its event time is not past
    the age bound. *)
Definition fresh (now : Z) (c e : string) (max_age : option float) (s : feature_store)
  (n : string) (r : reading) (at_ : option Z) : Prop :=
  ∃ key, _make_key c e n = Ok key ∧ last (contents now key s) = Some r ∧
    reading_time (re_timestamp r) = Ok at_ ∧ is_stale now at_ max_age = Ok false.

Lemma contents_calls now key s l : contents now key (set_fs_calls l s) = contents now key s.
Proof. done. Qed.

Lemma fresh_calls now c e m s l n r at_ :
  fresh now c e m (set_fs_calls l s) n r at_ ↔ fresh now c e m s n r at_.
Proof. done. Qed.

(** What a snapshot of the sensors [names] holds. *)
Definition is_snapshot (now : Z) (c e : string) (max_age : option float) (s : feature_store)
  (names : list string) (acc : gmap string float * option Z) : Prop :=
  (∀ n v, acc.1 !! n = Some v ↔
     n ∈ names ∧ ∃ r at_, fresh now c e max_age s n r at_ ∧ re_value r = v) ∧
  (∀ n r t, n ∈ names → fresh now c e max_age s n r (Some t) →
     ∃ u, acc.2 = Some u ∧ (t ≤ u)%Z) ∧
  (∀ u, acc.2 = Some u → ∃ n r, n ∈ names ∧ fresh now c e max_age s n r (Some u)).

Lemma fresh_functional now c e m s n r1 a1 r2 a2 :
  fresh now c e m s n r1 a1 → fresh now c e m s n r2 a2 → r1 = r2 ∧ a1 = a2.
Proof. intros (k1 & Hk1 & ? & ? & _) (k2 & Hk2 & ? & ? & _). split; congruence. Qed.

Lemma later_spec as_of at_ : ∀ u, later as_of at_ = Some u →
  (as_of = Some u ∨ at_ = Some u) ∧
  (∀ t, as_of = Some t ∨ at_ = Some t → (t ≤ u)%Z).
Proof.
  intros u. unfold later. destruct at_ as [t|], as_of as [v|]; try case_match; intros [= <-];
    bool_hyps; (split; [auto|]); intros w [[= <-] | [= <-]] || intros w [[= <-] | [=]] || intros w [[=] | [= <-]]; lia.
Qed.

Lemma later_some as_of at_ : as_of ≠ None ∨ at_ ≠ None → ∃ u, later as_of at_ = Some u.
Proof. unfold later. destruct at_, as_of; try case_match; naive_solver. Qed.

(** One more sensor. *)
Lemma snapshot_step_spec now c e m names n acc s r s' :
  is_snapshot now c e m s names acc →
  snapshot_step now c e m acc n s = (r, s') →
  (∃ l, s' = set_fs_calls l s) ∧
  (∀ acc', r = Ok acc' → is_snapshot now c e m s (names ++ [n]) acc').
Proof.
  intros (H1 & H2 & H3). unfold snapshot_step, mbind, M_bind.
  destruct (get_recent_readings now c e n 1 s) as [[rs|x] s1] eqn:E1;
    apply get_recent_spec in E1 as [Hs1 Hr]; [|by intros [= <- <-]].
  destruct (Hr rs eq_refl) as (key & Hk & ->). rewrite py_tail_last by done.
  assert (Hno : (∀ rd at_, ¬ fresh now c e m s n rd at_) → is_snapshot now c e m s (names ++ [n]) acc).
  { intros Hn. split_and!.
    - intros n' v. rewrite H1, elem_of_app, list_elem_of_singleton. split; [naive_solver|].
      intros [[? | ->] (rd & a & ? & ?)]; [naive_solver | by destruct (Hn rd a)].
    - intros n' rd t. rewrite elem_of_app, list_elem_of_singleton. intros [? | ->] Hf; [eauto|].
      by destruct (Hn _ _ Hf).
    - intros u Hu. destruct (H3 u Hu) as (n' & rd & ? & ?). exists n', rd.
      split; [apply elem_of_app; by left | done]. }
  destruct (last (contents now key s)) as [latest|] eqn:Hlast; simpl.
  2:{ intros [= <- <-]. split; [done|]. intros acc' [= <-]. apply Hno.
      intros rd at_ (k & Hk' & Hl & _). congruence. }
  unfold lift. destruct (reading_time (re_timestamp latest)) as [at_|x] eqn:Ht; [|by intros [= <- <-]].
  destruct (is_stale now at_ m) as [stale|x] eqn:Hst; [|by intros [= <- <-]].
  destruct stale; intros [= <- <-]; (split; [done|]); intros acc' [= <-].
  { apply Hno. intros rd a (k & Hk' & Hl & Ha & Hf). congruence. }
  assert (Hfresh : fresh now c e m s n latest at_) by (by exists key).
  split_and!; simpl.
  - intros n' v. rewrite lookup_insert_Some, H1, elem_of_app, list_elem_of_singleton. split.
    + intros [[<- <-] | [Hne [Hin Hf]]]; [|naive_solver]. split; [by right|]. by exists latest, at_.
    + intros [Hin (rd & a & Hf & Hv)]. destruct (decide (n = n')) as [<- | Hne].
      * destruct (fresh_functional _ _ _ _ _ _ _ _ _ _ Hf Hfresh) as [-> ->]. by left.
      * right. split; [done|]. split; [naive_solver | by exists rd, a].
  - intros n' rd t. rewrite elem_of_app, list_elem_of_singleton. intros Hin Hf.
    assert (acc.2 = None → at_ ≠ Some t → False) as Hex.
    { intros Hn Ha. destruct Hin as [Hin | ->].
      - destruct (H2 _ _ _ Hin Hf) as (u & ? & _). congruence.
      - destruct (fresh_functional _ _ _ _ _ _ _ _ _ _ Hf Hfresh) as [_ Hx]. congruence. }
    destruct (later_some acc.2 at_) as (u & Hu).
    { destruct acc.2; [by left|]. right. intros ->. by apply Hex. }
    exists u. split; [done|]. destruct (later_spec _ _ _ Hu) as [_ Hmax].
    destruct Hin as [Hin | ->].
    + destruct (H2 _ _ _ Hin Hf) as (v & Hv & Htv). specialize (Hmax v (or_introl Hv)). lia.
    + destruct (fresh_functional _ _ _ _ _ _ _ _ _ _ Hf Hfresh) as [_ Hx]. apply Hmax. by right.
  - intros u Hu. destruct (later_spec _ _ _ Hu) as [[Ha | ->] _].
    + destruct (H3 u Ha) as (n' & rd & ? & ?). exists n', rd. split; [apply elem_of_app; by left | done].
    + exists n, latest. split; [apply elem_of_app; right; by left | done].
Qed.

Lemma snapshot_loop now c e m names : ∀ seen acc s r s',
  is_snapshot now c e m s seen acc →
  foldM (snapshot_step now c e m) acc names s = (Ok r, s') →
  is_snapshot now c e m s (seen ++ names) r.
Proof.
  induction names as [|n names IH]; intros seen acc s r s' Hacc E; simpl in E.
  { injection E as <- _. by rewrite app_nil_r. }
  apply bind_inv_ok in E as (acc1 & s1 & E1 & E).
  apply (snapshot_step_spec _ _ _ _ seen) in E1 as [[l ->] H1]; [|done].
  specialize (H1 acc1 eq_refl). apply (IH (seen ++ [n])%list) in E; [|exact H1].
  rewrite <- app_assoc in E. exact E.
Qed.

(** A snapshot is exactly the fresh latest readings: it maps a requested
    sensor to a value if and only if the sensor's latest stored reading has
    that value and is not older than the bound by its own event time (no
    event time counts as stale), and its [as_of] is the newest event time
    among the readings used. *)
Theorem snapshot_fresh now c e names max_age s snap s'
    (H : get_current_snapshot now c e names max_age s = (Ok snap, s')) :
  is_snapshot now c e max_age s names snap.
Proof.
  apply (snapshot_loop now c e max_age names [] (∅, None) s snap s'); [|exact H].
  split_and!; simpl.
  - intros n v. rewrite lookup_empty. split; [done|]. by intros [?%elem_of_nil _].
  - intros n r t ?%elem_of_nil. done.
  - done.
Qed.
End snapshot_spec.

(** ** Concrete stores *)

#[local] Existing Instance hex_iso.

Definition sample_store (memory : bool) : feature_store :=
  {| use_memory := memory; max_window := 2; ttl_us := 3600000000; storage := ∅; redis := ∅;
     fs_calls := [] |}.
Definition sample_c : string := "00000000-0000-0000-0000-000000000001".
Definition sample_e : string := "00000000-0000-0000-0000-000000000002".
Definition sample_readings : list (Z * reading) :=
  (λ t, (t, {| re_timestamp := isoformat t; re_value := S754_zero false |})) <$>
    [1000000; 2000000; 3000000]%Z.

Lemma recent_readings_window_witness :
  outcome (store_all sample_c sample_e "pressure" sample_readings ≫= λ _,
             get_recent_readings 4000000 sample_c sample_e "pressure" 1) (sample_store false) =
  Ok (py_tail 1 (py_tail 2 sample_readings.*2)).
Proof.
  apply (recent_readings_window sample_c sample_e "pressure"
           ("features:" +:+ sample_c +:+ ":" +:+ sample_e +:+ ":pressure") sample_readings 0 4000000 1
           (sample_store false));
    [reflexivity | vm_compute; reflexivity | reflexivity | reflexivity |].
  vm_compute. split_and!; try discriminate; reflexivity.
Defined.

Lemma make_key_injective_witness :
  _make_key sample_c sample_e "a:b" = Ok ("features:" +:+ sample_c +:+ ":" +:+ sample_e +:+ ":a:b") ∧
  canonical_company_id sample_c = canonical_company_id sample_c ∧
  uuid_parse sample_e = uuid_parse sample_e ∧ "a:b" = "a:b".
Proof.
  split; [vm_compute; reflexivity|].
  apply (make_key_injective sample_c sample_e "a:b" sample_c sample_e "a:b"
           ("features:" +:+ sample_c +:+ ":" +:+ sample_e +:+ ":a:b")); vm_compute; reflexivity.
Defined.

Lemma snapshot_fresh_witness :
  let s := final (store_all sample_c sample_e "pressure" sample_readings) (sample_store true) in
  ∃ snap s', get_current_snapshot 5000000 sample_c sample_e ["pressure"; "flow"]
               (Some (S754_finite false 8444249301319680 (-50))) s = (Ok snap, s') ∧
    size snap.1 = 1%nat ∧
    is_snapshot 5000000 sample_c sample_e (Some (S754_finite false 8444249301319680 (-50))) s
      ["pressure"; "flow"] snap.
Proof.
  intros s. eexists _, _. split; [vm_compute; reflexivity|]. split; [vm_compute; reflexivity|].
  apply (snapshot_fresh 5000000 sample_c sample_e ["pressure"; "flow"]
           (Some (S754_finite false 8444249301319680 (-50))) s _ s).
  vm_compute. reflexivity.
Defined.
