(* ===== verification/AlertDb.v ===== *)
(** * The alert worker's database: services/alert_service/worker/repository.py

    [AlertRepository] and [RuleRepository] over the tenant schemas.  A schema
    is a [tenant_db]; every method runs one transaction on one schema
    ([in_tenant]), whose statements or commit may fail.  UUID columns are
    numbers, times microseconds, [DOUBLE PRECISION] columns Python floats. *)

From stdpp Require Import base strings list gmap sorting relations.
From Stdlib Require Import ZArith Lia Ascii.
From S2P Require Import Prelude PyText PyNum PyJson Tenancy.

Local Open Scope string_scope.

(** ** Data *)

(** A row of [alert_rules], as [get_active_rules] selects it. *)
Record rule := {
  rule_id : Z; ru_name : string; ru_sensor : option Z; ru_equipment : option Z;
  ru_site : option string; ru_detection : string; ru_condition : option string;
  ru_threshold : option float; ru_min : option float; ru_max : option float;
  ru_model : option Z; ru_anomaly_threshold : option float; ru_severity : string;
  ru_priority : option Z; ru_enabled : option bool; ru_created : option Z }.

(** A message, its formatted numbers unevaluated. *)
Inductive part :=
  | Lit (s : string)
  | Fixed (digits : nat) (v : float)
  | Shown (v : json).

(** A row of [alerts]. *)
Record alert_row := {
  w_id : Z; w_at : Z; w_rule : Z; w_sensor : option Z; w_equipment : option Z;
  w_site : option string; w_detection : string; w_threshold : option float;
  w_actual : option float; w_condition : option string; w_model : option Z;
  w_score : option float; w_severity : string; w_message : list part }.

Inductive verdict := TruePositive | FalsePositive | OtherVerdict.
Record label := { l_model : option Z; l_verdict : verdict; l_at : Z }.

Record tenant_db := {
  t_rules : list rule;
  t_alerts : list alert_row;
  t_sensors : gmap Z string;
  t_models : gmap Z (option Z);
  t_configs : gmap Z json;
  t_labels : list label }.

Definition set_alerts (l : list alert_row) (t : tenant_db) : tenant_db :=
  {| t_rules := t_rules t; t_alerts := l; t_sensors := t_sensors t;
     t_models := t_models t; t_configs := t_configs t; t_labels := t_labels t |}.

(** The registry's rows [(schema_name, is_active)] in the order of
    [schema_name], the schemas that exist, and the outcomes of the calls. *)
Record db := {
  registry : list (string * bool);
  tenants : gmap string tenant_db;
  db_now : Z;
  db_calls : list call }.

Definition set_tenants m d :=
  {| registry := registry d; tenants := m; db_now := db_now d; db_calls := db_calls d |}.
Definition set_db_calls l d :=
  {| registry := registry d; tenants := tenants d; db_now := db_now d; db_calls := l |}.

(** ** Alerts as the engine builds them *)

(** An event time: absent, text, a datetime, or a value that is none of
    these. *)
Inductive stamp := NoTime | TextTime (s : string) | DateTime (t : pydt) | OtherTime.

Record alert := {
  a_company : string; a_rule : string; a_sensor : option string; a_equipment : option string;
  a_site : json; a_triggered : stamp; a_detection : string; a_actual : json; a_score : json;
  a_model : option string; a_threshold : option float; a_condition : option string;
  a_severity : string; a_message : list part }.

(** ** Transactions *)

Definition next_db_call : M db call := λ d,
  let '(c, l) := first_call (db_calls d) in (Ok c, set_db_calls l d).

(** The statements of one transaction on a schema that exists. *)
Definition commit_tenant {A} (schema : string) (f : tenant_db → res (A * tenant_db)) (t : tenant_db)
  : M db A :=
  match f t with
  | Err e => raise e
  | Ok (a, t') =>
      c ← next_db_call;
      match c with
      | Runs => modify (λ d, set_tenants (<[schema := t']> (tenants d)) d) ≫= λ _, mret a
      | Fails e => raise e
      | Lost e => modify (λ d, set_tenants (<[schema := t']> (tenants d)) d) ≫= λ _, raise e
      end
  end.

(** [async with self._tenant(schema_name) as conn]: a lost reply inside the
    transaction rolls it back.  Where the schema does not exist, neither does
    the relation (42P01). *)
Definition in_tenant {A} (schema : string) (f : tenant_db → res (A * tenant_db)) : M db A :=
  c ← next_db_call;
  match c with
  | Fails e | Lost e => raise e
  | Runs =>
      d ← getS;
      match tenants d !! schema with
      | None => raise (PostgresError (Some "42P01"))
      | Some t => commit_tenant schema f t
      end
  end.

Definition reading {A} (f : tenant_db → A) : tenant_db → res (A * tenant_db) := λ t, Ok (f t, t).

(** ** Saving an alert once *)

Definition RETRAIN : string := "retrain_recommended".

(** [_ALERT_SCOPE] and [_RETRAIN_SCOPE]: [NULL = x] is not true. *)
Definition alert_scope (r x : alert_row) : bool :=
  bool_decide (w_rule x = w_rule r ∧ w_sensor x = w_sensor r ∧ w_equipment x = w_equipment r ∧
               w_condition x ≠ Some RETRAIN).
Definition retrain_scope (r x : alert_row) : bool :=
  bool_decide (is_Some (w_model x) ∧ w_model x = w_model r ∧ w_condition x = Some RETRAIN).
Definition in_scope (retrain : bool) : alert_row → alert_row → bool :=
  if retrain then retrain_scope else alert_scope.

(** [max(triggered_at)] of the scope's rows strictly within the window. *)
Definition within (window at_ t : Z) : bool := Z.ltb (at_ - window) t && Z.ltb t (at_ + window).
Definition max_at (l : list Z) : option Z :=
  foldr (λ x m, Some (match m with None => x | Some y => Z.max x y end)) None l.
Definition prior_at (retrain : bool) (window : Z) (r : alert_row) (t : list alert_row) : option Z :=
  max_at (w_at <$> List.filter (λ x, in_scope retrain r x && within window (w_at r) (w_at x)) t).

(** The primary key of the hypertable. *)
Definition same_key (r x : alert_row) : bool := bool_decide (w_id x = w_id r ∧ w_at x = w_at r).

(** [_SAVE_ALERT_ONCE]: [(inserted, prior_at)] and the table after. *)
Definition save_once (retrain : bool) (window : Z) (r : alert_row) (t : list alert_row)
  : (bool * option Z) * list alert_row :=
  match prior_at retrain window r t with
  | Some p => ((false, Some p), t)
  | None => if existsb (same_key r) t then ((false, None), t)
            else ((true, None), (t ++ [r])%list)
  end.

Section repository.
(** What asyncpg raises for an argument it cannot encode for its parameter's
    type, and the blake2b digest of a lock's name as a signed 64-bit
    number. *)
Context (bind_error : exn) (blake2b_64 : string → Z).

(** [dedup_lock_key] *)
Definition part_text (p : option string) : string := default "" p.
Definition dedup_lock_key (schema_name : string) (scope : list (option string)) : Z :=
  blake2b_64 (schema_name +:+ "|" +:+ str_join "|" (part_text <$> scope)).

Definition lock_scope (retrain : bool) (a : alert) : list (option string) :=
  if retrain then [Some "retrain"; a_model a]
  else [Some "alert"; Some (a_rule a); a_sensor a; a_equipment a].

(** Encoding the statement's arguments: uuid, text and float8. *)
Definition uuid_arg (s : string) : res Z := or_raise bind_error (uuid_parse s).
Definition opt_uuid_arg (o : option string) : res (option Z) :=
  match o with None => Ok None | Some s => Some <$> uuid_arg s end.
(** A NUL is refused by the server (22021). *)
Definition text_arg (v : json) : res (option string) :=
  match v with
  | JNull => Ok None
  | JStr s => if str_has (ascii_of_N 0) s then Err (PostgresError (Some "22021")) else Ok (Some s)
  | _ => Err bind_error
  end.
Definition float_arg (v : json) : res (option float) :=
  match v with
  | JNull => Ok None
  | JStr _ => Err bind_error
  | _ => match json_float v with Ok f => Ok (Some f) | Err _ => Err bind_error end
  end.

(** The row of an alert with id [id] and event time [at_]. *)
Definition bind_row (a : alert) (id : string) (at_ : Z) : res alert_row :=
  i ← uuid_arg id;
  ru ← uuid_arg (a_rule a);
  se ← opt_uuid_arg (a_sensor a);
  eq ← opt_uuid_arg (a_equipment a);
  site ← text_arg (a_site a);
  actual ← float_arg (a_actual a);
  model ← opt_uuid_arg (a_model a);
  score ← float_arg (a_score a);
  Ok {| w_id := i; w_at := at_; w_rule := ru; w_sensor := se; w_equipment := eq;
        w_site := site; w_detection := a_detection a; w_threshold := a_threshold a;
        w_actual := actual; w_condition := a_condition a; w_model := model;
        w_score := score; w_severity := a_severity a; w_message := a_message a |}.

(** The lock is held to the end of the transaction; two transactions under
    one lock run one after the other, which is [in_tenant]'s atomicity (and
    [concurrent] below). *)
Definition save_alert_once (a : alert) (id : string) (at_ : Z) (window : Z) (retrain : bool)
  : M db (bool * option Z) :=
  schema ← lift (schema_name (a_company a));
  in_tenant schema (λ t,
    r ← bind_row a id at_;
    let '(res, l) := save_once retrain window r (t_alerts t) in
    Ok (res, set_alerts l t)).
End repository.

(** ** Reading *)

(** ORDER BY priority DESC, created_at ASC: NULL priorities first, NULL
    creation times last. *)
Definition desc_nulls_first (a b : option Z) : comparison :=
  match a, b with
  | None, None => Eq | None, Some _ => Lt | Some _, None => Gt
  | Some x, Some y => Z.compare y x
  end.
Definition asc_nulls_last (a b : option Z) : comparison :=
  match a, b with
  | None, None => Eq | None, Some _ => Gt | Some _, None => Lt
  | Some x, Some y => Z.compare x y
  end.
Definition rule_le (a b : rule) : Prop :=
  match desc_nulls_first (ru_priority a) (ru_priority b) with
  | Lt => True
  | Gt => False
  | Eq => asc_nulls_last (ru_created a) (ru_created b) ≠ Gt
  end.
#[export] Instance rule_le_dec a b : Decision (rule_le a b).
Proof. unfold rule_le. destruct (desc_nulls_first _ _); apply _. Defined.

Definition rule_enabled (r : rule) : bool := bool_decide (ru_enabled r = Some true).
Definition active_rules (t : tenant_db) : list rule :=
  merge_sort rule_le (List.filter rule_enabled (t_rules t)).

Definition get_active_rules (company_id : string) : M db (list rule) :=
  schema ← lift (schema_name company_id);
  in_tenant schema (reading active_rules).

Definition get_sensor_name (sensor_id company_id : string) : M db (option string) :=
  schema ← lift (schema_name company_id);
  in_tenant schema (λ t,
    u ← or_raise ValueError (uuid_parse sensor_id);
    Ok (t_sensors t !! u, t)).

Definition get_feature_config (config_id company_id : string) : M db (option json) :=
  schema ← lift (schema_name company_id);
  in_tenant schema (λ t,
    u ← or_raise ValueError (uuid_parse config_id);
    Ok (t_configs t !! u, t)).

(** [None]: no such model; [Some None]: its [feature_config_id] is NULL. *)
Definition get_model_by_id (model_id company_id : string) : M db (option (option Z)) :=
  schema ← lift (schema_name company_id);
  in_tenant schema (λ t,
    u ← or_raise ValueError (uuid_parse model_id);
    Ok (t_models t !! u, t)).

Definition day_us : Z := (24 * 3600 * 1000000)%Z.
Definition hour_us : Z := (3600 * 1000000)%Z.

Definition is_label (v : verdict) (l : label) : bool :=
  match v, l_verdict l with
  | TruePositive, TruePositive | FalsePositive, FalsePositive => true
  | _, _ => false
  end.

Record signals := { s_tp : Z; s_fp : Z; s_drift : Z }.

Definition count {A} (p : A → bool) (l : list A) : Z := Z.of_nat (length (List.filter p l)).

Definition retrain_signals (now : Z) (model : Z) (days hours : Z) (t : tenant_db) : signals :=
  let labelled v l := bool_decide (l_model l = Some model) && Z.leb (now - days * day_us) (l_at l)
                      && is_label v l in
  {| s_tp := count (labelled TruePositive) (t_labels t);
     s_fp := count (labelled FalsePositive) (t_labels t);
     s_drift := count (λ r, bool_decide (w_model r = Some model ∧ w_detection r = "statistical" ∧
                                         w_condition r = Some "drift")
                            && Z.leb (now - hours * hour_us) (w_at r)) (t_alerts t) |}.

Definition get_retrain_signals (model_id company_id : string) (days hours : Z) : M db signals :=
  schema ← lift (schema_name company_id);
  u ← lift (or_raise ValueError (uuid_parse model_id));
  now ← gets db_now;
  in_tenant schema (reading (retrain_signals now u days hours)).

(** [TENANT_SCHEMAS_SELECT], and the names a company id maps to. *)
Definition get_tenant_schemas : M db (list string) :=
  c ← next_db_call;
  match c with
  | Fails e | Lost e => raise e
  | Runs =>
      d ← getS;
      mret (List.filter (λ n, is_ok (company_id_from_schema n))
             (fst <$> List.filter (λ r : string * bool,
                        r.2 && schema_like r.1 && bool_decide (is_Some (tenants d !! r.1)))
                      (registry d)))
  end.

(** [load_all_tenant_rules]: a tenant whose rules cannot be read has none. *)
Fixpoint load_rules (schemas : list string) (acc : gmap string (list rule))
  : M db (gmap string (list rule)) :=
  match schemas with
  | [] => mret acc
  | s :: rest =>
      company_id ← lift (company_id_from_schema s);
      rules ← catch (get_active_rules company_id) (λ _, mret []);
      load_rules rest (<[company_id := rules]> acc)
  end.
Definition load_all_tenant_rules : M db (gmap string (list rule)) :=
  schemas ← get_tenant_schemas; load_rules schemas ∅.

(** ** One save *)

Lemma max_at_none l : max_at l = None ↔ l = [].
Proof. by destruct l. Qed.

Lemma max_at_some l m : max_at l = Some m → m ∈ l ∧ ∀ x, x ∈ l → (x ≤ m)%Z.
Proof.
  revert m. induction l as [|x l IH]; intros m; [done|]. simpl. intros [= <-].
  destruct (max_at l) as [y|] eqn:E.
  - destruct (IH y eq_refl) as [Hy Hmax]. split.
    + rewrite elem_of_cons. destruct (Z.max_spec x y) as [[_ ->] | [_ ->]]; auto.
    + intros z [-> | Hz]%elem_of_cons; [lia|]. specialize (Hmax z Hz). lia.
  - apply max_at_none in E as ->. split; [left|].
    intros z [-> | Hz]%elem_of_cons; [lia | by apply elem_of_nil in Hz].
Qed.

Lemma filter_elem {A} (p : A → bool) l x : x ∈ List.filter p l ↔ x ∈ l ∧ p x = true.
Proof. by rewrite !list_elem_of_In, filter_In. Qed.

(** The event times in scope and window. *)
Lemma prior_candidates retrain window r t p :
  p ∈ w_at <$> List.filter (λ x, in_scope retrain r x && within window (w_at r) (w_at x)) t ↔
  ∃ x, x ∈ t ∧ in_scope retrain r x = true ∧ within window (w_at r) (w_at x) = true ∧ p = w_at x.
Proof.
  rewrite list_elem_of_fmap. split.
  - intros (x & -> & Hx). apply filter_elem in Hx as [Hx Hp]. bool_hyps. by exists x.
  - intros (x & Hx & Hs & Hw & ->). exists x. split; [done|]. apply filter_elem. by rewrite Hs, Hw.
Qed.

Lemma prior_at_some retrain window r t p :
  prior_at retrain window r t = Some p →
  ∃ x, x ∈ t ∧ in_scope retrain r x = true ∧ within window (w_at r) p = true ∧ p = w_at x.
Proof.
  intros [Hp _]%max_at_some. apply prior_candidates in Hp as (x & ? & ? & ? & ->). by exists x.
Qed.

Lemma prior_at_none retrain window r t :
  prior_at retrain window r t = None ↔
  ∀ x, x ∈ t → in_scope retrain r x = true → within window (w_at r) (w_at x) = false.
Proof.
  unfold prior_at. rewrite max_at_none. split.
  - intros H x Hx Hs. destruct (within window (w_at r) (w_at x)) eqn:Hw; [|done].
    assert (w_at x ∈ @nil Z) as Hin by (rewrite <- H; apply prior_candidates; by exists x).
    by apply elem_of_nil in Hin.
  - intros H. destruct (w_at <$> _) as [|p l] eqn:E; [done|].
    assert (p ∈ p :: l) as Hin by left. rewrite <- E in Hin.
    apply prior_candidates in Hin as (x & Hx & Hs & Hw & _). rewrite H in Hw by done. done.
Qed.

(** A row present is not saved again, within its window or by its key. *)
Lemma prior_mono retrain window r t t' :
  (∀ x, x ∈ t → x ∈ t') → is_Some (prior_at retrain window r t) →
  is_Some (prior_at retrain window r t').
Proof.
  intros Hsub [p Hp]. apply prior_at_some in Hp as (x & Hx & Hs & Hw & ->).
  destruct (prior_at retrain window r t') eqn:E; [done|].
  rewrite prior_at_none in E. rewrite E in Hw; auto. done.
Qed.

Lemma existsb_mono {A} (p : A → bool) t t' :
  (∀ x, x ∈ t → x ∈ t') → existsb p t = true → existsb p t' = true.
Proof.
  intros Hsub (x & Hx & Hp)%existsb_elem. apply existsb_elem. eauto.
Qed.

Lemma save_once_keeps retrain window r t x :
  x ∈ t → x ∈ (save_once retrain window r t).2.
Proof.
  intros Hx. unfold save_once. destruct (prior_at _ _ _ _); [done|].
  destruct (existsb _ _); [done|]. simpl. apply elem_of_app. by left.
Qed.

Lemma save_once_prefix retrain window r t : t `prefix_of` (save_once retrain window r t).2.
Proof.
  unfold save_once. destruct (prior_at _ _ _ _); [done|]. destruct (existsb _ _); [done|].
  by exists [r].
Qed.

(** Saving is settled by a first save: whatever is saved in between, a second
    save of the same row writes nothing. *)
Lemma save_once_settled retrain window r t t' :
  (∀ x, x ∈ (save_once retrain window r t).2 → x ∈ t') →
  (save_once retrain window r t').2 = t' ∧ (save_once retrain window r t').1.1 = false.
Proof.
  intros Hsub.
  assert (is_Some (prior_at retrain window r t') ∨ existsb (same_key r) t' = true) as H.
  { unfold save_once in Hsub. destruct (prior_at retrain window r t) eqn:Hp.
    - left. simpl in Hsub. eapply prior_mono; [exact Hsub|]. by rewrite Hp.
    - right. destruct (existsb (same_key r) t) eqn:He.
      + simpl in Hsub. eapply existsb_mono; [exact Hsub | exact He].
      + apply existsb_elem. exists r. split.
        * apply Hsub. simpl. apply elem_of_app. right. by apply list_elem_of_singleton.
        * unfold same_key. by apply bool_decide_eq_true. }
  unfold save_once. destruct (prior_at retrain window r t'); [done|].
  destruct H as [[? [=]] | ->]. done.
Qed.

(** ** The cooldown holds *)

(** The dedup scope of a row: its model for a retrain recommendation, its
    (rule, sensor, equipment) otherwise. *)
Definition is_retrain (r : alert_row) : bool := bool_decide (w_condition r = Some RETRAIN).
Definition same_scope (r x : alert_row) : bool :=
  if is_retrain r then retrain_scope r x else negb (is_retrain x) && alert_scope r x.

Lemma in_scope_kind r x : in_scope (is_retrain r) r x = same_scope r x.
Proof.
  unfold in_scope, same_scope, is_retrain. case_bool_decide as Hr; [done|].
  unfold alert_scope. repeat case_bool_decide; naive_solver.
Qed.

Lemma same_scope_sym r x : same_scope r x = same_scope x r.
Proof.
  unfold same_scope, is_retrain, retrain_scope, alert_scope.
  repeat case_bool_decide; simpl; try done; naive_solver congruence.
Qed.

(** The two windows of a deployment: the alerts' and the recommendations'. *)
Section cooldown.
Context (alert_window retrain_window : Z).

Definition window_of (r : alert_row) : Z := if is_retrain r then retrain_window else alert_window.

Definition spaced (t : list alert_row) : Prop :=
  ∀ i j x y, t !! i = Some x → t !! j = Some y → i ≠ j → same_scope x y = true →
  (window_of x ≤ Z.abs (w_at x - w_at y))%Z.

(** One save of an alert under its own kind's window. *)
Definition save_step (t t' : list alert_row) : Prop :=
  ∃ r, t' = (save_once (is_retrain r) (window_of r) r t).2.

Lemma same_scope_kind x y : same_scope x y = true → is_retrain x = is_retrain y.
Proof.
  unfold same_scope, is_retrain, retrain_scope, alert_scope.
  repeat case_bool_decide; simpl; try done; naive_solver.
Qed.

Lemma not_within window a b : within window a b = false → (window ≤ Z.abs (a - b))%Z.
Proof. unfold within. intros H. apply andb_false_iff in H as [H | H]; bool_hyps; lia. Qed.

Lemma spaced_save t t' : spaced t → save_step t t' → spaced t'.
Proof.
  intros Hs (r & ->). unfold save_once. destruct (prior_at _ _ _ _) eqn:Hp; [done|].
  destruct (existsb _ _); [done|]. simpl. rewrite prior_at_none in Hp.
  assert (Hnew : ∀ x, x ∈ t → same_scope r x = true → (window_of r ≤ Z.abs (w_at r - w_at x))%Z).
  { intros x Hx Hsc. apply not_within, Hp; [done|]. by rewrite in_scope_kind. }
  intros i j x y Hi Hj Hij Hsc.
  rewrite lookup_app in Hi, Hj.
  destruct (t !! i) as [x'|] eqn:Ei; destruct (t !! j) as [y'|] eqn:Ej; simplify_eq/=.
  - by eapply Hs.
  - apply list_lookup_singleton_Some in Hj as [_ <-].
    unfold window_of. rewrite (same_scope_kind _ _ Hsc).
    rewrite same_scope_sym in Hsc. apply Hnew in Hsc; [unfold window_of in Hsc; lia|].
    by eapply list_elem_of_lookup_2.
  - apply list_lookup_singleton_Some in Hi as [_ <-].
    apply Hnew; [by eapply list_elem_of_lookup_2 | done].
  - apply list_lookup_singleton_Some in Hi as [Hi _].
    apply list_lookup_singleton_Some in Hj as [Hj _].
    apply lookup_ge_None in Ei, Ej. lia.
Qed.

Lemma spaced_saves t t' : rtc save_step t t' → spaced t → spaced t'.
Proof. induction 1; [done|]. eauto using spaced_save. Qed.

Lemma spaced_nil : spaced [].
Proof. intros i j x y Hi. by rewrite lookup_nil in Hi. Qed.
End cooldown.

(** ** Concurrent writers

    Transactions of any number of workers on one tenant's [alerts], under
    READ COMMITTED: a statement reads what is committed when it starts, its
    insert is seen by others when its transaction commits, an insert whose
    key another open transaction inserted waits for it, and the advisory lock
    is released at the end of the transaction. *)

Inductive txn :=
  | Idle
  | Locked (r : alert_row)
  | Wrote (r : alert_row) (inserted : bool).

Record writers := { committed : list alert_row; txns : list txn }.

Definition row_in (t : txn) : option alert_row :=
  match t with Idle => None | Locked r | Wrote r _ => Some r end.

Section concurrent.
Context (alert_window retrain_window : Z).

(** The advisory-lock key taken for a row. *)
Context (lock : alert_row → Z).
Context (lock_scope : ∀ r x, same_scope r x = true → lock r = lock x).

Abbreviation save r t := (save_once (is_retrain r) (window_of alert_window retrain_window r) r t).

Inductive writer_step : writers → writers → Prop :=
  | step_lock s i r :
      txns s !! i = Some Idle →
      (∀ j t x, txns s !! j = Some t → row_in t = Some x → lock x ≠ lock r) →
      writer_step s {| committed := committed s; txns := <[i := Locked r]> (txns s) |}
  | step_statement s i r :
      txns s !! i = Some (Locked r) →
      (∀ j x, j ≠ i → txns s !! j = Some (Wrote x true) → same_key r x = false) →
      writer_step s {| committed := committed s;
                       txns := <[i := Wrote r (save r (committed s)).1.1]> (txns s) |}
  | step_commit s i r b :
      txns s !! i = Some (Wrote r b) →
      writer_step s {| committed := if b then (committed s ++ [r])%list else committed s;
                       txns := <[i := Idle]> (txns s) |}
  | step_rollback s i t :
      txns s !! i = Some t →
      writer_step s {| committed := committed s; txns := <[i := Idle]> (txns s) |}.

Definition idle_writers (n : nat) : writers := {| committed := []; txns := replicate n Idle |}.

Lemma save_verdict r t :
  (save r t).1.1 = match prior_at (is_retrain r) (window_of alert_window retrain_window r) r t with
                   | Some _ => false | None => negb (existsb (same_key r) t) end.
Proof. unfold save_once. destruct (prior_at _ _ _ _); [done|]. by destruct (existsb _ _). Qed.

Lemma save_table r t :
  (save r t).2 = if (save r t).1.1 then (t ++ [r])%list else t.
Proof. unfold save_once. destruct (prior_at _ _ _ _); [done|]. by destruct (existsb _ _). Qed.

Lemma save_false_mono r t x :
  (save r t).1.1 = false → (save r (t ++ [x])%list).1.1 = false.
Proof.
  rewrite !save_verdict. intros H.
  assert (Hsub : ∀ y, y ∈ t → y ∈ (t ++ [x])%list) by (intros y ?; apply elem_of_app; by left).
  destruct (prior_at _ _ r t) eqn:Hp.
  - destruct (prior_mono _ _ _ _ _ Hsub (mk_is_Some _ _ Hp)) as [p ->]. done.
  - destruct (prior_at _ _ r (t ++ [x])); [done|]. bool_hyps.
    apply negb_false_iff. by eapply existsb_mono.
Qed.

Lemma save_true_app r t x :
  (save r t).1.1 = true → same_scope r x = false → same_key r x = false →
  (save r (t ++ [x])%list).1.1 = true.
Proof.
  rewrite !save_verdict. intros H Hs Hk.
  destruct (prior_at _ _ r t) eqn:Hp; [done|].
  assert (prior_at (is_retrain r) (window_of alert_window retrain_window r) r (t ++ [x]) = None) as ->.
  { apply prior_at_none. rewrite prior_at_none in Hp. intros y Hy Hsc.
    apply elem_of_app in Hy as [Hy | Hy]; [auto|]. apply list_elem_of_singleton in Hy as ->.
    rewrite in_scope_kind in Hsc. congruence. }
  rewrite existsb_app. simpl. rewrite Hk. by rewrite !orb_false_r.
Qed.

(** Open transactions hold different locks and insert different keys, and
    what each decided is what it would decide now. *)
Definition writers_inv (s : writers) : Prop :=
  (∀ i j t u x y, i ≠ j → txns s !! i = Some t → txns s !! j = Some u →
     row_in t = Some x → row_in u = Some y → lock x ≠ lock y) ∧
  (∀ i j x y, i ≠ j → txns s !! i = Some (Wrote x true) → txns s !! j = Some (Wrote y true) →
     same_key x y = false) ∧
  (∀ i r b, txns s !! i = Some (Wrote r b) → (save r (committed s)).1.1 = b).

Lemma same_key_sym x y : same_key x y = same_key y x.
Proof. unfold same_key. apply bool_decide_ext. naive_solver. Qed.

Lemma insert_cases {A} (l : list A) i j x y :
  <[i := x]> l !! j = Some y → (i = j ∧ x = y) ∨ (i ≠ j ∧ l !! j = Some y).
Proof. intros H%list_lookup_insert_Some. naive_solver. Qed.

Lemma idle_inv s i : writers_inv s →
  writers_inv {| committed := committed s; txns := <[i := Idle]> (txns s) |}.
Proof.
  intros (H1 & H2 & H3). split_and!; simpl.
  - intros a b t u x y Hab Ha Hb Hx Hy.
    apply insert_cases in Ha as [[-> <-] | [_ Ha]]; [done|].
    apply insert_cases in Hb as [[-> <-] | [_ Hb]]; [done|]. by eapply (H1 a b).
  - intros a b x y Hab Ha Hb.
    apply insert_cases in Ha as [[-> [=]] | [_ Ha]]. apply insert_cases in Hb as [[-> [=]] | [_ Hb]].
    by eapply (H2 a b).
  - intros a r b Ha. apply insert_cases in Ha as [[-> [=]] | [_ Ha]]. by eapply H3.
Qed.

Lemma inv_lock s i r :
  txns s !! i = Some Idle →
  (∀ j t x, txns s !! j = Some t → row_in t = Some x → lock x ≠ lock r) →
  writers_inv s →
  writers_inv {| committed := committed s; txns := <[i := Locked r]> (txns s) |}.
Proof.
  intros Hi Hfree (H1 & H2 & H3). split_and!; simpl.
  - intros a b t u x y Hab Ha Hb Hx Hy.
    apply insert_cases in Ha as [[-> <-] | [Ha' Ha]]; apply insert_cases in Hb as [[-> <-] | [Hb' Hb]];
      simpl in Hx, Hy; [done| | |by eapply (H1 a b)].
    + injection Hx as <-. intros E. by eapply Hfree.
    + injection Hy as <-. by eapply Hfree.
  - intros a b x y Hab Ha Hb.
    apply insert_cases in Ha as [[-> [=]] | [_ Ha]]. apply insert_cases in Hb as [[-> [=]] | [_ Hb]].
    by eapply (H2 a b).
  - intros a x b Ha. apply insert_cases in Ha as [[-> [=]] | [_ Ha]]. by eapply H3.
Qed.

Lemma inv_statement s i r :
  txns s !! i = Some (Locked r) →
  (∀ j x, j ≠ i → txns s !! j = Some (Wrote x true) → same_key r x = false) →
  writers_inv s →
  writers_inv {| committed := committed s;
                 txns := <[i := Wrote r (save r (committed s)).1.1]> (txns s) |}.
Proof.
  intros Hi Hkey (H1 & H2 & H3). split_and!; simpl.
  - intros a b t u x y Hab Ha Hb Hx Hy.
    apply insert_cases in Ha as [[-> <-] | [_ Ha]]; apply insert_cases in Hb as [[-> <-] | [_ Hb]];
      simpl in Hx, Hy.
    + done.
    + by eapply (H1 a b).
    + by eapply (H1 a b).
    + by eapply (H1 a b).
  - intros a b x y Hab Ha Hb.
    apply insert_cases in Ha as [[-> Ea] | [Ha' Ha]]; apply insert_cases in Hb as [[-> Eb] | [Hb' Hb]];
      simplify_eq/=.
    + eapply Hkey; [|done]. done.
    + rewrite same_key_sym. eapply Hkey; [|done]. done.
    + by eapply (H2 a b).
  - intros a x b Ha. apply insert_cases in Ha as [[-> [= <- <-]] | [_ Ha]]; [done | by eapply H3].
Qed.

Lemma inv_commit s i r b :
  txns s !! i = Some (Wrote r b) → writers_inv s →
  writers_inv {| committed := if b then (committed s ++ [r])%list else committed s;
                 txns := <[i := Idle]> (txns s) |}.
Proof.
  intros Hi Hinv. destruct (idle_inv s i Hinv) as (J1 & J2 & _).
  destruct Hinv as (H1 & H2 & H3). split_and!; [exact J1 | exact J2 |]. simpl.
  intros a x c Ha. apply insert_cases in Ha as [[_ [=]] | [Hne Ha]].
  specialize (H3 _ _ _ Ha). destruct b; [|done]. destruct c; [|by apply save_false_mono].
  apply save_true_app; [done| |].
  - destruct (same_scope x r) eqn:Hs; [|done]. exfalso.
    eapply (H1 a i); [done | exact Ha | exact Hi | done | done | by apply lock_scope].
  - eapply (H2 a i); [done | exact Ha | exact Hi].
Qed.

Lemma writer_step_inv s s' : writer_step s s' → writers_inv s → writers_inv s'.
Proof.
  destruct 1; eauto using inv_lock, inv_statement, inv_commit, idle_inv.
Qed.

Lemma idle_writers_inv n : writers_inv (idle_writers n).
Proof.
  split_and!; simpl; intros *; rewrite ?lookup_replicate; naive_solver.
Qed.

Lemma writer_step_save s s' :
  writers_inv s → writer_step s s' →
  rtc (save_step alert_window retrain_window) (committed s) (committed s').
Proof.
  intros Hinv Hstep. revert Hinv. destruct Hstep as [| | s i r b Hi |]; simpl; try done.
  intros (_ & _ & H3).
  apply rtc_once. exists r. rewrite save_table, (H3 _ _ _ Hi). by destruct b.
Qed.
Lemma writers_run s s' :
  rtc writer_step s s' → writers_inv s →
  writers_inv s' ∧ rtc (save_step alert_window retrain_window) (committed s) (committed s').
Proof.
  induction 1 as [|s s1 s' Hstep _ IH]; intros Hinv; [done|].
  destruct (IH (writer_step_inv _ _ Hstep Hinv)) as [? ?]. split; [done|].
  etrans; [by eapply writer_step_save | done].
Qed.

End concurrent.

(** *** The lock key follows the scope *)

(** The scope [dedup_lock_key] is given for the alert of a row. *)
Definition row_lock_scope (r : alert_row) : list (option string) :=
  if is_retrain r then [Some "retrain"; uuid_str <$> w_model r]
  else [Some "alert"; Some (uuid_str (w_rule r)); uuid_str <$> w_sensor r; uuid_str <$> w_equipment r].
Definition row_lock (blake2b_64 : string → Z) (schema : string) (r : alert_row) : Z :=
  dedup_lock_key blake2b_64 schema (row_lock_scope r).

Lemma row_lock_scope_same r x : same_scope r x = true → row_lock_scope r = row_lock_scope x.
Proof.
  intros H. pose proof (same_scope_kind _ _ H) as Hk. unfold row_lock_scope. rewrite <- Hk.
  unfold same_scope in H. destruct (is_retrain r).
  - apply bool_decide_eq_true in H as (_ & -> & _). done.
  - bool_hyps. unfold alert_scope in *. bool_hyps. destruct_and!. congruence.
Qed.

(** An alert as the engine builds it: its ids are canonical, and it is a
    retrain recommendation exactly when its condition says so. *)
Definition canonical_alert (a : alert) : Prop :=
  canonical (a_rule a) ∧ (∀ s, a_sensor a = Some s → canonical s) ∧
  (∀ s, a_equipment a = Some s → canonical s) ∧ (∀ s, a_model a = Some s → canonical s).
Definition alert_retrain (a : alert) : bool := bool_decide (a_condition a = Some RETRAIN).

Lemma canonical_arg bind_error s u : canonical s → uuid_arg bind_error s = Ok u → uuid_str u = s.
Proof.
  unfold canonical, canonical_company_id, uuid_arg.
  destruct (uuid_parse s) as [v|]; simpl; [|done]. intros [= <-] [= <-]. done.
Qed.

Lemma canonical_opt_arg bind_error o u :
  (∀ s, o = Some s → canonical s) → opt_uuid_arg bind_error o = Ok u → uuid_str <$> u = o.
Proof.
  destruct o as [s|]; simpl; [|by intros _ [= <-]]. intros Hc.
  destruct (uuid_arg bind_error s) as [v|] eqn:E; simpl; [|done]. intros [= <-]. simpl.
  f_equal. eapply canonical_arg; eauto.
Qed.

Lemma bind_row_inv bind_error a id at_ r : bind_row bind_error a id at_ = Ok r →
  uuid_arg bind_error id = Ok (w_id r) ∧ w_at r = at_ ∧
  uuid_arg bind_error (a_rule a) = Ok (w_rule r) ∧
  opt_uuid_arg bind_error (a_sensor a) = Ok (w_sensor r) ∧
  opt_uuid_arg bind_error (a_equipment a) = Ok (w_equipment r) ∧
  opt_uuid_arg bind_error (a_model a) = Ok (w_model r) ∧ w_condition r = a_condition a.
Proof.
  unfold bind_row. intros (i & Hi & H)%res_bind_inv_ok.
  apply res_bind_inv_ok in H as (ru & Hru & H). apply res_bind_inv_ok in H as (se & Hse & H).
  apply res_bind_inv_ok in H as (eq & Heq & H). apply res_bind_inv_ok in H as (st & Hst & H).
  apply res_bind_inv_ok in H as (ac & Hac & H). apply res_bind_inv_ok in H as (mo & Hmo & H).
  apply res_bind_inv_ok in H as (sc & Hsc & [= <-]). simpl. done.
Qed.

(** Two alerts of one dedup scope take one advisory lock: the key
    [save_alert_once] locks is a function of the scope its row has in the
    table. *)
Theorem lock_follows_scope bind_error blake2b_64 schema a b ia ib ta tb r x
    (Ca : canonical_alert a) (Cb : canonical_alert b)
    (Ha : bind_row bind_error a ia ta = Ok r) (Hb : bind_row bind_error b ib tb = Ok x)
    (Hs : same_scope r x = true) :
  dedup_lock_key blake2b_64 schema (lock_scope (alert_retrain a) a) =
  dedup_lock_key blake2b_64 schema (lock_scope (alert_retrain b) b).
Proof.
  assert (∀ a id t r, canonical_alert a → bind_row bind_error a id t = Ok r →
            lock_scope (alert_retrain a) a = row_lock_scope r) as Hrow.
  { clear. intros a id t r (C1 & C2 & C3 & C4) (_ & _ & H1 & H2 & H3 & H4 & Hc)%bind_row_inv.
    unfold lock_scope, row_lock_scope, alert_retrain, is_retrain. rewrite Hc.
    apply canonical_opt_arg in H2, H3, H4; [|done..]. apply canonical_arg in H1; [|done].
    case_bool_decide; congruence. }
  rewrite (Hrow _ _ _ _ Ca Ha), (Hrow _ _ _ _ Cb Hb). by rewrite (row_lock_scope_same _ _ Hs).
Qed.

(** C13: Under the advisory lock the cooldown holds across replicas: whatever
    the interleaving of any number of writers' transactions on a tenant's
    alerts, the committed rows are those of some sequence of atomic saves, and
    any two of one scope are at least its window apart. *)
Theorem concurrent_cooldown blake2b_64 schema alert_window retrain_window n s
    (Hrun : rtc (writer_step alert_window retrain_window (row_lock blake2b_64 schema))
                (idle_writers n) s) :
  rtc (save_step alert_window retrain_window) [] (committed s) ∧
  spaced alert_window retrain_window (committed s).
Proof.
  assert (Hlock : ∀ r x, same_scope r x = true →
            row_lock blake2b_64 schema r = row_lock blake2b_64 schema x)
    by (intros r x Hs; unfold row_lock; by rewrite (row_lock_scope_same _ _ Hs)).
  destruct (writers_run _ _ _ Hlock _ _ Hrun (idle_writers_inv _ _ _ n)) as [_ H].
  split; [done|]. eapply spaced_saves; [done | apply spaced_nil].
Qed.

(** ** The rules of the active tenants *)

(** A transaction that only reads. *)
Definition same_data (d d' : db) : Prop :=
  registry d' = registry d ∧ tenants d' = tenants d ∧ db_now d' = db_now d.

#[export] Instance same_data_preorder : PreOrder same_data.
Proof. split; [by intros d|]. intros d1 d2 d3 (? & ? & ?) (? & ? & ?). split_and!; congruence. Qed.

Lemma next_db_call_data d r d' : next_db_call d = (r, d') → same_data d d' ∧ is_ok r = true.
Proof. unfold next_db_call. destruct (first_call _). by intros [= <- <-]. Qed.

Lemma in_tenant_quiet {A} schema (f : tenant_db → res (A * tenant_db)) d r d' :
  (∀ t a t', tenants d !! schema = Some t → f t = Ok (a, t') → t' = t) →
  in_tenant schema f d = (r, d') →
  same_data d d' ∧ ∀ a, r = Ok a → ∃ t, tenants d !! schema = Some t ∧ f t = Ok (a, t).
Proof.
  intros Hf. unfold in_tenant, mbind, M_bind.
  destruct (next_db_call d) as [[c|e] d1] eqn:E1; apply next_db_call_data in E1 as [H1 Hok]; [|done].
  destruct c; [|by intros [= <- <-]..]. simpl.
  destruct H1 as (Hr & Ht & Hn). rewrite Ht.
  destruct (tenants d !! schema) as [t|] eqn:Et; [|by intros [= <- <-]].
  unfold commit_tenant. destruct (f t) as [[a t']|e] eqn:Ef; [|by intros [= <- <-]].
  assert (t' = t) as -> by eauto. unfold mbind, M_bind.
  destruct (next_db_call d1) as [[c|e] d2] eqn:E2; apply next_db_call_data in E2 as [H2 Hok2]; [|done].
  destruct H2 as (Hr2 & Ht2 & Hn2).
  destruct c; intros [= <- <-]; (split; [split_and!; simpl; rewrite ?Ht2, ?Ht, ?insert_id by done; congruence|]);
    intros b; intros [= <-]; eauto.
Qed.

Lemma in_tenant_read {A} schema (f : tenant_db → res (A * tenant_db)) d r d' :
  (∀ t a t', f t = Ok (a, t') → t' = t) →
  in_tenant schema f d = (r, d') →
  same_data d d' ∧ ∀ a, r = Ok a → ∃ t, tenants d !! schema = Some t ∧ f t = Ok (a, t).
Proof. intros Hf. apply in_tenant_quiet. eauto. Qed.

Lemma get_active_rules_spec c d r d' : get_active_rules c d = (r, d') →
  same_data d d' ∧ ∀ rs, r = Ok rs →
    ∃ n t, schema_name c = Ok n ∧ tenants d !! n = Some t ∧ rs = active_rules t.
Proof.
  unfold get_active_rules, mbind, M_bind, lift. destruct (schema_name c) as [n|e]; [|by intros [= <- <-]].
  intros E. apply in_tenant_read in E as [Hd H]; [|intros t a t' [= <- <-]; done].
  split; [done|]. intros rs ->. destruct (H rs eq_refl) as (t & Ht & [= <-]). eauto.
Qed.

(** The rules a tenant may be given: none, or its active ones. *)
Definition rules_of (d : db) (c : string) (rs : list rule) : Prop :=
  rs = [] ∨ ∃ n t, schema_name c = Ok n ∧ tenants d !! n = Some t ∧ rs = active_rules t.

Lemma load_rules_spec schemas acc d m d' :
  load_rules schemas acc d = (Ok m, d') →
  (∀ c, is_Some (m !! c) ↔ is_Some (acc !! c) ∨ ∃ n, n ∈ schemas ∧ company_id_from_schema n = Ok c) ∧
  ((∀ c rs, acc !! c = Some rs → rules_of d c rs) → ∀ c rs, m !! c = Some rs → rules_of d c rs).
Proof.
  revert acc d. induction schemas as [|n schemas IH]; intros acc d E; simpl in E.
  { injection E as <- _. split; [|done]. intros c. split; [auto|].
    intros [? | (n & Hn & _)]; [done | by apply elem_of_nil in Hn]. }
  unfold mbind, M_bind, lift, catch in E.
  destruct (company_id_from_schema n) as [c0|e] eqn:Hc; [|done].
  destruct (get_active_rules c0 d) as [r d1] eqn:E1. apply get_active_rules_spec in E1 as [Hd Hr].
  assert (∃ rs, load_rules schemas (<[c0 := rs]> acc) d1 = (Ok m, d') ∧ rules_of d c0 rs)
    as (rs & E2 & Hrs).
  { destruct r as [rs|e].
    - exists rs. split; [done|]. right. destruct (Hr rs eq_refl) as (n' & t & ?). by exists n', t.
    - exists []. split; [done | by left]. }
  apply IH in E2 as [Hdom Hval]. split.
  - intros c. rewrite Hdom. split.
    + intros [Hs | (n' & Hn' & ?)]; [|right; exists n'; split; [by right | done]].
      destruct (decide (c0 = c)) as [-> | Hne].
      * right. exists n. split; [left | done].
      * rewrite lookup_insert_ne in Hs by done. by left.
    + intros [Hs | (n' & [-> | Hn']%elem_of_cons & Hcn)].
      * left. destruct (decide (c0 = c)) as [-> | Hne];
          [rewrite lookup_insert_eq; by eexists | by rewrite lookup_insert_ne].
      * left. assert (c0 = c) as -> by congruence. rewrite lookup_insert_eq. by eexists.
      * right. by exists n'.
  - intros Hacc c rs' Hm.
    assert (∀ c rs, rules_of d1 c rs ↔ rules_of d c rs) as Heq.
    { intros ? ?. unfold rules_of. destruct Hd as (_ & -> & _). done. }
    apply Heq, Hval; [|done]. intros c1 rs1 H1. apply Heq.
    apply lookup_insert_Some in H1 as [[<- <-] | [_ H1]]; [done | by apply Hacc].
Qed.

(** Exactly the active tenants have rules: a load that returns holds an
    entry for a company if and only if the registry holds its schema as
    active and the schema exists, and the entry is empty (its rules could not
    be read) or the enabled rules of that schema; so a suspended tenant has
    none. *)
Theorem rules_of_active_tenants d m d' (H : load_all_tenant_rules d = (Ok m, d')) :
  (∀ c, is_Some (m !! c) ↔ ∃ n t, (n, true) ∈ registry d ∧
     company_id_from_schema n = Ok c ∧ tenants d !! n = Some t) ∧
  (∀ c rs, m !! c = Some rs → rs = [] ∨
     ∃ n t, schema_name c = Ok n ∧ tenants d !! n = Some t ∧
       (∀ r, r ∈ rs ↔ r ∈ t_rules t ∧ ru_enabled r = Some true)).
Proof.
  unfold load_all_tenant_rules, get_tenant_schemas, mbind, M_bind in H.
  destruct (next_db_call d) as [[c|e] d1] eqn:E1; apply next_db_call_data in E1 as [(Hr & Ht & _) _]; [|done].
  destruct c; [|done..]. simpl in H. rewrite Hr, Ht in H.
  apply load_rules_spec in H as [Hdom Hval]. split.
  - intros c. rewrite Hdom, lookup_empty. split.
    + intros [[? [=]] | (n & Hn & Hc)]. apply filter_elem in Hn as [Hn _].
      apply list_elem_of_fmap in Hn as ([n' b] & -> & Hn). apply filter_elem in Hn as [Hn Hp].
      simpl in *. bool_hyps. subst.
      match goal with H : is_Some _ |- _ => destruct H as [t Hs] end. eauto.
    + intros (n & t & Hn & Hc & Hs). right. exists n. split; [|done].
      apply filter_elem. rewrite Hc. split; [|done]. apply list_elem_of_fmap. exists (n, true).
      split; [done|]. apply filter_elem. split; [done|]. simpl.
      apply schema_inverse in Hc as [Hcan Hsch].
      destruct (schema_name_ok _ Hcan) as (n' & Hn' & Hlike). assert (n' = n) as -> by congruence.
      rewrite Hlike. simpl. apply bool_decide_eq_true. by exists t.
  - intros c rs Hm. destruct (Hval (λ c rs H, ltac:(by rewrite lookup_empty in H)) c rs Hm)
      as [? | (n & t & Hn & Hs & ->)]; [by left | right].
    rewrite Ht in Hs. exists n, t. split; [done|]. split; [done|]. intros r. unfold active_rules.
    rewrite merge_sort_Permutation, filter_elem. unfold rule_enabled. by rewrite bool_decide_eq_true.
Qed.

(** ** Concrete rows *)

Definition sample_alert (model : option string) (condition : string) : alert :=
  {| a_company := "00000000-0000-0000-0000-000000000001";
     a_rule := "00000000-0000-0000-0000-00000000000a"; a_sensor := None; a_equipment := None;
     a_site := JNull; a_triggered := NoTime; a_detection := "threshold"; a_actual := JNull;
     a_score := JNull; a_model := model; a_threshold := None; a_condition := Some condition;
     a_severity := "low"; a_message := [] |}.
Definition sample_row (at_ : Z) : alert_row :=
  {| w_id := at_; w_at := at_; w_rule := 10; w_sensor := None; w_equipment := None; w_site := None;
     w_detection := "threshold"; w_threshold := None; w_actual := None;
     w_condition := Some "greater_than"; w_model := None; w_score := None; w_severity := "low";
     w_message := [] |}.

Lemma lock_follows_scope_witness :
  dedup_lock_key (λ s, Z.of_nat (String.length s)) "s"
    (lock_scope false (sample_alert None "greater_than")) =
  dedup_lock_key (λ s, Z.of_nat (String.length s)) "s"
    (lock_scope false (sample_alert None "less_than")).
Proof.
  assert (∀ c, canonical_alert (sample_alert None c)) as Hc.
  { intros c. split; [vm_compute; reflexivity|]. by split_and!. }
  apply (lock_follows_scope TypeError (λ s, Z.of_nat (String.length s)) "s"
           (sample_alert None "greater_than") (sample_alert None "less_than")
           "00000000-0000-0000-0000-000000000001" "00000000-0000-0000-0000-000000000002" 1 2
           {| w_id := 1; w_at := 1; w_rule := 10; w_sensor := None; w_equipment := None;
              w_site := None; w_detection := "threshold"; w_threshold := None; w_actual := None;
              w_condition := Some "greater_than"; w_model := None; w_score := None;
              w_severity := "low"; w_message := [] |}
           {| w_id := 2; w_at := 2; w_rule := 10; w_sensor := None; w_equipment := None;
              w_site := None; w_detection := "threshold"; w_threshold := None; w_actual := None;
              w_condition := Some "less_than"; w_model := None; w_score := None;
              w_severity := "low"; w_message := [] |});
    [apply Hc | apply Hc | vm_compute; reflexivity | vm_compute; reflexivity | reflexivity].
Defined.

(** Two writers of one scope, 5 and 9 microseconds: the second waits for the
    lock and finds the first. *)
Lemma concurrent_cooldown_witness :
  let lock := row_lock (λ s, Z.of_nat (String.length s)) "s" in
  let s := {| committed := [sample_row 5]; txns := [Idle; Wrote (sample_row 9) false] |} in
  rtc (save_step 10 20) [] (committed s) ∧ spaced 10 20 (committed s).
Proof.
  intros lock s. apply (concurrent_cooldown (λ s, Z.of_nat (String.length s)) "s" 10 20 2). fold lock.
  eapply rtc_l; [apply (step_lock _ _ _ _ 0 (sample_row 5)); [reflexivity|]|].
  { intros [|[|j]] t x Ht Hx; simpl in Ht; simplify_eq/=. }
  eapply rtc_l; [apply (step_statement _ _ _ _ 0 (sample_row 5)); [reflexivity|]|].
  { intros [|[|j]] x Hj Ht; simpl in Ht; simplify_eq/=. }
  eapply rtc_l; [apply (step_commit _ _ _ _ 0 (sample_row 5) true); reflexivity|].
  eapply rtc_l; [apply (step_lock _ _ _ _ 1 (sample_row 9)); [reflexivity|]|].
  { intros [|[|j]] t x Ht Hx; simpl in Ht; simplify_eq/=. }
  eapply rtc_l; [apply (step_statement _ _ _ _ 1 (sample_row 9)); [reflexivity|]|].
  { intros [|[|j]] x Hj Ht; simpl in Ht; simplify_eq/=. }
  apply rtc_refl.
Defined.

Definition sample_rule : rule :=
  {| rule_id := 10; ru_name := "high"; ru_sensor := Some 5%Z; ru_equipment := None; ru_site := None;
     ru_detection := "threshold"; ru_condition := Some "greater_than";
     ru_threshold := res_opt (float_of_Z 100); ru_min := None; ru_max := None; ru_model := None;
     ru_anomaly_threshold := None; ru_severity := "high"; ru_priority := Some 0%Z;
     ru_enabled := Some true; ru_created := Some 0%Z |}.
Definition sample_tenant : tenant_db :=
  {| t_rules := [sample_rule]; t_alerts := []; t_sensors := {[ 5%Z := "pressure" ]}; t_models := ∅;
     t_configs := ∅; t_labels := [] |}.
Definition sample_company : string := "00000000-0000-0000-0000-000000000001".
Definition sample_schema : string := "tenant_00000000_0000_0000_0000_000000000001".
Definition sample_db : db :=
  {| registry := [(sample_schema, true)]; tenants := {[ sample_schema := sample_tenant ]};
     db_now := 0; db_calls := [] |}.

Lemma rules_of_active_tenants_witness :
  ∃ m d', load_all_tenant_rules sample_db = (Ok m, d') ∧
  (∀ c, is_Some (m !! c) ↔ ∃ n t, (n, true) ∈ registry sample_db ∧
     company_id_from_schema n = Ok c ∧ tenants sample_db !! n = Some t) ∧
  (∀ c rs, m !! c = Some rs → rs = [] ∨
     ∃ n t, schema_name c = Ok n ∧ tenants sample_db !! n = Some t ∧
       (∀ r, r ∈ rs ↔ r ∈ t_rules t ∧ ru_enabled r = Some true)).
Proof.
  assert (∃ m d', load_all_tenant_rules sample_db = (Ok m, d')) as (m & d' & H).
  { eexists. eexists. vm_compute. reflexivity. }
  exists m, d'. split; [exact H|]. apply (rules_of_active_tenants sample_db m d' H).
Defined.
