(* ===== verification/RulesEngine.v ===== *)
(** * The rules engine: services/alert_service/worker/rules_engine.py

    [RulesEngine] over the worker's database (AlertDb), its snapshot store
    (FeatureStore) and the ML service.  The ML service's replies are the
    world's [http] list, consumed in order; [wall] is the clock, read once or
    more by a handler.  A log line has no counterpart here. *)

From stdpp Require Import base strings list gmap relations.
From Corelib Require Import SpecFloat.
From Stdlib Require Import ZArith Lia Ascii.
From S2P Require Import Prelude PyText PyNum PyJson Tenancy FeatureStore AlertDb.

Local Open Scope string_scope.

(** ** Readings *)

(** The fields of the dict [parse_reading] returns that the engine reads. *)
Record parsed := {
  p_sensor : string; p_equipment : option string; p_value : float;
  p_time : option string; p_timestamp : option string; p_site : json }.

Definition invalid {A} (reason : string) : res A := Err (MessageValidationError reason).

(** [_uuid_field] *)
Definition _uuid_field (raw : json) (field : string) (required : bool) : res (option string) :=
  match raw with
  | JNull | JStr EmptyString => if required then invalid field else Ok None
  | _ => match json_uuid raw with
         | Some u => Ok (Some (uuid_str u))
         | None => invalid field
         end
  end.

(** A JSON value as an event time. *)
Definition stamp_of (v : json) : stamp :=
  match v with JNull => NoTime | JStr s => TextTime s | _ => OtherTime end.

(** The value as a finite float. *)
Definition value_field (v : json) : res float :=
  match v with
  | JNull | JBool _ => invalid "value"
  | v => match json_float v with
         | Ok f => if is_finite f then Ok f else invalid "value"
         | Err e => if is_value_error e || bool_decide (e = TypeError)
                    then invalid "value" else Err e
         end
  end.

Section times.
Context `{IsoCodec}.

(** [datetime.fromisoformat(ts.replace('Z', '+00:00'))] *)
Definition parse_iso (s : string) : res pydt := fromisoformat (str_replace "Z" "+00:00" s).

Definition as_utc (now : Z) (ts : stamp) : res Z :=
  match ts with
  | TextTime s => t ← parse_iso s; dt_utc t
  | NoTime => Ok now
  | DateTime t => dt_utc t
  | OtherTime => Err AttributeError
  end.

(** One of the two time fields: normalised, or absent. *)
Definition time_field (ts : json) (field : string) : res (option string) :=
  match ts with
  | JNull => Ok None
  | _ => match as_utc 0 (stamp_of ts) with
         | Ok t => Ok (Some (isoformat t))
         | Err e => if is_value_error e || bool_decide (e ∈ [TypeError; AttributeError])
                    then invalid field else Err e
         end
  end.

Definition parse_reading (sensor_data company_id : json) : res parsed :=
  match sensor_data with
  | JDict d =>
      _ ← _uuid_field company_id "company_id" true;
      sensor ← _uuid_field (jget "sensor_id" d) "sensor_id" true;
      equipment ← _uuid_field (jget "equipment_id" d) "equipment_id" false;
      value ← value_field (jget "value" d);
      time ← time_field (jget "time" d) "time";
      timestamp ← time_field (jget "timestamp" d) "timestamp";
      Ok {| p_sensor := default "" sensor; p_equipment := equipment; p_value := value;
            p_time := time; p_timestamp := timestamp; p_site := jget "site_id" d |}
  | _ => invalid "reading is not an object"
  end.
End times.

(** ** Retraining *)

Definition should_recommend_retrain (tp fp recent_drift_alerts : Z)
  (precision_floor : float) (min_labels min_drift_alerts : Z) : res (option float) :=
  let decided := (tp + fp)%Z in
  if Z.ltb decided min_labels then Ok None
  else if Z.ltb recent_drift_alerts min_drift_alerts then Ok None
  else precision ← float_div_int tp decided;
       if fge precision precision_floor then Ok None else Ok (Some precision).

(** ** The world *)

Inductive http_result :=
  | HttpError (e : exn)
  | HttpReply (status : Z) (body : res json).

(** A dedup scope: the tuple's parts, a string or None each. *)
Abbreviation scope := (list (option string)).

Record config := {
  has_feature_store : bool;
  cooldown_us : Z;
  dedup_cache_max : Z;
  feature_max_age : option float }.

(** [sensor_name_cache] is keyed by the company as [evaluate] was given it
    (its text, and whether it was a string) and the sensor; [_last_emit] is
    the OrderedDict, oldest first. *)
Record world := {
  tenant_rules : gmap string (list rule);
  sensor_name_cache : gmap (string * bool * string) string;
  last_emit : list (scope * Z);
  wdb : db;
  wfs : feature_store;
  http : list http_result;
  wall : Z }.

Definition set_names m w := {| tenant_rules := tenant_rules w; sensor_name_cache := m;
  last_emit := last_emit w; wdb := wdb w; wfs := wfs w; http := http w; wall := wall w |}.
Definition set_last_emit l w := {| tenant_rules := tenant_rules w;
  sensor_name_cache := sensor_name_cache w; last_emit := l; wdb := wdb w; wfs := wfs w;
  http := http w; wall := wall w |}.
Definition set_db d w := {| tenant_rules := tenant_rules w;
  sensor_name_cache := sensor_name_cache w; last_emit := last_emit w; wdb := d; wfs := wfs w;
  http := http w; wall := wall w |}.
Definition set_fs s w := {| tenant_rules := tenant_rules w;
  sensor_name_cache := sensor_name_cache w; last_emit := last_emit w; wdb := wdb w; wfs := s;
  http := http w; wall := wall w |}.
Definition set_http l w := {| tenant_rules := tenant_rules w;
  sensor_name_cache := sensor_name_cache w; last_emit := last_emit w; wdb := wdb w; wfs := wfs w;
  http := l; wall := wall w |}.
Definition update_rules (rules : gmap string (list rule)) (w : world) : world :=
  {| tenant_rules := rules; sensor_name_cache := sensor_name_cache w; last_emit := last_emit w;
     wdb := wdb w; wfs := wfs w; http := http w; wall := wall w |}.

Definition in_db {A} (m : M db A) : M world A := zoom wdb set_db m.
Definition in_fs {A} (m : M feature_store A) : M world A := zoom wfs set_fs m.

(** [session.post]: the next reply of the ML service. *)
Definition post : M world (Z * res json) := λ w,
  match http w with
  | [] => (Err ClientError, w)
  | HttpError e :: l => (Err e, set_http l w)
  | HttpReply status body :: l => (Ok (status, body), set_http l w)
  end.

(** ** The dedup cache *)

Fixpoint scope_time (s : scope) (l : list (scope * Z)) : option Z :=
  match l with
  | [] => None
  | (s', t) :: r => if bool_decide (s = s') then Some t else scope_time s r
  end.

Definition _cached_within (s : scope) (at_ window : Z) (l : list (scope * Z)) : bool :=
  match scope_time s l with
  | Some last => Z.ltb (Z.abs (at_ - last)) window
  | None => false
  end.

(** [while len > max: popitem(last=False)], on an empty dict a KeyError. *)
Fixpoint evict (max : Z) (l : list (scope * Z)) : res (list (scope * Z)) :=
  if Z.ltb max (Z.of_nat (length l))
  then match l with [] => Err KeyError | _ :: r => evict max r end
  else Ok l.

(** The dict after [d[s] = at; d.move_to_end(s)]. *)
Definition touch (s : scope) (at_ : Z) (l : list (scope * Z)) : list (scope * Z) :=
  (List.filter (λ e, negb (bool_decide (e.1 = s))) l ++ [(s, at_)])%list.

Section engine.
Context `{I : IsoCodec}.

(** asyncpg's refusal of an argument, [uuid.uuid5] in the alert namespace as
    a UUID number, [str] of a float, and [json.loads] of a column's text. *)
Context (bind_error : exn) (uuid5 : string → Z) (repr_float : float → string)
        (json_text : string → res json).
Context (cfg : config).

(** ** Emitting *)

Definition _remember (s : scope) (at_ : Z) : M world unit := λ w,
  match evict (dedup_cache_max cfg) (touch s at_ (last_emit w)) with
  | Ok l => (Ok tt, set_last_emit l w)
  | Err e => (Err e, set_last_emit [] w)
  end.

Definition alert_name (s : scope) (triggered_at : Z) : string :=
  str_join "|" (part_text <$> s) +:+ "|" +:+ isoformat triggered_at.
Definition deterministic_alert_id (s : scope) (triggered_at : Z) : string :=
  uuid_str (uuid5 (alert_name s triggered_at)).

Definition dedup_scope (a : alert) (retrain : bool) : scope :=
  if retrain then [Some (a_company a); Some "retrain"; a_model a]
  else [Some (a_company a); Some (a_rule a); a_sensor a; a_equipment a].

Definition _emit (a : alert) (retrain : bool) (cooldown : option Z) : M world bool :=
  let s := dedup_scope a retrain in
  let window := default (cooldown_us cfg) cooldown in
  now ← gets wall;
  at_ ← lift (as_utc now (a_triggered a));
  cache ← gets last_emit;
  if _cached_within s at_ window cache then mret false
  else
    '(inserted, prior) ←
      in_db (save_alert_once bind_error a (deterministic_alert_id s at_) at_ window retrain);
    if inserted : bool then _remember s at_ ≫= λ _, mret true
    else match prior with
         | Some p => _remember s p ≫= λ _, mret false
         | None => mret false
         end.

(** ** Readings *)

(** [str(company_id)], and whether it was a string. *)
Definition company_key (c : json) : string * bool :=
  match c with JStr s => (s, true) | JInt z => (str_of_Z z, false) | _ => ("", false) end.

Definition _get_sensor_name (sensor_id : string) (company : string * bool) : M world string :=
  cache ← gets sensor_name_cache;
  match cache !! (company, sensor_id) with
  | Some name => mret name
  | None =>
      name ← in_db (get_sensor_name sensor_id company.1);
      match name with
      | None | Some EmptyString => mret sensor_id
      | Some name => modify (λ w, set_names (<[(company, sensor_id) := name]> (sensor_name_cache w)) w)
                     ≫= λ _, mret name
      end
  end.

Definition rule_applies (sensor : Z) (equipment : option Z) (skip_ml : bool) (r : rule) : bool :=
  bool_decide (ru_enabled r = Some true) &&
  negb (skip_ml && bool_decide (ru_detection r = "ml")) &&
  (bool_decide (ru_sensor r = Some sensor) ||
   bool_decide (is_Some equipment ∧ ru_equipment r = equipment)).

Definition _get_applicable_rules (sensor_id : string) (equipment_id : option string)
  (rules : list rule) (skip_ml : bool) : res (list rule) :=
  match uuid_parse sensor_id with
  | None => invalid "Invalid UUID format"
  | Some s =>
      match equipment_id with
      | None | Some EmptyString => Ok (List.filter (rule_applies s None skip_ml) rules)
      | Some e => match uuid_parse e with
                  | Some u => Ok (List.filter (rule_applies s (Some u) skip_ml) rules)
                  | None => invalid "Invalid UUID format"
                  end
      end
  end.

(** The triggered condition and the threshold it crossed. *)
Definition crossed (value : float) (r : rule) : option (string * float) :=
  match ru_condition r, ru_threshold r with
  | Some (String _ _ as c), Some t =>
      if bool_decide (c = "greater_than") && fgt value t then Some ("greater_than", t)
      else if bool_decide (c = "less_than") && flt value t then Some ("less_than", t)
      else if bool_decide (c = "equals") && feq value t then Some ("equals", t)
      else if bool_decide (c = "not_equals") && fne value t then Some ("not_equals", t)
      else None
  | _, _ =>
      match ru_min r, ru_max r with
      | Some m, mx => if flt value m then Some ("below_min", m)
                      else match mx with
                           | Some x => if fgt value x then Some ("above_max", x) else None
                           | None => None
                           end
      | None, Some x => if fgt value x then Some ("above_max", x) else None
      | None, None => None
      end
  end.

(** The event time of an alert: the reading's text, parsed, or now. *)
Definition event_stamp (now : Z) (ts : option string) : res stamp :=
  match ts with
  | None => Ok (DateTime (Aware now 0))
  | Some s => DateTime <$> parse_iso s
  end.

(** [a or b], of optional texts. *)
Definition or_text (a b : option string) : option string :=
  match a with None | Some EmptyString => b | _ => a end.

Definition _evaluate_threshold (now : Z) (sd : parsed) (r : rule) (company_id : string)
  : res (option alert) :=
  match crossed (p_value sd) r with
  | None => Ok None
  | Some (condition, threshold) =>
      ts ← event_stamp now (or_text (p_time sd) (p_timestamp sd));
      Ok (Some {| a_company := company_id; a_rule := uuid_str (rule_id r);
                  a_sensor := Some (p_sensor sd); a_equipment := p_equipment sd;
                  a_site := p_site sd; a_triggered := ts; a_detection := "threshold";
                  a_actual := JFloat (p_value sd); a_score := JNull; a_model := None;
                  a_threshold := Some threshold; a_condition := Some condition;
                  a_severity := ru_severity r;
                  a_message := [Lit "Threshold alert: "; Lit (ru_name r); Lit " - Value ";
                                Fixed 2 (p_value sd); Lit " is ";
                                Lit (str_replace "_" " " condition)] |})
  end.

(** ** The ML rules *)

(** [f"{v:.4f}"]: what a JSON value formats as. *)
Definition format_number (v : json) : res float :=
  match v with
  | JInt z => float_of_Z z
  | JFloat f => Ok f
  | JBool b => float_of_Z (if b then 1 else 0)
  | JStr _ => Err ValueError
  | JNull | JList _ | JDict _ => Err TypeError
  end.

(** [list(v or [])] *)
Definition list_or_empty (v : json) : res (list json) :=
  if truthy v then
    match v with
    | JList l => Ok l
    | JStr s => Ok ((λ c, JStr (String c "")) <$> String.list_ascii_of_string s)
    | JDict d => Ok ((λ kv, JStr kv.1) <$> d)
    | _ => Err TypeError
    end
  else Ok [].

(** [d.get(k)] where [d] came from the network and may not be a dict. *)
Definition attr_get (v : json) (k : string) : res json :=
  match v with JDict d => Ok (jget k d) | _ => Err AttributeError end.

(** [str(v)] of a value a snapshot or a reading holds, [None] if falsy. *)
Definition text_or_none (v : json) : option string :=
  if truthy v then
    match v with JStr s => Some s | JFloat f => Some (repr_float f) | _ => None end
  else None.

(** The event time of an ML alert, from its [time] or [timestamp]. *)
Definition ml_stamp (now : Z) (v : json) : res stamp :=
  match v with
  | JStr s => DateTime <$> parse_iso s
  | v => Ok (if truthy v then OtherTime else DateTime (Aware now 0))
  end.

Definition degraded_text (neutralized : list json) : list part :=
  Lit " [DEGRADED: scored with stateful features neutralized" ::
  (match neutralized with [] => [] | _ => [Lit ": "; Shown (JList neutralized)] end ++
   [Lit "; treat as lower-confidence]"])%list.

(** The alert of an anomalous reply, or nothing. *)
Definition ml_alert (now : Z) (get : string → json) (r : rule) (company_id : string) (model : Z)
  (reply : json) : res (option alert) :=
  anomalous ← attr_get reply "is_anomaly";
  if negb (truthy anomalous) then Ok None
  else
    let when := if truthy (get "time") then get "time" else get "timestamp" in
    ts ← ml_stamp now when;
    score ← attr_get reply "prediction";
    shown ← format_number score;
    neutral ← attr_get reply "neutralized_features";
    neutralized ← list_or_empty neutral;
    flag ← attr_get reply "degraded";
    let degraded := truthy flag || negb (bool_decide (length neutralized = 0%nat)) in
    let shown_threshold := match ru_anomaly_threshold r with Some t => JFloat t | None => JNull end in
    Ok (Some {| a_company := company_id; a_rule := uuid_str (rule_id r);
                a_sensor := match text_or_none (get "sensor_id") with
                            | Some s => Some s
                            | None => uuid_str <$> ru_sensor r
                            end;
                a_equipment := text_or_none (get "equipment_id");
                a_site := get "site_id"; a_triggered := ts; a_detection := "ml";
                a_actual := get "value"; a_score := score; a_model := Some (uuid_str model);
                a_threshold := ru_anomaly_threshold r; a_condition := Some "ml_anomaly";
                a_severity := ru_severity r;
                a_message := [Lit "ML anomaly detected: "; Lit (ru_name r); Lit " - Anomaly score ";
                              Fixed 4 shown; Lit " exceeds threshold "; Shown shown_threshold] ++
                             (if degraded then degraded_text neutralized else []) |})%list.

Definition _evaluate_ml (get : string → json) (r : rule) (company_id : string)
  : M world (option alert) :=
  match ru_model r with
  | None => mret None
  | Some model =>
      catch ('(status, body) ← post;
             if negb (Z.eqb status 200) then mret None
             else reply ← lift body;
                  now ← gets wall;
                  lift (ml_alert now get r company_id model reply))
            (λ _, mret None)
  end.

(** A reading's fields as the ML path reads them. *)
Definition parsed_get (sd : parsed) (k : string) : json :=
  let opt o := match o with Some s => JStr s | None => JNull end in
  if bool_decide (k = "time") then opt (p_time sd)
  else if bool_decide (k = "timestamp") then opt (p_timestamp sd)
  else if bool_decide (k = "sensor_id") then JStr (p_sensor sd)
  else if bool_decide (k = "equipment_id") then opt (p_equipment sd)
  else if bool_decide (k = "value") then JFloat (p_value sd)
  else if bool_decide (k = "site_id") then p_site sd
  else JNull.

Definition _evaluate_rule (sd : parsed) (r : rule) (company_id : string) : M world (option alert) :=
  if bool_decide (ru_detection r = "threshold") then
    now ← gets wall; lift (_evaluate_threshold now sd r company_id)
  else if bool_decide (ru_detection r = "ml") then _evaluate_ml (parsed_get sd) r company_id
  else mret None.

(** [if alert and await self._emit(alert): triggered.append(alert)] *)
Definition emit_found (acc : list alert) (found : option alert) : M world (list alert) :=
  match found with
  | None => mret acc
  | Some a =>
      written ← _emit a false None;
      mret (if written : bool then acc ++ [a] else acc)%list
  end.

Definition evaluate_step (sd : parsed) (company_id : string) (acc : list alert) (r : rule)
  : M world (list alert) :=
  found ← _evaluate_rule sd r company_id; emit_found acc found.

(** The snapshot write of [evaluate]: the sensor's name comes from the
    database, whose failure propagates; the store's is swallowed. *)
Definition store_for_ml (sd : parsed) (company : string * bool) : M world unit :=
  match p_equipment sd with
  | Some (String _ _ as equipment) =>
      if has_feature_store cfg then
        name ← _get_sensor_name (p_sensor sd) company;
        now ← gets wall;
        let ts := default (isoformat now) (or_text (p_timestamp sd) (p_time sd)) in
        catch (in_fs (store_reading now company.1 equipment name ts (p_value sd))) (λ _, mret tt)
      else mret tt
  | _ => mret tt
  end.

Definition rules_for (company : string * bool) (w : world) : list rule :=
  if company.2 then default [] (tenant_rules w !! company.1) else [].

Definition evaluate (sensor_data company_id : json) : M world (list alert) :=
  sd ← lift (parse_reading sensor_data company_id);
  let company := company_key company_id in
  _ ← store_for_ml sd company;
  rules ← gets (rules_for company);
  match rules with
  | [] => mret []
  | _ =>
      applicable ← lift (_get_applicable_rules (p_sensor sd) (p_equipment sd) rules true);
      foldM (evaluate_step sd company.1) [] applicable
  end.

(** [for x in l: try: body  except Exception: continue]: a failed body leaves
    the list it was given. *)
Definition each_guarded {A} (body : list alert → A → M world (list alert)) (l : list A)
  : M world (list alert) :=
  foldM (λ acc x, catch (body acc x) (λ _, mret acc)) [] l.

Definition _get_feature_config_for_model (model : Z) (company_id : string) : M world (option Z) :=
  catch (m ← in_db (get_model_by_id (uuid_str model) company_id);
         mret (match m with Some c => c | None => None end))
        (λ _, mret None).

(** The sensor names of [base_sensors], a JSON column as asyncpg gives it: a
    text is parsed first, a dict iterates its keys and a text its
    characters.  An element the store's keys could not spell is refused. *)
Definition name_of (v : json) : res string :=
  match v with JStr s => Ok s | JInt z => Ok (str_of_Z z) | _ => Err TypeError end.
Fixpoint names_of (l : list json) : res (list string) :=
  match l with
  | [] => Ok []
  | v :: r => n ← name_of v; ns ← names_of r; Ok (n :: ns)
  end.
Definition base_sensors_of (column : json) : res (list string) :=
  v ← (match column with JStr s => json_text s | v => Ok v end);
  l ← list_or_empty v; names_of l.

(** The dict [_evaluate_ml] is given: the snapshot over the event time and
    the equipment. *)
Definition snapshot_get (snapshot : gmap string float) (timestamp equipment_id k : string) : json :=
  if bool_decide (k = "equipment_id") then JStr equipment_id
  else match snapshot !! k with
       | Some v => JFloat v
       | None => if bool_decide (k = "timestamp") then JStr timestamp else JNull
       end.

Definition ml_rule_step (equipment_id company_id : string) (timestamp : option string)
  (acc : list alert) (r : rule) : M world (list alert) :=
  match ru_model r with
  | None => mret acc
  | Some model =>
      config_id ← _get_feature_config_for_model model company_id;
      match config_id with
      | None => mret acc
      | Some config_id =>
          column ← in_db (get_feature_config (uuid_str config_id) company_id);
          match column with
          | None => mret acc
          | Some column =>
              names ← lift (base_sensors_of column);
              match names with
              | [] => mret acc
              | _ =>
                  now ← gets wall;
                  '(snapshot, as_of) ← in_fs (get_current_snapshot now company_id equipment_id names
                                                (feature_max_age cfg));
                  if (size snapshot <? length names)%nat then mret acc
                  else
                    let event_time := or_text timestamp (isoformat <$> as_of) in
                    let ts := default (isoformat now) event_time in
                    found ← _evaluate_ml (snapshot_get snapshot ts equipment_id) r company_id;
                    emit_found acc found
              end
          end
      end
  end.

Definition ml_rule_for (equipment_id : string) (r : rule) : bool :=
  bool_decide (ru_enabled r = Some true) && bool_decide (ru_detection r = "ml") &&
  bool_decide (match ru_equipment r with Some u => uuid_str u | None => "None" end = equipment_id).

Definition evaluate_equipment_ml_rules (equipment_id company_id : string)
  (timestamp : option string) : M world (list alert) :=
  if has_feature_store cfg then
    rules ← gets (rules_for (company_id, true));
    each_guarded (ml_rule_step equipment_id company_id timestamp)
                 (List.filter (ml_rule_for equipment_id) rules)
  else mret [].

(** ** Drift *)

Definition drift_rule (r : rule) : bool :=
  bool_decide (ru_enabled r = Some true) && bool_decide (ru_detection r = "statistical") &&
  bool_decide (is_Some (ru_model r)).

(** An int compared with a float exactly, as Python compares them. *)
Definition int_gt_float (z : Z) (f : float) : bool :=
  match f with
  | S754_zero _ => Z.ltb 0 z
  | S754_infinity neg => neg
  | S754_nan => false
  | S754_finite neg m e =>
      let v := if neg then Z.neg m else Z.pos m in
      if Z.leb 0 e then Z.ltb (v * 2 ^ e) z else Z.ltb v (z * 2 ^ (- e))
  end.
(** [share > threshold], the share a JSON value. *)
Definition json_gt (v : json) (t : float) : res bool :=
  match v with
  | JFloat f => Ok (fgt f t)
  | JInt z => Ok (int_gt_float z t)
  | JBool b => Ok (int_gt_float (if b then 1 else 0) t)
  | _ => Err TypeError
  end.

(** The alert of a drift reply, or nothing. *)
Definition drift_alert (now : Z) (r : rule) (company_id : string) (model : Z) (threshold : float)
  (reply : json) : res (option alert) :=
  status ← attr_get reply "status";
  if negb (match status with JStr s => bool_decide (s = "ok") | _ => false end) then Ok None
  else
    data ← (match reply with
            | JDict d => Ok (default (JDict []) (dict_lookup "data_drift" d))
            | _ => Err AttributeError
            end);
    share ← attr_get data "drift_share";
    prediction ← attr_get reply "prediction_drift";
    data_drifted ← (if is_null share then Ok false else json_gt share threshold);
    pred ← attr_get (if truthy prediction then prediction else JDict []) "drifted";
    let pred_drifted := truthy pred in
    if negb (data_drifted || pred_drifted) then Ok None
    else
      shown ← (if is_null share then Ok [Lit "n/a"]
               else (λ f, [Fixed 2 f]) <$> format_number share);
      Ok (Some {| a_company := company_id; a_rule := uuid_str (rule_id r);
                  a_sensor := uuid_str <$> ru_sensor r; a_equipment := uuid_str <$> ru_equipment r;
                  a_site := match ru_site r with Some s => JStr s | None => JNull end;
                  a_triggered := DateTime (Aware now 0); a_detection := "statistical";
                  a_actual := share; a_score := share; a_model := Some (uuid_str model);
                  a_threshold := Some threshold; a_condition := Some "drift";
                  a_severity := ru_severity r;
                  a_message := [Lit "Model drift: "; Lit (ru_name r); Lit " — input drift share "] ++
                    shown ++ [Lit " vs threshold "; Fixed 2 threshold;
                      Lit ". Distribution has shifted from training; consider retraining (this flags change, not a model-correctness failure)."] ++
                    (if pred_drifted then [Lit " Prediction-output drift also detected."] else []) |})%list.

Definition drift_request : M world (option json) :=
  catch ('(status, body) ← post;
         if negb (Z.eqb status 200) then mret None
         else reply ← lift body; mret (Some reply))
        (λ e, match e with ClientError => mret None | e => raise e end).

Definition _evaluate_drift (default_share_threshold : float) (r : rule) (company_id : string)
  : M world (option alert) :=
  let threshold := default default_share_threshold (ru_threshold r) in
  reply ← drift_request;
  match reply, ru_model r with
  | Some reply, Some model =>
      now ← gets wall; lift (drift_alert now r company_id model threshold reply)
  | _, _ => mret None
  end.

Definition drift_step (default_share_threshold : float) (company_id : string)
  (acc : list alert) (r : rule) : M world (list alert) :=
  found ← _evaluate_drift default_share_threshold r company_id; emit_found acc found.

Definition evaluate_drift_rules (company_id : string) (default_share_threshold : float)
  : M world (list alert) :=
  rules ← gets (rules_for (company_id, true));
  each_guarded (drift_step default_share_threshold company_id) (List.filter drift_rule rules).

(** ** Retrain recommendations *)

Record retrain_config := {
  precision_floor : float; min_labels : Z; min_drift_alerts : Z;
  precision_window_days : Z; drift_lookback_hours : Z;
  retrain_cooldown_us : Z; retrain_severity : string }.

Definition _build_retrain_alert (now : Z) (r : rule) (company_id : string) (model : Z)
  (precision : float) (s : signals) (severity : string) : alert :=
  {| a_company := company_id; a_rule := uuid_str (rule_id r);
     a_sensor := uuid_str <$> ru_sensor r; a_equipment := uuid_str <$> ru_equipment r;
     a_site := match ru_site r with Some s => JStr s | None => JNull end;
     a_triggered := DateTime (Aware now 0); a_detection := "statistical";
     a_actual := JFloat precision; a_score := JFloat precision; a_model := Some (uuid_str model);
     a_threshold := None; a_condition := Some RETRAIN; a_severity := severity;
     a_message := [Lit "Retrain recommended: "; Lit (ru_name r); Lit " — operator-labelled precision ";
                   Fixed 2 precision; Lit " over "; Shown (JInt (s_tp s + s_fp s));
                   Lit " label(s), with "; Shown (JInt (s_drift s));
                   Lit " recent drift alert(s). Sustained drift together with falling precision suggests the model has decayed; retrain it (manual/notebook flow)."] |}.

Definition retrain_step (rc : retrain_config) (company_id : string) (acc : list alert)
  (r : rule) : M world (list alert) :=
  match ru_model r with
  | None => mret acc
  | Some model =>
      s ← in_db (get_retrain_signals (uuid_str model) company_id
                   (precision_window_days rc) (drift_lookback_hours rc));
      precision ← lift (should_recommend_retrain (s_tp s) (s_fp s) (s_drift s)
                          (precision_floor rc) (min_labels rc) (min_drift_alerts rc));
      match precision with
      | None => mret acc
      | Some p =>
          now ← gets wall;
          let a := _build_retrain_alert now r company_id model p s (retrain_severity rc) in
          written ← _emit a true (Some (retrain_cooldown_us rc));
          mret (if written : bool then acc ++ [a] else acc)%list
      end
  end.

(** The first rule of each model. *)
Fixpoint first_per_model (seen : list (option Z)) (rules : list rule) : list rule :=
  match rules with
  | [] => []
  | r :: rest => if bool_decide (ru_model r ∈ seen) then first_per_model seen rest
                 else r :: first_per_model (ru_model r :: seen) rest
  end.

Definition evaluate_retrain_recommendations (rc : retrain_config) (company_id : string)
  : M world (list alert) :=
  rules ← gets (rules_for (company_id, true));
  each_guarded (retrain_step rc company_id)
               (first_per_model [] (List.filter drift_rule rules)).
End engine.

(** ** What the handlers do to the database *)

(** A tenant's tables before and after: only its alerts may differ, by saves,
    and only in the schema [mine]. *)
Section saves.
Context (aw rw : Z) (mine : string → Prop).

Definition tenant_saves (schema : string) (o o' : option tenant_db) : Prop :=
  match o, o' with
  | Some t, Some t' =>
      t' = set_alerts (t_alerts t') t ∧ rtc (save_step aw rw) (t_alerts t) (t_alerts t') ∧
      (mine schema ∨ t_alerts t' = t_alerts t)
  | None, None => True
  | _, _ => False
  end.

Definition db_saves (d d' : db) : Prop :=
  registry d' = registry d ∧ ∀ s, tenant_saves s (tenants d !! s) (tenants d' !! s).

Lemma set_alerts_id t : set_alerts (t_alerts t) t = t.
Proof. by destruct t. Qed.

Lemma tenant_saves_refl s o : tenant_saves s o o.
Proof. destruct o as [t|]; simpl; [|done]. rewrite set_alerts_id. split_and!; [done | done | by right]. Qed.

#[export] Instance db_saves_preorder : PreOrder db_saves.
Proof.
  split.
  - intros d. split; [done|]. intros s. apply tenant_saves_refl.
  - intros d1 d2 d3 [R12 H12] [R23 H23]. split; [congruence|]. intros s.
    specialize (H12 s). specialize (H23 s). unfold tenant_saves in *.
    destruct (tenants d1 !! s) as [t1|], (tenants d2 !! s) as [t2|], (tenants d3 !! s) as [t3|];
      try done.
    destruct H12 as (E2 & S12 & M12), H23 as (E3 & S23 & M23). split_and!.
    + rewrite E3, E2. done.
    + by etrans.
    + destruct M12 as [? | M12]; [by left|]. destruct M23 as [? | M23]; [by left|]. right. congruence.
Qed.

Lemma db_saves_data d d' : registry d' = registry d → tenants d' = tenants d → db_saves d d'.
Proof. intros Hr Ht. split; [done|]. intros s. rewrite Ht. apply tenant_saves_refl. Qed.

Lemma saves_next_call : respects db_saves next_db_call.
Proof.
  intros d. unfold final, next_db_call. destruct (first_call _). by apply db_saves_data.
Qed.

Lemma saves_read {A} schema (f : tenant_db → res (A * tenant_db)) :
  (∀ t a t', f t = Ok (a, t') → t' = t) → respects db_saves (in_tenant schema f).
Proof.
  intros Hf d. unfold final. destruct (in_tenant schema f d) as [r d'] eqn:E.
  apply in_tenant_read in E as [(Hr & Ht & _) _]; [|done]. by apply db_saves_data.
Qed.

Lemma saves_insert d schema t t' :
  tenants d !! schema = Some t → tenant_saves schema (Some t) (Some t') →
  db_saves d (set_tenants (<[schema := t']> (tenants d)) d).
Proof.
  intros Hs Ht. split; [done|]. intros s. simpl. destruct (decide (schema = s)) as [<- | Hne].
  - by rewrite lookup_insert_eq, Hs.
  - rewrite lookup_insert_ne by done. apply tenant_saves_refl.
Qed.

(** A transaction whose statements make saves respects the relation,
    whichever of its calls fails. *)
Lemma saves_tenant {A} schema (f : tenant_db → res (A * tenant_db)) :
  (∀ t a t', f t = Ok (a, t') → tenant_saves schema (Some t) (Some t')) →
  respects db_saves (in_tenant schema f).
Proof.
  intros Hf d. unfold final, in_tenant, mbind, M_bind, next_db_call.
  destruct (first_call (db_calls d)) as [c l]. set (d1 := set_db_calls l d).
  assert (db_saves d d1) as H1 by (by apply db_saves_data).
  destruct c; [|done..]. simpl. change (tenants d) with (tenants d1).
  destruct (tenants d1 !! schema) as [t|] eqn:Et; [|done].
  unfold commit_tenant. destruct (f t) as [[a t']|e] eqn:Ef; [|done].
  unfold mbind, M_bind, next_db_call. destruct (first_call (db_calls d1)) as [c l'].
  set (d2 := set_db_calls l' d1). assert (db_saves d d2) as H2 by (by apply db_saves_data).
  destruct c; simpl; [|done|]; (etrans; [exact H2|]);
    apply (saves_insert d2 schema t t'); [done | eauto | done | eauto].
Qed.

Lemma saves_save_alert_once bind_error a id at_ (retrain : bool) :
  (∀ n, schema_name (a_company a) = Ok n → mine n) → alert_retrain a = retrain →
  respects db_saves (save_alert_once bind_error a id at_ (if retrain then rw else aw) retrain).
Proof.
  intros Hm Hk d. unfold final, save_alert_once, mbind, M_bind, lift.
  destruct (schema_name (a_company a)) as [n|e] eqn:Hn; [|done].
  apply (saves_tenant n). intros t [ins p] t' E.
  apply res_bind_inv_ok in E as (r & Hr & E). apply bind_row_inv in Hr as (_ & _ & _ & _ & _ & _ & Hc).
  destruct (save_once retrain _ r (t_alerts t)) as [v l] eqn:Es. injection E as _ <-.
  split; [by destruct t|]. split; [|by left; apply Hm].
  apply rtc_once. exists r. simpl. unfold window_of, is_retrain. rewrite Hc.
  fold (alert_retrain a). rewrite Hk, Es. done.
Qed.
End saves.

Lemma db_saves_mono aw rw (mine mine' : string → Prop) d d' :
  (∀ s, mine s → mine' s) → db_saves aw rw mine d d' → db_saves aw rw mine' d d'.
Proof.
  intros Hm [Hr Hs]. split; [done|]. intros s. specialize (Hs s). unfold tenant_saves in *.
  destruct (tenants d !! s), (tenants d' !! s); naive_solver.
Qed.

(** ** The dedup cache knows only alerts the database holds *)

Section cache.
Context (bind_error : exn).

(** The database holds an alert of the scope [s] at the event time [t]. *)
Definition scope_known (d : db) (s : scope) (t : Z) : Prop :=
  ∃ a retrain id at_ r n tdb x,
    dedup_scope a retrain = s ∧ bind_row bind_error a id at_ = Ok r ∧
    schema_name (a_company a) = Ok n ∧ tenants d !! n = Some tdb ∧
    x ∈ t_alerts tdb ∧ in_scope retrain r x = true ∧ w_at x = t.

Definition cache_sound (w : world) : Prop :=
  ∀ s t, (s, t) ∈ last_emit w → scope_known (wdb w) s t.

Lemma saves_elem aw rw t t' x : rtc (save_step aw rw) t t' → x ∈ t → x ∈ t'.
Proof. induction 1 as [|a b c (r & ->) _ IH]; [done|]. intros Hx. by apply IH, save_once_keeps. Qed.

Lemma scope_known_mono aw rw mine d d' s t :
  db_saves aw rw mine d d' → scope_known d s t → scope_known d' s t.
Proof.
  intros [_ Hd] (a & k & id & at_ & r & n & tdb & x & Hs & Hb & Hn & Ht & Hx & Hk & Hw).
  specialize (Hd n). rewrite Ht in Hd. simpl in Hd.
  destruct (tenants d' !! n) as [t'|] eqn:Ht'; [|done]. destruct Hd as (_ & Hr & _).
  exists a, k, id, at_, r, n, t', x. split_and!; try done. by eapply saves_elem.
Qed.

(** A scope's string form determines the rows it selects. *)
Lemma dedup_scope_inj a b k k' : dedup_scope a k = dedup_scope b k' →
  k = k' ∧ a_company a = a_company b ∧
  if k then a_model a = a_model b
  else a_rule a = a_rule b ∧ a_sensor a = a_sensor b ∧ a_equipment a = a_equipment b.
Proof. destruct k, k'; simpl; intros [=]; done. Qed.

Lemma same_scope_rows a b k ia ib ta tb r x :
  dedup_scope a k = dedup_scope b k →
  bind_row bind_error a ia ta = Ok r → bind_row bind_error b ib tb = Ok x →
  ∀ y, in_scope k r y = in_scope k x y.
Proof.
  intros (_ & _ & Hp)%dedup_scope_inj (_ & _ & A1 & A2 & A3 & A4 & _)%bind_row_inv
    (_ & _ & B1 & B2 & B3 & B4 & _)%bind_row_inv y.
  destruct k; unfold in_scope, retrain_scope, alert_scope; apply bool_decide_ext.
  - assert (w_model r = w_model x) as -> by congruence. done.
  - destruct Hp as (E1 & E2 & E3).
    assert (w_rule r = w_rule x) as -> by congruence.
    assert (w_sensor r = w_sensor x) as -> by congruence.
    assert (w_equipment r = w_equipment x) as -> by congruence. done.
Qed.

(** What a save that returns did. *)
Lemma save_alert_once_ok a id at_ window k d ins prior d' :
  save_alert_once bind_error a id at_ window k d = (Ok (ins, prior), d') →
  ∃ n t r l, schema_name (a_company a) = Ok n ∧ tenants d !! n = Some t ∧
    bind_row bind_error a id at_ = Ok r ∧
    save_once k window r (t_alerts t) = ((ins, prior), l) ∧
    tenants d' = <[n := set_alerts l t]> (tenants d).
Proof.
  unfold save_alert_once. intros (n & d1 & Hn & E)%bind_inv_ok. injection Hn as Hn <-.
  unfold in_tenant in E. apply bind_inv_ok in E as (c & d2 & Ec & E).
  assert (tenants d2 = tenants d) as Hd2
    by (unfold next_db_call in Ec; destruct (first_call _); by injection Ec as _ <-).
  destruct c; [|done..]. apply bind_inv_ok in E as (d3 & d4 & Eg & E). injection Eg as <- <-.
  rewrite Hd2 in E. destruct (tenants d !! n) as [t|] eqn:Ht; [|done].
  unfold commit_tenant in E.
  destruct (bind_row bind_error a id at_) as [r|e] eqn:Hb; [|done]. rewrite res_bind_ok in E.
  destruct (save_once k window r (t_alerts t)) as [v l] eqn:Hs.
  apply bind_inv_ok in E as (c & d5 & Ec' & E).
  assert (tenants d5 = tenants d2) as Hd5
    by (unfold next_db_call in Ec'; destruct (first_call _); by injection Ec' as _ <-).
  destruct c; [|done|done]. injection E as -> <-. exists n, t, r, l.
  split_and!; try done. simpl. by rewrite Hd5, Hd2.
Qed.
End cache.

Lemma scope_time_elem s l t : scope_time s l = Some t → (s, t) ∈ l.
Proof.
  induction l as [|[s' u] l IH]; [done|]. simpl. case_bool_decide as E; [|intros H; right; auto].
  intros [= ->]. subst. left.
Qed.

Lemma touch_elem s at_ l e : e ∈ touch s at_ l → e ∈ l ∨ e = (s, at_).
Proof.
  unfold touch. rewrite elem_of_app, list_elem_of_singleton, filter_elem. naive_solver.
Qed.

Lemma evict_ok max l l' : evict max l = Ok l' →
  (∀ e, e ∈ l' → e ∈ l) ∧ (Z.of_nat (length l') ≤ max)%Z.
Proof.
  induction l as [|x l IH]; simpl.
  - destruct (Z.ltb_spec max (Z.of_nat 0)); [done|]. intros [= <-]. split; [done | simpl; lia].
  - destruct (Z.ltb_spec max (Z.of_nat (S (length l)))); [|intros [= <-]; split; [done | simpl; lia]].
    intros H1. destruct (IH H1) as [Hs Hl]. split; [|done]. intros e He. right. auto.
Qed.

(** The handlers' relation on worlds: the database is saved into as above,
    the rules and the clock stay, a sound dedup cache stays sound and a bounded
    one bounded. *)
Definition world_saves (bind_error : exn) (cfg : config) (rw : Z) (mine : string → Prop)
  (w w' : world) : Prop :=
  db_saves (cooldown_us cfg) rw mine (wdb w) (wdb w') ∧
  tenant_rules w' = tenant_rules w ∧ wall w' = wall w ∧
  (cache_sound bind_error w → cache_sound bind_error w') ∧
  ((Z.of_nat (length (last_emit w)) ≤ dedup_cache_max cfg)%Z →
   (Z.of_nat (length (last_emit w')) ≤ dedup_cache_max cfg)%Z).

#[export] Instance world_saves_preorder bind_error cfg rw mine :
  PreOrder (world_saves bind_error cfg rw mine).
Proof.
  split.
  - intros w. unfold world_saves. split_and!; done.
  - intros w1 w2 w3 (H1 & H2 & H3 & H4 & H5) (J1 & J2 & J3 & J4 & J5).
    split_and!; [by etrans | congruence | congruence | auto | auto].
Qed.

Section handlers.
Context `{I : IsoCodec}.
Context (bind_error : exn) (uuid5 : string → Z) (repr_float : float → string)
        (json_text : string → res json).
Context (cfg : config) (rw : Z) (company_id : string).

Definition mine_of (s : string) : Prop := schema_name company_id = Ok s.
Abbreviation R := (world_saves bind_error cfg rw mine_of).

(** A step that leaves the engine's own state alone. *)
Lemma world_saves_db w w' :
  db_saves (cooldown_us cfg) rw mine_of (wdb w) (wdb w') →
  tenant_rules w' = tenant_rules w → wall w' = wall w → last_emit w' = last_emit w → R w w'.
Proof.
  intros Hd Hr Ht Hl. split_and!; try done.
  - intros Hs s t Hin. rewrite Hl in Hin. eapply scope_known_mono; [exact Hd | auto].
  - by rewrite Hl.
Qed.

Lemma in_db_saves {A} (m : M db A) :
  respects (db_saves (cooldown_us cfg) rw mine_of) m → respects R (in_db m).
Proof. apply respects_zoom. intros w d Hd. by apply world_saves_db. Qed.

Lemma in_fs_saves {A} (m : M feature_store A) : respects R (in_fs m).
Proof.
  apply (respects_zoom _ _ _ (λ _ _, True)); [|done]. intros w s _. by apply world_saves_db.
Qed.

Lemma post_saves : respects R post.
Proof. intros w. unfold final, post. by destruct (http w) as [|[]]; apply world_saves_db. Qed.

Lemma modify_saves f :
  (∀ w, wdb (f w) = wdb w ∧ tenant_rules (f w) = tenant_rules w ∧ wall (f w) = wall w ∧
        last_emit (f w) = last_emit w) → respects R (modify f).
Proof.
  intros Hf w. destruct (Hf w) as (Hd & ? & ? & ?). apply world_saves_db; try done.
  unfold final. simpl. by rewrite Hd.
Qed.

Lemma read_saves {A} n (f : string → tenant_db → res (A * tenant_db)) :
  (∀ s t a t', f s t = Ok (a, t') → t' = t) →
  respects (db_saves (cooldown_us cfg) rw mine_of) (lift n ≫= λ s, in_tenant s (f s)).
Proof.
  intros Hf. apply respects_bind; [apply _ | apply respects_lift; apply _|].
  intros s. apply saves_read. eauto.
Qed.

(** An alert of this company's, of the kind given. *)
Definition own_alert (retrain : bool) (a : alert) : Prop :=
  a_company a = company_id ∧ alert_retrain a = retrain ∧ (retrain = true → is_Some (a_model a)).

(** Remembering a time at which the database holds the scope. *)
Lemma remember_saves s at_ w :
  scope_known bind_error (wdb w) s at_ → R w (final (_remember cfg s at_) w).
Proof.
  intros Hk. unfold final, _remember. destruct (evict _ _) as [l|e] eqn:He; simpl.
  - apply evict_ok in He as [Hsub Hlen]. split_and!; try done.
    + intros Hs s' t' Hin%Hsub%touch_elem. destruct Hin as [Hin | [= -> ->]]; [by apply Hs | done].
  - split_and!; try done.
    + intros _ s' t' Hin. by apply elem_of_nil in Hin.
    + simpl. lia.
Qed.

Lemma own_in_scope a retrain id at_ r :
  own_alert retrain a → bind_row bind_error a id at_ = Ok r → in_scope retrain r r = true.
Proof.
  intros (_ & Hk & Hm) (_ & _ & _ & _ & _ & Hmo & Hc)%bind_row_inv.
  unfold alert_retrain in Hk. destruct retrain; simpl; apply bool_decide_eq_true; bool_hyps.
  - rewrite Hc. split_and!; [|done|done]. destruct (Hm eq_refl) as [m Em].
    rewrite Em in Hmo. simpl in Hmo. destruct (uuid_arg bind_error m); [|done].
    injection Hmo as <-. by eexists.
  - rewrite Hc. by split_and!.
Qed.

Lemma emit_saves a retrain cooldown :
  own_alert retrain a →
  default (cooldown_us cfg) cooldown = (if retrain then rw else cooldown_us cfg) →
  respects R (_emit bind_error uuid5 cfg a retrain cooldown).
Proof.
  intros Ha Hw. unfold _emit. rewrite Hw.
  apply respects_bind; [apply _ | apply respects_gets; apply _|]. intros now.
  apply respects_bind; [apply _ | apply respects_lift; apply _|]. intros at_.
  apply respects_bind; [apply _ | apply respects_gets; apply _|]. intros cache.
  destruct (_cached_within _ _ _ _); [apply respects_ret; apply _|].
  intros w. unfold final, mbind, M_bind, in_db, zoom.
  set (id := deterministic_alert_id uuid5 _ _).
  pose proof (saves_save_alert_once (cooldown_us cfg) rw mine_of bind_error a id at_ retrain) as Hs.
  specialize (Hs ltac:(intros n; by rewrite (proj1 Ha)) (proj1 (proj2 Ha)) (wdb w)). unfold final in Hs.
  destruct (save_alert_once _ _ _ _ _ _ (wdb w)) as [[[ins prior]|e] d'] eqn:E; simpl in Hs;
    [|by apply world_saves_db].
  etrans; [by apply (world_saves_db w (set_db d' w))|].
  apply save_alert_once_ok in E as (n & t & r & l & Hn & Ht & Hb & Hso & Hd').
  assert (Hknown : ∀ x, x ∈ l → in_scope retrain r x = true →
            scope_known bind_error (wdb (set_db d' w)) (dedup_scope a retrain) (w_at x)).
  { intros x Hx Hin. exists a, retrain, id, at_, r, n, (set_alerts l t), x.
    split_and!; try done. simpl. by rewrite Hd', lookup_insert_eq. }
  unfold save_once in Hso. destruct (prior_at _ _ _ _) as [p|] eqn:Hp.
  - injection Hso as <- <- <-. apply prior_at_some in Hp as (x & Hx & Hsc & _ & ->).
    pose proof (remember_saves (dedup_scope a retrain) (w_at x) (set_db d' w) (Hknown x Hx Hsc)) as Hr.
    unfold final in Hr. destruct (_remember _ _ _ _) as [[u|e] w2]; exact Hr.
  - destruct (existsb _ _); injection Hso as <- <- <-; [done|].
    pose proof (own_in_scope _ _ _ _ _ Ha Hb) as Hin.
    assert (w_at r = at_) as Hat by (by apply bind_row_inv in Hb as (_ & ? & _)).
    pose proof (remember_saves (dedup_scope a retrain) at_ (set_db d' w)) as Hr.
    rewrite <- Hat in Hr at 1. specialize (Hr (Hknown r ltac:(apply elem_of_app; right; by left) Hin)).
    unfold final in Hr. destruct (_remember _ _ _ _) as [[u|e] w2]; exact Hr.
Qed.

Lemma emit_found_saves acc found :
  (∀ a, found = Some a → own_alert false a) →
  respects R (emit_found bind_error uuid5 cfg acc found).
Proof.
  intros Hf. unfold emit_found. destruct found as [a|]; [|apply respects_ret, _].
  apply respects_bind; [apply _ | apply emit_saves; [by apply Hf | done] |].
  intros b. apply respects_ret, _.
Qed.

Lemma crossed_not_retrain v r c t : crossed v r = Some (c, t) → Some c ≠ Some RETRAIN.
Proof. unfold crossed. intros H E. repeat case_match; simplify_eq/=. Qed.

Lemma threshold_own now sd r a :
  _evaluate_threshold now sd r company_id = Ok (Some a) → own_alert false a.
Proof.
  unfold _evaluate_threshold. destruct (crossed _ _) as [[c t]|] eqn:Hc; [|done].
  intros (ts & _ & [= <-])%res_bind_inv_ok. split; [done|]. split; [|done].
  unfold alert_retrain. simpl. apply bool_decide_eq_false. by eapply crossed_not_retrain.
Qed.

Lemma ml_own now get r model reply a :
  ml_alert repr_float now get r company_id model reply = Ok (Some a) → own_alert false a.
Proof.
  unfold ml_alert. intros (an & _ & H)%res_bind_inv_ok. destruct (negb _); [done|].
  apply res_bind_inv_ok in H as (? & _ & H). apply res_bind_inv_ok in H as (? & _ & H).
  apply res_bind_inv_ok in H as (? & _ & H). apply res_bind_inv_ok in H as (? & _ & H).
  apply res_bind_inv_ok in H as (? & _ & H). apply res_bind_inv_ok in H as (? & _ & [= <-]).
  by split_and!.
Qed.

Lemma drift_own now r model t reply a :
  drift_alert now r company_id model t reply = Ok (Some a) → own_alert false a.
Proof.
  unfold drift_alert. intros (st & _ & H)%res_bind_inv_ok. destruct (negb _); [done|].
  apply res_bind_inv_ok in H as (? & _ & H). apply res_bind_inv_ok in H as (? & _ & H).
  apply res_bind_inv_ok in H as (? & _ & H). apply res_bind_inv_ok in H as (? & _ & H).
  apply res_bind_inv_ok in H as (? & _ & H). destruct (negb _); [done|].
  apply res_bind_inv_ok in H as (? & _ & [= <-]). by split_and!.
Qed.

Lemma evaluate_ml_saves get r : respects R (_evaluate_ml repr_float get r company_id).
Proof.
  unfold _evaluate_ml. destruct (ru_model r); [|apply respects_ret, _].
  apply respects_catch; [apply _| |intros _; apply respects_ret, _].
  apply respects_bind; [apply _ | apply post_saves |]. intros [st body].
  destruct (negb _); [apply respects_ret, _|].
  apply respects_bind; [apply _ | apply respects_lift, _ |]. intros reply.
  apply respects_bind; [apply _ | apply respects_gets, _ |]. intros now. apply respects_lift, _.
Qed.

Lemma evaluate_ml_yields get r :
  yields (λ f, ∀ a, f = Some a → own_alert false a) (_evaluate_ml repr_float get r company_id).
Proof.
  unfold _evaluate_ml. destruct (ru_model r); [|by apply yields_ret].
  apply yields_catch; [|intros _; by apply yields_ret].
  apply yields_bind. intros [st body]. destruct (negb _); [by apply yields_ret|].
  apply yields_bind. intros reply. apply yields_bind. intros now. apply yields_lift.
  intros f Hf a ->. by eapply ml_own.
Qed.

Lemma evaluate_rule_saves sd r : respects R (_evaluate_rule repr_float sd r company_id).
Proof.
  unfold _evaluate_rule. case_bool_decide.
  - apply respects_bind; [apply _ | apply respects_gets, _ |]. intros now. apply respects_lift, _.
  - case_bool_decide; [apply evaluate_ml_saves | apply respects_ret, _].
Qed.

Lemma evaluate_rule_yields sd r :
  yields (λ f, ∀ a, f = Some a → own_alert false a) (_evaluate_rule repr_float sd r company_id).
Proof.
  unfold _evaluate_rule. case_bool_decide.
  - apply yields_bind. intros now. apply yields_lift. intros f Hf a ->. by eapply threshold_own.
  - case_bool_decide; [apply evaluate_ml_yields | by apply yields_ret].
Qed.

Lemma evaluate_step_saves sd acc r :
  respects R (evaluate_step bind_error uuid5 repr_float cfg sd company_id acc r).
Proof.
  unfold evaluate_step. eapply respects_bind_when; [apply _ | apply evaluate_rule_saves | |].
  - apply evaluate_rule_yields.
  - intros f Hf. by apply emit_found_saves.
Qed.

Lemma each_guarded_saves {A} (body : list alert → A → M world (list alert)) l :
  (∀ acc x, respects R (body acc x)) → respects R (each_guarded body l).
Proof.
  intros Hb. unfold each_guarded. apply respects_foldM; [apply _ | apply _ |]. intros acc x.
  apply respects_catch; [apply _ | apply Hb | intros _; apply respects_ret, _].
Qed.

Lemma sensor_name_saves sensor company :
  respects R (_get_sensor_name sensor company).
Proof.
  unfold _get_sensor_name. apply respects_bind; [apply _ | apply respects_gets, _ |]. intros cache.
  destruct (cache !! _); [apply respects_ret, _|].
  apply respects_bind; [apply _ | |].
  - apply in_db_saves. unfold get_sensor_name. apply read_saves.
    intros _ t a t'. by destruct (or_raise _ _) as [u|]; simpl; [intros [= <- <-]|].
  - intros [[|c name]|]; [apply respects_ret, _ | | apply respects_ret, _].
    apply respects_bind; [apply _ | apply modify_saves; done |]. intros _. apply respects_ret, _.
Qed.

Lemma store_for_ml_saves sd company : respects R (store_for_ml cfg sd company).
Proof.
  unfold store_for_ml. destruct (p_equipment sd) as [[|c e]|]; try apply respects_ret, _.
  destruct (has_feature_store cfg); [|apply respects_ret, _].
  apply respects_bind; [apply _ | apply sensor_name_saves |]. intros name.
  apply respects_bind; [apply _ | apply respects_gets, _ |]. intros now.
  apply respects_catch; [apply _ | apply in_fs_saves | intros _; apply respects_ret, _].
Qed.

Lemma evaluate_saves sensor_data c :
  (company_key c).1 = company_id →
  respects R (evaluate bind_error uuid5 repr_float cfg sensor_data c).
Proof.
  intros Hc. unfold evaluate. rewrite Hc.
  apply respects_bind; [apply _ | apply respects_lift, _ |]. intros sd.
  apply respects_bind; [apply _ | apply store_for_ml_saves |]. intros _.
  apply respects_bind; [apply _ | apply respects_gets, _ |]. intros [|r0 rules]; [apply respects_ret, _|].
  apply respects_bind; [apply _ | apply respects_lift, _ |]. intros applicable.
  apply respects_foldM; [apply _ | apply _ |]. intros acc r. apply evaluate_step_saves.
Qed.

Lemma model_config_saves m : respects R (_get_feature_config_for_model m company_id).
Proof.
  unfold _get_feature_config_for_model.
  apply respects_catch; [apply _ | | intros _; apply respects_ret, _].
  apply respects_bind; [apply _ | | intros o; apply respects_ret, _].
  apply in_db_saves. unfold get_model_by_id. apply read_saves.
  intros _ t a t'. by destruct (or_raise _ _) as [u|]; simpl; [intros [= <- <-]|].
Qed.

Lemma ml_step_saves equipment ts acc r :
  respects R (ml_rule_step bind_error uuid5 repr_float json_text cfg equipment company_id ts acc r).
Proof.
  unfold ml_rule_step. destruct (ru_model r) as [m|]; [|apply respects_ret, _].
  apply respects_bind; [apply _ | apply model_config_saves |].
  intros [config|]; [|apply respects_ret, _].
  apply respects_bind; [apply _ | |].
  { apply in_db_saves. unfold get_feature_config. apply read_saves.
    intros _ t a t'. by destruct (or_raise _ _) as [u|]; simpl; [intros [= <- <-]|]. }
  intros [column|]; [|apply respects_ret, _].
  apply respects_bind; [apply _ | apply respects_lift, _ |]. intros [|n names]; [apply respects_ret, _|].
  apply respects_bind; [apply _ | apply respects_gets, _ |]. intros now.
  apply respects_bind; [apply _ | apply in_fs_saves |]. intros [snap as_of].
  destruct (size snap <? length (n :: names))%nat; [apply respects_ret, _|].
  eapply respects_bind_when; [apply _ | apply evaluate_ml_saves | apply evaluate_ml_yields |].
  intros f Hf. by apply emit_found_saves.
Qed.

Lemma drift_step_saves d acc r :
  respects R (drift_step bind_error uuid5 cfg d company_id acc r).
Proof.
  unfold drift_step. eapply (respects_bind_when _ (λ f, ∀ a, f = Some a → own_alert false a)).
  - unfold _evaluate_drift, drift_request. apply respects_bind; [apply _ | |].
    + apply respects_catch; [apply _ | | intros []; first [apply respects_ret, _ | apply respects_raise, _]].
      apply respects_bind; [apply _ | apply post_saves |]. intros [st body].
      destruct (negb _); [apply respects_ret, _|].
      apply respects_bind; [apply _ | apply respects_lift, _ |]. intros reply. apply respects_ret, _.
    + intros [reply|]; [|apply respects_ret, _]. destruct (ru_model r); [|apply respects_ret, _].
      apply respects_bind; [apply _ | apply respects_gets, _ |]. intros now. apply respects_lift, _.
  - unfold _evaluate_drift. apply yields_bind. intros [reply|]; [|by apply yields_ret].
    destruct (ru_model r); [|by apply yields_ret].
    apply yields_bind. intros now. apply yields_lift. intros f Hf a ->. by eapply drift_own.
  - intros f Hf. by apply emit_found_saves.
Qed.

Lemma retrain_step_saves rc acc r :
  retrain_cooldown_us rc = rw →
  respects R (retrain_step bind_error uuid5 cfg rc company_id acc r).
Proof.
  intros Hrw. unfold retrain_step. destruct (ru_model r) as [m|]; [|apply respects_ret, _].
  apply respects_bind; [apply _ | |].
  { apply in_db_saves. unfold get_retrain_signals.
    apply respects_bind; [apply _ | apply respects_lift, _ |]. intros n.
    apply respects_bind; [apply _ | apply respects_lift, _ |]. intros u.
    apply respects_bind; [apply _ | apply respects_gets, _ |]. intros now.
    apply saves_read. intros t a t' [= <- <-]. done. }
  intros s. apply respects_bind; [apply _ | apply respects_lift, _ |].
  intros [p|]; [|apply respects_ret, _].
  apply respects_bind; [apply _ | apply respects_gets, _ |]. intros now.
  apply respects_bind; [apply _ | |intros b; apply respects_ret, _].
  apply emit_saves; [|by rewrite Hrw]. by split_and!.
Qed.
End handlers.

(** ** The handlers write alerts only by cooled-down saves, in their own tenant *)

(** The engine's entry points, for one company. *)
Inductive entry :=
  | OnReading (sensor_data company_id : json)
  | OnEquipment (equipment_id company_id : string) (timestamp : option string)
  | OnDrift (company_id : string) (default_share_threshold : float)
  | OnRetrain (rc : retrain_config) (company_id : string).

Definition entry_company (e : entry) : string :=
  match e with
  | OnReading _ c => (company_key c).1
  | OnEquipment _ c _ | OnDrift c _ | OnRetrain _ c => c
  end.

Section entries.
Context `{I : IsoCodec}.
Context (bind_error : exn) (uuid5 : string → Z) (repr_float : float → string)
        (json_text : string → res json) (cfg : config).

Definition run_entry (e : entry) : M world (list alert) :=
  match e with
  | OnReading d c => evaluate bind_error uuid5 repr_float cfg d c
  | OnEquipment q c ts => evaluate_equipment_ml_rules bind_error uuid5 repr_float json_text cfg q c ts
  | OnDrift c d => evaluate_drift_rules bind_error uuid5 cfg c d
  | OnRetrain rc c => evaluate_retrain_recommendations bind_error uuid5 cfg rc c
  end.

(** The deployment's retrain cooldown is the one a retrain pass is given. *)
Definition entry_windows (rw : Z) (e : entry) : Prop :=
  match e with OnRetrain rc _ => retrain_cooldown_us rc = rw | _ => True end.

Lemma run_entry_saves rw e : entry_windows rw e →
  respects (world_saves bind_error cfg rw (mine_of (entry_company e))) (run_entry e).
Proof.
  destruct e as [d c | q c ts | c d | rc c]; simpl; intros Hrw.
  - by apply evaluate_saves.
  - unfold evaluate_equipment_ml_rules. destruct (has_feature_store cfg); [|apply respects_ret, _].
    apply respects_bind; [apply _ | apply respects_gets, _ |]. intros rules.
    apply each_guarded_saves. intros acc r. apply ml_step_saves.
  - unfold evaluate_drift_rules.
    apply respects_bind; [apply _ | apply respects_gets, _ |]. intros rules.
    apply each_guarded_saves. intros acc r. apply drift_step_saves.
  - unfold evaluate_retrain_recommendations.
    apply respects_bind; [apply _ | apply respects_gets, _ |]. intros rules.
    apply each_guarded_saves. intros acc r. by apply retrain_step_saves.
Qed.

(** Every tenant's alerts keep the cooldowns. *)
Definition cooled_down (rw : Z) (w : world) : Prop :=
  ∀ s t, tenants (wdb w) !! s = Some t → spaced (cooldown_us cfg) rw (t_alerts t).

(** C12: The cooldown is durable: whatever entry point runs, on whatever
    input and with whatever calls to the database, the snapshot store or
    the ML service failing, two alerts of one scope at least a cooldown
    apart remain so, no row is removed or changed, and no table of another
    tenant is touched. *)
Theorem cooldown_durable rw e w (Hrw : entry_windows rw e) (Hw : cooled_down rw w) :
  let w' := final (run_entry e) w in
  cooled_down rw w' ∧
  (∀ s t, tenants (wdb w) !! s = Some t → ∃ t', tenants (wdb w') !! s = Some t' ∧
     (∀ x, x ∈ t_alerts t → x ∈ t_alerts t') ∧
     (schema_name (entry_company e) ≠ Ok s → t' = t)).
Proof.
  simpl. destruct (run_entry_saves rw e Hrw w) as ([_ Hs] & _). split.
  - intros s t' Ht'. specialize (Hs s). rewrite Ht' in Hs. specialize (Hw s).
    destruct (tenants (wdb w) !! s) as [t|]; [|done]. destruct Hs as (_ & Hr & _).
    eapply spaced_saves; [exact Hr | auto].
  - intros s t Ht. specialize (Hs s). rewrite Ht in Hs. simpl in Hs.
    destruct (tenants (wdb (final (run_entry e) w)) !! s) as [t'|]; [|done].
    destruct Hs as (E & Hr & Hm). exists t'. split; [done|]. split.
    + clear - Hr. induction Hr as [|a b c (r & ->) _ IH]; [done|].
      intros x Hx. apply IH. by apply save_once_keeps.
    + intros Hne. destruct Hm as [Hm | Hm]; [done|]. rewrite E, Hm. by destruct t.
Qed.
End entries.

(** ** The cache and redelivery *)

Section emission.
Context `{I : IsoCodec}.
Context (bind_error : exn) (uuid5 : string → Z) (cfg : config).

(** A save of [r] would write nothing. *)
Definition nothing_to_save (retrain : bool) (window : Z) (r : alert_row) (t : list alert_row) : Prop :=
  is_Some (prior_at retrain window r t) ∨ existsb (same_key r) t = true.

Lemma save_nothing retrain window r t :
  nothing_to_save retrain window r t →
  (save_once retrain window r t).2 = t ∧ (save_once retrain window r t).1.1 = false.
Proof.
  unfold save_once. intros [[p ->] | H]; [done|]. destruct (prior_at _ _ _ _); [done|]. by rewrite H.
Qed.

Lemma nothing_mono retrain window r t t' :
  (∀ x, x ∈ t → x ∈ t') → nothing_to_save retrain window r t → nothing_to_save retrain window r t'.
Proof. intros Hs [H | H]; [left; by eapply prior_mono | right; by eapply existsb_mono]. Qed.

Lemma saved_nothing retrain window r t t' v :
  save_once retrain window r t = (v, t') → nothing_to_save retrain window r t'.
Proof.
  unfold save_once. destruct (prior_at _ _ _ _) eqn:Hp; [intros [= _ <-]; left; by rewrite Hp|].
  destruct (existsb _ _) eqn:He; intros [= _ <-]; right; [done|].
  rewrite existsb_app. simpl. apply orb_true_iff. right. apply orb_true_iff. left.
  by apply bool_decide_eq_true.
Qed.

(** A cache hit means the database would have refused too. *)
Lemma cached_nothing a retrain at_ window w :
  cache_sound bind_error w →
  _cached_within (dedup_scope a retrain) at_ window (last_emit w) = true →
  ∃ n t, schema_name (a_company a) = Ok n ∧ tenants (wdb w) !! n = Some t ∧
    ∀ id r, bind_row bind_error a id at_ = Ok r → nothing_to_save retrain window r (t_alerts t).
Proof.
  intros Hs Hc. unfold _cached_within in Hc.
  destruct (scope_time _ _) as [last|] eqn:Hl; [|done]. apply scope_time_elem, Hs in Hl.
  destruct Hl as (b & k & id & ta & x & n & t & y & Hsc & Hb & Hn & Ht & Hy & Hin & Hw).
  destruct (dedup_scope_inj _ _ _ _ Hsc) as (-> & Hco & _).
  exists n, t. split; [congruence|]. split; [done|]. intros id' r Hr. left.
  destruct (prior_at retrain window r (t_alerts t)) eqn:Hp; [done|].
  rewrite prior_at_none in Hp. specialize (Hp y Hy).
  rewrite (same_scope_rows bind_error _ _ _ _ _ _ _ _ _ Hsc Hb Hr) in Hin.
  specialize (Hp Hin). apply bind_row_inv in Hr as (_ & Hat & _).
  unfold within in Hp. bool_hyps. apply andb_false_iff in Hp as [Hp | Hp]; bool_hyps; lia.
Qed.

(** An undisturbed save. *)
Lemma save_alert_once_clean a id at_ window retrain d n t r :
  db_calls d = [] → schema_name (a_company a) = Ok n → tenants d !! n = Some t →
  bind_row bind_error a id at_ = Ok r →
  ∃ d', save_alert_once bind_error a id at_ window retrain d =
          (Ok (save_once retrain window r (t_alerts t)).1, d') ∧
    tenants d' = <[n := set_alerts (save_once retrain window r (t_alerts t)).2 t]> (tenants d) ∧
    db_calls d' = [].
Proof.
  intros Hc Hn Ht Hb. unfold save_alert_once, mbind, M_bind, lift. rewrite Hn.
  unfold in_tenant, mbind, M_bind, next_db_call. rewrite Hc. simpl. rewrite Ht.
  unfold commit_tenant. rewrite Hb, res_bind_ok.
  destruct (save_once retrain window r (t_alerts t)) as [[ins p] l] eqn:E.
  eexists. split; [reflexivity|]. done.
Qed.

(** C37: The dedup cache is only an optimisation: whatever it holds, as long
    as it is sound, an undisturbed [_emit] returns and writes exactly what
    the database's one-statement save alone would, hit or miss. *)
Theorem emit_refines_save a retrain cooldown w at_ n t r
    (Hs : cache_sound bind_error w) (Hcalls : db_calls (wdb w) = [])
    (Hmax : (0 ≤ dedup_cache_max cfg)%Z)
    (Hat : as_utc (wall w) (a_triggered a) = Ok at_)
    (Hn : schema_name (a_company a) = Ok n) (Ht : tenants (wdb w) !! n = Some t)
    (Hr : bind_row bind_error a (deterministic_alert_id uuid5 (dedup_scope a retrain) at_) at_ = Ok r) :
  let saved := save_once retrain (default (cooldown_us cfg) cooldown) r (t_alerts t) in
  outcome (_emit bind_error uuid5 cfg a retrain cooldown) w = Ok saved.1.1 ∧
  tenants (wdb (final (_emit bind_error uuid5 cfg a retrain cooldown) w)) =
    <[n := set_alerts saved.2 t]> (tenants (wdb w)).
Proof.
  intros saved.
  assert (evict_total : ∀ l, ∃ l', evict (dedup_cache_max cfg) l = Ok l').
  { induction l as [|e l IH]; simpl; [|by case_match; eauto].
    rewrite (proj2 (Z.ltb_ge _ _)); [eauto | simpl; lia]. }
  assert (remember_ok : ∀ s u v, ∃ v', _remember cfg s u v = (Ok tt, v') ∧ wdb v' = wdb v).
  { intros s u v. unfold _remember. destruct (evict_total (touch s u (last_emit v))) as [l ->]. eauto. }
  unfold outcome, final, _emit, mbind, M_bind, gets, lift. rewrite Hat.
  destruct (_cached_within _ _ _ _) eqn:Hc; simpl.
  - destruct (cached_nothing _ _ _ _ _ Hs Hc) as (n' & t' & Hn' & Ht' & Hno).
    assert (n' = n) as -> by congruence. assert (t' = t) as -> by congruence.
    specialize (Hno _ _ Hr). apply save_nothing in Hno as [E1 E2]. unfold saved. rewrite E1, E2.
    split; [done|]. rewrite set_alerts_id. by rewrite insert_id.
  - unfold in_db, zoom.
    destruct (save_alert_once_clean a _ at_ (default (cooldown_us cfg) cooldown) retrain _ n t r
                Hcalls Hn Ht Hr) as (d' & -> & Hd' & _).
    unfold saved. clear saved. destruct (save_once retrain _ r (t_alerts t)) as [[ins prior] l]. unfold mret, M_ret. simpl in *.
    destruct ins; [|destruct prior as [p|]; [|by split]].
    + destruct (remember_ok (dedup_scope a retrain) at_ (set_db d' w)) as (v' & -> & Hv').
      simpl. by rewrite Hv'.
    + destruct (remember_ok (dedup_scope a retrain) p (set_db d' w)) as (v' & -> & Hv').
      simpl. by rewrite Hv'.
Qed.
End emission.

(** ** Redelivered readings *)

#[local] Arguments uuid_str : simpl never.
#[local] Arguments deterministic_alert_id : simpl never.
#[local] Arguments bind_row : simpl never.
#[local] Arguments uuid_parse : simpl never.
#[local] Arguments schema_name : simpl never.
#[local] Arguments as_utc : simpl never.

Section redelivery.
Context `{I : IsoCodec}.
Context (bind_error : exn) (uuid5 : string → Z) (repr_float : float → string) (cfg : config).

(** The database would refuse the alert, whatever id it is given. *)
Definition settled (a : alert) (at_ : Z) (d : db) : Prop :=
  ∃ n t, schema_name (a_company a) = Ok n ∧ tenants d !! n = Some t ∧
    ∀ r, bind_row bind_error a (deterministic_alert_id uuid5 (dedup_scope a false) at_) at_ = Ok r →
         nothing_to_save false (cooldown_us cfg) r (t_alerts t).

Lemma settled_mono aw rw mine a at_ d d' :
  db_saves aw rw mine d d' → settled a at_ d → settled a at_ d'.
Proof.
  intros [_ Hd] (n & t & Hn & Ht & Hs). specialize (Hd n). rewrite Ht in Hd. simpl in Hd.
  destruct (tenants d' !! n) as [t'|] eqn:Ht'; [|done]. destruct Hd as (_ & Hr & _).
  exists n, t'. split; [done|]. split; [done|]. intros r Hb.
  eapply nothing_mono; [|by apply Hs]. intros x Hx. by eapply saves_elem.
Qed.

Lemma settled_data a at_ d d' : tenants d' = tenants d → settled a at_ d → settled a at_ d'.
Proof. intros Ht. unfold settled. by rewrite Ht. Qed.

Lemma remember_wdb s at_ w : wdb (final (_remember cfg s at_) w) = wdb w.
Proof. unfold final, _remember. by destruct (evict _ _). Qed.

(** Emitting settles, and emitting what is settled writes nothing. *)
Lemma emit_settles a at_ w b w' :
  cache_sound bind_error w → as_utc (wall w) (a_triggered a) = Ok at_ →
  _emit bind_error uuid5 cfg a false None w = (Ok b, w') → settled a at_ (wdb w').
Proof.
  intros Hs Hat E. unfold _emit, mbind, M_bind, gets, lift in E. rewrite Hat in E.
  destruct (_cached_within _ _ _ _) eqn:Hc.
  { injection E as _ <-. destruct (cached_nothing _ _ _ _ _ _ Hs Hc) as (n & t & Hn & Ht & Hno).
    exists n, t. eauto. }
  unfold in_db, zoom in E.
  destruct (save_alert_once _ _ _ _ _ _ (wdb w)) as [[[ins prior]|e] d'] eqn:Es; [|done].
  apply save_alert_once_ok in Es as (n & t & r & l & Hn & Ht & Hb & Hso & Hd').
  assert (Hset : settled a at_ d').
  { exists n, (set_alerts l t). split; [done|]. rewrite Hd', lookup_insert_eq. split; [done|].
    intros r' Hb'. assert (r' = r) as -> by congruence. by eapply saved_nothing. }
  assert (Hrem : ∀ s u v o w1, _remember cfg s u v = (o, w1) → wdb w1 = wdb v)
    by (intros s u v o w1 Er; pose proof (remember_wdb s u v) as Hw; unfold final in Hw; by rewrite Er in Hw).
  unfold mret, M_ret in E. simpl in E. destruct ins; [|destruct prior as [p|]].
  - destruct (_remember _ _ _ _) as [[u|e] w1] eqn:Er; [|done]. injection E as _ <-.
    apply Hrem in Er. by rewrite Er.
  - destruct (_remember _ _ _ _) as [[u|e] w1] eqn:Er; [|done]. injection E as _ <-.
    apply Hrem in Er. by rewrite Er.
  - by injection E as _ <-.
Qed.

Lemma save_settled a at_ d o d' :
  settled a at_ d →
  save_alert_once bind_error a (deterministic_alert_id uuid5 (dedup_scope a false) at_) at_
    (cooldown_us cfg) false d = (o, d') →
  tenants d' = tenants d ∧ ∀ ins p, o = Ok (ins, p) → ins = false.
Proof.
  intros (n & t & Hn & Ht & Hset) E.
  unfold save_alert_once, mbind, M_bind, lift in E. rewrite Hn in E.
  assert (Hno : ∀ t' v t'', tenants d !! n = Some t' →
    (r ← bind_row bind_error a (deterministic_alert_id uuid5 (dedup_scope a false) at_) at_;
     let '(res, l) := save_once false (cooldown_us cfg) r (t_alerts t') in
     Ok (res, set_alerts l t')) = Ok (v, t'') → t'' = t' ∧ v.1 = false).
  { intros t' v t'' Ht' (r & Hb & Hv)%res_bind_inv_ok. assert (t' = t) as -> by congruence.
    destruct (save_nothing _ _ _ _ (Hset r Hb)) as [E1 E2].
    destruct (save_once false (cooldown_us cfg) r (t_alerts t)) as [v1 l1].
    injection Hv as <- <-. simpl in E1. rewrite E1, set_alerts_id. by split. }
  apply in_tenant_quiet in E as [(_ & Hd & _) Hv]; [|intros t' v t'' Ht' Hv; by apply (Hno t' v t'')].
  split; [done|]. intros ins p Ho. destruct (Hv _ Ho) as (t' & Ht' & Hv').
  by destruct (Hno _ _ _ Ht' Hv').
Qed.

Lemma emit_settled a at_ w o w' :
  settled a at_ (wdb w) → as_utc (wall w) (a_triggered a) = Ok at_ →
  _emit bind_error uuid5 cfg a false None w = (o, w') →
  tenants (wdb w') = tenants (wdb w) ∧ wall w' = wall w ∧ ∀ b, o = Ok b → b = false.
Proof.
  intros Hset Hat E. unfold _emit, mbind, M_bind, gets, lift in E. rewrite Hat in E.
  unfold mret, M_ret in E.
  destruct (_cached_within _ _ _ _).
  { injection E as <- <-. split_and!; [done | done | by intros b [= <-]]. }
  unfold in_db, zoom in E. cbn [default] in E.
  destruct (save_alert_once _ _ _ _ _ _ (wdb w)) as [o1 d'] eqn:Es.
  apply (save_settled a at_) in Es as [Hd Hins]; [|done].
  destruct o1 as [[ins prior]|e]; [|by injection E as <- <-].
  rewrite (Hins ins prior eq_refl) in E. cbn iota in E.
  destruct prior as [p|].
  - unfold _remember in E. destruct (evict _ _); injection E as <- <-;
      (split_and!; [done | done | by intros b [= <-]]).
  - injection E as <- <-. split_and!; [done | done | by intros b [= <-]].
Qed.

(** *** The alerts of a timed reading *)

(** Whether the reading carries its event time, so that its alerts do not
    depend on the clock. *)
Definition timed (sd : parsed) : Prop := or_text (p_time sd) (p_timestamp sd) ≠ None.

Definition found_alert (sd : parsed) (r : rule) (company : string) : res (option alert) :=
  if bool_decide (ru_detection r = "threshold") then _evaluate_threshold 0 sd r company else Ok None.

Lemma timed_found now sd r company :
  timed sd → _evaluate_threshold now sd r company = _evaluate_threshold 0 sd r company.
Proof.
  intros Ht. unfold _evaluate_threshold, event_stamp. unfold timed in Ht.
  by destruct (or_text (p_time sd) (p_timestamp sd)).
Qed.

Lemma evaluate_rule_pure sd r company w :
  timed sd → ru_detection r ≠ "ml" →
  _evaluate_rule repr_float sd r company w = (found_alert sd r company, w).
Proof.
  intros Ht Hml. unfold _evaluate_rule, found_alert. case_bool_decide.
  - unfold mbind, M_bind, gets, lift. by rewrite (timed_found (wall w)).
  - by rewrite bool_decide_false.
Qed.

Lemma found_stamp sd r company a now :
  timed sd → found_alert sd r company = Ok (Some a) →
  as_utc now (a_triggered a) = as_utc 0 (a_triggered a).
Proof.
  intros Ht H. unfold found_alert in H. case_bool_decide; [|done].
  unfold _evaluate_threshold in H. destruct (crossed _ _) as [[c t]|]; [|done].
  apply res_bind_inv_ok in H as (ts & Hts & [= <-]). simpl. unfold event_stamp in Hts.
  unfold timed in Ht. destruct (or_text _ _) as [s|]; [|done].
  destruct (parse_iso s); [|done]. by injection Hts as <-.
Qed.

(** What settles the rule: its alert is settled, or it has none. *)
Definition rule_settled (sd : parsed) (company : string) (d : db) (r : rule) : Prop :=
  ∀ a, found_alert sd r company = Ok (Some a) →
  ∃ at_, as_utc 0 (a_triggered a) = Ok at_ ∧ settled a at_ d.

Lemma step_settles rw sd company acc r w l w' :
  timed sd → ru_detection r ≠ "ml" → cache_sound bind_error w →
  evaluate_step bind_error uuid5 repr_float cfg sd company acc r w = (Ok l, w') →
  rule_settled sd company (wdb w') r ∧
  world_saves bind_error cfg rw (mine_of company) w w'.
Proof.
  intros Ht Hml Hs E. split.
  - unfold evaluate_step in E. apply bind_inv_ok in E as (f & w1 & Ef & E).
    rewrite evaluate_rule_pure in Ef by done. injection Ef as Hf <-.
    intros a Ha. rewrite Ha in Hf. injection Hf as <-. simpl in E.
    apply bind_inv_ok in E as (b & w2 & Ee & E). injection E as _ <-.
    pose proof (found_stamp sd r company a (wall w) Ht Ha) as Hst.
    destruct (as_utc (wall w) (a_triggered a)) as [at_|e] eqn:Hat.
    + exists at_. split; [done|]. by eapply emit_settles.
    + unfold _emit, mbind, M_bind, gets, lift in Ee. by rewrite Hat in Ee.
  - pose proof (evaluate_step_saves bind_error uuid5 repr_float cfg rw company sd acc r w) as H.
    unfold final in H. by rewrite E in H.
Qed.

Lemma loop_settles rw sd company rules : ∀ acc w l w',
  timed sd → Forall (λ r, ru_detection r ≠ "ml") rules → cache_sound bind_error w →
  foldM (evaluate_step bind_error uuid5 repr_float cfg sd company) acc rules w = (Ok l, w') →
  Forall (rule_settled sd company (wdb w')) rules ∧
  world_saves bind_error cfg rw (mine_of company) w w'.
Proof.
  induction rules as [|r rules IH]; intros acc w l w' Ht Hml Hs E; simpl in E.
  { injection E as _ <-. done. }
  apply bind_inv_ok in E as (l1 & w1 & E1 & E). apply Forall_cons in Hml as [Hr Hml].
  apply (step_settles rw) in E1 as [Hset1 H1]; [|done..].
  assert (cache_sound bind_error w1) as Hs1 by (by apply H1).
  apply IH in E as [Hsets H2]; [|done..]. split; [|by etrans].
  apply Forall_cons. split; [|done]. intros a Ha. destruct (Hset1 a Ha) as (at_ & Hat & Hset).
  exists at_. split; [done|]. eapply settled_mono; [apply H2 | done].
Qed.

Lemma loop_settled sd company rules : ∀ acc w o w',
  timed sd → Forall (λ r, ru_detection r ≠ "ml") rules →
  Forall (rule_settled sd company (wdb w)) rules →
  foldM (evaluate_step bind_error uuid5 repr_float cfg sd company) acc rules w = (o, w') →
  tenants (wdb w') = tenants (wdb w) ∧ ∀ l, o = Ok l → l = acc.
Proof.
  induction rules as [|r rules IH]; intros acc w o w' Ht Hml Hset E; simpl in E.
  { injection E as <- <-. split; [done|]. by intros l [= <-]. }
  apply Forall_cons in Hml as [Hr Hml]. apply Forall_cons in Hset as [Hset1 Hset].
  unfold mbind at 1, M_bind at 1 in E.
  destruct (evaluate_step bind_error uuid5 repr_float cfg sd company acc r w) as [o1 w1] eqn:E1.
  assert (tenants (wdb w1) = tenants (wdb w) ∧ ∀ l, o1 = Ok l → l = acc) as [Hd1 Hl1].
  { unfold evaluate_step, mbind, M_bind in E1. rewrite evaluate_rule_pure in E1 by done.
    destruct (found_alert sd r company) as [[a|]|e] eqn:Hf; [| |by injection E1 as <- <-].
    2:{ simpl in E1. injection E1 as <- <-. split; [done|]. by intros l [= <-]. }
    simpl in E1. unfold mbind, M_bind in E1.
    destruct (_emit bind_error uuid5 cfg a false None w) as [o2 w2] eqn:E2.
    destruct (Hset1 a Hf) as (at_ & Hat & Hs).
    apply (emit_settled a at_) in E2 as (Hd & _ & Hb);
      [|done|by rewrite (found_stamp sd r company a)].
    destruct o2 as [b|e]; [|by injection E1 as <- <-].
    rewrite (Hb b eq_refl) in E1. injection E1 as <- <-. split; [done|]. by intros l [= <-]. }
  destruct o1 as [l1|e]; [|by injection E as <- <-]. rewrite (Hl1 l1 eq_refl) in E.
  apply IH in E as [Hd Hl]; [|done|done|].
  - split; [congruence | done].
  - eapply Forall_impl; [exact Hset|]. intros r' Hr' a Ha. destruct (Hr' a Ha) as (at_ & ? & ?).
    exists at_. split; [done|]. by eapply settled_data.
Qed.
End redelivery.


(** ** A whole reading, delivered again *)

(** A step that touches neither the tables nor the engine's rules, clock and
    dedup cache. *)
Definition quiet (w w' : world) : Prop :=
  same_data (wdb w) (wdb w') ∧ tenant_rules w' = tenant_rules w ∧ wall w' = wall w ∧
  last_emit w' = last_emit w.

#[export] Instance quiet_preorder : PreOrder quiet.
Proof.
  split; [by intros w|]. intros w1 w2 w3 (? & ? & ? & ?) (? & ? & ? & ?).
  split_and!; [by etrans | congruence..].
Qed.

Section whole.
Context `{I : IsoCodec}.
Context (bind_error : exn) (uuid5 : string → Z) (repr_float : float → string) (cfg : config).

Lemma quiet_sensor_name sensor company : respects quiet (_get_sensor_name sensor company).
Proof.
  unfold _get_sensor_name. apply respects_bind; [apply _ | apply respects_gets, _ |]. intros cache.
  destruct (cache !! _); [apply respects_ret, _|].
  apply respects_bind; [apply _ | |].
  - apply (respects_zoom _ _ _ same_data); [intros w d Hd; by split_and!|].
    unfold get_sensor_name. apply respects_bind; [apply _ | apply respects_lift, _ |]. intros n d.
    unfold final. destruct (in_tenant n _ d) as [o d'] eqn:E.
    apply in_tenant_read in E as [Hd _]; [done|].
    intros t a t'. by destruct (or_raise _ _) as [u|]; simpl; [intros [= <- <-]|].
  - intros [[|c name]|]; [apply respects_ret, _ | | apply respects_ret, _].
    apply respects_bind; [apply _ | |intros _; apply respects_ret, _].
    apply respects_modify. by intros w.
Qed.

Lemma quiet_store sd company : respects quiet (store_for_ml cfg sd company).
Proof.
  unfold store_for_ml. destruct (p_equipment sd) as [[|c e]|]; try apply respects_ret, _.
  destruct (has_feature_store cfg); [|apply respects_ret, _].
  apply respects_bind; [apply _ | apply quiet_sensor_name |]. intros name.
  apply respects_bind; [apply _ | apply respects_gets, _ |]. intros now.
  apply respects_catch; [apply _ | | intros _; apply respects_ret, _].
  apply (respects_zoom _ _ _ (λ _ _, True)); [|done]. by intros w s.
Qed.

Lemma applicable_not_ml sensor equipment rules l :
  _get_applicable_rules sensor equipment rules true = Ok l →
  Forall (λ r, ru_detection r ≠ "ml") l.
Proof.
  intros H. apply Forall_forall. intros r Hr.
  assert (∃ s e, r ∈ List.filter (rule_applies s e true) rules) as (s & e & Hf).
  { unfold _get_applicable_rules in H. repeat case_match; simplify_eq/=; eauto. }
  apply filter_elem in Hf as [_ Hf]. unfold rule_applies in Hf. bool_hyps. simpl in *. by bool_hyps.
Qed.

Lemma evaluate_again d c sd w l w1 rw mine w2
    (Hsd : parse_reading d c = Ok sd) (Ht : timed sd) (Hs : cache_sound bind_error w)
    (H1 : evaluate bind_error uuid5 repr_float cfg d c w = (Ok l, w1))
    (Hlater : db_saves (cooldown_us cfg) rw mine (wdb w1) (wdb w2))
    (Hrules : rules_for (company_key c) w2 = rules_for (company_key c) w) :
  tenants (wdb (final (evaluate bind_error uuid5 repr_float cfg d c) w2)) = tenants (wdb w2) ∧
  ∀ l', outcome (evaluate bind_error uuid5 repr_float cfg d c) w2 = Ok l' → l' = [].
Proof.
  unfold outcome, final.
  destruct (evaluate bind_error uuid5 repr_float cfg d c w2) as [o w3] eqn:H2. simpl.
  unfold evaluate in H1, H2. rewrite Hsd in H1, H2.
  apply bind_inv_ok in H1 as (sd' & w' & E & H1). injection E as <- <-.
  apply bind_inv_ok in H1 as ([] & w4 & E4 & H1).
  pose proof (quiet_store sd (company_key c) w) as Q4. unfold final in Q4. rewrite E4 in Q4.
  destruct Q4 as ((_ & Hd4 & _) & Hr4 & _ & Hl4). simpl in Hr4, Hl4, Hd4.
  apply bind_inv_ok in H1 as (rules & w' & E & H1). injection E as <- <-.
  rewrite (bind_ok _ _ _ sd w2) in H2 by done.
  unfold mbind at 1, M_bind at 1 in H2.
  destruct (store_for_ml cfg sd (company_key c) w2) as [o5 w5] eqn:E5.
  pose proof (quiet_store sd (company_key c) w2) as Q5. unfold final in Q5. rewrite E5 in Q5.
  destruct Q5 as ((_ & Hd5 & _) & Hr5 & _ & _). simpl in Hr5, Hd5.
  destruct o5 as [u|e]; [|by injection H2 as <- <-].
  unfold mbind at 1, M_bind at 1, gets at 1 in H2. cbv beta iota in H2.
  assert (rules_for (company_key c) w5 = rules_for (company_key c) w) as Hw5
    by (rewrite <- Hrules; unfold rules_for; by rewrite Hr5).
  assert (rules_for (company_key c) w4 = rules_for (company_key c) w) as Hw4
    by (unfold rules_for; by rewrite Hr4).
  rewrite Hw5 in H2. rewrite Hw4 in H1.
  destruct (rules_for (company_key c) w) as [|r0 rules].
  { unfold mret, M_ret in H2. injection H2 as <- <-. split; [done|]. by intros l' [= <-]. }
  destruct (_get_applicable_rules _ _ (r0 :: rules) true) as [app|e] eqn:Happ; [|done].
  apply bind_inv_ok in H1 as (app' & w' & E & H1). injection E as <- <-.
  rewrite (bind_ok _ _ _ app w5) in H2 by done.
  apply applicable_not_ml in Happ.
  assert (cache_sound bind_error w4) as Hs4.
  { intros s t Hin. rewrite Hl4 in Hin. destruct (Hs s t Hin) as (a & k & id & at_ & r & n & tdb & x & H).
    exists a, k, id, at_, r, n, tdb, x. by rewrite Hd4. }
  apply (loop_settles _ _ _ _ rw) in H1 as [Hset _]; [|done..].
  apply (loop_settled bind_error uuid5) in H2 as [Hd Hl]; [|done|done|].
  - split; [congruence | done].
  - eapply Forall_impl; [exact Hset|]. intros r Hr a Ha. destruct (Hr a Ha) as (at_ & Hat & Hse).
    exists at_. split; [done|]. eapply settled_data; [exact Hd5|]. by eapply settled_mono.
Qed.

(** A redelivered reading writes nothing: once [evaluate] returned for a
    reading that carries its event time, evaluating it again, after any
    further alerts by any worker and whatever calls fail then, leaves every
    table as it was, and if it returns it reports no alert. *)
Theorem redelivered_reading d c sd w l w1 rw mine w2
    (Hsd : parse_reading d c = Ok sd) (Ht : timed sd) (Hs : cache_sound bind_error w)
    (H1 : evaluate bind_error uuid5 repr_float cfg d c w = (Ok l, w1))
    (Hlater : db_saves (cooldown_us cfg) rw mine (wdb w1) (wdb w2))
    (Hrules : rules_for (company_key c) w2 = rules_for (company_key c) w) :
  tenants (wdb (final (evaluate bind_error uuid5 repr_float cfg d c) w2)) = tenants (wdb w2) ∧
  ∀ l', outcome (evaluate bind_error uuid5 repr_float cfg d c) w2 = Ok l' → l' = [].
Proof. by eapply evaluate_again. Qed.
End whole.
