(* ===== verification/EngineProps.v ===== *)
(** * The rules engine: ids, validation, retraining

    What the alert ids, the validated readings and the retrain
    recommendations of RulesEngine guarantee, and concrete runs of its
    theorems. *)

From stdpp Require Import base strings list gmap relations.
From Corelib Require Import SpecFloat.
From Stdlib Require Import ZArith Lia Ascii.
From S2P Require Import Prelude PyText PyNum PyJson Tenancy FeatureStore AlertDb RulesEngine.

Local Open Scope string_scope.

#[local] Arguments uuid_str : simpl never.
#[local] Arguments uuid_parse : simpl never.

(** ** Deterministic ids *)

Definition no_bar (s : string) : Prop := str_all (λ c, negb (bool_decide (c = "|"%char))) s = true.

Lemma split_join (l : list string) :
  l ≠ [] → Forall no_bar l → str_split "|" (str_join "|" l) = l.
Proof.
  induction l as [|w l IH]; [done|]. intros _ [Hw Hl]%Forall_cons.
  destruct l as [|w' l]; [by apply str_split_no_sep|].
  change (str_join "|" (w :: w' :: l)) with (w +:+ String "|" (str_join "|" (w' :: l))).
  rewrite str_split_app_sep, IH by done. by rewrite str_split_no_sep.
Qed.

Lemma join_snoc (l : list string) (w : string) :
  l ≠ [] → str_join "|" l +:+ "|" +:+ w = str_join "|" (l ++ [w])%list.
Proof.
  induction l as [|x l IH]; [done|]. intros _. destruct l as [|y l]; [done|].
  change (str_join "|" (x :: y :: l)) with (x +:+ "|" +:+ str_join "|" (y :: l)).
  rewrite !str_app_assoc, IH by done. done.
Qed.

(** Every part of the scope is None or a text without a bar. *)
Definition plain_scope (s : scope) : Prop :=
  Forall (λ p, match p with Some x => no_bar x ∧ x ≠ "" | None => True end) s.

Lemma part_texts_inj s s' : plain_scope s → plain_scope s' →
  part_text <$> s = part_text <$> s' → s = s'.
Proof.
  intros Hs. revert s'. induction Hs as [|p s Hp _ IH]; intros [|p' s'] Hs' E; try done.
  apply Forall_cons in Hs' as [Hp' Hs']. injection E as Ep E. f_equal; [|by apply IH].
  destruct p as [x|], p' as [x'|]; simpl in *; try done; naive_solver.
Qed.

Lemma plain_parts s : plain_scope s → Forall no_bar (part_text <$> s).
Proof.
  induction 1 as [|p s Hp _ IH]; simpl; [constructor|]. constructor; [|done].
  destruct p as [x|]; [by destruct Hp | done].
Qed.

Lemma canonical_no_bar c : canonical c → no_bar c ∧ c ≠ "".
Proof.
  intros Hc. split; [by eapply canonical_avoids|].
  apply canonical_length in Hc. intros ->. done.
Qed.

(** An alert of the engine's: canonical ids, and a retrain recommendation
    names its model. *)
Definition engine_alert (a : alert) (retrain : bool) : Prop :=
  canonical (a_company a) ∧ canonical_alert a ∧ (retrain = true → is_Some (a_model a)).

Lemma engine_scope_plain a retrain : engine_alert a retrain → plain_scope (dedup_scope a retrain).
Proof.
  intros (Hc & (H1 & H2 & H3 & H4) & Hm). unfold dedup_scope, plain_scope.
  assert (∀ o : option string, (∀ s, o = Some s → canonical s) →
            match o with Some x => no_bar x ∧ x ≠ "" | None => True end) as Ho.
  { intros [x|] H; [|done]. by apply canonical_no_bar, H. }
  destruct retrain; repeat (apply Forall_cons; split); try by apply Forall_nil.
  - by apply canonical_no_bar.
  - by split.
  - by apply Ho.
  - by apply canonical_no_bar.
  - by apply canonical_no_bar.
  - by apply Ho.
  - by apply Ho.
Qed.

(** Two alerts share a deterministic id only if they are the same dedup
    scope at the same event time, up to a collision of the hash: the name that
    is hashed determines both. *)
Theorem alert_name_injective `{IsoCodec} a b ka kb t u
    (Ha : engine_alert a ka) (Hb : engine_alert b kb)
    (Ht : in_range t = true) (Hu : in_range u = true)
    (E : alert_name (dedup_scope a ka) t = alert_name (dedup_scope b kb) u) :
  dedup_scope a ka = dedup_scope b kb ∧ t = u.
Proof.
  apply engine_scope_plain in Ha, Hb. unfold alert_name in E.
  assert (Hne : ∀ x k, part_text <$> dedup_scope x k ≠ []) by (by intros x []).
  rewrite !join_snoc in E by apply Hne.
  apply (f_equal (str_split "|")) in E.
  rewrite !split_join in E;
    [|intros ?%app_nil; naive_solver | | intros ?%app_nil; naive_solver |];
    [|apply Forall_app; split; [by apply plain_parts | apply Forall_singleton, iso_no_bar]..].
  apply app_inj_2 in E as [E Ei]; [|done]. injection Ei as Ei.
  split; [by apply part_texts_inj | by apply isoformat_inj].
Qed.

(** ** Validated readings *)

Section readings.
Context `{I : IsoCodec}.
Context (bind_error : exn) (uuid5 : string → Z) (repr_float : float → string) (cfg : config).

Definition reading_error (e : exn) : Prop :=
  (∃ reason, e = MessageValidationError reason) ∨ e = OverflowError.

Lemma dt_utc_range t u : (∀ us, t = Naive us → in_range us = true) → dt_utc t = Ok u → in_range u = true.
Proof.
  destruct t as [us|us off]; simpl; [intros H [= <-]; auto|]. intros _.
  destruct (in_range (us - off)) eqn:E; [by intros [= <-] | done].
Qed.

Lemma uuid_field_spec raw field required :
  match _uuid_field raw field required with
  | Ok (Some s) => canonical s ∧ is_Some (json_uuid raw)
  | Ok None => required = false
  | Err e => reading_error e
  end.
Proof.
  assert (∀ v, match (match json_uuid v with Some u => Ok (Some (uuid_str u)) | None => invalid field end) with
               | Ok (Some s) => canonical s ∧ is_Some (json_uuid v)
               | Ok None => required = false
               | Err e => reading_error e end) as Hv.
  { intros v. destruct (json_uuid v) as [u|] eqn:E; [|by left; eexists].
    split; [|by eexists]. apply canonical_str.
    destruct v; simpl in E; try done; by eapply uuid_parse_bound. }
  unfold _uuid_field. destruct raw as [| | | |[|c s]| |]; try apply Hv;
    destruct required; try done; left; by eexists.
Qed.

Lemma as_utc_json_errors v e : as_utc 0 (stamp_of v) = Err e →
  e = ValueError ∨ e = AttributeError ∨ e = OverflowError.
Proof.
  destruct v as [| | | |s| |]; intros H; try done; try by (injection H as <-; auto).
  unfold as_utc, stamp_of in H.
  destruct (parse_iso s) as [t|e'] eqn:E; simpl in H.
  - destruct t as [us|us off]; simpl in H; [done|]. destruct (in_range _); [done|].
    injection H as <-. auto.
  - injection H as <-. left. by eapply iso_errors.
Qed.

Lemma time_field_spec v field :
  match time_field v field with
  | Ok (Some s) => ∃ t, in_range t = true ∧ s = isoformat t
  | Ok None => v = JNull
  | Err e => reading_error e
  end.
Proof.
  unfold time_field. destruct v eqn:Ev; try done; rewrite <- Ev;
    (destruct (as_utc 0 (stamp_of v)) as [t|e] eqn:E;
     [exists t; split; [|done]
     |destruct (as_utc_json_errors _ _ E) as [-> | [-> | ->]]; simpl;
        first [by left; eexists | by right]]);
    subst v; try done.
  simpl in E. apply res_bind_inv_ok in E as (dt & Hdt & E).
  eapply dt_utc_range; [|exact E]. intros us ->. by eapply iso_naive.
Qed.

Lemma as_utc_isoformat now t : in_range t = true → as_utc now (TextTime (isoformat t)) = Ok t.
Proof.
  intros Ht. simpl. unfold parse_iso. rewrite iso_roundtrip_z by done. simpl.
  by rewrite Z.sub_0_r, Ht.
Qed.

(** What a reading is once accepted. *)
Definition normal_reading (c : json) (sd : parsed) : Prop :=
  is_Some (json_uuid c) ∧ canonical (p_sensor sd) ∧
  (∀ e, p_equipment sd = Some e → canonical e) ∧ is_finite (p_value sd) = true ∧
  (∀ s, p_time sd = Some s ∨ p_timestamp sd = Some s →
     ∃ t, in_range t = true ∧ s = isoformat t ∧ ∀ now, as_utc now (TextTime s) = Ok t).

Lemma float_of_str_errors s e : float_of_str s = Err e → e = ValueError.
Proof.
  unfold float_of_str. destruct (split_sign _) as [neg r].
  destruct (_ || _); [done|]. destruct (bool_decide _); [done|].
  destruct (float_number neg r); [done|]. by intros [= <-].
Qed.

Lemma float_of_Z_errors z e : float_of_Z z = Err e → e = OverflowError.
Proof. unfold float_of_Z. destruct (binary_normalize _ _ _ _ _); try done. by intros [= <-]. Qed.

Lemma value_field_spec v :
  match value_field v with Ok f => is_finite f = true | Err e => reading_error e end.
Proof.
  assert (∀ r : res float, (∀ e, r = Err e → e = ValueError ∨ e = OverflowError ∨ e = TypeError) →
    match (match r with
           | Ok f => if is_finite f then Ok f else invalid "value"
           | Err e => if is_value_error e || bool_decide (e = TypeError)
                      then invalid "value" else Err e
           end) with Ok f => is_finite f = true | Err e => reading_error e end) as Hr.
  { intros [f|e] He.
    - destruct (is_finite f) eqn:E; [done | left; by eexists].
    - destruct (He e eq_refl) as [-> | [-> | ->]]; simpl; first [by left; eexists | by right]. }
  unfold value_field. destruct v as [| |z|f|s| |]; try (left; by eexists); apply Hr; unfold json_float.
  - intros e He. right. left. by eapply float_of_Z_errors.
  - done.
  - intros e He. left. by eapply float_of_str_errors.
Qed.

(** A reading is rejected before anything happens, or evaluated in
    normal form: [parse_reading] either raises (a validation error, or
    OverflowError for a number or a time out of range) and [evaluate] then
    leaves the world untouched; or it gives canonical ids, a finite value
    and event times that read back as the instants they denote. *)
Theorem reading_normalised d c :
  match parse_reading d c with
  | Ok sd => normal_reading c sd
  | Err e => reading_error e ∧
      ∀ w, evaluate bind_error uuid5 repr_float cfg d c w = (Err e, w)
  end.
Proof.
  assert (match parse_reading d c with Ok sd => normal_reading c sd | Err e => reading_error e end) as H.
  { unfold parse_reading. destruct d as [| | | | | |d]; try (left; by eexists).
    pose proof (uuid_field_spec c "company_id" true) as Hc.
    destruct (_uuid_field c "company_id" true) as [[oc|]|e]; [| done | exact Hc]. rewrite res_bind_ok.
    pose proof (uuid_field_spec (jget "sensor_id" d) "sensor_id" true) as Hs.
    destruct (_uuid_field (jget "sensor_id" d) _ _) as [[se|]|e]; [| done | exact Hs].
    rewrite res_bind_ok.
    pose proof (uuid_field_spec (jget "equipment_id" d) "equipment_id" false) as He.
    destruct (_uuid_field (jget "equipment_id" d) _ _) as [eq|e]; [|exact He]. rewrite res_bind_ok.
    pose proof (value_field_spec (jget "value" d)) as Hv.
    destruct (value_field (jget "value" d)) as [value|e]; [|exact Hv]. rewrite res_bind_ok.
    pose proof (time_field_spec (jget "time" d) "time") as Ht.
    destruct (time_field (jget "time" d) _) as [ti|e]; [|exact Ht]. rewrite res_bind_ok.
    pose proof (time_field_spec (jget "timestamp" d) "timestamp") as Hts.
    destruct (time_field (jget "timestamp" d) _) as [ts|e]; [|exact Hts]. rewrite res_bind_ok.
    split_and!; simpl; [apply Hc | apply Hs | | done |].
    - intros e ->. apply He.
    - assert (∀ s, (∃ t, in_range t = true ∧ s = isoformat t) →
                ∃ t, in_range t = true ∧ s = isoformat t ∧ ∀ now, as_utc now (TextTime s) = Ok t) as Hiso.
      { intros s (t & Hr & ->). exists t. split; [done|]. split; [done|]. intros now.
        by apply as_utc_isoformat. }
      intros s [-> | ->]; by apply Hiso. }
  destruct (parse_reading d c) as [sd|e] eqn:E; [done|]. split; [done|].
  intros w. unfold evaluate, mbind, M_bind, lift. by rewrite E.
Qed.
End readings.

(** ** Retrain recommendations *)

Lemma recommend_inv tp fp drift floor min_labels min_drift p :
  should_recommend_retrain tp fp drift floor min_labels min_drift = Ok (Some p) →
  (min_labels ≤ tp + fp)%Z ∧ (min_drift ≤ drift)%Z ∧
  float_div_int tp (tp + fp) = Ok p ∧ fge p floor = false.
Proof.
  unfold should_recommend_retrain. destruct (Z.ltb_spec (tp + fp) min_labels); [done|].
  destruct (Z.ltb_spec drift min_drift); [done|].
  intros (q & Hq & E)%res_bind_inv_ok. destruct (fge q floor) eqn:Hf; [done|].
  injection E as <-. done.
Qed.

Section retraining.
Context `{I : IsoCodec}.
Context (bind_error : exn) (uuid5 : string → Z) (cfg : config).
Context (rc : retrain_config) (company : string).

(** Why a recommendation was made: the tenant's own labels and drift alerts,
    as the database [d] holds them. *)
Definition retrain_basis (d : db) (now : Z) (a : alert) : Prop :=
  ∃ r model u n t p,
    ru_model r = Some model ∧ uuid_parse (uuid_str model) = Some u ∧
    schema_name company = Ok n ∧ tenants d !! n = Some t ∧
    let s := retrain_signals (db_now d) u (precision_window_days rc) (drift_lookback_hours rc) t in
    (min_labels rc ≤ s_tp s + s_fp s)%Z ∧ (min_drift_alerts rc ≤ s_drift s)%Z ∧
    float_div_int (s_tp s) (s_tp s + s_fp s) = Ok p ∧ fge p (precision_floor rc) = false ∧
    a = _build_retrain_alert now r company model p s (retrain_severity rc).

Lemma retrain_step_result acc r w l w' :
  retrain_step bind_error uuid5 cfg rc company acc r w = (Ok l, w') →
  l = acc ∨ ∃ a, l = (acc ++ [a])%list ∧ retrain_basis (wdb w) (wall w) a.
Proof.
  unfold retrain_step. destruct (ru_model r) as [model|] eqn:Hm; [|intros [= <- _]; by left].
  intros (s & w1 & E1 & E)%bind_inv_ok. unfold in_db, zoom in E1.
  destruct (get_retrain_signals _ _ _ _ (wdb w)) as [o d'] eqn:Eg. injection E1 as -> <-.
  assert (Hwall : wall (set_db d' w) = wall w) by done.
  unfold get_retrain_signals in Eg.
  apply bind_inv_ok in Eg as (n & d1 & Hn & Eg). apply lift_inv in Hn as [Hn ->].
  apply bind_inv_ok in Eg as (u & d2 & Hu & Eg). apply lift_inv in Hu as [Hu ->].
  apply bind_inv_ok in Eg as (now & d3 & Hnow & Eg). injection Hnow as <- <-.
  apply in_tenant_read in Eg as [_ Hs]; [|intros t a t' Hr; by injection Hr as _ <-].
  destruct (Hs s eq_refl) as (t & Ht & [= <-]). clear Hs.
  apply bind_inv_ok in E as (prec & w2 & Ep & E). apply lift_inv in Ep as [Ep ->].
  destruct prec as [p|]; [|injection E as <- _; by left].
  apply recommend_inv in Ep as (Hl & Hd & Hp & Hf).
  apply bind_inv_ok in E as (now & w3 & Hnow & E). injection Hnow as <- <-.
  apply bind_inv_ok in E as (b & w4 & _ & E). injection E as <- _.
  destruct b; [right | by left]. eexists. split; [done|].
  exists r, model, u, n, t, p. split; [exact Hm|].
  split; [|split; [exact Hn|split; [exact Ht|]]; cbv zeta; split_and!; [exact Hl|exact Hd|exact Hp|exact Hf|reflexivity]].
  destruct (uuid_parse (uuid_str model)) as [v|]; [by injection Hu as -> | discriminate Hu].
Qed.

Lemma retrain_loop rules : ∀ acc w l w',
  foldM (λ acc x, catch (retrain_step bind_error uuid5 cfg rc company acc x) (λ _, mret acc))
        acc rules w = (Ok l, w') →
  ∀ a, a ∈ l → a ∈ acc ∨ ∃ d now,
    db_saves (cooldown_us cfg) (retrain_cooldown_us rc) (mine_of company) (wdb w) d ∧
    retrain_basis d now a.
Proof.
  induction rules as [|r rules IH]; intros acc w l w' E a Ha; simpl in E.
  { injection E as <- _. by left. }
  apply bind_inv_ok in E as (acc1 & w1 & E1 & E).
  assert (Hs1 : db_saves (cooldown_us cfg) (retrain_cooldown_us rc) (mine_of company) (wdb w) (wdb w1)).
  { pose proof (retrain_step_saves bind_error uuid5 cfg (retrain_cooldown_us rc) company rc acc r
                  eq_refl w) as [H _]. unfold final in H. unfold catch in E1.
    destruct (retrain_step _ _ _ _ _ _ _ w) as [[l1|e] w2]; by injection E1 as _ <-. }
  destruct (IH _ _ _ _ E a Ha) as [Ha1 | (d & now & Hd & Hb)].
  2:{ right. exists d, now. split; [by etrans | done]. }
  unfold catch in E1.
  destruct (retrain_step _ _ _ _ _ _ _ w) as [[l1|e] w2] eqn:Er; injection E1 as <- <-; [|by left].
  apply retrain_step_result in Er as [-> | (b & -> & Hb)]; [by left|].
  apply elem_of_app in Ha1 as [Ha1 | Ha1%list_elem_of_singleton]; [by left | right].
  subst b. exists (wdb w), (wall w). split; [reflexivity | done].
Qed.

(** A retrain recommendation is raised only on both signals: every alert
    the pass returns is for a model whose decided labels reach the minimum,
    whose drift alerts are sustained and whose precision, counted from the
    tenant's own labels, is below the floor. *)
Theorem retrain_needs_both_signals w l w'
    (H : evaluate_retrain_recommendations bind_error uuid5 cfg rc company w = (Ok l, w')) :
  ∀ a, a ∈ l → ∃ d now,
    db_saves (cooldown_us cfg) (retrain_cooldown_us rc) (mine_of company) (wdb w) d ∧
    retrain_basis d now a.
Proof.
  intros a Ha. unfold evaluate_retrain_recommendations in H.
  apply bind_inv_ok in H as (rules & w1 & E & H). injection E as <- <-.
  destruct (retrain_loop _ _ _ _ _ H a Ha) as [Hin | ?]; [by apply elem_of_nil in Hin | done].
Qed.
End retraining.

(** ** Concrete runs *)

#[local] Existing Instance hex_iso.

Definition sample_cfg : config :=
  {| has_feature_store := false; cooldown_us := 300000000; dedup_cache_max := 10;
     feature_max_age := None |}.
Definition sample_world : world :=
  {| tenant_rules := {[ sample_company := [sample_rule] ]}; sensor_name_cache := ∅; last_emit := [];
     wdb := sample_db;
     wfs := {| use_memory := true; max_window := 100; ttl_us := 0; storage := ∅; redis := ∅;
               fs_calls := [] |};
     http := []; wall := 0 |}.
Definition sample_message (at_ : Z) : json :=
  JDict [("sensor_id", JStr (uuid_str 5)); ("value", JInt 150); ("time", JStr (isoformat at_))].
Definition sample_uuid5 (s : string) : Z := Z.of_nat (String.length s).
Definition sample_evaluate (at_ : Z) : M world (list alert) :=
  evaluate TypeError sample_uuid5 (λ _, "") sample_cfg (sample_message at_) (JStr sample_company).

(** The rule fires once, and within the cooldown not again. *)
Example sample_run :
  match sample_evaluate 7000000 sample_world with
  | (Ok [a], w) => match sample_evaluate 9000000 w with
                   | (Ok [], w') => bool_decide (map (λ t, length (t_alerts t)) (snd <$> map_to_list (tenants (wdb w'))) = [1%nat])
                   | _ => false
                   end
  | _ => false
  end = true.
Proof. vm_compute. reflexivity. Qed.

Lemma sample_cache_sound : cache_sound TypeError sample_world.
Proof. intros s t H. simpl in H. by apply elem_of_nil in H. Qed.

Lemma cooldown_durable_witness :
  let e := OnReading (sample_message 7000000) (JStr sample_company) in
  let w' := final (run_entry TypeError sample_uuid5 (λ _, "") (λ _, Err ValueError) sample_cfg e) sample_world in
  cooled_down sample_cfg 1 w' ∧
  (∀ s t, tenants (wdb sample_world) !! s = Some t → ∃ t', tenants (wdb w') !! s = Some t' ∧
     (∀ x, x ∈ t_alerts t → x ∈ t_alerts t') ∧
     (schema_name (entry_company e) ≠ Ok s → t' = t)).
Proof.
  intros e. apply (cooldown_durable TypeError sample_uuid5 (λ _, "") (λ _, Err ValueError) sample_cfg 1 e
                     sample_world).
  - exact I.
  - intros s t Ht.
    change (({[ sample_schema := sample_tenant ]} : gmap string tenant_db) !! s = Some t) in Ht.
    apply lookup_singleton_Some in Ht as [<- <-]. apply spaced_nil.
Defined.

(** The alert [sample_message] raises. *)
Definition sample_emitted : alert :=
  match found_alert {| p_sensor := uuid_str 5; p_equipment := None;
                       p_value := default (S754_zero false) (res_opt (float_of_Z 150));
                       p_time := Some (isoformat 7000000); p_timestamp := None; p_site := JNull |}
                    sample_rule sample_company with
  | Ok (Some a) => a
  | _ => sample_alert None ""
  end.

Lemma emit_refines_save_witness :
  ∃ r, bind_row TypeError sample_emitted
         (deterministic_alert_id sample_uuid5 (dedup_scope sample_emitted false) 7000000) 7000000 = Ok r ∧
    let saved := save_once false 300000000 r (t_alerts sample_tenant) in
    outcome (_emit TypeError sample_uuid5 sample_cfg sample_emitted false None) sample_world = Ok saved.1.1 ∧
    tenants (wdb (final (_emit TypeError sample_uuid5 sample_cfg sample_emitted false None) sample_world)) =
      <[sample_schema := set_alerts saved.2 sample_tenant]> (tenants (wdb sample_world)).
Proof.
  eexists. split; [vm_compute; reflexivity|].
  apply (emit_refines_save TypeError sample_uuid5 sample_cfg sample_emitted false None sample_world
           7000000 sample_schema sample_tenant);
    [exact sample_cache_sound | reflexivity | vm_compute; discriminate | vm_compute; reflexivity ..].
Defined.

Lemma redelivered_reading_witness :
  ∃ l w1, sample_evaluate 7000000 sample_world = (Ok l, w1) ∧ length l = 1%nat ∧
    tenants (wdb (final (sample_evaluate 7000000) w1)) = tenants (wdb w1) ∧
    ∀ l', outcome (sample_evaluate 7000000) w1 = Ok l' → l' = [].
Proof.
  assert (∃ l w1, sample_evaluate 7000000 sample_world = (Ok l, w1) ∧ length l = 1%nat ∧
            tenant_rules w1 = tenant_rules sample_world) as (l & w1 & H & Hl & Hr).
  { eexists _, _. split; [vm_compute; reflexivity|]. split; vm_compute; reflexivity. }
  exists l, w1. split; [exact H|]. split; [exact Hl|].
  eapply (redelivered_reading TypeError sample_uuid5 (λ _, "") sample_cfg (sample_message 7000000)
            (JStr sample_company) _ sample_world l w1 1 (λ _, True) w1).
  - vm_compute. reflexivity.
  - discriminate.
  - exact sample_cache_sound.
  - exact H.
  - reflexivity.
  - unfold rules_for. by rewrite Hr.
Defined.

Lemma alert_name_injective_witness :
  let a := sample_alert None "drift" in
  dedup_scope a false = dedup_scope a false ∧ 5%Z = 5%Z.
Proof.
  intros a. assert (engine_alert a false) as Ha.
  { split; [vm_compute; reflexivity|]. split; [|done]. split; [vm_compute; reflexivity|].
    by split_and!. }
  apply (alert_name_injective a a false false 5 5 Ha Ha); reflexivity.
Defined.

Definition sample_model_rule : rule :=
  {| rule_id := 11; ru_name := "drift"; ru_sensor := None; ru_equipment := None; ru_site := None;
     ru_detection := "statistical"; ru_condition := None; ru_threshold := None; ru_min := None;
     ru_max := None; ru_model := Some 3%Z; ru_anomaly_threshold := None; ru_severity := "high";
     ru_priority := None; ru_enabled := Some true; ru_created := None |}.
Definition sample_retrain : retrain_config :=
  {| precision_floor := S754_finite false 4503599627370496 (-53); min_labels := 2; min_drift_alerts := 0;
     precision_window_days := 30; drift_lookback_hours := 24; retrain_cooldown_us := 1;
     retrain_severity := "high" |}.
Definition sample_retrain_world : world :=
  let t := {| t_rules := [sample_model_rule]; t_alerts := []; t_sensors := ∅; t_models := ∅;
              t_configs := ∅;
              t_labels := [{| l_model := Some 3%Z; l_verdict := FalsePositive; l_at := 0 |};
                           {| l_model := Some 3%Z; l_verdict := FalsePositive; l_at := 0 |}] |} in
  set_db (set_tenants {[ sample_schema := t ]} sample_db)
    (update_rules {[ sample_company := [sample_model_rule] ]} sample_world).

Lemma retrain_needs_both_signals_witness :
  ∃ l w', evaluate_retrain_recommendations TypeError sample_uuid5 sample_cfg sample_retrain
            sample_company sample_retrain_world = (Ok l, w') ∧ length l = 1%nat ∧
    ∀ a, a ∈ l → ∃ d now,
      db_saves (cooldown_us sample_cfg) (retrain_cooldown_us sample_retrain) (mine_of sample_company)
        (wdb sample_retrain_world) d ∧
      retrain_basis sample_retrain sample_company d now a.
Proof.
  assert (∃ l w', evaluate_retrain_recommendations TypeError sample_uuid5 sample_cfg sample_retrain
            sample_company sample_retrain_world = (Ok l, w') ∧ length l = 1%nat) as (l & w' & H & Hl).
  { eexists _, _. split; vm_compute; reflexivity. }
  exists l, w'. split; [exact H|]. split; [exact Hl|].
  exact (retrain_needs_both_signals TypeError sample_uuid5 sample_cfg sample_retrain sample_company
           sample_retrain_world l w' H).
Defined.
