(* ===== verification/AlertConsumer.v ===== *)
(** * The at-least-once consumer: services/alert_service/worker/kafka_consumer.py

    [AlertKafkaConsumer] over a broker and an engine.  A partition's log is a
    list, an offset its index.  The outcomes of the calls to the broker are
    the world's [calls], the observations of [sender_ended] its [ended], both
    consumed in order.  The engine is an interface, [ReadingEvaluator]. *)

From stdpp Require Import base strings list gmap.
From Corelib Require Import SpecFloat.
From Stdlib Require Import ZArith Lia.
From S2P Require Import Prelude PyText PyNum PyJson AlertErrors.

Local Open Scope string_scope.

(** What the consumer needs of the rules engine: [evaluate] on a reading and
    its company, an exception for a reading it did not handle. *)
Class ReadingEvaluator (E : Type) := on_reading : json → json → M E unit.

(** ** Errors *)

(** aiokafka's KafkaError and its subclasses. *)
Definition is_kafka_error (e : exn) : bool :=
  match e with KafkaError _ | CommitFailed | StickyProducerError => true | _ => false end.

Definition _is_recoverable_commit_error (e : exn) : bool :=
  match e with CommitFailed => true | KafkaError retriable => retriable | _ => false end.

(** ** The broker *)

Abbreviation tp := (string * nat)%type.

Inductive outcome_of := HANDLED | RETRY_BATCH.
#[export] Instance outcome_of_eq_dec : EqDecision outcome_of.
Proof. solve_decision. Defined.

Section consumer.
Context `{J : JsonCodec} {Eng : Type} `{V : ReadingEvaluator Eng}.

(** [bytes.decode("utf-8")] and [bytes.hex()]. *)
Context (utf8 : bytes → option string) (hex : bytes → string).

Record settings := {
  max_retries : nat;                (** [max(1, KAFKA_MAX_RETRIES)] *)
  retry_backoff : float; max_backoff : float;
  dlq_topic : string }.
Context (cfg : settings).

(** A dead letter's envelope. *)
Record envelope := {
  e_original : option string; e_reason : exn; e_topic : string;
  e_partition : nat; e_offset : nat }.

Record consumer := {
  engine : Eng;
  logs : gmap tp (list (option bytes));
  assigned : list tp;
  position : gmap tp nat;
  committed : gmap tp nat;
  sent : list (string * envelope);
  (** The messages whose [_process_message] returned. *)
  evaluated : list (tp * nat);
  producer : nat;
  producers_started : nat;
  producers_replaced : nat;
  failed_batches : nat;
  calls : list call;
  ended : list bool }.

Definition upd_engine f c := {| engine := f (engine c); logs := logs c; assigned := assigned c;
  position := position c; committed := committed c; sent := sent c; evaluated := evaluated c;
  producer := producer c; producers_started := producers_started c;
  producers_replaced := producers_replaced c; failed_batches := failed_batches c;
  calls := calls c; ended := ended c |}.
Definition upd_offsets a p k c := {| engine := engine c; logs := logs c; assigned := a;
  position := p; committed := k; sent := sent c; evaluated := evaluated c;
  producer := producer c; producers_started := producers_started c;
  producers_replaced := producers_replaced c; failed_batches := failed_batches c;
  calls := calls c; ended := ended c |}.
Definition upd_logs l c := {| engine := engine c; logs := l; assigned := assigned c;
  position := position c; committed := committed c; sent := sent c; evaluated := evaluated c;
  producer := producer c; producers_started := producers_started c;
  producers_replaced := producers_replaced c; failed_batches := failed_batches c;
  calls := calls c; ended := ended c |}.
Definition upd_done s v c := {| engine := engine c; logs := logs c; assigned := assigned c;
  position := position c; committed := committed c; sent := s; evaluated := v;
  producer := producer c; producers_started := producers_started c;
  producers_replaced := producers_replaced c; failed_batches := failed_batches c;
  calls := calls c; ended := ended c |}.
Definition upd_producer p st r c := {| engine := engine c; logs := logs c; assigned := assigned c;
  position := position c; committed := committed c; sent := sent c; evaluated := evaluated c;
  producer := p; producers_started := st; producers_replaced := r;
  failed_batches := failed_batches c; calls := calls c; ended := ended c |}.
Definition upd_failed n c := {| engine := engine c; logs := logs c; assigned := assigned c;
  position := position c; committed := committed c; sent := sent c; evaluated := evaluated c;
  producer := producer c; producers_started := producers_started c;
  producers_replaced := producers_replaced c; failed_batches := n;
  calls := calls c; ended := ended c |}.
Definition upd_calls l o c := {| engine := engine c; logs := logs c; assigned := assigned c;
  position := position c; committed := committed c; sent := sent c; evaluated := evaluated c;
  producer := producer c; producers_started := producers_started c;
  producers_replaced := producers_replaced c; failed_batches := failed_batches c;
  calls := l; ended := o |}.

(** A call to the broker with the effect [f]. *)
Definition broker (f : consumer → consumer) : M consumer unit := λ c,
  let '(o, l) := first_call (calls c) in
  let c' := upd_calls l (ended c) c in
  match o with
  | Runs => (Ok tt, f c')
  | Fails e => (Err e, c')
  | Lost e => (Err e, f c')
  end.

(** [sender_ended(producer)], as observed now. *)
Definition sender_ended : M consumer bool := λ c,
  match ended c with
  | [] => (Ok false, c)
  | b :: l => (Ok b, upd_calls (calls c) l c)
  end.

(** ** Sending *)

(** [_send_on]: the message is on the topic unless the send failed. *)
Definition _send_on (topic : string) (v : envelope) : M consumer unit :=
  broker (λ c, upd_done (sent c ++ [(topic, v)])%list (evaluated c) c).

(** [_replace_producer], under the producer lock: the new one becomes the
    producer once it has started. *)
Definition _replace_producer (broken : nat) : M consumer unit :=
  p ← gets producer;
  if negb (p =? broken)%nat then mret tt
  else
    started ← gets producers_started;
    _ ← modify (λ c, upd_producer (producer c) (S (producers_started c)) (producers_replaced c) c);
    _ ← broker (λ c, c);
    modify (λ c, upd_producer started (producers_started c) (S (producers_replaced c)) c).

Definition send_again (broken : nat) (topic : string) (v : envelope) : M consumer unit :=
  _ ← _replace_producer broken; _send_on topic v.

Definition send (topic : string) (v : envelope) : M consumer unit :=
  first ← gets producer;
  dead ← sender_ended;
  _ ← (if dead : bool then _replace_producer first else mret tt);
  used ← gets producer;
  catch (_send_on topic v)
        (λ e, match e with
              | StickyProducerError => send_again used topic v
              | e => if is_kafka_error e || bool_decide (e = TimeoutError)
                     then dead ← sender_ended;
                          if dead : bool then send_again used topic v else raise e
                     else raise e
              end).

(** ** One message *)

Record message := { m_tp : tp; m_offset : nat; m_value : option bytes }.

Definition decode_message (raw : option bytes) : res dict :=
  match raw with
  | None => Err (MessageValidationError "record has no value")
  | Some b =>
      match json_loads b with
      | Ok (JDict d) => Ok d
      | Ok _ => Err (MessageValidationError "record is not a JSON object")
      | Err UnicodeDecodeError | Err JSONDecodeError =>
          Err (MessageValidationError "record is not UTF-8 JSON")
      | Err e => Err e
      end
  end.

Definition _process_message (d : dict) : M consumer unit :=
  let company_id := jget "company_id" d in
  if negb (truthy company_id) then raise (MessageValidationError "reading has no company_id")
  else zoom engine (λ e, upd_engine (λ _, e)) (on_reading (JDict d) company_id).

Definition original_text (raw : option bytes) : option string :=
  match raw with
  | None => None
  | Some b => Some (match utf8 b with Some s => s | None => hex b end)
  end.

(** [_dead_letter]; the reason is the exception whose text it is. *)
Definition _dead_letter (m : message) (reason : exn) : M consumer outcome_of :=
  catch (_ ← send (dlq_topic cfg)
               {| e_original := original_text (m_value m); e_reason := reason;
                  e_topic := (m_tp m).1; e_partition := (m_tp m).2; e_offset := m_offset m |};
         mret HANDLED)
        (λ _, mret RETRY_BATCH).

Definition mark_evaluated (m : message) : M consumer unit :=
  modify (λ c, upd_done (sent c) (evaluated c ++ [(m_tp m, m_offset m)])%list c).

(** The attempts left; [last] is the error of the one before. *)
Fixpoint attempts (n : nat) (m : message) (d : dict) (last : exn) : M consumer outcome_of :=
  match n with
  | O => _dead_letter m last
  | S n =>
      catch (_ ← _process_message d; _ ← mark_evaluated m; mret HANDLED)
            (λ e, match e with
                  | MessageValidationError _ => _dead_letter m e
                  | e => if is_infrastructure_error e then mret RETRY_BATCH else attempts n m d e
                  end)
  end.

Definition _handle_message (m : message) : M consumer outcome_of :=
  match decode_message (m_value m) with
  | Err (MessageValidationError r) => _dead_letter m (MessageValidationError r)
  | Err e => raise e
  | Ok d => attempts (max_retries cfg) m d OtherError
  end.

(** ** Batches *)

(** The messages of one partition, in order; [None] once one was not
    handled. *)
Fixpoint handle_all (ms : list message) (offsets : gmap tp nat) : M consumer (option (gmap tp nat)) :=
  match ms with
  | [] => mret (Some offsets)
  | m :: rest =>
      o ← _handle_message m;
      match o with
      | HANDLED => handle_all rest (<[m_tp m := S (m_offset m)]> offsets)
      | RETRY_BATCH => mret None
      end
  end.

Definition commit (offsets : gmap tp nat) : M consumer unit :=
  broker (λ c, upd_offsets (assigned c) (position c) (offsets ∪ committed c) c).

Definition _handle_batch (data : list message) : M consumer bool :=
  offsets ← handle_all data ∅;
  match offsets with
  | None => mret false
  | Some offsets =>
      catch (_ ← commit offsets; mret true)
            (λ e, if _is_recoverable_commit_error e then mret false else raise e)
  end.

(** [_seek_to_committed]: to the beginning where nothing was committed. *)
Fixpoint seek_each (tps : list tp) : M consumer unit :=
  match tps with
  | [] => mret tt
  | p :: rest =>
      _ ← broker (λ c, upd_offsets (assigned c)
                         (<[p := default O (committed c !! p)]> (position c)) (committed c) c);
      seek_each rest
  end.
Definition _seek_to_committed : M consumer unit :=
  tps ← gets assigned; seek_each tps.

(** [min(backoff * 2 ** (failed - 1), cap)]: the power is an exact int, made
    a float for the product. *)
Definition backoff_delay (failed : nat) : res float :=
  p ← float_of_Z (2 ^ (Z.of_nat failed - 1));
  let d := fmul (retry_backoff cfg) p in
  Ok (if flt (max_backoff cfg) d then max_backoff cfg else d).

Definition _rewind_and_back_off : M consumer float :=
  _ ← modify (λ c, upd_failed (S (failed_batches c)) c);
  _ ← _seek_to_committed;
  failed ← gets failed_batches;
  lift (backoff_delay failed).

(** ** The loop *)

(** [getmany]: up to [n] records of each assigned partition asked for, in
    order, the positions past them. *)
Definition fetch_one (c : consumer) (p : tp) (n : nat) : list message :=
  let pos := default O (position c !! p) in
  imap (λ i v, {| m_tp := p; m_offset := pos + i; m_value := v |})
       (take n (drop pos (default [] (logs c !! p)))).

Fixpoint fetch (plan : list (tp * nat)) (c : consumer) : list message * consumer :=
  match plan with
  | [] => ([], c)
  | (p, n) :: rest =>
      if bool_decide (p ∈ assigned c) then
        let ms := fetch_one c p n in
        let c' := upd_offsets (assigned c)
                    (<[p := (default O (position c !! p) + length ms)%nat]> (position c))
                    (committed c) c in
        let '(ms', c'') := fetch rest c' in (ms ++ ms', c'')%list
      else fetch rest c
  end.
Definition getmany (plan : list (tp * nat)) : M consumer (list message) := λ c,
  match broker (λ c, c) c with
  | (Ok _, c') => let '(ms, c'') := fetch plan c' in (Ok ms, c'')
  | (Err e, c') => (Err e, c')
  end.

(** One turn of [consume_messages]; an exception ends the loop. *)
Definition consume_once (plan : list (tp * nat)) : M consumer unit :=
  data ← getmany plan;
  match data with
  | [] => mret tt
  | _ =>
      ok ← _handle_batch data;
      if ok : bool then modify (upd_failed O)
      else _ ← _rewind_and_back_off; mret tt
  end.

(** ** Runs

    The group coordinator may move the assignment at any time, the log may
    grow, and a loop that an exception ended is started again by a new
    process, which begins at the committed offsets. *)
Inductive event :=
  | Poll (plan : list (tp * nat))
  | Reassigned (tps : list tp)
  | Appended (p : tp) (v : option bytes).

Definition restart (tps : list tp) (c : consumer) : consumer :=
  upd_offsets tps (committed c) (committed c) c.

Definition run_event (ev : event) (c : consumer) : consumer :=
  match ev with
  | Poll plan => match consume_once plan c with
                 | (Ok _, c') => c'
                 | (Err _, c') => restart (assigned c') c'
                 end
  | Reassigned tps => restart tps c
  | Appended p v => upd_logs (<[p := (default [] (logs c !! p) ++ [v])%list]> (logs c)) c
  end.

Definition run (evs : list event) (c : consumer) : consumer := foldl (λ c ev, run_event ev c) c evs.

(** ** Handled messages *)

(** The message at [o] of [p] was evaluated, or is on the dead-letter topic. *)
Definition handled (c : consumer) (p : tp) (o : nat) : Prop :=
  (p, o) ∈ evaluated c ∨
  ∃ v, (dlq_topic cfg, v) ∈ sent c ∧ e_topic v = p.1 ∧ e_partition v = p.2 ∧ e_offset v = o.

(** Nothing that was done is undone. *)
Definition keeps (c c' : consumer) : Prop :=
  evaluated c `prefix_of` evaluated c' ∧ sent c `prefix_of` sent c'.

(** ... and the log and the offsets stay. *)
Definition at_place (c c' : consumer) : Prop :=
  keeps c c' ∧ logs c' = logs c ∧ assigned c' = assigned c ∧ position c' = position c ∧
  committed c' = committed c.

#[export] Instance keeps_preorder : PreOrder keeps.
Proof.
  split; [intros c; by split|]. intros c1 c2 c3 [? ?] [? ?]. split; by etrans.
Qed.

#[export] Instance at_place_preorder : PreOrder at_place.
Proof.
  split; [intros c; by split_and!|].
  intros c1 c2 c3 (? & ? & ? & ? & ?) (? & ? & ? & ? & ?). split_and!; [by etrans | congruence..].
Qed.

Lemma prefix_elem {A} (l l' : list A) x : l `prefix_of` l' → x ∈ l → x ∈ l'.
Proof. intros [k ->] H. apply elem_of_app. by left. Qed.

Lemma handled_keeps c c' p o : keeps c c' → handled c p o → handled c' p o.
Proof.
  intros [He Hs] [H | (v & H & ?)]; [left; by eapply prefix_elem | right].
  exists v. split; [by eapply prefix_elem | done].
Qed.

(** What sending respects: a preorder that does not see the calls and the
    producers, and that the message sent respects. *)
Section sending.
Context (R : consumer → consumer → Prop) `{!PreOrder R}.
Context (Rcalls : ∀ l o c, R c (upd_calls l o c)).
Context (Rproducer : ∀ p n r c, R c (upd_producer p n r c)).

Lemma broker_respects f : (∀ c, R c (f c)) → respects R (broker f).
Proof using PreOrder0 Rcalls.
  intros Hf c. unfold final, broker. destruct (first_call (calls c)) as [o l].
  pose proof (Rcalls l (ended c) c) as H.
  destruct o; simpl; [|done|]; (etrans; [exact H | apply Hf]).
Qed.

Lemma sender_ended_respects : respects R sender_ended.
Proof using PreOrder0 Rcalls. intros c. unfold final, sender_ended. destruct (ended c); [reflexivity | apply Rcalls]. Qed.

Lemma replace_respects (broken : nat) : respects R (_replace_producer broken).
Proof using PreOrder0 Rcalls Rproducer.
  unfold _replace_producer. apply respects_bind; [apply _ | apply respects_gets, _ |]. intros p.
  destruct (negb _); [apply respects_ret, _|].
  apply respects_bind; [apply _ | apply respects_gets, _ |]. intros n.
  apply respects_bind; [apply _ | apply respects_modify; intros c; apply Rproducer |]. intros _.
  apply respects_bind; [apply _ | by apply broker_respects |]. intros _.
  apply respects_modify. intros c. apply Rproducer.
Qed.

Lemma send_respects topic v :
  (∀ c, R c (upd_done (sent c ++ [(topic, v)])%list (evaluated c) c)) → respects R (send topic v).
Proof using PreOrder0 Rcalls Rproducer.
  intros Hs. assert (respects R (_send_on topic v)) as Hon by by apply broker_respects.
  assert (∀ u, respects R (send_again u topic v)) as Ha.
  { intros u. apply respects_bind; [apply _ | apply replace_respects |]. intros _. exact Hon. }
  unfold send. apply respects_bind; [apply _ | apply respects_gets, _ |]. intros first.
  apply respects_bind; [apply _ | apply sender_ended_respects |]. intros dead.
  apply respects_bind; [apply _ | destruct dead; [apply replace_respects | apply respects_ret, _] |].
  intros _. apply respects_bind; [apply _ | apply respects_gets, _ |]. intros used.
  apply respects_catch; [apply _ | exact Hon |].
  assert (∀ e, respects R (if is_kafka_error e || bool_decide (e = TimeoutError)
            then dead ← sender_ended; if dead : bool then send_again used topic v else raise e
            else raise e)) as He.
  { intros e. destruct (_ || _); [|apply respects_raise, _].
    apply respects_bind; [apply _ | apply sender_ended_respects |]. intros b.
    destruct b; [apply Ha | apply respects_raise, _]. }
  intros []; first [apply Ha | apply He].
Qed.
End sending.

Lemma place_calls l o c : at_place c (upd_calls l o c).
Proof. by split_and!. Qed.
Lemma place_producer p n r c : at_place c (upd_producer p n r c).
Proof. by split_and!. Qed.

Lemma broker_place f : (∀ c, at_place c (f c)) → respects at_place (broker f).
Proof. apply broker_respects; [apply _ | apply place_calls]. Qed.

Lemma done_place c s v :
  sent c `prefix_of` s → evaluated c `prefix_of` v → at_place c (upd_done s v c).
Proof. intros Hs Hv. split; [by split | by split_and!]. Qed.

Lemma send_place topic v : respects at_place (send topic v).
Proof.
  apply send_respects; [apply _ | apply place_calls | apply place_producer |].
  intros c. apply done_place; [by exists [(topic, v)] | done].
Qed.

Lemma dead_letter_place m e : respects at_place (_dead_letter m e).
Proof.
  unfold _dead_letter. apply respects_catch; [apply _ | |intros _; apply respects_ret, _].
  apply respects_bind; [apply _ | apply send_place |]. intros _. apply respects_ret, _.
Qed.

Lemma process_place d : respects at_place (_process_message d).
Proof.
  unfold _process_message. destruct (negb _); [apply respects_raise, _|].
  apply (respects_zoom _ _ _ (λ _ _, True)); [|done]. intros c e _. by split_and!.
Qed.

Lemma attempts_place n m d e : respects at_place (attempts n m d e).
Proof.
  revert e. induction n as [|n IH]; intros e; simpl; [apply dead_letter_place|].
  apply respects_catch; [apply _ | |].
  - apply respects_bind; [apply _ | apply process_place |]. intros _.
    apply respects_bind; [apply _ | | intros _; apply respects_ret, _].
    apply respects_modify. intros c. apply done_place; [done | by eexists].
  - assert (∀ e, respects at_place (if is_infrastructure_error e then mret RETRY_BATCH
                                    else attempts n m d e)) as He
      by (intros e'; destruct (is_infrastructure_error e'); [apply respects_ret, _ | apply IH]).
    intros []; first [apply dead_letter_place | apply He].
Qed.

Lemma handle_message_place m : respects at_place (_handle_message m).
Proof.
  unfold _handle_message. destruct (decode_message (m_value m)) as [d|e]; [apply attempts_place|].
  destruct e; first [apply dead_letter_place | apply respects_raise, _].
Qed.

(** *** A handled message is evaluated or dead-lettered *)

Ltac absurd_run H := unfold raise, lift, mret, M_ret in H; discriminate H.

Definition dead_letter_of (m : message) (e : exn) : envelope :=
  {| e_original := original_text (m_value m); e_reason := e;
     e_topic := (m_tp m).1; e_partition := (m_tp m).2; e_offset := m_offset m |}.

Lemma broker_ok f c c' : broker f c = (Ok tt, c') → ∃ l, c' = f (upd_calls l (ended c) c).
Proof.
  unfold broker. destruct (first_call (calls c)) as [[] l]; intros [= <-]. by exists l.
Qed.

Lemma send_on_ok topic v c c' : _send_on topic v c = (Ok tt, c') → (topic, v) ∈ sent c'.
Proof.
  intros (l & ->)%broker_ok. simpl. apply elem_of_app. right. by apply list_elem_of_singleton.
Qed.

Lemma send_again_ok broken topic v c c' :
  send_again broken topic v c = (Ok tt, c') → (topic, v) ∈ sent c'.
Proof. unfold send_again. intros (? & c1 & _ & H)%bind_inv_ok. by eapply send_on_ok. Qed.

Lemma send_ok topic v c c' : send topic v c = (Ok tt, c') → (topic, v) ∈ sent c'.
Proof.
  unfold send. intros (f & c1 & _ & H)%bind_inv_ok. apply bind_inv_ok in H as (d & c2 & _ & H).
  apply bind_inv_ok in H as (? & c3 & _ & H). apply bind_inv_ok in H as (u & c4 & _ & H).
  unfold catch in H. destruct (_send_on topic v c4) as [[[]|e] c5] eqn:Es.
  { injection H as <-. by eapply send_on_ok. }
  assert (∀ e, (if is_kafka_error e || bool_decide (e = TimeoutError)
            then dead ← sender_ended; if dead : bool then send_again u topic v else raise e
            else raise e) c5 = (Ok tt, c') → (topic, v) ∈ sent c') as He.
  { intros e'. destruct (is_kafka_error e' || bool_decide (e' = TimeoutError)); [|intros H'; absurd_run H'].
    intros (b & c6 & _ & H')%bind_inv_ok. destruct b; [by eapply send_again_ok | absurd_run H']. }
  set (e' := e) in H. destruct e; first [exact (send_again_ok _ _ _ _ _ H) | exact (He e' H)].
Qed.

Lemma dead_letter_ok m e c o c' : _dead_letter m e c = (Ok o, c') →
  o = RETRY_BATCH ∨ o = HANDLED ∧ (dlq_topic cfg, dead_letter_of m e) ∈ sent c'.
Proof.
  unfold _dead_letter, catch. fold (dead_letter_of m e).
  destruct (mbind _ (send _ _) c) as [[o'|e'] c1] eqn:E.
  - intros [= <- <-]. right. apply bind_inv_ok in E as ([] & c2 & Es & E).
    injection E as <- <-. split; [done|]. by eapply send_ok.
  - intros [= <- <-]. by left.
Qed.

Lemma dead_letter_total m e c : ∃ o c', _dead_letter m e c = (Ok o, c').
Proof.
  unfold _dead_letter, catch. destruct (mbind _ (send _ _) c) as [[o'|e'] c1]; unfold mret, M_ret; eauto.
Qed.

Lemma dead_letter_handled m e c c' :
  _dead_letter m e c = (Ok HANDLED, c') → handled c' (m_tp m) (m_offset m).
Proof.
  intros [H | [_ H]]%dead_letter_ok; [done|]. right. by exists (dead_letter_of m e).
Qed.

Lemma attempts_handled n m d e c c' :
  attempts n m d e c = (Ok HANDLED, c') → handled c' (m_tp m) (m_offset m).
Proof.
  revert e c. induction n as [|n IH]; intros e c; simpl; [apply dead_letter_handled|].
  unfold catch at 1. destruct (mbind _ (_process_message d) c) as [[o|e1] c1] eqn:E1.
  - intros [= -> <-]. apply bind_inv_ok in E1 as ([] & c2 & _ & E1).
    apply bind_inv_ok in E1 as ([] & c3 & Em & E1). injection E1 as <-. injection Em as <-.
    left. simpl. apply elem_of_app. right. by apply list_elem_of_singleton.
  - assert (∀ e, (if is_infrastructure_error e then mret RETRY_BATCH else attempts n m d e) c1 =
              (Ok HANDLED, c') → handled c' (m_tp m) (m_offset m)) as He
      by (intros e'; destruct (is_infrastructure_error e'); [intros H; absurd_run H | apply IH]).
    destruct e1; first [apply dead_letter_handled | apply He].
Qed.

Lemma handle_message_handled m c c' :
  _handle_message m c = (Ok HANDLED, c') → handled c' (m_tp m) (m_offset m).
Proof.
  unfold _handle_message. destruct (decode_message (m_value m)) as [d|e]; [apply attempts_handled|].
  destruct e; first [apply dead_letter_handled | done].
Qed.

(** *** A batch *)

Lemma handle_all_spec ms : ∀ offs c off c',
  handle_all ms offs c = (Ok (Some off), c') →
  (∀ m, m ∈ ms → handled c' (m_tp m) (m_offset m)) ∧
  (∀ p k, off !! p = Some k → offs !! p = Some k ∨
     ∃ m, m ∈ ms ∧ m_tp m = p ∧ k = S (m_offset m)).
Proof.
  induction ms as [|m ms IH]; intros offs c off c' E; simpl in E.
  { injection E as <- <-. split; [|auto]. by intros m ?%elem_of_nil. }
  apply bind_inv_ok in E as (o & c1 & E1 & E). destruct o; [|absurd_run E].
  pose proof (handle_message_handled _ _ _ E1) as Hh.
  assert (Hk : at_place c1 c').
  { assert (respects at_place (handle_all ms (<[m_tp m := S (m_offset m)]> offs))) as Hr.
    { clear. revert offs m. induction ms as [|x ms IHm]; intros offs m; simpl; [apply respects_ret, _|].
      apply respects_bind; [apply _ | apply handle_message_place |].
      intros []; [apply (IHm _ x) | apply respects_ret, _]. }
    specialize (Hr c1). unfold final in Hr. by rewrite E in Hr. }
  apply IH in E as [Hms Hoff]. split.
  - intros x [-> | Hx]%elem_of_cons; [|auto]. eapply handled_keeps; [apply Hk | done].
  - intros p k Hp. destruct (Hoff p k Hp) as [Hi | (x & Hx & ?)].
    + apply lookup_insert_Some in Hi as [[<- <-] | [_ Hi]]; [|by left].
      right. exists m. split; [left | done].
    + right. exists x. split; [by right | done].
Qed.

Lemma handle_all_place ms : ∀ offs, respects at_place (handle_all ms offs).
Proof.
  induction ms as [|m ms IH]; intros offs; simpl; [apply respects_ret, _|].
  apply respects_bind; [apply _ | apply handle_message_place |].
  intros []; [apply IH | apply respects_ret, _].
Qed.

(** *** Positions and commits *)

Abbreviation pos c p := (default O (position c !! p)).
Abbreviation com c p := (default O (committed c !! p)).
Abbreviation log c p := (default [] (logs c !! p)).

(** Everything below a committed offset is handled. *)
Definition committed_safe (c : consumer) : Prop :=
  ∀ p, (com c p ≤ length (log c p))%nat ∧ ∀ o, (o < com c p)%nat → handled c p o.
(** Everything below a position is. *)
Definition position_safe (c : consumer) : Prop :=
  ∀ p, (pos c p ≤ length (log c p))%nat ∧ ∀ o, (o < pos c p)%nat → handled c p o.

Lemma committed_safe_place c c' : at_place c c' → committed_safe c → committed_safe c'.
Proof.
  intros (Hk & Hl & _ & _ & Hc) H p. rewrite Hl, Hc. destruct (H p) as [Hlen Hh].
  split; [done|]. intros o Ho. eapply handled_keeps; eauto.
Qed.

Lemma position_safe_place c c' : at_place c c' → position_safe c → position_safe c'.
Proof.
  intros (Hk & Hl & _ & Hp & _) H p. rewrite Hl, Hp. destruct (H p) as [Hlen Hh].
  split; [done|]. intros o Ho. eapply handled_keeps; eauto.
Qed.

Lemma restart_safe tps c : committed_safe c → committed_safe (restart tps c) ∧ position_safe (restart tps c).
Proof. intros H. split; exact H. Qed.

(** What a fetch gave: for each partition the records from its position up
    to the new one. *)
Definition fetched (c : consumer) (ms : list message) (c' : consumer) : Prop :=
  keeps c c' ∧ logs c' = logs c ∧ assigned c' = assigned c ∧ committed c' = committed c ∧
  evaluated c' = evaluated c ∧ sent c' = sent c ∧
  (∀ p, p ∉ assigned c → pos c' p = pos c p) ∧
  (∀ p, (pos c p ≤ length (log c p))%nat → (pos c' p ≤ length (log c p))%nat) ∧
  (∀ m, m ∈ ms → (m_offset m < pos c' (m_tp m))%nat) ∧
  (∀ p o, (pos c p ≤ o < pos c' p)%nat → ∃ m, m ∈ ms ∧ m_tp m = p ∧ m_offset m = o) ∧
  (∀ p, (pos c p ≤ pos c' p)%nat).

Lemma fetch_one_elem c p n m :
  m ∈ fetch_one c p n ↔
  ∃ i v, m = {| m_tp := p; m_offset := pos c p + i; m_value := v |} ∧
         take n (drop (pos c p) (log c p)) !! i = Some v.
Proof.
  unfold fetch_one. rewrite elem_of_lookup_imap. naive_solver.
Qed.

Lemma fetch_spec plan : ∀ c ms c', fetch plan c = (ms, c') → fetched c ms c'.
Proof.
  induction plan as [|[p n] plan IH]; intros c ms c' E; simpl in E.
  { injection E as <- <-. unfold fetched. split_and!; try done.
    - by intros m ?%elem_of_nil.
    - intros p o Ho. lia. }
  case_bool_decide as Hp; [|by apply IH].
  set (c1 := upd_offsets (assigned c)
               (<[p := (pos c p + length (fetch_one c p n))%nat]> (position c)) (committed c) c) in *.
  destruct (fetch plan c1) as [ms' c2] eqn:E2. injection E as <- <-.
  destruct (IH _ _ _ E2) as (Hk & Hl & Ha & Hc & He & Hs & Hout & Hlen & Hin & Hcov & Hle).
  assert (Hp1 : pos c1 p = (pos c p + length (fetch_one c p n))%nat)
    by (simpl; by rewrite lookup_insert_eq).
  assert (Hq1 : ∀ q, q ≠ p → pos c1 q = pos c q)
    by (intros q Hq; simpl; by rewrite lookup_insert_ne).
  assert (Hfl : length (fetch_one c p n) = min n (length (log c p) - pos c p)%nat)
    by (unfold fetch_one; by rewrite length_imap, length_take, length_drop).
  unfold fetched. simpl in Hk, Hl, Ha, Hc, He, Hs, Hout. split_and!; try done.
  - intros q Hq. rewrite Hout by done. rewrite lookup_insert_ne; [done|]. intros ->. done.
  - intros q Hq. apply (Hlen q). change (log c1 q) with (log c q).
    destruct (decide (q = p)) as [-> | Hne]; [rewrite Hp1; lia | by rewrite Hq1].
  - intros m [Hm | Hm]%elem_of_app; [|auto].
    apply fetch_one_elem in Hm as (i & v & -> & Hi). simpl.
    apply lookup_lt_Some in Hi. rewrite length_take, length_drop in Hi.
    specialize (Hle p). rewrite Hp1 in Hle. lia.
  - intros q o Ho. destruct (decide (q = p)) as [-> | Hne].
    + destruct (decide (o < pos c1 p)%nat) as [Hlt | Hge].
      * rewrite Hp1 in Hlt.
        destruct (lookup_lt_is_Some_2 (take n (drop (pos c p) (log c p))) (o - pos c p)) as [v Hv].
        { rewrite length_take, length_drop. lia. }
        exists {| m_tp := p; m_offset := pos c p + (o - pos c p); m_value := v |}.
        split; [|split; [done | simpl; lia]]. apply elem_of_app. left.
        apply fetch_one_elem. eauto.
      * destruct (Hcov p o ltac:(lia)) as (m & Hm & ?). exists m.
        split; [apply elem_of_app; by right | done].
    + destruct (Hcov q o) as (m & Hm & ?); [by rewrite Hq1|]. exists m.
      split; [apply elem_of_app; by right | done].
  - intros q. specialize (Hle q). destruct (decide (q = p)) as [-> | Hne]; [lia|].
    by rewrite Hq1 in Hle.
Qed.

(** One partition's position, reset or safe already. *)
Definition safe_at (c : consumer) (p : tp) (k : nat) : Prop :=
  (k ≤ length (log c p))%nat ∧ ∀ o, (o < k)%nat → handled c p o.

(** A step that only moves positions. *)
Definition moves (c c' : consumer) : Prop :=
  logs c' = logs c ∧ assigned c' = assigned c ∧ committed c' = committed c ∧
  evaluated c' = evaluated c ∧ sent c' = sent c.

#[local] Instance moves_preorder : PreOrder moves.
Proof.
  split; [by intros c|]. intros c1 c2 c3 (? & ? & ? & ? & ?) (? & ? & ? & ? & ?).
  split_and!; congruence.
Qed.

Lemma moves_safe_at c c' p k : moves c c' → safe_at c p k → safe_at c' p k.
Proof.
  intros (Hl & _ & _ & He & Hs) [Hlen Hh]. unfold safe_at, handled. rewrite Hl, He, Hs. by split.
Qed.

Lemma moves_committed_safe c c' : moves c c' → committed_safe c → committed_safe c'.
Proof.
  intros Hm H p. destruct Hm as (Hl & Ha & Hc & He & Hs). rewrite Hc.
  apply (moves_safe_at c c' p (com c p)); [by split_and! | apply H].
Qed.

Lemma seek_each_spec tps : ∀ c o c', seek_each tps c = (o, c') →
  moves c c' ∧
  (∀ p, pos c' p = pos c p ∨ pos c' p = com c p) ∧
  (o = Ok tt → ∀ p, p ∈ tps → pos c' p = com c p).
Proof.
  induction tps as [|q tps IH]; intros c o c' Hrun; simpl in Hrun.
  { unfold mret, M_ret in Hrun. injection Hrun as <- <-. split; [done|]. split; [auto|]. by intros _ p Hin%elem_of_nil. }
  unfold mbind, M_bind in Hrun.
  destruct (broker _ c) as [o1 c1] eqn:E1.
  assert (moves c c1 ∧ (∀ p, pos c1 p = pos c p ∨ pos c1 p = com c p) ∧
          (o1 = Ok tt → pos c1 q = com c q)) as (Hm & Hp & Hq).
  { unfold broker in E1. destruct (first_call (calls c)) as [r l].
    assert (∀ p, default O (<[q := com c q]> (position c) !! p) = pos c p ∨
                 default O (<[q := com c q]> (position c) !! p) = com c p) as Hins.
    { intros p. destruct (decide (q = p)) as [<- | Hne];
        [rewrite lookup_insert_eq; by right | rewrite lookup_insert_ne by done; by left]. }
    destruct r; injection E1 as <- <-; (split; [by split_and!|]); simpl;
      (split; [first [exact Hins | by left]|]); try done.
    intros _. by rewrite lookup_insert_eq. }
  destruct o1 as [[]|e]; [|injection Hrun as <- <-; by split_and!].
  apply IH in Hrun as (Hm' & Hp' & Hok). destruct Hm as (Hl & Ha & Hc & He & Hs).
  rewrite Hc in Hp', Hok. split_and!.
  - etrans; [|exact Hm']. by split_and!.
  - intros p. destruct (Hp' p) as [-> | ->]; [apply Hp | by right].
  - intros Ho p [-> | Hin]%elem_of_cons; [|by apply Hok].
    destruct (Hp' q) as [-> | ->]; [by apply Hq | done].
Qed.

(** A rewind from a state whose unassigned positions are safe. *)
Lemma rewind_safe c o c' :
  committed_safe c → (∀ p, p ∉ assigned c → safe_at c p (pos c p)) →
  _rewind_and_back_off c = (o, c') →
  committed_safe c' ∧ ∀ d, o = Ok d → position_safe c'.
Proof.
  intros Hc Hp E. unfold _rewind_and_back_off, _seek_to_committed, mbind, M_bind, modify, gets, lift in E.
  set (c1 := upd_failed (S (failed_batches c)) c) in *. cbn in E.
  destruct (seek_each (assigned c) c1) as [o1 c2] eqn:E1.
  apply seek_each_spec in E1 as (Hm & Hpos & Hok).
  assert (Hc2 : committed_safe c2) by (eapply moves_committed_safe; [exact Hm | exact Hc]).
  destruct o1 as [[]|e]; cbn in E; injection E as E <-; (split; [done|]); [|by subst].
  intros d _ p. apply (moves_safe_at c1 c2 p _ Hm).
  destruct (decide (p ∈ assigned c)) as [Hin | Hout].
  - rewrite (Hok eq_refl p Hin). apply Hc.
  - destruct (Hpos p) as [-> | ->]; [by apply Hp | apply Hc].
Qed.

(** The state a batch leaves: handled up to the new positions where it
    succeeded, and safe to rewind from where it did not. *)
Lemma handle_batch_safe c0 ms c1 o c' :
  committed_safe c0 → position_safe c0 → fetched c0 ms c1 →
  _handle_batch ms c1 = (o, c') →
  committed_safe c' ∧
  (o = Ok true → position_safe c') ∧
  (∀ p, p ∉ assigned c' → safe_at c' p (pos c' p)).
Proof.
  intros Hc Hp (Hk & Hl & Ha & Hcm & He & Hs & Hout & Hlen & Hin & Hcov & Hle) E.
  unfold _handle_batch, mbind, M_bind in E.
  destruct (handle_all ms ∅ c1) as [o2 c2] eqn:E2.
  pose proof (handle_all_place ms ∅ c1) as Hpl. unfold final in Hpl. rewrite E2 in Hpl. simpl in Hpl.
  destruct Hpl as (Hk2 & Hl2 & Ha2 & Hp2 & Hcm2).
  assert (Hkeep : ∀ p k, handled c0 p k → handled c2 p k).
  { intros p k H. eapply handled_keeps; [exact Hk2|]. by eapply handled_keeps. }
  assert (Hcs2 : committed_safe c2).
  { intros p. rewrite Hl2, Hl, Hcm2, Hcm. destruct (Hc p). split; [done|]. auto. }
  assert (Hout2 : ∀ p, p ∉ assigned c2 → safe_at c2 p (pos c2 p)).
  { intros p Hq. rewrite Ha2, Ha in Hq. unfold safe_at. rewrite Hp2, Hl2, Hl, Hout by done.
    destruct (Hp p). split; [done|]. auto. }
  destruct o2 as [[off|]|e].
  2:{ injection E as <- <-. by split_and!. }
  2:{ injection E as <- <-. by split_and!. }
  apply handle_all_spec in E2 as [Hms Hoff].
  assert (Hpos2 : position_safe c2).
  { intros p. rewrite Hp2, Hl2, Hl. split; [apply Hlen, Hp|]. intros k Hlt.
    destruct (decide (k < pos c0 p)%nat) as [H | H]; [apply Hkeep; by apply Hp|].
    destruct (Hcov p k ltac:(lia)) as (m & Hm & <- & <-). by apply Hms. }
  set (c3 := upd_offsets (assigned c2) (position c2) (off ∪ committed c2) c2).
  assert (Hcs3 : committed_safe c3).
  { intros p. simpl. destruct (off !! p) as [k|] eqn:Hk'.
    - rewrite (lookup_union_Some_l _ _ _ _ Hk'). simpl.
      destruct (Hoff p k Hk') as [H | (m & Hm & Hmp & ->)]; [done|]. subst p.
      pose proof (Hin m Hm) as Hlt. destruct (Hpos2 (m_tp m)) as [Hlen2 Hh2]. rewrite Hp2 in Hlen2, Hh2.
      split; [lia|]. intros q Hq. apply Hh2. lia.
    - rewrite lookup_union_r by done. apply Hcs2. }
  assert (Hpos3 : position_safe c3) by exact Hpos2.
  unfold catch, commit, mbind, M_bind, broker in E.
  destruct (first_call (calls c2)) as [[|e|e] l]; unfold mret, M_ret, raise in E; cbn in E.
  - injection E as <- <-. by split_and!.
  - destruct (_is_recoverable_commit_error e); injection E as <- <-; by split_and!.
  - destruct (_is_recoverable_commit_error e); injection E as <- <-; by split_and!.
Qed.

Lemma consume_once_safe plan c o c' :
  committed_safe c → position_safe c → consume_once plan c = (o, c') →
  committed_safe c' ∧ (o = Ok tt → position_safe c').
Proof.
  intros Hc Hp E. unfold consume_once in E. unfold mbind at 1, M_bind at 1 in E. unfold getmany in E.
  pose proof (broker_place (λ c, c) (λ c, reflexivity c) c) as Hb. unfold final in Hb.
  destruct (broker (λ c, c) c) as [[[]|e] c0]; simpl in Hb.
  2:{ injection E as <- <-. split; [by eapply committed_safe_place | done]. }
  assert (Hc0 : committed_safe c0) by (by eapply committed_safe_place).
  assert (Hp0 : position_safe c0) by (by eapply position_safe_place).
  destruct (fetch plan c0) as [ms c1] eqn:Ef. apply fetch_spec in Ef as Hf.
  destruct ms as [|m0 ms0] eqn:Hms.
  { unfold mret, M_ret in E. injection E as <- <-.
    destruct Hf as (Hk & Hl & Ha & Hcm & He & Hs & Hout & Hlen & Hin & Hcov & Hle). split.
    - intros p. rewrite Hl, Hcm. destruct (Hc0 p). split; [done|]. intros k Hlt.
      eapply handled_keeps; [exact Hk | auto].
    - intros _ p. rewrite Hl. split; [apply Hlen, Hp0|]. intros k Hlt.
      destruct (decide (k < pos c0 p)%nat) as [H | H].
      + eapply handled_keeps; [exact Hk | by apply Hp0].
      + destruct (Hcov p k ltac:(lia)) as (m & Hm & _). by apply elem_of_nil in Hm. }
  rewrite <- Hms in *. clear Hms m0 ms0. unfold mbind at 1, M_bind at 1 in E.
  destruct (_handle_batch ms c1) as [[ok|e] c2] eqn:Eb;
    apply (handle_batch_safe c0 ms) in Eb as (Hc2 & Hok & Hout); try done;
    [|injection E as <- <-; done].
  destruct ok.
  - unfold modify in E. injection E as <- <-. split; [exact Hc2|]. intros _. exact (Hok eq_refl).
  - unfold mbind, M_bind in E.
    destruct (_rewind_and_back_off c2) as [r c3] eqn:Er.
    apply rewind_safe in Er as [Hc3 Hp3]; [|done|done].
    destruct r as [d|e]; unfold mret, M_ret in E; injection E as <- <-; (split; [done|]); [|done].
    intros _. by eapply Hp3.
Qed.

Lemma run_event_safe ev c :
  committed_safe c → position_safe c → committed_safe (run_event ev c) ∧ position_safe (run_event ev c).
Proof.
  intros Hc Hp. destruct ev as [plan | tps | p v]; simpl.
  - destruct (consume_once plan c) as [[[]|e] c'] eqn:E; apply consume_once_safe in E as [Hc' Hp']; try done.
    split; [done | by apply Hp'].
  - by apply restart_safe.
  - assert (Hlen : ∀ q, (length (log c q) ≤
              length (default [] (<[p := (log c p ++ [v])%list]> (logs c) !! q)))%nat).
    { intros q. destruct (decide (p = q)) as [<- | Hne];
        [rewrite lookup_insert_eq; simpl; rewrite length_app; lia | by rewrite lookup_insert_ne]. }
    split; intros q; simpl; specialize (Hlen q);
      [destruct (Hc q) as [H1 H2] | destruct (Hp q) as [H1 H2]]; (split; [lia | exact H2]).
Qed.

(** C1: Nothing is skipped: in every run, whatever rebalances, restarts and
    failures of the broker, the engine or the producers, every message below
    a committed offset was evaluated or is on the dead-letter topic. *)
Theorem committed_means_handled evs c
    (Hc : committed c = ∅) (Hp : position c = ∅) :
  ∀ p o, (o < com (run evs c) p)%nat → handled (run evs c) p o.
Proof.
  assert (committed_safe c ∧ position_safe c) as [H1 H2].
  { split; intros p; rewrite ?Hc, ?Hp, lookup_empty; simpl; (split; [lia | intros o Ho; lia]). }
  clear Hc Hp. revert c H1 H2. induction evs as [|ev evs IH]; intros c H1 H2; simpl.
  - intros p o Ho. by apply H1.
  - destruct (run_event_safe ev c H1 H2) as [H3 H4]. by apply IH.
Qed.

(** ** What is dead-lettered *)

(** Only dead letters of [m] for a reason in [P] are new. *)
Definition new_letters (m : message) (P : exn → Prop) (c c' : consumer) : Prop :=
  ∀ x, x ∈ sent c' → x ∈ sent c ∨ ∃ e, P e ∧ x = (dlq_topic cfg, dead_letter_of m e).

#[local] Instance new_letters_preorder m P : PreOrder (new_letters m P).
Proof.
  split; [intros c x; by left|]. intros c1 c2 c3 H12 H23 x Hx.
  destruct (H23 x Hx) as [H | H]; [by apply H12 | by right].
Qed.

Lemma new_none m P c c' : sent c' = sent c → new_letters m P c c'.
Proof. intros H x Hx. left. by rewrite <- H. Qed.

Section letters.
Context (m : message) (P : exn → Prop).
Abbreviation R := (new_letters m P).

Lemma send_new e : P e → respects R (send (dlq_topic cfg) (dead_letter_of m e)).
Proof.
  intros He. apply send_respects; [apply _ | intros; by apply new_none.. |].
  intros c x. simpl.
  intros [Hx | ->%list_elem_of_singleton]%elem_of_app; [by left | right]. by exists e.
Qed.

Lemma dead_letter_new e : P e → respects R (_dead_letter m e).
Proof.
  intros He. unfold _dead_letter. fold (dead_letter_of m e).
  apply respects_catch; [apply _ | |intros _; apply respects_ret, _].
  apply respects_bind; [apply _ | by apply send_new |]. intros _. apply respects_ret, _.
Qed.

Lemma process_new d : respects R (_process_message d).
Proof.
  unfold _process_message. destruct (negb _); [apply respects_raise, _|].
  apply (respects_zoom _ _ _ (λ _ _, True)); [|done]. intros c e _. by apply new_none.
Qed.

(** Every error an attempt can end with is in [P]. *)
Definition attempt_errors (d : dict) : Prop := ∀ e c1 c2,
  is_infrastructure_error e = false → _process_message d c1 = (Err e, c2) → P e.

Lemma attempt_new n d e :
  attempt_errors d → (∀ e1, P e1 → respects R (attempts n m d e1)) →
  respects R (attempts (S n) m d e).
Proof.
  intros HP IH c. simpl. unfold final, catch.
  destruct (mbind _ (_process_message d) c) as [[o|e1] c1] eqn:E1.
  - simpl. assert (respects R (_process_message d ≫= λ _, mark_evaluated m ≫= λ _, mret HANDLED)) as H.
    { apply respects_bind; [apply _ | apply process_new |]. intros _.
      apply respects_bind; [apply _ | apply respects_modify; intros c2; by apply new_none |].
      intros _. apply respects_ret, _. }
    specialize (H c). unfold final in H. by rewrite E1 in H.
  - assert (Hp : ∃ c2, _process_message d c = (Err e1, c2) ∧ sent c1 = sent c2).
    { unfold mbind, M_bind in E1. destruct (_process_message d c) as [[[]|e2] c2]; [done|].
      injection E1 as <- <-. by exists c2. }
    destruct Hp as (c2 & Hp & Hs).
    assert (Hc1 : R c c1).
    { pose proof (process_new d c) as H. unfold final in H. rewrite Hp in H.
      intros x Hx. apply H. simpl. by rewrite <- Hs. }
    assert (∀ e, e = e1 → R c (snd ((if is_infrastructure_error e then mret RETRY_BATCH
                                      else attempts n m d e) c1))) as Hgo.
    { intros ? ->. destruct (is_infrastructure_error e1) eqn:Hi; [exact Hc1|].
      etrans; [exact Hc1|]. apply (IH e1). by eapply HP. }
    destruct e1; try exact (Hgo _ eq_refl).
    etrans; [exact Hc1|]. apply dead_letter_new. eapply HP; [|exact Hp]. done.
Qed.

Lemma attempts_new n d : attempt_errors d → ∀ e, P e → respects R (attempts n m d e).
Proof.
  intros HP. induction n as [|n IH]; intros e He; [by apply dead_letter_new | by apply attempt_new].
Qed.
End letters.

(** Why [m] may be dead-lettered: the exception blames the message, and
    decoding or processing it raised that exception. *)
Definition blames (m : message) (e : exn) : Prop :=
  is_infrastructure_error e = false ∧
  (decode_message (m_value m) = Err e ∨
   ∃ d c1 c2, decode_message (m_value m) = Ok d ∧ _process_message d c1 = (Err e, c2)).

(** An outage never dead-letters a reading: every dead letter that
    handling a message adds is that message's, for an exception that is no
    infrastructure error and that decoding or processing it raised; and a
    first attempt that meets an infrastructure error ends the handling with
    the batch to be retried, nothing sent. *)
Theorem outage_never_dead_letters m c (Hn : (0 < max_retries cfg)%nat) :
  (∀ x, x ∈ sent (final (_handle_message m) c) →
     x ∈ sent c ∨ ∃ e, blames m e ∧ x = (dlq_topic cfg, dead_letter_of m e)) ∧
  (∀ d e c1, decode_message (m_value m) = Ok d → _process_message d c = (Err e, c1) →
     is_infrastructure_error e = true → _handle_message m c = (Ok RETRY_BATCH, c1)).
Proof.
  destruct (max_retries cfg) as [|n] eqn:Hmax; [lia|]. split.
  - unfold _handle_message. rewrite Hmax. destruct (decode_message (m_value m)) as [d|e] eqn:Hd.
    + assert (attempt_errors (blames m) d) as HP.
      { intros e c1 c2 Hi Hp. split; [done|]. right. by exists d, c1, c2. }
      apply (attempt_new m (blames m) n d OtherError HP). by apply attempts_new.
    + assert (respects (new_letters m (blames m)) (raise e : M consumer outcome_of)) as Hr
        by apply respects_raise, _.
      destruct e; try exact (Hr c).
      apply (dead_letter_new m (blames m)). split; [done|]. by left.
  - intros d e c1 Hd Hp Hi. unfold _handle_message. rewrite Hd, Hmax. simpl. unfold catch.
    rewrite (bind_err _ _ _ _ _ Hp). destruct e; try done; simpl in *; by rewrite Hi.
Qed.

(** ** What ends the loop *)

Lemma attempts_return n m d e c : ∃ o, outcome (attempts n m d e) c = Ok o.
Proof.
  unfold outcome. revert e c. induction n as [|n IH]; intros e c; simpl.
  { destruct (dead_letter_total m e c) as (o & c' & ->). by exists o. }
  unfold catch. destruct (mbind _ (_process_message d) c) as [[o|e1] c1]; [by exists o|].
  assert (∀ e, ∃ o, ((if is_infrastructure_error e then mret RETRY_BATCH else attempts n m d e) c1).1 = Ok o)
    as He by (intros e'; destruct (is_infrastructure_error e'); [by exists RETRY_BATCH | apply IH]).
  destruct e1; try apply He. destruct (dead_letter_total m (MessageValidationError reason) c1) as (o & c' & ->).
  by exists o.
Qed.

(** C39: No message escapes the loop, but one [json.loads] refuses with
    something other than its documented errors: handling a message raises
    [e] exactly when its value is bytes for which [json_loads] raises [e]
    and [e] is neither UnicodeDecodeError nor JSONDecodeError (an integer
    literal past the digit limit, nesting past the depth limit); everything
    else, the engine's exceptions included, gives an outcome. *)
Theorem handling_raises_iff m c e :
  outcome (_handle_message m) c = Err e ↔
  ∃ b, m_value m = Some b ∧ json_loads b = Err e ∧ e ≠ UnicodeDecodeError ∧ e ≠ JSONDecodeError ∧
       ∀ r, e ≠ MessageValidationError r.
Proof.
  unfold _handle_message, decode_message. destruct (m_value m) as [b|].
  2:{ destruct (dead_letter_total m (MessageValidationError "record has no value") c) as (o & c' & H).
      unfold outcome. rewrite H. split; [done | by intros (b & ? & _)]. }
  assert (Hdl : ∀ r, outcome (_dead_letter m (MessageValidationError r)) c ≠ Err e).
  { intros r H. destruct (dead_letter_total m (MessageValidationError r) c) as (o & c' & E).
    unfold outcome in H. by rewrite E in H. }
  destruct (json_loads b) as [v|x] eqn:Hb.
  - split; [|intros (b' & [= <-] & ? & _); congruence]. intros H. exfalso.
    destruct v as [| | | | | |d]; try by apply (Hdl _ H).
    destruct (attempts_return (max_retries cfg) m d OtherError c) as (o & Ho). congruence.
  - assert (outcome (_handle_message m) c = outcome (_handle_message m) c) as _ by done.
    destruct x; try (split; [intros H; injection H as <-; exists b; by split_and!
                            | intros (b' & [= <-] & Hl & _); by rewrite Hb in Hl; injection Hl as <-]);
      (split; [intros H; by destruct (Hdl _ H)
              | intros (b' & [= <-] & Hl & H1 & H2 & H3); rewrite Hb in Hl; injection Hl as <-;
                naive_solver]).
Qed.

(** ** The back-off *)

Lemma powers_are_floats k : (k < 1024)%nat → is_ok (float_of_Z (2 ^ Z.of_nat k)) = true.
Proof.
  intros Hk. assert (forallb (λ k, is_ok (float_of_Z (2 ^ Z.of_nat k))) (seq 0 1024) = true) as H
    by (vm_compute; reflexivity).
  rewrite forallb_forall in H. apply H. apply in_seq. lia.
Qed.

Lemma flt_self f : flt f f = false.
Proof.
  unfold flt, SFltb. destruct f as [[]|[]| |[] m e]; simpl; try done; rewrite Z.compare_refl;
    by rewrite Pos.compare_refl.
Qed.

(** The delay after [n] failed batches in a row, and what there is none for. *)
Lemma backoff_delay_ok n : (0 < n ≤ 1024)%nat →
  ∃ d, backoff_delay n = Ok d ∧ flt (max_backoff cfg) d = false.
Proof.
  intros Hn. unfold backoff_delay. replace (Z.of_nat n - 1)%Z with (Z.of_nat (n - 1)) by lia.
  pose proof (powers_are_floats (n - 1) ltac:(lia)) as Hp.
  destruct (float_of_Z _) as [p|e]; [|done]. simpl. eexists. split; [done|].
  destruct (flt (max_backoff cfg) (fmul _ _)) eqn:Hf; [apply flt_self | exact Hf].
Qed.

Lemma backoff_delay_overflow : backoff_delay 1025 = Err OverflowError.
Proof.
  unfold backoff_delay. assert (float_of_Z (2 ^ (Z.of_nat 1025 - 1)) = Err OverflowError) as ->
    by (vm_compute; reflexivity). done.
Qed.

Lemma seek_failed tps : respects (λ c c', failed_batches c' = failed_batches c) (seek_each tps).
Proof.
  assert (PreOrder (λ c c' : consumer, failed_batches c' = failed_batches c)).
  { split; [by intros c|]. intros c1 c2 c3 ? ?. congruence. }
  induction tps as [|p tps IH]; simpl; [apply respects_ret, _|].
  apply respects_bind; [apply _ | | intros _; exact IH].
  intros c. unfold final, broker. by destruct (first_call (calls c)) as [[] l].
Qed.

(** C40: Backing off keeps the loop running for the first 1024 failed batches
    in a row: when the seeks succeed the wait is never above the cap, and
    only a failed seek raises.  The next failed batch raises OverflowError,
    whatever the settings, and ends the loop. *)
Theorem backoff_until_1024 c :
  match outcome _seek_to_committed (upd_failed (S (failed_batches c)) c) with
  | Err e => outcome _rewind_and_back_off c = Err e
  | Ok _ =>
      ((failed_batches c < 1024)%nat → ∃ d, outcome _rewind_and_back_off c = Ok d ∧
                                         flt (max_backoff cfg) d = false) ∧
      (failed_batches c = 1024%nat → outcome _rewind_and_back_off c = Err OverflowError)
  end.
Proof.
  set (c1 := upd_failed (S (failed_batches c)) c).
  pose proof (seek_failed (assigned c1) c1) as Hf. unfold final in Hf.
  assert (outcome _rewind_and_back_off c =
          match _seek_to_committed c1 with
          | (Ok _, c2) => backoff_delay (failed_batches c2)
          | (Err e, _) => Err e
          end) as E.
  { unfold outcome, _rewind_and_back_off, mbind, M_bind, modify, gets. fold c1.
    by destruct (_seek_to_committed c1) as [[u|e] c2]. }
  unfold outcome at 1. rewrite E. clear E.
  change (_seek_to_committed c1) with (seek_each (assigned c1) c1) in *.
  destruct (seek_each (assigned c1) c1) as [[u|e] c2]; simpl in *; [|done].
  rewrite Hf. split; [|intros ->; apply backoff_delay_overflow].
  intros Hn. apply backoff_delay_ok. lia.
Qed.
End consumer.
