(* ===== verification/AlertWorker.v ===== *)
(** * The alert worker: the consumer over the rules engine

    The consumer's interface to the engine, [ReadingEvaluator], discharged by
    [evaluate], and what at-least-once delivery and the durable cooldown give
    together: a message that is handled again raises nothing twice. *)

From stdpp Require Import base strings list gmap.
From Corelib Require Import SpecFloat.
From Stdlib Require Import ZArith Lia.
From S2P Require Import Prelude PyText PyNum PyJson Tenancy AlertErrors FeatureStore AlertDb RulesEngine.
From S2P Require Import EngineProps AlertConsumer.

Local Open Scope string_scope.

Section worker.
Context `{J : JsonCodec} `{I : IsoCodec}.
Context (bind_error : exn) (uuid5 : string → Z) (repr_float : float → string) (rules_cfg : config).
Context (utf8 : bytes → option string) (hex : bytes → string) (cfg : settings).

(** [self.rules_engine.evaluate(sensor_data, company_id)], the alerts not
    used. *)
#[local] Instance rules_evaluator : ReadingEvaluator world := λ d c,
  _ ← evaluate bind_error uuid5 repr_float rules_cfg d c; mret tt.

Abbreviation company_of d := (jget "company_id" d).

Lemma process_evaluates d c o c' : _process_message d c = (o, c') →
  (∃ r w, evaluate bind_error uuid5 repr_float rules_cfg (JDict d) (company_of d) (engine c) = (r, w) ∧
    c' = upd_engine (λ _, w) c ∧ (∀ u, o = Ok u → ∃ l, r = Ok l)) ∨
  c' = c ∧ ∃ e, o = Err e.
Proof.
  unfold _process_message. destruct (negb _); [intros [= <- <-]; right; eauto|].
  unfold zoom, on_reading, rules_evaluator, mbind, M_bind.
  destruct (evaluate _ _ _ _ _ _ (engine c)) as [[l|e] w] eqn:E; unfold mret, M_ret;
    intros [= <- <-]; left; eexists _, w; (split; [reflexivity | split; [done|]]); [eauto | by intros ? [=]].
Qed.

(** What a delivery of [d] does to the engine's world: some evaluations. *)
Definition evaluations (d : dict) : relation world := rtc (λ w w',
  w' = final (evaluate bind_error uuid5 repr_float rules_cfg (JDict d) (company_of d)) w).

Definition sends_only (c c' : consumer (Eng := world)) : Prop :=
  engine c' = engine c ∧ evaluated c' = evaluated c.

#[local] Instance sends_only_preorder : PreOrder sends_only.
Proof. split; [by intros c|]. intros c1 c2 c3 [? ?] [? ?]. split; congruence. Qed.

Lemma dead_letter_sends m e : respects sends_only (_dead_letter utf8 hex cfg m e).
Proof.
  unfold _dead_letter. apply respects_catch; [apply _ | |intros _; apply respects_ret, _].
  apply respects_bind; [apply _ | |intros _; apply respects_ret, _].
  by apply send_respects; [apply _|..].
Qed.

Lemma process_evaluations d : respects (λ c c', evaluations d (engine c) (engine c')) (_process_message d).
Proof.
  intros c. unfold final. destruct (_process_message d c) as [o c'] eqn:E.
  apply process_evaluates in E as [(r & w & H & -> & _) | [-> _]]; simpl; [|reflexivity].
  apply rtc_once. unfold final. by rewrite H.
Qed.

#[local] Instance evaluations_preorder d :
  PreOrder (λ c c' : consumer (Eng := world), evaluations d (engine c) (engine c')).
Proof. split; [intros c; reflexivity|]. intros c1 c2 c3 ? ?. unfold evaluations in *. by etrans. Qed.

Lemma attempts_evaluations n m d e :
  respects (λ c c', evaluations d (engine c) (engine c')) (attempts utf8 hex cfg n m d e).
Proof.
  assert (∀ e, respects (λ c c', evaluations d (engine c) (engine c')) (_dead_letter utf8 hex cfg m e)) as Hd.
  { intros x c. destruct (dead_letter_sends m x c) as [-> _]. reflexivity. }
  revert e. induction n as [|n IH]; intros e; simpl; [apply Hd|].
  apply respects_catch; [apply _ | |].
  - apply respects_bind; [apply _ | apply process_evaluations |]. intros _.
    apply respects_bind; [apply _ | | intros _; apply respects_ret, _].
    apply respects_modify. intros c. reflexivity.
  - assert (∀ e, respects (λ c c', evaluations d (engine c) (engine c'))
              (if is_infrastructure_error e then mret RETRY_BATCH else attempts utf8 hex cfg n m d e)) as He
      by (intros e'; destruct (is_infrastructure_error e'); [apply respects_ret, _ | apply IH]).
    intros []; first [apply Hd | apply He].
Qed.

(** A delivery that evaluated the message ends with an evaluation that
    returned, after some that did not. *)
Lemma attempts_evaluated n m d e c c1 :
  attempts utf8 hex cfg n m d e c = (Ok HANDLED, c1) → evaluated c1 ≠ evaluated c →
  ∃ w l, evaluations d (engine c) w ∧
    evaluate bind_error uuid5 repr_float rules_cfg (JDict d) (company_of d) w = (Ok l, engine c1).
Proof.
  assert (∀ e c, _dead_letter utf8 hex cfg m e c = (Ok HANDLED, c1) → evaluated c1 = evaluated c) as Hd.
  { intros x c0 H. pose proof (dead_letter_sends m x c0) as [_ Hs]. unfold final in Hs. by rewrite H in Hs. }
  revert e c. induction n as [|n IH]; intros e c; simpl.
  { intros H Hne. destruct Hne. exact (Hd _ _ H). }
  unfold catch. unfold mbind at 1, M_bind at 1.
  destruct (_process_message d c) as [[u|e1] c2] eqn:Ep;
    apply process_evaluates in Ep as [(r & w & H & -> & Hr) | [-> Ho]].
  - intros [= <-] _. destruct (Hr u eq_refl) as [l ->]. exists (engine c), l. by split; [reflexivity|].
  - by destruct Ho.
  - assert (∀ e, (if is_infrastructure_error e then mret RETRY_BATCH else attempts utf8 hex cfg n m d e)
              (upd_engine (λ _, w) c) = (Ok HANDLED, c1) → evaluated c1 ≠ evaluated c →
            ∃ w0 l, evaluations d (engine c) w0 ∧
              evaluate bind_error uuid5 repr_float rules_cfg (JDict d) (company_of d) w0 = (Ok l, engine c1)) as He.
    { intros e2. destruct (is_infrastructure_error e2); [intros [=]|]. intros Ha Hne.
      destruct (IH _ _ Ha Hne) as (w0 & l & Hw & Hl). exists w0, l. split; [|done].
      eapply rtc_l; [|exact Hw]. simpl. unfold final. by rewrite H. }
    destruct e1; try apply He. intros Hl Hne. destruct Hne. exact (Hd _ _ Hl).
  - assert (∀ e, (if is_infrastructure_error e then mret RETRY_BATCH else attempts utf8 hex cfg n m d e)
              c = (Ok HANDLED, c1) → evaluated c1 ≠ evaluated c →
            ∃ w0 l, evaluations d (engine c) w0 ∧
              evaluate bind_error uuid5 repr_float rules_cfg (JDict d) (company_of d) w0 = (Ok l, engine c1)) as He
      by (intros e2; destruct (is_infrastructure_error e2); [intros [=] | apply IH]).
    destruct e1; try apply He. intros Hl Hne. destruct Hne. exact (Hd _ _ Hl).
Qed.

Lemma evaluations_saves rw d w w' : evaluations d w w' →
  db_saves (cooldown_us rules_cfg) rw (λ _, True) (wdb w) (wdb w') ∧
  tenant_rules w' = tenant_rules w ∧ (cache_sound bind_error w → cache_sound bind_error w').
Proof.
  induction 1 as [w | w1 w2 w3 -> _ (Hs & Hr & Hc)]; [by split_and!|].
  destruct (evaluate_saves bind_error uuid5 repr_float rules_cfg rw _ (JDict d) (company_of d) eq_refl w1)
    as (Hs1 & Hr1 & _ & Hc1 & _).
  split_and!; [|congruence | auto]. etrans; [|exact Hs]. eapply db_saves_mono; [|exact Hs1]. done.
Qed.

(** Evaluating again, any number of times, writes nothing. *)
Lemma evaluations_again d sd w l w1 rw w2 w3
    (Hsd : parse_reading (JDict d) (company_of d) = Ok sd) (Ht : timed sd) (Hs : cache_sound bind_error w)
    (H1 : evaluate bind_error uuid5 repr_float rules_cfg (JDict d) (company_of d) w = (Ok l, w1))
    (Hlater : db_saves (cooldown_us rules_cfg) rw (λ _, True) (wdb w1) (wdb w2))
    (Hrules : rules_for (company_key (company_of d)) w2 = rules_for (company_key (company_of d)) w) :
  evaluations d w2 w3 → tenants (wdb w3) = tenants (wdb w2).
Proof.
  intros H. induction H as [w2 | w2 w' w3 E _ IH]; [done|].
  destruct (evaluate_again bind_error uuid5 repr_float rules_cfg _ _ sd w l w1 rw _ w2 Hsd Ht Hs H1 Hlater Hrules)
    as [He _]. rewrite <- E in He.
  destruct (evaluations_saves rw d w2 w') as (Hsv & Hr & _); [by apply rtc_once|].
  rewrite IH; [done | by etrans |]. unfold rules_for in *. by rewrite Hr.
Qed.

(** C2: At-least-once delivery takes effect once: a message that carries its
    event time and was handled by evaluating it, at any attempt, changes no
    table when it is handled again -- its offset not committed, a rebalance
    or a restart -- whatever fails then, as long as its tenant's rules read as
    they did and nothing but alerts was saved to the tables in between, by any
    worker, each under the rules of the cooldown. *)
Theorem redelivered_message m d sd c c1 c2 rw
    (Hd : decode_message (m_value m) = Ok d)
    (Hsd : parse_reading (JDict d) (company_of d) = Ok sd) (Ht : timed sd)
    (Hs : cache_sound bind_error (engine c))
    (H1 : _handle_message utf8 hex cfg m c = (Ok HANDLED, c1)) (Hev : evaluated c1 ≠ evaluated c)
    (Hlater : db_saves (cooldown_us rules_cfg) rw (λ _, True) (wdb (engine c1)) (wdb (engine c2)))
    (Hrules : rules_for (company_key (company_of d)) (engine c2) = rules_for (company_key (company_of d)) (engine c)) :
  tenants (wdb (engine (final (_handle_message utf8 hex cfg m) c2))) = tenants (wdb (engine c2)).
Proof.
  unfold _handle_message in *. rewrite Hd in *.
  apply attempts_evaluated in H1 as (w & l & Hw & Hl); [|done].
  apply (evaluations_saves rw) in Hw as (_ & Hr & Hc).
  eapply (evaluations_again d sd w l (engine c1) rw (engine c2)); [done | done | auto | done | done | |].
  - rewrite Hrules. unfold rules_for. by rewrite Hr.
  - apply (attempts_evaluations (max_retries cfg) m d OtherError c2).
Qed.
End worker.

(** ** Concrete runs *)

#[local] Existing Instance decoded_codec.
#[local] Existing Instance hex_iso.

Definition sample_settings : settings :=
  {| max_retries := 3; retry_backoff := S754_finite false 1 0; max_backoff := S754_finite false 30 0;
     dlq_topic := "dlq" |}.
Definition sample_record (at_ : Z) : dict :=
  [("company_id", JStr sample_company); ("sensor_id", JStr (uuid_str 5)); ("value", JInt 150);
         ("time", JStr (isoformat at_))].
Definition sample_tp : tp := ("raw", 0%nat).
Definition sample_bad : exn := MessageValidationError "record is not a JSON object".

(** A log of one reading and one record that is not a reading. *)
Definition sample_consumer (calls : list call) : consumer (Eng := world) :=
  {| engine := sample_world;
     logs := {[ sample_tp := [Some (Ok (JDict (sample_record 7000000))); Some (Ok JNull)] ]};
     assigned := [sample_tp]; position := ∅; committed := ∅; sent := []; evaluated := [];
     producer := 0; producers_started := 1; producers_replaced := 0; failed_batches := 0;
     calls := calls; ended := [] |}.

#[local] Hint Extern 0 (ReadingEvaluator world) =>
  exact (rules_evaluator TypeError sample_uuid5 (λ _, "") sample_cfg) : typeclass_instances.

(** The first commit fails, so the batch is fetched and handled again, and the
    second one commits. *)
Definition sample_events : list event := [Poll [(sample_tp, 2%nat)]; Poll [(sample_tp, 2%nat)]].
Abbreviation sample_after :=
  (run (λ _, None) (λ _, "") sample_settings sample_events
     (sample_consumer [Runs; Runs; Fails (KafkaError true)])).

Example sample_commit :
  (committed sample_after !! sample_tp, length (evaluated sample_after), length (sent sample_after)) =
  (Some 2%nat, 2%nat, 2%nat).
Proof. vm_compute. reflexivity. Qed.

Lemma committed_means_handled_witness :
  handled sample_settings sample_after sample_tp 1.
Proof.
  apply (committed_means_handled (λ _, None) (λ _, "") sample_settings sample_events
           (sample_consumer [Runs; Runs; Fails (KafkaError true)]));
    [reflexivity | reflexivity | apply Nat.ltb_lt; vm_compute; reflexivity].
Defined.

Definition sample_delivery : message :=
  {| m_tp := sample_tp; m_offset := 0; m_value := Some (Ok (JDict (sample_record 7000000))) |}.
Abbreviation sample_handle :=
  (_handle_message (λ _, None) (λ _, "") sample_settings sample_delivery).

Lemma outage_never_dead_letters_witness :
  let outage := upd_engine (λ w, set_db (set_db_calls [Fails TimeoutError] (wdb w)) w) (sample_consumer []) in
  ∃ c1, sample_handle outage = (Ok RETRY_BATCH, c1) ∧ sent c1 = [].
Proof.
  eexists. split; [|].
  - apply (proj2 (outage_never_dead_letters (λ _, None) (λ _, "") sample_settings sample_delivery _ (Nat.lt_0_succ 2))
             (sample_record 7000000) TimeoutError _); [reflexivity | vm_compute; reflexivity | reflexivity].
  - reflexivity.
Defined.

Lemma redelivered_message_witness :
  let c1 := final sample_handle (sample_consumer []) in
  evaluated c1 = [(sample_tp, 0%nat)] ∧
  tenants (wdb (engine (final sample_handle c1))) = tenants (wdb (engine c1)).
Proof.
  intros c1.
  assert (sample_handle (sample_consumer []) = (Ok HANDLED, c1)) as H.
  { rewrite (surjective_pairing (sample_handle (sample_consumer []))). by f_equal. }
  assert (evaluated c1 = [(sample_tp, 0%nat)]) as He by (vm_compute; reflexivity).
  assert (tenant_rules (engine c1) = tenant_rules sample_world) as Hr by (vm_compute; reflexivity).
  clearbody c1. split; [exact He|].
  apply (redelivered_message TypeError sample_uuid5 (λ _, "") sample_cfg (λ _, None) (λ _, "") sample_settings
           sample_delivery (sample_record 7000000)
           {| p_sensor := uuid_str 5; p_equipment := None;
              p_value := default (S754_zero false) (res_opt (float_of_Z 150));
              p_time := Some (isoformat 7000000); p_timestamp := None; p_site := JNull |}
           (sample_consumer []) c1 c1 1).
  - reflexivity.
  - vm_compute. reflexivity.
  - discriminate.
  - exact sample_cache_sound.
  - exact H.
  - rewrite He. discriminate.
  - reflexivity.
  - unfold rules_for. rewrite Hr. reflexivity.
Defined.
