(* ===== verification/SqlWire.v ===== *)
(** * The Postgres wire codec of the SQL proxy: services/notebook_sql_proxy/wire.py

    Every message the proxy builds or inspects, on octets, with [struct]'s
    32-bit big-endian integers and the UTF-8 codec they rest on, and the two
    message readers of services/notebook_sql_proxy/server.py over a stream
    that may end or fail anywhere. *)

From stdpp Require Import base strings list.
From Stdlib Require Import ZArith Lia.
From Stdlib.Strings Require Import Byte.
From S2P Require Import Prelude PyText CapabilityAudit.

Local Open Scope Z_scope.

(** ** Octets *)

Abbreviation octets := (list byte).

#[export] Instance byte_eq_decision : EqDecision byte := Byte.byte_eq_dec.

Definition val (b : byte) : Z := Z.of_N (Byte.to_N b).
Definition oct (z : Z) : byte := default x00 (Byte.of_N (Z.to_N z)).

Lemma val_range b : 0 ≤ val b < 256.
Proof. unfold val. pose proof (Byte.to_N_bounded b). lia. Qed.

Lemma oct_val b : oct (val b) = b.
Proof. unfold oct, val. rewrite N2Z.id, Byte.of_to_N. done. Qed.

Lemma val_oct z : 0 ≤ z < 256 → val (oct z) = z.
Proof.
  intros Hz. unfold oct, val. destruct (Byte.of_N (Z.to_N z)) as [b|] eqn:E; simpl.
  - apply Byte.to_of_N in E. rewrite E. lia.
  - apply Byte.of_N_None_iff in E. lia.
Qed.

(** ASCII text as octets: a [b"..."] literal, or [str.encode()] of one. *)
Definition ascii_octets (s : string) : octets := (λ c, oct (code c)) <$> String.list_ascii_of_string s.

(** *** [struct.pack("!I", z)] and [struct.unpack("!I", b)] *)

Fixpoint be_bytes (n : nat) (z : Z) : octets :=
  match n with O => [] | S n' => (be_bytes n' (z / 256) ++ [oct (z mod 256)])%list end.
Definition be_value (b : octets) : Z := fold_left (λ acc x, acc * 256 + val x) b 0.

(** struct.error, of no class the code catches, out of range. *)
Definition pack_I (z : Z) : res octets :=
  if Z.leb 0 z && Z.ltb z (2 ^ 32) then Ok (be_bytes 4 z) else Err OtherError.
Definition unpack_I (b : octets) : Z := be_value b.

Lemma be_length n z : length (be_bytes n z) = n.
Proof. revert z. induction n as [|n IH]; intros z; simpl; [done|]. rewrite length_app, IH. simpl. lia. Qed.

Lemma be_value_snoc b x : be_value (b ++ [x])%list = be_value b * 256 + val x.
Proof. unfold be_value. by rewrite fold_left_app. Qed.

Lemma be_roundtrip n z : 0 ≤ z < 256 ^ Z.of_nat n → be_value (be_bytes n z) = z.
Proof.
  revert z. induction n as [|n IH]; intros z Hz.
  { change (256 ^ Z.of_nat 0) with 1 in Hz. cbv [be_bytes be_value fold_left]. lia. }
  cbn [be_bytes]. rewrite be_value_snoc. rewrite Nat2Z.inj_succ, Z.pow_succ_r in Hz by lia.
  pose proof (Z.mod_pos_bound z 256 ltac:(lia)). pose proof (Z.div_mod z 256 ltac:(lia)).
  rewrite IH, val_oct by first [lia | split; [apply Z.div_pos; lia | apply Z.div_lt_upper_bound; lia]].
  lia.
Qed.

Lemma pack_ok z b : pack_I z = Ok b → length b = 4%nat ∧ unpack_I b = z ∧ 0 ≤ z < 2 ^ 32.
Proof.
  unfold pack_I. destruct (Z.leb 0 z && Z.ltb z (2 ^ 32)) eqn:E; [|done].
  apply andb_true_iff in E as [E1 E2]. apply Z.leb_le in E1. apply Z.ltb_lt in E2.
  intros Hb. assert (b = be_bytes 4 z) as -> by congruence.
  split; [apply be_length|]. split; [|lia]. apply be_roundtrip.
  change (256 ^ Z.of_nat 4) with (2 ^ 32). lia.
Qed.

(** *** UTF-8

    [utf8_decode]: None where [bytes.decode] raises UnicodeDecodeError.
    [utf8_replace]: each maximal prefix of an ill-formed sequence becomes
    U+FFFD, as the "replace" handler does. *)

Definition cont (b : byte) : bool := Z.leb 128 (val b) && Z.ltb (val b) 192.
Definition second3 (b0 b1 : byte) : bool :=
  cont b1 && (negb (val b0 =? 224) || Z.leb 160 (val b1)) && (negb (val b0 =? 237) || Z.ltb (val b1) 160).
Definition second4 (b0 b1 : byte) : bool :=
  cont b1 && (negb (val b0 =? 240) || Z.leb 144 (val b1)) && (negb (val b0 =? 244) || Z.ltb (val b1) 144).

Fixpoint utf8_go (replace : bool) (bs : octets) : option text :=
  let bad (r : octets) := if replace then cons 65533 <$> utf8_go replace r else None in
  match bs with
  | [] => Some []
  | b0 :: r0 =>
      let v := val b0 in
      if Z.ltb v 128 then cons v <$> utf8_go replace r0
      else if Z.ltb v 194 then bad r0
      else if Z.ltb v 224 then
        match r0 with
        | [] => if replace then Some [65533] else None
        | b1 :: r1 => if cont b1 then cons ((v - 192) * 64 + (val b1 - 128)) <$> utf8_go replace r1
                      else bad r0
        end
      else if Z.ltb v 240 then
        match r0 with
        | [] => if replace then Some [65533] else None
        | b1 :: r1 =>
            if second3 b0 b1 then
              match r1 with
              | [] => if replace then Some [65533] else None
              | b2 :: r2 =>
                  if cont b2
                  then cons ((v - 224) * 4096 + (val b1 - 128) * 64 + (val b2 - 128)) <$> utf8_go replace r2
                  else bad r1
              end
            else bad r0
        end
      else if Z.ltb v 245 then
        match r0 with
        | [] => if replace then Some [65533] else None
        | b1 :: r1 =>
            if second4 b0 b1 then
              match r1 with
              | [] => if replace then Some [65533] else None
              | b2 :: r2 =>
                  if cont b2 then
                    match r2 with
                    | [] => if replace then Some [65533] else None
                    | b3 :: r3 =>
                        if cont b3
                        then cons ((v - 240) * 262144 + (val b1 - 128) * 4096
                                   + (val b2 - 128) * 64 + (val b3 - 128)) <$> utf8_go replace r3
                        else bad r2
                    end
                  else bad r1
              end
            else bad r0
        end
      else bad r0
  end.

Definition utf8_decode (b : octets) : res text := or_raise UnicodeDecodeError (utf8_go false b).
Definition utf8_replace (b : octets) : text := default [] (utf8_go true b).

(** A code point UTF-8 encodes: a surrogate is refused. *)
Definition scalar (c : Z) : bool :=
  Z.leb 0 c && Z.ltb c 1114112 && negb (Z.leb 55296 c && Z.ltb c 57344).

Definition utf8_char (c : Z) : octets :=
  if Z.ltb c 128 then [oct c]
  else if Z.ltb c 2048 then [oct (192 + c / 64); oct (128 + c mod 64)]
  else if Z.ltb c 65536 then [oct (224 + c / 4096); oct (128 + (c / 64) mod 64); oct (128 + c mod 64)]
  else [oct (240 + c / 262144); oct (128 + (c / 4096) mod 64); oct (128 + (c / 64) mod 64);
        oct (128 + c mod 64)].

Fixpoint utf8_bytes (t : text) : octets :=
  match t with [] => [] | c :: r => (utf8_char c ++ utf8_bytes r)%list end.
(** UnicodeEncodeError is a ValueError. *)
Definition utf8_encode (t : text) : res octets :=
  if forallb scalar t then Ok (utf8_bytes t) else Err ValueError.

Ltac byte_vals := rewrite ?val_oct by lia.

Lemma utf8_char_decode rp c rest : scalar c = true →
  utf8_go rp (utf8_char c ++ rest)%list = cons c <$> utf8_go rp rest.
Proof.
  unfold scalar. intros H. bool_hyps.
  assert (H3 : ¬ (55296 ≤ c < 57344)).
  { intros [? ?]. match goal with Hn : _ && _ = false |- _ => apply andb_false_iff in Hn as [Hn|Hn]; bool_hyps; lia end. }
  unfold utf8_char.
  assert (Hc : ∀ x, 0 ≤ x < 64 → cont (oct (128 + x)) = true).
  { intros x Hx. unfold cont. byte_vals. apply andb_true_iff. split; [apply Z.leb_le | apply Z.ltb_lt]; lia. }
  pose proof (Z.mod_pos_bound c 64 ltac:(lia)) as M0.
  pose proof (Z.mod_pos_bound (c / 64) 64 ltac:(lia)) as M1.
  pose proof (Z.mod_pos_bound (c / 4096) 64 ltac:(lia)) as M2.
  assert (D0 : c = 64 * (c / 64) + c mod 64) by (apply Z.div_mod; lia).
  assert (D1 : c / 64 = 64 * (c / 4096) + (c / 64) mod 64).
  { replace (c / 4096) with (c / 64 / 64) by (rewrite Z.div_div by lia; done). apply Z.div_mod. lia. }
  assert (D2 : c / 4096 = 64 * (c / 262144) + (c / 4096) mod 64).
  { replace (c / 262144) with (c / 4096 / 64) by (rewrite Z.div_div by lia; done). apply Z.div_mod. lia. }
  destruct (Z.ltb_spec c 128); [|destruct (Z.ltb_spec c 2048); [|destruct (Z.ltb_spec c 65536)]];
    cbn [app utf8_go]; byte_vals; repeat (rewrite (proj2 (Z.ltb_ge _ _)) by lia);
    repeat (rewrite (proj2 (Z.ltb_lt _ _)) by lia); try done.
  - rewrite Hc by lia. f_equal. f_equal. lia.
  - assert (second3 (oct (224 + c / 4096)) (oct (128 + (c / 64) mod 64)) = true) as ->.
    { unfold second3. rewrite Hc by lia. byte_vals. cbn [andb].
      destruct (Z.eqb_spec (224 + c / 4096) 224), (Z.eqb_spec (224 + c / 4096) 237); cbn [negb orb andb];
        try done; rewrite ?andb_true_r; try lia; first [apply Z.leb_le | apply Z.ltb_lt]; lia. }
    rewrite Hc by lia. f_equal. f_equal. lia.
  - assert (second4 (oct (240 + c / 262144)) (oct (128 + (c / 4096) mod 64)) = true) as ->.
    { unfold second4. rewrite Hc by lia. byte_vals. cbn [andb].
      destruct (Z.eqb_spec (240 + c / 262144) 240), (Z.eqb_spec (240 + c / 262144) 244); cbn [negb orb andb];
        try done; rewrite ?andb_true_r; try lia; first [apply Z.leb_le | apply Z.ltb_lt]; lia. }
    rewrite !Hc by lia. f_equal. f_equal. lia.
Qed.

Lemma utf8_roundtrip t b : utf8_encode t = Ok b → utf8_decode b = Ok t.
Proof.
  unfold utf8_encode, utf8_decode. destruct (forallb scalar t) eqn:E; [|done]. intros [= <-].
  assert (utf8_go false (utf8_bytes t) = Some t) as ->; [|done].
  induction t as [|c t IH]; [done|]. simpl in *. bool_hyps.
  rewrite utf8_char_decode by done. by rewrite IH.
Qed.

(** ** Constants *)

Definition PROTOCOL_VERSION_3 : Z := 196608.
Definition SSL_REQUEST_CODE : Z := 80877103.
Definition GSSENC_REQUEST_CODE : Z := 80877104.
Definition CANCEL_REQUEST_CODE : Z := 80877102.

Definition MSG_AUTHENTICATION : byte := "R"%byte.
Definition MSG_ERROR_RESPONSE : byte := "E"%byte.
Definition MSG_READY_FOR_QUERY : byte := "Z"%byte.
Definition MSG_PARAMETER_STATUS : byte := "S"%byte.
Definition MSG_BACKEND_KEY_DATA : byte := "K"%byte.
Definition MSG_PASSWORD : byte := "p"%byte.
Definition MSG_QUERY : byte := "Q"%byte.
Definition MSG_TERMINATE : byte := "X"%byte.

Definition AUTH_OK : Z := 0.
Definition AUTH_CLEARTEXT_PASSWORD : Z := 3.
Definition AUTH_SASL : Z := 10.
Definition TXN_IDLE : byte := "I"%byte.

(** ** Startup packets *)

(** [b.split(b"\x00")] *)
Fixpoint split_nul (b : octets) : list octets :=
  match b with
  | [] => [[]]
  | x :: r => if bool_decide (x = x00) then [] :: split_nul r
              else match split_nul r with [] => [[x]] | t :: ts => (x :: t) :: ts end
  end.

Definition ends_nul (b : octets) : bool := bool_decide (last b = Some x00).

(** [params[k] = v]: a dict keeps the place of a key it has. *)
Fixpoint dict_set (k v : text) (d : list (text * text)) : list (text * text) :=
  match d with
  | [] => [(k, v)]
  | (k', v') :: r => if bool_decide (k = k') then (k, v) :: r else (k', v') :: dict_set k v r
  end.

Fixpoint parse_params (tokens : list octets) (params : list (text * text)) : res (list (text * text)) :=
  match tokens with
  | [] => Err ProtocolError
  | [] :: _ => Ok params
  | _ :: [] => Err ProtocolError
  | key :: value :: rest =>
      v ← utf8_decode value;
      k ← utf8_decode key;
      parse_params rest (dict_set k v params)
  end.

Definition parse_startup_packet (data : octets) : res (Z * list (text * text)) :=
  if (length data <? 4)%nat then Err ProtocolError
  else
    let code := unpack_I (take 4 data) in
    if bool_decide (code ∈ [SSL_REQUEST_CODE; GSSENC_REQUEST_CODE; CANCEL_REQUEST_CODE]) then Ok (code, [])
    else if negb (code =? PROTOCOL_VERSION_3) then Err ProtocolError
    else
      let body := drop 4 data in
      if negb (ends_nul body) then Err ProtocolError
      else params ← parse_params (split_nul body) []; Ok (code, params).

Definition build_ssl_request : octets := (be_bytes 4 8 ++ be_bytes 4 SSL_REQUEST_CODE)%list.

Definition parse_cancel_request (data : octets) : res (Z * Z) :=
  if negb (length data =? 12)%nat then Err ProtocolError
  else if negb (unpack_I (take 4 data) =? CANCEL_REQUEST_CODE) then Err ProtocolError
  else Ok (unpack_I (take 4 (drop 4 data)), unpack_I (drop 8 data)).

Definition build_cancel_request (pid key : Z) : res octets :=
  p ← pack_I pid; k ← pack_I key;
  Ok (be_bytes 4 16 ++ be_bytes 4 CANCEL_REQUEST_CODE ++ p ++ k)%list.

(** ** Regular framing *)

Definition build_message (type_byte : byte) (payload : octets) : res octets :=
  len ← pack_I (Z.of_nat (length payload) + 4);
  Ok (type_byte :: len ++ payload)%list.

Definition split_message (data : octets) : res (byte * octets * octets) :=
  match data with
  | t :: _ =>
      if (length data <? 5)%nat then Err ProtocolError
      else
        let total := 1 + unpack_I (take 4 (drop 1 data)) in
        if Z.ltb (Z.of_nat (length data)) total then Err ProtocolError
        else Ok (t, drop 5 (take (Z.to_nat total) data), drop (Z.to_nat total) data)
  | [] => Err ProtocolError
  end.

Definition build_backend_key_data (pid key : Z) : res octets :=
  p ← pack_I pid; k ← pack_I key; build_message MSG_BACKEND_KEY_DATA (p ++ k)%list.

Definition parse_backend_key_data (payload : octets) : res (Z * Z) :=
  if negb (length payload =? 8)%nat then Err ProtocolError
  else Ok (unpack_I (take 4 payload), unpack_I (drop 4 payload)).

Fixpoint startup_params (params : list (text * text)) : res octets :=
  match params with
  | [] => Ok [x00]
  | (key, value) :: rest =>
      k ← utf8_encode key; v ← utf8_encode value; r ← startup_params rest;
      Ok (k ++ x00 :: v ++ x00 :: r)%list
  end.

Definition build_startup_message (params : list (text * text)) : res octets :=
  p ← startup_params params;
  let body := (be_bytes 4 PROTOCOL_VERSION_3 ++ p)%list in
  len ← pack_I (Z.of_nat (length body) + 4);
  Ok (len ++ body)%list.

(** ** Authentication, queries and errors *)

Definition build_authentication_request (code : Z) (payload : octets) : res octets :=
  c ← pack_I code; build_message MSG_AUTHENTICATION (c ++ payload)%list.
Definition build_authentication_cleartext_password : res octets :=
  build_authentication_request AUTH_CLEARTEXT_PASSWORD [].
Definition build_authentication_ok : res octets := build_authentication_request AUTH_OK [].

Definition parse_authentication (payload : octets) : res (Z * octets) :=
  if (length payload <? 4)%nat then Err ProtocolError
  else Ok (unpack_I (take 4 payload), drop 4 payload).

Definition parse_password_message (payload : octets) : res text :=
  if negb (ends_nul payload) then Err ProtocolError else utf8_decode (removelast payload).
Definition build_password_message (password : text) : res octets :=
  p ← utf8_encode password; build_message MSG_PASSWORD (p ++ [x00])%list.

Definition build_query (sql : text) : res octets :=
  q ← utf8_encode sql; build_message MSG_QUERY (q ++ [x00])%list.

Definition build_ready_for_query (status : byte) : res octets :=
  build_message MSG_READY_FOR_QUERY [status].

Definition tagged (tag : byte) (v : octets) : octets := (tag :: v ++ [x00])%list.
Definition build_error_response (message code severity : text) : res octets :=
  s ← utf8_encode severity; c ← utf8_encode code; m ← utf8_encode message;
  build_message MSG_ERROR_RESPONSE
    (tagged "S" s ++ tagged "V" s ++ tagged "C" c ++ tagged "M" m ++ [x00])%list.

(** [parse_error_response]: the tag is one octet, the last of a repeated one
    counts. *)
Fixpoint field_set (k : byte) (v : text) (d : list (byte * text)) : list (byte * text) :=
  match d with
  | [] => [(k, v)]
  | (k', v') :: r => if bool_decide (k = k') then (k, v) :: r else (k', v') :: field_set k v r
  end.
Definition parse_error_response (payload : octets) : list (byte * text) :=
  fold_left (λ fields chunk, match chunk with
                             | [] => fields
                             | t :: v => field_set t (utf8_replace v) fields
                             end) (split_nul payload) [].
Fixpoint error_field (k : byte) (d : list (byte * text)) : option text :=
  match d with
  | [] => None
  | (k', v) :: r => if bool_decide (k = k') then Some v else error_field k r
  end.

(** ** Streams

    What a peer has sent and will send before its side ends, and how: at end
    of file [readexactly] raises IncompleteReadError, on a broken connection
    that error. *)
Record reader := { pending : octets; broken : option exn }.

Definition readexactly (n : nat) : M reader octets := λ r,
  if (length (pending r) <? n)%nat
  then (Err (default IncompleteReadError (broken r)), {| pending := []; broken := broken r |})
  else (Ok (take n (pending r)), {| pending := drop n (pending r); broken := broken r |}).

Definition _read_startup_packet : M reader octets :=
  header ← readexactly 4;
  let len := unpack_I header in
  if Z.ltb len 4 || Z.ltb (2 ^ 20) len then raise ProtocolError
  else readexactly (Z.to_nat (len - 4)).

Definition _read_regular_message : M reader (byte * octets) :=
  t ← readexactly 1;
  l ← readexactly 4;
  let len := unpack_I l in
  if Z.ltb len 4 || Z.ltb (2 ^ 24) len then raise ProtocolError
  else p ← readexactly (Z.to_nat (len - 4)); mret (default x00 (head t), p).

(** ** Round trips *)

Lemma utf8_go_bytes rp t : forallb scalar t = true → utf8_go rp (utf8_bytes t) = Some t.
Proof.
  induction t as [|c t IH]; [done|]. simpl. intros H. bool_hyps.
  rewrite utf8_char_decode by done. by rewrite IH.
Qed.

Lemma utf8_replace_encoded t b : utf8_encode t = Ok b → utf8_replace b = t.
Proof.
  unfold utf8_encode, utf8_replace. destruct (forallb scalar t) eqn:E; [|done]. intros [= <-].
  by rewrite utf8_go_bytes.
Qed.

(** No NUL: the C strings of the protocol hold none. *)
Definition no_nul (t : text) : bool := forallb (λ c, negb (Z.eqb c 0)) t.

Lemma oct_nonzero z : 0 < z < 256 → oct z ≠ x00.
Proof. intros Hz E. apply (f_equal val) in E. rewrite val_oct in E by lia. change (val x00) with 0 in E. lia. Qed.

Lemma utf8_no_nul t b : utf8_encode t = Ok b → no_nul t = true → Forall (λ x, x ≠ x00) b.
Proof.
  unfold utf8_encode. destruct (forallb scalar t) eqn:E; [|done]. intros [= <-].
  induction t as [|c t IH]; [by intros|]. simpl in *. intros Hn. bool_hyps. unfold scalar in *. bool_hyps.
  apply Forall_app. split; [|by apply IH].
  unfold utf8_char.
  pose proof (Z.mod_pos_bound c 64 ltac:(lia)). pose proof (Z.mod_pos_bound (c / 64) 64 ltac:(lia)).
  pose proof (Z.mod_pos_bound (c / 4096) 64 ltac:(lia)).
  destruct (Z.ltb_spec c 128); [|destruct (Z.ltb_spec c 2048); [|destruct (Z.ltb_spec c 65536)]];
    repeat apply Forall_cons_2; try apply Forall_nil_2; apply oct_nonzero; try lia;
    (split; [|]; try lia).
  - pose proof (Z.div_pos c 64). lia.
  - assert (c / 64 < 64) by (apply Z.div_lt_upper_bound; lia). lia.
  - pose proof (Z.div_pos c 4096). lia.
  - assert (c / 4096 < 16) by (apply Z.div_lt_upper_bound; lia). lia.
  - pose proof (Z.div_pos c 262144). lia.
  - assert (c / 262144 < 16) by (apply Z.div_lt_upper_bound; lia). lia.
Qed.

Lemma split_nul_cons b r : Forall (λ x, x ≠ x00) b → split_nul (b ++ x00 :: r)%list = b :: split_nul r.
Proof.
  induction b as [|x b IH]; intros H.
  - done.
  - apply Forall_cons in H as [Hx H]. simpl. rewrite bool_decide_eq_false_2 by done. by rewrite IH.
Qed.

Lemma ends_nul_snoc b : ends_nul (b ++ [x00])%list = true.
Proof. unfold ends_nul. rewrite last_snoc. by apply bool_decide_eq_true. Qed.

Lemma ends_nul_app b r : r ≠ [] → ends_nul (b ++ r)%list = ends_nul r.
Proof. intros Hr. destruct r as [|x r] using rev_ind; [done|]. unfold ends_nul. by rewrite app_assoc, !last_snoc. Qed.

Lemma dict_set_new k v d : k ∉ d.*1 → dict_set k v d = (d ++ [(k, v)])%list.
Proof.
  induction d as [|[k' v'] d IH]; [done|]. simpl. intros H. apply not_elem_of_cons in H as [H1 H2].
  rewrite bool_decide_eq_false_2 by done. by rewrite IH.
Qed.

(** What a client can put in a StartupMessage. *)
Definition startup_pair (kv : text * text) : bool :=
  negb (bool_decide (kv.1 = [])) && no_nul kv.1 && no_nul kv.2.

Lemma utf8_encode_empty t : utf8_encode t = Ok [] → t = [].
Proof.
  unfold utf8_encode. destruct (forallb scalar t) eqn:E; [|done]. destruct t as [|c t]; [done|].
  simpl. unfold utf8_char. by destruct (Z.ltb c 128), (Z.ltb c 2048), (Z.ltb c 65536).
Qed.

Lemma startup_params_parse params b : startup_params params = Ok b →
  forallb startup_pair params = true → ∀ done, NoDup (done.*1 ++ params.*1)%list →
  parse_params (split_nul b) done = Ok (done ++ params)%list ∧ ends_nul b = true ∧ b ≠ [].
Proof.
  revert b. induction params as [|[k v] params IH]; intros b Hb Hp acc Hnd; cbn [startup_params] in Hb.
  { injection Hb as <-. by rewrite app_nil_r. }
  apply res_bind_inv_ok in Hb as (kb & Hk & Hb). apply res_bind_inv_ok in Hb as (vb & Hv & Hb).
  apply res_bind_inv_ok in Hb as (rb & Hr & Hb). injection Hb as <-.
  cbn [forallb] in Hp. apply andb_true_iff in Hp as [Hkv Hp]. unfold startup_pair in Hkv.
  apply andb_true_iff in Hkv as [Hkv Hvn]. apply andb_true_iff in Hkv as [Hke Hkn]. simpl in Hke, Hkn, Hvn.
  destruct (IH rb Hr Hp (acc ++ [(k, v)])%list) as (Hparse & Hend & Hne).
  { by rewrite fmap_app, <- app_assoc. }
  split; [|split; [rewrite ends_nul_app by done; change (x00 :: vb ++ x00 :: rb)%list with ((x00 :: vb) ++ x00 :: rb)%list;
    rewrite ends_nul_app by done; change (x00 :: rb) with ([x00] ++ rb)%list; by rewrite ends_nul_app |]].
  2:{ by destruct kb. }
  rewrite split_nul_cons by (by eapply utf8_no_nul). rewrite split_nul_cons by (by eapply utf8_no_nul).
  destruct kb as [|kx kb]; [by apply utf8_encode_empty in Hk as ->|].
  cbn [parse_params]. rewrite (utf8_roundtrip _ _ Hv). cbn [mbind res_bind].
  rewrite (utf8_roundtrip _ _ Hk). cbn [mbind res_bind].
  rewrite dict_set_new.
  - rewrite Hparse. by rewrite <- app_assoc.
  - cbn [fmap list_fmap fst] in Hnd. apply NoDup_app in Hnd as (_ & Hnd & _). intros Hin.
    apply (Hnd _ Hin). left.
Qed.

(** Reading what was framed. *)
Lemma readexactly_app n b rest e : length b = n →
  readexactly n {| pending := (b ++ rest)%list; broken := e |} = (Ok b, {| pending := rest; broken := e |}).
Proof.
  intros <-. unfold readexactly. simpl. rewrite length_app.
  rewrite (proj2 (Nat.ltb_ge _ _)) by lia. by rewrite take_app_length, drop_app_length.
Qed.

Lemma pack_inj_ok z b : pack_I z = Ok b → length b = 4%nat ∧ unpack_I b = z.
Proof. intros H. by destruct (pack_ok _ _ H) as (? & ? & _). Qed.

Lemma build_message_inv t p m : build_message t p = Ok m →
  ∃ l, m = (t :: l ++ p)%list ∧ length l = 4%nat ∧ unpack_I l = Z.of_nat (length p) + 4.
Proof.
  unfold build_message. intros (l & Hl & Hm)%res_bind_inv_ok. apply pack_inj_ok in Hl as [? ?].
  exists l. split_and!; [congruence | done..].
Qed.

Lemma read_message_framed t p m rest e : build_message t p = Ok m → Z.of_nat (length p) + 4 ≤ 2 ^ 24 →
  _read_regular_message {| pending := (m ++ rest)%list; broken := e |} =
  (Ok (t, p), {| pending := rest; broken := e |}).
Proof.
  intros (l & -> & Hl & Hu)%build_message_inv Hp. unfold _read_regular_message.
  change ((t :: l ++ p) ++ rest)%list with ([t] ++ (l ++ p) ++ rest)%list.
  rewrite (bind_ok _ _ _ _ _ (readexactly_app 1 [t] _ e eq_refl)). rewrite <- app_assoc.
  rewrite (bind_ok _ _ _ _ _ (readexactly_app 4 l _ e Hl)). rewrite Hu.
  rewrite (proj2 (Z.ltb_ge _ _)) by lia. rewrite (proj2 (Z.ltb_ge _ _)) by lia. cbn [orb].
  assert (Z.to_nat (Z.of_nat (length p) + 4 - 4) = length p) as -> by lia.
  by rewrite (bind_ok _ _ _ _ _ (readexactly_app _ p _ e eq_refl)).
Qed.

Lemma split_built t p m rest : build_message t p = Ok m → split_message (m ++ rest)%list = Ok (t, p, rest).
Proof.
  intros (l & -> & Hl & Hu)%build_message_inv.
  unfold split_message. cbn [app]. rewrite <- app_assoc.
  rewrite (proj2 (Nat.ltb_ge _ _)) by (simpl; rewrite !length_app; lia).
  assert (take 4 (drop 1 (t :: l ++ p ++ rest)%list) = l) as -> by (cbn [drop]; by apply take_app_length').
  rewrite Hu. rewrite (proj2 (Z.ltb_ge _ _)) by (simpl; rewrite !length_app; lia).
  assert (Z.to_nat (1 + (Z.of_nat (length p) + 4)) = length (t :: l ++ p)%list) as ->
    by (simpl; rewrite length_app; lia).
  assert (t :: l ++ p ++ rest = (t :: l ++ p) ++ rest)%list as -> by (simpl; by rewrite app_assoc).
  rewrite take_app_length, drop_app_length. do 3 f_equal.
  change (drop 5 (t :: l ++ p)%list) with (drop 4 (l ++ p)%list). by apply drop_app_length'.
Qed.

Lemma split_built_all t p m : build_message t p = Ok m → split_message m = Ok (t, p, []).
Proof. intros H. rewrite <- (app_nil_r m). by apply split_built. Qed.

Lemma take_short {A} (k : nat) (l : list A) : (k < length l)%nat → length (take k l) = k.
Proof. intros Hk. rewrite length_take. lia. Qed.

(** Framing is self-delimiting: whatever follows a built message,
    [split_message] gives back its type and payload and exactly what follows,
    and refuses every proper prefix of it as incomplete; the stream reader
    gives the same, up to the length it accepts. *)
Theorem frame_self_delimiting t p m (Hm : build_message t p = Ok m) :
  (∀ rest, split_message (m ++ rest)%list = Ok (t, p, rest)) ∧
  (∀ k, (k < length m)%nat → split_message (take k m) = Err ProtocolError) ∧
  (∀ rest e, Z.of_nat (length p) + 4 ≤ 2 ^ 24 →
     _read_regular_message {| pending := (m ++ rest)%list; broken := e |} =
     (Ok (t, p), {| pending := rest; broken := e |})).
Proof.
  split; [|split; [|intros rest e; by apply read_message_framed]];
    [intros rest; by apply split_built|].
  apply build_message_inv in Hm as (l & -> & Hl & Hu).
  - intros k Hk. unfold split_message. pose proof (take_short _ _ Hk) as Hlen.
    destruct (take k (t :: l ++ p)%list) as [|x r] eqn:E; [done|]. rewrite <- E, take_short by done.
    destruct (Nat.ltb_spec k 5); [done|].
    assert (take 4 (drop 1 (take k (t :: l ++ p)%list)) = l) as ->.
    { destruct k as [|k]; [lia|]. change (take 4 (take k (l ++ p)%list) = l). rewrite take_take, Nat.min_l by lia. by apply take_app_length'. }
    rewrite Hu. simpl in Hk. rewrite length_app in Hk. by rewrite (proj2 (Z.ltb_lt _ _)) by lia.
Qed.

(** A StartupMessage is read as it was built: for parameters of distinct
    names, none empty and none holding a NUL, the reader takes exactly the
    packet off the stream and the parser gives the protocol version and the
    parameters, in order. *)
Lemma startup_roundtrip params m
    (Hm : build_startup_message params = Ok m) (Hp : forallb startup_pair params = true)
    (Hn : NoDup params.*1) (Hl : Z.of_nat (length m) ≤ 2 ^ 20) :
  ∃ body, (∀ rest e, _read_startup_packet {| pending := (m ++ rest)%list; broken := e |} =
            (Ok body, {| pending := rest; broken := e |})) ∧
          parse_startup_packet body = Ok (PROTOCOL_VERSION_3, params).
Proof.
  unfold build_startup_message in Hm. apply res_bind_inv_ok in Hm as (b & Hb & Hm).
  set (body := (be_bytes 4 PROTOCOL_VERSION_3 ++ b)%list) in *.
  apply res_bind_inv_ok in Hm as (l & Hlen & Hm). injection Hm as <-. apply pack_inj_ok in Hlen as [Hl4 Hu].
  rewrite length_app, Hl4 in Hl. exists body. split.
  - intros rest e. unfold _read_startup_packet. rewrite <- app_assoc.
    rewrite (bind_ok _ _ _ _ _ (readexactly_app 4 l _ e Hl4)). rewrite Hu.
    rewrite (proj2 (Z.ltb_ge _ _)) by lia. rewrite (proj2 (Z.ltb_ge _ _)) by lia. cbn [orb].
    apply readexactly_app. lia.
  - destruct (startup_params_parse _ _ Hb Hp [] Hn) as (Hparse & Hend & Hne).
    unfold parse_startup_packet, body. rewrite length_app, be_length.
    rewrite (proj2 (Nat.ltb_ge _ _)) by lia.
    rewrite (take_app_length' _ _ 4), (drop_app_length' _ _ 4) by (by rewrite be_length).
    change (unpack_I (be_bytes 4 PROTOCOL_VERSION_3)) with PROTOCOL_VERSION_3.
    rewrite bool_decide_eq_false_2 by (vm_compute; intros H; repeat (apply elem_of_cons in H as [H|H]; [done|]);
      by apply elem_of_nil in H).
    cbn [negb]. rewrite Hend. cbn [negb Z.eqb]. by rewrite Hparse.
Qed.

(** *** Errors and keys *)

Lemma split_nul_tagged t v rest : t ≠ x00 → Forall (λ x, x ≠ x00) v →
  split_nul (tagged t v ++ rest)%list = (t :: v) :: split_nul rest.
Proof.
  intros Ht Hv. unfold tagged.
  assert ((t :: v ++ [x00]) ++ rest = (t :: v) ++ x00 :: rest)%list as -> by (simpl; by rewrite <- app_assoc).
  apply split_nul_cons. by apply Forall_cons.
Qed.

Lemma password_roundtrip password m rest e : build_password_message password = Ok m →
  Z.of_nat (length m) ≤ 2 ^ 24 →
  ∃ payload, _read_regular_message {| pending := (m ++ rest)%list; broken := e |} =
    (Ok (MSG_PASSWORD, payload), {| pending := rest; broken := e |}) ∧
    parse_password_message payload = Ok password.
Proof.
  unfold build_password_message. intros (p & Hp & Hm)%res_bind_inv_ok Hl. exists (p ++ [x00])%list. split.
  - apply read_message_framed; [done|]. apply build_message_inv in Hm as (l & -> & Hl4 & _). simpl in Hl.
    rewrite length_app, Hl4 in Hl. lia.
  - unfold parse_password_message. rewrite ends_nul_snoc. cbn [negb]. rewrite removelast_last. by apply utf8_roundtrip.
Qed.

(** An error the proxy builds is read back: its message and its SQLSTATE. *)
Lemma error_roundtrip message code severity m
    (Hm : build_error_response message code severity = Ok m)
    (Hn : no_nul message = true) (Hc : no_nul code = true) (Hs : no_nul severity = true) :
  ∃ payload, split_message m = Ok (MSG_ERROR_RESPONSE, payload, []) ∧
    error_field "M" (parse_error_response payload) = Some message ∧
    error_field "C" (parse_error_response payload) = Some code.
Proof.
  unfold build_error_response in Hm.
  apply res_bind_inv_ok in Hm as (s & Es & Hm). apply res_bind_inv_ok in Hm as (c & Ec & Hm).
  apply res_bind_inv_ok in Hm as (b & Eb & Hm). eexists. split; [by apply split_built_all|].
  unfold parse_error_response.
  pose proof (utf8_no_nul _ _ Es Hs). pose proof (utf8_no_nul _ _ Ec Hc). pose proof (utf8_no_nul _ _ Eb Hn).
  rewrite !split_nul_tagged by done. simpl.
  rewrite (utf8_replace_encoded _ _ Eb), (utf8_replace_encoded _ _ Ec). done.
Qed.

Lemma cancel_roundtrip pid key m : build_cancel_request pid key = Ok m →
  parse_cancel_request (drop 4 m) = Ok (pid, key).
Proof.
  unfold build_cancel_request. intros (p & Hp & Hm)%res_bind_inv_ok. apply res_bind_inv_ok in Hm as (k & Hk & Hm).
  assert (m = be_bytes 4 16 ++ be_bytes 4 CANCEL_REQUEST_CODE ++ p ++ k)%list as -> by congruence. clear Hm.
  apply pack_inj_ok in Hp as [Lp Up]. apply pack_inj_ok in Hk as [Lk Uk].
  rewrite (drop_app_length' (be_bytes 4 16)) by done. unfold parse_cancel_request.
  rewrite !length_app, be_length, Lp, Lk. cbn [Nat.add Nat.eqb negb].
  rewrite (take_app_length' (be_bytes 4 CANCEL_REQUEST_CODE)) by done.
  change (unpack_I (be_bytes 4 CANCEL_REQUEST_CODE) =? CANCEL_REQUEST_CODE) with true. cbn [negb].
  rewrite (drop_app_length' (be_bytes 4 CANCEL_REQUEST_CODE)) by done.
  rewrite (take_app_length' p) by done. rewrite app_assoc.
  rewrite (drop_app_length' (be_bytes 4 CANCEL_REQUEST_CODE ++ p)%list) by (by rewrite length_app, Lp).
  by rewrite Up, Uk.
Qed.

Lemma key_data_roundtrip pid key m : build_backend_key_data pid key = Ok m →
  ∃ payload, split_message m = Ok (MSG_BACKEND_KEY_DATA, payload, []) ∧
             parse_backend_key_data payload = Ok (pid, key).
Proof.
  unfold build_backend_key_data. intros (p & Hp & Hm)%res_bind_inv_ok. apply res_bind_inv_ok in Hm as (k & Hk & Hm).
  apply pack_inj_ok in Hp as [Lp Up]. apply pack_inj_ok in Hk as [Lk Uk].
  exists (p ++ k)%list. split; [by apply split_built_all|].
  unfold parse_backend_key_data. rewrite length_app, Lp, Lk. cbn [Nat.add Nat.eqb negb].
    rewrite (take_app_length' p), (drop_app_length' p) by done. by rewrite Up, Uk.
Qed.

(** ** Concrete packets *)

Definition sample_params : list (text * text) :=
  [(t_of "user", t_of "kernel"); (t_of "database", [233; 8364; 128640])].

Lemma frame_self_delimiting_witness :
  ∃ m, build_message MSG_QUERY (ascii_octets "SELECT 1") = Ok m ∧
    split_message (m ++ [MSG_TERMINATE])%list = Ok (MSG_QUERY, ascii_octets "SELECT 1", [MSG_TERMINATE]).
Proof.
  eexists. split; [vm_compute; reflexivity|].
  apply (frame_self_delimiting MSG_QUERY (ascii_octets "SELECT 1")). vm_compute. reflexivity.
Defined.

(** A packet that leaves its terminator out is accepted where the last value
    ends it, and a name that is not UTF-8 is not a ProtocolError. *)
Example startup_ex :
  (parse_startup_packet (be_bytes 4 PROTOCOL_VERSION_3 ++ ascii_octets "user" ++ x00 :: ascii_octets "k" ++ [x00]),
   parse_startup_packet (be_bytes 4 PROTOCOL_VERSION_3 ++ [xff; x00; x00; x00]),
   utf8_replace [xe2; x82; x41; xf0; x9f; xff])%list =
  (Ok (PROTOCOL_VERSION_3, [(t_of "user", t_of "k")]), Err UnicodeDecodeError, [65533; 65; 65533; 65533]).
Proof. vm_compute. reflexivity. Qed.
