(* ===== verification/SqlScram.v ===== *)
(** * SCRAM-SHA-256: services/notebook_sql_proxy/scram.py

    The client exchange the proxy opens its upstream sessions with, and the
    verifier it enrols, over base64, HMAC and PBKDF2 as the standard library
    defines them.  The hash is a parameter: an octet string to 32 octets. *)

From stdpp Require Import base strings list.
From Stdlib Require Import ZArith Lia.
From Stdlib.Strings Require Import Byte.
From S2P Require Import Prelude PyText CapabilityAudit SqlWire.

Local Open Scope Z_scope.

(** ** Base64 *)

Definition b64_char (z : Z) : Z :=
  if Z.ltb z 26 then z + 65 else if Z.ltb z 52 then z + 71
  else if Z.ltb z 62 then z - 4 else if Z.eqb z 62 then 43 else 47.
Definition b64_value (c : Z) : option Z :=
  if Z.leb 65 c && Z.leb c 90 then Some (c - 65)
  else if Z.leb 97 c && Z.leb c 122 then Some (c - 71)
  else if Z.leb 48 c && Z.leb c 57 then Some (c + 4)
  else if Z.eqb c 43 then Some 62 else if Z.eqb c 47 then Some 63 else None.

(** [base64.b64encode(b).decode("ascii")] *)
Fixpoint b64_encode (b : octets) : text :=
  match b with
  | [] => []
  | [x] => [b64_char (val x / 4); b64_char (val x mod 4 * 16); 61; 61]
  | [x; y] => [b64_char (val x / 4); b64_char (val x mod 4 * 16 + val y / 16);
               b64_char (val y mod 16 * 4); 61]
  | x :: y :: z :: r =>
      b64_char (val x / 4) :: b64_char (val x mod 4 * 16 + val y / 16)
      :: b64_char (val y mod 16 * 4 + val z / 64) :: b64_char (val z mod 64) :: b64_encode r
  end.

(** [binascii.a2b_base64], not strict: characters outside the alphabet are
    skipped, a pad that completes a quantum ends the input. *)
Fixpoint b64_go (quad left pads : Z) (t : text) : option octets :=
  match t with
  | [] => if Z.eqb quad 0 then Some [] else None
  | c :: r =>
      if Z.eqb c 61 then
        if Z.leb 2 quad then
          if Z.leb 4 (quad + (pads + 1)) then Some [] else b64_go quad left (pads + 1) r
        else b64_go quad left pads r
      else match b64_value c with
           | None => b64_go quad left pads r
           | Some v =>
               if Z.eqb quad 0 then b64_go 1 v 0 r
               else if Z.eqb quad 1 then cons (oct (left * 4 + v / 16)) <$> b64_go 2 (v mod 16) 0 r
               else if Z.eqb quad 2 then cons (oct (left * 16 + v / 4)) <$> b64_go 3 (v mod 4) 0 r
               else cons (oct (left * 64 + v)) <$> b64_go 0 0 0 r
           end
  end.

(** [base64.b64decode(s)]: binascii.Error is a ValueError, as is the refusal
    of text that is not ASCII. *)
Definition b64_decode (t : text) : res octets :=
  if forallb (λ c, Z.ltb c 128) t then or_raise ValueError (b64_go 0 0 0 t) else Err ValueError.

Lemma b64_char_cases z : 0 ≤ z < 64 →
  b64_char z ≠ 61 ∧ b64_value (b64_char z) = Some z ∧ b64_char z < 128.
Proof.
  intros Hz. assert (forallb (λ n, let z := Z.of_nat n in
    negb (b64_char z =? 61) && bool_decide (b64_value (b64_char z) = Some z) && (b64_char z <? 128))
    (seq 0 64) = true) as H by (vm_compute; reflexivity).
  rewrite forallb_forall in H. specialize (H (Z.to_nat z)). rewrite Z2Nat.id in H by lia.
  assert (In (Z.to_nat z) (seq 0 64)) as Hin by (apply in_seq; lia). specialize (H Hin). simpl in H. bool_hyps.
  by split_and!.
Qed.

Lemma b64_go_char quad left pads z r : 0 ≤ z < 64 →
  b64_go quad left pads (b64_char z :: r) =
  if Z.eqb quad 0 then b64_go 1 z 0 r
  else if Z.eqb quad 1 then cons (oct (left * 4 + z / 16)) <$> b64_go 2 (z mod 16) 0 r
  else if Z.eqb quad 2 then cons (oct (left * 16 + z / 4)) <$> b64_go 3 (z mod 4) 0 r
  else cons (oct (left * 64 + z)) <$> b64_go 0 0 0 r.
Proof.
  intros Hz. destruct (b64_char_cases z Hz) as (H1 & H2 & _). cbn [b64_go].
  apply Z.eqb_neq in H1. by rewrite H1, H2.
Qed.

Lemma triples_ind (P : octets → Prop) :
  P [] → (∀ x, P [x]) → (∀ x y, P [x; y]) → (∀ x y z r, P r → P (x :: y :: z :: r)) → ∀ b, P b.
Proof.
  intros H0 H1 H2 H3. fix IH 1. intros [|x [|y [|z r]]]; [apply H0 | apply H1 | apply H2 | apply H3, IH].
Qed.

Lemma oct_of x z : z = val x → oct z = x.
Proof. intros ->. apply oct_val. Qed.

Lemma b64_go_encode b : b64_go 0 0 0 (b64_encode b) = Some b.
Proof.
  induction b as [|x|x y|x y z r IH] using triples_ind; [done|..]; cbn [b64_encode];
    pose proof (val_range x) as Hx; pose proof (Z.div_mod (val x) 4 ltac:(lia)) as Ex;
    pose proof (Z.mod_pos_bound (val x) 4 ltac:(lia)) as Mx;
    assert (0 ≤ val x / 4 < 64) as Dx by (split; [apply Z.div_pos | apply Z.div_lt_upper_bound]; lia).
  - rewrite !b64_go_char by lia. cbn [Z.eqb Z.leb Z.compare b64_go Pos.compare]. simpl.
    rewrite Z.div_mul by lia. do 2 f_equal. apply oct_of. lia.
  - pose proof (val_range y) as Hy. pose proof (Z.div_mod (val y) 16 ltac:(lia)) as Ey.
    pose proof (Z.mod_pos_bound (val y) 16 ltac:(lia)) as My.
    assert (0 ≤ val y / 16 < 16) as Dy by (split; [apply Z.div_pos | apply Z.div_lt_upper_bound]; lia).
    rewrite !b64_go_char by lia. simpl.
    assert ((val x mod 4 * 16 + val y / 16) / 16 = val x mod 4) as ->
      by (rewrite Z.add_comm, Z.div_add by lia; rewrite Z.div_small; lia).
    assert ((val x mod 4 * 16 + val y / 16) mod 16 = val y / 16) as ->
      by (rewrite Z.add_comm, Z.mod_add by lia; apply Z.mod_small; lia).
    rewrite Z.div_mul by lia.
    rewrite (oct_of x) by lia. rewrite (oct_of y) by lia. done.
  - pose proof (val_range y) as Hy. pose proof (Z.div_mod (val y) 16 ltac:(lia)) as Ey.
    pose proof (Z.mod_pos_bound (val y) 16 ltac:(lia)) as My.
    assert (0 ≤ val y / 16 < 16) as Dy by (split; [apply Z.div_pos | apply Z.div_lt_upper_bound]; lia).
    pose proof (val_range z) as Hz. pose proof (Z.div_mod (val z) 64 ltac:(lia)) as Ez.
    pose proof (Z.mod_pos_bound (val z) 64 ltac:(lia)) as Mz.
    assert (0 ≤ val z / 64 < 4) as Dz by (split; [apply Z.div_pos | apply Z.div_lt_upper_bound]; lia).
    rewrite !b64_go_char by lia. cbn [Z.eqb Z.leb Z.compare Pos.compare Pos.eqb].
    assert ((val x mod 4 * 16 + val y / 16) / 16 = val x mod 4) as ->
      by (rewrite Z.add_comm, Z.div_add by lia; rewrite Z.div_small; lia).
    assert ((val x mod 4 * 16 + val y / 16) mod 16 = val y / 16) as ->
      by (rewrite Z.add_comm, Z.mod_add by lia; apply Z.mod_small; lia).
    assert ((val y mod 16 * 4 + val z / 64) / 4 = val y mod 16) as ->
      by (rewrite Z.add_comm, Z.div_add by lia; rewrite Z.div_small; lia).
    assert ((val y mod 16 * 4 + val z / 64) mod 4 = val z / 64) as ->
      by (rewrite Z.add_comm, Z.mod_add by lia; apply Z.mod_small; lia).
    rewrite IH. simpl. rewrite (oct_of x), (oct_of y), (oct_of z) by lia. done.
Qed.

Lemma b64_encode_ascii b : forallb (λ c, Z.ltb c 128) (b64_encode b) = true.
Proof.
  assert (∀ z, 0 ≤ z < 64 → Z.ltb (b64_char z) 128 = true) as Hc
    by (intros z Hz; apply Z.ltb_lt; by apply b64_char_cases).
  induction b as [|x|x y|x y z r IH] using triples_ind; [done|..]; cbn [b64_encode forallb];
    rewrite ?IH; rewrite !Hc; try done;
    repeat match goal with x : byte |- _ => lazymatch goal with H : 0 ≤ val x < 256 |- _ => fail | _ => pose proof (val_range x) end end;
    Z.to_euclidean_division_equations; lia.
Qed.

Lemma b64_roundtrip b : b64_decode (b64_encode b) = Ok b.
Proof. unfold b64_decode. by rewrite b64_encode_ascii, b64_go_encode. Qed.

(** ** Attribute messages *)

Definition comma : Z := 44.
Definition equals : Z := 61.

(** [t.split(c)] *)
Fixpoint text_split (c : Z) (t : text) : list text :=
  match t with
  | [] => [[]]
  | x :: r => if Z.eqb x c then [] :: text_split c r
              else match text_split c r with [] => [[x]] | p :: ps => (x :: p) :: ps end
  end.

(** [t.partition(c)], where [c] is in it: what is before and after. *)
Fixpoint partition_at (c : Z) (t : text) : option (text * text) :=
  match t with
  | [] => None
  | x :: r => if Z.eqb x c then Some ([], r) else prod_map (cons x) id <$> partition_at c r
  end.

Definition _parse_server_message (message : text) : list (text * text) :=
  fold_left (λ out item, match partition_at equals item with
                         | Some (k, v) => dict_set k v out
                         | None => out
                         end) (text_split comma message) [].

Fixpoint attr (k : text) (d : list (text * text)) : option text :=
  match d with
  | [] => None
  | (k', v) :: r => if bool_decide (k = k') then Some v else attr k r
  end.

(** [_saslprep]: [=] and [,] escaped. *)
Definition _saslprep (t : text) : text :=
  flat_map (λ c, if Z.eqb c equals then t_of "=3D" else if Z.eqb c comma then t_of "=2C" else [c]) t.

Definition GS2_HEADER : text := t_of "n,,".

Definition text_prefix (p t : text) : bool := bool_decide (take (length p) t = p).

Section scram.
(** SHA-256, and [int(s)] of a str: both ASCII and other digits. *)
Context (sha256 : octets → octets) (int_of : text → option Z).

(** *** HMAC and PBKDF2 *)

Definition _h (data : octets) : octets := sha256 data.

Definition _xor (a b : octets) : octets := zip_with (λ x y, oct (Z.lxor (val x) (val y))) a b.

Definition hmac_key (key : octets) : octets :=
  let k := if (64 <? length key)%nat then sha256 key else key in
  (k ++ replicate (64 - length k) x00)%list.
Definition _hmac (key msg : octets) : octets :=
  let k := hmac_key key in
  sha256 (_xor k (replicate 64 (oct 92)) ++ sha256 (_xor k (replicate 64 (oct 54)) ++ msg))%list.

(** The first block of PBKDF2, which is the whole key: [n + 1] rounds. *)
Fixpoint pbkdf2_rounds (n : nat) (password u acc : octets) : octets :=
  match n with
  | O => acc
  | S n => let u' := _hmac password u in pbkdf2_rounds n password u' (_xor acc u')
  end.

Definition salted_password (password : text) (salt : octets) (iterations : Z) : res octets :=
  p ← utf8_encode password;
  if Z.ltb iterations 1 then Err ValueError
  else if Z.ltb (2 ^ 31 - 1) iterations then Err OverflowError
  else let u := _hmac p (salt ++ be_bytes 4 1)%list in
       Ok (pbkdf2_rounds (Z.to_nat (iterations - 1)) p u u).

Definition DEFAULT_ITERATIONS : Z := 4096.

Definition client_key (salted : octets) : octets := _hmac salted (ascii_octets "Client Key").
Definition stored_key (salted : octets) : octets := _h (client_key salted).
Definition server_key (salted : octets) : octets := _hmac salted (ascii_octets "Server Key").

Definition verifier_text (salted salt : octets) (iterations : Z) : text :=
  (t_of "SCRAM-SHA-256$" ++ t_of (str_of_Z iterations) ++ t_of ":" ++ b64_encode salt
   ++ t_of "$" ++ b64_encode (stored_key salted) ++ t_of ":" ++ b64_encode (server_key salted))%list.
Definition scram_verifier (password : text) (salt : octets) (iterations : Z) : res text :=
  salted ← salted_password password salt iterations;
  Ok (verifier_text salted salt iterations).

(** *** The client *)

(** [_client_first_bare] and [_server_key] are attributes only once set. *)
Record ScramClient := {
  username : text; password : text; client_nonce : text;
  _client_first_bare : option text; _auth_message : text; _server_key : option octets }.

Definition new_client (user pass nonce : text) : ScramClient :=
  {| username := user; password := pass; client_nonce := nonce;
     _client_first_bare := None; _auth_message := []; _server_key := None |}.

Definition client_first (c : ScramClient) : res (octets * ScramClient) :=
  let bare := (t_of "n=" ++ _saslprep (username c) ++ t_of ",r=" ++ client_nonce c)%list in
  b ← utf8_encode bare;
  Ok ((utf8_bytes GS2_HEADER ++ b)%list,
      {| username := username c; password := password c; client_nonce := client_nonce c;
         _client_first_bare := Some bare; _auth_message := _auth_message c;
         _server_key := _server_key c |}).

Definition without_proof (nonce : text) : text :=
  (t_of "c=" ++ b64_encode (utf8_bytes GS2_HEADER) ++ t_of ",r=" ++ nonce)%list.

Definition client_final (c : ScramClient) (server_first : octets) : res (octets * ScramClient) :=
  server_first_str ← utf8_decode server_first;
  let attrs := _parse_server_message server_first_str in
  server_nonce ← or_raise KeyError (attr (t_of "r") attrs);
  if negb (text_prefix (client_nonce c) server_nonce) then Err ValueError
  else
    s ← or_raise KeyError (attr (t_of "s") attrs);
    salt ← b64_decode s;
    i ← or_raise KeyError (attr (t_of "i") attrs);
    iterations ← or_raise ValueError (int_of i);
    salted ← salted_password (password c) salt iterations;
    bare ← or_raise AttributeError (_client_first_bare c);
    let auth := (bare ++ [comma] ++ server_first_str ++ [comma] ++ without_proof server_nonce)%list in
    a ← utf8_encode auth;
    let proof := _xor (client_key salted) (_hmac (stored_key salted) a) in
    m ← utf8_encode (without_proof server_nonce ++ t_of ",p=" ++ b64_encode proof)%list;
    Ok (m, {| username := username c; password := password c; client_nonce := client_nonce c;
              _client_first_bare := _client_first_bare c; _auth_message := auth;
              _server_key := Some (server_key salted) |}).

Definition verify_server_final (c : ScramClient) (server_final : octets) : res bool :=
  f ← utf8_decode server_final;
  match attr (t_of "v") (_parse_server_message f) with
  | None => Ok false
  | Some v =>
      key ← or_raise AttributeError (_server_key c);
      a ← utf8_encode (_auth_message c);
      sig ← b64_decode v;
      Ok (bool_decide (sig = _hmac key a))
  end.

(** *** Lemmas *)

Lemma lxor_range a b : 0 ≤ a < 256 → 0 ≤ b < 256 → 0 ≤ Z.lxor a b < 256.
Proof.
  intros Ha Hb. assert (H0 : 0 ≤ Z.lxor a b) by (apply Z.lxor_nonneg; lia). split; [done|].
  destruct (Z.eq_dec (Z.lxor a b) 0) as [->|Hn]; [lia|].
  change 256 with (2 ^ 8). apply Z.log2_lt_pow2; [lia|].
  eapply Z.le_lt_trans; [apply Z.log2_lxor; lia|].
  assert (∀ x, 0 ≤ x < 256 → Z.log2 x < 8) as Hl.
  { intros x Hx. destruct (Z.eq_dec x 0) as [->|]; [done|]. apply Z.log2_lt_pow2; [lia|].
    change (2 ^ 8) with 256. lia. }
  apply Z.max_lub_lt; by apply Hl.
Qed.

Lemma xor_cancel a b : length a = length b → _xor (_xor a b) b = a.
Proof.
  revert b. induction a as [|x a IH]; intros [|y b]; try done. cbn [length]. intros H.
  unfold _xor in *. cbn [zip_with]. rewrite IH by lia. f_equal.
  rewrite val_oct by (apply lxor_range; apply val_range).
  rewrite Z.lxor_assoc, Z.lxor_nilpotent, Z.lxor_0_r. apply oct_val.
Qed.

Lemma or_raise_some {A} e (o : option A) a : or_raise e o = Ok a → o = Some a.
Proof. destruct o; [by intros [= ->] | done]. Qed.

Context (sha256_length : ∀ b, length (sha256 b) = 32%nat).

(** What a server-first message says. *)
Definition challenged (sf : octets) (sfs nonce : text) (salt : octets) (iterations : Z) : Prop :=
  utf8_decode sf = Ok sfs ∧ attr (t_of "r") (_parse_server_message sfs) = Some nonce ∧
  (∃ s, attr (t_of "s") (_parse_server_message sfs) = Some s ∧ b64_decode s = Ok salt) ∧
  ∃ i, attr (t_of "i") (_parse_server_message sfs) = Some i ∧ int_of i = Some iterations.

(** C26: The login the proxy enrols is the login it makes, and the server must
    prove it holds the enrolled key.  The client answers a server-first message
    only if its nonce extends the client's; it signs the exchange as it was - the
    client-first message it sent, the server-first message it received, its own
    answer with that nonce - and its proof unlocks the StoredKey of the verifier
    [scram_verifier] makes of the password with the salt and the iterations of
    that message.  [verify_server_final] then accepts exactly a signature of the
    same exchange under that verifier's ServerKey. *)
Theorem scram_login_matches_enrolment c sf m c'
    (H : client_final c sf = Ok (m, c')) :
  ∃ sfs nonce salt iterations bare salted auth proof,
    challenged sf sfs nonce salt iterations ∧ take (length (client_nonce c)) nonce = client_nonce c ∧
    scram_verifier (password c) salt iterations = Ok (verifier_text salted salt iterations) ∧
    _client_first_bare c = Some bare ∧
    utf8_encode (bare ++ [comma] ++ sfs ++ [comma] ++ without_proof nonce)%list = Ok auth ∧
    utf8_decode m = Ok (without_proof nonce ++ t_of ",p=" ++ b64_encode proof)%list ∧
    _h (_xor proof (_hmac (stored_key salted) auth)) = stored_key salted ∧
    (∀ final, verify_server_final c' final = Ok true ↔
       ∃ f v, utf8_decode final = Ok f ∧ attr (t_of "v") (_parse_server_message f) = Some v ∧
              b64_decode v = Ok (_hmac (server_key salted) auth)).
Proof using sha256_length.
  unfold client_final in H.
  apply res_bind_inv_ok in H as (sfs & Hsf & H). apply res_bind_inv_ok in H as (nonce & Hn & H).
  destruct (negb (text_prefix _ nonce)) eqn:Hp; [done|]. apply negb_false_iff, bool_decide_eq_true in Hp.
  apply res_bind_inv_ok in H as (s & Hs & H). apply res_bind_inv_ok in H as (salt & Hsalt & H).
  apply res_bind_inv_ok in H as (i & Hi & H). apply res_bind_inv_ok in H as (iterations & Hit & H).
  apply res_bind_inv_ok in H as (salted & Hsp & H). apply res_bind_inv_ok in H as (bare & Hbare & H).
  apply res_bind_inv_ok in H as (a & Ha & H). apply res_bind_inv_ok in H as (b & Hb & H).
  set (proof := _xor (client_key salted) (_hmac (stored_key salted) a)) in *.
  injection H as Hm Hc. subst b.
  assert (utf8_encode (_auth_message c') = Ok a) as Hauth by (subst c'; exact Ha).
  assert (_server_key c' = Some (server_key salted)) as Hkey by (by subst c').
  apply or_raise_some in Hn, Hs, Hi, Hit, Hbare.
  exists sfs, nonce, salt, iterations, bare, salted, a, proof. split_and!.
  - split_and!; [done | done | by exists s | by exists i].
  - exact Hp.
  - unfold scram_verifier. by rewrite Hsp.
  - exact Hbare.
  - exact Ha.
  - by apply utf8_roundtrip.
  - unfold proof. rewrite xor_cancel; [done|]. unfold client_key, _hmac. by rewrite !sha256_length.
  - intros final. unfold verify_server_final. rewrite Hkey, Hauth.
    split.
    + intros (f & Hf & E)%res_bind_inv_ok. destruct (attr (t_of "v") (_parse_server_message f)) as [v|] eqn:Hv; [|done].
      apply res_bind_inv_ok in E as (k & Hk & E). injection Hk as <-.
      apply res_bind_inv_ok in E as (a' & Ha' & E). injection Ha' as <-.
      apply res_bind_inv_ok in E as (sig & Hsig & E). injection E as E%bool_decide_eq_true. subst sig.
      by exists f, v.
    + intros (f & v & -> & Hv & Hd). rewrite res_bind_ok, Hv. cbn [or_raise]. rewrite !res_bind_ok, Hd, res_bind_ok.
      by rewrite bool_decide_eq_true_2.
Qed.
End scram.

(** A toy hash, for evaluating. *)
Definition toy_hash (b : octets) : octets :=
  be_bytes 32 (fold_left (λ acc x, (acc * 31 + val x + 7) mod (2 ^ 61 - 1)) b 17).
Definition toy_int (t : text) : option Z := parse_suppressed t.

Definition sample_server_first : octets :=
  ascii_octets "r=abcXYZ,s=QSXCR+Q6sek8bf92,i=2".
Definition sample_client : ScramClient :=
  {| username := t_of "tenant_sqlproxy_1"; password := t_of "pw"; client_nonce := t_of "abc";
     _client_first_bare := Some (t_of "n=tenant_sqlproxy_1,r=abc"); _auth_message := [];
     _server_key := None |}.

Lemma scram_login_matches_enrolment_witness :
  ∃ m c', client_final toy_hash toy_int sample_client sample_server_first = Ok (m, c') ∧
    ∃ sfs nonce salt iterations salted auth proof,
    challenged toy_int sample_server_first sfs nonce salt iterations ∧
    scram_verifier toy_hash (password sample_client) salt iterations =
      Ok (verifier_text toy_hash salted salt iterations) ∧
    utf8_decode m = Ok (without_proof nonce ++ t_of ",p=" ++ b64_encode proof)%list ∧
    _h toy_hash (_xor proof (_hmac toy_hash (stored_key toy_hash salted) auth)) = stored_key toy_hash salted.
Proof.
  assert (∃ m c', client_final toy_hash toy_int sample_client sample_server_first = Ok (m, c')) as (m & c' & H).
  { eexists _, _. vm_compute. reflexivity. }
  exists m, c'. split; [exact H|].
  destruct (scram_login_matches_enrolment toy_hash toy_int (λ b, be_length 32 _) sample_client
              sample_server_first m c' H) as (t & n & s & i & b & k & a & p & H1 & _ & H2 & _ & _ & H3 & H4 & _).
  exists t, n, s, i, k, a, p. split; [exact H1|]. split; [exact H2|]. split; [exact H3 | exact H4].
Defined.

(** A nonce that does not extend the client's is refused. *)
Example replayed_nonce :
  client_final toy_hash toy_int sample_client (ascii_octets "r=xyz,s=QSXC,i=2") = Err ValueError.
Proof. vm_compute. reflexivity. Qed.
