(* ===== verification/SqlBinding.v ===== *)
(** * The SQL proxy's binding policy: services/notebook_sql_proxy/binding.py

    A capability handle to its tenant, the record of what was presented, and
    the names, credential and statements a session is opened with.  The
    capability store is shared with other services: between any two calls its
    entries may change and time passes, and a call may fail ([redis_step]). *)

From stdpp Require Import base strings list gmap.
From Stdlib Require Import ZArith Lia.
From Stdlib.Strings Require Import Byte.
From S2P Require Import Prelude PyText PyJson Tenancy CapabilityAudit SqlWire SqlScram.

Local Open Scope string_scope.

#[local] Arguments uuid_str : simpl never.
#[local] Arguments uuid_parse : simpl never.
#[local] Arguments t_of : simpl never.

Definition AUDIENCE_SQL : string := "sql".
Definition PLANE : string := "sql_proxy".
Definition _KEY_PREFIX : text := t_of "nbcap:".
Definition _SUSPENDED_PREFIX : text := t_of "nbcap-suspended:".

Record SqlBinding := {
  user : text; company_id : string; read_only : bool; handle_id : option string }.

#[export] Instance binding_eq_dec : EqDecision SqlBinding.
Proof. solve_decision. Defined.

(** ** The capability store *)

Section binding.
Context `{J : JsonCodec} `{I : IsoCodec}.

(** What happens by the next call: the entries others change, the time that
    passes (microseconds), and how the call ends. *)
Record redis_step := { meanwhile : gmap text bytes → gmap text bytes; elapsed : Z; reply : call }.

(** [reads] and [evals] record the calls that were answered. *)
Record cap_store := {
  entries : gmap text bytes; audit : store; now : Z; steps : list redis_step;
  reads : list (text * option bytes); evals : list script_call }.

Definition next_step : M cap_store call := λ s,
  match steps s with
  | [] => (Ok Runs, s)
  | st :: l => (Ok (reply st),
                {| entries := meanwhile st (entries s); audit := audit s; now := now s + elapsed st;
                   steps := l; reads := reads s; evals := evals s |})
  end.

Definition log_read k v s := {| entries := entries s; audit := audit s; now := now s;
  steps := steps s; reads := (reads s ++ [(k, v)])%list; evals := evals s |}.
Definition log_eval c a s := {| entries := entries s; audit := a; now := now s;
  steps := steps s; reads := reads s; evals := (evals s ++ [c])%list |}.

(** [store.get(key)] *)
Definition aget (k : text) : M cap_store (option bytes) :=
  c ← next_step;
  match c with
  | Runs => v ← gets (λ s, entries s !! k); modify (log_read k v) ≫= λ _, mret v
  | Fails e | Lost e => raise e
  end.

Context (trim : nat → nat) (sha256_hex : text → string)
        (py_repr : json → string).

(** [store.eval(script, ...)] *)
Definition seval (call : script_call) : M cap_store Z :=
  c ← next_step;
  let run := λ s, eval_call trim (now s / 1000000) call (audit s) in
  match c with
  | Runs => r ← gets (λ s, (run s).1); modify (λ s, log_eval call (run s).2 s) ≫= λ _, mret r
  | Fails e => raise e
  | Lost e => modify (λ s, log_eval call (run s).2 s) ≫= λ _, raise e
  end.

(** ** Resolving a handle *)

(** [str(v)] *)
Definition py_str (v : json) : string :=
  match v with
  | JStr s => s
  | JNull => "None"
  | JBool true => "True"
  | JBool false => "False"
  | JInt z => str_of_Z z
  | v => py_repr v
  end.

(** [uuid.UUID(str(v or ""))], in its canonical form. *)
Definition id_or_empty (v : json) : option string :=
  if truthy v then uuid_str <$> json_uuid v else None.

Definition _entry_facts (record : dict) : facts :=
  {| fact_user := match jget "user" record with JStr s => Some (t_of s) | _ => None end;
     fact_company_id := id_or_empty (jget "company_id" record);
     fact_audience := match jget "audience" record with
                      | JStr s => if bool_decide (s ∈ AUDIENCES) then Some s else None
                      | _ => None
                      end;
     fact_handle_id := id_or_empty (jget "handle_id" record) |}.

Definition names_audience (record : dict) : bool :=
  match jget "audience" record with JStr s => bool_decide (s = AUDIENCE_SQL) | _ => false end.

Definition entry_key (handle : text) : text := (_KEY_PREFIX ++ handle)%list.
Definition suspended_key (company : string) : text := (_SUSPENDED_PREFIX ++ t_of company)%list.

Definition denied (reason : string) (f : facts) : option SqlBinding * option string * facts :=
  (None, Some reason, f).

(** [raw.decode()] is outside the [try]. *)
Definition load_entry (raw : bytes) : res (option json) :=
  match json_loads raw with
  | Ok v => Ok (Some v)
  | Err UnicodeDecodeError => Err UnicodeDecodeError
  | Err e => if is_value_error e || bool_decide (e = TypeError) then Ok None else Err e
  end.

Definition granted (record : dict) (company : string) (f : facts) : SqlBinding :=
  {| user := match dict_lookup "user" record with Some v => t_of (py_str v) | None => [] end;
     company_id := company;
     read_only := match dict_lookup "read_only" record with Some v => truthy v | None => true end;
     handle_id := fact_handle_id f |}.

Definition resolve_sql_outcome (handle : text)
  : M cap_store (option SqlBinding * option string * facts) :=
  match handle with
  | [] => mret (denied "no_handle" no_facts)
  | _ =>
      raw ← aget (entry_key handle);
      match raw with
      | None => mret (denied "no_entry" no_facts)
      | Some raw =>
          v ← lift (load_entry raw);
          match v with
          | Some (JDict record) =>
              let f := _entry_facts record in
              if negb (names_audience record)
              then mret (denied "wrong_audience" f)
              else match id_or_empty (jget "company_id" record) with
                   | None => mret (denied "malformed_entry" f)
                   | Some company =>
                       suspended ← aget (suspended_key company);
                       match suspended with
                       | Some _ => mret (denied "tenant_suspended" f)
                       | None => mret (Some (granted record company f), None, f)
                       end
                   end
          | _ => mret (denied "malformed_entry" no_facts)
          end
      end
  end.

Definition resolve_sql_binding (handle : text) : M cap_store (option SqlBinding) :=
  o ← resolve_sql_outcome handle; mret o.1.1.

(** ** Recording *)

Definition event_of (kind : string) (b : SqlBinding) (h : string) (reason detail : option text) : event_args :=
  {| a_kind := kind; a_plane := PLANE; a_user := Some (user b); a_company_id := Some (company_id b);
     a_audience := Some AUDIENCE_SQL; a_handle_id := Some h; a_digest := None;
     a_reason := reason; a_detail := detail |}.

Definition record_resolution (handle : text) (binding : option SqlBinding) (reason : option string)
  (f : facts) (source : option string) : M cap_store unit :=
  t ← gets now;
  match binding with
  | Some b =>
      match handle_id b with
      | None => mret tt
      | Some h =>
          e ← lift (event (event_of "first_use" b h None None) t);
          call ← lift (first_use_script_args e);
          _ ← seval call; mret tt
      end
  | None =>
      call ← lift (refusal sha256_hex PLANE handle (default "" reason) f source t);
      _ ← seval call; mret tt
  end.

Definition record_session (kind : string) (b : SqlBinding) (reason detail : option text)
  : M cap_store unit :=
  match handle_id b with
  | None => mret tt
  | Some h =>
      t ← gets now;
      e ← lift (event (event_of kind b h reason detail) t);
      call ← lift (repeat_script_args e);
      _ ← seval call; mret tt
  end.

(** ** What resolution grants *)

Lemma next_step_reads s c s' : next_step s = (Ok c, s') → reads s' = reads s ∧ evals s' = evals s.
Proof. unfold next_step. destruct (steps s) as [|st l]; intros [= <- <-]; done. Qed.

Lemma aget_ok k s v s' : aget k s = (Ok v, s') →
  reads s' = (reads s ++ [(k, v)])%list ∧ evals s' = evals s.
Proof.
  unfold aget. intros (c & s1 & E & H)%bind_inv_ok. apply next_step_reads in E as [Hr He].
  destruct c; [|done|done]. apply bind_inv_ok in H as (v' & s2 & Hg & H). injection Hg as <- <-.
  apply bind_inv_ok in H as ([] & s3 & Hm & H). injection Hm as <-. injection H as <- <-.
  simpl. by rewrite Hr, He.
Qed.

(** The handle's own entry, and the tenant's suspension, as just read. *)
Definition grants (handle : text) (b : SqlBinding) (rs : list (text * option bytes)) : Prop :=
  handle ≠ [] ∧ ∃ raw record u,
    rs = [(entry_key handle, Some raw); (suspended_key (company_id b), None)] ∧
    json_loads raw = Ok (JDict record) ∧ jget "audience" record = JStr AUDIENCE_SQL ∧
    json_uuid (jget "company_id" record) = Some u ∧ company_id b = uuid_str u ∧
    b = granted record (company_id b) (_entry_facts record).

Lemma resolve_outcome handle s b reason f s' :
  resolve_sql_outcome handle s = (Ok (b, reason, f), s') →
  (b = None ↔ is_Some reason) ∧ evals s' = evals s ∧
  ∃ rs, reads s' = (reads s ++ rs)%list ∧ (∀ bd, b = Some bd → grants handle bd rs).
Proof.
  intros H.
  assert (Hden : ∀ r f' s0, evals s0 = evals s → (∃ rs, reads s0 = (reads s ++ rs)%list) →
            (mret (denied r f') : M cap_store _) s0 = (Ok (b, reason, f), s') →
            (b = None ↔ is_Some reason) ∧ evals s' = evals s ∧
            ∃ rs, reads s' = (reads s ++ rs)%list ∧ (∀ bd, b = Some bd → grants handle bd rs)).
  { intros r f' s0 He (rs & Hrs) [= <- <- <- <-]. split; [split; eauto|]. split; [done|]. by exists rs. }
  unfold resolve_sql_outcome in H. destruct handle as [|c handle].
  { eapply Hden; [| |exact H]; [done | exists []; by rewrite app_nil_r]. }
  apply bind_inv_ok in H as (raw & s1 & E1 & H). apply aget_ok in E1 as [Hr1 He1].
  destruct raw as [raw|]; [|eapply Hden; [| |exact H]; [done | eauto]].
  apply bind_inv_ok in H as (v & s2 & E2 & H). apply lift_inv in E2 as [Hload ->].
  destruct v as [v|]; [|eapply Hden; [| |exact H]; [done | eauto]].
  assert (json_loads raw = Ok v) as Hraw.
  { unfold load_entry in Hload. destruct (json_loads raw) as [x|e]; [congruence|].
    destruct e; simpl in Hload; try done; by case_bool_decide. }
  destruct v as [| | | | | |record]; try (eapply Hden; [| |exact H]; [done | eauto]).
  destruct (names_audience record) eqn:Ha; simpl in H; [|eapply Hden; [| |exact H]; [done | eauto]].
  assert (jget "audience" record = JStr AUDIENCE_SQL) as Haud.
  { unfold names_audience in Ha. destruct (jget "audience" record); try done. by apply bool_decide_eq_true in Ha as ->. }
  destruct (id_or_empty (jget "company_id" record)) as [company|] eqn:Hc;
    [|eapply Hden; [| |exact H]; [done | eauto]].
  apply bind_inv_ok in H as (susp & s3 & E3 & H). apply aget_ok in E3 as [Hr3 He3].
  assert (reads s3 = reads s ++ [(entry_key (c :: handle), Some raw); (suspended_key company, susp)])%list as Hrs
    by (by rewrite Hr3, Hr1, <- app_assoc).
  destruct susp as [x|]; [eapply Hden; [| |exact H]; [congruence | eauto]|].
  injection H as <- <- <- <-. split; [by split; [done | intros [? ?]]|]. split; [congruence|].
  eexists. split; [exact Hrs|]. intros bd [= <-]. split; [done|].
  unfold id_or_empty in Hc. destruct (truthy _); [|done]. apply fmap_Some in Hc as (u & Hu & ->).
  by exists raw, record, u.
Qed.

(** A handle grants only what the store says now: a resolution that
    returns gives a binding or a reason, never both; a binding only when the
    entry it read under the handle names the SQL audience and a tenant, and
    the tenant's suspension, read after it, was absent; the binding is then
    that entry's, its tenant in canonical form, and it is the one
    [resolve_sql_binding] gives.  Nothing is written. *)
Theorem resolve_grants handle s b reason f s'
    (H : resolve_sql_outcome handle s = (Ok (b, reason, f), s')) :
  resolve_sql_binding handle s = (Ok b, s') ∧
  (b = None ↔ is_Some reason) ∧ evals s' = evals s ∧
  ∃ rs, reads s' = (reads s ++ rs)%list ∧
    match b with Some bd => grants handle bd rs ∧ canonical (company_id bd) | None => True end.
Proof.
  split; [unfold resolve_sql_binding; by rewrite (bind_ok _ _ _ _ _ H)|].
  apply resolve_outcome in H as (H1 & H2 & rs & H3 & H4). split; [done|]. split; [done|].
  exists rs. split; [done|]. destruct b as [bd|]; [|done]. split; [by apply H4|].
  destruct (H4 bd eq_refl) as (_ & raw & record & u & _ & _ & _ & Hu & -> & _).
  apply canonical_str. unfold json_uuid in Hu. destruct (jget _ _); try done; by eapply uuid_parse_bound.
Qed.


(** ** The store's record only grows *)

Definition cap_grows (s s' : cap_store) : Prop :=
  reads s `prefix_of` reads s' ∧ evals s `prefix_of` evals s'.

#[export] Instance cap_grows_preorder : PreOrder cap_grows.
Proof. split; [intros s; by split|]. intros s1 s2 s3 [? ?] [? ?]. split; by etrans. Qed.

Lemma next_step_grows : respects cap_grows next_step.
Proof.
  intros s. unfold final. destruct (next_step s) as [[c|e] s'] eqn:E.
  - apply next_step_reads in E as [Hr He]. simpl. split; by rewrite ?Hr, ?He.
  - unfold next_step in E. by destruct (steps s).
Qed.

Lemma aget_grows k : respects cap_grows (aget k).
Proof.
  unfold aget. apply respects_bind; [apply _ | apply next_step_grows |].
  intros [|e|e]; [|apply respects_raise, _..].
  apply respects_bind; [apply _ | apply respects_gets, _ |]. intros v.
  apply respects_bind; [apply _ | |intros _; apply respects_ret, _].
  apply respects_modify. intros s. split; simpl; [by eexists | done].
Qed.

Lemma seval_grows c : respects cap_grows (seval c).
Proof.
  unfold seval. apply respects_bind; [apply _ | apply next_step_grows |].
  assert (∀ a, respects cap_grows (modify (λ s, log_eval c (a s) s))) as Hm
    by (intros a; apply respects_modify; intros s; split; simpl; [done | by eexists]).
  intros [|e|e]; [|apply respects_raise, _|].
  - apply respects_bind; [apply _ | apply respects_gets, _ |]. intros v.
    apply respects_bind; [apply _ | apply Hm |]. intros _. apply respects_ret, _.
  - apply respects_bind; [apply _ | apply Hm |]. intros _. apply respects_raise, _.
Qed.

Lemma resolve_grows handle : respects cap_grows (resolve_sql_outcome handle).
Proof.
  unfold resolve_sql_outcome. destruct handle as [|c handle]; [apply respects_ret, _|].
  apply respects_bind; [apply _ | apply aget_grows |]. intros [raw|]; [|apply respects_ret, _].
  apply respects_bind; [apply _ | apply respects_lift, _ |].
  intros [[| | | | | |record]|]; try apply respects_ret, _.
  destruct (negb _); [apply respects_ret, _|]. destruct (id_or_empty _); [|apply respects_ret, _].
  apply respects_bind; [apply _ | apply aget_grows |]. intros [x|]; apply respects_ret, _.
Qed.

Lemma record_call_grows {A} (r : res A) (f : A → res script_call) :
  respects cap_grows (e ← lift r; call ← lift (f e); _ ← seval call; mret tt).
Proof.
  apply respects_bind; [apply _ | apply respects_lift, _ |]. intros e.
  apply respects_bind; [apply _ | apply respects_lift, _ |]. intros call.
  apply respects_bind; [apply _ | apply seval_grows |]. intros _. apply respects_ret, _.
Qed.

Lemma record_session_grows kind b reason detail : respects cap_grows (record_session kind b reason detail).
Proof.
  unfold record_session. destruct (handle_id b); [|apply respects_ret, _].
  apply respects_bind; [apply _ | apply respects_gets, _ |]. intros t. apply record_call_grows.
Qed.

Lemma record_resolution_grows handle b reason f source :
  respects cap_grows (record_resolution handle b reason f source).
Proof.
  unfold record_resolution. apply respects_bind; [apply _ | apply respects_gets, _ |]. intros t.
  destruct b as [b|].
  - destruct (handle_id b); [apply record_call_grows | apply respects_ret, _].
  - apply respects_bind; [apply _ | apply respects_lift, _ |]. intros call.
    apply respects_bind; [apply _ | apply seval_grows |]. intros _. apply respects_ret, _.
Qed.

Lemma seval_ok c s r s' : seval c s = (Ok r, s') → reads s' = reads s ∧ evals s' = (evals s ++ [c])%list.
Proof.
  unfold seval. intros (o & s1 & E & H)%bind_inv_ok. apply next_step_reads in E as [Hr He].
  destruct o as [|e|e]; [|done|].
  - apply bind_inv_ok in H as (x & s2 & Hg & H). injection Hg as <- <-.
    apply bind_inv_ok in H as ([] & s3 & Hm & H). injection Hm as <-. injection H as <- <-.
    simpl. by rewrite Hr, He.
  - by apply bind_inv_ok in H as ([] & s3 & Hm & H).
Qed.

(** The identifiers an event carries. *)
Lemma event_ids a t f : event a t = Ok f →
  id_field "kind" f = Some (a_kind a) ∧ id_field "plane" f = Some (a_plane a) ∧
  id_field "handle_id" f = (h ← a_handle_id a; uuid_str <$> uuid_parse h).
Proof.
  unfold event. destruct (negb _); [done|]. destruct (negb _); [done|].
  destruct (match a_audience a with Some x => _ | None => _ end); [done|].
  intros (c & _ & H)%res_bind_inv_ok. apply res_bind_inv_ok in H as (h & Hh & H).
  destruct (match a_digest a with Some d => _ | None => _ end); [done|]. apply Ok_inj in H as <-.
  unfold id_field. simpl field. rewrite !field_app, !field_opt. simpl.
  rewrite !s_of_t_of. split_and!; [done..|].
  destruct (a_handle_id a) as [x|]; simpl in *.
  - apply res_fmap_inv in Hh as (u & Hu & ->). destruct (uuid_parse x); [|done]. apply Ok_inj in Hu as ->.
    cbn [mbind option_bind fmap option_fmap option_map]. apply s_of_t_of.
  - by injection Hh as <-.
Qed.

(** What a recorded resolution put in the record: one call, for a binding
    that carries an identifier a first use of it, for a refusal a refusal. *)
Definition recorded (handle : text) (b : option SqlBinding) (reason : option string) (f : facts)
  (source : option string) (t : Z) (calls : list script_call) : Prop :=
  match b with
  | Some b => match handle_id b with
              | Some h => ∃ u e, uuid_parse h = Some u ∧
                            calls = [CallFirstUse (first_use_key (uuid_str u) PLANE) e]
              | None => calls = []
              end
  | None => ∃ call, calls = [call] ∧
              refusal sha256_hex PLANE handle (default "" reason) f source t = Ok call
  end.

Lemma record_resolution_ok handle b reason f source s s' :
  record_resolution handle b reason f source s = (Ok tt, s') →
  reads s' = reads s ∧ ∃ calls, evals s' = (evals s ++ calls)%list ∧
    recorded handle b reason f source (now s) calls.
Proof.
  unfold record_resolution. intros (t & s0 & Hg & H)%bind_inv_ok. injection Hg as <- <-.
  destruct b as [b|]; unfold recorded; [destruct (handle_id b) as [h|] eqn:Hh|].
  - apply bind_inv_ok in H as (e & s1 & E1 & H). apply lift_inv in E1 as [He ->].
    apply bind_inv_ok in H as (call & s2 & E2 & H). apply lift_inv in E2 as [Hcall ->].
    apply bind_inv_ok in H as (r & s3 & E3 & H). injection H as <-.
    apply seval_ok in E3 as [Hr Hev]. split; [done|]. exists [call]. split; [done|].
    apply event_ids in He as (Hk & Hp & Hi). unfold first_use_script_args in Hcall.
    rewrite Hk, Hp, Hi in Hcall. simpl in Hcall.
    destruct (uuid_parse h) as [u|] eqn:Hu; [|done]. exists u, e. split; [done|].
    apply Ok_inj in Hcall as <-. done.
  - injection H as <-. split; [done|]. exists []. by rewrite app_nil_r.
  - apply bind_inv_ok in H as (call & s2 & E2 & H). apply lift_inv in E2 as [Hcall ->].
    apply bind_inv_ok in H as (r & s3 & E3 & H). injection H as <-.
    apply seval_ok in E3 as [Hr Hev]. split; [done|]. exists [call]. split; [done|]. by exists call.
Qed.
End binding.

Section login.
Context (sha256 : octets → octets).

(** ** The tenant's login *)

Definition _LOGIN_CONTEXT : octets := ascii_octets "industryflow/notebook-sql-proxy/tenant-login/v1:".
Definition MIN_TENANT_KEY_BYTES : nat := 32.

(** [base64.urlsafe_b64encode(b).decode("ascii").rstrip("=")] *)
Definition url_char (c : Z) : Z := if Z.eqb c 43 then 45 else if Z.eqb c 47 then 95 else c.
Definition b64_url (b : octets) : text :=
  map url_char (List.filter (λ c, negb (Z.eqb c 61)) (b64_encode b)).

Definition tenant_login_password (key : octets) (company : string) : res text :=
  if (length key <? MIN_TENANT_KEY_BYTES)%nat then Err ValueError
  else canonical ← canonical_company_id company;
       Ok (b64_url (_hmac sha256 key (_LOGIN_CONTEXT ++ ascii_octets canonical)%list)).

(** *** Enrolment *)

Fixpoint text_span (p : Z → bool) (t : text) : text * text :=
  match t with
  | [] => ([], [])
  | c :: r => if p c then let '(a, b) := text_span p r in (c :: a, b) else ([], t)
  end.
Definition text_strip (p t : text) : option text :=
  if bool_decide (take (length p) t = p) then Some (drop (length p) t) else None.

Definition is_digit (c : Z) : bool := Z.leb 48 c && Z.leb c 57.
Definition is_b64 (c : Z) : bool := match b64_value c with Some _ => true | None => false end.

(** [[A-Za-z0-9+/]+=*]: what follows it. *)
Definition match_b64 (t : text) : option text :=
  match text_span is_b64 t with
  | ([], _) => None
  | (_, r) => Some (text_span (Z.eqb 61) r).2
  end.

(** [_VERIFIER_RE.match]; its [$] also matches before a final newline. *)
Definition verifier_match (t : text) : bool :=
  match (r ← text_strip (t_of "SCRAM-SHA-256$") t;
         let '(digits, r) := text_span is_digit r in
         r ← (if (4 <=? length digits)%nat && (length digits <=? 7)%nat then Some r else None);
         r ← text_strip (t_of ":") r;
         r ← match_b64 r;
         r ← text_strip (t_of "$") r;
         r ← match_b64 r;
         r ← text_strip (t_of ":") r;
         match_b64 r) with
  | Some [] => true
  | Some [c] => Z.eqb c newline
  | _ => false
  end.

Definition enrol_statement (company : string) (verifier : text) : res text :=
  canonical ← canonical_company_id company;
  if negb (verifier_match verifier) then Err ValueError
  else Ok (t_of "SELECT public.notebook_sql_proxy_enrol('" ++ t_of canonical ++ t_of "'::uuid, '"
           ++ verifier ++ t_of "')")%list.

Definition quoted_set (what name : string) : text :=
  (t_of what ++ [34%Z] ++ t_of name ++ [34%Z])%list.

Definition session_setup_statements (b : SqlBinding) : res (list text) :=
  role ← reader_role_name (company_id b);
  schema ← schema_name (company_id b);
  Ok ([quoted_set "SET ROLE " role; quoted_set "SET search_path TO " schema]
      ++ (if read_only b then [t_of "SET default_transaction_read_only = on"] else []))%list.

(** ** The enrolment statement *)

Lemma text_span_app p t a b : text_span p t = (a, b) → t = (a ++ b)%list ∧ forallb p a = true.
Proof.
  revert a b. induction t as [|c t IH]; intros a b; simpl; [by intros [= <- <-]|].
  destruct (p c) eqn:Hc; [|by intros [= <- <-]]. destruct (text_span p t) as [a' b'] eqn:E.
  intros [= <- <-]. destruct (IH a' b' eq_refl) as [-> Ha]. simpl. by rewrite Hc, Ha.
Qed.

Lemma text_span_all p a b : forallb p a = true → (∀ c r, b = c :: r → p c = false) →
  text_span p (a ++ b)%list = (a, b).
Proof.
  intros Ha Hb. induction a as [|c a IH]; simpl in *.
  - destruct b as [|c r]; [done|]. simpl. by rewrite (Hb c r eq_refl).
  - bool_hyps. rewrite IH by done. by case_match.
Qed.

Lemma text_strip_app p r : text_strip p (p ++ r)%list = Some r.
Proof. unfold text_strip. rewrite take_app_length, drop_app_length. by rewrite bool_decide_eq_true_2. Qed.

Lemma text_strip_some p t r : text_strip p t = Some r → t = (p ++ r)%list.
Proof.
  unfold text_strip. case_bool_decide as H; [|done]. intros [= <-]. rewrite <- H at 1. symmetry. apply take_drop.
Qed.

(** Characters that end no SQL string. *)
Definition unquoted (c : Z) : bool := negb (Z.eqb c 39) && negb (Z.eqb c 92).

Lemma b64_unquoted t : forallb is_b64 t = true → forallb unquoted t = true.
Proof.
  rewrite !forallb_elem. intros H c Hc. specialize (H c Hc). unfold is_b64 in H. unfold unquoted.
  destruct (Z.eqb_spec c 39) as [->|]; [done|]. by destruct (Z.eqb_spec c 92) as [->|].
Qed.

Lemma digit_unquoted t : forallb is_digit t = true → forallb unquoted t = true.
Proof.
  rewrite !forallb_elem. intros H c Hc. specialize (H c Hc). unfold is_digit in H. unfold unquoted. bool_hyps.
  apply andb_true_iff. split; apply negb_true_iff, Z.eqb_neq; lia.
Qed.

Lemma match_b64_unquoted t r : match_b64 t = Some r → ∃ a, t = (a ++ r)%list ∧ forallb unquoted a = true.
Proof.
  unfold match_b64. destruct (text_span is_b64 t) as [a b] eqn:E. apply text_span_app in E as [-> Ha].
  destruct a as [|c a]; [done|]. destruct (text_span (Z.eqb 61) b) as [p q] eqn:E2.
  apply text_span_app in E2 as [-> Hp]. intros [= <-]. exists ((c :: a) ++ p)%list.
  split; [by rewrite app_assoc|]. rewrite forallb_app, (b64_unquoted _ Ha). simpl.
  rewrite forallb_elem in Hp |- *. intros x Hx. specialize (Hp x Hx). apply Z.eqb_eq in Hp as <-. done.
Qed.

Lemma verifier_unquoted v : verifier_match v = true → forallb unquoted v = true.
Proof.
  unfold verifier_match. destruct (text_strip (t_of "SCRAM-SHA-256$") v) as [r1|] eqn:E1; [|done]. cbn [mbind option_bind].
  destruct (text_span is_digit r1) as [d r2] eqn:E2. destruct (_ && _); [|done]. cbn [mbind option_bind].
  destruct (text_strip (t_of ":") r2) as [r3|] eqn:E3; [|done]. cbn [mbind option_bind].
  destruct (match_b64 r3) as [r4|] eqn:E4; [|done]. cbn [mbind option_bind].
  destruct (text_strip (t_of "$") r4) as [r5|] eqn:E5; [|done]. cbn [mbind option_bind].
  destruct (match_b64 r5) as [r6|] eqn:E6; [|done]. cbn [mbind option_bind].
  destruct (text_strip (t_of ":") r6) as [r7|] eqn:E7; [|done]. cbn [mbind option_bind].
  destruct (match_b64 r7) as [r8|] eqn:E8; [|done]. intros Hend.
  assert (forallb unquoted r8 = true) as H8.
  { destruct r8 as [|c [|]]; [done | |done]. apply Z.eqb_eq in Hend as ->. done. }
  apply match_b64_unquoted in E4 as (a4 & -> & H4). apply match_b64_unquoted in E6 as (a6 & -> & H6).
  apply match_b64_unquoted in E8 as (a8 & -> & H9).
  apply text_strip_some in E1 as ->. apply text_span_app in E2 as [-> Hd].
  apply text_strip_some in E3 as ->. apply text_strip_some in E5 as ->. apply text_strip_some in E7 as ->.
  rewrite !forallb_app, H4, H6, H9, H8, (digit_unquoted _ Hd). done.
Qed.

Lemma b64_encode_shape b : b ≠ [] →
  ∃ body pads, b64_encode b = (body ++ pads)%list ∧ body ≠ [] ∧ forallb is_b64 body = true ∧
               forallb (Z.eqb 61) pads = true.
Proof.
  assert (∀ z, (0 ≤ z < 64)%Z → is_b64 (b64_char z) = true) as Hc.
  { intros z Hz. unfold is_b64. by destruct (b64_char_cases z Hz) as (_ & -> & _). }
  induction b as [|x|x y|x y z r IH] using triples_ind; intros Hne; [done|..]; cbn [b64_encode];
    repeat match goal with x : byte |- _ => lazymatch goal with H : (0 ≤ val x < 256)%Z |- _ => fail | _ => pose proof (val_range x) end end.
  - exists [b64_char (val x / 4); b64_char (val x mod 4 * 16)], [61; 61]%Z.
    split_and!; [done | done | | done]. cbn [forallb]. rewrite !Hc; [done|..]; Z.to_euclidean_division_equations; lia.
  - exists [b64_char (val x / 4); b64_char (val x mod 4 * 16 + val y / 16); b64_char (val y mod 16 * 4)], [61]%Z.
    split_and!; [done | done | | done]. cbn [forallb]. rewrite !Hc; [done|..]; Z.to_euclidean_division_equations; lia.
  - assert (∃ body pads, b64_encode r = (body ++ pads)%list ∧ forallb is_b64 body = true ∧
              forallb (Z.eqb 61) pads = true) as (body & pads & -> & Hb & Hp).
    { destruct r as [|w r]; [by exists [], []|]. destruct IH as (b & p & ? & _ & ? & ?); [done|]. by exists b, p. }
    exists (b64_char (val x / 4) :: b64_char (val x mod 4 * 16 + val y / 16)
            :: b64_char (val y mod 16 * 4 + val z / 64) :: b64_char (val z mod 64) :: body)%list, pads.
    split_and!; [done | done | | done]. cbn [forallb]. rewrite Hb, !Hc; [done|..]; Z.to_euclidean_division_equations; lia.
Qed.

Lemma match_b64_encode b r : b ≠ [] → (∀ c q, r = c :: q → is_b64 c = false ∧ c ≠ 61%Z) →
  match_b64 (b64_encode b ++ r)%list = Some r.
Proof.
  intros Hb Hr. destruct (b64_encode_shape b Hb) as (body & pads & -> & Hne & Hbody & Hp).
  unfold match_b64. rewrite <- app_assoc. rewrite (text_span_all is_b64 body).
  - destruct body as [|c body]; [done|]. rewrite (text_span_all (Z.eqb 61) pads); [done | done|].
    intros x q ->. destruct (Hr x q eq_refl) as [_ Hx]. apply Z.eqb_neq. congruence.
  - done.
  - intros c q E. destruct pads as [|p pads]; simpl in E.
    + by apply (Hr c q).
    + injection E as -> _. cbn [forallb] in Hp. apply andb_true_iff in Hp as [Hp%Z.eqb_eq _]. by subst c.
Qed.

Context (sha256_length : ∀ b, length (sha256 b) = 32%nat).

Lemma verifier_accepted salted salt : salt ≠ [] →
  verifier_match (verifier_text sha256 salted salt DEFAULT_ITERATIONS) = true.
Proof using sha256_length.
  intros Hs. unfold verifier_match, verifier_text. rewrite text_strip_app. cbn [mbind option_bind].
  rewrite (text_span_all is_digit (t_of (str_of_Z DEFAULT_ITERATIONS)));
    [|vm_compute; reflexivity | intros c r E; cbn [t_of app] in E; injection E as <- _; reflexivity].
  change (length (t_of (str_of_Z DEFAULT_ITERATIONS))) with 4%nat. cbn [Nat.leb andb mbind option_bind].
  rewrite text_strip_app. cbn [mbind option_bind].
  rewrite match_b64_encode; [|done | by intros c q [= <- _]]. cbn [mbind option_bind].
  rewrite text_strip_app. cbn [mbind option_bind].
  assert (∀ k, sha256 k ≠ []) as Hne by (intros k E; pose proof (sha256_length k) as L; by rewrite E in L).
  rewrite match_b64_encode; [|apply Hne | by intros c q [= <- _]]. cbn [mbind option_bind].
  rewrite text_strip_app. cbn [mbind option_bind].
  rewrite <- (app_nil_r (b64_encode (server_key sha256 salted))).
  rewrite match_b64_encode; [done | apply Hne | done].
Qed.

(** C27: The enrolment session runs one statement, of two quoted constants:
    whatever company and verifier it is given, a statement [enrol_statement]
    returns is the call with the canonical id and the verifier, neither of
    which holds a quote or a backslash; and every verifier the proxy computes
    for a tenant's login is accepted. *)
Theorem enrol_statement_quoted company password salt :
  (∀ v s, enrol_statement company v = Ok s → ∃ c, canonical_company_id company = Ok c ∧
     s = (t_of "SELECT public.notebook_sql_proxy_enrol('" ++ t_of c ++ t_of "'::uuid, '" ++ v
          ++ t_of "')")%list ∧ forallb unquoted (t_of c) = true ∧ forallb unquoted v = true) ∧
  (∀ c v, canonical_company_id company = Ok c → length salt = 16%nat →
     scram_verifier sha256 password salt DEFAULT_ITERATIONS = Ok v →
     is_ok (enrol_statement company v) = true).
Proof using sha256_length.
  split.
  - intros v s H. unfold enrol_statement in H. apply res_bind_inv_ok in H as (c & Hc & H).
    destruct (verifier_match v) eqn:Hv; [|done]. exists c. split; [done|].
    split; [cbn [negb] in H; congruence|]. split; [|by apply verifier_unquoted].
    apply canonical_inv in Hc as (u & _ & _ & ->). pose proof (uuid_str_chars u) as Hu.
    clear -Hu. induction (uuid_str u) as [|x t IH]; [done|]. simpl in *. bool_hyps. rewrite IH by done.
    rewrite andb_true_r. revert select (is_uuid_char x = true). all_chars x.
  - intros c v Hc Hs (salted & _ & Hv)%res_bind_inv_ok.
    assert (v = verifier_text sha256 salted salt DEFAULT_ITERATIONS) as -> by congruence.
    unfold enrol_statement. rewrite Hc, res_bind_ok, verifier_accepted; [done|]. by destruct salt.
Qed.
End login.

(** ** A store with one entry *)

#[local] Existing Instance decoded_codec.

Definition sample_company : string := "123e4567-e89b-42d3-a456-426614174000".
Definition sample_entry : json :=
  JDict [("user", JStr "ana"); ("company_id", JStr "{123E4567E89B42D3A456426614174000}");
         ("audience", JStr "sql"); ("handle_id", JStr "00000000-0000-4000-8000-000000000001")].
Definition sample_store (l : list redis_step) : cap_store :=
  {| entries := {[ entry_key (t_of "h1") := Ok sample_entry ]};
     audit := {| keys := ∅; stream := []; next_id := O |}; now := 0; steps := l; reads := []; evals := [] |}.
Definition sample_repr (v : json) : string := "".

Lemma resolve_grants_witness :
  ∃ b f s', resolve_sql_outcome sample_repr (t_of "h1") (sample_store []) = (Ok (Some b, None, f), s') ∧
    company_id b = sample_company ∧ canonical (company_id b).
Proof.
  assert (∃ b f s', resolve_sql_outcome sample_repr (t_of "h1") (sample_store []) = (Ok (Some b, None, f), s') ∧
    company_id b = sample_company) as (b & f & s' & H & Hc).
  { eexists _, _, _. split; [vm_compute; reflexivity | reflexivity]. }
  exists b, f, s'. split; [exact H|]. split; [exact Hc|].
  destruct (resolve_grants sample_repr (t_of "h1") (sample_store []) (Some b) None f s' H)
    as (_ & _ & _ & rs & _ & _ & Hcan). exact Hcan.
Defined.

(** Suspended between the lookup of the entry and that of the suspension. *)
Example suspended_meanwhile :
  outcome (resolve_sql_outcome sample_repr (t_of "h1")) (sample_store
    [{| meanwhile := id; elapsed := 0; reply := Runs |};
     {| meanwhile := <[suspended_key sample_company := Ok (JInt 1)]>; elapsed := 1; reply := Runs |}]) =
  Ok (denied "tenant_suspended" (_entry_facts match sample_entry with JDict d => d | _ => [] end)).
Proof. vm_compute. reflexivity. Qed.

Lemma enrol_statement_quoted_witness :
  is_ok (enrol_statement sample_company (verifier_text toy_hash [x00] (replicate 16 x00) DEFAULT_ITERATIONS)) = true ∧
  ∀ v s, enrol_statement sample_company v = Ok s → ∃ c, canonical_company_id sample_company = Ok c ∧
    s = (t_of "SELECT public.notebook_sql_proxy_enrol('" ++ t_of c ++ t_of "'::uuid, '" ++ v
         ++ t_of "')")%list ∧ forallb unquoted (t_of c) = true ∧ forallb unquoted v = true.
Proof.
  split; [vm_compute; reflexivity|].
  exact (proj1 (enrol_statement_quoted toy_hash (λ b, be_length 32 _) sample_company [] [])).
Defined.
