(* ===== verification/HubCapabilities.v ===== *)
(** * The notebook hub's capabilities: services/notebook_hub/capabilities.py

    Minting, resolving, refreshing and revoking capability handles, on a
    shared store.  Between any two commands other services may change the
    store and time passes, and a command may fail before or after it took
    effect ([hub_step]); a transaction or script is one command. *)

From stdpp Require Import base strings list gmap.
From Stdlib Require Import ZArith Lia.
From S2P Require Import Prelude PyText PyJson Tenancy CapabilityAudit SqlBinding.

Local Open Scope string_scope.

#[local] Arguments uuid_str : simpl never.
#[local] Arguments uuid_parse : simpl never.
#[local] Arguments t_of : simpl never.
#[local] Arguments clean_text : simpl never.

Definition AUDIENCE_API : string := "api".
Definition AUDIENCE_TRACKING : string := "tracking".
Definition AUDIENCE_COLD : string := "cold".
Definition _AUDIENCES : list string := [AUDIENCE_API; AUDIENCE_SQL; AUDIENCE_TRACKING; AUDIENCE_COLD].
Definition _READ_ONLY_AUDIENCES : list string := [AUDIENCE_API; AUDIENCE_SQL; AUDIENCE_COLD].

Definition _KEY_PREFIX : string := "nbcap:".
Definition _USER_INDEX_PREFIX : string := "nbcap-user:".
Definition _SUSPENDED_PREFIX : string := "nbcap-suspended:".
Definition PLANE : string := "hub".

Definition _key (handle : string) : string := _KEY_PREFIX +:+ handle.
Definition _user_index (user : string) : string := _USER_INDEX_PREFIX +:+ user.

Record Binding := { b_user : string; b_company_id : string; b_audience : string; b_read_only : bool }.

Section hub.
Context `{J : JsonCodec} `{I : IsoCodec}.

(** ** The shared store *)

(** Strings, hashes and sets with the instant they expire at (None: never);
    [appended]: every event added to the record's stream, which the hub never
    reads. *)
Record capdb := {
  values : gmap string (bytes * option Z);
  hashes : gmap string (list (string * string) * option Z);
  sets : gmap string (gset string * option Z);
  appended : list fields }.

Definition unexpired (now : Z) (exp : option Z) : bool :=
  match exp with Some e => Z.ltb now e | None => true end.
Definition in_seconds (now ttl : Z) : option Z := Some (now + ttl * 1000000)%Z.

Definition vget (now : Z) (k : string) (d : capdb) : option bytes :=
  match values d !! k with Some (v, exp) => if unexpired now exp then Some v else None | None => None end.
Definition hgetall (now : Z) (k : string) (d : capdb) : list (string * string) :=
  match hashes d !! k with Some (l, exp) => if unexpired now exp then l else [] | None => [] end.
Definition sget (now : Z) (k : string) (d : capdb) : gset string :=
  match sets d !! k with Some (l, exp) => if unexpired now exp then l else ∅ | None => ∅ end.

Definition with_values f (d : capdb) : capdb :=
  {| values := f (values d); hashes := hashes d; sets := sets d; appended := appended d |}.
Definition with_hashes f (d : capdb) : capdb :=
  {| values := values d; hashes := f (hashes d); sets := sets d; appended := appended d |}.
Definition with_sets f (d : capdb) : capdb :=
  {| values := values d; hashes := hashes d; sets := f (sets d); appended := appended d |}.
Definition append_event (f : fields) (d : capdb) : capdb :=
  {| values := values d; hashes := hashes d; sets := sets d; appended := (appended d ++ [f])%list |}.

(** A key holds one type: each command touches the map of its own. *)
Definition db_get (k : string) (now : Z) (d : capdb) : option bytes * capdb := (vget now k d, d).
Definition db_delete (ks : list string) (now : Z) (d : capdb) : unit * capdb :=
  (tt, with_sets (λ m, foldr delete m ks) (with_hashes (λ m, foldr delete m ks)
         (with_values (λ m, foldr delete m ks) d))).
Definition db_expire (k : string) (ttl now : Z) (d : capdb) : bool * capdb :=
  match vget now k d, hgetall now k d with
  | Some v, _ => (true, with_values <[k := (v, in_seconds now ttl)]> d)
  | None, [] => (false, d)
  | None, l => (true, with_hashes <[k := (l, in_seconds now ttl)]> d)
  end.
Definition db_items (k : string) (now : Z) (d : capdb) : list (string * string) * capdb := (hgetall now k d, d).

Fixpoint put_field (f v : string) (l : list (string * string)) : list (string * string) :=
  match l with
  | [] => [(f, v)]
  | (f', v') :: r => if bool_decide (f = f') then (f, v) :: r else (f', v') :: put_field f v r
  end.

(** A hash left empty is gone. *)
Definition db_index_remove (k : string) (fs : list string) (now : Z) (d : capdb) : unit * capdb :=
  (tt, match hashes d !! k with
       | Some (l, exp) =>
           match List.filter (λ p, negb (bool_decide (p.1 ∈ fs))) l with
           | [] => with_hashes (delete k) d
           | l' => with_hashes <[k := (l', exp)]> d
           end
       | None => d
       end).

(** The MULTI/EXEC of [set_recorded]; a hash written without an expiry has
    none until the EXPIRE that follows. *)
Definition db_set_recorded (k : string) (v : bytes) (ttl : Z) (e : fields) (index : option (string * string * string))
    (now : Z) (d : capdb) : unit * capdb :=
  let d := match index with
           | Some (ik, f, iv) => with_hashes <[ik := (put_field f iv (hgetall now ik d), in_seconds now ttl)]> d
           | None => d
           end in
  (tt, append_event e (with_values <[k := (v, in_seconds now ttl)]> d)).

(** DELETE_RECORDED_SCRIPT *)
Definition db_delete_recorded (k : string) (e : fields) (now : Z) (d : capdb) : Z * capdb :=
  match vget now k d with
  | Some _ => (1%Z, append_event e (with_values (delete k) d))
  | None => (0%Z, with_values (delete k) d)
  end.

(** ** The hub's process *)

Record hub_step := { others : capdb → capdb; passes : Z; outcome_of : call }.

(** [tokens], [ids]: what [secrets] and [uuid4] draw, an id as a number of which
    the low 128 bits are read. *)
Record hub := { db : capdb; now : Z; tokens : list string; ids : list Z; steps : list hub_step }.

Definition set_db (d : capdb) (s : hub) : hub :=
  {| db := d; now := now s; tokens := tokens s; ids := ids s; steps := steps s |}.

Definition next : M hub call := λ s,
  match steps s with
  | [] => (Ok Runs, s)
  | st :: l => (Ok (outcome_of st),
                {| db := others st (db s); now := (now s + passes st)%Z; tokens := tokens s; ids := ids s; steps := l |})
  end.

(** One command on the store. *)
Definition redis {A} (op : Z → capdb → A * capdb) : M hub A :=
  c ← next;
  match c with
  | Runs => r ← gets (λ s, op (now s) (db s)); _ ← modify (set_db r.2); mret r.1
  | Fails e => raise e
  | Lost e => r ← gets (λ s, op (now s) (db s)); _ ← modify (set_db r.2); raise e
  end.

Definition draw_token : M hub string := λ s,
  match tokens s with
  | [] => (Err OtherError, s)
  | x :: l => (Ok x, {| db := db s; now := now s; tokens := l; ids := ids s; steps := steps s |})
  end.
Definition new_handle_id : M hub string := λ s,
  match ids s with
  | [] => (Err OtherError, s)
  | x :: l => (Ok (uuid_str (x mod uuid_bound)), {| db := db s; now := now s; tokens := tokens s; ids := l; steps := steps s |})
  end.

(** ** RedisCapabilityStore *)

(** A value that is not UTF-8 raises in the adapter. *)
Definition decoded (raw : bytes) : res bytes :=
  match json_loads raw with Err UnicodeDecodeError => Err UnicodeDecodeError | _ => Ok raw end.

Definition store_get (k : string) : M hub (option bytes) :=
  v ← redis (db_get k);
  match v with Some raw => b ← lift (decoded raw); mret (Some b) | None => mret None end.
Definition store_eval (c : script_call) : M hub Z :=
  match c with CallDelete k f => redis (db_delete_recorded k f) | _ => raise OtherError end.
Definition store_append (e : fields) : M hub unit := redis (λ _ d, (tt, append_event e d)).

(** ** Minting and resolving *)

Definition is_suspended (company : string) : M hub bool :=
  v ← store_get (_SUSPENDED_PREFIX +:+ company); mret match v with Some _ => true | None => false end.

Definition entry (user company audience handle_id : string) : json :=
  JDict [("user", JStr user); ("company_id", JStr company); ("audience", JStr audience);
         ("read_only", JBool (bool_decide (audience ∈ _READ_ONLY_AUDIENCES))); ("handle_id", JStr handle_id)].

Definition hub_event (kind : string) (user company audience handle_id reason detail : option string) : event_args :=
  {| a_kind := kind; a_plane := PLANE; a_user := t_of <$> user; a_company_id := company; a_audience := audience;
     a_handle_id := handle_id; a_digest := None; a_reason := t_of <$> reason; a_detail := t_of <$> detail |}.

Definition mint (user company audience : string) (ttl : Z) (server : option string) : M hub string :=
  if negb (bool_decide (audience ∈ _AUDIENCES)) then raise ValueError else
  if bool_decide (user = "") || bool_decide (company = "") then raise ValueError else
  suspended ← is_suspended company;
  if suspended : bool then raise CompanySuspended else
  handle ← draw_token;
  handle_id ← new_handle_id;
  t ← gets now;
  e ← lift (event (hub_event "minted" (Some user) (Some company) (Some audience) (Some handle_id) None
                     ((λ s, "server=" +:+ s) <$> server)) t);
  _ ← redis (db_set_recorded (_key handle) (json_dumps (entry user company audience handle_id)) ttl e
               ((λ s, (_user_index user, handle, s)) <$> server));
  mret handle.

(** [json.loads(raw)] of a text. *)
Definition load (raw : bytes) : res (option json) :=
  match json_loads raw with
  | Ok v => Ok (Some v)
  | Err e => if is_value_error e || bool_decide (e = TypeError) then Ok None else Err e
  end.

Context (py_repr : json → string).

Definition resolve (handle expected_audience : string) : M hub (option Binding) :=
  if bool_decide (handle = "") then mret None else
  raw ← store_get (_key handle);
  match raw with
  | None => mret None
  | Some raw =>
      v ← lift (load raw);
      match v with
      | Some (JDict record) =>
          if negb (match jget "audience" record with JStr a => bool_decide (a = expected_audience) | _ => false end)
          then mret None
          else if negb (truthy (jget "company_id" record)) || negb (truthy (jget "user" record)) then mret None
          else
            suspended ← is_suspended (py_str py_repr (jget "company_id" record));
            if suspended : bool then mret None
            else mret (Some {| b_user := py_str py_repr (jget "user" record);
                               b_company_id := py_str py_repr (jget "company_id" record);
                               b_audience := expected_audience;
                               b_read_only := match dict_lookup "read_only" record with
                                              | Some v => truthy v | None => true end |})
      | _ => mret None
      end
  end.

(** ** Revoking *)

(** The facts of an entry: as the proxy's, but an empty user is none. *)
Definition _entry_facts (raw : option bytes) : res facts :=
  match raw with
  | None => Ok no_facts
  | Some raw =>
      v ← load raw;
      match v with
      | Some (JDict record) =>
          let f := SqlBinding._entry_facts record in
          Ok {| fact_user := match fact_user f with Some [] => None | u => u end;
                fact_company_id := fact_company_id f; fact_audience := fact_audience f;
                fact_handle_id := fact_handle_id f |}
      | _ => Ok no_facts
      end
  end.

Definition revoked_event (reason : string) (fs : facts) (user : option string) : event_args :=
  {| a_kind := "revoked"; a_plane := PLANE; a_user := match fact_user fs with Some u => Some u | None => t_of <$> user end;
     a_company_id := fact_company_id fs; a_audience := fact_audience fs; a_handle_id := fact_handle_id fs;
     a_digest := None; a_reason := Some (t_of reason); a_detail := None |}.

Definition _revoke_recorded (handle reason : string) (user : option string) : M hub Z :=
  raw ← store_get (_key handle);
  fs ← lift (_entry_facts raw);
  t ← gets now;
  e ← lift (event (revoked_event reason fs user) t);
  c ← lift (delete_recorded_args (_key handle) e);
  store_eval c.

Definition revoke (handle reason : string) : M hub Z := _revoke_recorded handle reason None.

Fixpoint revoke_each (reason user : string) (handles : list string) : M hub unit :=
  match handles with
  | [] => mret tt
  | h :: hs => _ ← _revoke_recorded h reason (Some user); revoke_each reason user hs
  end.

Definition _server_handles (user server : string) : M hub (list string) :=
  l ← redis (db_items (_user_index user));
  mret (List.filter (λ p, bool_decide (p.2 = server)) l).*1.

Definition revoke_server (user server reason : string) : M hub nat :=
  handles ← _server_handles user server;
  _ ← revoke_each reason user handles;
  _ ← match handles with [] => mret tt | _ => redis (db_index_remove (_user_index user) handles) end;
  mret (length handles).

Definition revoke_user (user reason : string) : M hub nat :=
  l ← redis (db_items (_user_index user));
  _ ← revoke_each reason user l.*1;
  _ ← redis (db_delete [_user_index user]);
  mret (length l).

(** ** The environment's record, and keeping handles alive *)

Definition _tenant_or_none (company : option string) : option string :=
  match company with Some c => uuid_str <$> uuid_parse c | None => None end.

Definition record_environment_started (user company server : string) (profile : option string) : M hub unit :=
  t ← gets now;
  e ← lift (event (hub_event "environment_started" (Some user) (_tenant_or_none (Some company)) None None None
              (Some ("server=" +:+ server +:+
                     match profile with Some p => if bool_decide (p = "") then "" else " profile=" +:+ p | None => "" end))) t);
  store_append e.

Definition record_environment_stopped (user : string) (company : option string) (server reason : string) : M hub unit :=
  t ← gets now;
  e ← lift (event (hub_event "environment_stopped" (Some user) (_tenant_or_none company) None None (Some reason)
              (Some ("server=" +:+ server))) t);
  store_append e.

(** The handles extended, and those that are gone. *)
Fixpoint extend_each (ttl : Z) (handles : list string) : M hub (list string * list string) :=
  match handles with
  | [] => mret ([], [])
  | h :: hs =>
      alive ← redis (db_expire (_key h) ttl);
      r ← extend_each ttl hs;
      mret (if alive : bool then (h :: r.1, r.2) else (r.1, h :: r.2))
  end.

Definition refresh_server (user server : string) (ttl : Z) : M hub nat :=
  handles ← _server_handles user server;
  r ← extend_each ttl handles;
  let '(live, dead) := r in
  _ ← match dead with [] => mret tt | _ => redis (db_index_remove (_user_index user) dead) end;
  _ ← match live with [] => mret tt | _ => _ ← redis (db_expire (_user_index user) ttl); mret tt end;
  mret (length live).

(** ** What the commands keep *)

(** What is next: how the command ends, and the state it finds. *)
Definition how (s : hub) : call := match steps s with [] => Runs | st :: _ => outcome_of st end.
Definition found (s : hub) : hub := final next s.

Lemma redis_run {A} (op : Z → capdb → A * capdb) s :
  redis op s =
  let r := op (now (found s)) (db (found s)) in
  match how s with
  | Runs => (Ok r.1, set_db r.2 (found s))
  | Fails e => (Err e, found s)
  | Lost e => (Err e, set_db r.2 (found s))
  end.
Proof.
  unfold redis, how, found, final, next, mbind, M_bind. destruct (steps s) as [|st l] eqn:E; [done|].
  cbn. by destruct (outcome_of st).
Qed.

(** [P] holds of the store, and others keep it. *)
Section stays.
Context (P : capdb → Prop).

Definition stays (s : hub) : Prop := P (db s) ∧ Forall (λ st, ∀ d, P d → P (others st d)) (steps s).

Lemma stays_redis {A} (op : Z → capdb → A * capdb) : (∀ t d, P d → P (op t d).2) →
  respects (λ s s', stays s → stays s') (redis op).
Proof.
  intros Hop s Hs. assert (stays (found s)) as Hf.
  { destruct Hs as [HP Hst]. unfold found, final, next, stays. destruct (steps s) as [|st l] eqn:E; cbn.
    - split; [done|]. rewrite E. constructor.
    - apply Forall_cons in Hst as [H1 H2]. split; [by apply H1 | done]. }
  unfold final. rewrite redis_run. destruct Hf as [HP Hst].
  destruct (how s); cbn; [| by split |]; split; cbn; auto.
Qed.

Lemma stays_draw : respects (λ s s', stays s → stays s') draw_token.
Proof. intros s H. unfold final, draw_token. by destruct (tokens s). Qed.
Lemma stays_id : respects (λ s s', stays s → stays s') new_handle_id.
Proof. intros s H. unfold final, new_handle_id. by destruct (ids s). Qed.
End stays.

(** Time passes forwards, and the others only remove values. *)
Definition removing (st : hub_step) : Prop :=
  (0 ≤ passes st)%Z ∧ ∀ d k, values (others st d) !! k = values d !! k ∨ values (others st d) !! k = None.

(** No value appears: what is live at the end was live, and the same, at the start. *)
Definition shrinks (s s' : hub) : Prop :=
  Forall removing (steps s) →
  Forall removing (steps s') ∧ (now s ≤ now s')%Z ∧
  ∀ k v, vget (now s') k (db s') = Some v → vget (now s) k (db s) = Some v.

#[export] Instance shrinks_preorder : PreOrder shrinks.
Proof.
  split; [by intros s H|]. intros s1 s2 s3 H12 H23 H1. destruct (H12 H1) as (H2 & ? & K1).
  destruct (H23 H2) as (H3 & ? & K2). split; [done|]. split; [lia|]. auto.
Qed.

Lemma vget_earlier t t' k d v : (t ≤ t')%Z → vget t' k d = Some v → vget t k d = Some v.
Proof.
  unfold vget. destruct (values d !! k) as [[w exp]|]; [|done]. destruct exp as [e|]; cbn; [|done].
  destruct (Z.ltb_spec t' e); [|done]. intros Ht. by destruct (Z.ltb_spec t e); [|lia].
Qed.

Lemma vget_removed t k d d' v : (values d' !! k = values d !! k ∨ values d' !! k = None) →
  vget t k d' = Some v → vget t k d = Some v.
Proof. unfold vget. intros [->| ->]; [done|]. done. Qed.

Lemma next_shrinks : respects shrinks next.
Proof.
  intros s H. unfold final, next. destruct (steps s) as [|st l] eqn:E; cbn.
  - split; [rewrite ?E; constructor|]. by split.
  - apply Forall_cons in H as [[Hp Ho] H]. split; [done|]. split; [lia|]. intros k v Hv.
    apply (vget_earlier _ (now s + passes st)%Z); [lia|]. by eapply vget_removed.
Qed.

Lemma redis_shrinks {A} (op : Z → capdb → A * capdb) :
  (∀ t d k v, vget t k (op t d).2 = Some v → vget t k d = Some v) → respects shrinks (redis op).
Proof.
  intros Hop s Hs. destruct (next_shrinks s Hs) as (H1 & H2 & H3). unfold final. rewrite redis_run.
  fold (found s) in *. destruct (how s); cbn; (split; [done|]; split; [done|]; intros k v Hv; apply H3);
    [by eapply Hop | done | by eapply Hop].
Qed.

(** ** Every stored handle is on record *)

(** [f] is the event of the mint that wrote [v]. *)
Definition minted_for (v : bytes) (f : fields) : Prop :=
  ∃ user company audience hid c,
    json_loads v = Ok (entry user company audience hid) ∧ canonical_company_id company = Ok c ∧
    field "kind" f = Some (t_of "minted") ∧ field "handle_id" f = Some (t_of hid) ∧
    field "company_id" f = Some (t_of c) ∧ field "audience" f = Some (t_of audience) ∧
    field "user" f = Some (clean_text (t_of user)).

Definition on_record (d : capdb) : Prop :=
  ∀ h v exp, values d !! _key h = Some (v, exp) → ∃ f, f ∈ appended d ∧ minted_for v f.

Lemma on_record_less d d' : (∀ h v exp, values d' !! _key h = Some (v, exp) → ∃ exp', values d !! _key h = Some (v, exp')) →
  (∀ f, f ∈ appended d → f ∈ appended d') → on_record d → on_record d'.
Proof. intros Hv Ha H h v exp Hh. destruct (Hv h v exp Hh) as [exp' Hd]. destruct (H h v exp' Hd) as (f & ? & ?). eauto. Qed.

Lemma delete_get k k' (m : gmap string (bytes * option Z)) x : delete k m !! k' = Some x → m !! k' = Some x.
Proof. intros [_ H]%lookup_delete_Some. done. Qed.

Lemma on_record_get k t d : on_record d → on_record (db_get k t d).2.
Proof. done. Qed.
Lemma on_record_items k t d : on_record d → on_record (db_items k t d).2.
Proof. done. Qed.
Lemma on_record_delete ks t d : on_record d → on_record (db_delete ks t d).2.
Proof.
  apply on_record_less; [|done]. intros h v exp. cbn.
  induction ks as [|k ks IH]; cbn; [eauto|]. intros H%delete_get. by apply IH.
Qed.
Lemma on_record_expire k ttl t d : on_record d → on_record (db_expire k ttl t d).2.
Proof.
  apply on_record_less; unfold db_expire, vget;
    [intros h v exp | intros f]; destruct (values d !! k) as [[w e]|] eqn:Ek;
    [destruct (unexpired t e) | | destruct (unexpired t e) |]; destruct (hgetall t k d); cbn; eauto.
  all: intros [[<- [= <- <-]]|[_ ?]]%lookup_insert_Some; eauto.
Qed.
Lemma on_record_index k fs t d : on_record d → on_record (db_index_remove k fs t d).2.
Proof.
  apply on_record_less; unfold db_index_remove; cbn; destruct (hashes d !! k) as [[l e]|];
    try destruct (List.filter _ l); cbn; eauto.
Qed.
Lemma on_record_revoked k e t d : on_record d → on_record (db_delete_recorded k e t d).2.
Proof.
  apply on_record_less; unfold db_delete_recorded; destruct (vget t k d); cbn;
    [intros h v exp H%delete_get; eauto.. | intros f Hf | done]. set_solver.
Qed.
Lemma on_record_append e t d : on_record d → on_record ((λ (_ : Z) d, (tt, append_event e d)) t d).2.
Proof. apply on_record_less; [eauto|]. cbn. set_solver. Qed.

Lemma on_record_set h v ttl e index t d : minted_for v e → on_record d →
  on_record (db_set_recorded (_key h) v ttl e index t d).2.
Proof.
  intros Hm H h' v' exp. unfold db_set_recorded.
  assert (values (match index with
                  | Some (ik, f, iv) => with_hashes <[ik := (put_field f iv (hgetall t ik d), in_seconds t ttl)]> d
                  | None => d end) = values d ∧
          appended (match index with
                  | Some (ik, f, iv) => with_hashes <[ik := (put_field f iv (hgetall t ik d), in_seconds t ttl)]> d
                  | None => d end) = appended d) as [Ev Ea] by (by destruct index as [[[? ?] ?]|]).
  cbn [snd append_event with_values values appended]. rewrite Ev, Ea.
  intros [[_ [= <- <-]]|[_ Hd]]%lookup_insert_Some.
  - exists e. split; [set_solver | done].
  - destruct (H _ _ _ Hd) as (f & ? & ?). exists f. split; [set_solver | done].
Qed.

(** The event a mint records names what the entry names, whichever plane mints. *)
Lemma minted_event_of_plane plane user company audience hid detail t e :
  event {| a_kind := "minted"; a_plane := plane; a_user := Some (t_of user); a_company_id := Some company; a_audience := Some audience;
           a_handle_id := Some hid; a_digest := None; a_reason := None; a_detail := t_of <$> detail |} t = Ok e →
  (∃ u, uuid_parse hid = Some u ∧ hid = uuid_str u) →
  minted_for (json_dumps (entry user company audience hid)) e.
Proof.
  intros He (u & Hu & Hh). unfold event in He. cbn -[canonical_company_id uuid_parse uuid_str PLANES] in He.
  destruct (negb (bool_decide (plane ∈ PLANES))); [done|].
  destruct (negb (bool_decide (audience ∈ AUDIENCES))) eqn:Ha; [done|]. bool_hyps.
  destruct (canonical_company_id company) as [c|] eqn:Hc; [|done]. cbn -[uuid_parse uuid_str] in He.
  rewrite Hu in He. cbn -[uuid_str] in He. injection He as <-.
  exists user, company, audience, hid, c. split; [by apply loads_dumps|]. split; [done|].
  rewrite <- Hh. destruct detail; cbn [field opt_field app]; split_and!; try reflexivity;
    rewrite <- (audience_clean audience Ha) at 2; reflexivity.
Qed.

Lemma minted_event_names user company audience hid detail t e :
  event (hub_event "minted" (Some user) (Some company) (Some audience) (Some hid) None detail) t = Ok e →
  (∃ u, uuid_parse hid = Some u ∧ hid = uuid_str u) →
  minted_for (json_dumps (entry user company audience hid)) e.
Proof. apply minted_event_of_plane. Qed.

Abbreviation recorded := (stays on_record).
Abbreviation keeps := (respects (λ s s', recorded s → recorded s')).

Lemma keeps_get k : keeps (store_get k).
Proof.
  unfold store_get. apply respects_bind; [apply _ | by apply stays_redis |]. intros [raw|]; [|apply respects_ret, _].
  apply respects_bind; [apply _ | apply respects_lift, _ |]. intros b. apply respects_ret, _.
Qed.

Ltac keeping_calls tac := respecting ltac:(first
  [ tac | apply keeps_get | apply stays_draw | apply stays_id | apply stays_redis; first
    [ apply on_record_items | apply on_record_delete | apply on_record_expire | apply on_record_index
    | apply on_record_revoked | apply on_record_append ] | assumption ]).
Ltac keeping := keeping_calls fail.

Lemma keeps_suspended c : keeps (is_suspended c).
Proof. unfold is_suspended. keeping. Qed.

Lemma keeps_revoke_recorded h reason user : keeps (_revoke_recorded h reason user).
Proof. unfold _revoke_recorded, store_eval. keeping. Qed.

Lemma keeps_revoke_each reason user hs : keeps (revoke_each reason user hs).
Proof. induction hs as [|h hs IH]; cbn [revoke_each]; keeping_calls ltac:(apply keeps_revoke_recorded). Qed.

Lemma keeps_extend_each ttl hs : keeps (extend_each ttl hs).
Proof. induction hs as [|h hs IH]; cbn [extend_each]; keeping. Qed.

Lemma new_handle_id_uuid : yields (λ h, ∃ u, uuid_parse h = Some u ∧ h = uuid_str u) new_handle_id.
Proof.
  intros s h s'. unfold new_handle_id. destruct (ids s) as [|x l]; [done|]. intros [= <- _].
  eexists. split; [apply uuid_parse_str; by apply Z.mod_pos_bound | done].
Qed.

Lemma keeps_mint user company audience ttl server : keeps (mint user company audience ttl server).
Proof.
  unfold mint. destruct (negb _); [apply respects_raise, _|]. destruct (_ || _); [apply respects_raise, _|].
  apply respects_bind; [apply _ | apply keeps_suspended |]. intros [|]; [apply respects_raise, _|].
  apply respects_bind; [apply _ | apply stays_draw |]. intros h.
  eapply respects_bind_when; [apply _ | apply stays_id | apply new_handle_id_uuid |]. intros hid Hid.
  apply respects_bind; [apply _ | apply respects_gets, _ |]. intros t.
  match goal with |- respects _ (lift ?r ≫= _) => apply (respects_bind_when _ (λ e, r = Ok e)) end;
    [apply respects_lift, _ | by apply yields_lift |]. intros e He.
  apply respects_bind; [apply _ | | intros _; apply respects_ret, _].
  apply stays_redis. intros t' d. apply on_record_set. by eapply minted_event_names.
Qed.

(** *** The hub's calls *)

Inductive hub_call :=
  | Mint (user company audience : string) (ttl : Z) (server : option string)
  | Resolve (handle audience : string)
  | Revoke (handle reason : string)
  | RevokeServer (user server reason : string)
  | RevokeUser (user reason : string)
  | Started (user company server : string) (profile : option string)
  | Stopped (user : string) (company : option string) (server reason : string)
  | Refresh (user server : string) (ttl : Z).

Definition forget {A} (m : M hub A) : M hub unit := _ ← m; mret tt.

Definition perform (c : hub_call) : M hub unit :=
  match c with
  | Mint user company audience ttl server => forget (mint user company audience ttl server)
  | Resolve handle audience => forget (resolve handle audience)
  | Revoke handle reason => forget (revoke handle reason)
  | RevokeServer user server reason => forget (revoke_server user server reason)
  | RevokeUser user reason => forget (revoke_user user reason)
  | Started user company server profile => record_environment_started user company server profile
  | Stopped user company server reason => record_environment_stopped user company server reason
  | Refresh user server ttl => forget (refresh_server user server ttl)
  end.

(** The hub goes on after a call that failed. *)
Definition hub_run (cs : list hub_call) (s : hub) : hub := foldl (λ s c, final (perform c) s) s cs.

Lemma keeps_forget {A} (m : M hub A) : keeps m → keeps (forget m).
Proof. intros H. apply respects_bind; [apply _ | exact H | intros _; apply respects_ret, _]. Qed.

Lemma keeps_perform c : keeps (perform c).
Proof.
  destruct c; cbn [perform]; try apply keeps_forget.
  - apply keeps_mint.
  - unfold resolve. keeping_calls ltac:(apply keeps_suspended).
  - unfold revoke. apply keeps_revoke_recorded.
  - unfold revoke_server, _server_handles. keeping_calls ltac:(apply keeps_revoke_each).
  - unfold revoke_user. keeping_calls ltac:(apply keeps_revoke_each).
  - unfold record_environment_started, store_append. keeping.
  - unfold record_environment_stopped, store_append. keeping.
  - unfold refresh_server, _server_handles. keeping_calls ltac:(apply keeps_extend_each).
Qed.

(** every handle in the store is on record: whatever the hub's calls,
    their failures before or after taking effect, and the other services do in
    between (if they keep it too), each entry is one a mint wrote together with
    a minted event that names its handle id, tenant, audience and user. *)
Theorem stored_handles_recorded cs s h v exp :
  on_record (db s) → Forall (λ st, ∀ d, on_record d → on_record (others st d)) (steps s) →
  values (db (hub_run cs s)) !! _key h = Some (v, exp) →
  ∃ f, f ∈ appended (db (hub_run cs s)) ∧ minted_for v f.
Proof.
  intros Hd Ho. assert (recorded (hub_run cs s)) as [H _]; [|by apply H].
  assert (recorded s) as Hs by done. clear Hd Ho. revert s Hs.
  induction cs as [|c cs IH]; intros s Hs; [done|]. cbn. apply IH. by apply keeps_perform.
Qed.

(** ** Revoked handles stay revoked *)

Lemma vget_delete t k k' d v : vget t k (with_values (delete k') d) = Some v → vget t k d = Some v.
Proof.
  apply vget_removed. cbn. destruct (decide (k' = k)) as [->|]; [right; apply lookup_delete_eq | left; by apply lookup_delete_ne].
Qed.

Lemma shrinks_get k : respects shrinks (redis (db_get k)).
Proof. by apply redis_shrinks. Qed.
Lemma shrinks_items k : respects shrinks (redis (db_items k)).
Proof. by apply redis_shrinks. Qed.
Lemma shrinks_index k fs : respects shrinks (redis (db_index_remove k fs)).
Proof.
  apply redis_shrinks. intros t d k' v. unfold db_index_remove. destruct (hashes d !! k) as [[l e]|]; [|done].
  cbn. by destruct (List.filter _ l).
Qed.
Lemma shrinks_delete ks : respects shrinks (redis (db_delete ks)).
Proof.
  apply redis_shrinks. intros t d k v. cbn. unfold vget at 1. cbn.
  assert (∀ x, foldr delete (values d) ks !! k = Some x → values d !! k = Some x) as Hk.
  { intros x. induction ks as [|k' ks IH]; cbn; [done|]. intros Hx%delete_get. auto. }
  unfold vget. destruct (foldr delete (values d) ks !! k) as [x|] eqn:E; [|done]. by rewrite (Hk x eq_refl).
Qed.
Lemma shrinks_expire k ttl : respects shrinks (redis (db_expire k ttl)).
Proof.
  apply redis_shrinks. intros t d k' v. unfold db_expire. destruct (vget t k d) as [w|] eqn:Ek; [|by destruct (hgetall t k d)].
  cbn. unfold vget at 1. cbn. destruct (decide (k = k')) as [->|Hne].
  - rewrite lookup_insert_eq. destruct (unexpired t _); [|done]. by intros [= ->].
  - by rewrite lookup_insert_ne.
Qed.
Lemma shrinks_revoked k e : respects shrinks (redis (db_delete_recorded k e)).
Proof.
  apply redis_shrinks. intros t d k' v. unfold db_delete_recorded. destruct (vget t k d); apply vget_delete.
Qed.

Lemma shrinks_store_get k : respects shrinks (store_get k).
Proof.
  unfold store_get. apply respects_bind; [apply _ | apply shrinks_get |]. intros [raw|]; [|apply respects_ret, _].
  apply respects_bind; [apply _ | apply respects_lift, _ |]. intros b. apply respects_ret, _.
Qed.

Ltac shrinking_calls tac := respecting ltac:(first
  [ tac | apply shrinks_store_get | apply shrinks_items | apply shrinks_index | apply shrinks_delete
  | apply shrinks_expire | apply shrinks_revoked | assumption ]).

Lemma shrinks_revoke_recorded h reason user : respects shrinks (_revoke_recorded h reason user).
Proof. unfold _revoke_recorded, store_eval. shrinking_calls fail. Qed.
Lemma shrinks_revoke_each reason user hs : respects shrinks (revoke_each reason user hs).
Proof. induction hs as [|h hs IH]; cbn [revoke_each]; shrinking_calls ltac:(apply shrinks_revoke_recorded). Qed.
Lemma shrinks_extend_each ttl hs : respects shrinks (extend_each ttl hs).
Proof. induction hs as [|h hs IH]; cbn [extend_each]; shrinking_calls fail. Qed.

(** From here on [k] stays absent. *)
Lemma gone_stays {A} (m : M hub A) s r s' k : respects shrinks m → m s = (r, s') → Forall removing (steps s) →
  vget (now s) k (db s) = None → Forall removing (steps s') ∧ vget (now s') k (db s') = None.
Proof.
  intros Hm E Hs Hk. destruct (Hm s Hs) as (H1 & _ & H3). unfold final in *. rewrite E in *. split; [done|].
  destruct (vget (now s') k (db s')) as [v|] eqn:Ev; [|done]. apply H3 in Ev. cbn in Ev. congruence.
Qed.

Lemma removing_after {A} (m : M hub A) s r s' : respects shrinks m → m s = (r, s') →
  Forall removing (steps s) → Forall removing (steps s').
Proof. intros Hm E Hs. destruct (Hm s Hs) as (H1 & _). unfold final in *. by rewrite E in H1. Qed.

(** What an answered command did. *)
Lemma redis_ok {A} (op : Z → capdb → A * capdb) s a s' : redis op s = (Ok a, s') →
  a = (op (now (found s)) (db (found s))).1 ∧ s' = set_db (op (now (found s)) (db (found s))).2 (found s).
Proof. rewrite redis_run. destruct (how s); [|done|done]. intros [= <- <-]. done. Qed.

Lemma delete_args_key key e c : delete_recorded_args key e = Ok c → c = CallDelete key e.
Proof. unfold delete_recorded_args. destruct (id_field "kind" e); [|done]. case_bool_decide; [|done]. congruence. Qed.

Lemma vget_revoked t t' k e d : vget t k (db_delete_recorded k e t' d).2 = None.
Proof.
  assert (values (db_delete_recorded k e t' d).2 !! k = None) as Hk
    by (unfold db_delete_recorded; destruct (vget t' k d); cbn; apply lookup_delete_eq).
  unfold vget. by rewrite Hk.
Qed.

Lemma revoke_recorded_gone h reason user s n s' : _revoke_recorded h reason user s = (Ok n, s') →
  vget (now s') (_key h) (db s') = None.
Proof.
  unfold _revoke_recorded. intros (raw & s1 & _ & H)%bind_inv_ok.
  apply bind_inv_ok in H as (fs & s2 & _ & H). apply bind_inv_ok in H as (t & s3 & _ & H).
  apply bind_inv_ok in H as (e & s4 & _ & H). apply bind_inv_ok in H as (c & s5 & Hc & H).
  apply lift_inv in Hc as [Hc%delete_args_key ->]. subst c. cbn [store_eval] in H. apply redis_ok in H as [_ ->].
  apply vget_revoked.
Qed.

Lemma revoke_each_gone reason user hs s s' : Forall removing (steps s) → revoke_each reason user hs s = (Ok tt, s') →
  ∀ h, h ∈ hs → vget (now s') (_key h) (db s') = None.
Proof.
  revert s. induction hs as [|h0 hs IH]; intros s Hs H h Hh; [by apply elem_of_nil in Hh|].
  cbn [revoke_each] in H. apply bind_inv_ok in H as (n & s1 & H1 & H).
  pose proof (removing_after _ _ _ _ (shrinks_revoke_recorded _ _ _) H1 Hs) as Hs1.
  apply elem_of_cons in Hh as [->|Hh]; [|by apply (IH s1)].
  apply revoke_recorded_gone in H1. by destruct (gone_stays _ _ _ _ _ (shrinks_revoke_each _ _ _) H Hs1 H1).
Qed.

(** Revoking a server ends every handle it was given: when [revoke_server]
    returns, none of the handles the index listed for the server is live, the
    count is theirs, and no value has appeared; however the others' removals
    interleave. *)
Theorem revoked_server_has_no_handle user server reason s n s' :
  Forall removing (steps s) → revoke_server user server reason s = (Ok n, s') →
  ∃ handles s1, _server_handles user server s = (Ok handles, s1) ∧ n = length handles ∧
    (∀ h, h ∈ handles → vget (now s') (_key h) (db s') = None) ∧
    (∀ k v, vget (now s') k (db s') = Some v → vget (now s) k (db s) = Some v).
Proof.
  intros Hs H. assert (respects shrinks (_server_handles user server)) as Hsh
    by (unfold _server_handles; shrinking_calls fail).
  assert (respects shrinks (revoke_server user server reason)) as Hall.
  { unfold revoke_server. shrinking_calls ltac:(first [apply shrinks_revoke_each | exact Hsh]). }
  destruct (Hall s Hs) as (_ & _ & Hno). unfold final in Hno. rewrite H in Hno.
  unfold revoke_server in H. apply bind_inv_ok in H as (handles & s1 & H1 & H). exists handles, s1. split; [done|].
  pose proof (removing_after _ _ _ _ Hsh H1 Hs) as Hs1.
  apply bind_inv_ok in H as ([] & s2 & H2 & H). apply bind_inv_ok in H as ([] & s3 & H3 & H). injection H as <- <-.
  split; [done|]. split; [|exact Hno]. intros h Hh.
  pose proof (removing_after _ _ _ _ (shrinks_revoke_each _ _ _) H2 Hs1) as Hs2.
  apply (gone_stays _ _ _ _ (_key h)) in H3;
    [apply H3 | destruct handles; [apply respects_ret, _ | apply shrinks_index] | done |].
  by apply (revoke_each_gone _ _ _ _ _ Hs1 H2).
Qed.

(** *** Refreshing *)

Lemma expire_false k ttl s s' : redis (db_expire k ttl) s = (Ok false, s') → vget (now s') k (db s') = None.
Proof.
  intros H. apply redis_ok in H as [Hb ->]. unfold db_expire in *. cbn.
  destruct (vget (now (found s)) k (db (found s))) as [v|] eqn:Ev; [done|].
  destruct (hgetall _ _ _); [by rewrite ?Ev | done].
Qed.

Lemma extend_each_split ttl hs s r s' : Forall removing (steps s) → extend_each ttl hs s = (Ok r, s') →
  ∀ h, h ∈ hs → h ∈ r.1 ∨ h ∈ r.2 ∧ vget (now s') (_key h) (db s') = None.
Proof.
  revert s r. induction hs as [|h0 hs IH]; intros s r Hs H h Hh; [by apply elem_of_nil in Hh|].
  cbn [extend_each] in H. apply bind_inv_ok in H as (alive & s1 & H1 & H).
  apply bind_inv_ok in H as (r' & s2 & H2 & H). injection H as <- <-.
  pose proof (removing_after _ _ _ _ (shrinks_expire _ _) H1 Hs) as Hs1.
  apply elem_of_cons in Hh as [->|Hh].
  - destruct alive; [left; cbn; by left|]. right. split; [cbn; by left|].
    apply expire_false in H1. by destruct (gone_stays _ _ _ _ _ (shrinks_extend_each _ _) H2 Hs1 H1).
  - destruct (IH s1 r' Hs1 H2 h Hh) as [?|[? ?]]; destruct alive; cbn; auto; [left; by right | right; split; [by right|done]].
Qed.

(** refreshing never brings a handle back: whatever happens, no value is
    live after [refresh_server] that was not before, with the same entry; and
    when it returns zero, none of the server's handles is live, so the caller
    stops a server only if its capabilities are gone. *)
Theorem refresh_never_revives user server ttl s r s' :
  Forall removing (steps s) → refresh_server user server ttl s = (r, s') →
  (∀ k v, vget (now s') k (db s') = Some v → vget (now s) k (db s) = Some v) ∧
  (r = Ok 0%nat → ∃ handles s1, _server_handles user server s = (Ok handles, s1) ∧
     ∀ h, h ∈ handles → vget (now s') (_key h) (db s') = None).
Proof.
  intros Hs H. assert (respects shrinks (_server_handles user server)) as Hsh
    by (unfold _server_handles; shrinking_calls fail).
  assert (respects shrinks (refresh_server user server ttl)) as Hall.
  { unfold refresh_server. shrinking_calls ltac:(first [apply shrinks_extend_each | exact Hsh]). }
  destruct (Hall s Hs) as (_ & _ & Hno). unfold final in Hno. rewrite H in Hno. split; [exact Hno|].
  intros ->. unfold refresh_server in H. apply bind_inv_ok in H as (handles & s1 & H1 & H). exists handles, s1. split; [done|].
  pose proof (removing_after _ _ _ _ Hsh H1 Hs) as Hs1.
  apply bind_inv_ok in H as ([live dead] & s2 & H2 & H).
  pose proof (removing_after _ _ _ _ (shrinks_extend_each _ _) H2 Hs1) as Hs2.
  intros h Hh. destruct (extend_each_split _ _ _ _ _ Hs1 H2 h Hh) as [Hl|[_ Hg]].
  - cbn in Hl. apply bind_inv_ok in H as ([] & s3 & _ & H). apply bind_inv_ok in H as ([] & s4 & _ & H).
    injection H as Hn _. destruct live; [by apply elem_of_nil in Hl | done].
  - eapply gone_stays in H; [apply H | | done | exact Hg].
    shrinking_calls fail.
Qed.
End hub.

(** The commands other services run shrink the store as the hub's do. *)
Ltac shrinking_calls tac := respecting ltac:(first
  [ tac | apply shrinks_store_get | apply shrinks_items | apply shrinks_index | apply shrinks_delete
  | apply shrinks_expire | apply shrinks_revoked | assumption ]).
