(* ===== verification/ApiCapabilities.v ===== *)
(** * The data API's capabilities: services/api_gateway/capability_auth.py

    Its copy of the handle contract (resolving, and recording the outcome, on
    SqlBinding's view of the shared store), and the end of a user's
    capabilities when they sign out, on the hub's. *)

From stdpp Require Import base strings list gmap.
From Stdlib Require Import ZArith Lia.
From S2P Require Import Prelude PyText PyJson Tenancy CapabilityAudit SqlBinding HubCapabilities.

Local Open Scope string_scope.

#[local] Arguments uuid_str : simpl never.
#[local] Arguments uuid_parse : simpl never.
#[local] Arguments t_of : simpl never.
#[local] Arguments clean_text : simpl never.

(** [record.get("audience") != expected] *)
Definition names (expected : string) (record : dict) : bool :=
  match jget "audience" record with JStr s => bool_decide (s = expected) | _ => false end.

(** [record.get("user", "")], and [str] of it. *)
Definition user_of (record : dict) : json := match dict_lookup "user" record with Some v => v | None => JStr "" end.

(** What a plane records of a use and of a refusal: one event each. *)
Definition use_event (plane : string) (user : text) (company audience h : string) : event_args :=
  {| a_kind := "first_use"; a_plane := plane; a_user := Some user; a_company_id := Some company;
     a_audience := Some audience; a_handle_id := Some h; a_digest := None; a_reason := None; a_detail := None |}.

Definition AUDIENCE_API : string := "api".
Definition _KEY_PREFIX : text := t_of "nbcap:".
Definition SUSPENDED_PREFIX : text := t_of "nbcap-suspended:".
Definition _USER_INDEX_PREFIX : string := "nbcap-user:".
Definition _UPLOAD_INDEX_PREFIX : string := "nbcap-upload-user:".

Definition suspended_key (company : string) : text := (SUSPENDED_PREFIX ++ t_of company)%list.

Record CapabilityBinding := {
  user : text; company_id : string; audience : string; read_only : bool; handle_id : option string }.

Section api.
Context `{J : JsonCodec} `{I : IsoCodec}.
Context (trim : nat → nat) (sha256_hex : text → string) (py_repr : json → string).

(** [_entry_facts]: every copy reads an entry alike. *)
Definition _entry_facts (record : dict) : facts :=
  {| fact_user := match jget "user" record with JStr s => Some (t_of s) | _ => None end;
     fact_company_id := id_or_empty (jget "company_id" record);
     fact_audience := match jget "audience" record with
                      | JStr s => if bool_decide (s ∈ AUDIENCES) then Some s else None
                      | _ => None
                      end;
     fact_handle_id := id_or_empty (jget "handle_id" record) |}.

Definition resolve_capability_outcome (expected_audience : string) (handle : text)
  : M cap_store (option CapabilityBinding * option string * facts) :=
  match handle with
  | [] => mret (None, Some "no_handle", no_facts)
  | _ =>
      raw ← aget (_KEY_PREFIX ++ handle)%list;
      match raw with
      | None => mret (None, Some "no_entry", no_facts)
      | Some raw =>
          v ← lift (load_entry raw);
          match v with
          | Some (JDict record) =>
              let fs := _entry_facts record in
              if negb (names expected_audience record) then mret (None, Some "wrong_audience", fs)
              else match id_or_empty (jget "company_id" record) with
                   | None => mret (None, Some "malformed_entry", fs)
                   | Some company =>
                       suspended ← aget (suspended_key company);
                       match suspended with
                       | Some _ => mret (None, Some "tenant_suspended", fs)
                       | None =>
                           mret (Some {| user := t_of (py_str py_repr (user_of record)); company_id := company;
                                         audience := expected_audience;
                                         read_only := match dict_lookup "read_only" record with
                                                      | Some v => truthy v | None => true end;
                                         handle_id := fact_handle_id fs |}, None, fs)
                       end
                   end
          | _ => mret (None, Some "malformed_entry", no_facts)
          end
      end
  end.

Definition resolve_capability (expected_audience : string) (handle : text) : M cap_store (option CapabilityBinding) :=
  o ← resolve_capability_outcome expected_audience handle; mret o.1.1.

Definition record_resolution (handle : text) (binding : option CapabilityBinding) (reason : option string)
  (fs : facts) (source : option string) : M cap_store unit :=
  t ← gets SqlBinding.now;
  match binding with
  | Some b =>
      match handle_id b with
      | None => mret tt
      | Some h =>
          e ← lift (event (use_event "api_gateway" (user b) (company_id b) (audience b) h) t);
          call ← lift (first_use_script_args e);
          _ ← seval trim call; mret tt
      end
  | None =>
      call ← lift (refusal sha256_hex "api_gateway" handle (default "" reason) fs source t);
      _ ← seval trim call; mret tt
  end.

(** *** Signing a user out, on the hub's store *)

(** [_entry_facts(json.loads(raw))], nothing for what is no object. *)
Definition facts_of (raw : option bytes) : res facts :=
  match raw with
  | None => Ok no_facts
  | Some raw =>
      match json_loads raw with
      | Ok (JDict record) => Ok (_entry_facts record)
      | Ok _ => Ok no_facts
      | Err e => if is_value_error e || bool_decide (e = TypeError) then Ok no_facts else Err e
      end
  end.

Fixpoint revoke_each (uid : string) (handles : list string) : M hub nat :=
  match handles with
  | [] => mret O
  | h :: hs =>
      raw ← redis (db_get (_key h));
      fs ← lift (facts_of raw);
      t ← gets now;
      e ← lift (event {| a_kind := "revoked"; a_plane := "api_gateway";
                         a_user := Some (default (t_of uid) (fact_user fs));
                         a_company_id := fact_company_id fs; a_audience := fact_audience fs;
                         a_handle_id := fact_handle_id fs; a_digest := None;
                         a_reason := Some (t_of "user_signed_out"); a_detail := None |} t);
      c ← lift (delete_recorded_args (_key h) e);
      n ← store_eval c;
      m ← revoke_each uid hs;
      mret (Z.to_nat n + m)%nat
  end.

Definition db_smembers (k : string) (now : Z) (d : capdb) : list string * capdb :=
  (elements (sget now k d), d).

Definition revoke_user_capabilities (uid : string) : M hub nat :=
  l ← redis (db_items (_USER_INDEX_PREFIX +:+ uid));
  uploads ← redis (db_smembers (_UPLOAD_INDEX_PREFIX +:+ uid));
  revoked ← revoke_each uid (l.*1 ++ uploads)%list;
  _ ← redis (db_delete [_USER_INDEX_PREFIX +:+ uid; _UPLOAD_INDEX_PREFIX +:+ uid]);
  mret revoked.
End api.
