(* ===== verification/ColdBroker.v ===== *)
(** * The cold-store broker's policy: services/notebook_cold_broker/policy.py

    Its copy of the handle contract, and the tenant's keys. *)

From stdpp Require Import base strings list gmap.
From Stdlib Require Import ZArith Lia.
From S2P Require Import Prelude PyText PyJson Tenancy CapabilityAudit SqlBinding HubCapabilities ApiCapabilities.

Local Open Scope string_scope.

#[local] Arguments uuid_str : simpl never.
#[local] Arguments uuid_parse : simpl never.
#[local] Arguments t_of : simpl never.
#[local] Arguments clean_text : simpl never.

Definition AUDIENCE_COLD : string := "cold".
Definition PLANE : string := "cold_broker".
Definition _KEY_PREFIX : text := t_of "nbcap:".
Definition _SUSPENDED_PREFIX : text := t_of "nbcap-suspended:".

Record ColdBinding := { user : text; company_id : string; handle_id : option string }.

Section cold.
Context `{J : JsonCodec} `{I : IsoCodec}.
Context (trim : nat → nat) (sha256_hex : text → string) (py_repr : json → string).

Definition _entry_facts (record : dict) : facts :=
  {| fact_user := match jget "user" record with JStr s => Some (t_of s) | _ => None end;
     fact_company_id := id_or_empty (jget "company_id" record);
     fact_audience := match jget "audience" record with
                      | JStr s => if bool_decide (s ∈ AUDIENCES) then Some s else None
                      | _ => None
                      end;
     fact_handle_id := id_or_empty (jget "handle_id" record) |}.

Definition resolve_cold_outcome (handle : text)
  : M cap_store (option ColdBinding * option string * facts) :=
  match handle with
  | [] => mret (None, Some "no_handle", no_facts)
  | _ =>
      raw ← aget (_KEY_PREFIX ++ handle)%list;
      match raw with
      | None => mret (None, Some "no_entry", no_facts)
      | Some raw =>
          v ← lift (load_entry raw);
          match v with
          | Some (JDict record) =>
              let fs := _entry_facts record in
              if negb (names AUDIENCE_COLD record) then mret (None, Some "wrong_audience", fs)
              else match id_or_empty (jget "company_id" record) with
                   | None => mret (None, Some "malformed_entry", fs)
                   | Some company =>
                       suspended ← aget (_SUSPENDED_PREFIX ++ t_of company)%list;
                       match suspended with
                       | Some _ => mret (None, Some "tenant_suspended", fs)
                       | None => mret (Some {| user := t_of (py_str py_repr (user_of record)); company_id := company;
                                               handle_id := fact_handle_id fs |}, None, fs)
                       end
                   end
          | _ => mret (None, Some "malformed_entry", no_facts)
          end
      end
  end.

Definition resolve_cold_binding (handle : text) : M cap_store (option ColdBinding) :=
  o ← resolve_cold_outcome handle; mret o.1.1.

Definition record_resolution (handle : text) (binding : option ColdBinding) (reason : option string)
  (fs : facts) (source : option string) : M cap_store unit :=
  t ← gets SqlBinding.now;
  match binding with
  | Some b =>
      match handle_id b with
      | None => mret tt
      | Some h =>
          e ← lift (event (use_event PLANE (user b) (company_id b) AUDIENCE_COLD h) t);
          call ← lift (first_use_script_args e);
          _ ← seval trim call; mret tt
      end
  | None =>
      call ← lift (refusal sha256_hex PLANE handle (default "" reason) fs source t);
      _ ← seval trim call; mret tt
  end.

(** [tenant_prefix], [owns_key] and [scope_key]: the tenancy module's, under the
    tenant's cold prefix. *)
Definition tenant_prefix (company : string) : res string := cold_key_prefix company.
Definition owns_key (company key : string) : res bool :=
  p ← tenant_prefix company; Ok (Tenancy.owns_key p (Some key) false).
Definition scope_key (company path : string) : res string := p ← tenant_prefix company; Tenancy.scope_key p (Some path).
End cold.
