(* ===== verification/TrackingPolicy.v ===== *)
(** * The tracking gateway's policy: services/notebook_tracking_gateway/policy.py

    Its copy of the handle contract, recording an outcome and consuming an
    upload handle (gateway.py), and the tenant's names and artifact keys. *)

From stdpp Require Import base strings list gmap.
From Stdlib Require Import ZArith Lia.
From S2P Require Import Prelude PyText PyJson Tenancy CapabilityAudit SqlBinding HubCapabilities ApiCapabilities.

Local Open Scope string_scope.

#[local] Arguments uuid_str : simpl never.
#[local] Arguments uuid_parse : simpl never.
#[local] Arguments t_of : simpl never.
#[local] Arguments clean_text : simpl never.

Definition AUDIENCE_TRACKING : string := "tracking".
Definition AUDIENCE_UPLOAD : string := "upload".
Definition _PLANE : string := "tracking_gateway".
Definition _KEY_PREFIX : text := t_of "nbcap:".
Definition _SUSPENDED_PREFIX : text := t_of "nbcap-suspended:".

(** [user] is what the entry holds, as it is. *)
Record TrackingBinding := { user : json; company_id : string; audience : string; handle_id : option string }.

Section tracking.
Context `{J : JsonCodec} `{I : IsoCodec}.
Context (trim : nat → nat) (sha256_hex : text → string) (py_repr : json → string).

Definition entry_facts (record : dict) : facts :=
  {| fact_user := match jget "user" record with JStr s => Some (t_of s) | _ => None end;
     fact_company_id := id_or_empty (jget "company_id" record);
     fact_audience := match jget "audience" record with
                      | JStr s => if bool_decide (s ∈ AUDIENCES) then Some s else None
                      | _ => None
                      end;
     fact_handle_id := id_or_empty (jget "handle_id" record) |}.

Definition _resolve_outcome (handle : text) (expected_audience : string)
  : M cap_store (option TrackingBinding * option string * facts) :=
  match handle with
  | [] => mret (None, Some "no_handle", no_facts)
  | _ =>
      raw ← aget (_KEY_PREFIX ++ handle)%list;
      match raw with
      | None => mret (None, Some "no_entry", no_facts)
      | Some raw =>
          v ← lift (load_entry raw);
          match v with
          | Some (JDict record) =>
              let fs := entry_facts record in
              if negb (names expected_audience record) then mret (None, Some "wrong_audience", fs)
              else match id_or_empty (jget "company_id" record) with
                   | None => mret (None, Some "malformed_entry", fs)
                   | Some company =>
                       suspended ← aget (_SUSPENDED_PREFIX ++ t_of company)%list;
                       match suspended with
                       | Some _ => mret (None, Some "tenant_suspended", fs)
                       | None => mret (Some {| user := user_of record; company_id := company;
                                               audience := expected_audience; handle_id := fact_handle_id fs |}, None, fs)
                       end
                   end
          | _ => mret (None, Some "malformed_entry", no_facts)
          end
      end
  end.

Definition resolve_tracking_outcome (handle : text) := _resolve_outcome handle AUDIENCE_TRACKING.
Definition resolve_upload_outcome (handle : text) := _resolve_outcome handle AUDIENCE_UPLOAD.
Definition resolve_tracking_binding (handle : text) : M cap_store (option TrackingBinding) :=
  o ← resolve_tracking_outcome handle; mret o.1.1.
Definition resolve_upload_binding (handle : text) : M cap_store (option TrackingBinding) :=
  o ← resolve_upload_outcome handle; mret o.1.1.

(** [user=binding.user]: None omits the field, anything else is its [str]. *)
Definition shown (v : json) : option text := match v with JNull => None | v => Some (t_of (py_str py_repr v)) end.

Definition record_resolution (handle : text) (outcome : option TrackingBinding * option string * facts)
  (source : option string) : M cap_store unit :=
  t ← gets SqlBinding.now;
  let '(binding, reason, fs) := outcome in
  match binding with
  | Some b =>
      match handle_id b with
      | None => mret tt
      | Some h =>
          e ← lift (event {| a_kind := "first_use"; a_plane := _PLANE; a_user := shown (user b);
                             a_company_id := Some (company_id b); a_audience := Some (audience b);
                             a_handle_id := Some h; a_digest := None; a_reason := None; a_detail := None |} t);
          call ← lift (first_use_script_args e);
          _ ← seval trim call; mret tt
      end
  | None =>
      call ← lift (refusal sha256_hex _PLANE handle (default "" reason) fs source t);
      _ ← seval trim call; mret tt
  end.

(** The atomic claim of an upload handle, on the hub's store. *)
Definition consume_upload_handle (handle : string) (b : TrackingBinding) : M hub bool :=
  t ← gets now;
  e ← lift (event {| a_kind := "consumed"; a_plane := _PLANE; a_user := shown (user b);
                     a_company_id := Some (company_id b); a_audience := Some (audience b);
                     a_handle_id := handle_id b; a_digest := None; a_reason := None; a_detail := None |} t);
  c ← lift (delete_recorded_args (_key handle) e);
  n ← store_eval c;
  mret (Z.eqb n 1).

Definition tenant_prefix (company : string) : res string := mlflow_name_prefix company.
Definition qualify_name (company name : string) : res string := p ← tenant_prefix company; Ok (Tenancy.qualify_name p name).
Definition owns_name (company qualified : string) : res bool :=
  p ← tenant_prefix company; Ok (match owned_name p (Some qualified) with Some _ => true | None => false end).
Definition unqualify_name (company qualified : string) : res (option string) :=
  p ← tenant_prefix company; Ok (owned_name p (Some qualified)).
Definition artifact_prefix (company : string) : res string := mlflow_artifact_prefix company.
Definition owns_artifact_key (company key : string) : res bool :=
  p ← artifact_prefix company; Ok (Tenancy.owns_key p (Some key) true).
Definition scope_artifact_key (company key : string) : res string :=
  p ← artifact_prefix company; Tenancy.scope_key p (Some key).
End tracking.
