(* ===== verification/PlaneCapabilities.v ===== *)
(** * The capability planes: one contract, four verifiers

    The four copies of the handle contract agree, and resolve what the hub
    mints; signing a user out ends what was minted. *)

From stdpp Require Import base strings list gmap.
From Stdlib Require Import ZArith Lia.
From S2P Require Import Prelude PyText PyJson Tenancy CapabilityAudit SqlBinding HubCapabilities ApiCapabilities ColdBroker TrackingPolicy.

Local Open Scope string_scope.

#[local] Arguments uuid_str : simpl never.
#[local] Arguments uuid_parse : simpl never.
#[local] Arguments t_of : simpl never.
#[local] Arguments clean_text : simpl never.

(** ** The copies agree *)

Section agree.
Context `{J : JsonCodec} `{I : IsoCodec}.
Context (py_repr : json → string).

(** What a plane learns of a handle: the user, the tenant, the identifier, or
    why not. *)
Definition learned {A U} (user : A → U) (company : A → string) (hid : A → option string)
    (o : res (option A * option string * facts) * cap_store) :
    res (option (U * string * option string) * option string * facts) * cap_store :=
  match o with
  | (Ok (b, reason, fs), s) => (Ok ((λ b, (user b, company b, hid b)) <$> b, reason, fs), s)
  | (Err e, s) => (Err e, s)
  end.

Abbreviation at_api expected handle s := (learned ApiCapabilities.user ApiCapabilities.company_id ApiCapabilities.handle_id
  (ApiCapabilities.resolve_capability_outcome py_repr expected handle s)).

(** *** The contract

    What a handle is good for at a plane that expects an audience: the entry it
    was minted with, of a tenant that is not suspended, its company and its
    identifier; or the reason it is refused, with what the entry named. *)
Definition contract (expected : string) (handle : text) : M cap_store (option (dict * string * option string) * option string * facts) :=
  if bool_decide (handle = []) then mret (None, Some "no_handle", no_facts) else
  raw ← aget (t_of HubCapabilities._KEY_PREFIX ++ handle)%list;
  match raw with
  | None => mret (None, Some "no_entry", no_facts)
  | Some raw =>
      v ← lift (load_entry raw);
      match v with
      | Some (JDict record) =>
          let fs := ApiCapabilities._entry_facts record in
          if negb (names expected record) then mret (None, Some "wrong_audience", fs) else
          match id_or_empty (jget "company_id" record) with
          | None => mret (None, Some "malformed_entry", fs)
          | Some company =>
              suspended ← aget (t_of HubCapabilities._SUSPENDED_PREFIX ++ t_of company)%list;
              mret match suspended with
                   | Some _ => (None, Some "tenant_suspended", fs)
                   | None => (Some (record, company, fact_handle_id fs), None, fs)
                   end
          end
      | _ => mret (None, Some "malformed_entry", no_facts)
      end
  end.

(** [record.get("user", "")] and [bool(record.get("read_only", True))]. *)
Definition entry_user (record : dict) : json := default (JStr "") (dict_lookup "user" record).
Definition entry_read_only (record : dict) : bool := default true (truthy <$> dict_lookup "read_only" record).

Definition api_binding (expected : string) (g : dict * string * option string) : CapabilityBinding :=
  {| ApiCapabilities.user := t_of (py_str py_repr (entry_user g.1.1)); ApiCapabilities.company_id := g.1.2;
     ApiCapabilities.audience := expected; ApiCapabilities.read_only := entry_read_only g.1.1; ApiCapabilities.handle_id := g.2 |}.
Definition sql_binding (g : dict * string * option string) : SqlBinding :=
  {| SqlBinding.user := t_of (py_str py_repr (entry_user g.1.1)); SqlBinding.company_id := g.1.2;
     SqlBinding.read_only := entry_read_only g.1.1; SqlBinding.handle_id := g.2 |}.
Definition cold_binding (g : dict * string * option string) : ColdBinding :=
  {| ColdBroker.user := t_of (py_str py_repr (entry_user g.1.1)); ColdBroker.company_id := g.1.2; ColdBroker.handle_id := g.2 |}.
Definition tracking_binding (expected : string) (g : dict * string * option string) : TrackingBinding :=
  {| TrackingPolicy.user := entry_user g.1.1; TrackingPolicy.company_id := g.1.2; TrackingPolicy.audience := expected;
     TrackingPolicy.handle_id := g.2 |}.

(** The outcome of a plane whose bindings [f] makes. *)
Definition bound_as {A B} (f : A → B) (o : res (option A * option string * facts) * cap_store) :
    res (option B * option string * facts) * cap_store :=
  match o with
  | (Ok (b, reason, fs), s) => (Ok (f <$> b, reason, fs), s)
  | (Err e, s) => (Err e, s)
  end.

Lemma learned_as {A B U} (f : A → B) (user : B → U) company hid o :
  learned user company hid (bound_as f o) = learned (user ∘ f) (company ∘ f) (hid ∘ f) o.
Proof. destruct o as [[[[b reason] fs]|e] s]; [|done]. cbn. by destruct b. Qed.

Lemma planes_contract expected handle s :
  ApiCapabilities.resolve_capability_outcome py_repr expected handle s = bound_as (api_binding expected) (contract expected handle s) ∧
  resolve_sql_outcome py_repr handle s = bound_as sql_binding (contract AUDIENCE_SQL handle s) ∧
  ColdBroker.resolve_cold_outcome py_repr handle s = bound_as cold_binding (contract ColdBroker.AUDIENCE_COLD handle s) ∧
  TrackingPolicy._resolve_outcome handle expected s = bound_as (tracking_binding expected) (contract expected handle s).
Proof.
  destruct handle as [|c handle]; [done|]. unfold contract. rewrite bool_decide_eq_false_2 by done.
  unfold resolve_sql_outcome, ColdBroker.resolve_cold_outcome, TrackingPolicy._resolve_outcome, ApiCapabilities.resolve_capability_outcome.
  unfold ApiCapabilities._KEY_PREFIX, ColdBroker._KEY_PREFIX, TrackingPolicy._KEY_PREFIX, entry_key, SqlBinding._KEY_PREFIX, HubCapabilities._KEY_PREFIX.
  unfold mbind, M_bind. destruct (aget _ s) as [[[raw|]|e] s1]; [|done..].
  unfold lift. destruct (load_entry raw) as [[[| | | | | |record]|]|e]; try done.
  unfold names_audience. change SqlBinding._entry_facts with ApiCapabilities._entry_facts. fold (names AUDIENCE_SQL record).
  change ColdBroker._entry_facts with ApiCapabilities._entry_facts. change TrackingPolicy.entry_facts with ApiCapabilities._entry_facts.
  unfold SqlBinding.suspended_key, SqlBinding._SUSPENDED_PREFIX, ApiCapabilities.suspended_key, ApiCapabilities.SUSPENDED_PREFIX,
    HubCapabilities._SUSPENDED_PREFIX, ColdBroker._SUSPENDED_PREFIX, TrackingPolicy._SUSPENDED_PREFIX.
  assert (user_of record = entry_user record) as Hu by (unfold user_of, entry_user; by destruct (dict_lookup "user" record)).
  assert (match dict_lookup "read_only" record with Some v => truthy v | None => true end = entry_read_only record) as Hr
    by (unfold entry_read_only; by destruct (dict_lookup "read_only" record)).
  split_and!.
  - destruct (negb (names expected record)); [done|]. destruct (id_or_empty _) as [company|]; [|done].
    destruct (aget _ s1) as [[[x|]|e] s2]; [done| |done]. cbn. unfold api_binding. by rewrite Hu, Hr.
  - destruct (negb (names AUDIENCE_SQL record)); [done|]. destruct (id_or_empty _) as [company|]; [|done].
    destruct (aget _ s1) as [[[x|]|e] s2]; [done| |done]. cbn. unfold sql_binding, granted, entry_user. cbn. rewrite Hr.
    by destruct (dict_lookup "user" record).
  - destruct (negb (names ColdBroker.AUDIENCE_COLD record)); [done|]. destruct (id_or_empty _) as [company|]; [|done].
    destruct (aget _ s1) as [[[x|]|e] s2]; [done| |done]. cbn. unfold cold_binding. by rewrite Hu.
  - destruct (negb (names expected record)); [done|]. destruct (id_or_empty _) as [company|]; [|done].
    destruct (aget _ s1) as [[[x|]|e] s2]; [done| |done]. cbn. unfold tracking_binding. by rewrite Hu.
Qed.

(** C35: the four copies of the handle contract are one: for every handle,
    store and interference, the data API, the SQL proxy, the cold broker and the
    tracking gateway each answer what [contract] says for the audience they
    expect, by the same reads, with the same refusals and the same facts.  They
    differ in what they keep of a granted entry, and in nothing else: the API
    and the SQL proxy its user as text and whether it is read-only, the cold
    broker its user as text, and the tracking gateway its user as the entry has
    it, text or not. *)
Theorem planes_agree expected handle s :
  ApiCapabilities.resolve_capability_outcome py_repr expected handle s = bound_as (api_binding expected) (contract expected handle s) ∧
  resolve_sql_outcome py_repr handle s = bound_as sql_binding (contract AUDIENCE_SQL handle s) ∧
  ColdBroker.resolve_cold_outcome py_repr handle s = bound_as cold_binding (contract ColdBroker.AUDIENCE_COLD handle s) ∧
  TrackingPolicy._resolve_outcome handle expected s = bound_as (tracking_binding expected) (contract expected handle s).
Proof. apply planes_contract. Qed.

(** ** What the hub mints, the planes resolve *)

Lemma t_of_app a b : t_of (a +:+ b) = (t_of a ++ t_of b)%list.
Proof. induction a as [|c a IH]; [done|]. exact (f_equal (cons (code c)) IH). Qed.

Lemma canonical_id c : canonical c → c ≠ "" → id_or_empty (JStr c) = Some c.
Proof.
  intros Hc Hne. unfold id_or_empty. cbn [truthy json_uuid]. rewrite bool_decide_eq_false_2 by done. cbn [negb].
  unfold canonical, canonical_company_id in Hc. destruct (uuid_parse c); cbn in *; congruence.
Qed.

Lemma mint_ok user company audience ttl server s h s' : mint user company audience ttl server s = (Ok h, s') →
  audience ∈ _AUDIENCES ∧ user ≠ "" ∧ company ≠ "" ∧
  ∃ x e t, event (hub_event "minted" (Some user) (Some company) (Some audience) (Some (uuid_str (x mod uuid_bound)))
                    None ((λ s, "server=" +:+ s) <$> server)) t = Ok e ∧
    values (db s') !! _key h =
      Some (json_dumps (entry user company audience (uuid_str (x mod uuid_bound))), in_seconds (now s') ttl) ∧
    e ∈ appended (db s').
Proof.
  unfold mint. destruct (negb _) eqn:Ha; [done|]. destruct (_ || _) eqn:Hu; [done|]. bool_hyps.
  intros (susp & s1 & _ & Hrun)%bind_inv_ok. destruct susp; [done|].
  apply bind_inv_ok in Hrun as (h' & s2 & _ & Hrun). apply bind_inv_ok in Hrun as (hid & s3 & Hid & Hrun).
  apply bind_inv_ok in Hrun as (t & s4 & Ht & Hrun). apply bind_inv_ok in Hrun as (e & s5 & He & Hrun).
  apply bind_inv_ok in Hrun as ([] & s6 & Hr & Hrun). injection Hrun as <- <-.
  apply lift_inv in He as [He ->]. apply redis_ok in Hr as [_ ->].
  unfold new_handle_id in Hid. destruct (ids s2) as [|x l]; [done|]. injection Hid as <- <-.
  split_and!; [done..|]. exists x, e, t. split; [exact He|]. cbn. rewrite lookup_insert_eq. split; [done | set_solver].
Qed.

Definition minted_facts (user company audience hid : string) : facts :=
  {| fact_user := Some (t_of user); fact_company_id := Some company; fact_audience := Some audience;
     fact_handle_id := Some hid |}.

Lemma aget_still k (cs : cap_store) : SqlBinding.steps cs = [] → aget k cs = (Ok (entries cs !! k), log_read k (entries cs !! k) cs).
Proof. intros H. unfold aget, mbind, M_bind, next_step. rewrite H. done. Qed.

(** The entry the hub writes. *)
Definition minted_entry (user company audience hid : string) : dict :=
  [("user", JStr user); ("company_id", JStr company); ("audience", JStr audience);
   ("read_only", JBool (bool_decide (audience ∈ _READ_ONLY_AUDIENCES))); ("handle_id", JStr hid)].

(** An entry that lives, of a tenant that is not suspended, is granted at the planes of its audience. *)
Lemma entry_granted user company audience hid h expected cs : audience ∈ AUDIENCES → canonical company → company ≠ "" →
  (∃ x, uuid_parse hid = Some x ∧ hid = uuid_str x) → h ≠ "" → SqlBinding.steps cs = [] →
  entries cs !! t_of (_key h) = Some (json_dumps (entry user company audience hid)) →
  entries cs !! ApiCapabilities.suspended_key company = None →
  (contract expected (t_of h) cs).1 =
  Ok (if bool_decide (expected = audience) then (Some (minted_entry user company audience hid, company, Some hid), None, minted_facts user company audience hid)
      else (None, Some "wrong_audience", minted_facts user company audience hid)).
Proof.
  intros Ha Hc Hco (x & Hp & Hx) Hne Hst Hk Hs.
  assert (t_of h ≠ []) as Hth by (by destruct h).
  assert (ApiCapabilities._KEY_PREFIX ++ t_of h = t_of (_key h))%list as Ek by (unfold _key; by rewrite t_of_app).
  assert (id_or_empty (JStr company) = Some company) as Hcid by (by apply canonical_id).
  assert (ApiCapabilities._entry_facts (minted_entry user company audience hid)
          = minted_facts user company audience hid) as Hfacts.
  { unfold ApiCapabilities._entry_facts, minted_facts.
    change (jget "user" _) with (JStr user). change (jget "company_id" _) with (JStr company).
    change (jget "audience" _) with (JStr audience). change (jget "handle_id" _) with (JStr hid).
    rewrite Hcid. f_equal.
    - by rewrite bool_decide_eq_true_2.
    - apply canonical_id; [|by intros ->]. unfold canonical, canonical_company_id. rewrite Hp. simpl. by rewrite <- Hx. }
  unfold contract. rewrite bool_decide_eq_false_2 by done. change (t_of HubCapabilities._KEY_PREFIX) with ApiCapabilities._KEY_PREFIX.
  rewrite Ek. unfold mbind, M_bind. rewrite aget_still, Hk by done.
  unfold lift, load_entry. rewrite loads_dumps by done. cbn [entry]. fold (minted_entry user company audience hid).
  rewrite Hfacts. change (jget "company_id" _) with (JStr company). rewrite Hcid.
  assert (∀ d, jget "audience" d = JStr audience → names expected d = bool_decide (expected = audience)) as Hn.
  { intros d Hd. unfold names. rewrite Hd. by apply bool_decide_ext. }
  rewrite Hn by done. case_bool_decide as Hexp; [|done]. cbn [negb]. rewrite aget_still by done. cbn [log_read entries].
  change (t_of HubCapabilities._SUSPENDED_PREFIX ++ t_of company)%list with (ApiCapabilities.suspended_key company).
  rewrite Hs. by subst expected.
Qed.

Lemma entry_resolves user company audience hid h expected cs : audience ∈ AUDIENCES → canonical company → company ≠ "" →
  (∃ x, uuid_parse hid = Some x ∧ hid = uuid_str x) → h ≠ "" → SqlBinding.steps cs = [] →
  entries cs !! t_of (_key h) = Some (json_dumps (entry user company audience hid)) →
  entries cs !! ApiCapabilities.suspended_key company = None →
  (at_api expected (t_of h) cs).1 =
  Ok (if bool_decide (expected = audience) then (Some (t_of user, company, Some hid), None, minted_facts user company audience hid)
      else (None, Some "wrong_audience", minted_facts user company audience hid)).
Proof.
  intros. pose proof (entry_granted user company audience hid h expected cs) as H'. specialize (H' ltac:(done) ltac:(done) ltac:(done) ltac:(done) ltac:(done) ltac:(done) ltac:(done) ltac:(done)).
  destruct (planes_contract expected (t_of h) cs) as (-> & _). rewrite learned_as. destruct (contract _ _ cs) as [o s']. cbn in H'. subst o.
  by case_bool_decide.
Qed.

(** C33: minter and verifiers agree: a handle the hub minted resolves, for as
    long as its entry lives and its tenant is not suspended, at every plane
    that expects its audience, to the user and tenant it was minted for and the
    handle id its minted event names; at every other plane it is refused as of
    the wrong audience. *)
Theorem minted_handle_resolves user company audience ttl server s h s' :
  canonical company → h ≠ "" → mint user company audience ttl server s = (Ok h, s') →
  ∃ hid e, e ∈ appended (db s') ∧ field "handle_id" e = Some (t_of hid) ∧
  ∀ t expected cs, SqlBinding.steps cs = [] → (now s' ≤ t < now s' + ttl * 1000000)%Z →
    entries cs !! t_of (_key h) = vget t (_key h) (db s') → entries cs !! ApiCapabilities.suspended_key company = None →
    (at_api expected (t_of h) cs).1 =
    Ok (if bool_decide (expected = audience) then (Some (t_of user, company, Some hid), None, minted_facts user company audience hid)
        else (None, Some "wrong_audience", minted_facts user company audience hid)).
Proof.
  intros Hc Hne Hm. apply mint_ok in Hm as (Ha & Hu & Hco & x & e & t0 & He & Hv & Hin).
  set (hid := uuid_str (x mod uuid_bound)) in *.
  assert (∃ u, uuid_parse hid = Some u ∧ hid = uuid_str u) as Hid
    by (exists (x mod uuid_bound)%Z; split; [apply uuid_parse_str; by apply Z.mod_pos_bound | done]).
  destruct (minted_event_names _ _ _ _ _ _ _ He Hid) as (u' & c' & a' & hid' & c & Hl & _ & _ & Hf & _).
  rewrite loads_dumps in Hl by done. injection Hl as _ _ _ _ Eh. exists hid, e. split; [done|]. split; [congruence|].
  intros t expected cs Hst Ht Hk Hs. apply entry_resolves; try done.
  - unfold AUDIENCES, _AUDIENCES in *. set_solver.
  - rewrite Hk. unfold vget. rewrite Hv. cbn. by destruct (Z.ltb_spec t (now s' + ttl * 1000000)); [|lia].
Qed.


(** ** Signing a user out *)

Lemma shrinks_smembers k : respects shrinks (redis (ApiCapabilities.db_smembers k)).
Proof. by apply redis_shrinks. Qed.

Lemma shrinks_api_revoke_each uid hs : respects shrinks (ApiCapabilities.revoke_each uid hs).
Proof.
  induction hs as [|h hs IH]; cbn [ApiCapabilities.revoke_each]; unfold store_eval; shrinking_calls ltac:(apply shrinks_get).
Qed.

Lemma api_revoke_each_gone uid hs s n s' : Forall removing (steps s) → ApiCapabilities.revoke_each uid hs s = (Ok n, s') →
  ∀ h, h ∈ hs → vget (now s') (_key h) (db s') = None.
Proof.
  revert s n. induction hs as [|h0 hs IH]; intros s n Hs Hrun h Hh; [by apply elem_of_nil in Hh|].
  cbn [ApiCapabilities.revoke_each] in Hrun. apply bind_inv_ok in Hrun as (raw & s1 & H1 & Hrun).
  apply bind_inv_ok in Hrun as (fs & s2 & H2 & Hrun). apply lift_inv in H2 as [_ ->].
  apply bind_inv_ok in Hrun as (t & s3 & H3 & Hrun). injection H3 as _ <-.
  apply bind_inv_ok in Hrun as (e & s4 & H4 & Hrun). apply lift_inv in H4 as [_ ->].
  apply bind_inv_ok in Hrun as (c & s5 & H5 & Hrun). apply lift_inv in H5 as [H5%delete_args_key ->]. subst c.
  apply bind_inv_ok in Hrun as (k & s6 & H6 & Hrun). apply bind_inv_ok in Hrun as (m & s7 & H7 & Hrun).
  injection Hrun as <- <-. cbn [store_eval] in H6.
  pose proof (removing_after _ _ _ _ (shrinks_get _) H1 Hs) as Hs1.
  pose proof (removing_after _ _ _ _ (shrinks_revoked _ _) H6 Hs1) as Hs6.
  apply elem_of_cons in Hh as [->|Hh]; [|by apply (IH s6 m)].
  eapply gone_stays in H7; [apply H7 | apply shrinks_api_revoke_each | done |].
  apply redis_ok in H6 as [_ ->]. apply vget_revoked.
Qed.

(** What a sign-out lists is gone; a handle live at its end was live, with the
    same entry, before, and when the upload index was read. *)
Lemma signed_out_handles uid s n s' :
  Forall removing (steps s) → ApiCapabilities.revoke_user_capabilities uid s = (Ok n, s') →
  ∃ l uploads s1 s2, redis (db_items (ApiCapabilities._USER_INDEX_PREFIX +:+ uid)) s = (Ok l, s1) ∧
    redis (ApiCapabilities.db_smembers (ApiCapabilities._UPLOAD_INDEX_PREFIX +:+ uid)) s1 = (Ok uploads, s2) ∧
    (∀ h, h ∈ l.*1 ∨ h ∈ uploads → vget (now s') (_key h) (db s') = None) ∧
    (∀ k v, vget (now s') k (db s') = Some v → vget (now s2) k (db s2) = Some v ∧ vget (now s) k (db s) = Some v).
Proof.
  intros Hs Hrun. unfold ApiCapabilities.revoke_user_capabilities in Hrun.
  apply bind_inv_ok in Hrun as (l & s1 & H1 & Hrun). apply bind_inv_ok in Hrun as (uploads & s2 & H2 & Hrun).
  exists l, uploads, s1, s2. split; [done|]. split; [done|].
  destruct (shrinks_items (ApiCapabilities._USER_INDEX_PREFIX +:+ uid) s Hs) as (Hs1 & _ & K1). unfold final in Hs1, K1. rewrite H1 in Hs1, K1.
  destruct (shrinks_smembers (ApiCapabilities._UPLOAD_INDEX_PREFIX +:+ uid) s1 Hs1) as (Hs2 & _ & K2). unfold final in Hs2, K2. rewrite H2 in Hs2, K2.
  match type of Hrun with ?m s2 = _ => assert (respects shrinks m) as Hrest end.
  { shrinking_calls ltac:(apply shrinks_api_revoke_each). }
  destruct (Hrest s2 Hs2) as (_ & _ & K3). unfold final in K3. rewrite Hrun in K3. simpl in *.
  split; [|intros k v Hv%K3; split; [exact Hv | by apply K1, K2]].
  apply bind_inv_ok in Hrun as (m & s3 & H3 & Hrun). apply bind_inv_ok in Hrun as ([] & s4 & H4 & Hrun).
  injection Hrun as <- <-. pose proof (removing_after _ _ _ _ (shrinks_api_revoke_each _ _) H3 Hs2) as Hs3.
  intros h Hh. eapply gone_stays in H4; [apply H4 | apply shrinks_delete | done |].
  eapply api_revoke_each_gone; [exact Hs2 | exact H3 |]. by apply elem_of_app.
Qed.

(** C34: signing a user out ends their capabilities: when
    [revoke_user_capabilities] returns, no handle that either index listed for
    the user (the hub's, and the upload minter's) is live, and no value has
    appeared; however the others' removals interleave. *)
Theorem signed_out_user_has_no_handle uid s n s' :
  Forall removing (steps s) → ApiCapabilities.revoke_user_capabilities uid s = (Ok n, s') →
  ∃ l uploads s1 s2, redis (db_items (ApiCapabilities._USER_INDEX_PREFIX +:+ uid)) s = (Ok l, s1) ∧
    redis (ApiCapabilities.db_smembers (ApiCapabilities._UPLOAD_INDEX_PREFIX +:+ uid)) s1 = (Ok uploads, s2) ∧
    (∀ h, h ∈ l.*1 ∨ h ∈ uploads → vget (now s') (_key h) (db s') = None) ∧
    (∀ k v, vget (now s') k (db s') = Some v → vget (now s) k (db s) = Some v).
Proof.
  intros Hs Hrun. destruct (signed_out_handles _ _ _ _ Hs Hrun) as (l & uploads & s1 & s2 & H1 & H2 & Hg & Hk).
  exists l, uploads, s1, s2. split_and!; try done. intros k v Hv. by apply Hk.
Qed.
End agree.

(** ** On a concrete store *)

#[local] Existing Instance decoded_codec.
#[local] Existing Instance hex_iso.

Definition w_tenant : string := "6ba7b810-9dad-11d1-80b4-00c04fd430c8".
Definition w_hub : hub :=
  {| db := {| values := ∅; hashes := ∅; sets := ∅; appended := [] |}; now := 0; tokens := ["h1"; "h2"]; ids := [1; 2]%Z; steps := [] |}.
Definition w_minted : hub := (mint "ann" w_tenant "sql" 600 (Some "srv") w_hub).2.

Lemma minted_handle_resolves_witness :
  ∃ hid e, e ∈ appended (db w_minted) ∧ field "handle_id" e = Some (t_of hid) ∧
  ∀ t expected cs, SqlBinding.steps cs = [] → (now w_minted ≤ t < now w_minted + 600 * 1000000)%Z →
    entries cs !! t_of (_key "h1") = vget t (_key "h1") (db w_minted) → entries cs !! ApiCapabilities.suspended_key w_tenant = None →
    (learned ApiCapabilities.user ApiCapabilities.company_id ApiCapabilities.handle_id (ApiCapabilities.resolve_capability_outcome (λ _, "") expected (t_of "h1") cs)).1 =
    Ok (if bool_decide (expected = "sql") then (Some (t_of "ann", w_tenant, Some hid), None, minted_facts "ann" w_tenant "sql" hid)
        else (None, Some "wrong_audience", minted_facts "ann" w_tenant "sql" hid)).
Proof.
  apply (minted_handle_resolves (λ _, "") "ann" w_tenant "sql" 600 (Some "srv") w_hub "h1" w_minted); vm_compute; done.
Defined.

Definition w_calls : list hub_call := [Mint "ann" w_tenant "sql" 600 (Some "srv")].
Definition w_entry : bytes := json_dumps (entry "ann" w_tenant "sql" (uuid_str 1)).
Definition w_run : hub := hub_run (λ _, "") w_calls w_hub.

Lemma stored_handles_recorded_witness : ∃ f, f ∈ appended (db w_run) ∧ minted_for w_entry f.
Proof.
  refine (stored_handles_recorded (λ _, "") w_calls w_hub "h1" w_entry (Some 600000000%Z) _ _ _).
  - intros h v exp Hk. cbn [w_hub db values] in Hk. by rewrite lookup_empty in Hk.
  - constructor.
  - by vm_compute.
Defined.

(** Revoking the server, refreshing it, and signing the user out; the hub's
    handle "h1" is live before, and an upload handle too. *)
Lemma revoked_server_has_no_handle_witness :
  ∃ handles s1, _server_handles "ann" "srv" w_run = (Ok handles, s1) ∧ 1%nat = length handles ∧
    (∀ h, h ∈ handles → vget (now (revoke_server "ann" "srv" "respawn" w_run).2) (_key h) (db (revoke_server "ann" "srv" "respawn" w_run).2) = None) ∧
    (∀ k v, vget (now (revoke_server "ann" "srv" "respawn" w_run).2) k (db (revoke_server "ann" "srv" "respawn" w_run).2) = Some v →
       vget (now w_run) k (db w_run) = Some v).
Proof.
  apply (revoked_server_has_no_handle "ann" "srv" "respawn" w_run 1); [constructor | by vm_compute].
Defined.

(** An entry whose user is null: the API's user is a text, the gateway's is not. *)
Definition w_null_user : dict := [("user", JNull); ("company_id", JStr w_tenant); ("audience", JStr AUDIENCE_TRACKING)].
Definition w_null_store : cap_store :=
  Build_cap_store {[ t_of (_key "h1") := Ok (JDict w_null_user) ]} {| keys := ∅; stream := []; next_id := O |} 0 [] [] [].
Example null_user :
  (ApiCapabilities.user <$> match (ApiCapabilities.resolve_capability_outcome (λ _, "None") AUDIENCE_TRACKING (t_of "h1") w_null_store).1 with
                            | Ok (b, _, _) => b | Err _ => None end) = Some (t_of "None") ∧
  (TrackingPolicy.user <$> match (TrackingPolicy._resolve_outcome (t_of "h1") AUDIENCE_TRACKING w_null_store).1 with
                           | Ok (b, _, _) => b | Err _ => None end) = Some JNull.
Proof. split; vm_compute; reflexivity. Qed.

(** A refresh that finds the handle revoked meanwhile. *)
Definition w_revoked_meanwhile : hub :=
  {| db := db w_run; now := now w_run; tokens := []; ids := [];
     steps := [{| others := λ d, d; passes := 1; outcome_of := Runs |};
               {| others := λ d, with_values (delete (_key "h1")) d; passes := 1; outcome_of := Runs |}] |}.

Lemma w_removing : Forall removing (steps w_revoked_meanwhile).
Proof.
  repeat apply Forall_cons_2; [| |constructor]; (split; [done|]); intros d k; [by left|].
  cbn. destruct (decide (_key "h1" = k)) as [<-|]; [right; apply lookup_delete_eq | left; by apply lookup_delete_ne].
Qed.

Lemma refresh_never_revives_witness :
  let s' := (refresh_server "ann" "srv" 600 w_revoked_meanwhile).2 in
  (∀ k v, vget (now s') k (db s') = Some v → vget (now w_run) k (db w_run) = Some v) ∧
  (∃ handles s1, _server_handles "ann" "srv" w_revoked_meanwhile = (Ok handles, s1) ∧
     ∀ h, h ∈ handles → vget (now s') (_key h) (db s') = None).
Proof.
  intros s'. destruct (refresh_never_revives "ann" "srv" 600 w_revoked_meanwhile (Ok 0%nat) s' w_removing) as [H1 H2].
  - by vm_compute.
  - split; [exact H1 | by apply H2].
Defined.

Definition w_signed_out : hub := (ApiCapabilities.revoke_user_capabilities "ann" w_run).2.

Lemma signed_out_user_has_no_handle_witness :
  ∃ l uploads s1 s2, redis (db_items (ApiCapabilities._USER_INDEX_PREFIX +:+ "ann")) w_run = (Ok l, s1) ∧
    redis (ApiCapabilities.db_smembers (ApiCapabilities._UPLOAD_INDEX_PREFIX +:+ "ann")) s1 = (Ok uploads, s2) ∧
    (∀ h, h ∈ l.*1 ∨ h ∈ uploads → vget (now w_signed_out) (_key h) (db w_signed_out) = None) ∧
    (∀ k v, vget (now w_signed_out) k (db w_signed_out) = Some v → vget (now w_run) k (db w_run) = Some v).
Proof. apply (signed_out_user_has_no_handle "ann" w_run 1); [constructor | by vm_compute]. Defined.

(** The index is deleted whole: a handle the hub mints while the user is being
    signed out is live, and no longer listed, so that stopping its server
    revokes nothing. *)
Definition w_race : hub :=
  {| db := db w_run; now := now w_run; tokens := []; ids := [];
     steps := [{| others := λ d, d; passes := 1; outcome_of := Runs |};
               {| others := λ d, db (mint "ann" w_tenant "sql" 600 (Some "srv")
                                       {| db := d; now := 1; tokens := ["h2"]; ids := [2%Z]; steps := [] |}).2;
                  passes := 1; outcome_of := Runs |}] |}.
Definition w_raced : hub := (ApiCapabilities.revoke_user_capabilities "ann" w_race).2.
Definition w_stopped : hub := (revoke_server "ann" "srv" "server_stopped" w_raced).2.

Example minted_while_signing_out :
  vget (now w_stopped) (_key "h1") (db w_stopped) = None ∧
  is_Some (vget (now w_stopped) (_key "h2") (db w_stopped)) ∧
  (revoke_server "ann" "srv" "server_stopped" w_raced).1 = Ok 0%nat.
Proof. split_and!; [by vm_compute | vm_compute; by eexists | by vm_compute]. Qed.
