(* ===== verification/TrackingRoutes.v ===== *)
(** * The tracking gateway's routes: services/notebook_tracking_gateway

    Which MLflow routes are forwarded and the rule each is held to
    (routes.py), which fields of a message are tenant names (policy.py), and
    the scoping of requests and responses by them (scoping.py). *)

From stdpp Require Import base strings list.
From Stdlib Require Import ZArith Lia Ascii.
From S2P Require Import Prelude PyText PyNum PyJson Tenancy SqlBinding TrackingPolicy.

Local Open Scope string_scope.

#[local] Arguments uuid_str : simpl never.
#[local] Arguments uuid_parse : simpl never.

(** ** policy.py: names *)

(** The request fields and the response paths of an endpoint that hold tenant
    names. *)
Definition NAME_FIELDS : list (string * (list string * list string)) := [
  ("experiments/create", (["name"], []));
  ("experiments/get-by-name", (["experiment_name"], ["experiment.name"]));
  ("experiments/get", ([], ["experiment.name"]));
  ("experiments/update", (["new_name"], []));
  ("experiments/search", ([], ["experiments[].name"]));
  ("registered-models/create", (["name"], ["registered_model.name"]));
  ("registered-models/get", (["name"], ["registered_model.name"]));
  ("registered-models/search", ([], ["registered_models[].name"]));
  ("registered-models/update", (["name"], ["registered_model.name"]));
  ("registered-models/delete", (["name"], []));
  ("model-versions/create", (["name"], ["model_version.name"]));
  ("model-versions/get", (["name"], ["model_version.name"]));
  ("model-versions/search", ([], ["model_versions[].name"]));
  ("registered-models/rename", (["name"; "new_name"], ["registered_model.name"]));
  ("registered-models/set-tag", (["name"], []));
  ("registered-models/delete-tag", (["name"], []));
  ("registered-models/get-latest-versions", (["name"], ["model_versions[].name"]));
  ("registered-models/alias", (["name"], ["model_version.name"]));
  ("model-versions/update", (["name"], ["model_version.name"]));
  ("model-versions/delete", (["name"], []));
  ("model-versions/set-tag", (["name"], []));
  ("model-versions/delete-tag", (["name"], []));
  ("model-versions/transition-stage", (["name"], ["model_version.name"]));
  ("model-versions/get-download-uri", (["name"], []))].

Definition name_fields (endpoint : string) : list string * list string :=
  match List.find (λ r, bool_decide (r.1 = endpoint)) NAME_FIELDS with Some r => r.2 | None => ([], []) end.
Definition request_name_fields (endpoint : string) : list string := (name_fields endpoint).1.
Definition response_name_paths (endpoint : string) : list string := (name_fields endpoint).2.

Definition experiment_artifact_location (company nonce : string) : res string :=
  (λ p, "mlflow-artifacts:/" +:+ p +:+ nonce) <$> artifact_prefix company.

(** ** routes.py: the table *)

(** A route's rules, by the names the table gives them. *)
Inductive rule :=
  | experiment | run | runs | run_opt | logged_model | logged_model_opt
  | names | mv_source | create_experiment | filtered.

#[export] Instance rule_eq_dec : EqDecision rule.
Proof. solve_decision. Defined.

Record Route := { endpoint : string; rules : list rule }.

Definition _r (m e : string) (rs : list rule) : (string * string) * Route := ((m, e), {| endpoint := e; rules := rs |}).

Definition ROUTES : list ((string * string) * Route) := [
  _r "POST" "experiments/create" [create_experiment];
  _r "GET" "experiments/get" [experiment];
  _r "GET" "experiments/get-by-name" [names];
  _r "GET" "experiments/search" [filtered; names];
  _r "POST" "experiments/search" [filtered; names];
  _r "POST" "experiments/update" [experiment; names];
  _r "POST" "experiments/delete" [experiment];
  _r "POST" "experiments/restore" [experiment];
  _r "POST" "experiments/set-experiment-tag" [experiment];
  _r "POST" "experiments/delete-experiment-tag" [experiment];
  _r "POST" "runs/create" [experiment];
  _r "POST" "runs/search" [experiment];
  _r "GET" "runs/get" [run];
  _r "POST" "runs/update" [run];
  _r "POST" "runs/delete" [run];
  _r "POST" "runs/restore" [run];
  _r "POST" "runs/log-metric" [run];
  _r "POST" "runs/log-parameter" [run];
  _r "POST" "runs/log-batch" [run];
  _r "POST" "runs/log-inputs" [run];
  _r "POST" "runs/outputs" [run];
  _r "POST" "runs/log-model" [run];
  _r "POST" "runs/set-tag" [run];
  _r "POST" "runs/delete-tag" [run];
  _r "GET" "metrics/get-history" [run];
  _r "GET" "metrics/get-history-bulk-interval" [runs];
  _r "GET" "artifacts/list" [run];
  _r "POST" "logged-models" [experiment; run_opt];
  _r "POST" "logged-models/search" [experiment];
  _r "GET" "logged-models/{model_id}" [logged_model];
  _r "PATCH" "logged-models/{model_id}" [logged_model];
  _r "DELETE" "logged-models/{model_id}" [logged_model];
  _r "POST" "logged-models/{model_id}/params" [logged_model];
  _r "PATCH" "logged-models/{model_id}/tags" [logged_model];
  _r "DELETE" "logged-models/{model_id}/tags/{tag_key}" [logged_model];
  _r "GET" "logged-models/{model_id}/artifacts/directories" [logged_model];
  _r "POST" "registered-models/create" [names];
  _r "GET" "registered-models/get" [names];
  _r "GET" "registered-models/search" [filtered; names];
  _r "PATCH" "registered-models/update" [names];
  _r "DELETE" "registered-models/delete" [names];
  _r "POST" "registered-models/rename" [names];
  _r "POST" "registered-models/set-tag" [names];
  _r "DELETE" "registered-models/delete-tag" [names];
  _r "GET" "registered-models/get-latest-versions" [names];
  _r "POST" "registered-models/get-latest-versions" [names];
  _r "POST" "registered-models/alias" [names];
  _r "DELETE" "registered-models/alias" [names];
  _r "GET" "registered-models/alias" [names];
  _r "POST" "model-versions/create" [names; mv_source; run_opt; logged_model_opt];
  _r "GET" "model-versions/get" [names];
  _r "GET" "model-versions/search" [filtered; names];
  _r "PATCH" "model-versions/update" [names];
  _r "DELETE" "model-versions/delete" [names];
  _r "POST" "model-versions/set-tag" [names];
  _r "DELETE" "model-versions/delete-tag" [names];
  _r "POST" "model-versions/transition-stage" [names];
  _r "GET" "model-versions/get-download-uri" [names]].

(** ** routes.py: matching *)

Definition newline : string := String (ascii_of_nat 10) "".
Definition is_var (seg : string) : bool := startswith "{" seg.

(** [pattern.match(endpoint)] of [_compile(template)], on the segments of
    both.  [$] also matches before a last newline, which only a literal last
    segment leaves over. *)
Definition seg_match (t e : string) : bool := if is_var t then negb (bool_decide (e = "")) else bool_decide (e = t).
Fixpoint _compile (ts es : list string) : bool :=
  match ts, es with
  | [t], [e] => seg_match t e || negb (is_var t) && bool_decide (e = t +:+ newline)
  | t :: ts, e :: es => seg_match t e && _compile ts es
  | _, _ => false
  end.

Definition _PATTERNS : list ((string * string) * Route) := List.filter (λ r, str_has "{" r.1.2) ROUTES.

Definition path_args (route : Route) (e : string) : list string :=
  map snd (List.filter (λ p, is_var p.1) (zip (str_split "/" (endpoint route)) (str_split "/" e))).

Definition match_ (method e : string) : option (Route * list string) :=
  if negb (forallb plain_segment (str_split "/" e)) then None
  else match List.find (λ r, bool_decide (r.1 = (method, e))) ROUTES with
       | Some r => Some (r.2, [])
       | None =>
           match List.find (λ r, bool_decide (r.1.1 = method) && _compile (str_split "/" r.1.2) (str_split "/" e)) _PATTERNS with
           | Some r => Some (r.2, path_args r.2 e)
           | None => None
           end
       end.

(** ** routes.py: model-version sources *)

Inductive source := SourceRun (run_id : string) | SourceModel (model_id : string) | SourceArtifact (key : string)
  | SourceRefused (reason : string).

Definition is_hex32 (s : string) : bool := bool_decide (String.length s = 32%nat) && str_all is_lower_hex s.

(** [_RUNS_SOURCE]; the text is stripped, so [$] is its end. *)
Definition _RUNS_SOURCE (s : string) : option string :=
  rest ← strip_prefix "runs:/" s;
  let id := str_take 32 rest in
  if is_hex32 id then
    match str_drop 32 rest with
    | EmptyString => Some id
    | String "/" more => if str_has (ascii_of_nat 10) more then None else Some id
    | _ => None
    end
  else None.

Definition _LOGGED_MODEL_SOURCE (s : string) : option string :=
  rest ← strip_prefix "models:/m-" s;
  let id := str_take 32 rest in
  if is_hex32 id && bool_decide (str_drop 32 rest = "" ∨ str_drop 32 rest = "/") then Some ("m-" +:+ id) else None.

Definition _ARTIFACT_SOURCE : string := "mlflow-artifacts:/".

Definition source_kind (v : json) : res source :=
  match (if truthy v then v else JStr "") with
  | JStr s =>
      let s := strip is_space s in
      Ok match _RUNS_SOURCE s, _LOGGED_MODEL_SOURCE s, strip_prefix _ARTIFACT_SOURCE s with
         | Some id, _, _ => SourceRun id
         | None, Some id, _ => SourceModel id
         | None, None, Some key => SourceArtifact key
         | _, _, _ => SourceRefused "model version source must be runs:/<run>, models:/<logged model> or a tenant artifact path"
         end
  | _ => Err AttributeError
  end.

(** The import-time check of the table: False where it raises. *)
Definition _check_table : bool :=
  forallb (λ r,
    let rs := rules r.2 in
    negb (bool_decide (names ∈ rs) && negb (bool_decide (filtered ∈ rs)) && bool_decide (request_name_fields r.1.2 = [])) &&
    negb (bool_decide (filtered ∈ rs) && bool_decide (response_name_paths r.1.2 = []))) ROUTES.

Lemma table_checked : _check_table = true.
Proof. vm_compute. reflexivity. Qed.

(** ** scoping.py *)

Definition scope_field (company : string) (out : dict) (field : string) : res dict :=
  match dict_lookup field out with
  | Some (JStr n) => q ← qualify_name company n; Ok (dict_put field (JStr q) out)
  | _ => Ok out
  end.
Fixpoint scope_fields (company : string) (fields : list string) (out : dict) : res dict :=
  match fields with [] => Ok out | f :: r => out ← scope_field company out f; scope_fields company r out end.

Definition scope_request (e : string) (payload : dict) (company : string) : res dict :=
  scope_fields company (request_name_fields e) payload.

(** Whether to keep the entry, and the entry with its name stripped. *)
Definition _unqualify_leaf (obj : json) (field company : string) : res (bool * json) :=
  match obj with
  | JDict d =>
      match dict_lookup field d with
      | Some (JStr n) =>
          plain ← unqualify_name company n;
          Ok match plain with Some p => (true, JDict (dict_put field (JStr p) d)) | None => (false, obj) end
      | _ => Ok (true, obj)
      end
  | _ => Ok (true, obj)
  end.

Fixpoint keep_items (field company : string) (items : list json) : res (list json) :=
  match items with
  | [] => Ok []
  | i :: r => k ← _unqualify_leaf i field company; rest ← keep_items field company r; Ok (if k.1 : bool then k.2 :: rest else rest)
  end.

Definition _apply_name_path (obj : dict) (path company : string) : res dict :=
  let '(head, tail) := str_partition "." path in
  match strip_suffix "[]" head with
  | Some key =>
      match dict_lookup key obj with
      | Some (JList items) => kept ← keep_items tail company items; Ok (dict_put key (JList kept) obj)
      | _ => Ok obj
      end
  | None =>
      if negb (bool_decide (tail = "")) then
        match dict_lookup head obj with
        | Some (JDict child) =>
            k ← _unqualify_leaf (JDict child) tail company; Ok (dict_put head (if k.1 : bool then k.2 else JNull) obj)
        | _ => Ok obj
        end
      else k ← _unqualify_leaf (JDict obj) head company; Ok (match k.2 with JDict d => d | _ => obj end)
  end.

Fixpoint apply_name_paths (paths : list string) (company : string) (out : dict) : res dict :=
  match paths with [] => Ok out | p :: r => out ← _apply_name_path out p company; apply_name_paths r company out end.

Definition scope_response (e : string) (payload : dict) (company : string) : res dict :=
  apply_name_paths (response_name_paths e) company payload.
