(* ===== verification/TrackingGateway.v ===== *)
(** * The tracking gateway's proxy: services/notebook_tracking_gateway/gateway.py

    A request's message, the ownership lookups it is held to ([_Lookups],
    [_ensure_owns]) and the handler that forwards it ([proxy]).  The tracking
    server is a party whose answers are any list: every call made to it is
    logged with its answer. *)

From stdpp Require Import base strings list gmap.
From Stdlib Require Import ZArith Lia Ascii.
From S2P Require Import Prelude PyText PyNum PyJson Tenancy CapabilityAudit SqlBinding HubCapabilities TrackingPolicy TrackingRoutes.

Local Open Scope string_scope.

#[local] Arguments uuid_str : simpl never.
#[local] Arguments uuid_parse : simpl never.

(** ** The tracking server *)

Record asked := { q_method : string; q_endpoint : string; q_params : dict; q_body : option dict; q_answer : res (Z * json) }.

(** [answers]: what the calls will answer, in order; past the list a call
    fails to connect. *)
Record upstream := { answers : list (res (Z * json)); log : list asked }.

Definition call_upstream (method e : string) (params : dict) (body : option dict) : M upstream (Z * json) := λ u,
  let a := default (Err ConnectionError) (head (answers u)) in
  (a, {| answers := tail (answers u);
         log := (log u ++ [{| q_method := method; q_endpoint := e; q_params := params; q_body := body; q_answer := a |}])%list |}).

(** ** The ownership lookups *)

(** [(x or {}).get(k)], along a path. *)
Fixpoint dig (v : json) (path : list string) : res json :=
  match path with
  | [] => Ok v
  | k :: r => if truthy v then match v with JDict d => dig (jget k d) r | _ => Err AttributeError end
              else dig JNull r
  end.

Record _Lookups := {
  up : upstream; _experiments : gmap string bool; _runs : gmap string bool; _models : gmap string bool }.
Definition lookups (u : upstream) : _Lookups := {| up := u; _experiments := ∅; _runs := ∅; _models := ∅ |}.

Definition set_up (u : upstream) (s : _Lookups) : _Lookups :=
  {| up := u; _experiments := _experiments s; _runs := _runs s; _models := _models s |}.
Definition ask (e : string) (params : dict) : M _Lookups (Z * json) := zoom up set_up (call_upstream "GET" e params None).

Section gateway.
Context (py_repr : json → string) (company_id : string).

Abbreviation str_of v := (py_str py_repr v).

Definition refuse {S A} (detail : string) : M S A := raise (HTTPException 403 detail).
Definition unknown_experiment : string := "cross-tenant or unknown experiment".

Definition owns (name : json) : res bool :=
  if truthy name then p ← tenant_prefix company_id;
    Ok (match name with JStr n => bool_decide (is_Some (owned_name p (Some n))) | _ => false end)
  else Ok false.

Definition experiment (experiment_id : json) : M _Lookups unit :=
  if negb (truthy experiment_id) then refuse unknown_experiment else
  let key := str_of experiment_id in
  known ← gets _experiments;
  _ ← match known !! key with
      | Some _ => mret tt
      | None =>
          a ← ask "experiments/get" [("experiment_id", JStr key)];
          name ← lift (if Z.eqb a.1 200 then dig a.2 ["experiment"; "name"] else Ok JNull);
          o ← lift (owns name);
          modify (λ s, {| up := up s; _experiments := <[key := o]> (_experiments s); _runs := _runs s; _models := _models s |})
      end;
  known ← gets _experiments;
  if default false (known !! key) then mret tt else refuse unknown_experiment.

Definition _owned (experiment_id : json) : M _Lookups bool :=
  catch (_ ← experiment experiment_id; mret true)
        (λ e, match e with HTTPException _ _ => mret false | e => raise e end).

Definition run (run_id : json) : M _Lookups unit :=
  let key := str_of run_id in
  known ← gets _runs;
  _ ← match known !! key with
      | Some _ => mret tt
      | None =>
          a ← ask "runs/get" [("run_id", JStr key)];
          exp_id ← lift (if Z.eqb a.1 200 then dig a.2 ["run"; "info"; "experiment_id"] else Ok JNull);
          o ← _owned exp_id;
          modify (λ s, {| up := up s; _experiments := _experiments s; _runs := <[key := o]> (_runs s); _models := _models s |})
      end;
  known ← gets _runs;
  if default false (known !! key) then mret tt else refuse unknown_experiment.

Definition logged_model (model_id : json) : M _Lookups unit :=
  if negb (truthy model_id) then refuse "cross-tenant or unknown logged model" else
  let key := str_of model_id in
  known ← gets _models;
  _ ← match known !! key with
      | Some _ => mret tt
      | None =>
          a ← ask ("logged-models/" +:+ key) [];
          exp_id ← lift (if Z.eqb a.1 200 then dig a.2 ["model"; "info"; "experiment_id"] else Ok JNull);
          o ← _owned exp_id;
          modify (λ s, {| up := up s; _experiments := _experiments s; _runs := _runs s; _models := <[key := o]> (_models s) |})
      end;
  known ← gets _models;
  if default false (known !! key) then mret tt else refuse unknown_experiment.

(** ** The rules *)

Definition _as_list (v : json) : list json := match v with JNull => [] | JList l => l | v => [v] end.

Fixpoint each (f : json → M _Lookups unit) (l : list json) : M _Lookups unit :=
  match l with [] => mret tt | v :: r => _ ← f v; each f r end.

Definition has (r : rule) (route : Route) : bool := bool_decide (r ∈ rules route).
Definition run_fields (src : dict) : list json :=
  List.filter truthy [jget "run_id" src; jget "run_uuid" src; jget "source_run_id" src].
Definition experiment_fields (src : dict) : list json :=
  (_as_list (jget "experiment_id" src) ++ _as_list (jget "experiment_ids" src))%list.
Definition model_field (args : list string) (src : dict) : json :=
  match args with a :: _ => JStr a | [] => jget "model_id" src end.

(** [if not ids: raise] before the lookups of [ids]. *)
Definition each_required (detail : string) (f : json → M _Lookups unit) (ids : list json) : M _Lookups unit :=
  match ids with [] => refuse detail | ids => each f ids end.
Definition when_ (b : bool) (m : M _Lookups unit) : M _Lookups unit := if b then m else mret tt.

Definition source_owned (src : dict) : M _Lookups unit :=
  k ← lift (source_kind (jget "source" src));
  match k with
  | SourceRun id => run (JStr id)
  | SourceModel id => logged_model (JStr id)
  | SourceArtifact key =>
      o ← lift (owns_artifact_key company_id key);
      if o : bool then mret tt else refuse "model version source is outside the tenant"
  | SourceRefused reason => refuse reason
  end.

Definition _ensure_owns (route : Route) (args : list string) (src : dict) : M _Lookups unit :=
  _ ← when_ (has TrackingRoutes.experiment route)
        (each_required "an experiment id is required" experiment (experiment_fields src));
  _ ← when_ (has TrackingRoutes.run route || has run_opt route && negb (bool_decide (run_fields src = [])))
        (each_required "a run id is required" run (run_fields src));
  _ ← when_ (has runs route) (each_required "run ids are required" run (_as_list (jget "run_ids" src)));
  _ ← when_ (has TrackingRoutes.logged_model route) (logged_model (model_field args src));
  _ ← when_ (has logged_model_opt route && truthy (jget "model_id" src)) (logged_model (jget "model_id" src));
  when_ (has mv_source route) (source_owned src).
(** ** The request *)

Context `{J : JsonCodec}.

(** [rq_body]: None for an empty body. *)
Record request := { rq_method : string; rq_query : list (string * string); rq_body : option bytes }.

Definition _json_body (rq : request) : res dict :=
  match rq_body rq with
  | None => Ok []
  | Some raw =>
      match json_loads raw with
      | Ok (JDict d) => Ok d
      | Ok _ => Err (HTTPException 400 "the JSON body must be an object")
      | Err e => if is_value_error e then Err (HTTPException 400 "invalid JSON body") else Err e
      end
  end.

(** A repeated field keeps every value. *)
Definition add_item (message : dict) (kv : string * string) : dict :=
  match dict_lookup kv.1 message with
  | Some prev => dict_put kv.1 (JList ((match prev with JList l => l | v => [v] end) ++ [JStr kv.2])%list) message
  | None => dict_put kv.1 (JStr kv.2) message
  end.

Definition _request_message (rq : request) : res dict :=
  if bool_decide (rq_method rq = "GET") then
    match rq_body rq with
    | Some _ => Err (HTTPException 400 "a GET request carries its fields in the query string")
    | None => Ok (foldl add_item [] (rq_query rq))
    end
  else match rq_query rq with
       | _ :: _ => Err (HTTPException 400 "this request carries its fields in the JSON body, not the query string")
       | [] => _json_body rq
       end.

(** ** The handler *)

Definition is_str (v : json) : bool := match v with JStr _ => true | _ => false end.
Definition bad_name (e : string) (message : dict) : bool :=
  existsb (λ f, dict_has f message && negb (is_str (jget f message))) (request_name_fields e).

Definition scoped_request (e nonce : string) (message : dict) : res dict :=
  scoped ← scope_request e message company_id;
  if bool_decide (e = "experiments/create")
  then loc ← experiment_artifact_location company_id nonce; Ok (dict_put "artifact_location" (JStr loc) scoped)
  else Ok scoped.

Definition forward (method e : string) (scoped : dict) : M upstream (Z * json) :=
  if bool_decide (method = "GET") then call_upstream "GET" e scoped None
  else call_upstream method e [] (Some scoped).

Definition on_upstream {A} (m : M _Lookups A) : M upstream A := λ u, let '(r, s) := m (lookups u) in (r, up s).

(** [nonce]: what [uuid4] draws.  The status and content answered, or the
    exception raised. *)
Definition proxy (e nonce : string) (rq : request) : M upstream (Z * json) :=
  match match_ (rq_method rq) e with
  | None => raise (HTTPException 403 "this tracking route is not available through the gateway")
  | Some (route, args) =>
      message ← lift (_request_message rq);
      if bad_name e message then raise (HTTPException 400 "a name field must be a single string") else
      _ ← on_upstream (_ensure_owns route args message);
      scoped ← lift (scoped_request e nonce message);
      a ← forward (rq_method rq) e scoped;
      match a.2 with
      | JDict d => d' ← lift (scope_response e d company_id); mret (a.1, JDict d')
      | v => mret (a.1, v)
      end
  end.

(** ** What a lookup vouches for *)

Definition is_lookup (a : asked) : Prop :=
  q_method a = "GET" ∧ q_body a = None ∧
  ((∃ id, q_endpoint a = "experiments/get" ∧ q_params a = [("experiment_id", JStr id)]) ∨
   (∃ id, q_endpoint a = "runs/get" ∧ q_params a = [("run_id", JStr id)]) ∨
   (∃ id, q_endpoint a = "logged-models/" +:+ id ∧ q_params a = [])).

(** The tracking server was asked for [e] with [params] and its answer holds
    [v] at [path]. *)
Definition answered (l : list asked) (e : string) (params : dict) (path : list string) (v : json) : Prop :=
  ∃ a data, a ∈ l ∧ q_method a = "GET" ∧ q_endpoint a = e ∧ q_params a = params ∧
    q_answer a = Ok (200%Z, data) ∧ dig data path = Ok v.

Definition owned_experiment (l : list asked) (id : string) : Prop :=
  ∃ n p, answered l "experiments/get" [("experiment_id", JStr id)] ["experiment"; "name"] (JStr n) ∧
    tenant_prefix company_id = Ok p ∧ startswith p n = true.
Definition in_owned_experiment (l : list asked) (e : string) (params : dict) (path : list string) : Prop :=
  ∃ x, answered l e params path x ∧ truthy x = true ∧ owned_experiment l (str_of x).
Definition owned_run (l : list asked) (id : string) : Prop :=
  in_owned_experiment l "runs/get" [("run_id", JStr id)] ["run"; "info"; "experiment_id"].
Definition owned_model (l : list asked) (id : string) : Prop :=
  in_owned_experiment l ("logged-models/" +:+ id) [] ["model"; "info"; "experiment_id"].

(** ** Lookups vouch for what they let pass *)

Definition upward (P : list asked → Prop) : Prop := ∀ l l', P l → P (l ++ l')%list.

Lemma answered_app l l' e ps path v : answered l e ps path v → answered (l ++ l')%list e ps path v.
Proof. intros (a & d & Hin & H). exists a, d. split; [set_solver | exact H]. Qed.
Lemma owned_experiment_up id : upward (λ l, owned_experiment l id).
Proof. intros l l' (n & p & H & Hp). exists n, p. split; [by apply answered_app | done]. Qed.
Lemma in_owned_up e ps path : upward (λ l, in_owned_experiment l e ps path).
Proof. intros l l' (x & H & Hx & Ho). exists x. split_and!; [by apply answered_app | done | by apply owned_experiment_up]. Qed.

(** What the caches hold as owned was vouched for. *)
Record memo_ok (s : _Lookups) : Prop := {
  memo_experiments k : _experiments s !! k = Some true → owned_experiment (log (up s)) k;
  memo_runs k : _runs s !! k = Some true → owned_run (log (up s)) k;
  memo_models k : _models s !! k = Some true → owned_model (log (up s)) k }.

Definition looked_up (s s' : _Lookups) : Prop :=
  memo_ok s → memo_ok s' ∧ ∃ l, log (up s') = (log (up s) ++ l)%list ∧ Forall is_lookup l.
#[local] Instance looked_up_refl : Reflexive looked_up.
Proof. intros s H. split; [done|]. exists []. by rewrite app_nil_r. Qed.
#[local] Instance looked_up_trans : Transitive looked_up.
Proof.
  intros s1 s2 s3 H1 H2 H. destruct (H1 H) as [Hm (l & El & Hl)]. destruct (H2 Hm) as [Hm' (l' & El' & Hl')].
  split; [done|]. exists (l ++ l')%list. rewrite El', El, app_assoc. split; [done | by apply Forall_app].
Qed.

(** From a log where [P], [m] makes lookups only, and if it returns then [Q]. *)
Definition vouches {A} (P : list asked → Prop) (m : M _Lookups A) (Q : A → list asked → Prop) : Prop := ∀ s r s',
  m s = (r, s') → memo_ok s → P (log (up s)) → looked_up s s' ∧ ∀ a, r = Ok a → Q a (log (up s')).

Lemma vouches_ret {A} (P : list asked → Prop) (a : A) (Q : A → list asked → Prop) : (∀ l, P l → Q a l) → vouches P (mret a) Q.
Proof. intros H s r s' [= <- <-] Hm HP. split; [reflexivity|]. intros ? [= <-]. by apply H. Qed.
Lemma vouches_raise {A} P e (Q : A → list asked → Prop) : vouches P (raise e) Q.
Proof. intros s r s' [= <- <-] Hm HP. split; [reflexivity|]. done. Qed.
Lemma vouches_lift {A} (P : list asked → Prop) (r : res A) (Q : A → list asked → Prop) :
  (∀ a l, r = Ok a → P l → Q a l) → vouches P (lift r) Q.
Proof. intros H s r' s' [= <- <-] Hm HP. split; [reflexivity|]. intros a ->. by apply H. Qed.

Lemma vouches_bind {A B} P (m : M _Lookups A) Q (k : A → M _Lookups B) R :
  vouches P m Q → (∀ a, vouches (Q a) (k a) R) → vouches P (m ≫= k) R.
Proof.
  intros Hm Hk s r s' H Hmemo HP. unfold mbind, M_bind in H. destruct (m s) as [[a|e] s1] eqn:E.
  - destruct (Hm _ _ _ E Hmemo HP) as [H1 HQ]. destruct (H1 Hmemo) as [Hmemo1 _].
    destruct (Hk a _ _ _ H Hmemo1 (HQ a eq_refl)) as [H2 HR]. split; [by transitivity s1 | exact HR].
  - injection H as <- <-. destruct (Hm _ _ _ E Hmemo HP) as [H1 _]. by split.
Qed.

Lemma vouches_weaken {A} (P P' : list asked → Prop) (m : M _Lookups A) (Q Q' : A → list asked → Prop) :
  (∀ l, P l → P' l) → vouches P' m Q' → (∀ a l, Q' a l → Q a l) → vouches P m Q.
Proof. intros HP H HQ s r s' E Hm Hs. destruct (H _ _ _ E Hm (HP _ Hs)) as [H1 H2]. eauto. Qed.

Lemma vouches_frame {A} P (m : M _Lookups A) Q F : upward F → vouches P m Q →
  vouches (λ l, P l ∧ F l) m (λ a l, Q a l ∧ F l).
Proof.
  intros HF H s r s' E Hm [HP HFl]. destruct (H _ _ _ E Hm HP) as [H1 H2]. split; [done|].
  intros a ->. split; [by apply H2|]. destruct (H1 Hm) as [_ (l & -> & _)]. by apply HF.
Qed.

Lemma vouches_gets {A} (P : list asked → Prop) (f : _Lookups → A) (Q : A → list asked → Prop) :
  (∀ s, memo_ok s → P (log (up s)) → Q (f s) (log (up s))) → vouches P (gets f) Q.
Proof. intros H s r s' [= <- <-] Hm HP. split; [reflexivity|]. intros a [= <-]. by apply H. Qed.

Lemma vouches_modify P f (Q : unit → list asked → Prop) :
  (∀ s, memo_ok s → P (log (up s)) → memo_ok (f s) ∧ up (f s) = up s ∧ Q tt (log (up s))) → vouches P (modify f) Q.
Proof.
  intros H s r s' [= <- <-] Hm HP. destruct (H s Hm HP) as (Hm' & Eu & HQ). rewrite Eu. split.
  - intros _. split; [done|]. exists []. by rewrite Eu, app_nil_r.
  - by intros [] _.
Qed.

(** The call answered [a]. *)
Definition said (e : string) (params : dict) (a : Z * json) (l : list asked) : Prop :=
  ∃ q, q ∈ l ∧ q_method q = "GET" ∧ q_endpoint q = e ∧ q_params q = params ∧ q_answer q = Ok a.

Lemma vouches_ask e params (P : list asked → Prop) :
  (∀ a, is_lookup {| q_method := "GET"; q_endpoint := e; q_params := params; q_body := None; q_answer := a |}) →
  upward P → vouches P (ask e params) (λ a l, said e params a l ∧ P l).
Proof.
  intros Hl HP s r s' E [He Hr Hmo] HPs. unfold ask, zoom, call_upstream in E. injection E as <- <-. split.
  - intros _. split.
    + split; intros k Hk; [apply owned_experiment_up, He | apply in_owned_up, Hr | apply in_owned_up, Hmo]; exact Hk.
    + eexists [_]. split; [reflexivity|]. constructor; [apply Hl | constructor].
  - intros a Ha. split; [|by apply HP]. eexists. split; [apply elem_of_app; right; constructor|]. split_and!; try reflexivity. exact Ha.
Qed.

Lemma said_answered e ps a l path v : said e ps a l → a.1 = 200%Z → dig a.2 path = Ok v → answered l e ps path v.
Proof. intros (q & Hin & Hm & He & Hp & Ha) E Hd. destruct a as [st d]. cbn in *. subst st. exists q, d. split_and!; done. Qed.

Lemma owns_true v : owns v = Ok true → ∃ n p, v = JStr n ∧ tenant_prefix company_id = Ok p ∧ startswith p n = true.
Proof.
  unfold owns. destruct (truthy v); [|done]. destruct (tenant_prefix company_id) as [p|e] eqn:Ep; [|done].
  cbn. destruct v as [| | | |n| |]; intros [= H]. apply bool_decide_eq_true in H as [x Hx].
  apply owned_name_startswith in Hx as [Hs _]. eauto.
Qed.

Lemma experiment_vouches v : vouches (λ _, True) (experiment v) (λ _ l, truthy v = true ∧ owned_experiment l (str_of v)).
Proof.
  unfold experiment. destruct (truthy v) eqn:Hv; cbn [negb]; [|apply vouches_raise].
  apply vouches_bind with (Q := λ _ _, True); [by apply vouches_gets|]. intros known.
  apply vouches_bind with (Q := λ _ _, True).
  - destruct (known !! str_of v); [by apply vouches_ret|].
    eapply vouches_bind; [apply vouches_ask with (P := λ _, True); [|done]|].
    { intros a. split; [done|]. split; [done|]. left. by eexists. }
    intros a. eapply vouches_bind.
    { apply vouches_lift with (Q := λ name l, ∀ n, name = JStr n →
        n = "" ∨ answered l "experiments/get" [("experiment_id", JStr (str_of v))] ["experiment"; "name"] (JStr n)).
      intros name l Hname [Hsaid _] n ->. destruct (Z.eqb_spec a.1 200); [|done]. right. by eapply said_answered. }
    intros name. eapply vouches_bind with (Q := λ o l, o = true → owned_experiment l (str_of v)).
    { apply vouches_lift. intros o l Ho Hl ->. apply owns_true in Ho as (n & p & -> & Hp & Hs).
      destruct (Hl n eq_refl) as [->|Ha]; [|by exists n, p].
      exfalso. destruct (mlflow_prefix_shape _ _ Hp) as [r ->]. by apply startswith_spec in Hs as [? ?]. }
    intros o. apply vouches_modify. intros s [He Hr Hmo] Ho. split_and!; [|done|done].
    split; cbn; [|done|done]. intros k. rewrite lookup_insert_Some. intros [[<- ->]|[_ Hk]]; auto.
  - intros ?. apply vouches_bind with (Q := λ k l, k !! str_of v = Some true → owned_experiment l (str_of v)).
    { apply vouches_gets. intros s [He _ _] _. apply He. }
    intros k. destruct (k !! str_of v) as [[]|] eqn:Ek; cbn; [|apply vouches_raise..].
    apply vouches_ret. auto.
Qed.

Lemma owned_vouches v : vouches (λ _, True) (_owned v) (λ o l, o = true → truthy v = true ∧ owned_experiment l (str_of v)).
Proof.
  intros s r s' H Hm _. unfold _owned, catch in H.
  destruct ((_ ← experiment v; mret true) s) as [[o|e] s1] eqn:E.
  - injection H as <- <-. assert (vouches (λ _, True) (_ ← experiment v; mret true)
      (λ (_ : bool) l, truthy v = true ∧ owned_experiment l (str_of v))) as Hv.
    { eapply vouches_bind; [apply experiment_vouches|]. intros u. by apply vouches_ret. }
    destruct (Hv _ _ _ E Hm Logic.I) as [H1 H2]. split; [exact H1|]. intros a Ha _. exact (H2 a Ha).
  - assert (looked_up s s1) as H1.
    { unfold mbind, M_bind in E. destruct (experiment v s) as [[u|e'] s2] eqn:E'; [done|]. injection E as <- <-.
      by destruct (experiment_vouches v _ _ _ E' Hm Logic.I). }
    destruct e; injection H as <- <-; split; try exact H1; by intros a [= <-].
Qed.

(** [run] and [logged_model]: ask, dig the experiment's id, check it. *)
Lemma vouches_through e ps path (P : list asked → Prop) key (f : bool → _Lookups → _Lookups) :
  (∀ a, is_lookup {| q_method := "GET"; q_endpoint := e; q_params := ps; q_body := None; q_answer := a |}) →
  (∀ l, in_owned_experiment l e ps path → P l) →
  (∀ o s, memo_ok s → (o = true → P (log (up s))) → memo_ok (f o s) ∧ up (f o s) = up s) →
  ∀ known : gmap string bool, vouches (λ _, True)
    (match known !! key with
     | Some _ => mret tt
     | None =>
         a ← ask e ps;
         x ← lift (if Z.eqb a.1 200 then dig a.2 path else Ok JNull);
         o ← _owned x;
         modify (f o)
     end) (λ _ _, True).
Proof.
  intros Hl HP Hf known. destruct (known !! key); [by apply vouches_ret|].
  eapply vouches_bind; [apply vouches_ask with (P := λ _, True); [exact Hl | done]|].
  intros a. eapply vouches_bind.
  { apply vouches_lift with (Q := λ x l, x = JNull ∨ answered l e ps path x).
    intros x l Hx [Hsaid _]. destruct (Z.eqb_spec a.1 200); [|injection Hx; auto]. right. by eapply said_answered. }
  intros x. eapply vouches_bind.
  { eapply vouches_weaken; [|apply vouches_frame with (P := λ _, True) (F := λ l, x = JNull ∨ answered l e ps path x)|].
    - intros l Hx. split; [exact Logic.I | exact Hx].
    - intros l l' [?|?]; [by left | right; by apply answered_app].
    - apply owned_vouches.
    - intros o l H. exact H. }
  intros o. apply vouches_modify. intros s Hm [Ho Hx]. destruct (Hf o s Hm) as [H1 H2]; [|done].
  intros ->. apply HP. destruct (Ho eq_refl) as [Ht He]. exists x. destruct Hx as [->|Hx]; done.
Qed.

Lemma run_vouches v : vouches (λ _, True) (run v) (λ _ l, owned_run l (str_of v)).
Proof.
  unfold run. apply vouches_bind with (Q := λ _ _, True); [by apply vouches_gets|]. intros known.
  eapply vouches_bind; [apply vouches_through with (P := λ l, owned_run l (str_of v)); [|done|]|].
  - intros a. split; [done|]. split; [done|]. right. left. by eexists.
  - intros o s [He Hr Hmo] Ho. split; [|done]. split; cbn; [done| |done].
    intros k. rewrite lookup_insert_Some. intros [[<- ->]|[_ Hk]]; auto.
  - intros ?. apply vouches_bind with (Q := λ k l, k !! str_of v = Some true → owned_run l (str_of v)).
    { apply vouches_gets. intros s [_ Hr _] _. apply Hr. }
    intros k. destruct (k !! str_of v) as [[]|] eqn:Ek; cbn; [|apply vouches_raise..]. apply vouches_ret. auto.
Qed.

Lemma logged_model_vouches v : vouches (λ _, True) (logged_model v) (λ _ l, truthy v = true ∧ owned_model l (str_of v)).
Proof.
  unfold logged_model. destruct (truthy v) eqn:Hv; cbn [negb]; [|apply vouches_raise].
  apply vouches_bind with (Q := λ _ _, True); [by apply vouches_gets|]. intros known.
  eapply vouches_bind; [apply vouches_through with (P := λ l, owned_model l (str_of v)); [|done|]|].
  - intros a. split; [done|]. split; [done|]. right. right. by eexists.
  - intros o s [He Hr Hmo] Ho. split; [|done]. split; cbn; [done|done|].
    intros k. rewrite lookup_insert_Some. intros [[<- ->]|[_ Hk]]; auto.
  - intros ?. apply vouches_bind with (Q := λ k l, k !! str_of v = Some true → owned_model l (str_of v)).
    { apply vouches_gets. intros s [_ _ Hmo] _. apply Hmo. }
    intros k. destruct (k !! str_of v) as [[]|] eqn:Ek; cbn; [|apply vouches_raise..]. apply vouches_ret. auto.
Qed.

Lemma vouches_each f P ids : (∀ v, upward (P v)) → (∀ v, vouches (λ _, True) (f v) (λ _ l, P v l)) →
  vouches (λ _, True) (each f ids) (λ _ l, ∀ v, v ∈ ids → P v l).
Proof.
  intros Hup Hf. induction ids as [|v ids IH]; cbn.
  - apply vouches_ret. intros l _ v Hv. by apply elem_of_nil in Hv.
  - eapply vouches_bind; [apply Hf|]. intros ?.
    eapply vouches_weaken; [|apply (vouches_frame _ _ _ (P v) (Hup v) IH)|].
    + intros l H. split; [exact Logic.I | exact H].
    + intros _ l [H1 H2] w [->|Hw]%elem_of_cons; auto.
Qed.

Lemma vouches_required d f P ids : (∀ v, upward (P v)) → (∀ v, vouches (λ _, True) (f v) (λ _ l, P v l)) →
  vouches (λ _, True) (each_required d f ids) (λ _ l, ids ≠ [] ∧ ∀ v, v ∈ ids → P v l).
Proof.
  intros Hup Hf. destruct ids as [|v ids]; [apply vouches_raise|]. unfold each_required.
  eapply vouches_weaken; [|apply (vouches_each f P (v :: ids) Hup Hf)|]; [done|]. intros u l H; split; [done | exact H].
Qed.

Lemma vouches_when b m P : vouches (λ _, True) m (λ _, P) → vouches (λ _, True) (when_ b m) (λ _ l, b = true → P l).
Proof.
  intros H. destruct b; cbn; [|by apply vouches_ret].
  eapply vouches_weaken; [|exact H|]; [done|]. auto.
Qed.

Lemma vouches_and (m k : M _Lookups unit) P Q : upward P → vouches (λ _, True) m (λ _, P) → vouches (λ _, True) k (λ _, Q) →
  vouches (λ _, True) (_ ← m; k) (λ _ l, P l ∧ Q l).
Proof.
  intros HP Hm Hk. eapply vouches_bind; [exact Hm|]. intros ?.
  eapply vouches_weaken; [|apply (vouches_frame _ _ _ P HP Hk)|]; cbn; tauto.
Qed.

(** ** The rules hold of what is forwarded *)

(** What a rule promises of a request with these path arguments and fields,
    by the answers of the log. *)
Definition rule_holds (l : list asked) (args : list string) (src : dict) (r : rule) : Prop :=
  match r with
  | TrackingRoutes.experiment => experiment_fields src ≠ [] ∧
      ∀ v, v ∈ experiment_fields src → truthy v = true ∧ owned_experiment l (str_of v)
  | TrackingRoutes.run => run_fields src ≠ [] ∧ ∀ v, v ∈ run_fields src → owned_run l (str_of v)
  | run_opt => ∀ v, v ∈ run_fields src → owned_run l (str_of v)
  | runs => _as_list (jget "run_ids" src) ≠ [] ∧ ∀ v, v ∈ _as_list (jget "run_ids" src) → owned_run l (str_of v)
  | TrackingRoutes.logged_model => truthy (model_field args src) = true ∧ owned_model l (str_of (model_field args src))
  | logged_model_opt => truthy (jget "model_id" src) = true → owned_model l (str_of (jget "model_id" src))
  | mv_source => match source_kind (jget "source" src) with
                 | Ok (SourceRun id) => owned_run l id
                 | Ok (SourceModel id) => owned_model l id
                 | Ok (SourceArtifact key) => owns_artifact_key company_id key = Ok true
                 | _ => False
                 end
  | names | create_experiment | filtered => True
  end.

Lemma source_vouches src : vouches (λ _, True) (source_owned src) (λ _ l, rule_holds l [] src mv_source).
Proof.
  unfold source_owned, rule_holds. destruct (source_kind _) as [k|e]; [|apply vouches_raise].
  change (vouches (λ _, True) (match k with
    | SourceRun id => run (JStr id)
    | SourceModel id => logged_model (JStr id)
    | SourceArtifact key => o ← lift (owns_artifact_key company_id key);
        if o : bool then mret tt else refuse "model version source is outside the tenant"
    | SourceRefused reason => refuse reason end) (λ _ l, match k with
    | SourceRun id => owned_run l id
    | SourceModel id => owned_model l id
    | SourceArtifact key => owns_artifact_key company_id key = Ok true
    | _ => False end)).
  destruct k as [id|id|key|reason]; [apply run_vouches| | |apply vouches_raise].
  - eapply vouches_weaken; [|apply logged_model_vouches|]; [done|]. by intros ? l [].
  - eapply vouches_bind; [apply vouches_lift with (Q := λ o _, owns_artifact_key company_id key = Ok o); done|].
    intros []; [by apply vouches_ret | apply vouches_raise].
Qed.

Lemma rule_up args src r : upward (λ l, rule_holds l args src r).
Proof.
  intros l l'. destruct r; cbn; try done; try (repeat case_match; done).
  - intros [H1 H2]. split; [done|]. intros v Hv. destruct (H2 v Hv). split; [done | by apply owned_experiment_up].
  - intros [H1 H2]. split; [done|]. intros v Hv. by apply in_owned_up, H2.
  - intros [H1 H2]. split; [done|]. intros v Hv. by apply in_owned_up, H2.
  - intros H v Hv. by apply in_owned_up, H.
  - intros [H1 H2]. split; [done|]. by apply in_owned_up.
  - intros H Hv. by apply in_owned_up, H.
  - repeat case_match; try done; by apply in_owned_up.
Qed.

Lemma imp_up (b : Prop) P : upward P → upward (λ l, b → P l).
Proof. intros HP l l' H Hb. by apply HP, H. Qed.

Lemma ensure_vouches route args src : vouches (λ _, True) (_ensure_owns route args src)
  (λ _ l, ∀ r, r ∈ rules route → rule_holds l args src r).
Proof.
  unfold _ensure_owns. pose proof (λ (b : Prop) r, imp_up b _ (rule_up args src r)) as Hup.
  apply vouches_weaken with (P' := λ _, True) (Q' := λ (_ : unit) l,
    (has TrackingRoutes.experiment route = true → rule_holds l args src TrackingRoutes.experiment) ∧
    (has TrackingRoutes.run route || has run_opt route && negb (bool_decide (run_fields src = [])) = true → rule_holds l args src TrackingRoutes.run) ∧
    (has runs route = true → rule_holds l args src runs) ∧
    (has TrackingRoutes.logged_model route = true → rule_holds l args src TrackingRoutes.logged_model) ∧
    (has logged_model_opt route && truthy (jget "model_id" src) = true → truthy (jget "model_id" src) = true ∧ owned_model l (str_of (jget "model_id" src))) ∧
    (has mv_source route = true → rule_holds l [] src mv_source)); [done| |].
  - apply vouches_and with (P := λ l, has TrackingRoutes.experiment route = true → rule_holds l args src TrackingRoutes.experiment);
      [apply Hup | apply vouches_when, vouches_required; [|apply experiment_vouches] |].
    { intros v l l' [H1 H2]. split; [done | by apply owned_experiment_up]. }
    apply vouches_and with (P := λ l, has TrackingRoutes.run route || has run_opt route && negb (bool_decide (run_fields src = [])) = true →
        rule_holds l args src TrackingRoutes.run);
      [apply Hup | apply vouches_when, vouches_required; [intros v; apply in_owned_up | apply run_vouches] |].
    apply vouches_and with (P := λ l, has runs route = true → rule_holds l args src runs);
      [apply Hup | apply vouches_when, vouches_required; [intros v; apply in_owned_up | apply run_vouches] |].
    apply vouches_and with (P := λ l, has TrackingRoutes.logged_model route = true → rule_holds l args src TrackingRoutes.logged_model);
      [apply Hup | apply vouches_when, logged_model_vouches |].
    apply vouches_and with (P := λ l, has logged_model_opt route && truthy (jget "model_id" src) = true →
        truthy (jget "model_id" src) = true ∧ owned_model l (str_of (jget "model_id" src)));
      [apply imp_up; intros l l' [? ?]; split; [done | by apply in_owned_up] | apply vouches_when, logged_model_vouches |].
    apply vouches_when, source_vouches.
  - intros _ l (He & Hr & Hrs & Hm & Hmo & Hs) r Hin.
    assert (∀ r, r ∈ rules route → has r route = true) as Hhas by (intros; by apply bool_decide_eq_true).
    destruct r; try exact Logic.I.
    + by apply He, Hhas.
    + apply Hr. by rewrite (Hhas TrackingRoutes.run Hin).
    + by apply Hrs, Hhas.
    + rewrite (Hhas run_opt Hin) in Hr. destruct (decide (run_fields src = [])) as [E|E].
      { intros v Hv. rewrite E in Hv. by apply elem_of_nil in Hv. }
      rewrite (bool_decide_eq_false_2 _ E), orb_true_r in Hr. exact (proj2 (Hr eq_refl)).
    + by apply Hm, Hhas.
    + intros Ht. rewrite (Hhas logged_model_opt Hin), Ht in Hmo. by apply Hmo.
    + by apply (Hs (Hhas _ Hin)).
Qed.

(** ** Forwarded requests *)

Lemma qualified_starts p n : startswith p (Tenancy.qualify_name p n) = true.
Proof. unfold Tenancy.qualify_name. destruct (startswith p n) eqn:E; [done | apply startswith_app]. Qed.

(** What a field of the message is forwarded as. *)
Definition named (p : string) (fields : list string) (k : string) (v : json) : json :=
  match v with JStr n => if bool_decide (k ∈ fields) then JStr (Tenancy.qualify_name p n) else v | _ => v end.

Lemma scope_fields_lookup p fields d d' : tenant_prefix company_id = Ok p → NoDup fields →
  scope_fields company_id fields d = Ok d' → ∀ k, dict_lookup k d' = named p fields k <$> dict_lookup k d.
Proof.
  intros Hp. revert d. induction fields as [|f fields IH]; intros d Hnd H k.
  { injection H as <-. destruct (dict_lookup k d) as [[]|]; done. }
  apply NoDup_cons in Hnd as [Hf Hnd]. cbn in H. apply res_bind_inv_ok in H as (d1 & H1 & H).
  rewrite (IH _ Hnd H). unfold scope_field, qualify_name in H1. rewrite Hp in H1.
  assert (∀ v, k ≠ f → named p (f :: fields) k v = named p fields k v) as Hother.
  { intros v Hk. unfold named. destruct v; try done. erewrite bool_decide_ext; [done|]. set_solver. }
  destruct (decide (k = f)) as [->|Hk].
  - destruct (dict_lookup f d) as [v|] eqn:E; [|injection H1 as <-; by rewrite E].
    destruct v as [| | | |n| |]; injection H1 as <-; rewrite ?E, ?dict_put_eq; try done. cbn.
    rewrite bool_decide_eq_false_2 by done. by rewrite bool_decide_eq_true_2 by set_solver.
  - assert (dict_lookup k d1 = dict_lookup k d) as ->.
    { destruct (dict_lookup f d) as [[| | | |n| |]|]; injection H1 as <-; try done. by apply dict_put_ne. }
    destruct (dict_lookup k d) as [v|]; [|done]. cbn. by rewrite Hother.
Qed.

Lemma table_nodup : forallb (λ r, bool_decide (NoDup r.2.1) && Nat.leb (length r.2.2) 1) NAME_FIELDS = true.
Proof. vm_compute. reflexivity. Qed.

Lemma name_fields_ok e : NoDup (request_name_fields e) ∧ (length (response_name_paths e) ≤ 1)%nat.
Proof.
  unfold request_name_fields, response_name_paths, name_fields. destruct (List.find _ _) as [r|] eqn:E; cbn.
  - apply List.find_some in E as [Hin _]. pose proof (proj1 (List.forallb_forall _ _) table_nodup r Hin) as H.
    apply andb_true_iff in H as [H1%bool_decide_eq_true H2%Nat.leb_le]. done.
  - split; [constructor | lia].
Qed.

(** What the gateway sends of a message. *)
Definition sent (e nonce p : string) (message fwd : dict) : Prop := ∀ k,
  dict_lookup k fwd =
    if bool_decide (e = "experiments/create" ∧ k = "artifact_location")
    then (λ a, JStr ("mlflow-artifacts:/" +:+ a +:+ nonce)) <$> res_opt (artifact_prefix company_id)
    else named p (request_name_fields e) k <$> dict_lookup k message.

Lemma scoped_sent e nonce p message fwd : tenant_prefix company_id = Ok p →
  scoped_request e nonce message = Ok fwd → sent e nonce p message fwd.
Proof.
  intros Hp H k. unfold scoped_request in H. apply res_bind_inv_ok in H as (d & Hd & H).
  pose proof (scope_fields_lookup _ _ _ _ Hp (proj1 (name_fields_ok e)) Hd) as Hl.
  case_bool_decide as He; [|injection H as <-; rewrite bool_decide_eq_false_2 by tauto; apply Hl].
  apply res_bind_inv_ok in H as (loc & Hloc & H). injection H as <-. unfold experiment_artifact_location in Hloc.
  apply res_fmap_inv in Hloc as (a & Ha & ->). rewrite Ha.
  destruct (decide (k = "artifact_location")) as [->|Hk].
  - rewrite dict_put_eq, bool_decide_eq_true_2; done.
  - rewrite dict_put_ne, bool_decide_eq_false_2 by naive_solver. apply Hl.
Qed.

Lemma ensured u route args msg r u' : on_upstream (_ensure_owns route args msg) u = (r, u') → log u = [] →
  Forall is_lookup (log u') ∧ (r = Ok tt → ∀ x, x ∈ rules route → rule_holds (log u') args msg x).
Proof.
  unfold on_upstream. destruct (_ensure_owns route args msg (lookups u)) as [o s] eqn:E. intros [= <- <-] Hu.
  assert (memo_ok (lookups u)) as Hm by (by split; intros k [=]).
  destruct (ensure_vouches _ _ _ _ _ _ E Hm Logic.I) as [H1 H2]. destruct (H1 Hm) as [_ (l & El & Hl)].
  cbn in El. rewrite Hu in El. cbn in El. subst l. split; [done|]. intros ->. by apply (H2 tt).
Qed.

Lemma proxy_confined p e nonce rq u r u' :
  tenant_prefix company_id = Ok p → log u = [] → proxy e nonce rq u = (r, u') →
  Forall is_lookup (log u') ∧ is_ok r = false ∨
  ∃ l a route args message fwd, log u' = (l ++ [a])%list ∧ Forall is_lookup l ∧
    match_ (rq_method rq) e = Some (route, args) ∧ _request_message rq = Ok message ∧
    (∀ x, x ∈ rules route → rule_holds l args message x) ∧
    q_method a = rq_method rq ∧ q_endpoint a = e ∧
    (if bool_decide (rq_method rq = "GET") then q_params a = fwd ∧ q_body a = None else q_params a = [] ∧ q_body a = Some fwd) ∧
    sent e nonce p message fwd ∧
    ∀ k, k ∈ request_name_fields e → k ≠ "artifact_location" → dict_has k message = true →
      ∃ n, dict_lookup k fwd = Some (JStr n) ∧ startswith p n = true.
Proof.
  intros Hp Hu H. unfold proxy in H.
  destruct (match_ (rq_method rq) e) as [[route args]|] eqn:Em; [|injection H as <- <-; left; by rewrite Hu].
  unfold mbind, M_bind, lift in H. destruct (_request_message rq) as [message|x] eqn:Er;
    [|injection H as <- <-; left; by rewrite Hu].
  destruct (bad_name e message) eqn:Hb; [injection H as <- <-; left; by rewrite Hu|].
  destruct (on_upstream _ u) as [o u1] eqn:Eo. destruct (ensured _ _ _ _ _ _ Eo Hu) as [Hl Hrules].
  destruct o as [[]|x]; [|injection H as <- <-; by left]. specialize (Hrules eq_refl).
  destruct (scoped_request e nonce message) as [fwd|x] eqn:Es; [|injection H as <- <-; by left].
  pose proof (scoped_sent _ _ _ _ _ Hp Es) as Hsent.
  right. assert (∃ a, log u' = (log u1 ++ [a])%list ∧ q_method a = rq_method rq ∧ q_endpoint a = e ∧
    if bool_decide (rq_method rq = "GET") then q_params a = fwd ∧ q_body a = None else q_params a = [] ∧ q_body a = Some fwd)
    as (a & Ha & Hm & He & Hf).
  { unfold forward in H. case_bool_decide as Hg; unfold call_upstream in H.
    all: destruct (default _ _) as [[st v]|x]; [destruct v|]; cbn in H; try (injection H as <- <-; eexists; rewrite ?Hg; split_and!; reflexivity).
    all: destruct (scope_response e d company_id) as [d'|x]; injection H as <- <-; eexists; rewrite ?Hg; split_and!; reflexivity. }
  exists (log u1), a, route, args, message, fwd. split_and!; try done.
  intros k Hk Hloc Hhas. rewrite Hsent, bool_decide_eq_false_2 by tauto.
  apply dict_has_lookup in Hhas as [v Hv]. rewrite Hv.
  assert (is_str v = true) as Hs.
  { destruct (is_str v) eqn:Ev; [done|]. enough (bad_name e message = true) by congruence. apply existsb_exists.
    exists k. split; [by apply list_elem_of_In|]. unfold dict_has, jget. rewrite Hv, bool_decide_eq_true_2 by done. cbn. by rewrite Ev. }
  destruct v as [| | | |n| |]; try done. cbn. rewrite bool_decide_eq_true_2 by done.
  eexists. split; [done | apply qualified_starts].
Qed.

(** What the gateway asks for a request: its ownership lookups alone, or those
    and one call that its rules allow. *)
Definition confined (p e nonce : string) (rq : request) (asked_ : list asked) : Prop :=
  Forall is_lookup asked_ ∨
  ∃ l a route args message fwd, asked_ = (l ++ [a])%list ∧ Forall is_lookup l ∧
    match_ (rq_method rq) e = Some (route, args) ∧ _request_message rq = Ok message ∧
    (∀ x, x ∈ rules route → rule_holds l args message x) ∧
    q_method a = rq_method rq ∧ q_endpoint a = e ∧ (if bool_decide (rq_method rq = "GET") then q_params a = fwd ∧ q_body a = None else q_params a = [] ∧ q_body a = Some fwd) ∧ sent e nonce p message fwd.

Lemma proxy_asks p e nonce rq u r u' : tenant_prefix company_id = Ok p → log u = [] → proxy e nonce rq u = (r, u') →
  confined p e nonce rq (log u').
Proof.
  intros Hp Hu H. destruct (proxy_confined p e nonce rq u r u' Hp Hu H) as [[Hl _]|(l & a & route & args & m & fwd & H1)]; [by left|].
  right. exists l, a, route, args, m, fwd. naive_solver.
Qed.

(** C28: default deny and tenant confinement: whatever a kernel asks and the
    tracking server answers, the gateway makes only its own ownership lookups,
    or those and then one call that matches the route table, with the request's
    method and endpoint, every id its rules name vouched for by the lookups'
    answers, and the request's fields unchanged but the tenant names, which are
    strings in the tenant's namespace, and a created experiment's location,
    which is under the tenant's prefix. *)
Theorem forwarded_request_owned p e nonce rq u r u' :
  tenant_prefix company_id = Ok p → log u = [] → proxy e nonce rq u = (r, u') →
  Forall is_lookup (log u') ∧ is_ok r = false ∨
  ∃ l a route args message fwd, log u' = (l ++ [a])%list ∧ Forall is_lookup l ∧
    match_ (rq_method rq) e = Some (route, args) ∧ _request_message rq = Ok message ∧
    (∀ x, x ∈ rules route → rule_holds l args message x) ∧
    q_method a = rq_method rq ∧ q_endpoint a = e ∧
    (if bool_decide (rq_method rq = "GET") then q_params a = fwd ∧ q_body a = None else q_params a = [] ∧ q_body a = Some fwd) ∧
    sent e nonce p message fwd ∧
    ∀ k, k ∈ request_name_fields e → k ≠ "artifact_location" → dict_has k message = true →
      ∃ n, dict_lookup k fwd = Some (JStr n) ∧ startswith p n = true.
Proof. apply proxy_confined. Qed.

(** ** Answers *)

(** What the tenant sees of an entry whose name is at [field]: nothing of
    another tenant's, its own by the plain name. *)
Definition visible (p field : string) (v : json) : option json :=
  match v with
  | JDict d => match dict_lookup field d with
               | Some (JStr n) => (λ m, JDict (dict_put field (JStr m) d)) <$> owned_name p (Some n)
               | _ => Some v
               end
  | _ => Some v
  end.

(** The entries a path names are what the tenant sees of the server's, in
    their order, or null for an object it sees nothing of; the rest of the
    answer is as the server gave it. *)
Definition shown_at (p path : string) (d d' : dict) : Prop :=
  let '(head, tail) := str_partition "." path in
  let key := default head (strip_suffix "[]" head) in
  (∀ k, k ≠ key → dict_lookup k d' = dict_lookup k d) ∧
  dict_lookup key d' = (λ v, match strip_suffix "[]" head, v with
                             | Some _, JList items => JList (omap (visible p tail) items)
                             | None, JDict c => default JNull (visible p tail v)
                             | _, _ => v
                             end) <$> dict_lookup key d.

Lemma leaf_visible p v field : tenant_prefix company_id = Ok p →
  ∃ k, _unqualify_leaf v field company_id = Ok k ∧ visible p field v = (if k.1 then Some k.2 else None).
Proof.
  intros Hp. unfold _unqualify_leaf, visible, unqualify_name. rewrite Hp.
  destruct v as [| | | | | |d]; try by eexists. destruct (dict_lookup field d) as [[| | | |n| |]|]; try by eexists.
  cbn [mbind res_bind]. destruct (owned_name p (Some n)); by eexists.
Qed.

Lemma keep_items_visible p field items : tenant_prefix company_id = Ok p →
  keep_items field company_id items = Ok (omap (visible p field) items).
Proof.
  intros Hp. induction items as [|i r IH]; [done|]. cbn [keep_items omap list_omap].
  destruct (leaf_visible p i field Hp) as (k & -> & ->). cbn. rewrite IH. cbn. by destruct k as [[] w].
Qed.

Lemma path_shown p path d d' : tenant_prefix company_id = Ok p → (str_partition "." path).2 ≠ "" →
  _apply_name_path d path company_id = Ok d' → shown_at p path d d'.
Proof.
  intros Hp Hne. unfold _apply_name_path, shown_at. destruct (str_partition "." path) as [head tail]. cbn in Hne.
  destruct (strip_suffix "[]" head) as [key|]; cbn [default id].
  - destruct (dict_lookup key d) as [v|] eqn:E; [|intros [= <-]; split; [done | by rewrite E]].
    destruct v as [| | | | |items|]; try (intros [= <-]; split; [done | by rewrite E]).
    rewrite (keep_items_visible p) by done. intros [= <-]. split; [intros; by apply dict_put_ne | by rewrite dict_put_eq].
  - rewrite bool_decide_eq_false_2 by done. cbn [negb].
    destruct (dict_lookup head d) as [v|] eqn:E; [|intros [= <-]; split; [done | by rewrite E]].
    destruct v as [| | | | | |c]; try (intros [= <-]; split; [done | by rewrite E]).
    destruct (leaf_visible p (JDict c) tail Hp) as (k & -> & Hk). intros [= <-].
    split; [intros; by apply dict_put_ne |]. rewrite dict_put_eq. cbn [fmap option_fmap option_map]. rewrite Hk. by destruct k as [[] w].
Qed.

Lemma table_paths : forallb (λ r, forallb (λ path, negb (bool_decide ((str_partition "." path).2 = ""))) r.2.2) NAME_FIELDS = true.
Proof. vm_compute. reflexivity. Qed.

Lemma response_shown p e d d' : tenant_prefix company_id = Ok p → scope_response e d company_id = Ok d' →
  match response_name_paths e with [] => d' = d | path :: _ => shown_at p path d d' end.
Proof.
  intros Hp H. destruct (name_fields_ok e) as [_ Hlen]. unfold scope_response in H.
  assert (∀ path, path ∈ response_name_paths e → (str_partition "." path).2 ≠ "") as Hne.
  { unfold response_name_paths, name_fields. intros path Hpath. destruct (List.find _ _) as [r|] eqn:E.
    - apply List.find_some in E as [Hin _]. pose proof (proj1 (List.forallb_forall _ _) table_paths r Hin) as Hr.
      pose proof (proj1 (List.forallb_forall _ _) Hr path (proj1 (list_elem_of_In _ _) Hpath)) as Hx. cbn in Hx. bool_hyps. done.
    - by apply elem_of_nil in Hpath. }
  destruct (response_name_paths e) as [|path [|]]; [by injection H as <- | | cbn in Hlen; lia].
  cbn in H. destruct (_apply_name_path d path company_id) as [d1|] eqn:E; [|done]. injection H as <-.
  apply (path_shown p); [done | apply Hne; set_solver | done].
Qed.

(** a tenant sees its own, by the names it gave: the answer to a forwarded
    request is the server's with the entries of the endpoint's path replaced by
    what the tenant sees of them, in order; what it sees of an entry under
    another tenant's name is nothing, and of an entry under a name it asked
    for through the gateway, that name. *)
Theorem answer_shows_own_entries p e nonce rq u st v u' :
  tenant_prefix company_id = Ok p → proxy e nonce rq u = (Ok (st, v), u') →
  (∃ l a data, log u' = (l ++ [a])%list ∧ q_answer a = Ok (st, data) ∧
     match data with
     | JDict d => ∃ d', v = JDict d' ∧ match response_name_paths e with [] => d' = d | path :: _ => shown_at p path d d' end
     | _ => v = data
     end) ∧
  (∀ field d n, dict_lookup field d = Some (JStr n) →
     (∀ b pb, mlflow_name_prefix b = Ok pb → canonical_company_id b ≠ canonical_company_id company_id →
        startswith pb n = true → visible p field (JDict d) = None) ∧
     (∀ m, n = Tenancy.qualify_name p m → startswith p m = false →
        ∃ d', visible p field (JDict d) = Some (JDict d') ∧ dict_lookup field d' = Some (JStr m))).
Proof.
  intros Hp H. split.
  - unfold proxy in H. destruct (match_ _ _) as [[route args]|]; [|done].
    apply bind_inv_ok in H as (message & u1 & _ & H). destruct (bad_name e message); [done|].
    apply bind_inv_ok in H as ([] & u2 & _ & H). apply bind_inv_ok in H as (fwd & u3 & _ & H).
    apply bind_inv_ok in H as (a & u4 & Hf & H).
    assert (∃ q, log u4 = (log u3 ++ [q])%list ∧ q_answer q = Ok a) as (q & Hl & Hq).
    { unfold forward in Hf. case_bool_decide; unfold call_upstream in Hf; injection Hf as Ha <-; eexists; split; done. }
    destruct a as [st' data]. cbn in H.
    assert (u' = u4 ∧ st' = st ∧ match data with JDict d => ∃ d', v = JDict d' ∧ scope_response e d company_id = Ok d' | _ => v = data end) as (-> & -> & Hv).
    { destruct data; try by injection H as <- <- <-. apply bind_inv_ok in H as (d' & u5 & Hd & H).
      apply lift_inv in Hd as [Hd ->]. injection H as <- <- <-. eauto. }
    exists (log u3), q, data. split; [done|]. split; [done|]. destruct data; try done.
    destruct Hv as (d' & -> & Hd). exists d'. split; [done | by apply response_shown].
  - intros field d n Hn. cbn [visible]. rewrite Hn. split.
    + intros b pb Hb Hne Hs. destruct (owned_name p (Some n)) as [m|] eqn:E; [|done]. exfalso.
      apply owned_name_startswith in E as [E _]. apply Hne. exact (prefix_exclusive _ _ _ _ _ Hb Hp Hs E).
    + intros m -> Hm. unfold Tenancy.qualify_name. rewrite Hm.
      assert (owned_name p (Some (p +:+ m)) = Some m) as ->.
      { cbn. destruct (mlflow_prefix_shape _ _ Hp) as [r Hr]. rewrite startswith_app, str_drop_prefix. by rewrite Hr. }
      eexists. split; [done | apply dict_put_eq].
Qed.
End gateway.

(** ** Concrete requests *)

#[local] Existing Instance decoded_codec.

Definition w_company : string := "6f1c2a4e-7d3b-5e8a-9c0f-1b2d3e4f5a6b".
Definition w_prefix : string := "tenant_6f1c2a4e_7d3b_5e8a_9c0f_1b2d3e4f5a6b.".
Definition w_post (body : dict) : request := {| rq_method := "POST"; rq_query := []; rq_body := Some (Ok (JDict body)) |}.
Definition w_experiment (name : string) : res (Z * json) :=
  Ok (200%Z, JDict [("experiment", JDict [("name", JStr name)])]).
Definition w_run (x : string) : res (Z * json) :=
  Ok (200%Z, JDict [("run", JDict [("info", JDict [("experiment_id", JStr x)])])]).
Definition w_up (l : list (res (Z * json))) : upstream := {| answers := l; log := [] |}.
Definition w_proxy := proxy (λ _, "") w_company.

(** A run in the tenant's own experiment is created; one in another's is not. *)
Definition w_create : dict := [("experiment_id", JStr "7"); ("run_name", JStr "pump")].
Definition w_own : upstream := w_up [w_experiment (w_prefix +:+ "pumps"); Ok (200%Z, JDict [])].

Lemma forwarded_request_owned_witness :
  ∃ l a, log (w_proxy "runs/create" "" (w_post w_create) w_own).2 = (l ++ [a])%list ∧ Forall is_lookup l ∧
    q_body a = Some w_create ∧ owned_experiment w_company l "7".
Proof.
  destruct (w_proxy "runs/create" "" (w_post w_create) w_own) as [r u'] eqn:E.
  destruct (forwarded_request_owned (λ _, "") w_company w_prefix "runs/create" "" (w_post w_create) w_own r u')
    as [[_ Hr]|(l & a & route & args & message & fwd & Hl & Hlook & Hm & Hq & Hrules & _ & _ & Hsent & _)].
  - vm_compute. reflexivity.
  - reflexivity.
  - exact E.
  - vm_compute in E. injection E as <- <-. discriminate Hr.
  - exists l, a. vm_compute in Hm. injection Hm as <- <-. injection Hq as <-. destruct Hsent as [_ Hb].
    split; [exact Hl|]. split; [exact Hlook|]. split.
    + vm_compute in E. injection E as <- <-. cbn in Hl. destruct l as [|x [|y [|]]]; try discriminate Hl.
      injection Hl as _ <-. reflexivity.
    + destruct (Hrules TrackingRoutes.experiment) as [_ H]; [left|].
      apply (H (JStr "7")). left.
Defined.

Example foreign_experiment_refused :
  w_proxy "runs/create" "" (w_post w_create) (w_up [w_experiment "tenant_0b7d4c11_2a55_5f60_8e19_aa01c7d2f3e4.pumps"]) =
  (Err (HTTPException 403 unknown_experiment),
   {| answers := []; log := [{| q_method := "GET"; q_endpoint := "experiments/get"; q_params := [("experiment_id", JStr "7")];
      q_body := None; q_answer := w_experiment "tenant_0b7d4c11_2a55_5f60_8e19_aa01c7d2f3e4.pumps" |}] |}).
Proof. vm_compute. reflexivity. Qed.

(** What the table's rules do not name is forwarded as it is.  The tracking
    server's message parser also reads a field by its lowerCamelCase name, so
    the experiments it searches here are the unchecked ones. *)
Definition w_search : dict := [("experiment_id", JStr "7"); ("experimentIds", JList [JStr "9"])].
Example camel_case_unchecked :
  map (λ a, (q_endpoint a, q_params a, q_body a)) (log (w_proxy "runs/search" "" (w_post w_search) w_own).2) =
  [("experiments/get", [("experiment_id", JStr "7")], None); ("runs/search", [], Some w_search)].
Proof. vm_compute. reflexivity. Qed.

(** A metric's [model_id] names a logged model no lookup asks about. *)
Definition w_metric : dict := [("run_id", JStr "r1"); ("model_id", JStr "m-9"); ("key", JStr "loss"); ("value", JInt 1)].
Example metric_model_unchecked :
  map (λ a, (q_endpoint a, q_body a))
    (log (w_proxy "runs/log-metric" "" (w_post w_metric)
            (w_up [w_run "7"; w_experiment (w_prefix +:+ "pumps"); Ok (200%Z, JDict [])])).2) =
  [("runs/get", None); ("experiments/get", None); ("runs/log-metric", Some w_metric)].
Proof. vm_compute. reflexivity. Qed.

(** A search answers the tenant's model by its plain name and drops the other's. *)
Definition w_models : upstream := w_up [Ok (200%Z, JDict [("registered_models",
  JList [JDict [("name", JStr (w_prefix +:+ "pump"))]; JDict [("name", JStr "tenant_0b7d4c11_2a55_5f60_8e19_aa01c7d2f3e4.pump")]])])].
Definition w_get : request := {| rq_method := "GET"; rq_query := []; rq_body := None |}.

Lemma answer_shows_own_entries_witness :
  visible w_prefix "name" (JDict [("name", JStr "tenant_0b7d4c11_2a55_5f60_8e19_aa01c7d2f3e4.pump")]) = None ∧
  (w_proxy "registered-models/search" "" w_get w_models).1 =
    Ok (200%Z, JDict [("registered_models", JList [JDict [("name", JStr "pump")]])]).
Proof.
  split; [|vm_compute; reflexivity].
  destruct (answer_shows_own_entries (λ _, "") w_company w_prefix "registered-models/search" "" w_get w_models 200%Z
    (JDict [("registered_models", JList [JDict [("name", JStr "pump")]])])
    (w_proxy "registered-models/search" "" w_get w_models).2) as [_ H]; [vm_compute; reflexivity..|].
  destruct (H "name" [("name", JStr "tenant_0b7d4c11_2a55_5f60_8e19_aa01c7d2f3e4.pump")]
    "tenant_0b7d4c11_2a55_5f60_8e19_aa01c7d2f3e4.pump") as [Hf _]; [reflexivity|].
  apply (Hf "0b7d4c11-2a55-5f60-8e19-aa01c7d2f3e4" "tenant_0b7d4c11_2a55_5f60_8e19_aa01c7d2f3e4."); vm_compute; try reflexivity.
  discriminate.
Defined.
