(* ===== verification/TrackingAdmission.v ===== *)
(** * Structural admission of an uploaded artifact:
    services/notebook_tracking_gateway/admission.py

    A manifest is what [yaml.safe_load] gives: a graph, since an alias shares
    a node and may close a cycle.  [_walk] is a generator: the list of what it
    yields, ended by the exception that stops it; its recursion stops at the
    interpreter's limit. *)

From stdpp Require Import base strings list.
From Stdlib Require Import ZArith Lia Ascii.
From S2P Require Import Prelude PyText.

Local Open Scope string_scope.

(** ** Manifests *)

(** A mapping's keys are given by their [str], None for the key None; a value
    that is no string, list or mapping (a number, a date, None, a set) is
    [YOther]. *)
Inductive ynode :=
  | YStr (s : string)
  | YOther
  | YSeq (l : list nat)
  | YMap (l : list (option string * nat)).

Abbreviation graph := (list ynode).
Definition node (g : graph) (i : nat) : ynode := default YOther (g !! i).

Fixpoint map_get (k : string) (l : list (option string * nat)) : option nat :=
  match l with
  | [] => None
  | (k', i) :: r => if bool_decide (k' = Some k) then Some i else map_get k r
  end.

(** ** The rule *)

Definition _EXECUTABLE_SERIALISATIONS : list string := ["pickle"; "cloudpickle"; "dill"; "joblib"].
Definition _EXECUTABLE_MARKER_KEYS : list string := ["cloudpickle_version"; "python_model"].
Definition _PICKLE_PROTO_MAGIC : Z := 128.
Definition _PICKLE_PROTO_RANGE (b : Z) : bool := Z.leb 2 b && Z.ltb b 6.
Definition MANIFEST_NAME : string := "MLmodel".

Record Verdict := { admitted : bool; reason : string }.
Definition refused (v : Verdict) : bool := negb (admitted v).
Definition refusal (why : string) : Verdict := {| admitted := false; reason := why |}.

(** [str.lower] below 256. *)
Definition lower (c : ascii) : ascii :=
  let n := code c in
  if (Z.leb 65 n && Z.leb n 90) || (Z.leb 192 n && Z.leb n 222 && negb (Z.eqb n 215))
  then ascii_of_N (Z.to_N (n + 32)) else c.
Fixpoint str_lower (s : string) : string :=
  match s with EmptyString => EmptyString | String c r => String (lower c) (str_lower r) end.

Abbreviation item := (option string * ynode)%type.

Fixpoint _walk (limit : nat) (g : graph) (n : ynode) : list (res item) :=
  match limit with
  | O => [Err RecursionError]
  | S limit =>
      match n with
      | YMap l => List.flat_map (λ kv, Ok (kv.1, node g kv.2) :: _walk limit g (node g kv.2)) l
      | YSeq l => List.flat_map (λ i, _walk limit g (node g i)) l
      | _ => []
      end
  end.

Definition marker (key : option string) : bool :=
  match key with Some k => bool_decide (k ∈ _EXECUTABLE_MARKER_KEYS) | None => false end.
Definition serialisation (v : ynode) : bool :=
  match v with YStr s => bool_decide (str_lower (strip is_space s) ∈ _EXECUTABLE_SERIALISATIONS) | _ => false end.

(** The scan of what the walk yields, up to the first hit or the exception. *)
Fixpoint scan (l : list (res item)) : res (option string) :=
  match l with
  | [] => Ok None
  | Err e :: _ => Err e
  | Ok (key, v) :: r =>
      let k := default "None" key in
      if marker key then Ok (Some ("manifest declares '" +:+ k +:+ "', which is an author-supplied object stream"))
      else if serialisation v
      then Ok (Some ("manifest declares '" +:+ k +:+ ": " +:+ (match v with YStr s => s | _ => "" end) +:+
             "', an object serialisation whose load path can execute author-supplied code"))
      else scan r
  end.

Definition declared_executable_serialisation (limit : nat) (g : graph) (flavors : ynode) : res (option string) :=
  scan (_walk limit g flavors).

Definition is_executable_object_stream (hd : list Z) : bool :=
  match hd with a :: b :: _ => Z.eqb a _PICKLE_PROTO_MAGIC && _PICKLE_PROTO_RANGE b | _ => false end.

Section admission.
(** [yaml.safe_load]: the nodes and the root's index; and the recursion that
    is left at the call. *)
Context (safe_load : string → res (graph * nat)) (limit : nat).

Definition parse_manifest (t : string) : res (option (graph * list (option string * nat))) :=
  match safe_load t with
  | Ok (g, root) => Ok (match node g root with YMap l => Some (g, l) | _ => None end)
  | Err YAMLError => Ok None
  | Err e => Err e
  end.

Definition evaluate (manifest_text : option string) (files : list (string * list Z)) : res Verdict :=
  let t := default "" manifest_text in
  if bool_decide (t = "") then Ok (refusal "artifact has no MLmodel manifest, so what it is cannot be established") else
  manifest ← parse_manifest t;
  match manifest with
  | None => Ok (refusal "MLmodel is not a readable mapping")
  | Some (g, m) =>
      match node g <$> map_get "flavors" m with
      | Some (YMap (f :: fs)) =>
          declared ← declared_executable_serialisation limit g (YMap (f :: fs));
          match declared with
          | Some why => Ok (refusal why)
          | None =>
              match List.find (λ f, is_executable_object_stream f.2) files with
              | Some (path, _) => Ok (refusal ("'" +:+ path +:+ "' is an author-supplied object stream, whatever the manifest says it is"))
              | None => Ok {| admitted := true; reason := "" |}
              end
          end
      | _ => Ok (refusal "MLmodel declares no flavors, so what it is cannot be established")
      end
  end.

(** ** What the rule decides *)

(** The key and value are somewhere under the node. *)
Inductive within (g : graph) : ynode → option string → ynode → Prop :=
  | within_here l k i : (k, i) ∈ l → within g (YMap l) k (node g i)
  | within_value l k0 i k v : (k0, i) ∈ l → within g (node g i) k v → within g (YMap l) k v
  | within_item l i k v : i ∈ l → within g (node g i) k v → within g (YSeq l) k v.

Lemma flat_map_elem {A B} (f : A → list B) l y : y ∈ List.flat_map f l ↔ ∃ x, x ∈ l ∧ y ∈ f x.
Proof. rewrite list_elem_of_In, in_flat_map. by setoid_rewrite <- list_elem_of_In. Qed.

Lemma walk_within d g n k v : Ok (k, v) ∈ _walk d g n → within g n k v.
Proof.
  revert n. induction d as [|d IH]; intros n H; [by apply list_elem_of_singleton in H|].
  destruct n as [s| |l|l]; cbn in H; try by apply elem_of_nil in H.
  - apply flat_map_elem in H as (i & Hi & H). eapply within_item; eauto.
  - apply flat_map_elem in H as ([k0 i] & Hi & H). apply elem_of_cons in H as [[= -> ->]|H].
    + by constructor.
    + eapply within_value; [exact Hi|]. by apply IH.
Qed.

Lemma within_walk d g n k v : (∀ e, Err e ∉ _walk d g n) → within g n k v → Ok (k, v) ∈ _walk d g n.
Proof.
  intros Hno H. revert d Hno. induction H as [l k i Hi|l k0 i k v Hi Hw IH|l i k v Hi Hw IH]; intros d Hno;
    (destruct d as [|d]; [by destruct (Hno RecursionError); left|]); cbn; apply flat_map_elem.
  - exists (k, i). split; [done | left].
  - exists (k0, i). split; [done|]. right. apply IH. intros e He. apply (Hno e). cbn. apply flat_map_elem.
    exists (k0, i). split; [done | by right].
  - exists i. split; [done|]. apply IH. intros e He. apply (Hno e). cbn. apply flat_map_elem. by exists i.
Qed.

Lemma scan_none l : scan l = Ok None ↔ (∀ e, Err e ∉ l) ∧ ∀ k v, Ok (k, v) ∈ l → marker k = false ∧ serialisation v = false.
Proof.
  induction l as [|[[k v]|e] l IH]; cbn.
  - split; [|done]. intros _. split; [intros e He; by apply elem_of_nil in He | intros k v Hk; by apply elem_of_nil in Hk].
  - destruct (marker k) eqn:Ek; [split; [done|]; intros [_ H]; destruct (H k v); [left | congruence]|].
    destruct (serialisation v) eqn:Ev; [split; [done|]; intros [_ H]; destruct (H k v); [left | congruence]|].
    rewrite IH. split; intros [H1 H2]; split.
    + intros e [?|?]%elem_of_cons; [done | by apply (H1 e)].
    + intros k' v' [[= -> ->]|?]%elem_of_cons; auto.
    + intros e He. apply (H1 e). by right.
    + intros k' v' H. apply H2. by right.
  - split; [done|]. intros [H _]. destruct (H e). left.
Qed.

Lemma scan_stops l why : scan l = Ok (Some why) → ∃ k v, Ok (k, v) ∈ l ∧ (marker k = true ∨ serialisation v = true).
Proof.
  induction l as [|[[k v]|e] l IH]; cbn; [done| |done].
  destruct (marker k) eqn:Ek; [intros _; exists k, v; split; [left | by left]|].
  destruct (serialisation v) eqn:Ev; [intros _; exists k, v; split; [left | by right]|].
  intros (k' & v' & H & Hm)%IH. exists k', v'. split; [by right | done].
Qed.

(** The flavors declare no executable serialisation, at any depth. *)
Definition declares_nothing (t : string) : Prop :=
  ∃ g root m i f fs, safe_load t = Ok (g, root) ∧ node g root = YMap m ∧ map_get "flavors" m = Some i ∧
    node g i = YMap (f :: fs) ∧ ∀ k v, within g (YMap (f :: fs)) k v → marker k = false ∧ serialisation v = false.

Lemma declared_none g n : declared_executable_serialisation limit g n = Ok None →
  ∀ k v, within g n k v → marker k = false ∧ serialisation v = false.
Proof. intros [Hno H]%scan_none k v Hw. apply H. by apply within_walk. Qed.

Lemma declared_some g n why : declared_executable_serialisation limit g n = Ok (Some why) →
  ∃ k v, within g n k v ∧ (marker k = true ∨ serialisation v = true).
Proof. intros (k & v & H & Hm)%scan_stops. exists k, v. split; [by eapply walk_within | done]. Qed.

Lemma evaluate_manifest t files v : t ≠ "" → evaluate (Some t) files = Ok v →
  (admitted v = false ∧ ¬ declares_nothing t) ∨
  (declares_nothing t ∧ admitted v = negb (existsb (λ f, is_executable_object_stream f.2) files)).
Proof.
  intros Ht. unfold evaluate. change (default "" (Some t)) with t. rewrite bool_decide_eq_false_2 by done.
  intros (manifest & Hman & H)%res_bind_inv_ok. unfold parse_manifest in Hman.
  destruct (safe_load t) as [[g root]|x] eqn:El in Hman.
  2:{ assert (manifest = None) as -> by (clear -Hman; destruct x; cbn in Hman; congruence). injection H as <-. left. split; [done|].
      intros (g & root & m & i & f & fs & Hl & _). congruence. }
  injection Hman as <-. destruct (node g root) as [| | |m] eqn:En in H.
  1-3: (injection H as <-; left; split; [done|]; intros (g' & root' & m & i & f & fs & Hl & Hn & _); rewrite El in Hl; injection Hl as <- <-; congruence).
  destruct (map_get "flavors" m) as [i|] eqn:Eg in H; cbn [fmap option_fmap option_map] in H.
  2:{ injection H as <-. left. split; [done|]. intros (g' & root' & m' & i & f & fs & Hl & Hn & Hg & _). rewrite El in Hl. injection Hl as <- <-. congruence. }
  destruct (node g i) as [| | |[|f fs]] eqn:Ei in H.
  1-4: (injection H as <-; left; split; [done|]; intros (g' & root' & m' & i' & f' & fs' & Hl & Hn & Hg & Hi & _); rewrite El in Hl; injection Hl as <- <-; congruence).
  apply res_bind_inv_ok in H as (declared & Hd & H). destruct declared as [why|].
  - injection H as <-. left. split; [done|]. intros (g' & root' & m' & i' & f' & fs' & Hl & Hn & Hg & Hi & Hw).
    assert (g' = g ∧ root' = root) as [-> ->] by (split; congruence). assert (m' = m) as -> by congruence.
    assert (i' = i) as -> by congruence. apply declared_some in Hd as (k & w & Hwi & Hm). rewrite Hi in Ei. injection Ei as -> ->.
    destruct (Hw k w Hwi). destruct Hm; congruence.
  - right. split; [exists g, root, m, i, f, fs; split_and!; try done; by apply declared_none|].
    destruct (List.find _ files) as [[path hd]|] eqn:Ef in H; injection H as <-; cbn.
    + apply List.find_some in Ef as [Hin Hs]. assert (existsb (λ f, is_executable_object_stream f.2) files = true) as ->; [|done].
      apply existsb_exists. by exists (path, hd).
    + symmetry. apply negb_true_iff, not_true_iff_false. intros (x & Hin & Hx)%existsb_exists.
      by rewrite (List.find_none _ _ Ef x Hin) in Hx.
Qed.

Lemma evaluate_decides manifest_text files v :
  evaluate manifest_text files = Ok v →
  admitted v = true ↔
  (∃ t, manifest_text = Some t ∧ t ≠ "" ∧ declares_nothing t) ∧
  (∀ path hd, (path, hd) ∈ files → is_executable_object_stream hd = false).
Proof.
  intros H. destruct manifest_text as [t|]; [|injection H as <-; split; [done|]; by intros [(t & ? & _) _]].
  destruct (decide (t = "")) as [->|Ht]; [injection H as <-; split; [done|]; intros [(t & [= <-] & ? & _) _]; done|].
  destruct (evaluate_manifest t files v Ht H) as [[-> Hno]|[Hd ->]].
  - split; [done|]. by intros [(t' & [= <-] & _ & Hd) _].
  - rewrite negb_true_iff, <- not_true_iff_false, existsb_exists. split.
    + intros Hno. split; [by exists t|]. intros path hd Hin. apply not_true_iff_false. intros Hs.
      apply Hno. exists (path, hd). by rewrite <- list_elem_of_In.
    + intros [_ Hall] ([path hd] & Hin%list_elem_of_In & Hs). cbn in Hs. by rewrite (Hall _ _ Hin) in Hs.
Qed.
Lemma walk_error d g n e : Err e ∈ _walk d g n → e = RecursionError.
Proof.
  revert n. induction d as [|d IH]; intros n; [by intros [= ->]%list_elem_of_singleton|].
  destruct n as [s| |l|l]; cbn; try by intros H%elem_of_nil.
  - intros (i & _ & H)%flat_map_elem. by eapply IH.
  - intros ([k i] & _ & [?|H]%elem_of_cons)%flat_map_elem; [done|]. by eapply IH.
Qed.

Lemma scan_error l e : scan l = Err e → Err e ∈ l.
Proof.
  induction l as [|[[k v]|x] l IH]; cbn; [done| |intros [= ->]; left].
  destruct (marker k); [done|]. destruct (serialisation v); [done|]. right. auto.
Qed.

(** Judging raises what the parser raises, or stops at the recursion limit. *)
Lemma evaluate_error manifest_text files e : evaluate manifest_text files = Err e →
  e = RecursionError ∨ ∃ t, safe_load t = Err e.
Proof.
  unfold evaluate. set (t := default "" manifest_text). case_bool_decide; [done|].
  destruct (parse_manifest t) as [[[g m]|]|x] eqn:Ep; [| done |].
  - cbn. destruct (node g <$> map_get "flavors" m) as [[| | |[|f fs]]|]; try done.
    destruct (declared_executable_serialisation _ _ _) as [[why|]|x] eqn:Ed; cbn; [done| |].
    + by destruct (List.find _ files) as [[]|].
    + intros [= <-]. left. by apply scan_error, walk_error in Ed.
  - cbn. intros [= <-]. right. exists t. unfold parse_manifest in Ep. destruct (safe_load t) as [[]|y]; [done|].
    destruct y; congruence.
Qed.

(** C31: the admission rule is exactly this: whenever it gives a verdict, it
    admits an artifact if and only if there is a manifest, a mapping with
    non-empty flavors, nothing anywhere under them (through any nesting or
    alias) has a marker key or names an executable serialisation, and no
    member's opening bytes frame an object stream. *)
Theorem evaluate_admits_exactly manifest_text files v :
  evaluate manifest_text files = Ok v →
  admitted v = true ↔
  (∃ t, manifest_text = Some t ∧ t ≠ "" ∧ declares_nothing t) ∧
  (∀ path hd, (path, hd) ∈ files → is_executable_object_stream hd = false).
Proof. apply evaluate_decides. Qed.
End admission.

(** ** Concrete manifests *)

(** [flavors: {python_function: {loader: x}}] and one whose nested list names a
    serialisation. *)
Definition w_safe : graph := [YMap [(Some "flavors", 1%nat)]; YMap [(Some "python_function", 2%nat)]; YMap [(Some "loader", 3%nat)]; YStr "onnx"].
Definition w_unsafe : graph := [YMap [(Some "flavors", 1%nat)]; YMap [(Some "sklearn", 2%nat)]; YSeq [3%nat]; YMap [(Some "format", 4%nat)]; YStr " Pickle "].
Definition w_load (t : string) : res (graph * nat) :=
  if bool_decide (t = "safe") then Ok (w_safe, 0%nat) else if bool_decide (t = "unsafe") then Ok (w_unsafe, 0%nat) else Err YAMLError.

Lemma evaluate_admits_exactly_witness :
  declares_nothing w_load "safe" ∧ admitted {| admitted := true; reason := "" |} = true.
Proof.
  destruct (evaluate_admits_exactly w_load 100 (Some "safe") [("model.onnx", [8%Z; 1%Z])] {| admitted := true; reason := "" |})
    as [H _]; [vm_compute; reflexivity|].
  destruct (H eq_refl) as [(t & [= <-] & _ & Hd) _]. split; [exact Hd | reflexivity].
Defined.

Example unsafe_refused : admitted <$> evaluate w_load 100 (Some "unsafe") [] = Ok false.
Proof. vm_compute. reflexivity. Qed.
Example stream_refused : admitted <$> evaluate w_load 100 (Some "safe") [("model.bin", [128%Z; 4%Z; 149%Z])] = Ok false.
Proof. vm_compute. reflexivity. Qed.

(** An alias that closes a cycle ([flavors: &a {x: *a}]) is walked until the
    interpreter's limit, however high it is. *)
Definition w_cycle : graph := [YMap [(Some "flavors", 1%nat)]; YMap [(Some "x", 1%nat)]].
Lemma cycle_raises limit : evaluate (λ _, Ok (w_cycle, 0%nat)) limit (Some "cycle") [] = Err RecursionError.
Proof.
  assert (∀ d, scan (_walk d w_cycle (node w_cycle 1)) = Err RecursionError) as H.
  { induction d as [|d IH]; [done|]. cbn -[_walk node]. cbn [node w_cycle _walk]. cbn in IH |- *. by rewrite app_nil_r. }
  assert (declared_executable_serialisation limit w_cycle (YMap [(Some "x", 1%nat)]) = Err RecursionError) as Hd by exact (H limit).
  unfold evaluate. cbn -[declared_executable_serialisation]. rewrite (bool_decide_eq_false_2 ("cycle" = "")), bool_decide_eq_true_2 by done. cbn -[declared_executable_serialisation]. by rewrite Hd.
Qed.

(** Aliases multiply: fifteen mappings, each naming the next twice, are walked
    as 65534 pairs. *)
Definition w_doubling (n : nat) : graph :=
  map (λ i, YMap [(Some "a", S i); (Some "b", S i)]) (seq 0 n).
Example aliases_multiply : Z.of_nat (length (_walk 100 (w_doubling 15) (node (w_doubling 15) 0))) = 65534%Z.
Proof. vm_compute. reflexivity. Qed.
