(* ===== verification/TrackingUploads.v ===== *)
(** * The tracking gateway's artifacts and uploads: services/notebook_tracking_gateway

    The keys of staged and admitted uploads (staging.py, policy.py), the
    artifact plane a kernel uses and the upload plane: staging, then judging
    and admitting (gateway.py), over an object store others write too. *)

From stdpp Require Import base strings list gmap sorting.
From Stdlib Require Import ZArith Lia Ascii.
From S2P Require Import Prelude PyText PyNum PyJson Tenancy CapabilityAudit SqlBinding HubCapabilities ApiCapabilities TrackingPolicy TrackingAdmission.

Local Open Scope string_scope.

#[local] Arguments uuid_str : simpl never.
#[local] Arguments uuid_parse : simpl never.
#[local] Arguments t_of : simpl never.

(** ** Keys *)

Definition STAGING_ROOT : string := "_upload-staging/".
Definition ADMITTED_ROOT : string := "uploads/".
Definition MAX_MEMBERS : nat := 64.
Definition _MANIFEST_MAX_BYTES : Z := 262144.
Definition _HEAD_BYTES : Z := 16.

Definition is_id_char (c : ascii) : bool :=
  let n := code c in
  (Z.leb 48 n && Z.leb n 57) || (Z.leb 65 n && Z.leb n 90) || (Z.leb 97 n && Z.leb n 122) || Z.eqb n 45 || Z.eqb n 95.
Definition id_body (s : string) : bool :=
  Nat.leb 16 (String.length s) && Nat.leb (String.length s) 64 && str_all is_id_char s.

(** [$] also matches before a last newline. *)
Definition is_upload_id (value : string) : bool :=
  id_body value ||
  match strip_suffix (String (ascii_of_nat 10) "") value with Some s => id_body s | None => false end.

Definition unsafe_char (c : ascii) : bool := Z.ltb (code c) 32 || Z.eqb (code c) 127.
Definition safe_member_path (name : string) : option string :=
  if bool_decide (name = "") then None else
  if Nat.ltb 512 (String.length name) then None else
  if startswith "/" name || startswith "\" name then None else
  if str_has "\" name then None else
  if str_any unsafe_char name then None else
  let segments := str_split "/" name in
  if negb (forallb plain_segment segments) then None else Some (str_join "/" segments).

Definition signs_for_the_edge (key : string) : bool := startswith STAGING_ROOT (lstrip is_slash key).
Definition staging_prefix (token upload_id : string) : string := STAGING_ROOT +:+ token +:+ "/" +:+ upload_id +:+ "/".
Definition staging_key (token upload_id member : string) : string :=
  STAGING_ROOT +:+ token +:+ "/" +:+ upload_id +:+ "/" +:+ member.
Definition admitted_key (prefix upload_id member : string) : string :=
  prefix +:+ ADMITTED_ROOT +:+ upload_id +:+ "/" +:+ member.
Definition admitted_uri (bucket prefix upload_id : string) : string :=
  "s3://" +:+ bucket +:+ "/" +:+ prefix +:+ ADMITTED_ROOT +:+ upload_id.

(** [rstrip("/")] of the two roots *)
Definition reserved : list string := [rstrip is_slash ADMITTED_ROOT; rstrip is_slash STAGING_ROOT].
Definition is_upload_reserved (company scoped_key : string) : res bool :=
  let key := lstrip is_slash scoped_key in
  p ← artifact_prefix company;
  let relative := match owned_name p (Some key) with Some r => if bool_decide (r = "") then key else r | None => key end in
  Ok (bool_decide ((str_partition "/" relative).1 ∈ reserved)).

(** ** The object store *)

(** An object's bytes and its ETag. *)
Abbreviation object := (list Z * string)%type.
Abbreviation objects := (gmap string object).

Inductive op := OpDelete (key : string) | OpCopy (src dst : string) | OpPresign (method key : string) | OpList (prefix : string).

(** Before each call others may change the store; [a_call] is the call's
    outcome.  [done]: what the gateway did. *)
Record astep := { a_others : objects → objects; a_call : call }.
Record astore := { objs : objects; a_steps : list astep; done_ : list op }.

Definition astore_next : M astore call := λ s,
  match a_steps s with
  | [] => (Ok Runs, s)
  | st :: r => (Ok (a_call st), {| objs := a_others st (objs s); a_steps := r; done_ := done_ s |})
  end.

Definition on_objects {A} (f : objects → A * objects) (l : list op) : M astore A := λ s,
  let r := f (objs s) in (Ok r.1, {| objs := r.2; a_steps := a_steps s; done_ := (done_ s ++ l)%list |}).

Definition astore_op {A} (f : objects → A * objects) (l : A → list op) : M astore A :=
  c ← astore_next;
  let go := λ s, on_objects f (l (f (objs s)).1) s in
  match c with
  | Runs => go
  | Fails e => raise e
  | Lost e => _ ← go; raise e
  end.

Definition log_op (o : op) : M astore unit :=
  λ s, (Ok tt, {| objs := objs s; a_steps := a_steps s; done_ := (done_ s ++ [o])%list |}).
Definition presign (method key : string) : M astore unit := log_op (OpPresign method key).
Definition store_delete (key : string) : M astore unit := astore_op (λ m, (tt, delete key m)) (λ _, [OpDelete key]).
Definition list_keys (prefix : string) : M astore (list string) :=
  astore_op (λ m, (List.filter (startswith prefix) (map fst (map_to_list m)), m)) (λ _, []).

(** [l[:n]] *)
Fixpoint first (n : Z) (l : list Z) : list Z :=
  match l with x :: r => if Z.leb n 0 then [] else x :: first (n - 1) r | [] => [] end.

(** The first [n] bytes and the ETag they are of.  A range of an empty object
    cannot be satisfied, which the adapter reads as an absent one. *)
Definition store_head (key : string) (n : Z) : M astore (option object) :=
  astore_op (λ m, (match m !! key with
                   | Some ([], _) | None => None
                   | Some o => Some (first n o.1, o.2)
                   end, m)) (λ _, []).
(** A copy conditional on the source's ETag. *)
Definition store_copy (src dst if_match : string) : M astore bool :=
  astore_op (λ m, match m !! src with
                  | Some o => if bool_decide (o.2 = if_match) then (true, <[dst := o]> m) else (false, m)
                  | None => (false, m)
                  end)
            (λ ok, if ok : bool then [OpCopy src dst] else []).

(** ** The artifact plane *)

Definition _artifact_key (company path : string) : res string :=
  match scope_artifact_key company path with
  | Err e => if is_value_error e then Err (HTTPException 400 "path is not a plain key") else Err e
  | k => k
  end.

Inductive answer := Redirect (method key : string) | Empty.

Definition artifact_object (method path company : string) : M astore answer :=
  key ← lift (_artifact_key company path);
  reserved ← lift (if bool_decide (method = "PUT" ∨ method = "DELETE") then is_upload_reserved company key else Ok false);
  if reserved : bool then raise (HTTPException 403 "uploaded artifacts are written only by the upload plane") else
  if bool_decide (method = "DELETE") then _ ← store_delete key; mret Empty else
  let verb := if bool_decide (method = "PUT") then "PUT" else "GET" in
  _ ← presign verb key; mret (Redirect verb key).

(** The prefix handed to the store's listing. *)
Definition artifact_list (path company : string) : M astore string :=
  prefix ← lift (_artifact_key company path);
  _ ← log_op (OpList prefix);
  mret prefix.

(** ** Staging *)

Fixpoint safe_members (raws : list json) (safe : list string) : res (list string) :=
  match raws with
  | [] => Ok safe
  | raw :: r =>
      match safe_member_path (match raw with JStr s => s | _ => "" end) with
      | None => Err (HTTPException 400 "unusable file path")
      | Some m => safe_members r (if bool_decide (m ∈ safe) then safe else safe ++ [m])%list
      end
  end.

Fixpoint presign_each (token upload_id : string) (members : list string) : M astore unit :=
  match members with
  | [] => mret tt
  | m :: r => _ ← presign "PUT" (staging_key token upload_id m); presign_each token upload_id r
  end.

(** [upload_id]: what [new_upload_id] draws.  The members signed for. *)
Definition upload_stage (body : dict) (company upload_id : string) : M astore (list string) :=
  match jget "files" body with
  | JList (f :: fs) =>
      if Nat.ltb MAX_MEMBERS (length (f :: fs)) then raise (HTTPException 400 "an artifact may carry at most 64 files") else
      safe ← lift (safe_members (f :: fs) []);
      if negb (bool_decide (MANIFEST_NAME ∈ safe)) then raise (HTTPException 400 "an artifact must carry its MLmodel manifest") else
      token ← lift (tenant_token company);
      _ ← presign_each token upload_id safe;
      mret safe
  | _ => raise (HTTPException 400 "an upload must name its files")
  end.

(** ** Judging and admitting *)

Fixpoint discard (keys : list string) : M astore unit :=
  match keys with [] => mret tt | k :: r => _ ← store_delete k; discard r end.

Abbreviation reads := (gmap string (option object)).
Definition read_of (rs : reads) (k : string) : option object := default None (rs !! k).

Fixpoint read_each (prefix : string) (keys : list string) (rs : reads) : M astore reads :=
  match keys with
  | [] => mret rs
  | k :: r =>
      o ← store_head k (if bool_decide (k = prefix +:+ MANIFEST_NAME) then _MANIFEST_MAX_BYTES + 1 else _HEAD_BYTES)%Z;
      read_each prefix r (<[k := o]> rs)
  end.

Definition member_of (prefix key : string) : string := default "" (owned_name prefix (Some key)).
Definition heads (prefix : string) (keys : list string) (rs : reads) : list (string * list Z) :=
  map (λ k, (member_of prefix k, first _HEAD_BYTES (match read_of rs k with Some o => o.1 | None => [] end))) keys.

Fixpoint promote (dst : string → string) (rs : reads) (all keys admitted : list string) : M astore unit :=
  match keys with
  | [] => mret tt
  | k :: r =>
      ok ← match read_of rs k with None => mret false | Some o => store_copy k (dst k) o.2 end;
      if ok : bool then promote dst rs all r (admitted ++ [dst k])%list
      else _ ← discard (admitted ++ all)%list; raise (HTTPException 409 "the upload changed while it was being judged")
  end.

Definition string_le (a b : string) : Prop := String.leb a b = true.
#[export] Instance string_le_dec : RelDecision string_le.
Proof. intros a b. unfold string_le. apply _. Defined.

(** ** What is done in a tenant *)

Definition in_tenant (company k : string) : Prop :=
  (∃ p, artifact_prefix company = Ok p ∧ startswith p k = true) ∨
  (∃ t, tenant_token company = Ok t ∧ startswith (STAGING_ROOT +:+ t +:+ "/") k = true).
Definition op_in (company : string) (o : op) : Prop :=
  match o with
  | OpDelete k | OpPresign _ k | OpList k => in_tenant company k
  | OpCopy src dst => in_tenant company src ∧ in_tenant company dst
  end.

Definition acted (company : string) (s s' : astore) : Prop := ∃ l, done_ s' = (done_ s ++ l)%list ∧ Forall (op_in company) l.
#[export] Instance acted_refl company : Reflexive (acted company).
Proof. intros s. exists []. by rewrite app_nil_r. Qed.
#[export] Instance acted_trans company : Transitive (acted company).
Proof.
  intros s1 s2 s3 (l & E & H) (l' & E' & H'). exists (l ++ l')%list. rewrite E', E, app_assoc. split; [done | by apply Forall_app].
Qed.

Lemma acted_log company o : op_in company o → respects (acted company) (log_op o).
Proof. intros Ho s. exists [o]. split; [done | by constructor]. Qed.

Lemma acted_op company {A} (f : objects → A * objects) (l : A → list op) : (∀ a, Forall (op_in company) (l a)) →
  respects (acted company) (astore_op f l).
Proof.
  intros Hl s. unfold final, astore_op, astore_next, mbind, M_bind. destruct (a_steps s) as [|st steps]; [by eexists|].
  destruct (a_call st); cbn; [by eexists | exists []; by rewrite app_nil_r | by eexists].
Qed.

(** A listing's keys are under its prefix. *)
Lemma list_keys_under prefix : yields (λ ks, ∀ k, k ∈ ks → startswith prefix k = true) (list_keys prefix).
Proof.
  intros s ks s' H k Hk. unfold list_keys, astore_op in H. apply bind_inv_ok in H as (c & s1 & _ & H).
  destruct c; [|done|by apply bind_inv_ok in H as (? & ? & _ & ?)]. injection H as <- _.
  apply list_elem_of_In, filter_In in Hk. apply Hk.
Qed.

Section uploads.
Context `{J : JsonCodec} `{I : IsoCodec}.
(** The hub's view of the capability store serves the claim, [cap_store] the
    record; both are one Redis, which others change between calls in either. *)
Record gw := { g_hub : hub; g_caps : cap_store; g_store : astore }.
Definition on_hub {A} (m : M hub A) : M gw A :=
  zoom g_hub (λ h s, {| g_hub := h; g_caps := g_caps s; g_store := g_store s |}) m.
Definition on_caps {A} (m : M cap_store A) : M gw A :=
  zoom g_caps (λ c s, {| g_hub := g_hub s; g_caps := c; g_store := g_store s |}) m.
Definition on_store {A} (m : M astore A) : M gw A :=
  zoom g_store (λ a s, {| g_hub := g_hub s; g_caps := g_caps s; g_store := a |}) m.

Context (trim : nat → nat) (sha256_hex : text → string) (py_repr : json → string).
(** [bytes.decode("utf-8", "replace")], [yaml.safe_load] and the recursion left. *)
Context (utf8_replace : list Z → string) (safe_load : string → res (graph * nat)) (limit : nat) (bucket : string).

(** [{k: v for k, v in facts.items() if v}] *)
Definition lost_claim_facts (b : TrackingBinding) : facts :=
  {| fact_user := if truthy (user b) then shown py_repr (user b) else None;
     fact_company_id := if bool_decide (company_id b = "") then None else Some (company_id b);
     fact_audience := if bool_decide (audience b = "") then None else Some (audience b);
     fact_handle_id := handle_id b |}.

Definition judge (prefix : string) (keys : list string) (rs : reads) : M astore unit :=
  let manifest := read_of rs (prefix +:+ MANIFEST_NAME) in
  if (match manifest with Some o => Z.ltb _MANIFEST_MAX_BYTES (Z.of_nat (length o.1)) | None => false end)
  then _ ← discard keys; raise (HTTPException 422 "the MLmodel manifest is larger than 262144 bytes")
  else
    verdict ← lift (evaluate safe_load limit ((λ o, utf8_replace o.1) <$> manifest) (heads prefix keys rs));
    if refused verdict then _ ← discard keys; raise (HTTPException 422 (reason verdict)) else mret tt.

(** From the reads on. *)
Definition admit_upload (company prefix upload_id : string) (keys : list string) : M astore (string * list string) :=
  rs ← read_each prefix keys ∅;
  _ ← judge prefix keys rs;
  ap ← lift (artifact_prefix company);
  _ ← promote (λ k, admitted_key ap upload_id (member_of prefix k)) rs keys keys [];
  _ ← discard keys;
  mret (admitted_uri bucket ap upload_id, merge_sort string_le (map fst (heads prefix keys rs))).

Definition claim (handle : string) (b : TrackingBinding) : M gw unit :=
  claimed ← on_hub (consume_upload_handle py_repr handle b);
  if claimed : bool then mret tt
  else _ ← on_caps (record_resolution trim sha256_hex py_repr (t_of handle) (None, Some "already_consumed", lost_claim_facts b) None);
       raise (HTTPException 401 "upload capability refused").

Definition staged_keys (prefix : string) (listed : list string) : list string :=
  List.filter (λ k, negb (bool_decide (member_of prefix k = ""))) listed.

Definition upload_commit (body : dict) (b : TrackingBinding) (handle : string) : M gw (string * list string) :=
  match jget "upload_id" body with
  | JStr upload_id =>
      if negb (is_upload_id upload_id) then raise (HTTPException 400 "unknown upload") else
      token ← lift (tenant_token (company_id b));
      let prefix := staging_prefix token upload_id in
      listed ← on_store (list_keys prefix);
      match staged_keys prefix listed with
      | [] => raise (HTTPException 404 "nothing staged for this upload")
      | keys => _ ← claim handle b; on_store (admit_upload (company_id b) prefix upload_id keys)
      end
  | _ => raise (HTTPException 400 "unknown upload")
  end.

(** ** What the store keeps *)

Section keeps.
Context (P : objects → Prop).

Definition stays (s : astore) : Prop := P (objs s) ∧ Forall (λ st, ∀ m, P m → P (a_others st m)) (a_steps s).

(** [m] keeps [P], and if it returns then [Q]. *)
Definition keeps {A} (m : M astore A) (Q : A → Prop) : Prop := ∀ s r s',
  m s = (r, s') → stays s → stays s' ∧ ∀ a, r = Ok a → Q a.

Lemma keeps_ret {A} (a : A) (Q : A → Prop) : Q a → keeps (mret a) Q.
Proof. intros HQ s r s' [= <- <-] Hs. split; [done|]. by intros ? [= <-]. Qed.
Lemma keeps_raise {A} e (Q : A → Prop) : keeps (raise e) Q.
Proof. intros s r s' [= <- <-] Hs. by split. Qed.
Lemma keeps_lift {A} (x : res A) (Q : A → Prop) : (∀ a, x = Ok a → Q a) → keeps (lift x) Q.
Proof. intros HQ s r s' [= <- <-] Hs. by split. Qed.
Lemma keeps_bind {A B} (m : M astore A) (k : A → M astore B) Q R :
  keeps m Q → (∀ a, Q a → keeps (k a) R) → keeps (m ≫= k) R.
Proof.
  intros Hm Hk s r s' H Hs. unfold mbind, M_bind in H. destruct (m s) as [[a|e] s1] eqn:E.
  - destruct (Hm _ _ _ E Hs) as [H1 HQ]. exact (Hk a (HQ a eq_refl) _ _ _ H H1).
  - injection H as <- <-. destruct (Hm _ _ _ E Hs) as [H1 _]. by split.
Qed.

Lemma keeps_op {A} (f : objects → A * objects) (l : A → list op) (Q : A → Prop) :
  (∀ m, P m → P (f m).2 ∧ Q (f m).1) → keeps (astore_op f l) Q.
Proof.
  intros Hf s r s' H [HP Ho]. unfold astore_op, astore_next, mbind, M_bind in H.
  destruct (a_steps s) as [|st steps] eqn:Est.
  - injection H as <- <-. destruct (Hf _ HP). split; [|by intros a [= <-]]. by split; [|rewrite Est].
  - inversion Ho as [|x y Hst Hsteps]; subst. pose proof (Hst _ HP) as HP1.
    destruct (a_call st); injection H as <- <-; destruct (Hf _ HP1); (split; [by split|]); try done. by intros a [= <-].
Qed.

Lemma keeps_delete k : (∀ m k, P m → P (delete k m)) → keeps (store_delete k) (λ _, True).
Proof. intros H. apply keeps_op. intros m Hm. split; [by apply H | done]. Qed.
Lemma keeps_discard ks : (∀ m k, P m → P (delete k m)) → keeps (discard ks) (λ _, True).
Proof.
  intros H. induction ks as [|k ks IH]; [by apply keeps_ret|]. cbn. eapply keeps_bind; [by apply keeps_delete|]. auto.
Qed.
End keeps.

(** ** Only judged bytes are admitted *)

Lemma first_length n l : (Z.of_nat (length (first n l)) ≤ Z.max 0 n)%Z.
Proof.
  revert n. induction l as [|x l IH]; intros n; cbn; [lia|].
  destruct (Z.leb_spec n 0); cbn; [lia|]. specialize (IH (n - 1)%Z). lia.
Qed.

Lemma first_short n l : (Z.of_nat (length (first n l)) < n)%Z → first n l = l.
Proof.
  revert n. induction l as [|x l IH]; intros n; cbn; [done|].
  destruct (Z.leb_spec n 0); cbn; [lia|]. intros H1. f_equal. apply IH. lia.
Qed.

Lemma first_stream n k l : (2 ≤ n)%Z → (2 ≤ k)%Z → is_executable_object_stream (first n (first k l)) = is_executable_object_stream l.
Proof.
  intros Hn Hk. destruct l as [|a [|b l]]; cbn; [done| |];
    (destruct (Z.leb_spec k 0); [lia|]; destruct (Z.leb_spec (k - 1) 0); [lia|]);
    cbn; (destruct (Z.leb_spec n 0); [lia|]; destruct (Z.leb_spec (n - 1) 0); [lia|]); reflexivity.
Qed.

(** An ETag names the bytes of one version ([named]). *)
Context (named : string → list Z).
Definition consistent (m : objects) : Prop := ∀ k c t, m !! k = Some (c, t) → c = named t.

(** What the upload rule demands of an admitted object at [k]: no object
    stream, and in a manifest no declaration of one. *)
Definition judged_at (ap k : string) (c : list Z) : Prop :=
  startswith (ap +:+ ADMITTED_ROOT) k = true →
  is_executable_object_stream c = false ∧
  ∀ id, is_upload_id id = true → k = admitted_key ap id MANIFEST_NAME → declares_nothing safe_load (utf8_replace c).
Definition judged (ap : string) (m : objects) : Prop := ∀ k c t, m !! k = Some (c, t) → judged_at ap k c.

Lemma partition_at c a b : str_all (λ d, negb (bool_decide (d = c))) a = true → str_partition c (a +:+ String c b) = (a, b).
Proof.
  induction a as [|d a IH]; [intros _; change ("" +:+ String c b) with (String c b); cbn; by rewrite bool_decide_eq_true_2|cbn].
  intros [Hd Ha]%andb_true_iff. bool_hyps. change (String d a +:+ String c b) with (String d (a +:+ String c b)).
  cbn. rewrite bool_decide_eq_false_2 by done. by rewrite IH.
Qed.

Lemma strip_suffix_Some t x r : strip_suffix t x = Some r → x = r +:+ t.
Proof. unfold strip_suffix. case_bool_decide; [|done]. by intros [= <-]. Qed.

Lemma id_char_slash c : is_id_char c = true → negb (bool_decide (c = "/"%char)) = true.
Proof. intros H. apply negb_true_iff, bool_decide_eq_false. intros ->. done. Qed.

Lemma upload_id_segment id : is_upload_id id = true → str_all (λ d, negb (bool_decide (d = "/"%char))) id = true.
Proof.
  assert (∀ x, id_body x = true → str_all (λ d, negb (bool_decide (d = "/"%char))) x = true) as Hb.
  { intros x [_ H]%andb_true_iff. eapply str_all_impl; [|exact H]. apply id_char_slash. }
  unfold is_upload_id. intros [H|H]%orb_true_iff; [by apply Hb|].
  destruct (strip_suffix _ id) as [x|] eqn:E; [|done]. apply strip_suffix_Some in E as ->.
  rewrite str_all_app, (Hb x H). done.
Qed.

Lemma admitted_key_inj ap id id' x y : is_upload_id id = true → is_upload_id id' = true →
  admitted_key ap id x = admitted_key ap id' y → x = y.
Proof.
  intros H H' E. unfold admitted_key in E. apply str_app_inj_l, str_app_inj_l in E.
  apply (f_equal (str_partition "/")) in E. cbn [String.append] in E.
  change ("/" +:+ x) with (String "/" x) in E. change ("/" +:+ y) with (String "/" y) in E.
  rewrite !partition_at in E by (by apply upload_id_segment). by injection E.
Qed.

Lemma staged_member prefix listed k : k ∈ staged_keys prefix listed → k = prefix +:+ member_of prefix k.
Proof.
  unfold staged_keys. rewrite list_elem_of_In, List.filter_In. intros [_ H]. bool_hyps. unfold member_of in *.
  destruct (owned_name prefix (Some k)) as [r|] eqn:E; [|done]. cbn. by apply owned_name_startswith in E as [_ ->].
Qed.

(** Each read is the opening bytes of the version its ETag names. *)
Definition read_length (prefix k : string) : Z := if bool_decide (k = prefix +:+ MANIFEST_NAME) then _MANIFEST_MAX_BYTES + 1 else _HEAD_BYTES.
Definition reads_ok (prefix : string) (rs : reads) : Prop :=
  ∀ k o, read_of rs k = Some o → o.1 = first (read_length prefix k) (named o.2).

Lemma read_length_two prefix k : (2 ≤ read_length prefix k)%Z.
Proof. unfold read_length, _MANIFEST_MAX_BYTES, _HEAD_BYTES. case_bool_decide; lia. Qed.

Section admitting.
Context (ap : string).
Abbreviation kept := (λ m, consistent m ∧ judged ap m).

Lemma kept_delete m k : kept m → kept (delete k m).
Proof. intros [Hc Hj]. split; intros k' c t [_ H]%lookup_delete_Some; eauto. Qed.

Lemma keeps_reads prefix keys rs : reads_ok prefix rs → keeps kept (read_each prefix keys rs) (reads_ok prefix).
Proof.
  revert rs. induction keys as [|k keys IH]; intros rs Hrs; [by apply keeps_ret|]. cbn.
  eapply keeps_bind with (Q := λ o, ∀ x, o = Some x → x.1 = first (read_length prefix k) (named x.2)).
  - apply keeps_op. intros m Hm. split; [exact Hm|]. cbn. intros x.
    destruct (m !! k) as [[[|a c] t]|] eqn:E; intros [= <-]. cbn [fst snd]. by rewrite <- (proj1 Hm k (a :: c) t E).
  - intros o Ho. apply IH. intros k' x. unfold read_of. destruct (decide (k = k')) as [<-|Hne].
    + rewrite lookup_insert_eq. apply Ho.
    + rewrite lookup_insert_ne by done. apply Hrs.
Qed.

Lemma keeps_judge prefix keys rs : reads_ok prefix rs → keeps kept (judge prefix keys rs) (λ _, ∀ k o, k ∈ keys → read_of rs k = Some o →
  is_executable_object_stream (named o.2) = false ∧ (k = prefix +:+ MANIFEST_NAME → declares_nothing safe_load (utf8_replace (named o.2)))).
Proof.
  intros Hrs. unfold judge. destruct (match read_of rs _ with Some o => _ | None => _ end) eqn:Hbig.
  { eapply keeps_bind; [apply keeps_discard, kept_delete | intros; apply keeps_raise]. }
  eapply keeps_bind; [by apply keeps_lift with (Q := λ v, evaluate safe_load limit ((λ o, utf8_replace o.1) <$> read_of rs (prefix +:+ MANIFEST_NAME))
      (heads prefix keys rs) = Ok v)|]. intros v Hv.
  unfold refused. destruct (admitted v) eqn:Ha; cbn [negb].
  2:{ eapply keeps_bind; [apply keeps_discard, kept_delete | intros; apply keeps_raise]. }
  apply keeps_ret. apply (evaluate_decides _ _ _ _ _ Hv) in Ha as [(t & Ht & _ & Hd) Hh].
  intros k o Hk Ho. pose proof (Hrs k o Ho) as Hread. split.
  - rewrite <- (first_stream _HEAD_BYTES (read_length prefix k)) by (first [apply read_length_two | unfold _HEAD_BYTES; lia]).
    rewrite <- Hread. apply (Hh (member_of prefix k)). unfold heads. apply list_elem_of_fmap. exists k. by rewrite Ho.
  - intros ->. rewrite Ho in Ht, Hbig. injection Ht as <-. apply Z.ltb_ge in Hbig.
    assert (read_length prefix (prefix +:+ MANIFEST_NAME) = _MANIFEST_MAX_BYTES + 1)%Z as E by (unfold read_length; by rewrite bool_decide_eq_true_2).
    rewrite E in Hread. rewrite Hread in Hbig, Hd. rewrite first_short in Hd by lia. exact Hd.
Qed.

Lemma keeps_promote dst rs all keys admitted :
  (∀ k o, k ∈ keys → read_of rs k = Some o → judged_at ap (dst k) (named o.2)) →
  keeps kept (promote dst rs all keys admitted) (λ _, True).
Proof.
  revert admitted. induction keys as [|k keys IH]; intros admitted Hj; [by apply keeps_ret|]. cbn.
  eapply keeps_bind with (Q := λ _, True).
  - destruct (read_of rs k) as [o|] eqn:Ho; [|by apply keeps_ret]. apply keeps_op. intros m [Hc Hm]. split; [|done].
    destruct (m !! k) as [[c t]|] eqn:E; [|done]. cbn. case_bool_decide as Ht; [|done]. cbn. subst t.
    rewrite (Hc _ _ _ E) in *. split; intros k' c' t' [[<- [= <- <-]]|[_ H]]%lookup_insert_Some; eauto.
    apply Hj; [left | done].
  - intros [] _; [apply IH; intros; apply Hj; [by right | done]|].
    eapply keeps_bind; [apply keeps_discard, kept_delete | intros; apply keeps_raise].
Qed.
End admitting.

Lemma keeps_admit ap company prefix id listed : artifact_prefix company = Ok ap → is_upload_id id = true →
  keeps (λ m, consistent m ∧ judged ap m) (admit_upload company prefix id (staged_keys prefix listed)) (λ _, True).
Proof.
  intros Hap Hid. set (keys := staged_keys prefix listed). unfold admit_upload.
  eapply keeps_bind; [apply (keeps_reads ap prefix keys ∅); by intros k o|]. intros rs Hrs.
  eapply keeps_bind; [by apply keeps_judge|]. intros [] Hj.
  eapply keeps_bind; [apply keeps_lift with (Q := λ x, x = ap); intros; congruence|]. intros ap' ->.
  eapply keeps_bind; [apply keeps_promote|].
  - intros k o Hk Ho _. destruct (Hj k o Hk Ho) as [Hs Hd]. split; [exact Hs|]. intros id' Hid' E.
    apply Hd. apply admitted_key_inj in E; [|done..]. unfold keys in Hk. apply staged_member in Hk. by rewrite E in Hk.
  - intros _ _. eapply keeps_bind; [apply keeps_discard, kept_delete|]. intros; by apply keeps_ret.
Qed.

Lemma claim_store handle b s r s' : claim handle b s = (r, s') → g_store s' = g_store s.
Proof.
  unfold claim, on_hub, on_caps, mbind, M_bind, zoom. destruct (consume_upload_handle _ _ _ _) as [[[]|e] h]; [by intros [= <- <-]| |by intros [= <- <-]].
  cbn. destruct (record_resolution _ _ _ _ _ _ _) as [[]]; by intros [= <- <-].
Qed.

(** C30: no judgement is ever outrun: whatever is put in the staging area
    meanwhile, whoever else writes to the store (keeping this of the tenant's
    uploads), and whichever store or Redis calls fail, after a commit every object
    under the tenant's uploads is still no object stream, and a manifest there
    declares none, as long as an ETag names the bytes of one version. *)
Theorem uploads_stay_judged body b handle s r s' ap :
  artifact_prefix (company_id b) = Ok ap →
  consistent (objs (g_store s)) → judged ap (objs (g_store s)) →
  Forall (λ st, ∀ m, consistent m ∧ judged ap m → consistent (a_others st m) ∧ judged ap (a_others st m)) (a_steps (g_store s)) →
  upload_commit body b handle s = (r, s') →
  judged ap (objs (g_store s')).
Proof.
  intros Hap Hc Hj Ho. set (P := λ m, consistent m ∧ judged ap m). assert (stays P (g_store s)) as Hs by (by split).
  intros H. enough (stays P (g_store s')) as [[_ ?] _] by done. revert H. unfold upload_commit.
  destruct (jget "upload_id" body) as [| | | |id| |]; try (by intros [= <- <-]).
  destruct (is_upload_id id) eqn:Hid; [cbn [negb]|by intros [= <- <-]].
  unfold mbind, M_bind, lift at 1. destruct (tenant_token (company_id b)) as [token|e]; [|by intros [= <- <-]].
  set (prefix := staging_prefix token id). unfold on_store at 1, zoom.
  assert (keeps P (list_keys prefix) (λ _, True)) as Hl by (apply keeps_op; intros m Hm; by split).
  destruct (list_keys prefix (g_store s)) as [o a1] eqn:El. destruct (Hl _ _ _ El Hs) as [Hs1 _].
  destruct o as [listed|e]; [|by intros [= <- <-]].
  destruct (staged_keys prefix listed) as [|k0 ks] eqn:Ek; [by intros [= <- <-]|].
  destruct (claim handle b _) as [[[]|e] s2] eqn:Ecl; apply claim_store in Ecl as Est; cbn in Est.
  2:{ intros [= <- <-]. by rewrite Est. }
  unfold on_store, zoom. rewrite <- Ek. destruct (admit_upload _ _ _ _ (g_store s2)) as [o a2] eqn:Ea. intros [= <- <-]. cbn.
  rewrite Est in Ea. by destruct (keeps_admit ap _ _ _ _ Hap Hid _ _ _ Ea Hs1).
Qed.

(** ** All of it or nothing *)

(** A store call fails with an error of its own, no [HTTPException]. *)
Definition plain (e : exn) : Prop := match e with HTTPException _ _ => False | _ => True end.
Definition plain_step (st : astep) : Prop := match a_call st with Runs => True | Fails e | Lost e => plain e end.

(** [m] does [l], by its outcome. *)
Definition does {A} (m : M astore A) (Q : res A → list op → Prop) : Prop := ∀ s r s',
  m s = (r, s') → Forall plain_step (a_steps s) → Forall plain_step (a_steps s') ∧
  ∃ l, done_ s' = (done_ s ++ l)%list ∧ Q r l.

Lemma does_lift {A} (x : res A) (Q : res A → list op → Prop) : Q x [] → does (lift x) Q.
Proof. intros H s r s' [= <- <-] Hs. split; [done|]. exists []. by rewrite app_nil_r. Qed.
Lemma does_ret {A} (a : A) (Q : res A → list op → Prop) : Q (Ok a) [] → does (mret a) Q.
Proof. apply does_lift. Qed.
Lemma does_raise {A} e (Q : res A → list op → Prop) : Q (Err e) [] → does (raise e) Q.
Proof. apply does_lift. Qed.

Lemma does_bind {A B} (m : M astore A) (k : A → M astore B) Q (R : res B → list op → Prop) :
  does m Q → (∀ a l, Q (Ok a) l → does (k a) (λ r l', R r (l ++ l')%list)) → (∀ e l, Q (Err e) l → R (Err e) l) →
  does (m ≫= k) R.
Proof.
  intros Hm Hk He s r s' H Hs. unfold mbind, M_bind in H. destruct (m s) as [[a|e] s1] eqn:E.
  - destruct (Hm _ _ _ E Hs) as (Hs1 & l & El & HQ). destruct (Hk a l HQ _ _ _ H Hs1) as (Hs2 & l' & El' & HR).
    split; [done|]. exists (l ++ l')%list. rewrite El', El, app_assoc. done.
  - injection H as <- <-. destruct (Hm _ _ _ E Hs) as (Hs1 & l & El & HQ). split; [done|]. exists l. auto.
Qed.

Lemma does_op {A} (f : objects → A * objects) (l : A → list op) (Q : res A → list op → Prop) :
  (∀ a, Q (Ok a) (l a)) → (∀ e l, plain e → Q (Err e) l) → does (astore_op f l) Q.
Proof.
  intros HOk HErr s r s' H Hs. unfold astore_op, astore_next, mbind, M_bind in H.
  destruct (a_steps s) as [|st steps] eqn:Est.
  - injection H as <- <-. cbn. rewrite Est. split; [done|]. by eexists.
  - inversion Hs as [|x y Hst Hsteps]; subst. unfold plain_step in Hst.
    destruct (a_call st) eqn:Ec; injection H as <- <-; (split; [done|]).
    + by eexists.
    + exists []. cbn. rewrite app_nil_r. auto.
    + eexists. cbn. split; [reflexivity|]. auto.
Qed.

Definition whole {A} (l : list op) (r : res A) (l' : list op) : Prop :=
  match r with Ok _ => l' = l | Err e => plain e end.

Lemma does_discard ks : does (discard ks) (whole (map OpDelete ks)).
Proof.
  induction ks as [|k ks IH]; [by apply does_ret|]. cbn.
  eapply does_bind with (Q := whole [OpDelete k]); [by apply does_op| |done].
  intros [] l ->. intros s r s' H Hs. destruct (IH s r s' H Hs) as (Hs' & l' & El & HQ). split; [done|].
  exists l'. split; [done|]. destruct r; cbn in *; [by subst | done].
Qed.

Lemma does_read prefix keys rs : does (read_each prefix keys rs) (whole []).
Proof.
  revert rs. induction keys as [|k keys IH]; intros rs; [by apply does_ret|]. cbn.
  eapply does_bind with (Q := whole []); [by apply does_op| |done]. intros o l ->. apply IH.
Qed.

(** What was copied is deleted again. *)
Definition undone (l : list op) : Prop := ∃ (dst : string → string) ks dels,
  l = (map (λ k, OpCopy k (dst k)) ks ++ map OpDelete dels)%list ∧ ∀ k, k ∈ ks → dst k ∈ dels.
Definition settles {A} (l : list op) (r : res A) (l' : list op) : Prop :=
  match r with Ok _ => l' = l | Err (HTTPException _ _) => undone l' | Err _ => True end.

Lemma undone_deletes dels : undone (map OpDelete dels).
Proof. exists id, [], dels. split; [done|]. intros k Hk. by apply elem_of_nil in Hk. Qed.

Lemma does_refuse {A} dels before (dst : string → string) st d (l : list op) : (∀ k, k ∈ before → dst k ∈ dels) →
  does (A := A) (_ ← discard dels; raise (HTTPException st d)) (λ r l', settles l r (map (λ k, OpCopy k (dst k)) before ++ l')%list).
Proof.
  intros Hd. eapply does_bind; [apply does_discard| |].
  - intros [] l1 ->. apply does_raise. cbn. exists dst, before, dels. by rewrite app_nil_r.
  - intros e l1 He. by destruct e.
Qed.

Lemma does_judge prefix keys rs : (∀ e, evaluate safe_load limit ((λ o, utf8_replace o.1) <$> read_of rs (prefix +:+ MANIFEST_NAME))
    (heads prefix keys rs) = Err e → plain e) → does (judge prefix keys rs) (settles []).
Proof.
  intros Hev. unfold judge. destruct (match read_of rs _ with Some o => _ | None => _ end).
  { apply (does_refuse keys [] id). intros k Hk. by apply elem_of_nil in Hk. }
  eapply does_bind with (Q := λ r l, l = [] ∧ ∀ e, r = Err e → plain e); [by apply does_lift| |].
  - intros v l [-> _]. destruct (refused v); [|by apply does_ret].
    apply (does_refuse keys [] id). intros k Hk. by apply elem_of_nil in Hk.
  - intros e l [-> He]. specialize (He e eq_refl). by destruct e.
Qed.

Lemma does_promote dst rs all keys before :
  does (promote dst rs all keys (map dst before)) (λ r l, settles (map (λ k, OpCopy k (dst k)) (before ++ keys)%list) r
     (map (λ k, OpCopy k (dst k)) before ++ l)%list).
Proof.
  revert before. induction keys as [|k keys IH]; intros before; [by apply does_ret; rewrite !app_nil_r|]. cbn.
  eapply does_bind with (Q := λ r l, match r with Ok ok => l = if ok : bool then [OpCopy k (dst k)] else [] | Err e => plain e end).
  - destruct (read_of rs k); [by apply does_op | by apply does_ret].
  - intros [] l ->.
    + intros s r s' H Hs. change [dst k] with (map dst [k]) in H. rewrite <- map_app in H.
      destruct (IH (before ++ [k])%list s r s' H Hs) as (Hs' & l & El & HQ). split; [done|]. exists l. split; [done|].
      rewrite !map_app, <- !app_assoc in HQ. rewrite map_app. exact HQ.
    + apply does_refuse. intros k' Hk'. apply elem_of_app. left. by apply list_elem_of_fmap_2.
  - intros e l He. by destruct e.
Qed.

Lemma does_admit ap company prefix id keys : artifact_prefix company = Ok ap →
  (∀ t e, safe_load t = Err e → plain e) →
  does (admit_upload company prefix id keys) (λ r l, match r with
    | Ok (_, members) => members ≡ₚ map (member_of prefix) keys ∧
        l = (map (λ k, OpCopy k (admitted_key ap id (member_of prefix k))) keys ++ map OpDelete keys)%list
    | Err (HTTPException _ _) => undone l
    | Err _ => True
    end).
Proof.
  intros Hap Hload. unfold admit_upload. rewrite Hap.
  eapply does_bind; [apply does_read| |intros e l He; by destruct e]. intros rs l ->.
  eapply does_bind; [apply does_judge| |by intros e l He; destruct e].
  { intros e [->|[t Ht]]%evaluate_error; [done | by eapply Hload]. }
  intros [] l ->. eapply does_bind with (Q := λ r l, r = Ok ap ∧ l = []); [by apply does_lift| |by intros e l []].
  intros ap' l [[= ->] ->].
  eapply does_bind; [apply (does_promote _ rs keys keys [])| |by intros e l He; destruct e]. intros [] l Hl. cbn in Hl. subst l.
  eapply does_bind; [apply does_discard| |intros e l He; by destruct e]. intros [] l ->.
  apply does_ret. cbn. rewrite app_nil_r. split; [|done].
  rewrite merge_sort_Permutation. unfold heads. by rewrite map_map.
Qed.

Lemma consumed_gone handle b h h' : consume_upload_handle py_repr handle b h = (Ok true, h') → vget (now h') (_key handle) (db h') = None.
Proof.
  unfold consume_upload_handle. intros (t & h1 & _ & H)%bind_inv_ok. apply bind_inv_ok in H as (e & h2 & He & H).
  apply lift_inv in He as [_ ->]. apply bind_inv_ok in H as (c & h3 & Hc & H). apply lift_inv in Hc as [Hc ->].
  apply delete_args_key in Hc as ->. apply bind_inv_ok in H as (n & h4 & Hn & H). cbn in Hn. apply redis_ok in Hn as [_ ->].
  injection H as _ <-. apply vget_revoked.
Qed.

Lemma claim_gone handle b s u s' : claim handle b s = (Ok u, s') → vget (now (g_hub s')) (_key handle) (db (g_hub s')) = None.
Proof.
  unfold claim. intros ([] & s1 & H1 & H)%bind_inv_ok.
  - unfold on_hub, zoom in H1. destruct (consume_upload_handle _ _ _ _) as [o h] eqn:E. injection H1 as -> <-. injection H as _ <-.
    by apply consumed_gone in E.
  - apply bind_inv_ok in H as (x & s2 & _ & H). done.
Qed.

(** a commit admits all of it, once, or nothing: if it answers, the handle
    is spent, and what it did to the store is to copy every staged member, in
    order, to its place under the tenant's uploads and then to delete what was
    staged; if it refuses (any HTTP error), whatever it had copied it deleted
    again. *)
Theorem commit_all_or_nothing ap body b handle s r s' :
  artifact_prefix (company_id b) = Ok ap → (∀ t e, safe_load t = Err e → plain e) →
  done_ (g_store s) = [] → Forall plain_step (a_steps (g_store s)) → upload_commit body b handle s = (r, s') →
  match r with
  | Ok (_, members) => ∃ token id keys, let prefix := staging_prefix token id in
      jget "upload_id" body = JStr id ∧ tenant_token (company_id b) = Ok token ∧ keys ≠ [] ∧
      (∀ k, k ∈ keys → k = prefix +:+ member_of prefix k) ∧ members ≡ₚ map (member_of prefix) keys ∧
      done_ (g_store s') = (map (λ k, OpCopy k (admitted_key ap id (member_of prefix k))) keys ++ map OpDelete keys)%list ∧
      vget (now (g_hub s')) (_key handle) (db (g_hub s')) = None
  | Err (HTTPException _ _) => undone (done_ (g_store s'))
  | Err _ => True
  end.
Proof.
  intros Hap Hload Hd Hst. unfold upload_commit. pose proof (undone_deletes []) as Hnone.
  destruct (jget "upload_id" body) as [| | | |id| |]; try (by intros [= <- <-]; rewrite Hd).
  destruct (is_upload_id id) eqn:Hid; [cbn [negb]|by intros [= <- <-]; rewrite Hd].
  unfold mbind, M_bind, lift at 1. destruct (tenant_token (company_id b)) as [token|e] eqn:Et.
  2:{ intros [= <- <-]. rewrite Hd. by destruct e. }
  set (prefix := staging_prefix token id). unfold on_store at 1, zoom.
  assert (does (list_keys prefix) (whole [])) as Hl by (by apply does_op).
  destruct (list_keys prefix (g_store s)) as [o a1] eqn:El. destruct (Hl _ _ _ El Hst) as (Hst1 & l1 & El1 & Hq).
  rewrite Hd in El1. cbn in El1. destruct o as [listed|e]; cbn in Hq; [|intros [= <- <-]; by destruct e].
  rewrite Hq in El1. destruct (staged_keys prefix listed) as [|k0 ks] eqn:Ek; [intros [= <- <-]; cbn; by rewrite El1|].
  destruct (claim handle b _) as [[u|e] s2] eqn:Ecl; pose proof (claim_store _ _ _ _ _ Ecl) as Est; cbn in Est.
  2:{ intros [= <- <-]. rewrite Est, El1. by destruct e. }
  apply claim_gone in Ecl. unfold on_store, zoom. destruct (admit_upload _ _ _ _ (g_store s2)) as [o a2] eqn:Ea. intros [= <- <-]. cbn.
  rewrite Est in Ea. destruct (does_admit ap _ _ _ _ Hap Hload _ _ _ Ea Hst1) as (_ & l & Eal & HQ). rewrite El1 in Eal. cbn in Eal.
  rewrite Eal. destruct o as [[uri members]|e]; [|by destruct e]. destruct HQ as [Hm Hl2]. exists token, id, (k0 :: ks).
  split_and!; try done. intros k Hk. rewrite <- Ek in Hk. by apply staged_member in Hk.
Qed.

(** ** What a kernel reaches *)

Lemma scoped_key_shape company path p k : artifact_prefix company = Ok p → scope_artifact_key company path = Ok k →
  startswith p k = true ∧ startswith STAGING_ROOT k = false ∧ lstrip is_slash k = k.
Proof.
  intros Hp Hk. unfold scope_artifact_key in Hk. rewrite Hp in Hk. cbn in Hk.
  destruct (artifact_dir _ _ Hp) as [seg Hdir]. destruct (scope_key_shape _ _ _ _ Hdir Hk) as [Hs _]. split; [done|].
  apply startswith_spec in Hs as [r ->]. unfold artifact_prefix, mlflow_artifact_prefix in Hp. apply res_fmap_inv in Hp as (n & Hn & ->).
  apply token_shape in Hn as (u & _ & ->). done.
Qed.

Lemma reserved_uploads company p k : artifact_prefix company = Ok p → lstrip is_slash k = k → is_upload_reserved company k = Ok false →
  startswith (p +:+ ADMITTED_ROOT) k = false.
Proof.
  intros Hp Hk. unfold is_upload_reserved. rewrite Hp, Hk. cbn [mbind res_bind]. intros [= H].
  apply not_true_iff_false. intros [r ->]%startswith_spec. apply bool_decide_eq_false in H. apply H. clear H.
  rewrite str_app_assoc. assert (p +:+ ADMITTED_ROOT +:+ r ≠ "") as E.
  { intros E. apply (f_equal String.length) in E. rewrite !str_length_app in E. cbn in E. lia. }
  rewrite (bool_decide_eq_false_2 _ E), startswith_app, str_drop_prefix. cbn [orb negb].
  rewrite bool_decide_eq_false_2 by done. left.
Qed.

(** what was admitted no kernel rewrites: through the artifact plane the
    gateway deletes, or signs a PUT for, only keys in the tenant's prefix and
    outside its uploads (so whatever is put there leaves them judged), and reads
    only keys in the tenant's prefix; none is in the staging area. *)
Theorem kernel_writes_avoid_uploads method path company ap s r s' :
  artifact_prefix company = Ok ap → done_ s = [] → artifact_object method path company s = (r, s') →
  ∀ o, o ∈ done_ s' → ∃ k, (o = OpDelete k ∨ o = OpPresign "PUT" k ∨ o = OpPresign "GET" k) ∧
    startswith ap k = true ∧ startswith STAGING_ROOT k = false ∧
    (o ≠ OpPresign "GET" k → startswith (ap +:+ ADMITTED_ROOT) k = false ∧
      ∀ m (obj : object), judged ap m → judged ap (<[k := obj]> m)).
Proof.
  intros Hap Hd H. unfold artifact_object, _artifact_key in H.
  destruct (scope_artifact_key company path) as [k|e] eqn:Ek.
  2:{ unfold mbind, M_bind, lift in H. destruct (is_value_error e); injection H as <- <-; rewrite Hd; by intros o Ho%elem_of_nil. }
  destruct (scoped_key_shape _ _ _ _ Hap Ek) as (Hs & Hst & Hl). unfold mbind at 1, M_bind at 1, lift at 1 in H.
  unfold mbind at 1, M_bind at 1, lift at 1 in H.
  destruct (if bool_decide (method = "PUT" ∨ method = "DELETE") then is_upload_reserved company k else Ok false) as [[]|e] eqn:Hr in H; [injection H as <- <-; rewrite Hd; by intros o Ho%elem_of_nil| |
    injection H as <- <-; rewrite Hd; by intros o Ho%elem_of_nil].
  assert (method = "PUT" ∨ method = "DELETE" → startswith (ap +:+ ADMITTED_ROOT) k = false) as Hno.
  { intros Hm. rewrite bool_decide_eq_true_2 in Hr by done. by eapply reserved_uploads. }
  assert (startswith (ap +:+ ADMITTED_ROOT) k = false → ∀ m (obj : object), judged ap m → judged ap (<[k := obj]> m)) as Hput.
  { intros Hk m obj Hj k' c t [[<- Hc]|[_ Hc]]%lookup_insert_Some; [intros Hu; congruence | eauto]. }
  case_bool_decide as Hdel.
  - subst method. assert (done_ s' = [] ∨ done_ s' = [OpDelete k]) as Hops.
    { unfold store_delete, astore_op, astore_next, mbind, M_bind in H. destruct (a_steps s) as [|st ?]; [|destruct (a_call st)];
        injection H as <- <-; cbn; rewrite Hd; auto. }
    intros o Ho. exists k. destruct Hops as [E|E]; rewrite E in Ho; [by apply elem_of_nil in Ho|].
    apply list_elem_of_singleton in Ho as ->. split_and!; auto.
  - assert (done_ s' = [OpPresign (if bool_decide (method = "PUT") then "PUT" else "GET") k]) as Hops
      by (injection H as <- <-; cbn; by rewrite Hd).
    intros o Ho. exists k. rewrite Hops in Ho. apply list_elem_of_singleton in Ho as ->.
    case_bool_decide; split_and!; auto; done.
Qed.
End uploads.

(** ** Staging *)

Lemma staging_key_prefix token id m : staging_key token id m = staging_prefix token id +:+ m.
Proof. unfold staging_key, staging_prefix. by rewrite !str_app_assoc. Qed.

Lemma presign_each_done token id ms s r s' : presign_each token id ms s = (r, s') →
  r = Ok tt ∧ done_ s' = (done_ s ++ map (λ m, OpPresign "PUT" (staging_key token id m)) ms)%list.
Proof.
  revert s. induction ms as [|m ms IH]; intros s; cbn; [intros [= <- <-]; by rewrite app_nil_r|].
  unfold mbind, M_bind. cbn. intros H. destruct (IH _ H) as [-> E]. split; [done|]. cbn in E. by rewrite E, <- app_assoc.
Qed.

Lemma join_split x : str_join "/" (str_split "/" x) = x.
Proof.
  induction x as [|c x IH]; [done|]. cbn [str_split].
  assert (str_split "/" x ≠ []) as Hne.
  { destruct x as [|d x]; [done|]. cbn. case_bool_decide; [done|]. by destruct (str_split "/" x). }
  destruct (str_split "/" x) as [|w ws]; [done|]. case_bool_decide as Hc.
  - subst c. change (str_join "/" ("" :: w :: ws)) with ("" +:+ "/" +:+ str_join "/" (w :: ws)). by rewrite IH.
  - destruct ws as [|w' ws]; [by rewrite <- IH|].
    change (str_join "/" (String c w :: w' :: ws)) with (String c (w +:+ "/" +:+ str_join "/" (w' :: ws))).
    by rewrite <- IH.
Qed.

Lemma safe_member_nonempty x m : safe_member_path x = Some m → m = x ∧ m ≠ "".
Proof.
  unfold safe_member_path. case_bool_decide as E0; [done|]. repeat (case_match; [done|]). intros [= <-].
  by rewrite join_split.
Qed.

Lemma safe_members_ok raws safe out : safe_members raws safe = Ok out → NoDup safe → ¬ ("" ∈ safe) →
  NoDup out ∧ ¬ ("" ∈ out) ∧ (length out ≤ length safe + length raws)%nat.
Proof.
  revert safe. induction raws as [|raw raws IH]; intros safe; cbn; [intros [= <-] H H0; split_and!; [done..|lia]|].
  destruct (safe_member_path _) as [m|] eqn:Em; [|done]. intros H Hnd Hne. apply safe_member_nonempty in Em as [_ Hm].
  case_bool_decide as Hin; destruct (IH _ H) as (H1 & H2 & H3); try done.
  - split_and!; [done..|lia].
  - apply NoDup_app. split_and!; [done| |apply NoDup_singleton]. intros x Hx ->%list_elem_of_singleton. done.
  - set_solver.
  - split_and!; [done..|]. rewrite length_app in H3. cbn in H3. lia.
Qed.

Lemma slash_partition a b x y : str_all (λ d, negb (bool_decide (d = "/"%char))) a = true → str_all (λ d, negb (bool_decide (d = "/"%char))) b = true →
  a +:+ "/" +:+ x = b +:+ "/" +:+ y → a = b ∧ x = y.
Proof.
  intros Ha Hb E. apply (f_equal (str_partition "/")) in E. change ("/" +:+ x) with (String "/" x) in E.
  change ("/" +:+ y) with (String "/" y) in E. rewrite !partition_at in E by done. by injection E.
Qed.

(** what is staged is out of reach until it is judged: the gateway signs
    one PUT for each member, no two alike, with the manifest among them, at most
    64; each key is one the same upload's commit reads back as that member and
    the client reaches at the edge, and no artifact path of any tenant names
    it, and no other tenant's or upload's staging area holds it. *)
Theorem staged_out_of_reach body company token upload_id s members s' :
  tenant_token company = Ok token → is_upload_id upload_id = true → done_ s = [] →
  upload_stage body company upload_id s = (Ok members, s') →
  done_ s' = map (λ m, OpPresign "PUT" (staging_key token upload_id m)) members ∧
  NoDup members ∧ MANIFEST_NAME ∈ members ∧ (length members ≤ MAX_MEMBERS)%nat ∧
  ∀ m, m ∈ members → let k := staging_key token upload_id m in
    owned_name (staging_prefix token upload_id) (Some k) = Some m ∧ signs_for_the_edge k = true ∧
    (∀ c path, scope_artifact_key c path ≠ Ok k) ∧
    (∀ c t id, tenant_token c = Ok t → is_upload_id id = true → startswith (staging_prefix t id) k = true →
       canonical_company_id c = canonical_company_id company ∧ id = upload_id).
Proof.
  intros Ht Hid Hd H. unfold upload_stage in H. destruct (jget "files" body) as [| | | | |[|f fs]|]; try done.
  destruct (Nat.ltb_spec MAX_MEMBERS (length (f :: fs))); [done|].
  apply bind_inv_ok in H as (safe & s1 & Hs & H). apply lift_inv in Hs as [Hs ->].
  destruct (bool_decide (MANIFEST_NAME ∈ safe)) eqn:Hm; [apply bool_decide_eq_true in Hm; cbn [negb] in H|done].
  rewrite Ht in H. apply bind_inv_ok in H as (t & s2 & Htok & H). apply lift_inv in Htok as [[= <-] ->].
  apply bind_inv_ok in H as ([] & s3 & Hp & H). injection H as <- <-. apply presign_each_done in Hp as [_ Hp]. rewrite Hd in Hp.
  destruct (safe_members_ok _ _ _ Hs) as (Hnd & Hne & Hlen); [constructor | by intros ?%elem_of_nil |].
  split_and!; try done; [cbn [length] in *; lia|]. intros m Hin k. unfold k. rewrite !staging_key_prefix. split_and!.
  - cbn [owned_name]. rewrite startswith_app, str_drop_prefix, bool_decide_eq_false_2; [done|]. by destruct m.
  - done.
  - intros c path Hk. destruct (artifact_prefix c) as [p|e] eqn:Hpc.
    + destruct (scoped_key_shape _ _ _ _ Hpc Hk) as (_ & Hst & _). discriminate Hst.
    + unfold scope_artifact_key in Hk. by rewrite Hpc in Hk.
  - intros c t id Htc Hidc [x Hx]%startswith_spec. unfold staging_prefix in Hx.
    rewrite !str_app_assoc in Hx. apply str_app_inj_l in Hx.
    apply slash_partition in Hx as [E Hx]; [|by eapply token_plain..].
    apply slash_partition in Hx as [-> _]; [|by apply upload_id_segment..]. split; [|done].
    subst t. by eapply (naming_inj (f := schema_name)).
Qed.

(** ** A concrete upload *)

#[local] Existing Instance decoded_codec.
#[local] Existing Instance hex_iso.

Definition w_company : string := "6f1c2a4e-7d3b-5e8a-9c0f-1b2d3e4f5a6b".
Definition w_token : string := "tenant_6f1c2a4e_7d3b_5e8a_9c0f_1b2d3e4f5a6b".
Definition w_ap : string := w_token +:+ "/".
Definition w_id : string := "AAAAAAAAAAAAAAAAAAAAAA".
Definition w_prefix : string := staging_prefix w_token w_id.
Definition w_body : dict := [("upload_id", JStr w_id)].
Definition w_binding : TrackingBinding :=
  {| user := JStr "ann"; company_id := w_company; audience := AUDIENCE_UPLOAD; handle_id := Some (uuid_str 1) |}.
Definition w_files : dict := [("files", JList [JStr "MLmodel"; JStr "model.onnx"])].
Definition w_empty_store : astore := {| objs := ∅; a_steps := []; done_ := [] |}.

Lemma staged_out_of_reach_witness :
  owned_name w_prefix (Some (staging_key w_token w_id "model.onnx")) = Some "model.onnx" ∧
  (∀ c path, scope_artifact_key c path ≠ Ok (staging_key w_token w_id "model.onnx")).
Proof.
  destruct (staged_out_of_reach w_files w_company w_token w_id w_empty_store ["MLmodel"; "model.onnx"]
    (upload_stage w_files w_company w_id w_empty_store).2) as (_ & _ & _ & _ & H); [vm_compute; reflexivity..|].
  destruct (H "model.onnx") as (H1 & _ & H3 & _); [right; left|]. exact (conj H1 H3).
Defined.

Lemma kernel_writes_avoid_uploads_witness :
  startswith (w_ap +:+ ADMITTED_ROOT) (w_ap +:+ "1/model/data") = false.
Proof.
  destruct (kernel_writes_avoid_uploads (λ _, "") (λ _, Err YAMLError) "PUT" "1/model/data" w_company w_ap w_empty_store
    (Ok (Redirect "PUT" (w_ap +:+ "1/model/data"))) (artifact_object "PUT" "1/model/data" w_company w_empty_store).2) with (o := OpPresign "PUT" (w_ap +:+ "1/model/data"))
    as (k & Hk & _ & _ & Hno); [vm_compute; reflexivity..| |].
  - vm_compute. left.
  - destruct Hk as [[=]|[[= <-]|[=]]]. by destruct (Hno ltac:(discriminate)).
Defined.

Definition w_manifest_bytes : list Z := [1; 2; 3]%Z.
Definition w_model_bytes : list Z := [8; 1]%Z.
Definition w_named (etag : string) : list Z :=
  if bool_decide (etag = "e1") then w_manifest_bytes else if bool_decide (etag = "e2") then w_model_bytes else [128; 4; 149]%Z.
Definition w_text (c : list Z) : string := if bool_decide (c = w_manifest_bytes) then "safe" else "".
Definition w_staged : objects :=
  {[ w_prefix +:+ "MLmodel" := (w_manifest_bytes, "e1"); w_prefix +:+ "model.onnx" := (w_model_bytes, "e2") ]}.
Definition w_gw (l : list astep) : gw :=
  {| g_hub := {| HubCapabilities.db := {| values := {[ _key "h1" := (Ok (JDict []), None) ]}; hashes := ∅; sets := ∅; appended := [] |};
                 HubCapabilities.now := 0; tokens := []; ids := []; HubCapabilities.steps := [] |};
     g_caps := sample_store [];
     g_store := {| objs := w_staged; a_steps := l; done_ := [] |} |}.
Definition w_commit (l : list astep) := upload_commit (λ n, n) (λ _, "") (λ _, "") w_text w_load 100 "bucket" w_body w_binding "h1" (w_gw l).

(** The uploader puts an object stream over a member once the heads are read. *)
Definition w_quiet : astep := {| a_others := λ m, m; a_call := Runs |}.
Definition w_reput : astep := {| a_others := insert (w_prefix +:+ "model.onnx") ([128; 4; 149]%Z, "e3"); a_call := Runs |}.
Definition w_race : list astep := [w_quiet; w_quiet; w_quiet; w_reput].

Example raced_commit_refused :
  (w_commit w_race).1 = Err (HTTPException 409 "the upload changed while it was being judged") ∧
  objs (g_store (w_commit w_race).2) = ∅.
Proof. split; vm_compute; reflexivity. Qed.

Lemma w_keys_apart m : startswith (w_ap +:+ ADMITTED_ROOT) (w_prefix +:+ m) = false.
Proof. reflexivity. Qed.

Lemma w_consistent : consistent w_named w_staged.
Proof.
  intros k c t. unfold w_staged. rewrite lookup_insert_Some, lookup_singleton_Some.
  intros [[_ [= <- <-]]|[_ [_ [= <- <-]]]]; reflexivity.
Qed.

Lemma uploads_stay_judged_witness : judged w_text w_load w_ap (objs (g_store (w_commit w_race).2)).
Proof.
  apply (uploads_stay_judged (λ n, n) (λ _, "") (λ _, "") w_text w_load 100 "bucket" w_named w_body w_binding "h1" (w_gw w_race)
    (w_commit w_race).1 (w_commit w_race).2 w_ap).
  - vm_compute. reflexivity.
  - exact w_consistent.
  - intros k c t Hk Hu. exfalso. cbn [w_gw g_store objs] in Hk. unfold w_staged in Hk.
    apply lookup_insert_Some in Hk as [[<- _]|[_ [<- _]%lookup_singleton_Some]]; by rewrite w_keys_apart in Hu.
  - repeat apply Forall_cons_2; [by intros m Hm..| |constructor]. intros m [Hc Hj]. cbn. split.
    + intros k c t [[_ [= <- <-]]|[_ H]]%lookup_insert_Some; [reflexivity | eauto].
    + intros k c t [[<- _]|[_ H]]%lookup_insert_Some; [intros Hu; by rewrite w_keys_apart in Hu | eauto].
  - apply surjective_pairing.
Defined.

Lemma commit_all_or_nothing_witness :
  ∃ keys, keys ≠ [] ∧ done_ (g_store (w_commit []).2) =
    (map (λ k, OpCopy k (admitted_key w_ap w_id (member_of w_prefix k))) keys ++ map OpDelete keys)%list ∧
  vget (HubCapabilities.now (g_hub (w_commit []).2)) (_key "h1") (HubCapabilities.db (g_hub (w_commit []).2)) = None.
Proof.
  destruct (w_commit []) as [r s'] eqn:E.
  pose proof (commit_all_or_nothing (λ n, n) (λ _, "") (λ _, "") w_text w_load 100 "bucket" w_ap w_body w_binding "h1" (w_gw []) r s') as H.
  assert (∃ uri ms, r = Ok (uri, ms)) as (uri & ms & ->) by (vm_compute in E; injection E as <- _; by do 2 eexists).
  destruct H as (token & id & keys & Hid & Ht & Hne & _ & _ & Hd & Hg).
  - vm_compute. reflexivity.
  - unfold w_load. intros t e. repeat case_bool_decide; intros [= <-]; exact Logic.I.
  - reflexivity.
  - constructor.
  - exact E.
  - exists keys. injection Hid as <-. vm_compute in Ht. injection Ht as <-. exact (conj Hne (conj Hd Hg)).
Defined.

(** A member with no bytes: its ranged read is not satisfiable, it counts as
    gone, and the upload can never be admitted. *)
Definition w_empty_member : gw :=
  {| g_hub := g_hub (w_gw []); g_caps := sample_store [];
     g_store := {| objs := <[w_prefix +:+ "requirements.txt" := ([], "e0")]> w_staged; a_steps := []; done_ := [] |} |}.
Example empty_member_refused :
  (upload_commit (λ n, n) (λ _, "") (λ _, "") w_text w_load 100 "bucket" w_body w_binding "h1" w_empty_member).1 =
  Err (HTTPException 409 "the upload changed while it was being judged").
Proof. vm_compute. reflexivity. Qed.

(** A copy that fails with any other error ends the request with a member
    admitted, the rest staged and the handle spent. *)
Definition w_failing : list astep :=
  [w_quiet; w_quiet; w_quiet; w_quiet; {| a_others := λ m, m; a_call := Fails ClientError |}].
Example failed_copy_leaves_a_part :
  (w_commit w_failing).1 = Err ClientError ∧
  length (done_ (g_store (w_commit w_failing).2)) = 1%nat ∧ size (objs (g_store (w_commit w_failing).2)) = 3%nat.
Proof. split_and!; vm_compute; reflexivity. Qed.
