(* ===== verification/TrackingOffboarding.v ===== *)
(** * Emptying a deleted tenant out of the tracking store:
    services/notebook_tracking_gateway/offboarding.py

    Searches go page by page while the server names a next page; each page is
    one answer of the tracking server, so the answers still to come bound the
    pages. *)

From stdpp Require Import base strings list gmap.
From Stdlib Require Import ZArith Lia.
From S2P Require Import Prelude PyText PyNum PyJson Tenancy SqlBinding TrackingGateway TrackingUploads.

Local Open Scope string_scope.

#[local] Arguments uuid_str : simpl never.
#[local] Arguments uuid_parse : simpl never.

Definition _EXPERIMENT_PAGE : Z := 1000.
Definition _MODEL_PAGE : Z := 1000.
Definition _LOGGED_MODEL_PAGE : Z := 100.

(** [for x in v], [v.get(k)] and [v[k]] of a JSON value. *)
Definition py_iter (v : json) : res (list json) :=
  match v with
  | JList l => Ok l
  | JDict d => Ok (map (λ kv, JStr kv.1) d)
  | JStr s => Ok (map (λ c, JStr (String c "")) (String.list_ascii_of_string s))
  | _ => Err TypeError
  end.
Definition py_get (k : string) (v : json) : res json := match v with JDict d => Ok (jget k d) | _ => Err AttributeError end.
Definition py_item (k : string) (v : json) : res json :=
  match v with JDict d => or_raise KeyError (dict_lookup k d) | _ => Err TypeError end.

Record tracking := { t_up : upstream; t_store : astore }.
Definition at_up {A} (m : M upstream A) : M tracking A := zoom t_up (λ u s, {| t_up := u; t_store := t_store s |}) m.
Definition at_store {A} (m : M astore A) : M tracking A := zoom t_store (λ a s, {| t_up := t_up s; t_store := a |}) m.

Definition _call (method e : string) (message : option dict) (absent_ok : bool) : M tracking dict :=
  a ← at_up (if bool_decide (method = "GET") then call_upstream method e (default [] message) None
             else call_upstream method e [] message);
  if Z.eqb a.1 404 && absent_ok then mret [] else
  if negb (Z.eqb a.1 200) then raise OffboardingError else
  mret (match a.2 with JDict d => d | _ => [] end).

(** The items a page keeps, by [keep]; one exception ends the listing. *)
Fixpoint collect {A} (keep : json → res (option A)) (l : list json) : res (list A) :=
  match l with
  | [] => Ok []
  | v :: r => x ← keep v; rest ← collect keep r; Ok (match x with Some x => x :: rest | None => rest end)
  end.

Definition items (k : string) (data : dict) : res (list json) :=
  match dict_lookup k data with Some v => py_iter v | None => Ok [] end.
Definition page_token (token : json) : dict := if truthy token then [("page_token", token)] else [].

Fixpoint pages {A} (fuel : nat) (ask : dict → M tracking dict) (k : string) (keep : json → res (option A))
    (token : json) (found : list A) : M tracking (list A) :=
  match fuel with
  | O => raise ConnectionError
  | S fuel =>
      data ← ask (page_token token);
      page ← lift (l ← items k data; collect keep l);
      let found := (found ++ page)%list in
      let token := jget "next_page_token" data in
      if negb (truthy token) then mret found else pages fuel ask k keep token found
  end.
Definition all_pages {A} (ask : dict → M tracking dict) (k : string) (keep : json → res (option A)) : M tracking (list A) :=
  n ← gets (λ s, S (length (answers (t_up s))));
  pages n ask k keep JNull [].

Definition like (prefix : string) : json := JStr ("name LIKE '" +:+ prefix +:+ "%'").

Definition owned_by (prefix : string) (v : json) : res (option json) :=
  n ← py_get "name" v;
  Ok (match n with JStr n => if bool_decide (is_Some (owned_name prefix (Some n))) then Some v else None | _ => None end).

Definition _experiments (prefix : string) : M tracking (list json) :=
  all_pages (λ t, _call "POST" "experiments/search"
      (Some ([("filter", like prefix); ("view_type", JStr "ALL"); ("max_results", JInt _EXPERIMENT_PAGE)] ++ t)%list) false)
    "experiments" (owned_by prefix).

Definition _registered_models (prefix : string) : M tracking (list json) :=
  all_pages (λ t, _call "GET" "registered-models/search"
      (Some ([("filter", like prefix); ("max_results", JInt _MODEL_PAGE)] ++ t)%list) false)
    "registered_models" (λ v, o ← owned_by prefix v; match o with Some m => Some <$> py_item "name" m | None => Ok None end).

Definition _logged_models (experiment_id : json) : M tracking (list json) :=
  all_pages (λ t, _call "POST" "logged-models/search"
      (Some ([("experiment_ids", JList [experiment_id]); ("max_results", JInt _LOGGED_MODEL_PAGE)] ++ t)%list) false)
    "models" (λ v, i ← py_item "info" v; Some <$> py_item "model_id" i).

Definition _artifact_keys (company : string) : M tracking (list string) :=
  token ← lift (tenant_token company);
  ap ← lift (TrackingPolicy.artifact_prefix company);
  a ← at_store (list_keys ap);
  b ← at_store (list_keys (STAGING_ROOT +:+ token +:+ "/"));
  mret (a ++ b)%list.

Fixpoint each_ {A} (f : A → M tracking unit) (l : list A) : M tracking unit :=
  match l with [] => mret tt | v :: r => _ ← f v; each_ f r end.
Definition done_with {A} (m : M tracking A) : M tracking unit := _ ← m; mret tt.

Section offboarding.
Context (py_repr : json → string).

Definition remaining (company : string) : M tracking (Z * Z * Z) :=
  names ← lift (mlflow_name_prefix company);
  deleted ← lift (mlflow_deleted_name_prefix company);
  a ← _experiments names;
  b ← _experiments deleted;
  c ← _registered_models names;
  k ← _artifact_keys company;
  mret (Z.of_nat (length a) + Z.of_nat (length b), Z.of_nat (length c), Z.of_nat (length k))%Z.

(** [experiment.get("lifecycle_stage") == "deleted"] *)
Definition is_deleted (experiment : json) : res bool :=
  s ← py_get "lifecycle_stage" experiment; Ok (match s with JStr s => bool_decide (s = "deleted") | _ => false end).

Definition rename_away (deleted : string) (experiment : json) : M tracking unit :=
  eid ← lift (py_item "experiment_id" experiment);
  d ← lift (is_deleted experiment);
  _ ← (if d : bool then done_with (_call "POST" "experiments/restore" (Some [("experiment_id", eid)]) false) else mret tt);
  done_with (_call "POST" "experiments/update"
    (Some [("experiment_id", eid); ("new_name", JStr (deleted +:+ py_str py_repr eid))]) false).

Definition delete_experiment (experiment : json) : M tracking unit :=
  d ← lift (is_deleted experiment);
  if d : bool then mret tt else
  eid ← lift (py_item "experiment_id" experiment);
  models ← _logged_models eid;
  _ ← each_ (λ m, done_with (_call "DELETE" ("logged-models/" +:+ py_str py_repr m) None true)) models;
  done_with (_call "POST" "experiments/delete" (Some [("experiment_id", eid)]) false).

Definition empty_tenant (company : string) : M tracking (Z * Z * Z) :=
  names ← lift (mlflow_name_prefix company);
  deleted ← lift (mlflow_deleted_name_prefix company);
  models ← _registered_models names;
  _ ← each_ (λ n, done_with (_call "DELETE" "registered-models/delete" (Some [("name", n)]) true)) models;
  keys ← _artifact_keys company;
  _ ← each_ (λ k, at_store (store_delete k)) keys;
  experiments ← _experiments names;
  _ ← each_ (rename_away deleted) experiments;
  experiments ← _experiments deleted;
  _ ← each_ delete_experiment experiments;
  remaining company.

(** ** What may be asked of the tracking server *)

Definition is_search (a : asked) : Prop :=
  q_endpoint a = "experiments/search" ∨ q_endpoint a = "registered-models/search" ∨ q_endpoint a = "logged-models/search".

(** An answer of the log to a call of [asked_as] listed [v] under [k]. *)
Definition listed (l : list asked) (asked_as : asked → Prop) (k : string) (v : json) : Prop :=
  ∃ a data vs, a ∈ l ∧ asked_as a ∧ q_answer a = Ok (200%Z, JDict data) ∧ items k data = Ok vs ∧ v ∈ vs.

(** The searches for experiments, and for the models logged in one. *)
Definition experiments_asked (a : asked) : Prop := q_endpoint a = "experiments/search".
Definition models_asked (eid : json) (a : asked) : Prop :=
  q_method a = "POST" ∧ q_endpoint a = "logged-models/search" ∧
  ∃ b, q_body a = Some b ∧ dict_lookup "experiment_ids" b = Some (JList [eid]).

(** An experiment the server listed, named under [prefix], has the id. *)
Definition experiment_of (l : list asked) (prefix : string) (eid : json) : Prop :=
  ∃ v n, listed l experiments_asked "experiments" v ∧ py_item "experiment_id" v = Ok eid ∧
    py_get "name" v = Ok (JStr n) ∧ startswith prefix n = true.
Definition model_listed (l : list asked) (eid mid : json) : Prop :=
  ∃ v i, listed l (models_asked eid) "models" v ∧ py_item "info" v = Ok i ∧ py_item "model_id" i = Ok mid.

Section fine.
Context (names deleted : string).

(** A call that changes something names a thing of the tenant. *)
Definition fine (l : list asked) (a : asked) : Prop :=
  is_search a ∨
  (∃ n, q_method a = "DELETE" ∧ q_endpoint a = "registered-models/delete" ∧ q_body a = Some [("name", JStr n)] ∧ startswith names n = true) ∨
  (∃ eid, q_method a = "POST" ∧ experiment_of l names eid ∧
    (q_endpoint a = "experiments/restore" ∧ q_body a = Some [("experiment_id", eid)] ∨
     q_endpoint a = "experiments/update" ∧ q_body a = Some [("experiment_id", eid); ("new_name", JStr (deleted +:+ py_str py_repr eid))])) ∨
  (∃ eid, experiment_of l deleted eid ∧
    (q_method a = "POST" ∧ q_endpoint a = "experiments/delete" ∧ q_body a = Some [("experiment_id", eid)] ∨
     ∃ mid, model_listed l eid mid ∧ q_method a = "DELETE" ∧ q_endpoint a = "logged-models/" +:+ py_str py_repr mid ∧ q_body a = None)).

Inductive all_fine : list asked → Prop :=
  | all_fine_nil : all_fine []
  | all_fine_snoc l a : all_fine l → fine l a → all_fine (l ++ [a])%list.

(** From a log where [P], [m] asks fine things only, and if it returns then
    [Q]. *)
Definition asks {A} (P : list asked → Prop) (m : M tracking A) (Q : A → list asked → Prop) : Prop := ∀ s r s',
  m s = (r, s') → all_fine (log (t_up s)) → P (log (t_up s)) →
  all_fine (log (t_up s')) ∧ (∃ l, log (t_up s') = (log (t_up s) ++ l)%list) ∧ ∀ a, r = Ok a → Q a (log (t_up s')).

Lemma asks_ret {A} (P : list asked → Prop) (a : A) (Q : A → list asked → Prop) : (∀ l, P l → Q a l) → asks P (mret a) Q.
Proof. intros H s r s' [= <- <-] Hf HP. split_and!; [done | by exists []; rewrite app_nil_r |]. intros ? [= <-]. auto. Qed.
Lemma asks_lift {A} (P : list asked → Prop) (x : res A) (Q : A → list asked → Prop) : (∀ a l, x = Ok a → P l → Q a l) → asks P (lift x) Q.
Proof. intros H s r s' [= <- <-] Hf HP. split_and!; [done | by exists []; rewrite app_nil_r |]. intros ? ->. auto. Qed.
Lemma asks_raise {A} P e (Q : A → list asked → Prop) : asks P (raise e) Q.
Proof. intros s r s' [= <- <-] Hf HP. split_and!; [done | by exists []; rewrite app_nil_r | done]. Qed.
Lemma asks_gets {A} P (f : tracking → A) (Q : A → list asked → Prop) : (∀ a l, P l → Q a l) → asks P (gets f) Q.
Proof. intros H s r s' [= <- <-] Hf HP. split_and!; [done | by exists []; rewrite app_nil_r |]. intros ? [= <-]. auto. Qed.

Lemma asks_bind {A B} P (m : M tracking A) Q (k : A → M tracking B) R :
  asks P m Q → (∀ a, asks (Q a) (k a) R) → asks P (m ≫= k) R.
Proof.
  intros Hm Hk s r s' H Hf HP. unfold mbind, M_bind in H. destruct (m s) as [[a|e] s1] eqn:E.
  - destruct (Hm _ _ _ E Hf HP) as (Hf1 & (l & El) & HQ). destruct (Hk a _ _ _ H Hf1 (HQ a eq_refl)) as (Hf2 & (l' & El') & HR).
    split_and!; [done | exists (l ++ l')%list; by rewrite El', El, app_assoc | done].
  - injection H as <- <-. destruct (Hm _ _ _ E Hf HP) as (Hf1 & Hl & HQ). by split_and!.
Qed.

Lemma asks_weaken {A} (P P' : list asked → Prop) (m : M tracking A) (Q Q' : A → list asked → Prop) :
  (∀ l, P l → P' l) → asks P' m Q' → (∀ a l, Q' a l → Q a l) → asks P m Q.
Proof. intros HP H HQ s r s' E Hf Hs. destruct (H _ _ _ E Hf (HP _ Hs)) as (H1 & H2 & H3). split_and!; eauto. Qed.

Lemma asks_frame {A} P (m : M tracking A) Q F : upward F → asks P m Q → asks (λ l, P l ∧ F l) m (λ a l, Q a l ∧ F l).
Proof.
  intros HF H s r s' E Hf [HP HFl]. destruct (H _ _ _ E Hf HP) as (H1 & [l El] & H3). split_and!; [done | by exists l |].
  intros a ->. split; [by apply H3|]. rewrite El. by apply HF.
Qed.

Lemma asks_store {A} (P : list asked → Prop) (m : M astore A) (Q : A → list asked → Prop) : (∀ a l, P l → Q a l) → asks P (at_store m) Q.
Proof.
  intros H s r s' E Hf HP. unfold at_store, zoom in E. destruct (m (t_store s)) as [o a]. injection E as <- <-. cbn.
  split_and!; [done | by exists []; rewrite app_nil_r | auto].
Qed.

Lemma asks_call method e message absent_ok (P : list asked → Prop) : upward P →
  (∀ l ans, P l → fine l {| q_method := method; q_endpoint := e;
      q_params := if bool_decide (method = "GET") then default [] message else []; q_body := if bool_decide (method = "GET") then None else message;
      q_answer := ans |}) →
  asks P (_call method e message absent_ok) (λ d l, P l ∧ (d = [] ∨ ∃ a, a ∈ l ∧
    (q_method a = method ∧ q_endpoint a = e ∧ q_body a = if bool_decide (method = "GET") then None else message) ∧
    q_answer a = Ok (200%Z, JDict d))).
Proof.
  intros HP Hfine s r s' H Hf Hs. unfold _call, at_up, zoom, mbind, M_bind in H.
  set (ans := default (Err ConnectionError) (head (answers (t_up s)))) in *.
  assert (∃ q, (if bool_decide (method = "GET") then call_upstream method e (default [] message) None else call_upstream method e [] message) (t_up s)
    = (ans, {| answers := tail (answers (t_up s)); log := (log (t_up s) ++ [q])%list |}) ∧ fine (log (t_up s)) q ∧
    (q_method q = method ∧ q_endpoint q = e ∧ q_body q = if bool_decide (method = "GET") then None else message) ∧ q_answer q = ans)
    as (q & Eq & Hq & He & Ha).
  { specialize (Hfine (log (t_up s)) ans Hs). case_bool_decide; eexists; split_and!; try reflexivity; try exact Hfine; by subst. }
  rewrite Eq in H. destruct ans as [[st d]|x] eqn:Ean.
  2:{ injection H as <- <-. cbn. split_and!; [by constructor | by eexists | done]. }
  cbn in H. assert (all_fine (log (t_up s) ++ [q])) as Hf' by (by constructor).
  destruct (Z.eqb st 404 && absent_ok); [injection H as <- <-; cbn; split_and!; [done | by eexists | intros a [= <-]; auto]|].
  destruct (Z.eqb_spec st 200); cbn [negb] in H; injection H as <- <-; cbn; split_and!; try done; try (by eexists).
  intros a [= <-]. split; [auto|]. destruct d; try (by left). right. exists q. split; [set_solver|]. split; [exact He|]. by subst.
Qed.

Lemma listed_up e k v : upward (λ l, listed l e k v).
Proof. intros l l' (a & d & vs & Ha & H). exists a, d, vs. split; [set_solver | exact H]. Qed.

Lemma collect_elem {A} (keep : json → res (option A)) l out x : collect keep l = Ok out → x ∈ out →
  ∃ v, v ∈ l ∧ keep v = Ok (Some x).
Proof.
  revert out. induction l as [|v l IH]; intros out; cbn; [intros [= <-] Hx; by apply elem_of_nil in Hx|].
  intros (y & Hy & H)%res_bind_inv_ok Hx. apply res_bind_inv_ok in H as (rest & Hr & H). injection H as <-.
  destruct y as [y|].
  - apply elem_of_cons in Hx as [->|Hx]; [exists v; split; [left | done]|].
    destruct (IH _ Hr Hx) as (w & Hw & Hk). exists w. split; [by right | done].
  - destruct (IH _ Hr Hx) as (w & Hw & Hk). exists w. split; [by right | done].
Qed.

(** What a listing returns, the server listed. *)
Lemma asks_pages {A} (e : asked → Prop) k (keep : json → res (option A)) (ask : dict → M tracking dict) fuel token found F :
  upward F → (∀ t P, upward P → asks P (ask t) (λ d l, P l ∧ (d = [] ∨ ∃ a, a ∈ l ∧ e a ∧ q_answer a = Ok (200%Z, JDict d)))) →
  asks (λ l, F l ∧ ∀ x, x ∈ found → ∃ v, listed l e k v ∧ keep v = Ok (Some x)) (pages fuel ask k keep token found)
    (λ out l, F l ∧ ∀ x, x ∈ out → ∃ v, listed l e k v ∧ keep v = Ok (Some x)).
Proof.
  intros HF Hask. revert token found. induction fuel as [|fuel IH]; intros token found; [apply asks_raise|]. cbn [pages].
  set (kept := λ (found : list A) l, F l ∧ ∀ x, x ∈ found → ∃ v, listed l e k v ∧ keep v = Ok (Some x)) in *.
  eapply asks_bind; [apply (Hask _ (kept found))|].
  { intros l l' [H1 H2]. split; [by apply HF|]. intros x Hx. destruct (H2 x Hx) as (v & Hv & Hk). exists v. split; [by apply listed_up | done]. }
  intros data. eapply asks_bind; [apply asks_lift with (Q := λ page l, kept (found ++ page)%list l)|].
  - intros page l Hp [[H1 H2] Hd]. split; [exact H1|]. intros x [Hx|Hx]%elem_of_app; [auto|].
    apply res_bind_inv_ok in Hp as (vs & Hvs & Hp). destruct (collect_elem _ _ _ _ Hp Hx) as (v & Hv & Hk).
    exists v. split; [|done]. destruct Hd as [->|(a & Ha & He & Hans)]; [injection Hvs as <-; by apply elem_of_nil in Hv|].
    by exists a, data, vs.
  - intros page. cbv zeta. destruct (negb _); [by apply asks_ret | apply IH].
Qed.

Lemma asks_all_pages {A} (e : asked → Prop) k (keep : json → res (option A)) (ask : dict → M tracking dict) F :
  upward F → (∀ t P, upward P → asks P (ask t) (λ d l, P l ∧ (d = [] ∨ ∃ a, a ∈ l ∧ e a ∧ q_answer a = Ok (200%Z, JDict d)))) →
  asks F (all_pages ask k keep) (λ out l, F l ∧ ∀ x, x ∈ out → ∃ v, listed l e k v ∧ keep v = Ok (Some x)).
Proof.
  intros HF Hask. unfold all_pages. eapply asks_bind; [apply asks_gets with (Q := λ _ l, F l); done|]. intros n.
  eapply asks_weaken; [|apply asks_pages; [exact HF | exact Hask]|done]. intros l H. split; [done|]. intros x Hx. by apply elem_of_nil in Hx.
Qed.

Lemma owned_by_named prefix v w : owned_by prefix v = Ok (Some w) → w = v ∧ ∃ n, py_get "name" v = Ok (JStr n) ∧ startswith prefix n = true.
Proof.
  unfold owned_by. intros (n & Hn & H)%res_bind_inv_ok. destruct n as [| | | |n| |]; try done. case_bool_decide as Ho; [|done].
  injection H as <-. split; [done|]. exists n. split; [done|]. destruct Ho as [x Hx]. by apply owned_name_startswith in Hx as [? _].
Qed.

Lemma asks_experiments prefix F : upward F → asks F (_experiments prefix) (λ out l, F l ∧ ∀ v, v ∈ out →
  listed l experiments_asked "experiments" v ∧ ∃ n, py_get "name" v = Ok (JStr n) ∧ startswith prefix n = true).
Proof.
  intros HF. eapply asks_weaken; [|apply (asks_all_pages experiments_asked "experiments" (owned_by prefix))|]; [by intros l H | exact HF | |].
  - intros t P HP. eapply asks_weaken; [|apply asks_call; [exact HP|]|]; [by intros l H | intros; by left; left |].
    intros d l [H1 [->|(a & Ha & (_ & He & _) & Hans)]]; (split; [done|]); [by left | right; by exists a].
  - intros out l [H1 H2]. split; [done|]. intros v Hv. destruct (H2 v Hv) as (w & Hw & Hk). by apply owned_by_named in Hk as [-> Hn].
Qed.

Lemma asks_models prefix F : upward F → asks F (_registered_models prefix) (λ out l, F l ∧ ∀ v, v ∈ out →
  ∃ n, v = JStr n ∧ startswith prefix n = true).
Proof.
  intros HF. eapply asks_weaken; [|eapply (asks_all_pages (λ _, True) "registered_models")|]; [by intros l H | exact HF | |].
  - intros t P HP. eapply asks_weaken; [|apply asks_call; [exact HP|]|]; [by intros l H | intros; left; by right; left |].
    intros d l [H1 [->|(a & Ha & _ & Hans)]]; (split; [done|]); [by left | right; by exists a].
  - intros out l [H1 H2]. split; [done|]. intros v Hv. destruct (H2 v Hv) as (w & _ & Hk). cbn in Hk.
    apply res_bind_inv_ok in Hk as (o & Ho & Hk). destruct o as [m|]; [|done]. apply owned_by_named in Ho as [-> (n & Hn & Hs)].
    destruct w as [| | | | | |d]; try done. cbn in Hn, Hk. injection Hn as Hn. unfold jget in Hn.
    destruct (dict_lookup "name" d) as [x|]; [|done]. cbn in Hn, Hk. subst x. injection Hk as <-. eauto.
Qed.

Lemma asks_logged eid F : upward F → asks F (_logged_models eid) (λ out l, F l ∧ ∀ mid, mid ∈ out → model_listed l eid mid).
Proof.
  intros HF. eapply asks_weaken; [|eapply (asks_all_pages (models_asked eid) "models")|]; [by intros l H | exact HF | |].
  - intros t P HP. eapply asks_weaken; [|apply asks_call; [exact HP|]|]; [by intros l H | intros; left; by right; right |].
    intros d l [H1 [->|(a & Ha & (Hm & He & Hb) & Hans)]]; (split; [done|]); [by left | right; exists a].
    split; [done|]. split; [|done]. split; [done|]. split; [done|]. eexists. split; [exact Hb | reflexivity].
  - intros out l [H1 H2]. split; [done|]. intros mid Hv. destruct (H2 mid Hv) as (w & Hw & Hk). cbn in Hk.
    apply res_bind_inv_ok in Hk as (i & Hi & Hk). exists w, i. split; [done|]. split; [done|]. by destruct (py_item "model_id" i); cbn in Hk; simplify_eq.
Qed.

Lemma asks_each {A} (f : A → M tracking unit) (P : A → list asked → Prop) F ls : upward F → (∀ v, upward (P v)) →
  (∀ v, asks (λ l, F l ∧ P v l) (f v) (λ _ _, True)) →
  asks (λ l, F l ∧ ∀ v, v ∈ ls → P v l) (each_ f ls) (λ _ l, F l).
Proof.
  intros HF HP Hf. induction ls as [|v ls IH]; cbn; [by apply asks_ret; intros l [? _]|].
  assert (upward (λ l, F l ∧ ∀ w, w ∈ ls → P w l)) as Hup.
  { intros l l' [H1 H2]. split; [by apply HF|]. intros w Hw. by apply HP, H2. }
  eapply asks_bind with (Q := λ _ l, F l ∧ ∀ v, v ∈ ls → P v l).
  - eapply asks_weaken; [|apply (asks_frame _ _ _ _ Hup (Hf v))|].
    + intros l [H1 H2]. split; (split; [exact H1|]); [apply H2; left | intros w Hw; apply H2; by right].
    + by intros _ l [_ ?].
  - intros []. exact IH.
Qed.

Lemma asks_done_call method e message absent_ok P : upward P →
  (∀ l ans, P l → fine l {| q_method := method; q_endpoint := e;
      q_params := if bool_decide (method = "GET") then default [] message else []; q_body := if bool_decide (method = "GET") then None else message;
      q_answer := ans |}) →
  asks P (done_with (_call method e message absent_ok)) (λ _ l, P l).
Proof. intros HP Hf. eapply asks_bind; [by apply asks_call|]. intros d. apply asks_ret. by intros l []. Qed.

(** The experiment a listing showed. *)
Definition shows (prefix : string) (v : json) (l : list asked) : Prop :=
  listed l experiments_asked "experiments" v ∧ ∃ n, py_get "name" v = Ok (JStr n) ∧ startswith prefix n = true.
Lemma shows_up prefix v : upward (shows prefix v).
Proof. intros l l' [H1 H2]. split; [by apply listed_up | done]. Qed.
Lemma shows_experiment prefix v l eid : shows prefix v l → py_item "experiment_id" v = Ok eid → experiment_of l prefix eid.
Proof. intros [H1 (n & Hn & Hs)] He. by exists v, n. Qed.

Lemma asks_rename v : asks (λ l, True ∧ shows names v l) (rename_away deleted v) (λ _ _, True).
Proof.
  unfold rename_away. eapply asks_bind; [apply asks_lift with (Q := λ eid l, shows names v l ∧ experiment_of l names eid)|].
  { intros eid l He [_ Hs]. split; [done | by eapply shows_experiment]. }
  intros eid. assert (upward (λ l, shows names v l ∧ experiment_of l names eid)) as Hup.
  { intros l l' [H1 (w & n & H2 & H3)]. split; [by apply shows_up|]. exists w, n. split; [by apply listed_up | done]. }
  eapply asks_bind; [apply asks_lift with (Q := λ _ l, shows names v l ∧ experiment_of l names eid); done|]. intros d.
  eapply asks_bind with (Q := λ _ l, shows names v l ∧ experiment_of l names eid).
  { destruct d; [|by apply asks_ret]. apply asks_done_call; [exact Hup|].
    intros l ans [_ He]. right. right. left. exists eid. split; [done|]. split; [exact He|]. by left. }
  intros []. eapply asks_weaken; [|apply asks_done_call; [exact Hup|]|]; [by intros l H| |done].
  intros l ans [_ He]. right. right. left. exists eid. split; [done|]. split; [exact He|]. by right.
Qed.

Lemma asks_delete v : asks (λ l, True ∧ shows deleted v l) (delete_experiment v) (λ _ _, True).
Proof.
  unfold delete_experiment. eapply asks_bind; [apply asks_lift with (Q := λ _ l, shows deleted v l); by intros ? l _ []|].
  intros []; [by apply asks_ret|]. eapply asks_bind; [apply asks_lift with (Q := λ eid l, experiment_of l deleted eid)|].
  { intros eid l He Hs. by eapply shows_experiment. }
  intros eid. assert (upward (λ l, experiment_of l deleted eid)) as Hup.
  { intros l l' (w & n & H2 & H3). exists w, n. split; [by apply listed_up | done]. }
  eapply asks_bind; [by apply asks_logged|]. intros models.
  eapply asks_bind with (Q := λ _ l, experiment_of l deleted eid).
  - apply asks_each with (P := λ mid l, model_listed l eid mid); [exact Hup | |].
    + intros mid l l' (w & i & H1 & H2). exists w, i. split; [by apply listed_up | done].
    + intros mid. eapply asks_weaken; [|apply (asks_done_call _ _ _ _ (λ l, experiment_of l deleted eid ∧ model_listed l eid mid))|]; [by intros l H| | |done].
      * intros l l' [H1 (w & i & H2 & H3)]. split; [by apply Hup|]. exists w, i. split; [by apply listed_up | done].
      * intros l ans [He Hm]. right. right. right. exists eid. split; [exact He|]. right. by exists mid.
  - intros []. eapply asks_weaken; [|apply asks_done_call; [exact Hup|]|]; [by intros l H| |done].
    intros l ans He. right. right. right. exists eid. split; [exact He|]. by left.
Qed.

Lemma asks_known {A B} P (a : A) (k : A → M tracking B) R : asks P (k a) R → asks P (lift (Ok a) ≫= k) R.
Proof. intros H. exact H. Qed.

Lemma asks_keys company P : upward P → asks P (_artifact_keys company) (λ _, P).
Proof.
  intros HP. unfold _artifact_keys. eapply asks_bind; [apply asks_lift with (Q := λ _, P); auto|]. intros t.
  eapply asks_bind; [apply asks_lift with (Q := λ _, P); auto|]. intros ap.
  eapply asks_bind; [apply asks_store with (Q := λ _, P); auto|]. intros a.
  eapply asks_bind; [apply asks_store with (Q := λ _, P); auto|]. intros b. by apply asks_ret.
Qed.

Lemma asks_only {A} (m : M tracking A) Q : asks (λ _, True) m Q → asks (λ _, True) m (λ _ _, True).
Proof. intros H. eapply asks_weaken; [|exact H|]; done. Qed.

Lemma asks_then {A B} (m : M tracking A) (k : A → M tracking B) :
  asks (λ _, True) m (λ _ _, True) → (∀ a, asks (λ _, True) (k a) (λ _ _, True)) → asks (λ _, True) (m ≫= k) (λ _ _, True).
Proof. intros Hm Hk. by eapply asks_bind. Qed.

Lemma asks_remaining company : mlflow_name_prefix company = Ok names → mlflow_deleted_name_prefix company = Ok deleted →
  asks (λ _, True) (remaining company) (λ _ _, True).
Proof.
  intros Hn Hd. unfold remaining. rewrite Hn, Hd. do 2 apply asks_known.
  do 2 (apply asks_then; [eapply asks_only, asks_experiments; done|]; intros ?).
  apply asks_then; [eapply asks_only, asks_models; done|]. intros c.
  apply asks_then; [by apply asks_keys|]. intros k. by apply asks_ret.
Qed.

(** A listing, and then something for each of what it showed. *)
Lemma asks_listed {A} (m : M tracking (list A)) (f : A → M tracking unit) (P : A → list asked → Prop) (k : M tracking (Z * Z * Z)) :
  (∀ v, upward (P v)) → asks (λ _, True) m (λ out l, True ∧ ∀ v, v ∈ out → P v l) →
  (∀ v, asks (λ l, True ∧ P v l) (f v) (λ _ _, True)) → asks (λ _, True) k (λ _ _, True) →
  asks (λ _, True) (out ← m; _ ← each_ f out; k) (λ _ _, True).
Proof.
  intros HP Hm Hf Hk. eapply asks_bind; [exact Hm|]. intros out.
  eapply asks_bind; [by apply (asks_each f P (λ _, True))|]. intros []. exact Hk.
Qed.
End fine.


(** *** The object store *)

(** Only deletions, of the tenant's own keys. *)
Definition cleared (company : string) (s s' : astore) : Prop :=
  ∃ l, done_ s' = (done_ s ++ l)%list ∧ Forall (λ o, ∃ k, o = OpDelete k ∧ in_tenant company k) l.
Definition clears (company : string) (s s' : tracking) : Prop := cleared company (t_store s) (t_store s').

#[local] Instance clears_refl company : Reflexive (clears company).
Proof. intros s. exists []. by rewrite app_nil_r. Qed.
#[local] Instance clears_trans company : Transitive (clears company).
Proof.
  intros s1 s2 s3 (l & E & H) (l' & E' & H'). exists (l ++ l')%list. rewrite E', E, app_assoc. split; [done | by apply Forall_app].
Qed.

Lemma clears_store company {A} (f : objects → A * objects) (l : A → list op) :
  (∀ a, Forall (λ o, ∃ k, o = OpDelete k ∧ in_tenant company k) (l a)) → respects (clears company) (at_store (astore_op f l)).
Proof.
  intros Hl s. unfold clears, cleared, final, at_store, zoom, astore_op, astore_next, mbind, M_bind.
  destruct (a_steps (t_store s)) as [|st steps]; [by eexists|].
  destruct (a_call st); cbn; [by eexists | exists []; by rewrite app_nil_r | by eexists].
Qed.
Lemma clears_call company method e message absent_ok : respects (clears company) (_call method e message absent_ok).
Proof.
  unfold _call. assert (∀ A (m : M upstream A), respects (clears company) (at_up m)) as Hup.
  { intros A m s. unfold clears, cleared, final, at_up, zoom. destruct (m (t_up s)). exists []. by rewrite app_nil_r. }
  respecting ltac:(apply Hup).
Qed.
Lemma clears_pages company {A} method e (message : dict → dict) absent_ok k (keep : json → res (option A)) fuel : ∀ token found,
  respects (clears company) (pages fuel (λ t, _call method e (Some (message t)) absent_ok) k keep token found).
Proof. induction fuel as [|fuel IH]; intros token found; cbn [pages]; respecting ltac:(first [apply clears_call | apply IH]). Qed.

(** The keys it lists are the tenant's. *)
Lemma artifact_keys_own company : yields (λ ks, Forall (in_tenant company) ks) (_artifact_keys company).
Proof.
  intros s ks s' (token & s1 & [Ht ->]%lift_inv & H)%bind_inv_ok. apply bind_inv_ok in H as (ap & s2 & [Ha ->]%lift_inv & H).
  apply bind_inv_ok in H as (a & s3 & H1 & H). apply bind_inv_ok in H as (b & s4 & H2 & [= <- _]).
  assert (∀ p ks s s', at_store (list_keys p) s = (Ok ks, s') → ∀ k, k ∈ ks → startswith p k = true) as Hlist.
  { clear. intros p ks s s' H. unfold at_store, zoom in H. destruct (list_keys p (t_store s)) as [o x] eqn:E. injection H as -> _.
    by eapply list_keys_under. }
  apply Forall_forall. intros k [Hk|Hk]%elem_of_app.
  - left. exists ap. split; [exact Ha|]. exact (Hlist _ _ _ _ H1 k Hk).
  - right. exists token. split; [exact Ht|]. exact (Hlist _ _ _ _ H2 k Hk).
Qed.

Lemma empty_tenant_clears company : respects (clears company) (empty_tenant company).
Proof.
  assert (∀ A (f : A → M tracking unit) l, (∀ v, v ∈ l → respects (clears company) (f v)) → respects (clears company) (each_ f l)) as Heach.
  { intros A f l Hf. induction l as [|v l IH]; cbn; [respecting fail|]. apply respects_bind; [apply _ | apply Hf; left|]. intros _.
    apply IH. intros w Hw. apply Hf. by right. }
  assert (∀ prefix, respects (clears company) (_experiments prefix)) as Hexp.
  { intros prefix. unfold _experiments, all_pages. respecting ltac:(apply clears_pages). }
  assert (∀ prefix, respects (clears company) (_registered_models prefix)) as Hmod.
  { intros prefix. unfold _registered_models, all_pages. respecting ltac:(apply clears_pages). }
  assert (∀ eid, respects (clears company) (_logged_models eid)) as Hlog.
  { intros eid. unfold _logged_models, all_pages. respecting ltac:(apply clears_pages). }
  assert (respects (clears company) (_artifact_keys company)) as Hkeys.
  { unfold _artifact_keys. respecting ltac:(apply clears_store; by constructor). }
  assert (respects (clears company) (remaining company)) as Hrem.
  { unfold remaining. respecting ltac:(first [apply Hexp | apply Hmod | apply Hkeys]). }
  unfold empty_tenant, done_with. respecting ltac:(idtac; lazymatch goal with
    | |- respects _ (_artifact_keys _ ≫= _) => apply (respects_bind_when _ _ _ _ Hkeys (artifact_keys_own company)); intros keys Hown
    | |- _ => first [apply Hexp | apply Hmod | apply Hrem | apply Hlog | apply clears_call | apply clears_pages | apply Heach; intros ? ?] end).
  rewrite Forall_forall in Hown. apply clears_store. intros _. apply Forall_singleton. eexists. split; [done|].
  by apply Hown.
Qed.

(** What a run asked and deleted, for the endpoint that makes it. *)
Lemma empty_tenant_own company names deleted s r s' :
  mlflow_name_prefix company = Ok names → mlflow_deleted_name_prefix company = Ok deleted →
  log (t_up s) = [] → empty_tenant company s = (r, s') →
  all_fine names deleted (log (t_up s')) ∧ cleared company (t_store s) (t_store s').
Proof.
  intros Hn Hd Hl H. split.
  2:{ pose proof (empty_tenant_clears company s) as Hc. unfold final in Hc. by rewrite H in Hc. }
  assert (asks names deleted (λ _, True) (empty_tenant company) (λ _ _, True)) as Ha.
  2:{ destruct (Ha _ _ _ H) as [Hf _]; [rewrite Hl; constructor | done | exact Hf]. }
  unfold empty_tenant. rewrite Hn, Hd. do 2 apply asks_known.
  apply asks_listed with (P := λ v _, ∃ n, v = JStr n ∧ startswith names n = true); [by intros v l l' | by apply asks_models | |].
  { intros v. eapply asks_weaken; [|apply (asks_done_call _ _ _ _ _ _ (λ _, ∃ n, v = JStr n ∧ startswith names n = true))|]; [by intros l [_ ?]|by intros l l'| |done].
    intros l ans (n & -> & Hs). right. left. by exists n. }
  apply asks_listed with (P := λ _ _, True); [done | | intros v; by apply asks_store |].
  { eapply asks_weaken; [|by apply (asks_keys names deleted company (λ _, True))|]; done. }
  apply asks_listed with (P := shows names); [apply shows_up | by apply asks_experiments | apply asks_rename |].
  apply asks_listed with (P := shows deleted); [apply shows_up | by apply asks_experiments | apply asks_delete |].
  by apply asks_remaining.
Qed.

(** C32: emptying a tenant touches only that tenant: whatever the tracking
    server answers and whichever call fails, every call that changes something
    there names a registered model under the tenant's prefix, an experiment the
    server listed under it (restored, or renamed into the tenant's deleted
    names), or an experiment it listed under the tenant's deleted names and the
    models it listed when asked for that experiment's (deleted); and all that is
    done in the object store is the deletion of keys under the tenant's artifact
    prefix or its staging area. *)
Theorem emptying_touches_only_the_tenant company names deleted s r s' :
  mlflow_name_prefix company = Ok names → mlflow_deleted_name_prefix company = Ok deleted →
  log (t_up s) = [] → empty_tenant company s = (r, s') →
  all_fine names deleted (log (t_up s')) ∧
  ∃ l, done_ (t_store s') = (done_ (t_store s) ++ l)%list ∧ Forall (λ o, ∃ k, o = OpDelete k ∧ in_tenant company k) l.
Proof. apply empty_tenant_own. Qed.
End offboarding.

(** ** The fuel of a listing is enough *)

Lemma call_consumes method e message absent_ok s d s' : _call method e message absent_ok s = (Ok d, s') →
  length (answers (t_up s)) = S (length (answers (t_up s'))).
Proof.
  unfold _call, at_up, zoom, mbind, M_bind. intros H.
  assert ((if bool_decide (method = "GET") then call_upstream method e (default [] message) None else call_upstream method e [] message) (t_up s)
    = (default (Err ConnectionError) (head (answers (t_up s))), {| answers := tail (answers (t_up s));
        log := log ((if bool_decide (method = "GET") then call_upstream method e (default [] message) None else call_upstream method e [] message) (t_up s)).2 |}))
    as E by (by case_bool_decide).
  rewrite E in H. destruct (answers (t_up s)) as [|[[st x]|x] l]; cbn in H |- *; [done| |done].
  destruct (Z.eqb st 404 && absent_ok); [by injection H as <- <-|].
  destruct (negb (Z.eqb st 200)); by injection H as _ <-.
Qed.

(** A page more or less makes no difference once every answer has its own:
    a listing ends with what it found or with a failed call. *)
Theorem listing_ends {A} (ask : dict → M tracking dict) k (keep : json → res (option A)) more fuel token found s :
  (∀ t s d s', ask t s = (Ok d, s') → length (answers (t_up s)) = S (length (answers (t_up s')))) →
  (length (answers (t_up s)) < fuel)%nat →
  pages (fuel + more) ask k keep token found s = pages fuel ask k keep token found s.
Proof.
  intros Hask. revert token found s. induction fuel as [|fuel IH]; intros token found s Hlen; [lia|].
  cbn. unfold mbind, M_bind. destruct (ask (page_token token) s) as [[d|e] s1] eqn:E; [|done].
  apply Hask in E. unfold lift. destruct (res_bind _ _ _ (items k d)) as [page|e]; [|done].
  destruct (negb _); [done|]. apply IH. lia.
Qed.

(** ** A concrete tenant *)

Definition w_tenant : string := "6f1c2a4e-7d3b-5e8a-9c0f-1b2d3e4f5a6b".
Definition w_names : string := "tenant_6f1c2a4e_7d3b_5e8a_9c0f_1b2d3e4f5a6b.".
Definition w_deleted : string := "_deleted." +:+ w_names.
Definition w_page (k : string) (l : list json) : res (Z * json) := Ok (200%Z, JDict [(k, JList l)]).
Definition w_named (id name : string) : json := JDict [("experiment_id", JStr id); ("name", JStr name)].

(** One model and one experiment with a logged model; the other tenant's, that
    the wildcards of LIKE also match, are left alone. *)
Definition w_answers : list (res (Z * json)) := [
  w_page "registered_models" [JDict [("name", JStr (w_names +:+ "pump"))]; JDict [("name", JStr "tenantX6f1c2a4e")]];
  Ok (200%Z, JNull);
  w_page "experiments" [w_named "7" (w_names +:+ "pumps"); w_named "9" "tenant_0b7d4c11_2a55_5f60_8e19_aa01c7d2f3e4.x"];
  Ok (200%Z, JNull);
  w_page "experiments" [w_named "7" (w_deleted +:+ "7")];
  w_page "models" [JDict [("info", JDict [("model_id", JStr "m-1")])]];
  Ok (404%Z, JNull);
  Ok (200%Z, JNull);
  w_page "experiments" []; w_page "experiments" []; w_page "registered_models" []].
Definition w_start : tracking :=
  {| t_up := {| answers := w_answers; log := [] |}; t_store := {| objs := list_to_map [("tenant_6f1c2a4e_7d3b_5e8a_9c0f_1b2d3e4f5a6b/7/model", ([], "e1"));
                            ("_upload-staging/tenant_6f1c2a4e_7d3b_5e8a_9c0f_1b2d3e4f5a6b/u/m", ([], "e2"));
                            ("tenant_0b7d4c11_2a55_5f60_8e19_aa01c7d2f3e4/9/model", ([], "e3"))]; a_steps := []; done_ := [] |} |}.
Definition w_emptied := empty_tenant (λ _, "") w_tenant w_start.

Example emptied_calls : w_emptied.1 = Ok (0, 0, 0)%Z ∧
  map q_endpoint (List.filter (λ a, negb (bool_decide (q_endpoint a ∈ ["experiments/search"; "registered-models/search"; "logged-models/search"])))
                    (log (t_up w_emptied.2))) =
  ["registered-models/delete"; "experiments/update"; "logged-models/m-1"; "experiments/delete"].
Proof. split; vm_compute; reflexivity. Qed.

Lemma emptying_touches_only_the_tenant_witness :
  (all_fine (λ _, "") w_names w_deleted (log (t_up w_emptied.2)) ∧
   ∃ l, done_ (t_store w_emptied.2) = l ∧ Forall (λ o, ∃ k, o = OpDelete k ∧ in_tenant w_tenant k) l) ∧
  length (log (t_up w_emptied.2)) = 11%nat ∧ length (done_ (t_store w_emptied.2)) = 2%nat.
Proof.
  split; [|split; vm_compute; reflexivity].
  apply (emptying_touches_only_the_tenant (λ _, "") w_tenant w_names w_deleted w_start w_emptied.1 w_emptied.2);
    [vm_compute; reflexivity | vm_compute; reflexivity | reflexivity | apply surjective_pairing].
Defined.
