(* ===== verification/TrackingServer.v ===== *)
(** * The tracking gateway's endpoints: services/notebook_tracking_gateway/gateway.py

    Who may ask: a bearer is resolved for the plane's audience and its outcome
    recorded ([tenant], [uploader]) before an endpoint of the kernels' or of the
    upload plane does anything; the operator's endpoint asks for its secret. *)

From stdpp Require Import base strings list gmap sorting.
From Stdlib Require Import ZArith Lia Ascii.
From S2P Require Import Prelude PyText PyNum PyJson Tenancy CapabilityAudit SqlBinding HubCapabilities ApiCapabilities TrackingPolicy TrackingRoutes TrackingGateway TrackingAdmission TrackingUploads TrackingOffboarding.

Local Open Scope string_scope.

#[local] Arguments uuid_str : simpl never.
#[local] Arguments uuid_parse : simpl never.
#[local] Arguments t_of : simpl never.
#[local] Arguments clean_text : simpl never.

(** [auth[7:].strip() if auth[:7].lower() == "bearer " else ""] *)
Definition _bearer (authorization : string) : string :=
  if bool_decide (str_lower (str_take 7 authorization) = "bearer ") then strip is_space (str_drop 7 authorization) else "".

Section server.
Context `{J : JsonCodec} `{I : IsoCodec}.
Context (trim : nat → nat) (sha256_hex : text → string) (py_repr : json → string).
Context (utf8_replace : list Z → string) (safe_load : string → res (graph * nat)) (limit : nat) (bucket : string).
Context (operator_token : option string).

(** The gateway, with the tracking server it calls. *)
Record server := { s_gw : gw; s_up : upstream }.
Definition on_gw {A} (m : M gw A) : M server A := zoom s_gw (λ g s, {| s_gw := g; s_up := s_up s |}) m.
Definition on_up {A} (m : M upstream A) : M server A := zoom s_up (λ u s, {| s_gw := s_gw s; s_up := u |}) m.

Definition resolve (handle : string) (resolver : text → M cap_store (option TrackingBinding * option string * facts))
  (source : option string) : M server (option TrackingBinding) :=
  outcome ← on_gw (on_caps (resolver (t_of handle)));
  _ ← (if bool_decide (handle = "") then mret tt
       else on_gw (on_caps (record_resolution trim sha256_hex py_repr (t_of handle) outcome source)));
  mret outcome.1.1.

Definition required {A} (detail : string) (b : option A) : M server A :=
  match b with Some b => mret b | None => raise (HTTPException 401 detail) end.

Definition tenant (authorization : string) (source : option string) : M server TrackingBinding :=
  b ← resolve (_bearer authorization) resolve_tracking_outcome source;
  required "tracking capability refused" b.

Definition uploader (authorization : string) (source : option string) : M server TrackingBinding :=
  b ← resolve (_bearer authorization) resolve_upload_outcome source;
  required "upload capability refused" b.

(** ** The endpoints *)

Definition serve_mlflow (e nonce : string) (rq : request) (authorization : string) (source : option string) : M server (Z * json) :=
  b ← tenant authorization source; on_up (proxy py_repr (company_id b) e nonce rq).
Definition serve_artifact (method path authorization : string) (source : option string) : M server answer :=
  b ← tenant authorization source; on_gw (on_store (artifact_object method path (company_id b))).
Definition serve_artifact_list (path authorization : string) (source : option string) : M server string :=
  b ← tenant authorization source; on_gw (on_store (artifact_list path (company_id b))).
Definition serve_stage (rq : request) (upload_id authorization : string) (source : option string) : M server (list string) :=
  b ← uploader authorization source;
  body ← lift (_json_body rq);
  on_gw (on_store (upload_stage body (company_id b) upload_id)).
Definition serve_commit (rq : request) (authorization : string) (source : option string) : M server (string * list string) :=
  b ← uploader authorization source;
  body ← lift (_json_body rq);
  on_gw (upload_commit trim sha256_hex py_repr utf8_replace safe_load limit bucket body b (_bearer authorization)).

(** The operator's plane, there only with a token; an exception's text is not
    carried here. *)
Definition on_tracking {A} (m : M tracking A) : M server A :=
  zoom (λ s, {| t_up := s_up s; t_store := g_store (s_gw s) |})
       (λ t s, {| s_gw := {| g_hub := g_hub (s_gw s); g_caps := g_caps (s_gw s); g_store := t_store t |}; s_up := t_up t |}) m.
Definition operator (authorization : string) : M server unit :=
  match operator_token with
  | None | Some "" => raise (HTTPException 404 "Not Found")
  | Some token => if bool_decide (_bearer authorization = token) then mret tt else raise (HTTPException 401 "operator credential refused")
  end.
Definition serve_offboard (company authorization : string) : M server (string * (Z * Z * Z)) :=
  _ ← operator authorization;
  cid ← catch (lift (canonical_company_id company))
              (λ e, if bool_decide (e = ValueError) then raise (HTTPException 400 "not a tenant id") else raise e);
  remaining ← catch (on_tracking (empty_tenant py_repr cid))
                    (λ e, if bool_decide (e = OffboardingError) then raise (HTTPException 502 "") else raise e);
  mret (cid, remaining).

(** ** Nothing is done without a binding *)

(** The tracking server and the object store are as they were. *)
Definition untouched (s s' : server) : Prop := s_up s' = s_up s ∧ g_store (s_gw s') = g_store (s_gw s).

(** At some point of the store's life its entry for the handle named the
    audience and the tenant, and the tenant was not suspended when asked next. *)
Definition granted_for (audience : string) (authorization : string) (b : TrackingBinding) (s : server) : Prop :=
  ∃ c c', _resolve_outcome (t_of (_bearer authorization)) audience (g_caps (s_gw s)) = (c, c') ∧
    ∃ fs, c = Ok (Some b, None, fs) ∧ TrackingPolicy.audience b = audience ∧ canonical (company_id b).

Lemma outcome_binding h expected c o c' : _resolve_outcome h expected c = (Ok o, c') → ∀ b, o.1.1 = Some b →
  ∃ fs, o = (Some b, None, fs) ∧ TrackingPolicy.audience b = expected ∧ canonical (company_id b).
Proof.
  unfold _resolve_outcome. destruct h as [|x h]; [by intros [= <- <-] b [=]|].
  intros H b Hb. apply bind_inv_ok in H as (raw & c1 & _ & H). destruct raw as [raw|]; [|injection H as <- <-; done].
  apply bind_inv_ok in H as (v & c2 & _ & H). destruct v as [[| | | | | |record]|]; try (injection H as <- <-; done).
  destruct (negb (ApiCapabilities.names expected record)); [injection H as <- <-; done|].
  destruct (id_or_empty (jget "company_id" record)) as [company|] eqn:Ec; [|injection H as <- <-; done].
  apply bind_inv_ok in H as (susp & c3 & _ & H). destruct susp; injection H as <- <-; [done|]. injection Hb as <-.
  eexists. split; [done|]. split; [done|]. cbn.
  unfold id_or_empty in Ec. destruct (truthy _); [|done]. apply fmap_Some in Ec as (u & Hu & ->).
  apply canonical_str. destruct (jget "company_id" record); cbn in Hu; try done; by eapply uuid_parse_bound.
Qed.

Lemma resolve_untouched handle expected source s r s' :
  resolve handle (λ h, _resolve_outcome h expected) source s = (r, s') → untouched s s' ∧
  ∀ b, r = Ok (Some b) → ∃ c c' fs, _resolve_outcome (t_of handle) expected (g_caps (s_gw s)) = (c, c') ∧
     c = Ok (Some b, None, fs) ∧ TrackingPolicy.audience b = expected ∧ canonical (company_id b).
Proof.
  unfold resolve, on_gw, on_caps, mbind, M_bind, zoom.
  destruct (_resolve_outcome (t_of handle) expected (g_caps (s_gw s))) as [[o|e] c'] eqn:Eo; [|by intros [= <- <-]].
  pose proof (outcome_binding _ _ _ _ _ Eo) as Hb.
  case_bool_decide.
  - intros [= <- <-]. split; [done|]. intros b [= E]. destruct (Hb b E) as (fs & -> & H1 & H2). by do 3 eexists.
  - cbn. destruct (record_resolution _ _ _ _ _ _ _) as [[[]|e] c2]; intros [= <- <-]; (split; [done|]); [|done].
    intros b [= E]. destruct (Hb b E) as (fs & -> & H1 & H2). by do 3 eexists.
Qed.

Lemma required_spec expected detail authorization source s r s' :
  (b ← resolve (_bearer authorization) (λ h, _resolve_outcome h expected) source; required detail b) s = (r, s') →
  untouched s s' ∧ ∀ b, r = Ok b → granted_for expected authorization b s.
Proof.
  unfold mbind at 1, M_bind at 1. destruct (resolve _ _ source s) as [o s1] eqn:E. destruct (resolve_untouched _ _ _ _ _ _ E) as [Hu Hb].
  destruct o as [[b|]|e]; intros [= <- <-]; (split; [done|]); try done.
  intros b' [= <-]. destruct (Hb b eq_refl) as (c & c' & fs & H1 & H2 & H3). exists c, c'. split; [done|]. by exists fs.
Qed.

(** Every endpoint of a plane either leaves the tracking server and the store
    as they were, or was given a binding of the plane's audience. *)
Lemma bound_first {A} expected detail authorization source (k : TrackingBinding → M server A) s r s' :
  (b ← (b ← resolve (_bearer authorization) (λ h, _resolve_outcome h expected) source; required detail b); k b) s = (r, s') →
  untouched s s' ∨ ∃ b s1, granted_for expected authorization b s ∧ untouched s s1 ∧ k b s1 = (r, s').
Proof.
  intros H. unfold mbind at 1, M_bind at 1 in H.
  destruct ((b ← resolve (_bearer authorization) (λ h, _resolve_outcome h expected) source; required detail b) s) as [o s1] eqn:E.
  destruct (required_spec _ _ _ _ _ _ _ E) as [Hu Hb].
  destruct o as [b|e]; [|injection H as <- <-; by left]. right. exists b, s1. auto.
Qed.

(** ** What is done is done in the binding's tenant *)

Lemma acted_discard company ks : Forall (in_tenant company) ks → respects (acted company) (discard ks).
Proof.
  induction 1 as [|k ks Hk _ IH]; cbn; respecting ltac:(first [exact IH | apply acted_op; intros _; by constructor]).
Qed.

Lemma acted_artifact company method path : respects (acted company) (artifact_object method path company).
Proof.
  unfold artifact_object, _artifact_key. destruct (artifact_prefix company) as [p|e] eqn:Ep.
  2:{ unfold scope_artifact_key. rewrite Ep. cbn. intros s. destruct (is_value_error e); reflexivity. }
  destruct (scope_artifact_key company path) as [k|e] eqn:Ek.
  2:{ intros s. cbn. destruct (is_value_error e); reflexivity. }
  destruct (scoped_key_shape _ _ _ _ Ep Ek) as (Hs & _). assert (in_tenant company k) as Hk by (left; eauto).
  intros s. unfold mbind at 1, M_bind at 1, lift at 1. revert s.
  change (respects (acted company) (reserved ← lift (if bool_decide (method = "PUT" ∨ method = "DELETE") then is_upload_reserved company k else Ok false);
    if reserved : bool then raise (HTTPException 403 "uploaded artifacts are written only by the upload plane") else
    if bool_decide (method = "DELETE") then _ ← store_delete k; mret Empty else
    let verb := if bool_decide (method = "PUT") then "PUT" else "GET" in _ ← presign verb k; mret (Redirect verb k))).
  respecting ltac:(first [apply acted_log; exact Hk | apply acted_op; intros _; by constructor]).
Qed.

Lemma acted_list company path : respects (acted company) (artifact_list path company).
Proof.
  unfold artifact_list, _artifact_key. destruct (artifact_prefix company) as [p|e] eqn:Ep.
  2:{ unfold scope_artifact_key. rewrite Ep. cbn. intros s. destruct (is_value_error e); reflexivity. }
  destruct (scope_artifact_key company path) as [k|e] eqn:Ek.
  2:{ intros s. cbn. destruct (is_value_error e); reflexivity. }
  destruct (scoped_key_shape _ _ _ _ Ep Ek) as (Hs & _). intros s. exists [OpList k]. split; [done|].
  constructor; [left; eauto | done].
Qed.

Lemma staging_in company token id m : tenant_token company = Ok token → in_tenant company (staging_prefix token id +:+ m).
Proof.
  intros Ht. right. exists token. split; [done|].
  assert (staging_prefix token id +:+ m = (STAGING_ROOT +:+ token +:+ "/") +:+ (id +:+ "/" +:+ m)) as ->; [|apply startswith_app].
  unfold staging_prefix. by rewrite !str_app_assoc.
Qed.

Lemma acted_stage company body id : respects (acted company) (upload_stage body company id).
Proof.
  unfold upload_stage. destruct (tenant_token company) as [token|e] eqn:Et; [|respecting fail].
  assert (∀ ms, respects (acted company) (presign_each token id ms)) as Hp.
  { induction ms as [|m ms IH]; cbn; respecting ltac:(first [exact IH | apply acted_log]).
    rewrite staging_key_prefix. by apply staging_in. }
  assert (∀ safe, respects (acted company) (t ← lift (Ok token); _ ← presign_each t id safe; mret safe)) as Hs.
  { intros safe s. unfold mbind at 1, M_bind at 1, lift. revert s. respecting ltac:(apply Hp). }
  respecting ltac:(first [apply Hs | apply Hp]).
Qed.

Lemma acted_admit company prefix id keys : (∀ m, in_tenant company (prefix +:+ m)) →
  Forall (λ k, k = prefix +:+ member_of prefix k) keys →
  respects (acted company) (admit_upload utf8_replace safe_load limit bucket company prefix id keys).
Proof.
  intros Hin Hk. assert (Forall (in_tenant company) keys) as Hkeys by (eapply Forall_impl; [exact Hk|]; intros k ->; apply Hin).
  assert (∀ ks rs, respects (acted company) (read_each prefix ks rs)) as Hr.
  { induction ks as [|k ks IH]; intros rs; cbn; respecting ltac:(first [apply IH | apply acted_op; by constructor]). }
  unfold admit_upload, judge. destruct (artifact_prefix company) as [p|e] eqn:Ep.
  2:{ respecting ltac:(first [apply Hr | apply acted_discard; exact Hkeys]). }
  assert (∀ m, in_tenant company (admitted_key p id m)) as Hadm.
  { intros m. left. exists p. split; [done|]. unfold admitted_key. apply startswith_app. }
  assert (∀ rs ks adm, Forall (in_tenant company) ks → Forall (in_tenant company) adm →
    respects (acted company) (promote (λ k, admitted_key p id (member_of prefix k)) rs keys ks adm)) as Hp.
  { intros rs ks. induction ks as [|k ks IH]; intros adm Hks Hadmitted; cbn; [respecting fail|].
    apply Forall_cons in Hks as [Hk0 Hks].
    respecting ltac:(first [apply acted_discard; by apply Forall_app | apply IH; [exact Hks | apply Forall_app; split; [done | apply Forall_singleton, Hadm]]
                           | apply acted_op; intros []; [apply Forall_singleton; split; [exact Hk0 | apply Hadm] | constructor]]). }
  assert (∀ rs, respects (acted company) (ap ← lift (Ok p); _ ← promote (λ k, admitted_key ap id (member_of prefix k)) rs keys keys [];
     _ ← discard keys; mret (admitted_uri bucket ap id, merge_sort string_le (map fst (heads prefix keys rs))))) as Hrest.
  { intros rs s. unfold mbind at 1, M_bind at 1, lift. revert s.
    respecting ltac:(first [apply Hp; [exact Hkeys | constructor] | apply acted_discard; exact Hkeys]). }
  respecting ltac:(first [apply Hr | apply Hrest | apply acted_discard; exact Hkeys]).
Qed.

Definition acted_gw company (s s' : gw) : Prop := acted company (g_store s) (g_store s').
#[local] Instance acted_gw_refl company : Reflexive (acted_gw company).
Proof. intros s. unfold acted_gw. reflexivity. Qed.
#[local] Instance acted_gw_trans company : Transitive (acted_gw company).
Proof. intros s1 s2 s3. unfold acted_gw. apply acted_trans. Qed.

Lemma acted_on_store company {A} (m : M astore A) : respects (acted company) m → respects (acted_gw company) (on_store m).
Proof. intros H s. unfold acted_gw, on_store, final, zoom. specialize (H (g_store s)). unfold final in H. by destruct (m (g_store s)). Qed.

Lemma acted_commit body b handle : respects (acted_gw (company_id b))
  (upload_commit trim sha256_hex py_repr utf8_replace safe_load limit bucket body b handle).
Proof.
  unfold upload_commit. destruct (jget "upload_id" body) as [| | | |id| |]; try apply respects_raise, _.
  destruct (negb _); [apply respects_raise, _|]. destruct (tenant_token (company_id b)) as [token|e] eqn:Et; [|respecting fail].
  set (company := company_id b) in *.
  intros s. unfold mbind at 1, M_bind at 1, lift at 1. revert s.
  apply respects_bind; [apply _| |intros listed].
  { apply acted_on_store, acted_op. by constructor. }
  cbv zeta. destruct (staged_keys (staging_prefix token id) listed) as [|k ks] eqn:Ek; [apply respects_raise, _|]. rewrite <- Ek.
  apply respects_bind; [apply _| |intros []].
  { intros s. unfold acted_gw. assert (g_store (final (claim trim sha256_hex py_repr handle b) s) = g_store s) as ->; [|reflexivity].
    unfold final. destruct (claim _ _ _ _ _ s) as [r s'] eqn:E. by apply claim_store in E. }
  apply acted_on_store, acted_admit; [intros m; by apply staging_in|].
  apply Forall_forall. intros x. apply staged_member.
Qed.

(** ** The planes *)

Inductive endpoint_call :=
  | Mlflow (e nonce : string) (rq : request)
  | Artifact (method path : string)
  | ArtifactList (path : string)
  | Stage (rq : request) (upload_id : string)
  | Commit (rq : request)
  | Offboard (company : string).

Definition forget {A} (m : M server A) : M server unit := _ ← m; mret tt.
Definition perform (c : endpoint_call) (authorization : string) (source : option string) : M server unit :=
  match c with
  | Mlflow e nonce rq => forget (serve_mlflow e nonce rq authorization source)
  | Artifact method path => forget (serve_artifact method path authorization source)
  | ArtifactList path => forget (serve_artifact_list path authorization source)
  | Stage rq id => forget (serve_stage rq id authorization source)
  | Commit rq => forget (serve_commit rq authorization source)
  | Offboard company => forget (serve_offboard company authorization)
  end.

Definition plane_audience (c : endpoint_call) : string :=
  match c with Stage _ _ | Commit _ => AUDIENCE_UPLOAD | _ => AUDIENCE_TRACKING end.

Lemma forget_run {A} (m : M server A) s r s' : forget m s = (r, s') → ∃ o, m s = (o, s').
Proof. unfold forget, mbind, M_bind. destruct (m s) as [[a|e] s1]; intros [= _ <-]; by eexists. Qed.

(** The tenant's own: what the tracking server is asked, its proxy allows, and
    the object store's keys are the tenant's. *)
Definition done_for (c : endpoint_call) (company : string) (s s' : server) : Prop :=
  acted company (g_store (s_gw s)) (g_store (s_gw s')) ∧
  match c with
  | Mlflow e nonce rq => ∃ p, TrackingPolicy.tenant_prefix company = Ok p ∧ confined py_repr company p e nonce rq (log (s_up s'))
  | _ => s_up s' = s_up s
  end.

(** The tenant [company] names, emptied. *)
Definition offboarded (company : string) (s s' : server) : Prop :=
  ∃ cid names deleted, canonical_company_id company = Ok cid ∧
    mlflow_name_prefix cid = Ok names ∧ mlflow_deleted_name_prefix cid = Ok deleted ∧
    all_fine py_repr names deleted (log (s_up s')) ∧ cleared cid (g_store (s_gw s)) (g_store (s_gw s')).

Lemma canonical_names cid : canonical cid → ∃ names deleted,
  mlflow_name_prefix cid = Ok names ∧ mlflow_deleted_name_prefix cid = Ok deleted.
Proof.
  intros Hc. unfold mlflow_deleted_name_prefix, mlflow_name_prefix, tenant_token, underscored. rewrite Hc. cbn. by eexists _, _.
Qed.

Lemma offboard_spec company authorization s r s' : log (s_up s) = [] → serve_offboard company authorization s = (r, s') →
  untouched s s' ∨ (∃ token, operator_token = Some token ∧ token ≠ "" ∧ _bearer authorization = token) ∧ offboarded company s s'.
Proof.
  intros Hl. unfold serve_offboard, operator. destruct operator_token as [[|a token]|]; [intros [= <- <-]; by left| |intros [= <- <-]; by left].
  case_bool_decide as Hb; [|intros [= <- <-]; by left].
  destruct (canonical_company_id company) as [cid|e] eqn:Ec.
  2:{ unfold mbind, M_bind, catch, lift. cbn. case_bool_decide; intros [= <- <-]; by left. }
  destruct (canonical_names cid (canonical_idem _ _ Ec)) as (names & deleted & Hn & Hd).
  unfold mbind, M_bind, catch, lift, mret, M_ret. cbn [fst snd]. unfold on_tracking, zoom.
  destruct (empty_tenant py_repr cid _) as [o t] eqn:E.
  assert (offboarded company s {| s_gw := {| g_hub := g_hub (s_gw s); g_caps := g_caps (s_gw s); g_store := t_store t |}; s_up := t_up t |}) as Ho.
  { destruct (empty_tenant_own py_repr cid names deleted {| t_up := s_up s; t_store := g_store (s_gw s) |} _ _ Hn Hd Hl E) as [Hf Hk]. exists cid, names, deleted. by split_and!. }
  intros H. right. split; [by exists (String a token)|]. destruct o as [x|e]; [by injection H as <- <-|].
  revert H. case_bool_decide; by intros [= <- <-].
Qed.

Lemma body_then {A} company rq (f : dict → M gw A) s r s' : (∀ d, respects (acted_gw company) (f d)) →
  (body ← lift (_json_body rq); on_gw (f body)) s = (r, s') → acted_gw company (s_gw s) (s_gw s') ∧ s_up s' = s_up s.
Proof.
  intros Hf. unfold mbind, M_bind, lift. destruct (_json_body rq) as [d|e]; [|by intros [= <- <-]].
  unfold on_gw, zoom. specialize (Hf d (s_gw s)). unfold final in Hf. destruct (f d (s_gw s)) as [o g]. by intros [= <- <-].
Qed.

(** C29: each plane serves its own audience and acts in its tenant only:
    whatever is asked with whatever bearer, either the tracking server and the
    object store are left alone, or the bearer's entry named the plane's
    audience (tracking for MLflow and artifacts, upload for staging and
    committing) and a tenant not suspended, and everything done is that
    tenant's: the tracking server asked what the proxy's rules allow that tenant,
    the object store's keys under its prefix or its staging area.  The operator's
    endpoint does something only for a bearer that is the gateway's own operator
    token, whatever the capability store says, and then only empties the tenant
    it is asked to. *)
Theorem planes_act_for_their_grant c authorization source s r s' :
  perform c authorization source s = (r, s') → log (s_up s) = [] →
  untouched s s' ∨
  match c with
  | Offboard company => (∃ token, operator_token = Some token ∧ token ≠ "" ∧ _bearer authorization = token) ∧ offboarded company s s'
  | _ => ∃ b s1, granted_for (plane_audience c) authorization b s ∧ untouched s s1 ∧ done_for c (company_id b) s1 s'
  end.
Proof.
  intros H Hl.
  assert (∀ b A (m : M astore A) s1 o, respects (acted (company_id b)) m → on_gw (on_store m) s1 = (o, s') →
    acted (company_id b) (g_store (s_gw s1)) (g_store (s_gw s')) ∧ s_up s' = s_up s1) as Hstore.
  { intros b A m s1 o Hm. unfold on_gw, on_store, zoom. specialize (Hm (g_store (s_gw s1))). unfold final in Hm.
    destruct (m _) as [x a]. by intros [= <- <-]. }
  destruct c; apply forget_run in H as [o H]; [.. | by eapply offboard_spec];
    apply bound_first in H as [?|(b & s1 & Hg & Hu & H)]; try (by left);
    right; exists b, s1; (split; [exact Hg|]); (split; [exact Hu|]).
  - unfold on_up, zoom in H. destruct (proxy _ _ _ _ _ _) as [x u] eqn:E. injection H as <- <-.
    split; [reflexivity|]. assert (canonical (company_id b)) as Hc by (destruct Hg as (? & ? & _ & ? & _ & _ & Hc); exact Hc).
    destruct (canonical_names _ Hc) as (p & _ & Hp & _). exists p. split; [exact Hp|].
    eapply proxy_asks; [exact Hp | | exact E]. by rewrite (proj1 Hu).
  - apply (Hstore b _ _ _ _ (acted_artifact _ _ _) H).
  - apply (Hstore b _ _ _ _ (acted_list _ _) H).
  - apply (body_then (company_id b) rq) in H; [exact H|]. intros d. apply acted_on_store, acted_stage.
  - apply (body_then (company_id b) rq) in H; [exact H|]. intros d. apply acted_commit.
Qed.
End server.

(** ** A concrete request *)

#[local] Existing Instance decoded_codec.
#[local] Existing Instance hex_iso.

Definition w_entry : json :=
  JDict [("user", JStr "ann"); ("company_id", JStr TrackingUploads.w_company); ("audience", JStr "upload");
         ("handle_id", JStr "00000000-0000-4000-8000-000000000001")].
Definition w_server : server :=
  {| s_gw := {| g_hub := g_hub (w_gw []); g_store := g_store (w_gw []);
                g_caps := Build_cap_store {[ (TrackingPolicy._KEY_PREFIX ++ t_of "h1")%list := Ok w_entry ]}
                            {| keys := ∅; stream := []; next_id := O |} 0 [] [] [] |};
     s_up := w_up [] |}.
Definition w_perform (c : endpoint_call) := perform (λ n, n) (λ _, "") (λ _, "") w_text w_load 100 "bucket" (Some "secret") c "Bearer h1" None w_server.
Definition w_commit_request : request := {| rq_method := "POST"; rq_query := []; rq_body := Some (Ok (JDict w_body)) |}.

(** The same handle admits at the upload plane and is refused at the other. *)
Example upload_handle_at_both_planes :
  (w_perform (Commit w_commit_request)).1 = Ok tt ∧
  (w_perform (Artifact "GET" "1/model")).1 = Err (HTTPException 401 "tracking capability refused") ∧
  (w_perform (Offboard TrackingUploads.w_company)).1 = Err (HTTPException 401 "operator credential refused").
Proof. split_and!; vm_compute; reflexivity. Qed.

Lemma planes_act_for_their_grant_witness :
  ∃ b s1, granted_for AUDIENCE_UPLOAD "Bearer h1" b w_server ∧ untouched w_server s1 ∧
    done_for (λ _, "") (Commit w_commit_request) (company_id b) s1 (w_perform (Commit w_commit_request)).2.
Proof.
  destruct (planes_act_for_their_grant (λ n, n) (λ _, "") (λ _, "") w_text w_load 100 "bucket" (Some "secret") (Commit w_commit_request) "Bearer h1" None
    w_server (w_perform (Commit w_commit_request)).1 (w_perform (Commit w_commit_request)).2) as [[_ H]|H].
  - apply surjective_pairing.
  - reflexivity.
  - exfalso. apply (f_equal (λ s, length (done_ s))) in H. vm_compute in H. discriminate H.
  - exact H.
Defined.
