(* ===== verification/SqlProxy.v ===== *)
(** * Serving one SQL connection: services/notebook_sql_proxy/proxy.py

    [serve_connection] over the capability store of SqlBinding and any
    backend: the class [Backend] is the [Backend] protocol of the source, its
    laws what the orchestration relies on.  [plog] records what was done with
    the backend. *)

From stdpp Require Import base strings list gmap.
From Stdlib Require Import ZArith Lia.
From S2P Require Import Prelude PyText PyJson Tenancy CapabilityAudit SqlWire SqlBinding.

Local Open Scope string_scope.

(** A step taken with the backend. *)
Inductive pevent :=
  | Opened (b : SqlBinding)
  | Connected
  | Executed (sql : text)
  | Relayed
  | Closed.

#[export] Instance pevent_eq_dec : EqDecision pevent.
Proof. solve_decision. Defined.

Section proxy.
Context `{J : JsonCodec} `{I : IsoCodec}.
Context (trim : nat → nat) (sha256_hex : text → string) (py_repr : json → string).

(** One connection: the store, [serve_connection]'s [ended] dict, the
    backend's own state, and [time.monotonic] (microseconds). *)
Record pworld (B : Type) := {
  cap : cap_store;
  ended_reason : option string; ended_refusal : option string;
  backend : B; monotonic : Z; plog : list pevent }.
Arguments cap {B} p.
Arguments ended_reason {B} p.
Arguments ended_refusal {B} p.
Arguments backend {B} p.
Arguments monotonic {B} p.
Arguments plog {B} p.

Section world.
Context {B : Type}.
Definition set_cap c (w : pworld B) : pworld B :=
  {| cap := c; ended_reason := ended_reason w; ended_refusal := ended_refusal w;
     backend := backend w; monotonic := monotonic w; plog := plog w |}.
Definition set_ended r f (w : pworld B) : pworld B :=
  {| cap := cap w; ended_reason := r; ended_refusal := f;
     backend := backend w; monotonic := monotonic w; plog := plog w |}.
Definition set_backend b (w : pworld B) : pworld B :=
  {| cap := cap w; ended_reason := ended_reason w; ended_refusal := ended_refusal w;
     backend := b; monotonic := monotonic w; plog := plog w |}.
Definition add_log e (w : pworld B) : pworld B :=
  {| cap := cap w; ended_reason := ended_reason w; ended_refusal := ended_refusal w;
     backend := backend w; monotonic := monotonic w; plog := (plog w ++ [e])%list |}.
Definition pass_time d (w : pworld B) : pworld B :=
  {| cap := cap w; ended_reason := ended_reason w; ended_refusal := ended_refusal w;
     backend := backend w; monotonic := (monotonic w + d)%Z; plog := plog w |}.

Definition in_cap {A} (m : M cap_store A) : M (pworld B) A := zoom cap set_cap m.
Definition in_backend {A} (m : M B A) : M (pworld B) A := zoom backend set_backend m.

(** [ended.setdefault("reason", r)] *)
Definition default_reason (r : string) (w : pworld B) : pworld B :=
  set_ended (Some (default r (ended_reason w))) (ended_refusal w) w.
Definition default_refusal (r : string) (w : pworld B) : pworld B :=
  set_ended (ended_reason w) (Some (default r (ended_refusal w))) w.
End world.

(** The relay runs with the re-check it is given, and changes the connection
    only through it and through the backend's own state and the clock. *)
Class Backend (B : Type) := {
  b_connect : M B unit;
  b_execute : text → M B unit;
  b_relay : M (pworld B) bool → M (pworld B) unit;
  b_close : M B unit;
  b_relay_respects (R : pworld B → pworld B → Prop) recheck :
    PreOrder R → (∀ b w, R w (set_backend b w)) → (∀ d w, R w (pass_time d w)) →
    respects R recheck → respects R (b_relay recheck) }.

Context {B : Type} `{Bk : Backend B}.
Context (factory : SqlBinding → B → B).

(** [still_authorized] *)
Definition still_authorized (handle : text) (b : SqlBinding) : M (pworld B) bool :=
  catch (o ← in_cap (resolve_sql_outcome py_repr handle);
         let '(current, refusal, _) := o in
         if bool_decide (current = Some b) then mret true
         else _ ← modify (default_reason "capability_revoked");
              _ ← modify (default_refusal (default "rebound" refusal));
              mret false)
        (λ e, _ ← modify (default_reason "recheck_failed"); raise e).

(** [f"duration_seconds={s:.1f}"], [format] giving the number's text. *)
Context (format_seconds : Z → text).

Definition closing_detail (seconds : Z) (refusal : option string) : text :=
  (t_of "duration_seconds=" ++ format_seconds seconds
   ++ match refusal with Some r => t_of " refusal=" ++ t_of r | None => [] end)%list.

(** [_record_closed]: best effort. *)
Definition _record_closed (b : SqlBinding) (seconds : Z) : M (pworld B) unit :=
  w ← getS;
  catch (in_cap (record_session trim "sql_session_closed" b
                   (Some (t_of (default "client_closed" (ended_reason w))))
                   (Some (closing_detail seconds (ended_refusal w)))))
        (λ _, mret tt).

Fixpoint execute_all (statements : list text) : M (pworld B) unit :=
  match statements with
  | [] => mret tt
  | s :: rest => _ ← modify (add_log (Executed s)); _ ← in_backend (b_execute s); execute_all rest
  end.

(** The body of the [try], and whether the session was recorded as open. *)
Definition session (handle : text) (b : SqlBinding) : M (pworld B) unit :=
  _ ← modify (add_log Connected);
  _ ← in_backend b_connect;
  statements ← lift (session_setup_statements b);
  _ ← execute_all statements;
  in_cap (record_session trim "sql_session_opened" b None None).

Definition relayed (handle : text) (b : SqlBinding) : M (pworld B) unit :=
  _ ← modify (add_log Relayed); b_relay (still_authorized handle b).

Definition failing (m : M (pworld B) unit) : M (pworld B) unit :=
  catch m (λ e, _ ← modify (default_reason "error"); raise e).

Definition close_backend : M (pworld B) unit :=
  _ ← modify (add_log Closed); in_backend b_close.

(** The [try] of [serve_connection]: [opened_at] is set once the opening is
    recorded, and only then is the closing recorded. *)
Definition serve_bound (handle : text) (b : SqlBinding) : M (pworld B) unit := λ w,
  match failing (session handle b) w with
  | (Err e, w1) => finally (raise e) close_backend w1
  | (Ok _, w1) =>
      let opened_at := monotonic w1 in
      finally (failing (relayed handle b))
              (_ ← close_backend;
               t ← gets monotonic;
               _record_closed b (t - opened_at)) w1
  end.

Definition serve_connection (handle : text) (source : option string) : M (pworld B) bool :=
  _ ← modify (set_ended None None);
  o ← in_cap (resolve_sql_outcome py_repr handle);
  let '(binding, reason, f) := o in
  _ ← in_cap (record_resolution trim sha256_hex handle binding reason f source);
  match binding with
  | None => mret false
  | Some b =>
      _ ← modify (λ w, set_backend (factory b (backend w)) (add_log (Opened b) w));
      _ ← serve_bound handle b;
      mret true
  end.

(** ** What was done with the backend *)

(** Nothing was done: the log stays. *)
Definition same_log (w w' : pworld B) : Prop := plog w' = plog w.
#[local] Instance same_log_preorder : PreOrder same_log.
Proof. split; [by intros w|]. intros w1 w2 w3 H1 H2. unfold same_log in *. congruence. Qed.

Lemma in_cap_log {A} (m : M cap_store A) : respects same_log (in_cap m).
Proof. apply (respects_zoom _ _ _ (λ _ _, True)); [|done]. by intros w c. Qed.

Lemma in_backend_log {A} (m : M B A) : respects same_log (in_backend m).
Proof. apply (respects_zoom _ _ _ (λ _ _, True)); [|done]. by intros w c. Qed.

Lemma recheck_log handle b : respects same_log (still_authorized handle b).
Proof.
  unfold still_authorized. respecting ltac:(first [apply in_cap_log | by apply respects_modify]).
Qed.

Lemma relay_log handle b : respects same_log (b_relay (still_authorized handle b)).
Proof. apply b_relay_respects; [apply _ | done | done | apply recheck_log]. Qed.

Lemma failing_log m w : plog (final (failing m) w) = plog (final m w).
Proof. unfold final, failing, catch. by destruct (m w) as [[u|e] w1]. Qed.

Lemma failing_outcome m w : outcome (failing m) w = outcome m w.
Proof. unfold outcome, failing, catch. by destruct (m w) as [[u|e] w1]. Qed.

(** The events [m] adds are a prefix of [l]; all of them when it returns. *)
Definition adds {A} (l : list pevent) (m : M (pworld B) A) : Prop := ∀ w,
  ∃ k, plog (final m w) = (plog w ++ take k l)%list ∧
       (is_ok (outcome m w) = true → (length l ≤ k)%nat).

Lemma adds_nothing {A} (m : M (pworld B) A) : respects same_log m → adds [] m.
Proof. intros H w. exists O. split; [rewrite app_nil_r; apply H | simpl; lia]. Qed.

Lemma adds_event {A} e (m : M (pworld B) A) :
  respects same_log m → adds [e] (modify (add_log e) ≫= λ _, m).
Proof.
  intros H w. exists 1%nat. split; [|done].
  unfold final, mbind, M_bind, modify. specialize (H (add_log e w)). unfold final in H.
  rewrite H. done.
Qed.

Lemma adds_bind {A C} l1 l2 (m : M (pworld B) A) (k : A → M (pworld B) C) :
  adds l1 m → (∀ a, adds l2 (k a)) → adds (l1 ++ l2)%list (m ≫= k).
Proof.
  intros Hm Hk w. destruct (Hm w) as (n & Hl & Hn). unfold final, outcome, mbind, M_bind in *.
  destruct (m w) as [[a|e] w1]; simpl in *.
  - specialize (Hn eq_refl). rewrite take_ge in Hl by done.
    destruct (Hk a w1) as (j & Hj & Hok). unfold final, outcome in *.
    exists (length l1 + j)%nat. rewrite take_app_add, Hj, Hl, <- app_assoc. split; [done|].
    intros H. specialize (Hok H). rewrite length_app. lia.
  - exists (min n (length l1)). split; [|done]. rewrite Hl. f_equal.
    rewrite take_app_le by lia. destruct (Nat.le_ge_cases n (length l1)).
    + by rewrite Nat.min_l.
    + by rewrite Nat.min_r, !take_ge by lia.
Qed.

Lemma execute_all_adds l : adds (Executed <$> l) (execute_all l).
Proof.
  induction l as [|s l IH]; [apply adds_nothing, respects_ret, _|].
  cbn [execute_all fmap list_fmap]. change (Executed s :: (Executed <$> l)) with ([Executed s] ++ (Executed <$> l))%list.
  assert (∀ (m : M (pworld B) unit) (k : unit → M (pworld B) unit), 
            adds ([Executed s] ++ (Executed <$> l))%list ((modify (add_log (Executed s)) ≫= λ _, m) ≫= k) →
            adds ([Executed s] ++ (Executed <$> l))%list (modify (add_log (Executed s)) ≫= λ _, m ≫= k)) as Hassoc.
  { intros m k H w. exact (H w). }
  apply Hassoc. apply adds_bind; [|intros _; exact IH]. apply adds_event, in_backend_log.
Qed.

Definition setup (b : SqlBinding) : list text := default [] (res_opt (session_setup_statements b)).

Lemma session_adds handle b : adds ([Connected] ++ (Executed <$> setup b))%list (session handle b).
Proof.
  unfold session.
  assert (∀ (m : M (pworld B) unit) (k : unit → M (pworld B) unit) e l,
            adds ([e] ++ l)%list ((modify (add_log e) ≫= λ _, m) ≫= k) →
            adds ([e] ++ l)%list (modify (add_log e) ≫= λ _, m ≫= k)) as Hassoc by (intros m k e l H w; exact (H w)).
  apply Hassoc. apply adds_bind; [apply adds_event, in_backend_log|]. intros _. unfold setup.
  destruct (session_setup_statements b) as [l|e].
  - change (adds (Executed <$> l) (execute_all l ≫= λ _, in_cap (record_session trim "sql_session_opened" b None None))).
    rewrite <- (app_nil_r (Executed <$> l)). apply adds_bind; [apply execute_all_adds|].
    intros _. apply adds_nothing, in_cap_log.
  - intros w. exists O. split; [by rewrite app_nil_r | done].
Qed.

Lemma relayed_adds handle b : adds [Relayed] (relayed handle b).
Proof. apply adds_event, relay_log. Qed.

Lemma failing_adds l m : adds l m → adds l (failing m).
Proof. intros H w. rewrite failing_log, failing_outcome. apply H. Qed.

Lemma record_closed_log b t : respects same_log (_record_closed b t).
Proof.
  unfold _record_closed. respecting ltac:(apply in_cap_log).
Qed.

Lemma close_log w : plog (final close_backend w) = (plog w ++ [Closed])%list.
Proof. pose proof (in_backend_log b_close (add_log Closed w)) as H. exact H. Qed.

Lemma closing_log b t w :
  plog (final (_ ← close_backend; u ← gets monotonic; _record_closed b (u - t)) w) = (plog w ++ [Closed])%list.
Proof.
  rewrite <- close_log. unfold final, mbind, M_bind, gets. destruct (close_backend w) as [[u|e] w1]; simpl; [|done].
  apply record_closed_log.
Qed.

(** What serving a binding does, in order; a step that fails ends it, and the
    backend is closed at the end of every path. *)
Definition served (b : SqlBinding) : list pevent :=
  (Connected :: (Executed <$> setup b) ++ [Relayed])%list.

Lemma finally_log {A} (m : M (pworld B) A) f w l :
  (∀ w, plog (final f w) = (plog w ++ l)%list) → plog (final (finally m f) w) = (plog (final m w) ++ l)%list.
Proof.
  intros Hf. unfold final, finally in *. destruct (m w) as [r w1]. simpl. specialize (Hf w1).
  by destruct (f w1) as [[u|e] w2].
Qed.

Lemma finally_ok {A} (m : M (pworld B) A) f w : is_ok (outcome (finally m f) w) = true → is_ok (outcome m w) = true.
Proof.
  unfold outcome, finally. destruct (m w) as [[a|e] w1]; [done|]. by destruct (f w1) as [[u|e'] w2].
Qed.

Lemma serve_bound_log handle b w : ∃ k,
  plog (final (serve_bound handle b) w) = (plog w ++ take k (served b) ++ [Closed])%list ∧
  (is_ok (outcome (serve_bound handle b) w) = true → (length (served b) ≤ k)%nat).
Proof.
  destruct (failing_adds _ _ (session_adds handle b) w) as (k & Hk & Hok).
  unfold served. change (Connected :: (Executed <$> setup b) ++ [Relayed])%list
    with (([Connected] ++ (Executed <$> setup b)) ++ [Relayed])%list.
  unfold final, outcome, serve_bound in *. destruct (failing (session handle b) w) as [[u|e] w1] eqn:E; simpl in Hk.
  - specialize (Hok eq_refl). rewrite take_ge in Hk by done.
    set (close := _ ← close_backend; u ← gets monotonic; _record_closed b (u - monotonic w1)).
    destruct (failing_adds _ _ (relayed_adds handle b) w1) as (j & Hj & Hjok).
    exists (length ([Connected] ++ (Executed <$> setup b)) + j)%nat.
    pose proof (finally_log (failing (relayed handle b)) close w1 [Closed] (closing_log b _)) as Hf.
    unfold final in Hf, Hj. rewrite Hf, Hj, Hk, take_app_add, <- !app_assoc. split; [done|].
    intros Ho. apply (finally_ok (failing (relayed handle b)) close w1) in Ho. specialize (Hjok Ho).
    unfold served. rewrite !length_app in *. cbn [length] in *. rewrite ?length_app in *. cbn [length] in *. lia.
  - pose proof (finally_log (raise e : M (pworld B) unit) close_backend w1 [Closed] close_log) as Hf.
    unfold final in Hf. set (first := ([Connected] ++ (Executed <$> setup b))%list) in *.
    exists (min k (length first)).
    rewrite Hf. cbn [raise fst snd]. rewrite Hk, take_app_le by lia. split.
    + rewrite <- app_assoc. do 2 f_equal. destruct (Nat.le_ge_cases k (length first)).
      * by rewrite Nat.min_l.
      * rewrite Nat.min_r by done. change (take k first = take (length first) first). by rewrite !take_ge by done.
    + by intros H%(finally_ok (raise e : M (pworld B) unit)).
Qed.

(** The record of the capability store only grows. *)
Definition cap_later (w w' : pworld B) : Prop := cap_grows (cap w) (cap w').
#[local] Instance cap_later_preorder : PreOrder cap_later.
Proof. split; [intros w; unfold cap_later; reflexivity|]. intros w1 w2 w3. unfold cap_later. by etrans. Qed.

Lemma same_cap w w' : cap w' = cap w → cap_later w w'.
Proof. unfold cap_later. by intros ->. Qed.

Lemma in_cap_later {A} (m : M cap_store A) : respects cap_grows m → respects cap_later (in_cap m).
Proof. intros H. apply (respects_zoom _ _ _ cap_grows); [by intros w c|done]. Qed.

Lemma in_backend_later {A} (m : M B A) : respects cap_later (in_backend m).
Proof. apply (respects_zoom _ _ _ (λ _ _, True)); [|done]. intros w c _. by apply same_cap. Qed.

Lemma modify_later (f : pworld B → pworld B) : (∀ w, cap (f w) = cap w) → respects cap_later (modify f).
Proof. intros H. apply respects_modify. intros w. by apply same_cap. Qed.

(** What every call of [serve_connection] respects, it respects. *)
Section serving.
Context (R : pworld B → pworld B → Prop) (HR : PreOrder R).
Context (Hended : ∀ r f w, R w (set_ended r f w)) (Hlog : ∀ e w, R w (add_log e w)).
Context (Hresolve : ∀ handle, respects R (in_cap (resolve_sql_outcome py_repr handle))).
Context (Hrecord : ∀ handle b reason f source,
  respects R (in_cap (record_resolution trim sha256_hex handle b reason f source))).
Context (Hsession : ∀ kind b reason detail, respects R (in_cap (record_session trim kind b reason detail))).

Lemma recheck_respects handle b : respects R (still_authorized handle b).
Proof using HR Hended Hresolve.
  unfold still_authorized. respecting ltac:(first [apply Hresolve | apply respects_modify; intros; apply Hended]).
Qed.

Context (Hconnect : respects R (in_backend b_connect)) (Hexecute : ∀ s, respects R (in_backend (b_execute s))).
Context (Hclose : respects R (in_backend b_close)).
Context (Hrelay : ∀ handle b, respects R (b_relay (still_authorized handle b))).

Lemma failing_respects m : respects R m → respects R (failing m).
Proof using HR Hended.
  intros H. unfold failing. respecting ltac:(first [exact H | apply respects_modify; intros; apply Hended]).
Qed.

Lemma execute_all_respects l : respects R (execute_all l).
Proof using HR Hlog Hexecute.
  induction l as [|s l IH]; simpl;
    respecting ltac:(first [apply IH | apply Hexecute | apply respects_modify; intros; apply Hlog]).
Qed.

Lemma close_respects : respects R close_backend.
Proof using HR Hlog Hclose.
  unfold close_backend. respecting ltac:(first [apply Hclose | apply respects_modify; intros; apply Hlog]).
Qed.

Lemma serve_bound_respects handle b : respects R (serve_bound handle b).
Proof using HR Hended Hlog Hsession Hconnect Hexecute Hclose Hrelay.
  assert (respects R (failing (session handle b))) as Hs.
  { apply failing_respects. unfold session.
    respecting ltac:(first [apply Hconnect | apply execute_all_respects | apply Hsession
                           | apply respects_modify; intros; apply Hlog]). }
  intros w. unfold final, serve_bound. specialize (Hs w). unfold final in Hs.
  destruct (failing (session handle b) w) as [[u|e] w1]; simpl in Hs; (etrans; [exact Hs|]).
  - apply (respects_finally R (failing (relayed handle b))).
    + apply failing_respects. unfold relayed.
      respecting ltac:(first [apply Hrelay | apply respects_modify; intros; apply Hlog]).
    + unfold _record_closed. respecting ltac:(first [apply close_respects | apply Hsession]).
  - apply (respects_finally R (raise e : M (pworld B) unit)); [apply respects_raise, _ | apply close_respects].
Qed.

Lemma serve_connection_respects handle source :
  (∀ b w, R w (set_backend (factory b (backend w)) (add_log (Opened b) w))) →
  respects R (serve_connection handle source).
Proof using HR Hended Hlog Hresolve Hrecord Hsession Hconnect Hexecute Hclose Hrelay.
  intros Hopen. unfold serve_connection.
  respecting ltac:(first [apply Hresolve | apply Hrecord | apply serve_bound_respects
    | apply respects_modify; intros; first [apply Hended | apply Hopen]]).
Qed.
End serving.

Lemma serve_bound_later handle b : respects cap_later (serve_bound handle b).
Proof.
  assert (∀ f : pworld B → pworld B, (∀ w, cap (f w) = cap w) → ∀ w, cap_later w (f w)) as Hf
    by (intros f Hf w; by apply same_cap).
  apply serve_bound_respects; intros; try (by apply same_cap); try apply in_backend_later; try apply _.
  - apply in_cap_later, record_session_grows.
  - apply b_relay_respects; [apply _ | intros; by apply same_cap.. |].
    apply recheck_respects; [apply _ | intros; by apply same_cap |]. intros. apply in_cap_later, resolve_grows.
Qed.

(** The steps of [serve_connection], as one case analysis. *)
Lemma serve_connection_eq handle source w :
  serve_connection handle source w =
  let w0 := set_ended None None w in
  match resolve_sql_outcome py_repr handle (cap w0) with
  | (Err e, c1) => (Err e, set_cap c1 w0)
  | (Ok (binding, reason, f), c1) =>
      match record_resolution trim sha256_hex handle binding reason f source c1, binding with
      | (Err e, c2), _ => (Err e, set_cap c2 (set_cap c1 w0))
      | (Ok _, c2), None => (Ok false, set_cap c2 (set_cap c1 w0))
      | (Ok _, c2), Some b =>
          match serve_bound handle b
                  (set_backend (factory b (backend w0)) (add_log (Opened b) (set_cap c2 (set_cap c1 w0)))) with
          | (Err e, w3) => (Err e, w3)
          | (Ok _, w3) => (Ok true, w3)
          end
      end
  end.
Proof.
  unfold serve_connection, in_cap, zoom, mbind, M_bind, modify. cbv zeta.
  destruct (resolve_sql_outcome _ _ _) as [[[[b reason] f]|e] c1]; [|done].
  cbn [cap set_cap].
  destruct (record_resolution _ _ _ _ _ _ _ _) as [[[]|e] c2]; [|done].
  destruct b as [b|]; [|done]. cbn [backend set_backend add_log set_cap].
  by destruct (serve_bound _ _ _) as [[[]|e] w3].
Qed.

(** Either nothing was done with the backend, or a binding the store granted
    was opened. *)
Lemma serve_connection_opens handle source w :
  let w' := final (serve_connection handle source) w in
  (backend w' = backend w ∧ plog w' = plog w) ∨
  ∃ b rest rs, plog w' = (plog w ++ Opened b :: rest)%list ∧ grants py_repr handle b rs ∧
    (reads (cap w) ++ rs)%list `prefix_of` reads (cap w').
Proof.
  cbv zeta. unfold final. rewrite serve_connection_eq. cbv zeta.
  destruct (resolve_sql_outcome py_repr handle (cap (set_ended None None w))) as [[[[b reason] f]|e] c1] eqn:E1; [|by left].
  apply resolve_outcome in E1 as (_ & _ & rs & Hrs & Hgr).
  destruct (record_resolution trim sha256_hex handle b reason f source c1) as [[[]|e] c2] eqn:E2; [|by left].
  apply record_resolution_ok in E2 as (Hr2 & _). destruct b as [b|]; [|by left]. right.
  match goal with |- context [serve_bound handle b ?x] => set (w3 := x) end.
  destruct (serve_bound_log handle b w3) as (k & Hk & _). pose proof (serve_bound_later handle b w3) as [Hl _].
  change (plog w3) with (plog w ++ [Opened b])%list in Hk. change (reads (cap w3)) with (reads c2) in Hl.
  rewrite <- app_assoc in Hk. rewrite Hr2, Hrs in Hl. unfold final in Hk, Hl.
  exists b, (take k (served b) ++ [Closed])%list, rs. specialize (Hgr b eq_refl).
  by destruct (serve_bound handle b w3) as [[[]|e] w4].
Qed.

(** C24: A database session is opened only for a handle that resolves, after
    the outcome is on record, and it is always closed: serving a connection
    does nothing with the backend, or opens it for a binding the store
    granted and whose use was recorded first, does some first steps of
    connect, the setup statements and the relay, in that order, and closes
    it, whatever raised.  A connection that was refused was recorded and did
    nothing; one that was served did every step. *)
Theorem serve_lifecycle handle source w :
  let w' := final (serve_connection handle source) w in
  ∃ trace, plog w' = (plog w ++ trace)%list ∧
    (trace = [] ∨ ∃ b k rs calls t,
       trace = (Opened b :: take k (served b) ++ [Closed])%list ∧ grants py_repr handle b rs ∧
       (reads (cap w) ++ rs)%list `prefix_of` reads (cap w') ∧
       recorded sha256_hex handle (Some b) None no_facts source t calls ∧
       (evals (cap w) ++ calls)%list `prefix_of` evals (cap w')) ∧
    (∀ ok, outcome (serve_connection handle source) w = Ok ok →
       if ok then ∃ b, trace = (Opened b :: served b ++ [Closed])%list
       else trace = [] ∧ ∃ reason f call t, evals (cap w') = (evals (cap w) ++ [call])%list ∧
              recorded sha256_hex handle None (Some reason) f source t [call]).
Proof.
  cbv zeta. unfold final, outcome. rewrite serve_connection_eq. cbv zeta.
  set (w0 := set_ended None None w). change (cap w) with (cap w0). change (plog w) with (plog w0).
  destruct (resolve_sql_outcome py_repr handle (cap w0)) as [[[[b reason] f]|e] c1] eqn:E1.
  2:{ exists []. rewrite app_nil_r. split_and!; [done | by left | done]. }
  apply resolve_outcome in E1 as (Hiff & Hev & rs & Hrs & Hgr).
  destruct (record_resolution trim sha256_hex handle b reason f source c1) as [[[]|e] c2] eqn:E2.
  2:{ exists []. rewrite app_nil_r. split_and!; [done | by left | done]. }
  apply record_resolution_ok in E2 as (Hr2 & calls & Hev2 & Hrec).
  destruct b as [b|].
  - set (w3 := set_backend (factory b (backend w0)) (add_log (Opened b) (set_cap c2 (set_cap c1 w0)))).
    destruct (serve_bound_log handle b w3) as (k & Hk & Hall). pose proof (serve_bound_later handle b w3) as [Hl1 Hl2].
    unfold final, outcome in *. exists (Opened b :: take k (served b) ++ [Closed])%list.
    assert (plog w3 = (plog w0 ++ [Opened b])%list) as Hw3 by done.
    change (cap w3) with c2 in *. rewrite Hr2, Hrs in Hl1. rewrite Hev2, Hev in Hl2.
    assert (∃ b0 k0 rs0 calls0 t, (Opened b :: take k (served b) ++ [Closed] = Opened b0 :: take k0 (served b0) ++ [Closed])%list ∧
       grants py_repr handle b0 rs0 ∧ (reads (cap w0) ++ rs0)%list `prefix_of` reads (cap (serve_bound handle b w3).2) ∧
       recorded sha256_hex handle (Some b0) None no_facts source t calls0 ∧
       (evals (cap w0) ++ calls0)%list `prefix_of` evals (cap (serve_bound handle b w3).2)) as Hserved.
    { exists b, k, rs, calls, (now c1). split_and!; [done | by apply Hgr | done..]. }
    rewrite Hw3, <- app_assoc in Hk.
    destruct (serve_bound handle b w3) as [[[]|e] w4]; cbn [fst snd] in *; (split; [exact Hk|]; split; [by right|]).
    + intros ok [= <-]. exists b. rewrite take_ge; [done | by apply Hall].
    + done.
  - destruct Hiff as [Hr _]. destruct (Hr eq_refl) as [r Hreason]. destruct Hrec as (call & Hc & Href).
    exists []. cbn [fst snd cap set_cap]. rewrite app_nil_r. split_and!; [done | by left |].
    intros ok [= <-]. split; [done|]. exists r, f, call, (now c1). subst reason calls.
    split; [by rewrite Hev2, Hev | by exists call].
Qed.
End proxy.

#[global] Arguments cap {J B} p.
#[global] Arguments ended_reason {J B} p.
#[global] Arguments ended_refusal {J B} p.
#[global] Arguments backend {J B} p.
#[global] Arguments monotonic {J B} p.
#[global] Arguments plog {J B} p.
