(* ===== verification/SqlUpstream.v ===== *)
(** * The SQL proxy's upstream sessions: services/notebook_sql_proxy/server.py

    A connection to the database from the socket to ReadyForQuery, the
    enrolment session, and the registry of cancel keys.  A socket carries what
    the peer will send, in clear and inside TLS, and how each [drain] ends, so
    a statement over every socket is one over every behaviour of the database
    and of the network. *)

From stdpp Require Import base strings list gmap.
From Stdlib Require Import ZArith Lia.
From Stdlib.Strings Require Import Byte.
From S2P Require Import Prelude PyText Tenancy CapabilityAudit SqlWire SqlScram SqlBinding.

Local Open Scope Z_scope.

(** ** Sockets *)

(** A reader and writer pair.  [in_tls]: what arrives inside TLS, read after
    what the reader had buffered.  [clear_out], [tls_out]: what was written
    before and after the upgrade.  [unsent]: the transport still holds unsent
    bytes when it is closed; it then takes and flushes later writes, while one
    that has sent everything drops them. *)
Record conn := {
  rd : reader; in_tls : reader; tls_fails : option exn; tls : bool;
  clear_out : octets; tls_out : octets; closing : bool; unsent : bool;
  drains : list (option exn); nonce : text }.

Definition with_rd r (c : conn) : conn :=
  {| rd := r; in_tls := in_tls c; tls_fails := tls_fails c; tls := tls c;
     clear_out := clear_out c; tls_out := tls_out c; closing := closing c; unsent := unsent c;
     drains := drains c; nonce := nonce c |}.
Definition with_out (b : octets) (c : conn) : conn :=
  {| rd := rd c; in_tls := in_tls c; tls_fails := tls_fails c; tls := tls c;
     clear_out := if tls c then clear_out c else (clear_out c ++ b)%list;
     tls_out := if tls c then (tls_out c ++ b)%list else tls_out c;
     closing := closing c; unsent := unsent c; drains := drains c; nonce := nonce c |}.
Definition with_drains d (c : conn) : conn :=
  {| rd := rd c; in_tls := in_tls c; tls_fails := tls_fails c; tls := tls c;
     clear_out := clear_out c; tls_out := tls_out c; closing := closing c; unsent := unsent c;
     drains := d; nonce := nonce c |}.
Definition shut (c : conn) : conn :=
  {| rd := rd c; in_tls := in_tls c; tls_fails := tls_fails c; tls := tls c;
     clear_out := clear_out c; tls_out := tls_out c; closing := true; unsent := unsent c;
     drains := drains c; nonce := nonce c |}.
Definition secured (c : conn) : conn :=
  {| rd := {| pending := (pending (rd c) ++ pending (in_tls c))%list; broken := broken (in_tls c) |};
     in_tls := in_tls c; tls_fails := tls_fails c; tls := true;
     clear_out := clear_out c; tls_out := tls_out c; closing := closing c; unsent := unsent c;
     drains := drains c; nonce := nonce c |}.

(** [writer.write(b)] *)
Definition put (b : octets) (c : conn) : conn := if closing c && negb (unsent c) then c else with_out b c.
Definition write (b : octets) : M conn unit := modify (put b).

Definition drain : M conn unit := λ c,
  match drains c with
  | [] => (Ok tt, c)
  | None :: d => (Ok tt, with_drains d c)
  | Some e :: d => (Err e, with_drains d c)
  end.

Definition send (b : octets) : M conn unit := _ ← write b; drain.
Definition from_reader {A} (m : M reader A) : M conn A := zoom rd with_rd m.

(** ** TLS *)

(** [ssl.SSLContext], as far as it is set here. *)
Record tls_context := { check_hostname : bool; verify : bool; cafile : option text }.

Definition build_upstream_ssl_context (sslmode : string) (sslrootcert : option text) : option tls_context :=
  if bool_decide (sslmode = "disable") then None
  else if bool_decide (sslmode = "require")
  then Some {| check_hostname := false; verify := false; cafile := None |}
  else Some {| check_hostname := negb (bool_decide (sslmode = "verify-ca")); verify := true;
               cafile := match sslrootcert with Some [] | None => None | Some f => Some f end |}.

Definition _TLS_REQUIRED : list string := ["require"; "verify-ca"; "verify-full"].

(** [_upgrade_to_tls]: the reader keeps what it has buffered. *)
Definition _upgrade_to_tls : M conn unit := λ c,
  match tls_fails c with Some e => (Err e, c) | None => (Ok tt, secured c) end.

(** The negotiation of [open_upstream]. *)
Definition negotiate (require_tls : bool) : M conn unit :=
  _ ← send build_ssl_request;
  response ← from_reader (readexactly 1);
  if bool_decide (response = ["S"%byte]) then _upgrade_to_tls
  else if bool_decide (response = ["N"%byte])
  then if require_tls then raise ConnectionError else mret tt
  else raise ProtocolError.

Record UpstreamConfig := {
  database : text; enrol_user : text; enrol_password : text; tenant_key : octets;
  ssl_context : option tls_context; require_tls : bool }.

(** [main]'s configuration, from the environment's values. *)
Definition config_of (database enrol_user enrol_password : text) (tenant_key : octets)
  (sslmode : string) (sslrootcert : option text) : UpstreamConfig :=
  {| database := database; enrol_user := enrol_user; enrol_password := enrol_password;
     tenant_key := tenant_key; ssl_context := build_upstream_ssl_context sslmode sslrootcert;
     require_tls := bool_decide (sslmode ∈ _TLS_REQUIRED) |}.

(** ** The state of an upstream session

    [dials]: what the next connection attempts meet; past the list they are
    refused.  [up], [startup_ps] and [backend_key] are the current
    [UpstreamConnection]; [past] keeps the sockets no object holds any more.
    [acts] records who each session was opened as and what the proxy ran. *)
Inductive act := OpenedAs (user : text) | Ran (sql : text).

Record net := {
  dials : list (res conn); past : list conn; acts : list act;
  up : option conn; startup_ps : octets; backend_key : option (Z * Z) }.

Definition set_dials d (n : net) : net :=
  {| dials := d; past := past n; acts := acts n; up := up n; startup_ps := startup_ps n; backend_key := backend_key n |}.
Definition drop_conn c (n : net) : net :=
  {| dials := dials n; past := (past n ++ [c])%list; acts := acts n; up := up n;
     startup_ps := startup_ps n; backend_key := backend_key n |}.
Definition log_act u (n : net) : net :=
  {| dials := dials n; past := past n; acts := (acts n ++ [u])%list; up := up n;
     startup_ps := startup_ps n; backend_key := backend_key n |}.
Definition set_up c (n : net) : net :=
  {| dials := dials n; past := past n; acts := acts n; up := c;
     startup_ps := startup_ps n; backend_key := backend_key n |}.
Definition add_params b (n : net) : net :=
  {| dials := dials n; past := past n; acts := acts n; up := up n;
     startup_ps := (startup_ps n ++ b)%list; backend_key := backend_key n |}.
Definition set_key k (n : net) : net :=
  {| dials := dials n; past := past n; acts := acts n; up := up n;
     startup_ps := startup_ps n; backend_key := k |}.
(** A new [UpstreamConnection] in place of the current one. *)
Definition renew (n : net) : net :=
  {| dials := dials n; past := (past n ++ option_list (up n))%list; acts := acts n; up := None;
     startup_ps := []; backend_key := None |}.

(** The current socket; None stands for an [UpstreamConnection] never opened,
    whose reader and writer are None. *)
Definition on_conn {A} (m : M conn A) : M net A := λ n,
  match up n with
  | None => (Err AttributeError, n)
  | Some c => let '(r, c') := m c in (r, set_up (Some c') n)
  end.

Definition open_upstream (cfg : UpstreamConfig) : M net conn := λ n,
  match dials n with
  | [] => (Err OSError, n)
  | Err e :: ds => (Err e, set_dials ds n)
  | Ok c :: ds =>
      match ssl_context cfg with
      | None => (Ok c, set_dials ds n)
      | Some _ => match negotiate (require_tls cfg) c with
                  | (Ok _, c') => (Ok c', set_dials ds n)
                  | (Err e, c') => (Err e, drop_conn (shut c') (set_dials ds n))
                  end
      end
  end.

(** ** The handshake *)

Definition _AUTH_REJECTED : list text := [t_of "28P01"; t_of "28000"].

Definition _read : M conn (byte * octets) :=
  m ← from_reader _read_regular_message;
  if bool_decide (m.1 = MSG_ERROR_RESPONSE)
  then match error_field "C"%byte (parse_error_response m.2) with
       | Some c => if bool_decide (c ∈ _AUTH_REJECTED) then raise UpstreamAuthRejected else raise ConnectionError
       | None => raise ConnectionError
       end
  else mret m.

Section handshake.
Context (sha256 : octets → octets) (int_of : text → option Z).

Definition SASL_MECHANISM : octets := (ascii_octets "SCRAM-SHA-256" ++ [x00])%list.

Definition scram_exchange (user password : text) : M conn unit :=
  nonce ← gets nonce;
  first ← lift (client_first (new_client user password nonce));
  len ← lift (pack_I (Z.of_nat (length first.1)));
  initial ← lift (build_message MSG_PASSWORD (SASL_MECHANISM ++ len ++ first.1)%list);
  _ ← send initial;
  m ← _read;
  server_first ← lift (parse_authentication m.2);
  fin ← lift (client_final sha256 int_of first.2 server_first.2);
  response ← lift (build_message MSG_PASSWORD fin.1);
  _ ← send response;
  m ← _read;
  server_final ← lift (parse_authentication m.2);
  ok ← lift (verify_server_final sha256 fin.2 server_final.2);
  if negb ok then raise ConnectionError
  else
    m ← _read;
    a ← lift (parse_authentication m.2);
    if Z.eqb a.1 AUTH_OK then mret tt else raise ProtocolError.

Definition _authenticate (user password : text) : M conn unit :=
  m ← _read;
  if negb (bool_decide (m.1 = MSG_AUTHENTICATION)) then raise ProtocolError
  else
    a ← lift (parse_authentication m.2);
    if Z.eqb a.1 AUTH_OK then mret tt
    else if negb (Z.eqb a.1 AUTH_SASL) then raise ProtocolError
    else scram_exchange user password.

(** [while True: m = read(); ...], [body] giving None to go round again.  A
    message takes five octets off the stream, so [fuel] rounds of them are
    never used up. *)
Fixpoint messages {A} (fuel : nat) (read : M net (byte * octets)) (acc : A)
  (body : A → byte * octets → M net (A * bool)) : M net A :=
  match fuel with
  | O => raise OtherError
  | S fuel =>
      m ← read;
      r ← body acc m;
      if r.2 : bool then mret r.1 else messages fuel read r.1 body
  end.

Definition rounds (n : net) : nat :=
  match up n with Some c => S (length (pending (rd c))) | None => 1%nat end.

Definition startup_message (_ : unit) (m : byte * octets) : M net (unit * bool) :=
  if bool_decide (m.1 = MSG_PARAMETER_STATUS)
  then b ← lift (build_message m.1 m.2); _ ← modify (add_params b); mret (tt, false)
  else if bool_decide (m.1 = MSG_BACKEND_KEY_DATA)
  then k ← lift (parse_backend_key_data m.2); _ ← modify (set_key (Some k)); mret (tt, false)
  else mret (tt, bool_decide (m.1 = MSG_READY_FOR_QUERY)).

Definition _drain_until_ready : M net unit :=
  fuel ← gets rounds; messages fuel (on_conn _read) tt startup_message.

(** [execute]: the first error counts, and is raised at ReadyForQuery. *)
Definition statement_message (failed : bool) (m : byte * octets) : M net (bool * bool) :=
  let failed := failed || bool_decide (m.1 = MSG_ERROR_RESPONSE) in
  if bool_decide (m.1 = MSG_READY_FOR_QUERY)
  then if failed then raise ConnectionError else mret (failed, true)
  else mret (failed, false).

Definition execute (sql : text) : M net unit :=
  _ ← modify (log_act (Ran sql));
  q ← lift (build_query sql);
  _ ← on_conn (send q);
  fuel ← gets rounds;
  _ ← messages fuel (on_conn (from_reader _read_regular_message)) false statement_message;
  mret tt.

Definition open (cfg : UpstreamConfig) (user password : text) : M net unit :=
  _ ← modify (log_act (OpenedAs user));
  c ← open_upstream cfg;
  _ ← modify (set_up (Some c));
  s ← lift (build_startup_message [(t_of "user", user); (t_of "database", database cfg)]);
  _ ← on_conn (send s);
  _ ← on_conn (_authenticate user password);
  _drain_until_ready.

(** Errors of the [Terminate] and of the closing are suppressed. *)
Definition close : M net unit := modify (λ n,
  match up n with
  | Some c => if closing c then n
              else set_up (Some (shut (put (MSG_TERMINATE :: be_bytes 4 4) c))) n
  | None => n
  end).

(** ** Enrolment *)

(** Work on an [UpstreamConnection] of its own, the current one set aside. *)
Definition separately {A} (m : M net A) : M net A := λ n,
  let '(r, n') := m {| dials := dials n; past := past n; acts := acts n;
                       up := None; startup_ps := []; backend_key := None |} in
  (r, {| dials := dials n'; past := (past n' ++ option_list (up n'))%list; acts := acts n';
         up := up n; startup_ps := startup_ps n; backend_key := backend_key n |}).

(** [salt]: the sixteen random octets of [scram_verifier]. *)
Definition enrol_tenant_login (cfg : UpstreamConfig) (company : string) (password : text)
  (salt : octets) : M net unit :=
  verifier ← lift (scram_verifier sha256 password salt DEFAULT_ITERATIONS);
  statement ← lift (enrol_statement company verifier);
  separately (finally (_ ← open cfg (enrol_user cfg) (enrol_password cfg); execute statement) close).

(** [PostgresBackend.connect] *)
Definition connect (cfg : UpstreamConfig) (company : string) (salt : octets) : M net unit :=
  name ← lift (sql_login_name company);
  let user := t_of name in
  password ← lift (tenant_login_password sha256 (tenant_key cfg) company);
  catch (open cfg user password)
    (λ e, if bool_decide (e = UpstreamAuthRejected)
          then _ ← close;
               _ ← enrol_tenant_login cfg company password salt;
               _ ← modify renew;
               open cfg user password
          else raise e).
End handshake.

(** ** Cancellation: [CancelRegistry] *)

(** [draws]: what [secrets.randbits] gives next; past the list, the pid drawn
    is one not in use. *)
Record registry := { sessions : gmap Z (Z * (Z * Z)); draws : list Z }.

Fixpoint search (fuel : nat) (taken : gmap Z (Z * (Z * Z))) (p : Z) : Z :=
  match fuel with
  | O => p
  | S fuel => match taken !! p with Some _ => search fuel taken (p + 1) | None => p end
  end.

(** [secrets.randbits(31) or 1] until it is not in use. *)
Fixpoint free_pid (taken : gmap Z (Z * (Z * Z))) (ds : list Z) : Z * list Z :=
  match ds with
  | [] => (search (size taken) taken 1, [])
  | d :: r =>
      let pid := let p := d mod 2 ^ 31 in if Z.eqb p 0 then 1 else p in
      match taken !! pid with Some _ => free_pid taken r | None => (pid, r) end
  end.

Definition register (upstream : Z * Z) (s : registry) : (Z * Z) * registry :=
  let '(pid, ds) := free_pid (sessions s) (draws s) in
  let key := default 0 (head ds) mod 2 ^ 32 in
  ((pid, key), {| sessions := <[pid := (key, upstream)]> (sessions s); draws := tail ds |}).

Definition unregister (pid : Z) (s : registry) : registry :=
  {| sessions := delete pid (sessions s); draws := draws s |}.

(** [hmac.compare_digest] of the packed keys. *)
Definition resolve (s : registry) (pid key : Z) : res (option (Z * Z)) :=
  match sessions s !! pid with
  | None => Ok None
  | Some (expected, upstream) =>
      e ← pack_I expected; k ← pack_I key;
      Ok (if bool_decide (e = k) then Some upstream else None)
  end.

Definition cancel (cfg : UpstreamConfig) (s : registry) (pid key : Z) : M net bool :=
  upstream ← lift (resolve s pid key);
  match upstream with
  | None => mret false
  | Some (p, k) =>
      c ← open_upstream cfg;
      let '(r, c') := (m ← lift (build_cancel_request p k); send m) c in
      _ ← modify (drop_conn (shut c'));
      _ ← lift r;
      mret true
  end.

(** *** The registry and the sessions that hold its keys *)

(** What a relaying session was given, and the upstream session it relays. *)
Record ticket := { t_pid : Z; t_key : Z; t_upstream : Z * Z }.

Inductive reg_step : registry * list ticket → registry * list ticket → Prop :=
  | reg_register u s live pid key s' : register u s = ((pid, key), s') →
      reg_step (s, live) (s', {| t_pid := pid; t_key := key; t_upstream := u |} :: live)
  | reg_unregister s l1 t l2 :
      reg_step (s, (l1 ++ t :: l2)%list) (unregister (t_pid t) s, (l1 ++ l2)%list).

Lemma search_range taken n p : p ≤ search n taken p ≤ p + Z.of_nat n.
Proof.
  revert p. induction n as [|n IH]; intros p; cbn [search]; [lia|].
  destruct (taken !! p); [|lia]. specialize (IH (p + 1)). lia.
Qed.

Lemma search_taken taken n p : is_Some (taken !! search n taken p) →
  ∀ i, 0 ≤ i ≤ Z.of_nat n → p + i ∈ dom taken.
Proof.
  revert p. induction n as [|n IH]; intros p H i Hi; cbn [search] in H.
  - replace (p + i) with p by lia. by apply elem_of_dom.
  - destruct (taken !! p) as [x|] eqn:E; [|by rewrite E in H; destruct H].
    destruct (Z.eq_dec i 0) as [->|]; [rewrite Z.add_0_r; by apply elem_of_dom_2 in E|].
    replace (p + i) with (p + 1 + (i - 1)) by lia. apply IH; [done|lia].
Qed.

(** Among [size taken + 1] pids one is free. *)
Lemma search_free taken p : taken !! search (size taken) taken p = None.
Proof.
  destruct (taken !! search (size taken) taken p) as [x|] eqn:E; [|done]. exfalso.
  assert (list_to_set (seqZ p (Z.of_nat (size taken) + 1)) ⊆ dom taken) as Hs.
  { intros y. rewrite elem_of_list_to_set, elem_of_seqZ. intros Hy.
    replace y with (p + (y - p)) by lia. apply (search_taken taken (size taken) p); [by rewrite E | lia]. }
  apply subseteq_size in Hs. rewrite size_dom, size_list_to_set in Hs by apply NoDup_seqZ.
  rewrite length_seqZ in Hs. lia.
Qed.

Lemma free_pid_free taken ds pid r : free_pid taken ds = (pid, r) → taken !! pid = None ∧ 1 ≤ pid.
Proof.
  revert pid r. induction ds as [|d ds IH]; intros pid r; cbn [free_pid].
  { intros [= <- <-]. split; [apply search_free | pose proof (search_range taken (size taken) 1); lia]. }
  set (p := if Z.eqb (d mod 2 ^ 31) 0 then 1 else d mod 2 ^ 31).
  destruct (taken !! p) eqn:E; [apply IH|]. intros [= <- <-]. split; [done|].
  pose proof (Z.mod_pos_bound d (2 ^ 31) ltac:(lia)). unfold p. destruct (Z.eqb_spec (d mod 2 ^ 31) 0); lia.
Qed.

Lemma pack_key z : 0 ≤ z < 2 ^ 32 → pack_I z = Ok (be_bytes 4 z).
Proof. intros Hz. unfold pack_I. by rewrite (proj2 (Z.leb_le _ _)), (proj2 (Z.ltb_lt _ _)) by lia. Qed.

Definition tickets_exact (s : registry) (live : list ticket) : Prop :=
  NoDup (t_pid <$> live) ∧ Forall (λ t, 1 ≤ t_pid t ∧ 0 ≤ t_key t < 2 ^ 32) live ∧
  ∀ pid key u, sessions s !! pid = Some (key, u) ↔ {| t_pid := pid; t_key := key; t_upstream := u |} ∈ live.

Lemma reg_step_exact s live s' live' :
  reg_step (s, live) (s', live') → tickets_exact s live → tickets_exact s' live'.
Proof.
  intros Hstep (Hnd & Hr & Hex). inversion Hstep as [u ? ? pid key ? Hreg|? l1 t l2]; subst; clear Hstep.
  - unfold register in Hreg. destruct (free_pid (sessions s) (draws s)) as [p ds] eqn:E.
    apply free_pid_free in E as [Hp Hp1]. injection Hreg as -> <- <-.
    assert (pid ∉ t_pid <$> live) as Hnew.
    { intros ([p k u'] & -> & Hin)%list_elem_of_fmap. apply Hex in Hin. simpl in Hp. congruence. }
    split; [by apply NoDup_cons|]. split.
    { apply Forall_cons. split; [|done]. cbn [t_pid t_key]. split; [done|]. apply Z.mod_pos_bound. lia. }
    intros pid' key' u'. cbn [sessions]. rewrite elem_of_cons, lookup_insert_Some. split.
    + intros [[<- [= <- <-]]|[_ H%Hex]]; auto.
    + intros [[= -> -> ->]|Hin]; [by left|]. right. split; [|by apply Hex].
      intros <-. apply Hnew, list_elem_of_fmap. by refine (ex_intro _ _ (conj _ Hin)).
  - rewrite fmap_app, fmap_cons in Hnd.
    assert (∀ x, x ∈ (l1 ++ l2)%list → t_pid x ≠ t_pid t) as Hother.
    { intros x Hx E. apply NoDup_app in Hnd as (_ & H1 & H2). apply NoDup_cons in H2 as [H2 _].
      apply elem_of_app in Hx as [Hx|Hx].
      - apply (H1 (t_pid x)); [by apply list_elem_of_fmap_2 | rewrite E; left].
      - apply H2. rewrite <- E. by apply list_elem_of_fmap_2. }
    split; [|split].
    + rewrite fmap_app. eapply sublist_NoDup; [exact Hnd|]. apply sublist_app; [done|]. by apply sublist_cons.
    + apply Forall_app in Hr as [Hr1 Hr2]. apply Forall_cons in Hr2 as [_ Hr2]. by apply Forall_app.
    + intros pid key u. cbn [unregister sessions]. rewrite lookup_delete_Some, Hex, !elem_of_app, elem_of_cons. split.
      * intros [Hne [H|[<-|H]]]; [by left | done | by right].
      * intros H. assert ({| t_pid := pid; t_key := key; t_upstream := u |} ∈ (l1 ++ l2)%list) as Hx by (by apply elem_of_app).
        split; [intros E; by apply (Hother _ Hx)|]. destruct H; [by left | by right; right].
Qed.

(** A cancel key reaches the session it was issued for, and no other:
    whatever sessions have started and ended, and whatever was drawn, a pid
    and key resolve exactly when a session relaying now holds them, and then
    to that session's upstream. *)
Theorem cancel_resolves_live_ticket ds s live pid key u
    (H : rtc reg_step ({| sessions := ∅; draws := ds |}, []) (s, live)) (Hk : 0 ≤ key < 2 ^ 32) :
  resolve s pid key = Ok (Some u) ↔ {| t_pid := pid; t_key := key; t_upstream := u |} ∈ live.
Proof.
  assert (tickets_exact s live) as (_ & Hr & Hex).
  { remember ({| sessions := ∅; draws := ds |}, []) as st eqn:E. remember (s, live) as st' eqn:E'.
    assert (tickets_exact st.1 st.2) as H0.
    { subst st. split; [apply NoDup_nil_2|]. split; [apply Forall_nil_2|]. intros p k v. simpl.
      by rewrite lookup_empty, elem_of_nil. }
    clear E. assert (tickets_exact st'.1 st'.2) as H1; [|by subst st'].
    clear E'. induction H as [|[s0 l0] [s1 l1] y Hs _ IH]; [done|]. apply IH. by eapply reg_step_exact. }
  rewrite <- Hex. unfold resolve. destruct (sessions s !! pid) as [[e v]|] eqn:E; [|done].
  assert (0 ≤ e < 2 ^ 32) as He.
  { apply Hex in E. rewrite Forall_forall in Hr. apply (Hr _) in E. by destruct E. }
  rewrite !pack_key by done. cbn [mbind res_bind]. case_bool_decide as Hb.
  - apply (f_equal be_value) in Hb. rewrite !be_roundtrip in Hb by done. subst. split; congruence.
  - split; [done|]. intros [= -> ->]. done.
Qed.

(** ** The loops end *)

Definition pend (n : net) : nat := match up n with Some c => length (pending (rd c)) | None => O end.

Lemma readexactly_ok k r b r' : readexactly k r = (Ok b, r') →
  (length (pending r') + k = length (pending r))%nat.
Proof.
  unfold readexactly. destruct (Nat.ltb_spec (length (pending r)) k); [done|]. intros [= <- <-].
  cbn [pending]. rewrite length_drop. lia.
Qed.

Lemma regular_shrinks r m r' : _read_regular_message r = (Ok m, r') →
  (length (pending r') < length (pending r))%nat.
Proof.
  unfold _read_regular_message. intros (t & r1 & H1 & H)%bind_inv_ok. apply readexactly_ok in H1.
  apply bind_inv_ok in H as (l & r2 & H2 & H). apply readexactly_ok in H2.
  destruct (_ || _); [done|]. apply bind_inv_ok in H as (p & r3 & H3 & [= <- <-]).
  apply readexactly_ok in H3. lia.
Qed.

(** A read takes something off the stream; a body takes nothing. *)
Definition shrinks {A} (read : M net A) : Prop := ∀ n m n', read n = (Ok m, n') → (pend n' < pend n)%nat.
Definition leaves {A} (m : M net A) : Prop := ∀ n r n', m n = (Ok r, n') → pend n' = pend n.

Lemma on_conn_shrinks {A} (m : M conn A) :
  (∀ c a c', m c = (Ok a, c') → (length (pending (rd c')) < length (pending (rd c)))%nat) → shrinks (on_conn m).
Proof.
  intros H n a n'. unfold on_conn, pend. destruct (up n) as [c|]; [|done].
  destruct (m c) as [r c'] eqn:E. intros [= -> <-]. cbn [up set_up]. by eapply H.
Qed.

Lemma regular_read_shrinks : shrinks (on_conn (from_reader _read_regular_message)).
Proof.
  apply on_conn_shrinks. intros c m c'. unfold from_reader, zoom.
  destruct (_read_regular_message (rd c)) as [r p] eqn:E. intros [= -> <-]. by eapply regular_shrinks.
Qed.

Lemma read_shrinks : shrinks (on_conn _read).
Proof.
  apply on_conn_shrinks. intros c m c'. unfold _read. intros (x & c1 & E & H)%bind_inv_ok.
  unfold from_reader, zoom in E. destruct (_read_regular_message (rd c)) as [r p] eqn:Er. injection E as -> <-.
  assert (c' = with_rd p c) as ->.
  { case_bool_decide; [|by injection H]. destruct (error_field _ _); [|done]. by case_bool_decide. }
  by eapply regular_shrinks.
Qed.

(** Any fuel above what is pending gives the same run. *)
Lemma messages_enough {A} read (body : A → byte * octets → M net (A * bool)) :
  shrinks read → (∀ acc m, leaves (body acc m)) → ∀ f1 f2 acc n, (pend n < f1)%nat → (pend n < f2)%nat →
  messages f1 read acc body n = messages f2 read acc body n.
Proof.
  intros Hr Hb. induction f1 as [|f1 IH]; intros [|f2] acc n H1 H2; try lia. cbn [messages].
  unfold mbind, M_bind. destruct (read n) as [[m|e] n1] eqn:E; [|done]. apply Hr in E.
  destruct (body acc m n1) as [[[a []]|e] n2] eqn:Eb; [done| |done]. apply Hb in Eb. cbn [fst snd].
  apply IH; lia.
Qed.

Lemma leaves_lift {A B} (r : res A) (k : A → M net B) : (∀ a, leaves (k a)) → leaves (lift r ≫= k).
Proof. intros H n b n' (a & n1 & [= -> <-] & E)%bind_inv_ok. by eapply H. Qed.

Lemma startup_message_leaves u m : leaves (startup_message u m).
Proof.
  unfold startup_message. case_bool_decide; [|case_bool_decide].
  1,2: apply leaves_lift; intros a n r n' [= <- <-]; done.
  intros n r n' [= <- <-]. done.
Qed.

Lemma statement_message_leaves b m : leaves (statement_message b m).
Proof.
  intros n r n'. unfold statement_message. case_bool_decide; [destruct (b || _); [done|]|]; by intros [= <- <-].
Qed.

Lemma rounds_pend n : (pend n < rounds n)%nat.
Proof. unfold pend, rounds. destruct (up n); lia. Qed.

(** Waiting for ReadyForQuery ends, whatever the database sends: in the
    startup and in a statement, any number of rounds above the octets still to
    come gives the run of the loop, so its fuel is never what ends it. *)
Theorem waiting_ends n fuel (Hf : (rounds n ≤ fuel)%nat) failed :
  _drain_until_ready n = messages fuel (on_conn _read) tt startup_message n ∧
  messages (rounds n) (on_conn (from_reader _read_regular_message)) failed statement_message n =
  messages fuel (on_conn (from_reader _read_regular_message)) failed statement_message n.
Proof.
  pose proof (rounds_pend n). split.
  - unfold _drain_until_ready, mbind, M_bind, gets.
    apply messages_enough; [apply read_shrinks | apply startup_message_leaves | lia..].
  - apply messages_enough; [apply regular_read_shrinks | apply statement_message_leaves | lia..].
Qed.

(** ** Who sessions are opened as *)

Definition same_acts (n n' : net) : Prop := acts n' = acts n.
#[export] Instance same_acts_preorder : PreOrder same_acts.
Proof. split; [by intros n|]. unfold same_acts. intros n1 n2 n3 H1 H2. congruence. Qed.

Lemma on_conn_acts {A} (m : M conn A) : respects same_acts (on_conn m).
Proof.
  intros n. unfold final, on_conn, same_acts. destruct (up n) as [c|]; [|done]. by destruct (m c).
Qed.

Lemma modify_acts f : (∀ n, acts (f n) = acts n) → respects same_acts (modify f).
Proof. intros H. by apply respects_modify. Qed.

Lemma open_upstream_acts cfg : respects same_acts (open_upstream cfg).
Proof.
  intros n. unfold final, open_upstream, same_acts. destruct (dials n) as [|[c|e] ds]; [done| |done].
  destruct (ssl_context cfg); [|done]. by destruct (negotiate _ c) as [[u|e] c'].
Qed.

Lemma messages_respects {A} R `{!PreOrder R} fuel read (body : A → byte * octets → M net (A * bool)) acc :
  respects R read → (∀ a m, respects R (body a m)) → respects R (messages fuel read acc body).
Proof.
  intros Hr Hb. revert acc. induction fuel as [|fuel IH]; intros acc; cbn [messages]; [apply respects_raise, _|].
  apply respects_bind; [apply _ | done |]. intros m. apply respects_bind; [apply _ | done |].
  intros [a []]; [apply respects_ret, _ | apply IH].
Qed.

Lemma startup_message_respects R `{!PreOrder R} u m :
  (∀ b, respects R (modify (add_params b))) → (∀ k, respects R (modify (set_key k))) →
  respects R (startup_message u m).
Proof.
  intros Hp Hk. unfold startup_message. case_bool_decide; [|case_bool_decide; [|apply respects_ret, _]].
  - apply respects_bind; [apply _ | apply respects_lift, _ |]. intros b.
    apply respects_bind; [apply _ | apply Hp |]. intros _. apply respects_ret, _.
  - apply respects_bind; [apply _ | apply respects_lift, _ |]. intros k.
    apply respects_bind; [apply _ | apply Hk |]. intros _. apply respects_ret, _.
Qed.

Lemma statement_message_respects R `{!PreOrder R} b m : respects R (statement_message b m).
Proof.
  unfold statement_message. case_bool_decide; [destruct (b || _)|];
    [apply respects_raise, _ | apply respects_ret, _..].
Qed.

Lemma close_acts : respects same_acts close.
Proof. apply modify_acts. intros n. destruct (up n) as [c|]; [|done]. by destruct (closing c). Qed.

(** An invariant kept by a computation, as a relation. *)
#[export] Instance impl_rel_preorder {S} (I : S → Prop) : PreOrder (λ s s' : S, I s → I s').
Proof. split; apply _. Qed.

Abbreviation keeps I := (respects (λ s s', I s → I s')).

Section opened.
Context (sha256 : octets → octets) (int_of : text → option Z).

(** [open] and [execute] after their entry in [acts]. *)
Lemma open_acts cfg u pw n : acts (final (open sha256 int_of cfg u pw) n) = (acts n ++ [OpenedAs u])%list.
Proof.
  unfold open. change (acts n ++ [OpenedAs u])%list with (acts (log_act (OpenedAs u) n)).
  revert n. assert (∀ m : M net unit, respects same_acts m → ∀ n,
    acts (final (modify (log_act (OpenedAs u)) ≫= λ _, m) n) = acts (log_act (OpenedAs u) n)) as Hk
    by (intros m H n; apply (H (log_act (OpenedAs u) n))).
  apply Hk. apply respects_bind; [apply _ | apply open_upstream_acts |]. intros c.
  apply respects_bind; [apply _ | by apply modify_acts |]. intros _.
  apply respects_bind; [apply _ | apply respects_lift, _ |]. intros s.
  apply respects_bind; [apply _ | apply on_conn_acts |]. intros _.
  apply respects_bind; [apply _ | apply on_conn_acts |]. intros _.
  apply respects_bind; [apply _ | apply respects_gets, _ |]. intros f.
  apply messages_respects; [apply _ | apply on_conn_acts |]. intros a m.
  apply startup_message_respects; [apply _ | intros; by apply modify_acts..].
Qed.

Lemma execute_acts sql n : acts (final (execute sql) n) = (acts n ++ [Ran sql])%list.
Proof.
  unfold execute. change (acts n ++ [Ran sql])%list with (acts (log_act (Ran sql) n)).
  revert n. assert (∀ m : M net unit, respects same_acts m → ∀ n,
    acts (final (modify (log_act (Ran sql)) ≫= λ _, m) n) = acts (log_act (Ran sql) n)) as Hk
    by (intros m H n; apply (H (log_act (Ran sql) n))).
  apply Hk. apply respects_bind; [apply _ | apply respects_lift, _ |]. intros q.
  apply respects_bind; [apply _ | apply on_conn_acts |]. intros _.
  apply respects_bind; [apply _ | apply respects_gets, _ |]. intros f.
  apply respects_bind; [apply _ | | intros _; apply respects_ret, _].
  apply messages_respects; [apply _ | apply on_conn_acts | intros; apply statement_message_respects, _].
Qed.

(** The enrolment session: nothing, an opening that failed, or an opening and
    the one statement. *)
Definition enrolment cfg company password salt (r : res unit) (l : list act) : Prop :=
  l = [] ∧ is_ok r = false ∨
  ∃ verifier sql, scram_verifier sha256 password salt DEFAULT_ITERATIONS = Ok verifier ∧
    enrol_statement company verifier = Ok sql ∧
    (l = [OpenedAs (enrol_user cfg)] ∧ is_ok r = false ∨ l = [OpenedAs (enrol_user cfg); Ran sql]).

Lemma enrol_acts cfg company password salt n r n' :
  enrol_tenant_login sha256 int_of cfg company password salt n = (r, n') →
  ∃ l, acts n' = (acts n ++ l)%list ∧ enrolment cfg company password salt r l.
Proof.
  unfold enrol_tenant_login, mbind at 1, M_bind at 1, lift at 1.
  destruct (scram_verifier sha256 password salt DEFAULT_ITERATIONS) as [v|e] eqn:Ev.
  2:{ intros [= <- <-]. exists []. rewrite app_nil_r. split; [done|]. by left. }
  unfold mbind at 1, M_bind at 1, lift at 1. destruct (enrol_statement company v) as [sql|e] eqn:Es.
  2:{ intros [= <- <-]. exists []. rewrite app_nil_r. split; [done|]. by left. }
  unfold separately, finally, mbind, M_bind.
  set (n0 := {| dials := dials n; past := past n; acts := acts n; up := None; startup_ps := []; backend_key := None |}).
  pose proof (open_acts cfg (enrol_user cfg) (enrol_password cfg) n0) as Ho. unfold final in Ho.
  destruct (open sha256 int_of cfg (enrol_user cfg) (enrol_password cfg) n0) as [[[]|e] n1]; cbn [snd] in Ho.
  - pose proof (execute_acts sql n1) as He. unfold final in He. destruct (execute sql n1) as [x n2]. cbn [snd] in He.
    pose proof (close_acts n2) as Hc. unfold final, same_acts in Hc. destruct (close n2) as [[[]|e] n3]; cbn [snd] in Hc;
      intros [= <- <-]; exists [OpenedAs (enrol_user cfg); Ran sql]; cbn [acts]; rewrite Hc, He, Ho, <- app_assoc;
      (split; [done|]); right; exists v, sql; eauto.
  - pose proof (close_acts n1) as Hc. unfold final, same_acts in Hc. destruct (close n1) as [[[]|e'] n3]; cbn [snd] in Hc;
      intros [= <- <-]; exists [OpenedAs (enrol_user cfg)]; cbn [acts]; rewrite Hc, Ho;
      (split; [done|]); right; exists v, sql; eauto.
Qed.

(** A tenant's login is enrolled at most once per connection, and only
    when the database refused it: [connect] opens a session as the tenant's
    own login; unless that is refused with an authentication error its
    outcome is that of this opening; if it is, the enrolment principal's
    session runs at most the one statement that installs the verifier of the
    tenant's own password, and only once it has is the login tried again, that
    outcome being the last. *)
Theorem connect_enrols_once cfg company salt n r n'
    (H : connect sha256 int_of cfg company salt n = (r, n')) :
  acts n' = acts n ∧ is_ok r = false ∨
  ∃ name password, sql_login_name company = Ok name ∧
    tenant_login_password sha256 (tenant_key cfg) company = Ok password ∧
    let user := t_of name in
    let first := outcome (open sha256 int_of cfg user password) n in
    (first ≠ Err UpstreamAuthRejected ∧ r = first ∧ acts n' = (acts n ++ [OpenedAs user])%list) ∨
    (first = Err UpstreamAuthRejected ∧ ∃ r0 l, enrolment cfg company password salt r0 l ∧
       (is_ok r0 = false ∧ is_ok r = false ∧ acts n' = (acts n ++ OpenedAs user :: l)%list ∨
        is_ok r0 = true ∧ acts n' = (acts n ++ OpenedAs user :: l ++ [OpenedAs user])%list)).
Proof.
  revert H. unfold connect, mbind at 1, M_bind at 1, lift at 1.
  destruct (sql_login_name company) as [name|e]; [|intros [= <- <-]; by left].
  unfold mbind at 1, M_bind at 1, lift at 1.
  destruct (tenant_login_password sha256 (tenant_key cfg) company) as [password|e]; [|intros [= <- <-]; by left].
  intros H. right. exists name, password. split; [done|]. split; [done|]. cbv zeta. revert H.
  unfold catch, outcome. pose proof (open_acts cfg (t_of name) password n) as Ho. unfold final in Ho.
  destruct (open sha256 int_of cfg (t_of name) password n) as [[[]|e] n1]; cbn [fst snd] in *.
  { intros [= <- <-]. by left. }
  case_bool_decide as He; [|intros [= <- <-]; left; by split; [congruence|]]. subst e.
  intros H. right. split; [done|]. revert H. unfold mbind at 1, M_bind at 1, close at 1, modify at 1.
  set (n2 := match up n1 with Some c => _ | None => _ end).
  assert (acts n2 = acts n1) as H2 by (exact (close_acts n1)).
  unfold mbind at 1, M_bind at 1.
  destruct (enrol_tenant_login sha256 int_of cfg company password salt n2) as [r0 n3] eqn:E.
  apply enrol_acts in E as (l & Hl & Henrol). rewrite H2, Ho, <- app_assoc in Hl. intros H.
  exists r0, l. split; [done|]. destruct r0 as [[]|e].
  - right. split; [done|]. pose proof (open_acts cfg (t_of name) password (renew n3)) as Ho3.
    unfold mbind, M_bind, modify in H. unfold final in Ho3. rewrite H in Ho3. cbn [snd renew acts] in Ho3.
    by rewrite Ho3, Hl, <- app_assoc.
  - left. injection H as <- <-. done.
Qed.

(** ** Nothing but the SSLRequest in the clear *)

Definition sealed (c : conn) : Prop := clear_out c `prefix_of` build_ssl_request.
Definition sealed_up (c : conn) : Prop := sealed c ∧ tls c = true.
Definition fresh_conn (c : conn) : Prop := clear_out c = [] ∧ tls c = false.
Definition fresh_dial (d : res conn) : Prop := match d with Ok c => fresh_conn c | Err _ => True end.
Definition net_sealed (n : net) : Prop :=
  Forall fresh_dial (dials n) ∧ Forall sealed (past n) ∧ (∀ c, up n = Some c → sealed_up c).

Lemma put_sealed b c : sealed_up c → sealed_up (put b c).
Proof.
  intros [H1 H2]. unfold put. destruct (closing c && _); [done|].
  split; [|done]. unfold sealed, with_out. cbn [clear_out]. by rewrite H2.
Qed.

Lemma drain_sealed : keeps sealed_up drain.
Proof. intros c H. unfold final, drain. by destruct (drains c) as [|[e|] d]. Qed.

Lemma send_sealed b : keeps sealed_up (send b).
Proof.
  apply respects_bind; [apply _ | apply respects_modify; intros c; apply put_sealed |].
  intros _. apply drain_sealed.
Qed.

Lemma reader_sealed {A} (m : M reader A) : keeps sealed_up (from_reader m).
Proof. intros c H. unfold final, from_reader, zoom. by destruct (m (rd c)). Qed.

Lemma read_sealed : keeps sealed_up _read.
Proof.
  apply respects_bind; [apply _ | apply reader_sealed |]. intros m. case_bool_decide; [|apply respects_ret, _].
  destruct (error_field _ _); [case_bool_decide|]; apply respects_raise, _.
Qed.

Lemma on_conn_sealed {A} (m : M conn A) : keeps sealed_up m → keeps net_sealed (on_conn m).
Proof.
  intros Hm n Hn. pose proof Hn as (H1 & H2 & H3). unfold final, on_conn. destruct (up n) as [c|] eqn:E; [|exact Hn].
  specialize (Hm c (H3 c eq_refl)). unfold final in Hm. destruct (m c) as [r c']. split_and!; [done..|].
  by intros x [= <-].
Qed.

Lemma put_clear b c : closing c = false → tls c = false → clear_out (put b c) = (clear_out c ++ b)%list ∧ tls (put b c) = false.
Proof. intros Hc Ht. unfold put. rewrite Hc. unfold with_out. cbn. by rewrite Ht. Qed.

Lemma put_fresh b c : fresh_conn c → b = build_ssl_request → sealed (put b c) ∧ tls (put b c) = false.
Proof.
  intros [H1 H2] ->. unfold put. destruct (closing c && _); unfold sealed, with_out.
  - rewrite H1. split; [apply prefix_nil | done].
  - cbn [clear_out tls]. rewrite H1, H2. done.
Qed.

(** With TLS required a negotiation that succeeds has upgraded. *)
Lemma negotiate_sealed c r c' : fresh_conn c → negotiate true c = (r, c') →
  sealed c' ∧ (r = Ok tt → tls c' = true).
Proof.
  intros Hf H. destruct (put_fresh _ c Hf eq_refl) as [Hs Ht].
  assert (sealed c' ∧ (r = Ok tt → tls c' = true)); [|done].
  revert H. unfold negotiate, send, write, mbind, M_bind, modify. set (c1 := put build_ssl_request c) in *.
  assert (∀ c2, clear_out c2 = clear_out c1 → sealed c2) as Hsame by (unfold sealed; by intros c2 ->).
  unfold drain. set (p := match drains c1 with [] => _ | _ => _ end).
  assert (clear_out p.2 = clear_out c1) as Hp by (unfold p; by destruct (drains c1) as [|[e|] d]).
  destruct p as [[[]|e] c2]; cbn [snd] in Hp; [|intros [= <- <-]; split; [by apply Hsame | done]].
  unfold from_reader, zoom. destruct (readexactly 1 (rd c2)) as [[b|e] r3]; [|intros [= <- <-]; split; [by apply Hsame | done]].
  case_bool_decide; [|case_bool_decide; intros [= <- <-]; (split; [by apply Hsame | done])].
  unfold _upgrade_to_tls. destruct (tls_fails _); intros [= <- <-]; (split; [by apply Hsame | done]).
Qed.

Lemma open_upstream_sealed cfg n r n' : ssl_context cfg ≠ None → require_tls cfg = true →
  net_sealed n → open_upstream cfg n = (r, n') →
  net_sealed n' ∧ up n' = up n ∧ (∀ c, r = Ok c → sealed_up c).
Proof.
  intros Hc Ht Hn. pose proof Hn as (H1 & H2 & H3). unfold open_upstream. rewrite Ht.
  destruct (dials n) as [|[c|e] ds].
  - intros [= <- <-]. by split_and!.
  - apply Forall_cons in H1 as [Hf H1]. destruct (ssl_context cfg); [|done].
    destruct (negotiate true c) as [r1 c'] eqn:E. apply negotiate_sealed in E as [Hs Htls]; [|done].
    assert (Forall sealed (past n ++ [shut c'])) as Hp by (apply Forall_app; by rewrite Forall_singleton).
    destruct r1 as [[]|e]; intros [= <- <-]; (split; [by split_and!|]); (split; [done|]); [|done].
    intros x [= <-]. by split; [|apply Htls].
  - apply Forall_cons in H1 as [Hf H1]. intros [= <- <-]. by split_and!.
Qed.

Lemma authenticate_sealed user pw : keeps sealed_up (_authenticate sha256 int_of user pw).
Proof. unfold _authenticate, scram_exchange. respecting ltac:(first [apply read_sealed | apply send_sealed]). Qed.

Lemma modify_sealed f : (∀ n, dials (f n) = dials n ∧ past (f n) = past n ∧ up (f n) = up n) →
  keeps net_sealed (modify f).
Proof.
  intros Hf. apply respects_modify. intros n. unfold net_sealed. by destruct (Hf n) as (-> & -> & ->).
Qed.

Lemma close_sealed : keeps net_sealed close.
Proof.
  apply respects_modify. intros n (H1 & H2 & H3). unfold net_sealed.
  destruct (up n) as [c|] eqn:E; [|by rewrite E]. destruct (closing c); [by rewrite E|]. split_and!; [done..|].
  intros x [= <-]. destruct (put_sealed (MSG_TERMINATE :: be_bytes 4 4) c (H3 c eq_refl)). done.
Qed.

Lemma execute_sealed sql : keeps net_sealed (execute sql).
Proof.
  unfold execute. respecting ltac:(first
    [ by apply modify_sealed | apply on_conn_sealed; first [apply send_sealed | apply reader_sealed]
    | apply messages_respects; [apply _ | | intros] | apply statement_message_respects, _ ]).
Qed.

Context (cfg : UpstreamConfig) (Hctx : ssl_context cfg ≠ None) (Htls : require_tls cfg = true).

Lemma open_sealed user pw : keeps net_sealed (open sha256 int_of cfg user pw).
Proof using Hctx Htls.
  assert (∀ c, sealed_up c → keeps net_sealed (
    _ ← modify (set_up (Some c));
    s ← lift (build_startup_message [(t_of "user", user); (t_of "database", database cfg)]);
    _ ← on_conn (send s); _ ← on_conn (_authenticate sha256 int_of user pw); _drain_until_ready)) as Hrest.
  { intros c Hc. unfold _drain_until_ready.
    respecting ltac:(first
      [ apply respects_modify; intros n (? & ? & ?); split_and!; [done..|]; by intros x [= <-]
      | apply on_conn_sealed; first [apply send_sealed | apply authenticate_sealed | apply read_sealed]
      | apply messages_respects; [apply _ | | intros]
      | apply startup_message_respects; [apply _ | intros; by apply modify_sealed..] ]). }
  intros n Hn. unfold open, final. unfold mbind at 1, M_bind at 1, modify at 1. unfold mbind at 1, M_bind at 1.
  destruct (open_upstream cfg (log_act (OpenedAs user) n)) as [r n1] eqn:E.
  apply open_upstream_sealed in E as (Hn1 & _ & Hc); [|done..]. destruct r as [c|e]; [|done].
  apply Hrest; [by apply Hc | done].
Qed.

Lemma separately_sealed {A} (m : M net A) : keeps net_sealed m → keeps net_sealed (separately m).
Proof using.
  intros Hm n (H1 & H2 & H3). unfold final, separately.
  set (n0 := {| dials := dials n; past := past n; acts := acts n; up := None; startup_ps := []; backend_key := None |}).
  assert (net_sealed n0) as Hn0 by (by split_and!). apply Hm in Hn0. unfold final in Hn0.
  destruct (m n0) as [r n1]. destruct Hn0 as (D & P & U). cbn [snd] in *.
  split_and!; [done | | done]. apply Forall_app. split; [done|]. apply Forall_forall. intros c Hc.
  destruct (up _) as [y|] eqn:Ey in Hc |- *; [|by apply elem_of_nil in Hc]. apply list_elem_of_singleton in Hc as ->. by apply U.
Qed.

Lemma renew_sealed : keeps net_sealed (modify renew).
Proof using.
  apply respects_modify. intros n (H1 & H2 & H3). split_and!; [done | | done].
  apply Forall_app. split; [done|]. apply Forall_forall. intros c Hc.
  destruct (up _) as [y|] eqn:Ey in Hc |- *; [|by apply elem_of_nil in Hc]. apply list_elem_of_singleton in Hc as ->. by apply H3.
Qed.

Lemma enrol_sealed company pw salt : keeps net_sealed (enrol_tenant_login sha256 int_of cfg company pw salt).
Proof using Hctx Htls.
  unfold enrol_tenant_login. respecting ltac:(first
    [ apply separately_sealed | apply open_sealed | apply execute_sealed | apply close_sealed ]).
Qed.

Lemma connect_sealed company salt : keeps net_sealed (connect sha256 int_of cfg company salt).
Proof using Hctx Htls.
  unfold connect. respecting ltac:(first
    [ apply open_sealed | apply enrol_sealed | apply close_sealed | apply renew_sealed ]).
Qed.

Lemma cancel_sealed reg pid key : keeps net_sealed (cancel cfg reg pid key).
Proof using Hctx Htls.
  assert (∀ c, sealed_up c → ∀ p k, keeps net_sealed (
    let '(r, c') := (m ← lift (build_cancel_request p k); send m) c in
    _ ← modify (drop_conn (shut c')); _ ← lift r; mret true)) as Hsend.
  { intros c Hc p k. assert (sealed (final (m ← lift (build_cancel_request p k); send m) c)) as Hs.
    { assert (keeps sealed_up (m ← lift (build_cancel_request p k); send m)) as H by (respecting ltac:(apply send_sealed)).
      by destruct (H c Hc). }
    unfold final in Hs. destruct ((m ← lift (build_cancel_request p k); send m) c) as [r c'].
    respecting ltac:(apply respects_modify; intros n (H1 & H2 & H3); split_and!; [done | | done]).
    apply Forall_app. by rewrite Forall_singleton. }
  unfold cancel. apply respects_bind; [apply _ | apply respects_lift, _ |].
  intros [[p k]|]; [|apply respects_ret, _]. intros n Hn. unfold final, mbind at 1, M_bind at 1.
  destruct (open_upstream cfg n) as [r n1] eqn:E. apply open_upstream_sealed in E as (Hn1 & _ & Hc); [|done..].
  destruct r as [c|e]; [|done]. by apply (Hsend c (Hc c eq_refl) p k n1).
Qed.
End opened.

(** ** A login enrolled on the way *)

Definition framed (l : list (res octets)) : octets := concat ((default [] ∘ res_opt) <$> l).

(** A database that takes TLS and sends [l] inside it. *)
Definition scripted (l : list (res octets)) : conn :=
  {| rd := {| pending := ["S"%byte]; broken := None |}; in_tls := {| pending := framed l; broken := None |};
     tls_fails := None; tls := false; clear_out := []; tls_out := []; closing := false; unsent := false;
     drains := []; nonce := t_of "n0" |}.

Definition refused_login : conn :=
  scripted [build_error_response (t_of "password authentication failed") (t_of "28P01") (t_of "FATAL")].
Definition accepting (l : list (res octets)) : conn :=
  scripted (build_authentication_ok :: build_message MSG_PARAMETER_STATUS (ascii_octets "TimeZone")
            :: build_backend_key_data 7 9 :: build_ready_for_query TXN_IDLE :: l).
Definition done_statement : list (res octets) :=
  [build_message "C"%byte (ascii_octets "SET"); build_ready_for_query TXN_IDLE].

Definition sample_config : UpstreamConfig :=
  config_of (t_of "industryflow") (t_of "notebook_sql_proxy") (t_of "pw")
    (replicate 32 (oct 107)) "verify-full" (Some (t_of "/ca.pem")).
Definition sample_salt : octets := replicate 16 (oct 5).

Definition first_contact : net :=
  {| dials := [Ok refused_login; Ok (accepting done_statement); Ok (accepting [])];
     past := []; acts := []; up := None; startup_ps := []; backend_key := None |}.

Definition short_hash (b : octets) : octets := be_bytes 32 (Z.of_nat (length b)).

Lemma connect_enrols_once_witness :
  let '(r, n') := connect short_hash toy_int sample_config sample_company sample_salt first_contact in
  r = Ok tt ∧ length (acts n') = 4%nat ∧ backend_key n' = Some (7, 9) ∧
  (acts n' = acts first_contact ∧ is_ok r = false ∨
   ∃ name, sql_login_name sample_company = Ok name ∧ head (acts n') = Some (OpenedAs (t_of name))).
Proof.
  assert (∀ p, connect short_hash toy_int sample_config sample_company sample_salt first_contact = p →
      res_opt p.1 = Some tt ∧ length (acts p.2) = 4%nat ∧ backend_key p.2 = Some (7, 9)) as Hp.
  { intros p <-. vm_compute. repeat split. }
  destruct (connect short_hash toy_int sample_config sample_company sample_salt first_contact) as [r n'] eqn:H.
  destruct (Hp _ eq_refl) as (Hr & Hl & Hk). clear Hp. cbn [fst snd] in Hr, Hl, Hk.
  split; [destruct r as [[]|e]; [reflexivity | discriminate Hr]|]. split; [exact Hl|]. split; [exact Hk|].
  destruct (connect_enrols_once short_hash toy_int sample_config sample_company sample_salt first_contact r n' H)
    as [Hn|(name & pw & Hname & _ & Hc)]; [left; exact Hn|].
  right. exists name. split; [exact Hname|].
  destruct Hc as [(_ & _ & Ha)|(_ & r0 & l & _ & [(_ & _ & Ha)|(_ & Ha)])]; rewrite Ha; reflexivity.
Defined.

(** An unknown mode verifies the database but does not require TLS of it. *)
Example unknown_sslmode :
  let cfg := config_of [] [] [] [] "verify_full" None in
  (ssl_context cfg, require_tls cfg, require_tls sample_config,
   outcome (negotiate (require_tls cfg)) (with_rd {| pending := ["N"%byte]; broken := None |} refused_login)) =
  (Some {| check_hostname := true; verify := true; cafile := None |}, false, true, Ok tt).
Proof. vm_compute. reflexivity. Qed.

(** ** A cancel key, and a statement's end *)

Lemma cancel_resolves_live_ticket_witness :
  ∃ s, rtc reg_step ({| sessions := ∅; draws := [5; 77] |}, []) (s, [{| t_pid := 5; t_key := 77; t_upstream := (7, 9) |}]) ∧
    resolve s 5 77 = Ok (Some (7, 9)) ∧ resolve s 5 78 = Ok None.
Proof.
  pose (s0 := {| sessions := ∅; draws := [5; 77] |}). pose (s := snd (register (7, 9) s0)). exists s.
  assert (fst (register (7, 9) s0) = (5, 77)) as Hk by (vm_compute; reflexivity).
  assert (resolve s 5 78 = Ok None) as H78 by (vm_compute; reflexivity).
  assert (rtc reg_step (s0, []) (s, [{| t_pid := 5; t_key := 77; t_upstream := (7, 9) |}])) as H
    by (apply rtc_once; apply reg_register; unfold s; rewrite <- Hk; apply surjective_pairing).
  split; [exact H|]. split; [|exact H78].
  apply (cancel_resolves_live_ticket [5; 77] s _ 5 77 (7, 9) H); [lia | left].
Defined.

Lemma waiting_ends_witness :
  let n := set_up (Some (secured (accepting []))) first_contact in
  (rounds n ≤ 1000)%nat ∧ _drain_until_ready n = messages 1000 (on_conn _read) tt startup_message n.
Proof.
  cbv zeta. assert (rounds (set_up (Some (secured (accepting []))) first_contact) ≤ 1000)%nat as H
    by (vm_compute; lia).
  split; [exact H|]. exact (proj1 (waiting_ends _ 1000 H false)).
Defined.
