(* ===== verification/SqlServer.v ===== *)
(** * The SQL proxy server: services/notebook_sql_proxy/server.py

    The handshake with the kernel, [PostgresBackend] as an instance of the
    [Backend] interface of SqlProxy, and [handle_client].  The relay's three
    tasks are interleaved by a schedule of what the two peers send and of when
    the watchdog's sleep ends; the schedule's end closes both sides. *)

From stdpp Require Import base strings list gmap.
From Stdlib Require Import ZArith Lia.
From Stdlib.Strings Require Import Byte.
From S2P Require Import Prelude PyText PyJson Tenancy CapabilityAudit SqlWire SqlScram SqlBinding SqlProxy SqlUpstream.

Local Open Scope Z_scope.

(** ** The kernel's handshake *)

Record ClientStartup := { code : Z; params : list (text * text); body : octets }.
Definition is_cancel (s : ClientStartup) : bool := Z.eqb (code s) CANCEL_REQUEST_CODE.

Definition _DECLINE_SSL : octets := ["N"%byte].

(** A packet takes four octets off the stream, so the fuel of [read_startup]
    is never used up. *)
Fixpoint startup_loop (fuel : nat) : M conn ClientStartup :=
  match fuel with
  | O => raise OtherError
  | S fuel =>
      body ← from_reader _read_startup_packet;
      cp ← lift (parse_startup_packet body);
      if bool_decide (cp.1 ∈ [SSL_REQUEST_CODE; GSSENC_REQUEST_CODE])
      then _ ← send _DECLINE_SSL; startup_loop fuel
      else mret {| code := cp.1; params := cp.2; body := body |}
  end.

Definition read_startup : M conn ClientStartup :=
  n ← gets (λ c, length (pending (rd c))); startup_loop (S n).

Definition request_handle : M conn text :=
  a ← lift build_authentication_cleartext_password;
  _ ← send a;
  m ← from_reader _read_regular_message;
  if bool_decide (m.1 = MSG_PASSWORD) then lift (parse_password_message m.2) else raise ProtocolError.

Definition authenticate_client : M conn (list (text * text) * text) :=
  s ← read_startup;
  if is_cancel s then raise ProtocolError
  else h ← request_handle; mret (params s, h).

Definition shut_conn : M conn unit := modify shut.
Definition suppress {S} (m : M S unit) : M S unit := catch m (λ _, mret tt).

Definition reject_client (message : text) : M conn unit :=
  e ← lift (build_error_response message (t_of "28000") (t_of "FATAL"));
  _ ← write e;
  _ ← suppress drain;
  shut_conn.

(** ** The handshake reads what a kernel sends *)

(** A request for encryption, and a packet of a code alone. *)
Definition probe (code : Z) : octets := (be_bytes 4 8 ++ be_bytes 4 code)%list.
Definition encryption_code (code : Z) : Prop := code = SSL_REQUEST_CODE ∨ code = GSSENC_REQUEST_CODE.

(** A kernel's socket, in clear, [b] read next. *)
Definition speaking (c : conn) (b : octets) (out : octets) : conn :=
  with_rd {| pending := b; broken := broken (rd c) |} (with_out out c).
Definition in_clear (c : conn) : Prop := tls c = false ∧ closing c = false ∧ drains c = [].

Lemma speaking_read {A} (m : M reader A) c b out a b' :
  m {| pending := b; broken := broken (rd c) |} = (Ok a, {| pending := b'; broken := broken (rd c) |}) →
  from_reader m (speaking c b out) = (Ok a, speaking c b' out).
Proof. intros H. unfold from_reader, zoom, speaking. cbn [rd with_rd]. by rewrite H. Qed.

Lemma speaking_send c b out x : in_clear c → send x (speaking c b out) = (Ok tt, speaking c b (out ++ x)%list).
Proof.
  intros (Ht & Hc & Hd). destruct c. cbn in Ht, Hc, Hd. subst.
  unfold send, write, mbind, M_bind, modify, put, drain, speaking, with_out, with_rd. cbn. by rewrite app_assoc.
Qed.

Lemma probe_read code rest e : encryption_code code →
  _read_startup_packet {| pending := (probe code ++ rest)%list; broken := e |} =
    (Ok (be_bytes 4 code), {| pending := rest; broken := e |}) ∧
  parse_startup_packet (be_bytes 4 code) = Ok (code, []).
Proof.
  intros Hcode. split; [|by destruct Hcode as [-> | ->]].
  unfold _read_startup_packet, probe. rewrite <- app_assoc.
  rewrite (bind_ok _ _ _ _ _ (readexactly_app 4 (be_bytes 4 8) _ e eq_refl)).
  change (unpack_I (be_bytes 4 8)) with 8. cbn [Z.ltb Z.compare Z.pow orb]. apply readexactly_app. apply be_length.
Qed.

Lemma startup_loop_probes probes m params body rest c fuel out :
  Forall encryption_code probes → in_clear c → (length probes < fuel)%nat →
  (∀ e, _read_startup_packet {| pending := (m ++ rest)%list; broken := e |} = (Ok body, {| pending := rest; broken := e |})) →
  parse_startup_packet body = Ok (PROTOCOL_VERSION_3, params) →
  startup_loop fuel (speaking c (concat (probe <$> probes) ++ m ++ rest)%list out) =
    (Ok {| code := PROTOCOL_VERSION_3; params := params; body := body |},
     speaking c rest (out ++ concat ((λ _, _DECLINE_SSL) <$> probes))%list).
Proof.
  intros Hp Hc Hf Hread Hparse. revert fuel out Hf. induction Hp as [|code probes Hcode _ IH]; intros [|fuel] out Hf;
    cbn [length] in Hf; try lia; cbn [startup_loop fmap list_fmap concat app].
  - rewrite (bind_ok _ _ _ _ _ (speaking_read _ _ _ _ _ _ (Hread _))), Hparse.
    rewrite app_nil_r. done.
  - rewrite <- app_assoc. destruct (probe_read code (concat (probe <$> probes) ++ m ++ rest)%list (broken (rd c)) Hcode) as [Hr Hpp].
    rewrite (bind_ok _ _ _ _ _ (speaking_read _ _ _ _ _ _ Hr)), Hpp. rewrite (bind_ok _ _ _ _ _ (lift_ok _ _)).
    rewrite bool_decide_eq_true_2 by (destruct Hcode as [-> | ->]; cbn [fst]; set_solver).
    rewrite (bind_ok _ _ _ _ _ (speaking_send _ _ _ _ Hc)). rewrite IH by lia. by rewrite <- app_assoc.
Qed.

(** The handshake reads what a kernel sends and nothing more: whatever
    requests for encryption come first, each declined, the parameters of a
    StartupMessage and the handle of a PasswordMessage come back as they were
    built, the kernel having been sent the refusals and the request for a
    password, and what follows is left on the stream. *)
Theorem handshake_roundtrip probes params m handle p rest c
    (Hprobes : Forall encryption_code probes) (Hc : in_clear c)
    (Hm : build_startup_message params = Ok m) (Hp : forallb startup_pair params = true)
    (Hn : NoDup params.*1) (Hl : Z.of_nat (length m) ≤ 2 ^ 20)
    (Hpw : build_password_message handle = Ok p) (Hlp : Z.of_nat (length p) ≤ 2 ^ 24) :
  ∃ request, build_authentication_cleartext_password = Ok request ∧
    authenticate_client (speaking c (concat (probe <$> probes) ++ m ++ p ++ rest)%list []) =
    (Ok (params, handle), speaking c rest (concat ((λ _, _DECLINE_SSL) <$> probes) ++ request)%list).
Proof.
  destruct (startup_roundtrip params m Hm Hp Hn Hl) as (body & Hread & Hparse).
  assert (∃ r, build_authentication_cleartext_password = Ok r) as [request Hrequest] by (by eexists).
  exists request. split; [done|]. unfold authenticate_client.
  set (c0 := speaking c _ []).
  assert (length probes < S (length (pending (rd c0))))%nat as Hf.
  { unfold c0. cbn. rewrite length_app. clear. induction probes as [|x l IH]; [cbn; lia|].
    cbn [fmap list_fmap concat length]. rewrite length_app. unfold probe at 1. rewrite length_app, !be_length. lia. }
  pose proof (startup_loop_probes probes m params body (p ++ rest)%list c _ [] Hprobes Hc Hf (Hread _) Hparse) as Hloop.
  match type of Hloop with _ = ?r => change (read_startup c0 = r) in Hloop end. rewrite (bind_ok _ _ _ _ _ Hloop).
  unfold is_cancel. cbn [SqlServer.code SqlServer.params]. change (Z.eqb PROTOCOL_VERSION_3 CANCEL_REQUEST_CODE) with false. cbn [app].
  destruct (password_roundtrip handle p rest (broken (rd c)) Hpw Hlp) as (payload & Hr & Hparsepw).
  assert (∀ out, request_handle (speaking c (p ++ rest)%list out) = (Ok handle,
    speaking c rest (out ++ request)%list)) as Hreq.
  { intros out. unfold request_handle. rewrite Hrequest, (bind_ok _ _ _ _ _ (lift_ok _ _)).
    rewrite (bind_ok _ _ _ _ _ (speaking_send _ _ _ _ Hc)).
    rewrite (bind_ok _ _ _ _ _ (speaking_read _ _ _ _ _ _ Hr)). cbn [fst snd]. by rewrite bool_decide_eq_true_2, Hparsepw by done. }
  by rewrite (bind_ok _ _ _ _ _ (Hreq _)).
Qed.

(** ** [PostgresBackend] *)

(** What a [read] of a pipe gives: a chunk, empty at the end of the stream, or
    an exception. *)
Inductive pipe_read := Chunk (b : octets) | ReadFails (e : exn).

Inductive relay_event :=
  | FromKernel (r : pipe_read)
  | FromDatabase (r : pipe_read)
  | Recheck
  | Passes (d : Z).

Record pg := {
  kernel : conn; upstream : net; cancels : option registry; revoked : bool;
  schedule : list relay_event; bound : option SqlBinding; salt : octets }.

Definition set_kernel c (s : pg) : pg :=
  {| kernel := c; upstream := upstream s; cancels := cancels s; revoked := revoked s;
     schedule := schedule s; bound := bound s; salt := salt s |}.
Definition set_upstream n (s : pg) : pg :=
  {| kernel := kernel s; upstream := n; cancels := cancels s; revoked := revoked s;
     schedule := schedule s; bound := bound s; salt := salt s |}.
Definition set_cancels r (s : pg) : pg :=
  {| kernel := kernel s; upstream := upstream s; cancels := r; revoked := revoked s;
     schedule := schedule s; bound := bound s; salt := salt s |}.
Definition revoke (s : pg) : pg :=
  {| kernel := kernel s; upstream := upstream s; cancels := cancels s; revoked := true;
     schedule := schedule s; bound := bound s; salt := salt s |}.
Definition on_kernel {A} (m : M conn A) : M pg A := zoom kernel set_kernel m.
Definition on_net {A} (m : M net A) : M pg A := zoom upstream set_upstream m.

(** [PostgresBackend(binding, ...)] *)
Definition backend_factory (b : SqlBinding) (s : pg) : pg :=
  {| kernel := kernel s;
     upstream := {| dials := dials (upstream s); past := (past (upstream s) ++ option_list (up (upstream s)))%list;
                    acts := acts (upstream s); up := None; startup_ps := []; backend_key := None |};
     cancels := cancels s; revoked := false; schedule := schedule s; bound := Some b; salt := salt s |}.

(** *** The pipes *)

(** What [_pipe] catches. *)
Definition pipe_ends (e : exn) : bool :=
  match e with ConnectionError | UpstreamAuthRejected | IncompleteReadError => true | _ => false end.

(** One round of [_pipe], on its writer: whether it goes on. *)
Definition pipe_step (r : pipe_read) : M conn bool :=
  match r with
  | Chunk [] => _ ← shut_conn; mret false
  | Chunk b =>
      catch (_ ← send b; mret true)
            (λ e, _ ← shut_conn; if pipe_ends e then mret false else raise e)
  | ReadFails e => _ ← shut_conn; if pipe_ends e then mret false else raise e
  end.

Section server.
Context `{J : JsonCodec} `{I : IsoCodec}.
Context (trim : nat → nat) (sha256_hex : text → string) (py_repr : json → string).
Context (sha256 : octets → octets) (int_of : text → option Z) (cfg : UpstreamConfig).

Definition pg_connect : M pg unit :=
  b ← gets bound; b ← lift (or_raise AttributeError b);
  s ← gets salt; on_net (connect sha256 int_of cfg (company_id b) s).

Definition pg_execute (sql : text) : M pg unit := on_net (execute sql).

Definition pg_close : M pg unit :=
  _ ← on_net close;
  on_kernel (modify (λ c, if closing c then c else shut c)).

(** *** [relay], up to the pipes: the pid a cancel key was issued under *)
Definition issue_key : M pg (option Z) := λ s,
  match cancels s, backend_key (upstream s) with
  | Some reg, Some k =>
      let '((pid, key), reg') := register k reg in
      match build_backend_key_data pid key with
      | Ok m => (Ok (Some pid), set_kernel (put m (kernel s)) (set_cancels (Some reg') s))
      | Err e => (Err e, set_cancels (Some reg') s)
      end
  | _, _ => (Ok None, s)
  end.

Definition complete_handshake : M pg (option Z) :=
  ok ← lift build_authentication_ok;
  _ ← on_kernel (write ok);
  ps ← gets (λ s, startup_ps (upstream s));
  _ ← on_kernel (modify (λ c, match ps with [] => c | _ => put ps c end));
  pid ← issue_key;
  ready ← lift (build_ready_for_query TXN_IDLE);
  _ ← on_kernel (write ready);
  _ ← on_kernel drain;
  mret pid.

Definition release_key (pid : option Z) : M pg unit := modify (λ s,
  match pid with
  | Some p => set_cancels (unregister p <$> cancels s) s
  | None => s
  end).

(** *** [gather] of the pipes, with the watchdog

    [to_db], [to_kernel]: the pipe still runs; [watching]: the watchdog does.
    The lookup of a re-check and its effect are one step.  An exception of a
    pipe ends the relay. *)
Definition close_all : M pg unit := _ ← modify revoke; pg_close.

Fixpoint relay_loop (recheck : M (pworld pg) bool) (es : list relay_event)
  (to_db to_kernel watching : bool) : M (pworld pg) unit :=
  if negb (to_db || to_kernel) then mret tt
  else
    match es with
    | [] =>
        _ ← (if to_db then in_backend (on_net (on_conn shut_conn)) else mret tt);
        if to_kernel then in_backend (on_kernel shut_conn) else mret tt
    | FromKernel r :: es =>
        if to_db
        then go ← in_backend (on_net (on_conn (pipe_step r))); relay_loop recheck es go to_kernel watching
        else relay_loop recheck es to_db to_kernel watching
    | FromDatabase r :: es =>
        if to_kernel
        then go ← in_backend (on_kernel (pipe_step r)); relay_loop recheck es to_db go watching
        else relay_loop recheck es to_db to_kernel watching
    | Recheck :: es =>
        if watching
        then ok ← catch recheck (λ _, mret false);
             if ok : bool then relay_loop recheck es to_db to_kernel true
             else _ ← in_backend close_all; relay_loop recheck es to_db to_kernel false
        else relay_loop recheck es to_db to_kernel watching
    | Passes d :: es => _ ← modify (pass_time d); relay_loop recheck es to_db to_kernel watching
    end.

Definition relay (recheck : M (pworld pg) bool) : M (pworld pg) unit :=
  pid ← in_backend complete_handshake;
  es ← gets (λ w, schedule (backend w));
  finally (relay_loop recheck es true true true) (in_backend (release_key pid)).

Lemma in_backend_respects {A} (R : pworld pg → pworld pg → Prop) (m : M pg A) :
  (∀ b w, R w (set_backend b w)) → respects R (in_backend m).
Proof. intros H w. unfold final, in_backend, zoom. destruct (m (backend w)) as [r b]. apply H. Qed.

(** What the relay does to a connection: the pipes, and while the watchdog
    runs the re-check and the closing. *)
Lemma relay_loop_respects R `{!PreOrder R} recheck es to_db to_kernel watching :
  (∀ d w, R w (pass_time d w)) →
  (∀ r, respects R (in_backend (on_net (on_conn (pipe_step r))))) →
  (∀ r, respects R (in_backend (on_kernel (pipe_step r)))) →
  respects R (in_backend (on_net (on_conn shut_conn))) → respects R (in_backend (on_kernel shut_conn)) →
  (watching = true → respects R recheck ∧ respects R (in_backend close_all)) →
  respects R (relay_loop recheck es to_db to_kernel watching).
Proof.
  intros Ht Hd Hk Hds Hks. revert to_db to_kernel watching.
  induction es as [|e es IH]; intros to_db to_kernel watching Hw; cbn [relay_loop].
  { respecting ltac:(first [apply Hds | apply Hks]). }
  assert (∀ a b, respects R (relay_loop recheck es a b false)) as IH0 by (intros; by apply IH).
  destruct watching; [destruct (Hw eq_refl) as [Hr Hc]|];
    respecting ltac:(first [apply Hd | apply Hk | apply IH0 | apply IH; assumption | apply Hr | apply Hc
      | apply respects_modify; intros; apply Ht]).
Qed.

(** [PostgresBackend] is a backend: its relay reaches the connection only
    through the re-check. *)
#[export] Instance postgres_backend : Backend pg.
Proof.
  refine {| b_connect := pg_connect; b_execute := pg_execute; b_relay := relay; b_close := pg_close |}.
  intros R recheck HR Hb Ht Hr.
  assert (∀ A (m : M pg A), respects R (in_backend m)) as Hin by (intros A m; by apply in_backend_respects).
  unfold relay. respecting ltac:(first [apply Hin | apply relay_loop_respects; intros; first [done | apply Hin | apply Ht]]).
Defined.

(** ** [handle_client] *)

Context (format_seconds : Z → text).

(** A cancel request: forwarded if it can be, whatever becomes of it. *)
Definition handle_cancel (pid key : Z) : M pg unit := λ s,
  match cancels s with
  | Some reg => suppress (_ ← on_net (cancel cfg reg pid key); mret tt) s
  | None => (Ok tt, s)
  end.

Definition greet : M pg (option text) :=
  catch (s ← on_kernel read_startup;
         if is_cancel s
         then pk ← lift (parse_cancel_request (body s));
              _ ← handle_cancel pk.1 pk.2;
              _ ← on_kernel shut_conn;
              mret None
         else h ← on_kernel request_handle; mret (Some h))
        (λ e, if bool_decide (e ∈ [IncompleteReadError; ProtocolError])
              then _ ← on_kernel shut_conn; mret None
              else raise e).

Definition handle_client (source : option string) : M (pworld pg) unit :=
  h ← in_backend greet;
  match h with
  | None => mret tt
  | Some handle =>
      served ← serve_connection trim sha256_hex py_repr backend_factory format_seconds handle source;
      if served : bool then mret tt
      else in_backend (on_kernel (reject_client (t_of "capability handle refused")))
  end.

(** ** Revocation *)

(** What was written to a socket. *)
Definition outs (c : conn) : octets * octets := (clear_out c, tls_out c).

(** [c'] is [c] after writes of [b] in all: a transport that is closing takes
    them only while it still holds bytes it has not sent. *)
Definition said (b : octets) (c c' : conn) : Prop :=
  closing c' = closing c ∧ unsent c' = unsent c ∧ tls c' = tls c ∧ outs c' = outs (with_out (if unsent c then b else []) c).

Lemma outs_with_nil c : outs (with_out [] c) = outs c.
Proof. unfold outs, with_out. cbn. by destruct (tls c); rewrite app_nil_r. Qed.
Lemma said_nil c : said [] c c.
Proof. unfold said. replace (if unsent c then [] else []) with (@nil byte) by by destruct (unsent c). by rewrite outs_with_nil. Qed.
Lemma said_trans b1 b2 c1 c2 c3 : said b1 c1 c2 → said b2 c2 c3 → said (b1 ++ b2) c1 c3.
Proof.
  intros (H1 & H2 & H3 & H4) (G1 & G2 & G3 & G4). unfold said. split_and!; [congruence..|]. rewrite G4, H2. clear G4.
  unfold outs, with_out in *. cbn in *. rewrite H3. injection H4 as -> ->. destruct (unsent c1), (tls c1); by rewrite ?app_assoc, ?app_nil_r.
Qed.

Lemma shut_said c : closing c = true → said [] c (shut c).
Proof. intros H. destruct (said_nil c) as (_ & _ & _ & E). by split_and!. Qed.

(** The bytes of a read. *)
Definition chunk (r : pipe_read) : octets := match r with Chunk b => b | ReadFails _ => [] end.

Lemma pipe_said r c : closing c = true → said (chunk r) c (final (pipe_step r) c).
Proof.
  intros Hc. assert (∀ b, said b c (put b c)) as Hput.
  { intros b. destruct (said_nil c) as (_ & _ & _ & E). unfold said, put. rewrite Hc. destruct (unsent c) eqn:Eu; cbn; by split_and!. }
  assert (∀ c' d, said (chunk r) c c' → said (chunk r) c (with_drains d c')) as Hd by (intros c' d (? & ? & ? & ?); by split_and!).
  assert (∀ c', said (chunk r) c c' → said (chunk r) c (shut c')) as Hs.
  { intros c' (? & ? & ? & ?). by split_and!. }
  destruct r as [[|x b]|e]; [by apply shut_said| |].
  - specialize (Hput (x :: b)). unfold pipe_step, catch, send, write, mbind, M_bind, modify, drain, final.
    destruct (drains (put (x :: b) c)) as [|[e|] d]; cbn [fst snd]; [done | | by apply Hd].
    destruct (pipe_ends e); cbn; by apply Hs, Hd.
  - unfold final, pipe_step. destruct (pipe_ends e); by apply shut_said.
Qed.

(** What the schedule has the peers send. *)
Fixpoint from_kernel (es : list relay_event) : octets :=
  match es with [] => [] | FromKernel r :: es => (chunk r ++ from_kernel es)%list | _ :: es => from_kernel es end.
Fixpoint from_database (es : list relay_event) : octets :=
  match es with [] => [] | FromDatabase r :: es => (chunk r ++ from_database es)%list | _ :: es => from_database es end.

(** Both sides are closed, and have said no more than [x] to the database and
    [y] to the kernel. *)
Definition both_closing (s : pg) : Prop := closing (kernel s) = true ∧ ∀ c, up (upstream s) = Some c → closing c = true.
Definition spoke (x y : octets) (s s' : pg) : Prop :=
  revoked s' = revoked s ∧ said y (kernel s) (kernel s') ∧
  ∀ c, up (upstream s) = Some c → ∃ c', up (upstream s') = Some c' ∧ said x c c'.

Lemma spoke_nil s : spoke [] [] s s.
Proof. split_and!; [done | apply said_nil |]. intros c Hc. exists c. split; [done | apply said_nil]. Qed.
Lemma spoke_trans x1 y1 x2 y2 s1 s2 s3 : spoke x1 y1 s1 s2 → spoke x2 y2 s2 s3 → spoke (x1 ++ x2) (y1 ++ y2) s1 s3.
Proof.
  intros (E1 & K1 & U1) (E2 & K2 & U2). split_and!; [congruence | by eapply said_trans |].
  intros c Hc. destruct (U1 c Hc) as (c' & Hc' & M1). destruct (U2 c' Hc') as (c'' & Hc'' & M2).
  exists c''. split; [done | by eapply said_trans].
Qed.
Lemma spoke_closing x y s s' : up (upstream s) = None ∧ up (upstream s') = None ∨ is_Some (up (upstream s)) →
  spoke x y s s' → both_closing s → both_closing s'.
Proof.
  intros Hup (_ & (K & _) & U) [Hk Hu]. split; [congruence|]. intros c' Hc'. destruct Hup as [[_ ?]|[c Hc]]; [congruence|].
  destruct (U c Hc) as (c2 & Hc2 & (E & _)). assert (c2 = c') as -> by congruence. rewrite E. by apply Hu.
Qed.

(** A step on either socket. *)
Lemma upstream_spoke {A} (m : M conn A) b s :
  (∀ c, closing c = true → said b c (final m c)) → both_closing s →
  spoke b [] s (final (on_net (on_conn m)) s) ∧ both_closing (final (on_net (on_conn m)) s).
Proof.
  intros Hm Hb. assert (spoke b [] s (final (on_net (on_conn m)) s)) as H.
  { unfold final, on_net, zoom, on_conn. destruct (up (upstream s)) as [c|] eqn:E; [|split_and!; [done | apply said_nil | congruence]].
    pose proof (Hm c (proj2 Hb c E)) as H. unfold final in H. destruct (m c) as [r c'].
    split_and!; [done | apply said_nil |]. intros x Hx. exists c'. split; [done|]. by replace x with c by congruence. }
  split; [done|]. eapply spoke_closing; [|exact H | exact Hb].
  destruct (up (upstream s)) as [c|] eqn:E; [right; by eexists | left]. split; [done|].
  unfold final, on_net, zoom, on_conn. by rewrite E.
Qed.
Lemma kernel_spoke {A} (m : M conn A) b s :
  (∀ c, closing c = true → said b c (final m c)) → both_closing s →
  spoke [] b s (final (on_kernel m) s) ∧ both_closing (final (on_kernel m) s).
Proof.
  intros Hm [Hk Hu]. pose proof (Hm _ Hk) as H. unfold final, on_kernel, zoom in *. destruct (m (kernel s)) as [r c].
  split; [|split; [destruct H as (E & _); cbn in *; congruence | done]]. split_and!; [done | done |].
  intros c' Hc'. exists c'. split; [done | apply said_nil].
Qed.

(** After the closing the pipes say no more than was read. *)
Lemma unwatched_spoke recheck es : ∀ to_db to_kernel w, both_closing (backend w) →
  ∃ x y, x `prefix_of` from_kernel es ∧ y `prefix_of` from_database es ∧ (to_db = false → x = []) ∧ (to_kernel = false → y = []) ∧
    spoke x y (backend w) (backend (final (relay_loop recheck es to_db to_kernel false) w)).
Proof.
  assert (∀ l : octets, [] `prefix_of` l) as Hnil by apply prefix_nil.
  assert (∀ (l1 l2 l : octets), l1 `prefix_of` l2 → (l ++ l1)%list `prefix_of` (l ++ l2)%list) as Happ by (intros l1 l2 l; apply prefix_app).
  induction es as [|e es IH]; intros to_db to_kernel w Hb; cbn [relay_loop];
    (destruct (negb (to_db || to_kernel)) eqn:Hrun; [exists [], []; split_and!; [done..|apply spoke_nil]|]).
  { exists [], []. split_and!; [done..|].
    assert (∀ w1, both_closing (backend w1) → spoke [] [] (backend w1) (backend
      (final (if to_kernel then in_backend (on_kernel shut_conn) else mret tt) w1))) as Hk.
    { intros w1 Hb1. destruct to_kernel; [|apply spoke_nil].
      pose proof (kernel_spoke shut_conn [] (backend w1) shut_said Hb1) as [H2 _]. unfold final, in_backend, zoom in *.
      by destruct (on_kernel shut_conn (backend w1)). }
    destruct to_db; [|exact (Hk w Hb)].
    pose proof (upstream_spoke shut_conn [] (backend w) shut_said Hb) as [H1 H1']. unfold final in *.
    unfold mbind, M_bind. unfold in_backend at 1. unfold zoom at 1.
    destruct (on_net (on_conn shut_conn) (backend w)) as [[[]|e] s1]; cbn [snd] in *; [|done].
    apply (spoke_trans [] [] [] [] _ s1); [done|]. apply (Hk (set_backend s1 w)). exact H1'. }
  destruct e as [r|r| |d]; cbn [from_kernel from_database].
  - destruct to_db.
    + pose proof (upstream_spoke (pipe_step r) (chunk r) (backend w) (pipe_said r) Hb) as [H1 H1'].
      unfold final, in_backend, zoom in *. unfold mbind, M_bind.
      destruct (on_net (on_conn (pipe_step r)) (backend w)) as [[go|e] s1]; cbn [snd] in *.
      * destruct (IH go to_kernel (set_backend s1 w) H1') as (x & y & Hx & Hy & Hx0 & Hy0 & Hs).
        exists (chunk r ++ x)%list, y. split_and!; [by apply Happ | done | done | done |]. by apply (spoke_trans _ [] _ _ _ s1).
      * exists (chunk r), []. split_and!; [apply prefix_app_r; done | done | done | done | done].
    + destruct (IH false to_kernel w Hb) as (x & y & Hx & Hy & Hx0 & Hy0 & Hs). exists x, y.
      rewrite Hx0 in * by done. split_and!; done.
  - destruct to_kernel.
    + pose proof (kernel_spoke (pipe_step r) (chunk r) (backend w) (pipe_said r) Hb) as [H1 H1'].
      unfold final, in_backend, zoom in *. unfold mbind, M_bind.
      destruct (on_kernel (pipe_step r) (backend w)) as [[go|e] s1]; cbn [snd] in *.
      * destruct (IH to_db go (set_backend s1 w) H1') as (x & y & Hx & Hy & Hx0 & Hy0 & Hs).
        exists x, (chunk r ++ y)%list. split_and!; [done | by apply Happ | done | done |]. by apply (spoke_trans [] _ _ _ _ s1).
      * exists [], (chunk r). split_and!; [done | apply prefix_app_r; done | done | done | done].
    + destruct (IH to_db false w Hb) as (x & y & Hx & Hy & Hx0 & Hy0 & Hs). exists x, y.
      rewrite Hy0 in * by done. split_and!; done.
  - by apply IH.
  - exact (IH to_db to_kernel (pass_time d w) Hb).
Qed.

(** The re-check says yes only when the handle still resolves to the binding
    the session was opened for; it leaves the backend alone. *)
Lemma still_authorized_true handle b (w w' : pworld pg) :
  still_authorized py_repr handle b w = (Ok true, w') →
  ∃ reason f, outcome (resolve_sql_outcome py_repr handle) (cap w) = Ok (Some b, reason, f).
Proof.
  unfold still_authorized, catch, in_cap, zoom, mbind, M_bind, outcome, modify.
  destruct (resolve_sql_outcome py_repr handle (cap w)) as [[[[cur refusal] f]|e] c]; [|done].
  case_bool_decide as H; [|done]. subst. intros _. by exists refusal, f.
Qed.

Lemma still_authorized_backend handle b (w : pworld pg) : backend (final (still_authorized py_repr handle b) w) = backend w.
Proof.
  unfold still_authorized, catch, in_cap, zoom, mbind, M_bind, final, modify.
  destruct (resolve_sql_outcome py_repr handle (cap w)) as [[[[cur refusal] f]|e] c]; [|done].
  by case_bool_decide.
Qed.

(** What [close] writes to the database: nothing if it was closing. *)
Definition farewell (c : conn) : conn :=
  if closing c then c else shut (put (MSG_TERMINATE :: be_bytes 4 4) c).

Lemma close_all_final s :
  revoked (final close_all s) = true ∧ closing (kernel (final close_all s)) = true ∧
  outs (kernel (final close_all s)) = outs (kernel s) ∧
  unsent (kernel (final close_all s)) = unsent (kernel s) ∧ tls (kernel (final close_all s)) = tls (kernel s) ∧
  up (upstream (final close_all s)) = farewell <$> up (upstream s).
Proof.
  unfold close_all, pg_close, close, on_net, on_kernel, zoom, mbind, M_bind, modify, final, farewell.
  cbn [fst snd upstream revoke set_upstream kernel set_kernel revoked].
  destruct (closing (kernel s)) eqn:E; (split_and!; [done | done | done | done | done |]);
    destruct (up (upstream s)) as [c|] eqn:U; cbn; try done; destruct (closing c); by rewrite ?U.
Qed.

Lemma farewell_closing c : closing (farewell c) = true.
Proof. unfold farewell. by destruct (closing c) eqn:E. Qed.

(** C23: A revoked handle ends the session it opened: from the first re-check
    for which the store no longer gives the binding - the entry gone, re-bound
    or suspended, or the store unable to answer - both sockets are closed, and a
    socket whose transport has sent all it was given carries nothing more to the
    kernel, and to the database only the Terminate of the closing, whatever
    either peer still sends.  A transport that still holds unsent bytes when it
    is closed takes, as asyncio's does, what the pipe goes on reading, and no
    more than that. *)
Theorem revoked_session_forwards_nothing handle b es to_db to_kernel (w : pworld pg)
    (Hrun : to_db || to_kernel = true)
    (Hno : ∀ reason f, outcome (resolve_sql_outcome py_repr handle) (cap w) ≠ Ok (Some b, reason, f)) :
  let k := kernel (backend w) in
  let s' := backend (final (relay_loop (still_authorized py_repr handle b) (Recheck :: es) to_db to_kernel true) w) in
  revoked s' = true ∧ closing (kernel s') = true ∧
  (unsent k = false → outs (kernel s') = outs k) ∧
  (∃ late, late `prefix_of` from_database es ∧ outs (kernel s') = outs (with_out (if unsent k then late else []) k)) ∧
  ∀ c, up (upstream (backend w)) = Some c → ∃ c', up (upstream s') = Some c' ∧ closing c' = true ∧
    (unsent c = false → outs c' = outs (farewell c)) ∧
    ∃ late, late `prefix_of` from_kernel es ∧ outs c' = outs (with_out (if unsent c then late else []) (farewell c)).
Proof.
  cbv zeta. pose proof (still_authorized_backend handle b w) as Hb.
  pose proof (still_authorized_true handle b w) as Ht. unfold final in Hb.
  set (recheck := still_authorized py_repr handle b) in *.
  assert (∃ w1, backend w1 = backend w ∧ relay_loop recheck (Recheck :: es) to_db to_kernel true w =
    (_ ← in_backend close_all; relay_loop recheck es to_db to_kernel false) w1) as (w1 & E & Hloop).
  { cbn [relay_loop]. rewrite Hrun. cbn [negb]. unfold mbind at 1, M_bind at 1, catch. cbv beta.
    destruct (recheck w) as [[[]|e] w1]; cbn [snd] in Hb; [|by exists w1..].
    destruct (Ht _ eq_refl) as (reason & f & E). by apply Hno in E. }
  unfold final at 1 2 3 4 5. rewrite Hloop. unfold mbind, M_bind, in_backend, zoom. rewrite E.
  pose proof (close_all_final (backend w)) as (C1 & C2 & C3 & C4 & C5 & C6). unfold final in C1, C2, C3, C4, C5, C6.
  assert (∃ s2, close_all (backend w) = (Ok tt, s2)) as [s2 Es] by (by eexists). rewrite Es in C1, C2, C3, C4, C5, C6. rewrite Es. cbn [snd] in *.
  destruct (unwatched_spoke recheck es to_db to_kernel (set_backend s2 w1)) as (x & y & Hx & Hy & _ & _ & M1 & M2 & M3).
  { split; [done|]. cbn. rewrite C6. intros c (c0 & _ & ->)%fmap_Some. apply farewell_closing. }
  unfold final in *. destruct (relay_loop recheck es to_db to_kernel false (set_backend s2 w1)) as [r w3]. cbn [snd backend set_backend] in *.
  assert (∀ c c0 z, unsent c = unsent c0 → tls c = tls c0 → outs c = outs c0 →
    outs (with_out (if unsent c then z else []) c) = outs (with_out (if unsent c0 then z else []) c0)) as Hsame.
  { intros c c0 z -> Et [= Eo1 Eo2]. unfold outs, with_out. cbn. by rewrite Et, Eo1, Eo2. }
  destruct M2 as (K1 & K2 & K3 & K4). rewrite (Hsame _ _ y C4 C5 C3) in K4.
  split; [congruence|]. split; [congruence|]. split; [intros Hn; rewrite K4, Hn; apply outs_with_nil|]. split; [by exists y|].
  intros c Hc. rewrite Hc in C6. destruct (M3 _ C6) as (c' & Hc' & D1 & D2 & D3 & D4). exists c'. split; [exact Hc'|].
  split; [rewrite D1; apply farewell_closing|]. assert (unsent (farewell c) = unsent c) as Ef.
  { unfold farewell, put. destruct (closing c); [done|]. cbn. by destruct (unsent c). }
  rewrite Ef in D4. split; [intros Hn; rewrite D4, Hn; apply outs_with_nil | by exists x].
Qed.

(** ** What crosses the network in the clear *)

Abbreviation pg_sealed := (λ s : pg, net_sealed (upstream s)).
Abbreviation world_sealed := (λ w : pworld pg, net_sealed (upstream (backend w))).

Lemma on_net_sealed {A} (m : M net A) : keeps net_sealed m → keeps pg_sealed (on_net m).
Proof. apply (respects_zoom _ _ _ (λ n n', net_sealed n → net_sealed n')). by intros s n. Qed.

Lemma on_kernel_sealed {A} (m : M conn A) : keeps pg_sealed (on_kernel m).
Proof. intros s H. unfold final, on_kernel, zoom. by destruct (m (kernel s)). Qed.

Lemma in_backend_sealed {A} (m : M pg A) : keeps pg_sealed m → keeps world_sealed (in_backend m).
Proof. apply (respects_zoom _ _ _ (λ s s', pg_sealed s → pg_sealed s')). by intros w s. Qed.

Lemma in_cap_sealed {A} (m : M cap_store A) : keeps world_sealed (in_cap m).
Proof. intros w H. unfold final, in_cap, zoom. by destruct (m (cap w)). Qed.

Lemma shut_sealed : keeps sealed_up shut_conn.
Proof. apply respects_modify. by intros c [H1 H2]. Qed.

Lemma pipe_sealed r : keeps sealed_up (pipe_step r).
Proof. unfold pipe_step. respecting ltac:(first [apply shut_sealed | apply send_sealed]). Qed.

Lemma pg_close_sealed : keeps pg_sealed pg_close.
Proof. unfold pg_close. respecting ltac:(first [apply on_net_sealed, close_sealed | apply on_kernel_sealed]). Qed.

Lemma relay_sealed handle b : keeps world_sealed (relay (still_authorized py_repr handle b)).
Proof.
  assert (keeps pg_sealed complete_handshake) as Hh.
  { unfold complete_handshake. respecting ltac:(apply on_kernel_sealed).
    intros s Hs. unfold final, issue_key. destruct (cancels s) as [reg|]; [|done].
    destruct (backend_key (upstream s)) as [k|]; [|done]. destruct (register k reg) as [[pid key] reg'].
    by destruct (build_backend_key_data pid key). }
  assert (∀ r, keeps pg_sealed (on_net (on_conn (pipe_step r)))) as Hp
    by (intros r; apply on_net_sealed, on_conn_sealed, pipe_sealed).
  unfold relay. respecting ltac:(first [apply in_backend_sealed, Hh | apply relay_loop_respects; [apply _ | ..]]).
  - done.
  - intros r. apply in_backend_sealed, Hp.
  - intros r. apply in_backend_sealed, on_kernel_sealed.
  - apply in_backend_sealed, on_net_sealed, on_conn_sealed, shut_sealed.
  - apply in_backend_sealed, on_kernel_sealed.
  - intros _. split.
    + apply recheck_respects; [apply _ | done | intros; apply in_cap_sealed].
    + apply in_backend_sealed. unfold close_all. respecting ltac:(first [apply pg_close_sealed | by apply respects_modify]).
  - apply in_backend_sealed. apply respects_modify. intros s Hs. by destruct (_ : option Z).
Qed.

Lemma handle_cancel_sealed pid key : ssl_context cfg ≠ None → require_tls cfg = true →
  keeps pg_sealed (handle_cancel pid key).
Proof.
  intros Hc Ht s. unfold handle_cancel, final. destruct (cancels s) as [reg|]; [|done].
  assert (keeps pg_sealed (suppress (_ ← on_net (cancel cfg reg pid key); mret tt))) as H; [|apply H].
  unfold suppress. respecting ltac:(by apply on_net_sealed, cancel_sealed).
Qed.

(** C25: Nothing but the request for TLS crosses to the database in the clear:
    with TLS required, whatever the kernel, the database, the capability store
    and the network do, once a kernel's connection has been handled every
    socket opened to the database - the tenant's, the enrolment principal's
    and a cancel's, those that failed included - carried in clear no more than
    the SSLRequest, and the one still held is encrypted. *)
Theorem only_tls_request_in_clear source (w : pworld pg)
    (Hctx : ssl_context cfg ≠ None) (Htls : require_tls cfg = true)
    (Hw : net_sealed (upstream (backend w))) :
  net_sealed (upstream (backend (final (handle_client source) w))).
Proof.
  revert w Hw. assert (keeps pg_sealed greet) as Hgreet.
  { unfold greet. respecting ltac:(first [apply on_kernel_sealed | apply handle_cancel_sealed; assumption]). }
  assert (∀ handle, keeps world_sealed
    (serve_connection trim sha256_hex py_repr backend_factory format_seconds handle source)) as Hserve.
  { intros handle. apply serve_connection_respects; try apply _; intros; try done; try apply in_cap_sealed;
      try apply in_backend_sealed.
    - unfold b_connect; cbn. unfold pg_connect. respecting ltac:(by apply on_net_sealed, connect_sealed).
    - apply on_net_sealed, execute_sealed.
    - apply pg_close_sealed.
    - apply relay_sealed.
    - revert select (net_sealed _). intros (H1 & H2 & H3). split_and!; [done | | done]. cbn.
      apply Forall_app. split; [done|]. destruct (up (upstream (backend _))) as [c|] eqn:E; [|by apply Forall_nil_2].
      apply Forall_singleton. by apply H3. }
  assert (keeps world_sealed (handle_client source)) as H; [|exact H].
  unfold handle_client. respecting ltac:(first
    [ apply in_backend_sealed; first [exact Hgreet | apply on_kernel_sealed] | apply Hserve ]).
Qed.

(** ** Who gets a session *)

Definition same_sessions (s s' : pg) : Prop := acts (upstream s') = acts (upstream s).
#[local] Instance same_sessions_preorder : PreOrder same_sessions.
Proof. split; [by intros s|]. unfold same_sessions. intros s1 s2 s3 H1 H2. congruence. Qed.

Lemma on_kernel_sessions {A} (m : M conn A) : respects same_sessions (on_kernel m).
Proof. intros s. unfold final, on_kernel, zoom. by destruct (m (kernel s)). Qed.

Lemma handle_cancel_sessions pid key : respects same_sessions (handle_cancel pid key).
Proof.
  intros s. unfold handle_cancel, final. destruct (cancels s) as [reg|]; [|done].
  assert (respects same_sessions (suppress (_ ← on_net (cancel cfg reg pid key); mret tt))) as H; [|apply H].
  assert (respects same_acts (cancel cfg reg pid key)) as Hc.
  { unfold cancel. respecting ltac:(first [apply open_upstream_acts | by apply modify_acts]). }
  unfold suppress. respecting ltac:(apply (respects_zoom _ _ _ same_acts); [by intros ? ? | exact Hc]).
Qed.

Lemma greet_sessions : respects same_sessions greet.
Proof. unfold greet. respecting ltac:(first [apply on_kernel_sessions | apply handle_cancel_sessions]). Qed.

(** The steps of [handle_client], as one case analysis. *)
Lemma handle_client_eq source w :
  handle_client source w =
  match greet (backend w) with
  | (Err e, s1) => (Err e, set_backend s1 w)
  | (Ok None, s1) => (Ok tt, set_backend s1 w)
  | (Ok (Some handle), s1) =>
      match serve_connection trim sha256_hex py_repr backend_factory format_seconds handle source (set_backend s1 w) with
      | (Err e, w2) => (Err e, w2)
      | (Ok true, w2) => (Ok tt, w2)
      | (Ok false, w2) => in_backend (on_kernel (reject_client (t_of "capability handle refused"))) w2
      end
  end.
Proof.
  unfold handle_client, mbind, M_bind, in_backend at 1, zoom.
  destruct (greet (backend w)) as [[[handle|]|e] s1]; [|done..].
  by destruct (serve_connection _ _ _ _ _ _ _ _) as [[[]|e] w2].
Qed.

(** Between [w] and [w'] the kernel's handle was granted and opened. *)
Definition granted_session (w w' : pworld pg) : Prop :=
  ∃ handle b rs rest, outcome greet (backend w) = Ok (Some handle) ∧
    plog w' = (plog w ++ Opened b :: rest)%list ∧ grants py_repr handle b rs ∧
    (reads (cap w) ++ rs)%list `prefix_of` reads (cap w').

(** No handle, no session: handling a connection opens a session at the
    database - as the tenant's login or as the enrolment principal - only if
    the kernel presented a handle, the store granted a binding for it, and the
    backend was opened for that binding. *)
Theorem no_session_without_grant source (w : pworld pg) :
  let w' := final (handle_client source) w in
  acts (upstream (backend w')) = acts (upstream (backend w)) ∨ granted_session w w'.
Proof.
  cbv zeta. pose proof (greet_sessions (backend w)) as Hg. unfold final, same_sessions in *.
  assert (∀ w2 w3, acts (upstream (backend w3)) = acts (upstream (backend w2)) → plog w3 = plog w2 → cap w3 = cap w2 →
    acts (upstream (backend w2)) = acts (upstream (backend w)) ∨ granted_session w w2 →
    acts (upstream (backend w3)) = acts (upstream (backend w)) ∨ granted_session w w3) as Hsame.
  { intros w2 w3 Ea El Ec [H|H]; [left; congruence|]. right. unfold granted_session. by rewrite El, Ec. }
  rewrite handle_client_eq. destruct (greet (backend w)) as [[[handle|]|e] s1] eqn:Eg; cbn [fst snd] in *; [|by left..].
  pose proof (serve_connection_opens trim sha256_hex py_repr backend_factory format_seconds handle source
                (set_backend s1 w)) as Hs. cbv zeta in Hs. unfold final in Hs.
  assert (∀ w2 : pworld pg, (backend w2 = s1 ∧ plog w2 = plog w) ∨
    (∃ b rest rs, plog w2 = (plog w ++ Opened b :: rest)%list ∧ grants py_repr handle b rs ∧
      (reads (cap w) ++ rs)%list `prefix_of` reads (cap w2)) →
    acts (upstream (backend w2)) = acts (upstream (backend w)) ∨ granted_session w w2) as Hcase.
  { intros w2 [[Hb _]|(b & rest & rs & H)]; [left; by rewrite Hb | right]. exists handle, b, rs, rest.
    split; [unfold outcome; by rewrite Eg | exact H]. }
  destruct (serve_connection _ _ _ _ _ _ _ _) as [[[]|e] w2]; cbn [fst snd] in *; apply Hcase in Hs; [exact Hs | | exact Hs].
  revert Hs. apply Hsame; unfold in_backend, zoom; pose proof (on_kernel_sessions
    (reject_client (t_of "capability handle refused")) (backend w2)) as Hk; unfold final in Hk;
    by destruct (on_kernel _ (backend w2)).
Qed.
End server.

(** ** Concrete sessions *)

#[local] Existing Instance decoded_codec.
#[local] Existing Instance hex_iso.

Definition kernel_params : list (text * text) := [(t_of "user", t_of "kernel"); (t_of "database", t_of "industryflow")].
Definition kernel_startup : octets := default [] (res_opt (build_startup_message kernel_params)).
Definition kernel_password (h : string) : octets := default [] (res_opt (build_password_message (t_of h))).

(** A kernel that asks for encryption, then presents [h]. *)
Definition kernel_socket (h : string) (ds : list (option exn)) : conn :=
  {| rd := {| pending := (probe SSL_REQUEST_CODE ++ kernel_startup ++ kernel_password h)%list; broken := None |};
     in_tls := {| pending := []; broken := None |}; tls_fails := None; tls := false; clear_out := [];
     tls_out := []; closing := false; unsent := false; drains := ds; nonce := [] |}.

Definition sample_pg (h : string) (ds : list (option exn)) (es : list relay_event) : pg :=
  {| kernel := kernel_socket h ds;
     upstream := {| dials := [Ok (accepting (done_statement ++ done_statement ++ done_statement))];
                    past := []; acts := []; up := None; startup_ps := []; backend_key := None |};
     cancels := Some {| sessions := ∅; draws := [5; 77] |}; revoked := false; schedule := es;
     bound := None; salt := sample_salt |}.

Definition sample_world (h : string) (ds : list (option exn)) (l : list redis_step) (es : list relay_event) : pworld pg :=
  {| cap := sample_store l; ended_reason := None; ended_refusal := None; backend := sample_pg h ds es;
     monotonic := 0; plog := [] |}.

Definition serve (w : pworld pg) : res unit * pworld pg :=
  handle_client (λ n, n) (λ _, "d") sample_repr short_hash toy_int sample_config (λ _, []) None w.

Definition answers : redis_step := {| meanwhile := id; elapsed := 0; reply := Runs |}.
Definition revokes : redis_step := {| meanwhile := delete (entry_key (t_of "h1")); elapsed := 0; reply := Runs |}.

(** A session that is served: a query goes through, the handle is revoked
    before the re-check, and the query after it goes nowhere. *)
Definition served_session : pworld pg :=
  sample_world "h1" [] [answers; answers; answers; answers; revokes]
    [FromKernel (Chunk (ascii_octets "Q1")); Recheck; FromKernel (Chunk (ascii_octets "Q2"));
     FromDatabase (Chunk (ascii_octets "R"))].

Example serve_ex :
  let '(r, w) := serve served_session in
  r = Ok tt ∧ revoked (backend w) = true ∧ ended_reason w = Some "capability_revoked" ∧
  ended_refusal w = Some "no_entry" ∧ acts (upstream (backend w)) ≠ [] ∧
  (∃ c, up (upstream (backend w)) = Some c ∧
     drop (length (tls_out c) - 7) (tls_out c) = (ascii_octets "Q1" ++ MSG_TERMINATE :: be_bytes 4 4)%list) ∧
  sessions <$> cancels (backend w) = Some ∅.
Proof. vm_compute. split_and!; try reflexivity; [discriminate | eexists; split; reflexivity]. Qed.

(** A kernel that is gone when the handshake is completed leaves its cancel
    key in the registry: it was registered before the [try]. *)
Example leaked_key :
  let '(r, w) := serve (sample_world "h1" [None; None; Some ConnectionError] [] []) in
  r = Err ConnectionError ∧ closing (kernel (backend w)) = true ∧
  (sessions <$> cancels (backend w)) = Some {[ 5 := (77, (7, 9)) ]}.
Proof. vm_compute. split_and!; reflexivity. Qed.

(** A handle that is not UTF-8 raises out of [handle_client], the kernel's
    socket still open. *)
Example undecodable_handle :
  let w := sample_world "h1" [] [] [] in
  let k := with_rd {| pending := (kernel_startup ++ default [] (res_opt (build_message MSG_PASSWORD [xff; x00])))%list;
                      broken := None |} (kernel (backend w)) in
  let '(r, w') := serve (set_backend (set_kernel k (backend w)) w) in
  r = Err UnicodeDecodeError ∧ closing (kernel (backend w')) = false.
Proof. vm_compute. split; reflexivity. Qed.

Definition open_session : pworld pg :=
  let w := sample_world "h1" [] [revokes] [] in
  set_backend (set_upstream (set_up (Some (secured (accepting []))) (upstream (backend w))) (backend w)) w.
Definition sample_binding : SqlBinding :=
  {| user := t_of "ana"; company_id := sample_company; read_only := true; handle_id := None |}.

Lemma revoked_session_forwards_nothing_witness :
  let s' := backend (final (relay_loop (still_authorized sample_repr (t_of "h1") sample_binding)
    [Recheck; FromKernel (Chunk (ascii_octets "Q")); FromDatabase (Chunk (ascii_octets "R"))] true true true) open_session) in
  outcome (resolve_sql_outcome sample_repr (t_of "h1")) (cap open_session) = Ok (denied "no_entry" no_facts) ∧
  revoked s' = true ∧ outs (kernel s') = outs (kernel (backend open_session)).
Proof.
  assert (outcome (resolve_sql_outcome sample_repr (t_of "h1")) (cap open_session) = Ok (denied "no_entry" no_facts)) as Hout
    by (vm_compute; reflexivity).
  split; [exact Hout|].
  assert (∀ reason f, outcome (resolve_sql_outcome sample_repr (t_of "h1")) (cap open_session)
            ≠ Ok (Some sample_binding, reason, f)) as Hno by (intros r f; rewrite Hout; discriminate).
  destruct (revoked_session_forwards_nothing sample_repr (t_of "h1") sample_binding
    [FromKernel (Chunk (ascii_octets "Q")); FromDatabase (Chunk (ascii_octets "R"))] true true open_session
    eq_refl Hno) as (H1 & _ & H3 & _).
  split; [exact H1 | exact (H3 eq_refl)].
Defined.

(** With bytes still to send when they are closed, the sockets take what the
    pipes read after the failed re-check. *)
Definition congested (c : conn) : conn :=
  {| rd := rd c; in_tls := in_tls c; tls_fails := tls_fails c; tls := tls c; clear_out := clear_out c; tls_out := tls_out c;
     closing := closing c; unsent := true; drains := drains c; nonce := nonce c |}.
Definition congested_session : pworld pg :=
  let s := backend open_session in
  set_backend (set_upstream (set_up (congested <$> up (upstream s)) (upstream s)) s) open_session.
Example congested_session_forwards :
  let s' := backend (final (relay_loop (still_authorized sample_repr (t_of "h1") sample_binding)
    [Recheck; FromKernel (Chunk (ascii_octets "Q"))] true true true) congested_session) in
  revoked s' = true ∧ tls_out <$> up (upstream s') = Some (MSG_TERMINATE :: be_bytes 4 4 ++ ascii_octets "Q")%list.
Proof. vm_compute. done. Qed.

Lemma only_tls_request_in_clear_witness :
  ssl_context sample_config ≠ None ∧ require_tls sample_config = true ∧
  net_sealed (upstream (backend served_session)) ∧
  net_sealed (upstream (backend (final (handle_client (λ n, n) (λ _, "d") sample_repr short_hash toy_int
    sample_config (λ _, []) None) served_session))).
Proof.
  assert (ssl_context sample_config ≠ None) as H1 by discriminate.
  assert (net_sealed (upstream (backend served_session))) as H2.
  { split; [|split]; [repeat constructor | apply Forall_nil_2 | intros c; discriminate]. }
  split; [exact H1|]. split; [reflexivity|]. split; [exact H2|].
  exact (only_tls_request_in_clear (λ n, n) (λ _, "d") sample_repr short_hash toy_int sample_config (λ _, []) None
           served_session H1 eq_refl H2).
Defined.

Lemma handshake_roundtrip_witness :
  ∃ c request, build_authentication_cleartext_password = Ok request ∧
    authenticate_client (kernel_socket "h1" []) = (Ok (kernel_params, t_of "h1"), c) ∧
    clear_out c = (_DECLINE_SSL ++ request)%list.
Proof.
  pose (c0 := with_rd {| pending := []; broken := None |} (kernel_socket "h1" [])).
  assert (NoDup kernel_params.*1) as Hn by (apply (bool_decide_unpack _); vm_compute; exact Logic.I).
  assert (Forall encryption_code [SSL_REQUEST_CODE]) as Hp by (repeat constructor).
  assert (Z.of_nat (length kernel_startup) ≤ 2 ^ 20) as Hl by (vm_compute; discriminate).
  assert (Z.of_nat (length (kernel_password "h1")) ≤ 2 ^ 24) as Hlp by (vm_compute; discriminate).
  destruct (handshake_roundtrip [SSL_REQUEST_CODE] kernel_params kernel_startup (t_of "h1") (kernel_password "h1") [] c0
              Hp (conj eq_refl (conj eq_refl eq_refl)) eq_refl eq_refl Hn Hl eq_refl Hlp) as (request & Hr & H).
  exists (speaking c0 [] (_DECLINE_SSL ++ request)), request. split; [exact Hr|]. split; [exact H | reflexivity].
Defined.
