(* ===== verification/RedisProg.v ===== *)
(** * Concurrent requests over the shared store

    The gateway's processes share one Redis: a request is a program of Redis
    commands, each atomic, between which any other request's commands run.
    [prog] is such a program; [run] runs one alone, [step] interleaves any
    number of them, with replies that are lost, clocks that move and names
    that are drawn at random. *)

From stdpp Require Import base strings list gmap relations.
From Stdlib Require Import ZArith Lia.
From S2P Require Import Prelude PyText PyJson.

Local Open Scope Z_scope.

Section redis.
Context `{J : JsonCodec}.

(** ** The store: strings and sets of strings, each key with its expiry *)

Record rdb := { strs : gmap string (bytes * Z); groups : gmap string (gset string * Z) }.

Inductive write := WSet (k : string) (v : bytes) (ttl : Z) | WAdd (k m : string) | WExpire (k : string) (ttl : Z).

(** One command; [Multi]: a MULTI/EXEC of writes. *)
Inductive cmd :=
  | Get (k : string)
  | GetDel (k : string)
  | Multi (l : list write)
  | SRem (k : string) (ms : list string)
  | SMembers (k : string).

Inductive reply := RDone | RNil | RValue (v : bytes) | RMembers (l : list string) | RFail (e : exn).

(** What is read of a key at [now]: nothing once it has expired. *)
Definition kget (now : Z) (k : string) (db : rdb) : option bytes :=
  match strs db !! k with Some (v, exp) => if Z.ltb now exp then Some v else None | None => None end.
Definition kmembers (now : Z) (k : string) (db : rdb) : gset string :=
  match groups db !! k with Some (g, exp) => if Z.ltb now exp then g else ∅ | None => ∅ end.

Definition set_strs f (db : rdb) : rdb := {| strs := f (strs db); groups := groups db |}.
Definition set_groups f (db : rdb) : rdb := {| strs := strs db; groups := f (groups db) |}.

(** A key that is added to without an expiry never expires; [forever] is past
    every time. *)
Definition forever (now : Z) : Z := now + 2 ^ 64.
Definition seconds (n : Z) : Z := n * 1000000.

Definition do_write (now : Z) (w : write) (db : rdb) : rdb :=
  match w with
  | WSet k v ttl => set_strs <[k := (v, now + seconds ttl)]> db
  | WAdd k m =>
      let exp := match groups db !! k with
                 | Some (_, e) => if Z.ltb now e then e else forever now
                 | None => forever now
                 end in
      set_groups <[k := (kmembers now k db ∪ {[m]}, exp)]> db
  | WExpire k ttl => set_groups (alter (λ g, (g.1, now + seconds ttl)) k) db
  end.

Definition exec (now : Z) (c : cmd) (db : rdb) : reply * rdb :=
  match c with
  | Get k => (match kget now k db with Some v => RValue v | None => RNil end, db)
  | GetDel k => (match kget now k db with Some v => RValue v | None => RNil end, set_strs (delete k) db)
  | Multi l => (RDone, foldl (λ db w, do_write now w db) db l)
  | SRem k ms => (RDone, set_groups (alter (λ g, (g.1 ∖ list_to_set ms, g.2)) k) db)
  | SMembers k => (RMembers (elements (kmembers now k db)), db)
  end.

(** ** Programs *)

(** Questions to other systems: the user's account, a company's flag, and the
    revocation of a user's notebook capabilities, kept under keys of their
    own. *)
Record account := { acc_id : string; is_active : bool; hashed_password : string; acc_company : option string }.
Inductive query := AskUser (uid : string) | AskCompany (cid : string) | RevokeCapabilities (uid : string).
Inductive answer := AUser (a : option account) | AYes (b : bool) | AFail (e : exn).

Inductive prog (A : Type) :=
  | Ret (a : A)
  | Raise (e : exn)
  | Do (c : cmd) (k : reply → prog A)
  | Ask (q : query) (k : answer → prog A)
  | Clock (k : Z → prog A)
  | Sleep (d : Z) (k : prog A)
  | Draw (k : string → prog A).
#[global] Arguments Ret {A} a.
#[global] Arguments Raise {A} e.
#[global] Arguments Do {A} c k.
#[global] Arguments Ask {A} q k.
#[global] Arguments Clock {A} k.
#[global] Arguments Sleep {A} d k.
#[global] Arguments Draw {A} k.

#[export] Instance prog_ret : MRet prog := @Ret.
#[export] Instance prog_bind : MBind prog := fix bind {A B} (f : A → prog B) (p : prog A) : prog B :=
  match p with
  | Ret a => f a
  | Raise e => Raise e
  | Do c k => Do c (λ r, bind f (k r))
  | Ask q k => Ask q (λ a, bind f (k a))
  | Clock k => Clock (λ t, bind f (k t))
  | Sleep d k => Sleep d (bind f k)
  | Draw k => Draw (λ x, bind f (k x))
  end.

#[export] Instance prog_fmap : FMap prog := λ A B f p, p ≫= λ a, Ret (f a).

(** [try: p  except Exception: h] *)
Fixpoint guarded {A} (p : prog A) (h : exn → prog A) : prog A :=
  match p with
  | Ret a => Ret a
  | Raise e => h e
  | Do c k => Do c (λ r, guarded (k r) h)
  | Ask q k => Ask q (λ a, guarded (k a) h)
  | Clock k => Clock (λ t, guarded (k t) h)
  | Sleep d k => Sleep d (guarded k h)
  | Draw k => Draw (λ x, guarded (k x) h)
  end.

(** A command whose failure raises. *)
Definition call (c : cmd) : prog reply := Do c (λ r, match r with RFail e => Raise e | r => Ret r end).
Definition get (k : string) : prog (option bytes) :=
  r ← call (Get k); mret match r with RValue v => Some v | _ => None end.
Definition getdel (k : string) : prog (option bytes) :=
  r ← call (GetDel k); mret match r with RValue v => Some v | _ => None end.
Definition setex (k : string) (v : bytes) (ttl : Z) : prog unit := _ ← call (Multi [WSet k v ttl]); mret tt.
Definition srem (k : string) (ms : list string) : prog unit := _ ← call (SRem k ms); mret tt.
Definition smembers (k : string) : prog (list string) :=
  r ← call (SMembers k); mret match r with RMembers l => l | _ => [] end.
Definition clock : prog Z := Clock Ret.
Definition sleep (d : Z) : prog unit := Sleep d (Ret tt).
Definition draw : prog string := Draw Ret.
Definition lifted {A} (r : res A) : prog A := match r with Ok a => Ret a | Err e => Raise e end.

(** ** Running one program alone *)

(** [names]: what is drawn, in order; [oracle]: what the other systems answer. *)
Record env := { db : rdb; now : Z; names : list string; oracle : query → answer }.

Fixpoint run {A} (p : prog A) (e : env) : res A * env :=
  match p with
  | Ret a => (Ok a, e)
  | Raise x => (Err x, e)
  | Do c k => let '(r, d) := exec (now e) c (db e) in
              run (k r) {| db := d; now := now e; names := names e; oracle := oracle e |}
  | Ask q k => run (k (oracle e q)) e
  | Clock k => run (k (now e)) e
  | Sleep d k => run k {| db := db e; now := now e + d; names := names e; oracle := oracle e |}
  | Draw k => match names e with
              | [] => (Err OtherError, e)
              | x :: xs => run (k x) {| db := db e; now := now e; names := xs; oracle := oracle e |}
              end
  end.

Lemma run_bind {A B} (p : prog A) (f : A → prog B) e :
  run (p ≫= f) e = match run p e with (Ok a, e') => run (f a) e' | (Err x, e') => (Err x, e') end.
Proof.
  revert e. induction p as [a|x|c k IH|q k IH|k IH|d k IH|k IH]; intros e; cbn;
    [done | done | destruct (exec (now e) c (db e)) as [r d]; apply IH | apply IH | apply IH | apply IH |].
  destruct (names e); [done | apply IH].
Qed.

Lemma kget_set_eq t k v exp d : t < exp → kget t k (set_strs <[k := (v, exp)]> d) = Some v.
Proof. intros H. unfold kget. cbn. rewrite lookup_insert_eq. by destruct (Z.ltb_spec t exp); [|lia]. Qed.
Lemma kget_set_ne t k k' x d : k' ≠ k → kget t k (set_strs <[k' := x]> d) = kget t k d.
Proof. intros H. unfold kget. cbn. by rewrite lookup_insert_ne. Qed.
Lemma kget_del_eq t k d : kget t k (set_strs (delete k) d) = None.
Proof. unfold kget. cbn. by rewrite lookup_delete_eq. Qed.
Lemma kget_del_ne t k k' d : k' ≠ k → kget t k (set_strs (delete k') d) = kget t k d.
Proof. intros H. unfold kget. cbn. by rewrite lookup_delete_ne. Qed.
Lemma kget_groups t k f d : kget t k (set_groups f d) = kget t k d.
Proof. done. Qed.

(** What each command does to the environment. *)
Definition with_db (e : env) (d : rdb) : env := {| db := d; now := now e; names := names e; oracle := oracle e |}.
Definition later (t : Z) (e : env) : env := {| db := db e; now := now e + t; names := names e; oracle := oracle e |}.

Lemma run_get k e : run (get k) e = (Ok (kget (now e) k (db e)), e).
Proof. cbn. destruct (kget _ _ _); by destruct e. Qed.
Lemma run_getdel k e : run (getdel k) e = (Ok (kget (now e) k (db e)), with_db e (set_strs (delete k) (db e))).
Proof. cbn. by destruct (kget _ _ _). Qed.
Lemma run_setex k v ttl e :
  run (setex k v ttl) e = (Ok tt, with_db e (set_strs <[k := (v, now e + seconds ttl)]> (db e))).
Proof. done. Qed.
Lemma run_srem k ms e :
  run (srem k ms) e = (Ok tt, with_db e (set_groups (alter (λ g, (g.1 ∖ list_to_set ms, g.2)) k) (db e))).
Proof. done. Qed.
Lemma run_smembers k e : run (smembers k) e = (Ok (elements (kmembers (now e) k (db e))), e).
Proof. by destruct e. Qed.
Lemma run_clock e : run clock e = (Ok (now e), e).
Proof. done. Qed.
Lemma run_lifted {A} (r : res A) e : run (lifted r) e = (r, e).
Proof. by destruct r. Qed.
Lemma run_ret {A} (a : A) e : run (mret a) e = (Ok a, e).
Proof. done. Qed.
Lemma run_guarded {A} (p : prog A) h e a e' : run p e = (Ok a, e') → run (guarded p h) e = (Ok a, e').
Proof.
  revert e. induction p as [b|x|c k IH|q k IH|k IH|d k IH|k IH]; intros e; cbn;
    [done | done | destruct (exec (now e) c (db e)) as [r d]; apply IH | apply IH | apply IH | apply IH |].
  destruct (names e); [done | apply IH].
Qed.

(** ** Interleaving *)

(** A system of requests: the store, the clock, the names drawn so far, the
    requests in progress, and every value GETDEL handed out, by key. *)
Record sys (A : Type) := {
  store : rdb; time : Z; used : gset string; pool : gmap nat (prog A); taken : list string }.
#[global] Arguments store {A} s.
#[global] Arguments time {A} s.
#[global] Arguments used {A} s.
#[global] Arguments pool {A} s.
#[global] Arguments taken {A} s.

Section steps.
Context {A : Type} (arrives : prog A → Prop).

Definition resume (i : nat) (p : prog A) (s : sys A) : sys A :=
  {| store := store s; time := time s; used := used s; pool := <[i := p]> (pool s); taken := taken s |}.
Definition in_store (d : rdb) (s : sys A) : sys A :=
  {| store := d; time := time s; used := used s; pool := pool s; taken := taken s |}.

(** What a command's reply took out of the store. *)
Definition takes (c : cmd) (r : reply) : list string :=
  match c, r with GetDel k, RValue _ => [k] | _, _ => [] end.

Inductive step : sys A → sys A → Prop :=
  | step_arrive s i p : arrives p → pool s !! i = None → step s (resume i p s)
  | step_time s d : 0 ≤ d →
      step s {| store := store s; time := time s + d; used := used s; pool := pool s; taken := taken s |}
  | step_do s i c k r d : pool s !! i = Some (Do c k) → exec (time s) c (store s) = (r, d) →
      step s (resume i (k r) {| store := d; time := time s; used := used s; pool := pool s;
                                taken := (taken s ++ takes c r)%list |})
  | step_fails s i c k e : pool s !! i = Some (Do c k) → step s (resume i (k (RFail e)) s)
  | step_lost s i c k e r d : pool s !! i = Some (Do c k) → exec (time s) c (store s) = (r, d) →
      step s (resume i (k (RFail e)) (in_store d s))
  | step_ask s i q k a : pool s !! i = Some (Ask q k) → step s (resume i (k a) s)
  | step_clock s i k : pool s !! i = Some (Clock k) → step s (resume i (k (time s)) s)
  | step_sleep s i d k : pool s !! i = Some (Sleep d k) → step s (resume i k s)
  | step_draw s i k x : pool s !! i = Some (Draw k) → x ∉ used s → x ≠ ""%string →
      step s {| store := store s; time := time s; used := {[x]} ∪ used s;
                pool := <[i := k x]> (pool s); taken := taken s |}.

(** The next command of request [i], answered; [x]: the name drawn, [a]: what
    another system answers.  Nothing, when there is none. *)
Definition move (s : sys A) (ev : nat * string * answer) : sys A :=
  let '(i, x, a) := ev in
  match pool s !! i with
  | Some (Do c k) =>
      let '(r, d) := exec (time s) c (store s) in
      resume i (k r) {| store := d; time := time s; used := used s; pool := pool s;
                        taken := (taken s ++ takes c r)%list |}
  | Some (Ask q k) => resume i (k a) s
  | Some (Clock k) => resume i (k (time s)) s
  | Some (Sleep d k) => resume i k s
  | Some (Draw k) =>
      if bool_decide ((x ∉ used s) ∧ x ≠ ""%string)
      then {| store := store s; time := time s; used := {[x]} ∪ used s;
              pool := <[i := k x]> (pool s); taken := taken s |}
      else s
  | _ => s
  end.

Lemma move_step s ev : rtc step s (move s ev).
Proof.
  destruct ev as [[i x] a]. unfold move. destruct (pool s !! i) as [p|] eqn:Hi; [|done].
  destruct p as [b|e|c k|q k|k|d k|k]; try done.
  - destruct (exec (time s) c (store s)) as [r d] eqn:E. by apply rtc_once, (step_do s i c k r d).
  - by apply rtc_once, (step_ask s i q k a).
  - by apply rtc_once, (step_clock s i k).
  - by apply rtc_once, (step_sleep s i d k).
  - case_bool_decide as H; [|done]. destruct H. by apply rtc_once, step_draw.
Qed.

Definition play (l : list (nat * string * answer)) (s : sys A) : sys A := foldl move s l.

Lemma play_steps l s : rtc step s (play l s).
Proof.
  revert s. induction l as [|ev l IH]; intros s; [done|]. cbn. etrans; [apply move_step | apply IH].
Qed.

Definition initial (t : Z) : sys A :=
  {| store := {| strs := ∅; groups := ∅ |}; time := t; used := ∅; pool := ∅; taken := [] |}.
End steps.
End redis.
