(* ===== verification/RefreshTokens.v ===== *)
(** * Refresh tokens: services/api_gateway/messaging/refresh_tokens.py and routers/auth_tokens.py

    The store of refresh tokens, and the login, refresh and logout of the
    gateway, as programs of RedisProg.  Concurrent requests interleave at
    every command. *)

From stdpp Require Import base strings list gmap relations.
From Stdlib Require Import ZArith Lia.
From Corelib Require Import SpecFloat.
From S2P Require Import Prelude PyText PyNum PyJson Sessions RedisProg.

Local Open Scope string_scope.

Definition _PREFIX : string := "refresh:".
Definition _USER_PREFIX : string := "refresh-user:".
Definition _ROTATED_PREFIX : string := "refresh-rotated:".

(** [ROTATION_GRACE_SECONDS = 10], as the float it is compared as; the waits
    in microseconds. *)
Definition ROTATION_GRACE_SECONDS : float := S754_finite false 5629499534213120 (-49).
Definition _RECORD_WAIT : Z := 500000.
Definition _SUCCESSOR_WAIT : Z := 2000000.
Definition _POLL : Z := 100000.

Definition _key (token : string) : string := _PREFIX +:+ token.
Definition _user_key (uid : string) : string := _USER_PREFIX +:+ uid.
Definition rotated_key (token : string) : string := _ROTATED_PREFIX +:+ token.

Section tokens.
Context `{J : JsonCodec}.
(** [bytes.decode] of a stored value and [str.encode] of a text; [str] of a
    value that is no plain scalar; SHA-256 in hexadecimal; [time.time()] at an
    instant, and its [repr]; the settings. *)
Context (raw_text : bytes → res string) (text_raw : string → bytes) (py_repr : json → string)
        (sha256_hex : string → string) (secs : Z → float) (repr_time : Z → string)
        (refresh_days access_minutes : Z).

(** [str(v)] *)
Definition str_of (v : json) : string :=
  match v with
  | JStr s => s
  | JNull => "None"
  | JBool true => "True"
  | JBool false => "False"
  | JInt z => str_of_Z z
  | v => py_repr v
  end.

(** [session_id]: None or a string; what a rotation record holds as it is. *)
Record RefreshClaim := { user_id : string; credential : string; session_id : json }.

Definition credential_fingerprint (h : string) : string := sha256_hex h.
Definition _ttl : Z := refresh_days * 24 * 3600.
Definition _ended_ttl : Z := access_minutes * 60 + 60.
Definition new_session_id : prog string := draw.

Definition token_value (uid cred : string) (sid : json) : json :=
  JDict [("uid", JStr uid); ("cred", JStr cred); ("sid", sid)].

Definition create_refresh_token (uid hashed : string) (sid : json) : prog string :=
  token ← draw;
  sid ← (if truthy sid then mret sid else JStr <$> new_session_id);
  let value := json_dumps (token_value uid (credential_fingerprint hashed) sid) in
  _ ← call (Multi [WSet (_key token) value _ttl; WAdd (_user_key uid) token; WExpire (_user_key uid) _ttl]);
  mret token.

(** [json.loads(raw.decode())]: the decoding is outside the [try]. *)
Definition loads (raw : bytes) : res (option json) :=
  match json_loads raw with
  | Ok v => Ok (Some v)
  | Err UnicodeDecodeError => Err UnicodeDecodeError
  | Err e => if is_value_error e then Ok None else Err e
  end.

(** The user, credential and session a token's value names. *)
Definition sid_of (d : dict) : json :=
  let sid := jget "sid" d in if truthy sid then JStr (str_of sid) else JNull.
Definition parse_claim (v : json) : option RefreshClaim :=
  match v with
  | JDict d =>
      match dict_lookup "uid" d, dict_lookup "cred" d with
      | Some u, Some c => Some {| user_id := str_of u; credential := str_of c; session_id := sid_of d |}
      | _, _ => None
      end
  | _ => None
  end.

Definition rotation_record (c : RefreshClaim) (t : Z) : dict :=
  [("uid", JStr (user_id c)); ("cred", JStr (credential c)); ("sid", session_id c);
   ("at", JFloat (secs t)); ("successor", JNull)].

Definition claim_refresh_token (token : string) : prog (option RefreshClaim) :=
  raw ← getdel (_key token);
  match raw with
  | None => mret None
  | Some raw =>
      v ← lifted (loads raw);
      match v ≫= parse_claim with
      | None => mret None
      | Some claim =>
          _ ← srem (_user_key (user_id claim)) [token];
          t ← clock;
          _ ← setex (rotated_key token) (json_dumps (JDict (rotation_record claim t))) _ttl;
          mret (Some claim)
      end
  end.

(** [record[k] = v] *)
Fixpoint dset (k : string) (v : json) (d : dict) : dict :=
  match d with
  | [] => [(k, v)]
  | (k', v') :: r => if bool_decide (k = k') then (k, v) :: r else (k', v') :: dset k v r
  end.

Definition record_successor (token successor : string) : prog unit :=
  raw ← get (rotated_key token);
  match raw with
  | None => mret tt
  | Some raw =>
      v ← lifted (json_loads raw);
      match v with
      | JDict d => setex (rotated_key token) (json_dumps (JDict (dset "successor" (JStr successor) d))) _ttl
      | _ => Raise TypeError
      end
  end.

(** *** Presenting a claimed token again *)

Inductive Replay :=
  | Unknown
  | Reused (claim : RefreshClaim) (first : bool)
  | Successor (claim : RefreshClaim) (token : string).

(** [_rotation]: None also for a value that is not JSON (the decoding is inside
    the [try] here), and for null. *)
Definition _rotation (token : string) : prog (option json) :=
  raw ← get (rotated_key token);
  match raw with
  | None => mret None
  | Some raw =>
      match json_loads raw with
      | Ok JNull => mret None
      | Ok v => mret (Some v)
      | Err e => if is_value_error e then mret None else Raise e
      end
  end.

(** Poll while [go] and the deadline is ahead.  A sleep lasts at least
    [_POLL], so [fuel] past the wait's share of polls is never used up. *)
Fixpoint poll {A} (fuel : nat) (deadline : Z) (go : A → bool) (again : A → prog A) (a : A) : prog A :=
  match fuel with
  | O => mret a
  | S fuel =>
      if go a
      then t ← clock;
           if Z.ltb t deadline
           then _ ← sleep _POLL; a ← again a; poll fuel deadline go again a
           else mret a
      else mret a
  end.
Definition polls (wait : Z) : nat := S (Z.to_nat (wait / _POLL)).

(** The fields [replay] reads; [record["uid"]] of what is not an object is a
    TypeError, of an object without it a KeyError. *)
Definition record_claim (v : json) : res (dict * RefreshClaim) :=
  match v with
  | JDict d =>
      match dict_lookup "uid" d with
      | Some u => Ok (d, {| user_id := str_of u;
                            credential := match dict_lookup "cred" d with Some c => str_of c | None => "" end;
                            session_id := jget "sid" d |})
      | None => Err KeyError
      end
  | _ => Err TypeError
  end.

Definition past_grace (d : dict) (t : Z) : res bool :=
  at_ ← json_float (match dict_lookup "at" d with Some v => v | None => JInt 0 end);
  Ok (fgt (fsub (secs t) at_) ROTATION_GRACE_SECONDS).

(** [_owner]: a value that is no token's of this version is a bare user id. *)
Definition _owner (raw : bytes) : res (string * json) :=
  match json_loads raw with
  | Ok (JDict d) =>
      match dict_lookup "uid" d with
      | Some u => Ok (str_of u, sid_of d)
      | None => (λ t, (t, JNull)) <$> raw_text raw
      end
  | Ok _ => (λ t, (t, JNull)) <$> raw_text raw
  | Err e => if is_value_error e then (λ t, (t, JNull)) <$> raw_text raw else Err e
  end.

Definition _record_session_ended (sid : json) (ttl : Z) : prog unit :=
  setex (ended_session_key (str_of sid)) (text_raw "1") ttl.

(** One token of the user's index: ended if it is of the session. *)
Fixpoint end_tokens (index : string) (sid : json) (ts : list string) : prog unit :=
  match ts with
  | [] => mret tt
  | t :: ts =>
      raw ← get (_key t);
      match raw with
      | None => end_tokens index sid ts
      | Some raw =>
          o ← lifted (_owner raw);
          match o.2, sid with
          | JStr a, JStr b =>
              if bool_decide (a = b)
              then _ ← getdel (_key t); _ ← srem index [t]; end_tokens index sid ts
              else end_tokens index sid ts
          | _, _ => end_tokens index sid ts
          end
      end
  end.

Definition _end_reused_session (claim : RefreshClaim) : prog unit :=
  if truthy (session_id claim)
  then _ ← _record_session_ended (session_id claim) _ttl;
       ts ← smembers (_user_key (user_id claim));
       end_tokens (_user_key (user_id claim)) (session_id claim) ts
  else mret tt.

Definition replay (token : string) : prog Replay :=
  record ← _rotation token;
  t ← clock;
  record ← poll (polls _RECORD_WAIT) (t + _RECORD_WAIT) (λ r, bool_decide (r = None)) (λ _, _rotation token) record;
  match record with
  | None => mret Unknown
  | Some v =>
      dc ← lifted (record_claim v);
      let '(d, claim) := dc in
      t ← clock;
      late ← lifted (past_grace d t);
      if late : bool
      then
        if truthy (jget "ended" d) then mret (Reused claim false)
        else _ ← setex (rotated_key token) (json_dumps (JDict (dset "ended" (JBool true) d))) _ttl;
             _ ← _end_reused_session claim;
             mret (Reused claim true)
      else
        t ← clock;
        d ← poll (polls _SUCCESSOR_WAIT) (t + _SUCCESSOR_WAIT) (λ d, negb (truthy (jget "successor" d)))
              (λ d, r ← _rotation token;
                    match r with
                    | Some (JDict d') => mret match d' with [] => d | _ => d' end
                    | Some v => if truthy v then Raise AttributeError else mret d
                    | None => mret d
                    end) d;
        let successor := jget "successor" d in
        if truthy successor
        then raw ← get (_key (str_of successor));
             mret match raw with Some _ => Successor claim (str_of successor) | None => Unknown end
        else mret Unknown
  end.

(** *** Revoking *)

Definition end_if_named (sid : json) (ttl : Z) : prog unit :=
  if truthy sid then _record_session_ended sid ttl else mret tt.

Definition revoke_refresh_token (token : string) : prog (option string) :=
  raw ← getdel (_key token);
  match raw with
  | None => mret None
  | Some raw =>
      o ← lifted (_owner raw);
      _ ← end_if_named o.2 _ended_ttl;
      _ ← srem (_user_key o.1) [token];
      mret (Some o.1)
  end.

(** A read slower than the timeout fails, as one the store refuses. *)
Definition session_was_ended (sid : json) : prog bool :=
  if truthy sid
  then raw ← get (ended_session_key (str_of sid)); mret match raw with Some _ => true | None => false end
  else mret false.

Definition end_session (sid : string) : prog unit := _record_session_ended (JStr sid) _ended_ttl.

Fixpoint revoke_each (ts : list string) : prog nat :=
  match ts with
  | [] => mret O
  | t :: ts =>
      raw ← getdel (_key t);
      match raw with
      | None => revoke_each ts
      | Some raw =>
          o ← lifted (_owner raw);
          _ ← end_if_named o.2 _ended_ttl;
          n ← revoke_each ts;
          mret (S n)
      end
  end.

Definition revoke_all_refresh_tokens (uid : string) : prog nat :=
  ts ← smembers (_user_key uid);
  match ts with
  | [] => mret O
  | _ => live ← revoke_each ts; _ ← srem (_user_key uid) ts; mret live
  end.

Definition revoke_user_capabilities (uid : string) : prog unit :=
  Ask (RevokeCapabilities uid) (λ a, match a with AFail e => Raise e | _ => Ret tt end).

Definition end_all_sessions (uid : string) : prog unit :=
  t ← clock;
  _ ← setex (user_ended_key uid) (text_raw (repr_time t)) _ended_ttl;
  _ ← revoke_all_refresh_tokens uid;
  revoke_user_capabilities uid.

(** ** The endpoints: services/api_gateway/routers/auth_tokens.py *)

(** What the endpoint answers: an error's status, or the session the access
    token is minted in and the refresh token. *)
Inductive response := Http (status : Z) | TokenPair (uid : string) (sid : json) (refresh_token : string) | NoContent.

(** [authenticate]'s account, None when it refused. *)
Definition login (user : option account) : prog response :=
  match user with
  | Some u =>
      if is_active u
      then sid ← new_session_id;
           refresh ← create_refresh_token (acc_id u) (hashed_password u) (JStr sid);
           mret (TokenPair (acc_id u) (JStr sid) refresh)
      else mret (Http 400)
  | None => mret (Http 400)
  end.

(** [user_manager.get(uuid.UUID(uid))], None for a malformed id or no user;
    [is_company_active]. *)
Definition load_user (uid : string) : prog (option account) :=
  match uuid_parse uid with
  | None => mret None
  | Some _ => Ask (AskUser uid) (λ a, match a with AUser u => Ret u | AYes _ => Ret None | AFail e => Raise e end)
  end.
Definition is_company_active (cid : string) : prog bool :=
  Ask (AskCompany cid) (λ a, match a with AYes b => Ret b | AUser _ => Ret false | AFail e => Raise e end).

(** After the claim: the account's checks, and the tokens. *)
Definition continue_session (token : string) (claim : RefreshClaim) (successor : option string) : prog response :=
  user ← load_user (user_id claim);
  match user with
  | None => mret (Http 401)
  | Some u =>
      if negb (is_active u) then mret (Http 401)
      else if negb (bool_decide (credential claim = credential_fingerprint (hashed_password u)))
      then _ ← end_all_sessions (acc_id u); mret (Http 401)
      else
        active ← match acc_company u with
                 | Some cid => if bool_decide (cid = "") then mret true else is_company_active cid
                 | None => mret true
                 end;
        if negb active then _ ← end_all_sessions (acc_id u); mret (Http 401)
        else
          sid ← (if truthy (session_id claim) then mret (session_id claim) else JStr <$> new_session_id);
          match successor with
          | Some s => mret (TokenPair (acc_id u) sid s)
          | None =>
              new_refresh ← create_refresh_token (acc_id u) (hashed_password u) sid;
              _ ← record_successor token new_refresh;
              mret (TokenPair (acc_id u) sid new_refresh)
          end
  end.

Definition refresh (token : option string) : prog response :=
  match token with
  | None | Some "" => mret (Http 401)
  | Some token =>
      claim ← claim_refresh_token token;
      match claim with
      | None =>
          r ← replay token;
          match r with
          | Reused c first => _ ← (if first : bool then revoke_user_capabilities (user_id c) else mret tt); mret (Http 401)
          | Unknown => mret (Http 401)
          | Successor c s => continue_session token c (Some s)
          end
      | Some c =>
          ended ← guarded (Some <$> session_was_ended (session_id c)) (λ _, mret None);
          match ended with
          | None => mret (Http 503)
          | Some true => mret (Http 401)
          | Some false => continue_session token c None
          end
      end
  end.

(** [claims]: the subject and session of the access token presented. *)
Definition logout (token : option string) (claims : option (option string * option string)) : prog response :=
  uid ← match token with
        | None | Some "" => mret None
        | Some t => revoke_refresh_token t
        end;
  _ ← match claims with
      | Some (_, Some sid) => if bool_decide (sid = "") then mret tt else end_session sid
      | _ => mret tt
      end;
  _ ← foldr (λ u m, _ ← revoke_user_capabilities u; m) (mret tt)
        (elements (list_to_set (List.filter (λ u, negb (bool_decide (u = "")))
           (option_list uid ++ option_list (claims ≫= fst))) : gset string));
  mret NoContent.
End tokens.
