(* ===== verification/RefreshRuns.v ===== *)
(** * Rotating, retrying and reusing a refresh token

    What one refresh request does when no other runs meanwhile: the rotation,
    its retry within the grace, a reuse after it, and a session that was
    ended. *)

From stdpp Require Import base strings list gmap relations.
From Stdlib Require Import ZArith Lia.
From Corelib Require Import SpecFloat.
From S2P Require Import Prelude PyText PyNum PyJson Sessions RedisProg RefreshTokens.

Local Open Scope string_scope.

Section runs.
Context `{J : JsonCodec}.
Context (raw_text : bytes → res string) (text_raw : string → bytes) (py_repr : json → string)
        (sha256_hex : string → string) (secs : Z → float) (repr_time : Z → string)
        (refresh_days access_minutes : Z).

Abbreviation refresh :=
  (refresh raw_text text_raw py_repr sha256_hex secs repr_time refresh_days access_minutes).
Abbreviation ttl := (seconds (_ttl refresh_days)).

Lemma key_ne_rotated T T' : _key T ≠ rotated_key T'.
Proof. discriminate. Qed.
Lemma key_ne_ended T s : _key T ≠ ended_session_key s.
Proof. discriminate. Qed.
Lemma rotated_ne_ended T s : rotated_key T ≠ ended_session_key s.
Proof. discriminate. Qed.
Lemma key_ne T T' : T ≠ T' → _key T ≠ _key T'.
Proof. intros Hne [= ?]. done. Qed.
#[local] Hint Resolve key_ne_rotated key_ne_ended rotated_ne_ended key_ne : core.
#[local] Hint Extern 1 (rotated_key _ ≠ _key _) => apply not_eq_sym : core.
#[local] Hint Extern 1 (ended_session_key _ ≠ _) => apply not_eq_sym : core.

(** What a store holds for a token, and for one that was rotated. *)
Definition value_of (uid cred sn : string) : bytes := json_dumps (token_value uid cred (JStr sn)).
Definition the_claim (uid cred sn : string) : RefreshClaim :=
  {| user_id := uid; credential := cred; session_id := JStr sn |}.

Lemma truthy_nonempty s : s ≠ "" → truthy (JStr s) = true.
Proof. intros H. cbn. by rewrite bool_decide_eq_false_2. Qed.

Lemma sid_of_value uid cred sn : sn ≠ "" →
  sid_of py_repr [("uid", JStr uid); ("cred", JStr cred); ("sid", JStr sn)] = JStr sn.
Proof. intros H. unfold sid_of. change (jget "sid" _) with (JStr sn). by rewrite truthy_nonempty. Qed.

Lemma loads_dumps_flat v : flat_object v = true → loads (json_dumps v) = Ok (Some v).
Proof. intros H. unfold loads. by rewrite loads_dumps. Qed.

Definition claimed (T : string) (c : RefreshClaim) (e : env) : env :=
  with_db e (set_strs <[rotated_key T := (json_dumps (JDict (rotation_record secs c (now e))), now e + ttl)%Z]>
    (set_groups (alter (λ g, (g.1 ∖ list_to_set [T], g.2)) (_user_key (user_id c))) (set_strs (delete (_key T)) (db e)))).

Lemma run_claim T uid cred sn e : sn ≠ "" → kget (now e) (_key T) (db e) = Some (value_of uid cred sn) →
  run (claim_refresh_token py_repr secs refresh_days T) e =
    (Ok (Some (the_claim uid cred sn)), claimed T (the_claim uid cred sn) e).
Proof.
  intros Hs Hk. unfold claim_refresh_token. rewrite run_bind, run_getdel, Hk. unfold value_of.
  rewrite run_bind, run_lifted, loads_dumps_flat by done.
  cbn [token_value mbind option_bind parse_claim dict_lookup]. rewrite sid_of_value by done.
  cbn. done.
Qed.

(** The account is the token's user, active, with the password unchanged and a
    company that is not suspended. *)
Record approves (o : query → answer) (uid cred : string) (u : account) : Prop := {
  ap_uuid : is_Some (uuid_parse uid);
  ap_user : o (AskUser uid) = AUser (Some u);
  ap_id : acc_id u = uid;
  ap_active : is_active u = true;
  ap_cred : cred = credential_fingerprint sha256_hex (hashed_password u);
  ap_company : ∀ cid, acc_company u = Some cid → cid ≠ "" → o (AskCompany cid) = AYes true }.

Lemma run_load_user uid cred u e : approves (oracle e) uid cred u → run (load_user uid) e = (Ok (Some u), e).
Proof. intros [[z Hz] Hu _ _ _ _]. unfold load_user. rewrite Hz. cbn. by rewrite Hu. Qed.

Lemma run_company uid cred u e : approves (oracle e) uid cred u →
  run (match acc_company u with
       | Some cid => if bool_decide (cid = "") then mret true else is_company_active cid
       | None => mret true
       end) e = (Ok true, e).
Proof.
  intros [_ _ _ _ _ Hc]. destruct (acc_company u) as [cid|]; [|done].
  case_bool_decide as Hcid; [done|]. unfold is_company_active. cbn. by rewrite Hc.
Qed.

Lemma run_was_ended sn e : sn ≠ "" → run (session_was_ended py_repr (JStr sn)) e =
  (Ok (bool_decide (is_Some (kget (now e) (ended_session_key sn) (db e)))), e).
Proof.
  intros H. unfold session_was_ended. rewrite truthy_nonempty by done. rewrite run_bind, run_get.
  cbn [str_of run mret prog_ret]. by destruct (kget _ _ _).
Qed.

Abbreviation continue_session :=
  (continue_session raw_text text_raw py_repr sha256_hex repr_time refresh_days access_minutes).

Lemma refresh_some T : T ≠ "" → refresh (Some T) =
  (claim ← claim_refresh_token py_repr secs refresh_days T;
   match claim with
   | None =>
       r ← replay raw_text text_raw py_repr secs refresh_days T;
       match r with
       | Reused c first => _ ← (if first : bool then revoke_user_capabilities (user_id c) else mret tt); mret (Http 401)
       | Unknown => mret (Http 401)
       | Successor c s => continue_session T c (Some s)
       end
   | Some c =>
       ended ← guarded (Some <$> session_was_ended py_repr (session_id c)) (λ _, mret None);
       match ended with
       | None => mret (Http 503)
       | Some true => mret (Http 401)
       | Some false => continue_session T c None
       end
   end).
Proof. by destruct T. Qed.

Lemma run_guarded_ended sn e : sn ≠ "" →
  run (guarded (Some <$> session_was_ended py_repr (JStr sn)) (λ _, mret None)) e =
  (Ok (Some (bool_decide (is_Some (kget (now e) (ended_session_key sn) (db e))))), e).
Proof. intros H. apply run_guarded. unfold fmap, prog_fmap. by rewrite run_bind, run_was_ended. Qed.

Lemma run_continue T uid cred sn u successor e : sn ≠ "" → approves (oracle e) uid cred u →
  run (continue_session T (the_claim uid cred sn) successor) e =
  run (match successor with
       | Some s => mret (TokenPair uid (JStr sn) s)
       | None =>
           new_refresh ← create_refresh_token sha256_hex refresh_days uid (hashed_password u) (JStr sn);
           _ ← record_successor refresh_days T new_refresh;
           mret (TokenPair uid (JStr sn) new_refresh)
       end) e.
Proof.
  intros Hs Ha. unfold RefreshTokens.continue_session. cbn [the_claim user_id credential session_id].
  rewrite run_bind, (run_load_user uid cred u) by done. rewrite (ap_active _ _ _ _ Ha). cbn [negb].
  rewrite bool_decide_eq_true_2 by apply (ap_cred _ _ _ _ Ha). cbn [negb].
  rewrite run_bind, (run_company uid cred u) by done. cbn [negb]. rewrite truthy_nonempty by done.
  by rewrite run_bind, run_ret, (ap_id _ _ _ _ Ha).
Qed.

(** *** A rotation *)

Definition issued (T uid h sn : string) (e : env) (ns : list string) : env :=
  {| db := (exec (now e) (Multi [WSet (_key T) (value_of uid (credential_fingerprint sha256_hex h) sn) (_ttl refresh_days);
                                 WAdd (_user_key uid) T; WExpire (_user_key uid) (_ttl refresh_days)]) (db e)).2;
     now := now e; names := ns; oracle := oracle e |}.

Lemma run_create N ns uid h sn e : sn ≠ "" → names e = N :: ns →
  run (create_refresh_token sha256_hex refresh_days uid h (JStr sn)) e = (Ok N, issued N uid h sn e ns).
Proof.
  intros Hs Hn. unfold create_refresh_token. cbn [draw mbind prog_bind run]. rewrite Hn.
  rewrite truthy_nonempty by done. done.
Qed.

(** What is in the store once [T] was rotated into [N] at [t0]. *)
Record rotated (e : env) (T N uid cred sn : string) (t0 : Z) : Prop := {
  rt_gone : strs (db e) !! _key T = None;
  rt_record : strs (db e) !! rotated_key T =
    Some (json_dumps (JDict (dset "successor" (JStr N) (rotation_record secs (the_claim uid cred sn) t0))), t0 + ttl)%Z;
  rt_new : strs (db e) !! _key N = Some (value_of uid cred sn, t0 + ttl)%Z;
  rt_index : ∃ g, groups (db e) !! _user_key uid = Some (g, t0 + ttl)%Z ∧ N ∈ g }.

Lemma rotated_later e T N uid cred sn t0 d : rotated e T N uid cred sn t0 → rotated (later d e) T N uid cred sn t0.
Proof. intros [? ? ? ?]. by split. Qed.

Lemma run_rotation T N ns uid cred sn u e : T ≠ "" → T ≠ N → sn ≠ "" → (0 < refresh_days)%Z →
  kget (now e) (_key T) (db e) = Some (value_of uid cred sn) →
  kget (now e) (ended_session_key sn) (db e) = None →
  approves (oracle e) uid cred u → names e = N :: ns →
  ∃ e', run (refresh (Some T)) e = (Ok (TokenPair uid (JStr sn) N), e') ∧
    rotated e' T N uid cred sn (now e) ∧ now e' = now e ∧ oracle e' = oracle e.
Proof.
  intros HT HTN Hs Hd Hk He Ha Hn.
  assert (0 < ttl)%Z as Httl by (unfold seconds, _ttl; lia).
  rewrite refresh_some by done. rewrite run_bind, (run_claim T uid cred sn) by done.
  set (e1 := claimed T (the_claim uid cred sn) e).
  cbn [the_claim session_id]. rewrite run_bind, run_guarded_ended by done.
  assert (kget (now e1) (ended_session_key sn) (db e1) = None) as ->.
  { unfold e1, claimed. cbn [with_db now db]. rewrite kget_set_ne, kget_groups, kget_del_ne; auto. }
  rewrite bool_decide_eq_false_2 by (by intros [? ?]).
  rewrite (run_continue T uid cred sn u) by done.
  rewrite run_bind, (run_create N ns) by done. cbn [oracle e1 claimed with_db].
  set (e2 := issued N uid (hashed_password u) sn e1 ns).
  assert (strs (db e2) = <[_key N := (value_of uid cred sn, now e + ttl)%Z]> (strs (db e1))) as Hs2.
  { unfold e2, issued. destruct Ha as [_ _ _ _ -> _]. done. }
  unfold record_successor. rewrite run_bind, run_bind, run_get.
  assert (kget (now e2) (rotated_key T) (db e2) =
          Some (json_dumps (JDict (rotation_record secs (the_claim uid cred sn) (now e))))) as ->.
  { unfold kget. rewrite Hs2, lookup_insert_ne by done. unfold e1, claimed. cbn. rewrite lookup_insert_eq.
    by destruct (Z.ltb_spec (now e) (now e + ttl)); [|lia]. }
  rewrite run_bind, run_lifted, loads_dumps by done. cbn [rotation_record]. rewrite run_setex, run_ret.
  eexists. split; [done|]. split; [|done]. split; cbn [with_db db set_strs strs].
  - rewrite lookup_insert_ne by done. rewrite Hs2, lookup_insert_ne by auto. unfold e1, claimed. cbn.
    rewrite lookup_insert_ne by auto. by rewrite lookup_delete_eq.
  - by rewrite lookup_insert_eq.
  - rewrite lookup_insert_ne by auto. by rewrite Hs2, lookup_insert_eq.
  - unfold e2, issued. cbn [db exec do_write foldl snd set_strs set_groups groups strs fst].
    rewrite lookup_alter_eq, lookup_insert_eq. cbn. eexists. split; [done|]. set_solver.
Qed.

(** *** Presenting the rotated token again *)

Definition rotation_of (T N uid cred sn : string) (t0 : Z) : dict :=
  dset "successor" (JStr N) (rotation_record secs (the_claim uid cred sn) t0).

Lemma run_claim_gone T e : strs (db e) !! _key T = None → run (claim_refresh_token py_repr secs refresh_days T) e = (Ok None, e).
Proof.
  intros H. unfold claim_refresh_token. rewrite run_bind, run_getdel.
  assert (kget (now e) (_key T) (db e) = None) as -> by (unfold kget; by rewrite H).
  rewrite run_ret. destruct e as [[st gs] t ns o]. unfold with_db, set_strs. cbn in *. by rewrite delete_id.
Qed.

Lemma run_poll_stop {A} fuel deadline go (again : A → prog A) a e : go a = false → run (poll (S fuel) deadline go again a) e = (Ok a, e).
Proof. intros H. cbn [poll]. by rewrite H. Qed.

(** The reading of the record, and of the time since the rotation. *)
Lemma run_replay T N uid cred sn t0 e : rotated e T N uid cred sn t0 → (now e < t0 + ttl)%Z → N ≠ "" →
  run (replay raw_text text_raw py_repr secs refresh_days T) e =
  run (if fgt (fsub (secs (now e)) (secs t0)) ROTATION_GRACE_SECONDS
       then _ ← setex (rotated_key T) (json_dumps (JDict (dset "ended" (JBool true) (rotation_of T N uid cred sn t0))))
                  (_ttl refresh_days);
            _ ← _end_reused_session raw_text text_raw py_repr refresh_days (the_claim uid cred sn);
            mret (Reused (the_claim uid cred sn) true)
       else raw ← get (_key N);
            mret match raw with Some _ => Successor (the_claim uid cred sn) N | None => Unknown end) e.
Proof.
  intros [Hg Hr Hn Hi] Hlt HN. unfold replay. rewrite run_bind.
  assert (run (_rotation T) e = (Ok (Some (JDict (rotation_of T N uid cred sn t0))), e)) as ->.
  { unfold _rotation. rewrite run_bind, run_get. unfold kget. rewrite Hr.
    destruct (Z.ltb_spec (now e) (t0 + ttl)); [|lia]. by rewrite loads_dumps. }
  rewrite run_bind, run_clock, run_bind. unfold polls at 1. rewrite run_poll_stop by done.
  set (d := rotation_of T N uid cred sn t0).
  rewrite run_bind, run_lifted. change (record_claim py_repr (JDict d)) with (Ok (d, the_claim uid cred sn)).
  cbn beta iota. rewrite run_bind, run_clock, run_bind, run_lifted.
  change (past_grace secs d (now e)) with (Ok (fgt (fsub (secs (now e)) (secs t0)) ROTATION_GRACE_SECONDS)).
  destruct (fgt _ _); [by change (truthy (jget "ended" d)) with false|].
  assert (truthy (jget "successor" d) = true) as Ht by exact (truthy_nonempty N HN).
  rewrite run_bind, run_clock, run_bind. unfold polls. rewrite run_poll_stop by (by rewrite Ht).
  by rewrite Ht.
Qed.

(** a refresh rotates the token: the account still approved, the session
    not ended, the answer is the session's tokens with a new refresh token;
    and the same request repeated within the grace (another tab, a retry whose
    answer was lost) is given that same token, changing nothing. *)
Theorem retry_gets_the_successor T N ns uid cred sn u e d :
  T ≠ "" → N ≠ "" → T ≠ N → sn ≠ "" → (0 < refresh_days)%Z →
  kget (now e) (_key T) (db e) = Some (value_of uid cred sn) →
  kget (now e) (ended_session_key sn) (db e) = None →
  approves (oracle e) uid cred u → names e = N :: ns →
  (0 ≤ d < ttl)%Z → fgt (fsub (secs (now e + d)) (secs (now e))) ROTATION_GRACE_SECONDS = false →
  ∃ e', run (refresh (Some T)) e = (Ok (TokenPair uid (JStr sn) N), e') ∧
        run (refresh (Some T)) (later d e') = (Ok (TokenPair uid (JStr sn) N), later d e').
Proof.
  intros HT HN HTN Hs Hd Hk He Ha Hn Hdt Hg.
  destruct (run_rotation T N ns uid cred sn u e) as (e' & Hrun & Hrot & Hnow & Ho); try done.
  exists e'. split; [exact Hrun|]. apply (rotated_later _ _ _ _ _ _ _ d) in Hrot.
  rewrite refresh_some by done. rewrite run_bind, run_claim_gone by apply Hrot.
  rewrite run_bind, (run_replay T N uid cred sn (now e)); [|done| |done]; cbn [later now]; rewrite Hnow; [|lia].
  rewrite Hg, run_bind, run_get. unfold kget. rewrite (rt_new _ _ _ _ _ _ _ Hrot). cbn [later now]. rewrite Hnow.
  destruct (Z.ltb_spec (now e + d) (now e + ttl)); [|lia]. rewrite run_ret.
  rewrite (run_continue T uid cred sn u); [done..|]. cbn [later oracle]. by rewrite Ho.
Qed.

(** *** A reuse *)

Abbreviation owner := (_owner raw_text py_repr).

(** Only tokens go; none that is left of [ts] is of the session. *)
Record ended_tokens (sn : string) (ts : list string) (e e' : env) : Prop := {
  et_now : now e' = now e;
  et_oracle : oracle e' = oracle e;
  et_keeps k : strs (db e') !! k = strs (db e) !! k ∨ (∃ T, k = _key T) ∧ strs (db e') !! k = None;
  et_none T v u : T ∈ ts → kget (now e) (_key T) (db e') = Some v → owner v ≠ Ok (u, JStr sn) }.

Lemma kget_same t k d d' : strs d' !! k = strs d !! k → kget t k d' = kget t k d.
Proof. intros H. unfold kget. by rewrite H. Qed.
Lemma kget_none t k d : strs d !! k = None → kget t k d = None.
Proof. intros H. unfold kget. by rewrite H. Qed.

Lemma ended_tokens_nil sn e : ended_tokens sn [] e e.
Proof. split; [done.. | by left |]. by intros T v u H%elem_of_nil. Qed.

(** The rest of the index, once its first token is done with. *)
Lemma ended_tokens_cons sn t ts e e1 e' : now e1 = now e → oracle e1 = oracle e →
  (∀ k, strs (db e1) !! k = strs (db e) !! k ∨ (∃ T, k = _key T) ∧ strs (db e1) !! k = None) →
  (∀ v u, kget (now e) (_key t) (db e1) = Some v → owner v ≠ Ok (u, JStr sn)) →
  ended_tokens sn ts e1 e' → ended_tokens sn (t :: ts) e e'.
Proof.
  intros Hn Ho Hk Ht [H1 H2 H3 H4]. rewrite Hn in *. split; [congruence..| |].
  - intros k. destruct (H3 k) as [E|[? ?]]; [|by right]. rewrite E. apply Hk.
  - intros T v u [->|HT]%elem_of_cons Hv; [|by apply (H4 T)].
    destruct (H3 (_key t)) as [E|[_ E]]; [|by rewrite kget_none in Hv].
    apply (Ht v u). by rewrite <- (kget_same _ _ _ _ E).
Qed.

Lemma run_end_tokens index sn ts e :
  (∀ T v, T ∈ ts → kget (now e) (_key T) (db e) = Some v → ∃ o, owner v = Ok o) →
  ∃ e', run (end_tokens raw_text py_repr index (JStr sn) ts) e = (Ok tt, e') ∧ ended_tokens sn ts e e'.
Proof.
  revert e. induction ts as [|t ts IH]; intros e Hr; [exists e; split; [done|apply ended_tokens_nil]|].
  pose proof (λ T v H, Hr T v (list_elem_of_further T t ts H)) as Hr'.
  cbn [end_tokens]. rewrite run_bind, run_get. destruct (kget (now e) (_key t) (db e)) as [raw|] eqn:Ht.
  2: { destruct (IH e Hr') as (e' & ? & He). exists e'. split; [done|].
       apply (ended_tokens_cons sn t ts e e e'); auto. intros v u. by rewrite Ht. }
  destruct (Hr t raw (list_elem_of_here t ts) Ht) as [[u o] Ho]. rewrite run_bind, run_lifted, Ho. cbn [snd].
  assert (o ≠ JStr sn → ∃ e', run (end_tokens raw_text py_repr index (JStr sn) ts) e = (Ok tt, e') ∧ ended_tokens sn (t :: ts) e e') as Hskip.
  { intros Hne. destruct (IH e Hr') as (e' & ? & He). exists e'. split; [done|].
    apply (ended_tokens_cons sn t ts e e e'); auto. intros v u'. rewrite Ht. intros [= <-]. rewrite Ho. congruence. }
  destruct o as [| | | |a| |]; try (by apply Hskip). case_bool_decide as Ha; [|apply Hskip; congruence]. subst a.
  rewrite run_bind, run_getdel, run_bind, run_srem.
  set (e1 := with_db _ (set_groups _ _)).
  assert (∀ k, strs (db e1) !! k = if bool_decide (k = _key t) then None else strs (db e) !! k) as Hk1.
  { intros k. unfold e1. cbn [with_db db set_strs set_groups strs].
    case_bool_decide; [subst; apply lookup_delete_eq | by apply lookup_delete_ne, not_eq_sym]. }
  destruct (IH e1) as (e' & ? & He).
  { intros T v HT Hv. apply (Hr' T v HT). revert Hv. unfold kget. rewrite Hk1. by case_bool_decide. }
  exists e'. split; [done|]. apply (ended_tokens_cons sn t ts e e1 e'); [done..| | |done].
  - intros k. rewrite Hk1. case_bool_decide; [right; eauto | by left].
  - intros v u'. rewrite kget_none; [done|]. by rewrite Hk1, bool_decide_eq_true_2.
Qed.

Lemma owner_value uid cred sn : sn ≠ "" → owner (value_of uid cred sn) = Ok (uid, JStr sn).
Proof.
  intros H. unfold _owner, value_of. rewrite loads_dumps by done. cbn [token_value dict_lookup].
  by rewrite sid_of_value.
Qed.

(** C16: a rotated token presented again after the grace is refused, and ends
    its session: no refresh token of the session is left in the user's index,
    its successor is gone, and the session is recorded as ended for the
    refresh lifetime, so that no token of it issued in a race continues it. *)
Theorem reuse_ends_the_session T N uid cred sn t0 e :
  T ≠ "" → N ≠ "" → sn ≠ "" → (0 < refresh_days)%Z →
  rotated e T N uid cred sn t0 → (t0 ≤ now e < t0 + ttl)%Z →
  fgt (fsub (secs (now e)) (secs t0)) ROTATION_GRACE_SECONDS = true →
  (∀ T v, T ∈ kmembers (now e) (_user_key uid) (db e) → kget (now e) (_key T) (db e) = Some v → ∃ o, owner v = Ok o) →
  (∀ x, oracle e (RevokeCapabilities uid) ≠ AFail x) →
  ∃ e', run (refresh (Some T)) e = (Ok (Http 401), e') ∧
    kget (now e) (_key N) (db e') = None ∧
    (∀ T' v u, T' ∈ kmembers (now e) (_user_key uid) (db e) →
       kget (now e) (_key T') (db e') = Some v → owner v ≠ Ok (u, JStr sn)) ∧
    (∀ t, (t < now e + ttl)%Z → is_Some (kget t (ended_session_key sn) (db e'))).
Proof.
  intros HT HN Hs Hd Hrot Hnow Hg Hown Hcap. assert (0 < ttl)%Z as Httl by (unfold seconds, _ttl; lia).
  rewrite refresh_some by done. rewrite run_bind, run_claim_gone by apply Hrot.
  rewrite run_bind, (run_replay T N uid cred sn t0) by (done || lia). rewrite Hg.
  rewrite run_bind, run_setex. unfold _end_reused_session. cbn [the_claim session_id user_id].
  rewrite truthy_nonempty by done. unfold _record_session_ended.
  rewrite !run_bind, run_setex, run_bind, run_smembers. cbn [with_db now str_of].
  set (e1 := with_db (with_db e _) _).
  assert (∀ k, k ≠ rotated_key T → k ≠ ended_session_key sn → strs (db e1) !! k = strs (db e) !! k) as Hk1.
  { intros k ? ?. unfold e1. cbn [with_db db set_strs strs]. by rewrite !lookup_insert_ne by congruence. }
  destruct (run_end_tokens (_user_key uid) sn (elements (kmembers (now e) (_user_key uid) (db e1))) e1) as (e' & Hrun & He).
  { intros T' v HT'%elem_of_elements Hv. apply (Hown T' v HT'). rewrite <- Hv. by apply kget_same, eq_sym, Hk1. }
  change (kmembers (now e) (_user_key uid) (db e1)) with (kmembers (now e) (_user_key uid) (db e)) in *.
  rewrite Hrun, run_ret. destruct He as [E1 E2 E3 E4]. change (now e1) with (now e) in *. change (oracle e1) with (oracle e) in *.
  exists e'. rewrite run_bind. cbn [user_id the_claim revoke_user_capabilities run]. rewrite E2.
  assert (∀ T' v u, T' ∈ kmembers (now e) (_user_key uid) (db e) →
    kget (now e) (_key T') (db e') = Some v → owner v ≠ Ok (u, JStr sn)) as Hnone.
  { intros T' v u HT' Hv. apply (E4 T'); [by apply elem_of_elements | done]. }
  split_and!; [| |exact Hnone|].
  - destruct (oracle e (RevokeCapabilities uid)) eqn:Eo; [done..|]. by destruct (Hcap e0).
  - destruct (kget (now e) (_key N) (db e')) as [v|] eqn:Ev; [|done]. exfalso.
    destruct (rt_index _ _ _ _ _ _ _ Hrot) as (g & Hgr & HNg). apply (Hnone N v uid); [|exact Ev|].
    + unfold kmembers. rewrite Hgr. by destruct (Z.ltb_spec (now e) (t0 + ttl)); [|lia].
    + destruct (E3 (_key N)) as [E|[_ E]]; [|by rewrite kget_none in Ev].
      rewrite Hk1 in E by done. rewrite (kget_same _ _ _ _ E) in Ev. unfold kget in Ev.
      rewrite (rt_new _ _ _ _ _ _ _ Hrot) in Ev. destruct (Z.ltb _ _); [|done]. injection Ev as <-. by apply owner_value.
  - intros t Ht. destruct (E3 (ended_session_key sn)) as [E|[[? Hx] _]]; [|by apply eq_sym, key_ne_ended in Hx].
    rewrite (kget_same _ _ _ _ E). unfold e1. cbn [with_db db]. rewrite kget_set_eq by done. done.
Qed.

(** A session recorded as ended is not continued: the refresh is refused,
    its token is consumed, and no other token is stored. *)
Theorem ended_session_gets_no_token T uid cred sn v e :
  T ≠ "" → sn ≠ "" →
  kget (now e) (_key T) (db e) = Some (value_of uid cred sn) →
  kget (now e) (ended_session_key sn) (db e) = Some v →
  ∃ e', run (refresh (Some T)) e = (Ok (Http 401), e') ∧
    ∀ T', strs (db e') !! _key T' = if bool_decide (T' = T) then None else strs (db e) !! _key T'.
Proof.
  intros HT Hs Hk He. rewrite refresh_some by done. rewrite run_bind, (run_claim T uid cred sn) by done.
  set (e1 := claimed T (the_claim uid cred sn) e).
  cbn [the_claim session_id]. rewrite run_bind, run_guarded_ended by done.
  assert (kget (now e1) (ended_session_key sn) (db e1) = Some v) as ->.
  { unfold e1, claimed. cbn [with_db now db]. rewrite kget_set_ne, kget_groups, kget_del_ne; auto. }
  rewrite bool_decide_eq_true_2 by eauto. exists e1. split; [done|]. intros T'. unfold e1, claimed.
  cbn [with_db db set_strs set_groups strs]. rewrite lookup_insert_ne by done. case_bool_decide.
  - subst. apply lookup_delete_eq.
  - by apply lookup_delete_ne, key_ne, not_eq_sym.
Qed.
End runs.

(** ** On a concrete store

    Messages decoded; a hash and a clock as plain functions; refresh tokens
    for thirty days, access tokens for fifteen minutes. *)

Definition w_uid : string := "6ba7b810-9dad-11d1-80b4-00c04fd430c8".
Definition w_user : account := {| acc_id := w_uid; is_active := true; hashed_password := "hash"; acc_company := Some "co" |}.
Definition w_secs (t : Z) : float := match float_of_Z (t / 1000000) with Ok f => f | Err _ => S754_nan end.
Definition w_oracle (q : query) : answer :=
  match q with AskUser _ => AUser (Some w_user) | AskCompany _ => AYes true | RevokeCapabilities _ => AYes true end.

#[local] Existing Instance decoded_codec.
Definition w_text_raw (s : string) : bytes := Ok (JStr s).
Definition w_refresh : option string → prog response :=
  refresh (λ _, Ok "") w_text_raw (λ _, "") (λ s, s) w_secs str_of_Z 30 15.
Definition w_login : option account → prog response := login (λ s, s) 30.
Definition w_logout : option string → option (option string * option string) → prog response :=
  logout (λ _, Ok "") w_text_raw (λ _, "") 15.
Definition w_empty (ns : list string) : env := {| db := {| strs := ∅; groups := ∅ |}; now := 0; names := ns; oracle := w_oracle |}.

(** The session "sn", whose token is "T1". *)
Definition w_env : env := (run (w_login (Some w_user)) (w_empty ["sn"; "T1"; "T2"])).2.
Definition w_rotated : env := (run (w_refresh (Some "T1")) w_env).2.

Lemma retry_gets_the_successor_witness :
  ∃ e', run (w_refresh (Some "T1")) w_env = (Ok (TokenPair w_uid (JStr "sn") "T2"), e') ∧
        run (w_refresh (Some "T1")) (later 5000000 e') = (Ok (TokenPair w_uid (JStr "sn") "T2"), later 5000000 e').
Proof.
  apply (retry_gets_the_successor (λ _, Ok "") w_text_raw (λ _, "") (λ s, s) w_secs str_of_Z 30 15
           "T1" "T2" [] w_uid "hash" "sn" w_user w_env 5000000); try done.
  all: try (vm_compute; done).
Defined.

(** A minute later. *)
Definition w_late : env := later 60000000 w_rotated.

Lemma w_rotated_ok : rotated w_secs 30 w_late "T1" "T2" w_uid "hash" "sn" 0.
Proof. split; try (vm_compute; reflexivity). exists {["T2"]}. split; [vm_compute; reflexivity | set_solver]. Qed.

Lemma w_index : kmembers (now w_late) (_user_key w_uid) (db w_late) = {["T2"]}.
Proof. vm_compute. reflexivity. Qed.

Lemma reuse_ends_the_session_witness :
  ∃ e', run (w_refresh (Some "T1")) w_late = (Ok (Http 401), e') ∧
    kget (now w_late) (_key "T2") (db e') = None ∧
    (∀ T' v u, T' ∈ kmembers (now w_late) (_user_key w_uid) (db w_late) →
       kget (now w_late) (_key T') (db e') = Some v → _owner (λ _, Ok "") (λ _, "") v ≠ Ok (u, JStr "sn")) ∧
    (∀ t, (t < now w_late + seconds (_ttl 30))%Z → is_Some (kget t (ended_session_key "sn") (db e'))).
Proof.
  apply (reuse_ends_the_session (λ _, Ok "") w_text_raw (λ _, "") (λ s, s) w_secs str_of_Z 30 15
           "T1" "T2" w_uid "hash" "sn" 0 w_late).
  1-3: done.
  1: lia.
  - exact w_rotated_ok.
  - vm_compute. done.
  - vm_compute. done.
  - intros T v HT. rewrite w_index in HT. apply elem_of_singleton in HT as ->.
    vm_compute. intros [= <-]. by eexists.
  - by vm_compute.
Defined.

(** The session was logged out of without its refresh token: it is recorded as ended. *)
Definition w_ended : env := (run (w_logout None (Some (Some w_uid, Some "sn"))) w_env).2.

Lemma ended_session_gets_no_token_witness :
  ∃ e', run (w_refresh (Some "T1")) w_ended = (Ok (Http 401), e') ∧
    ∀ T', strs (db e') !! _key T' = if bool_decide (T' = "T1") then None else strs (db w_ended) !! _key T'.
Proof.
  apply (ended_session_gets_no_token (λ _, Ok "") w_text_raw (λ _, "") (λ s, s) w_secs str_of_Z 30 15
           "T1" w_uid "hash" "sn" (w_text_raw "1") w_ended); try done; by vm_compute.
Defined.

(** The record that a logout writes lives as long as an access token, the
    refresh token it left for thirty days: a logout without the refresh token
    refuses the session's refresh for sixteen minutes, after which the same
    token continues it. *)
Example logout_outlived :
  (run (w_refresh (Some "T1")) (later (seconds 959) w_ended)).1 = Ok (Http 401) ∧
  (run (w_refresh (Some "T1")) (later (seconds 960) w_ended)).1 = Ok (TokenPair w_uid (JStr "sn") "T2").
Proof. split; vm_compute; reflexivity. Qed.
