(* ===== verification/RefreshLogic.v ===== *)
(** * What every interleaving of token requests keeps

    [wp] follows a program with the names it alone holds: the token names it
    drew and has not issued, and the sessions whose only token it took.
    [sound]: the requests' holdings are disjoint from each other and from the
    store, so that a session has one token and a token is taken once.  Every
    step keeps it. *)

From stdpp Require Import base strings list gmap relations.
From Stdlib Require Import ZArith Lia.
From Corelib Require Import SpecFloat.
From S2P Require Import Prelude PyText PyNum PyJson Sessions RedisProg RefreshTokens.

Local Open Scope string_scope.

Section logic.
Context `{J : JsonCodec} (py_repr : json → string).

(** ** Token keys and what is stored under them *)

Definition token_name (k : string) : option string := strip_prefix _PREFIX k.
#[local] Arguments token_name : simpl never.

Lemma token_name_key T : token_name (_key T) = Some T.
Proof. apply strip_prefix_app. Qed.

Lemma token_name_some k T : token_name k = Some T → k = _key T.
Proof. apply strip_prefix_Some. Qed.

(** The session of a stored token. *)
Definition token_sid (v : bytes) : option string :=
  match json_loads v with
  | Ok (JDict d) => match sid_of py_repr d with JStr s => Some s | _ => None end
  | _ => None
  end.
Definition sid_set (v : bytes) : gset string := match token_sid v with Some s => {[s]} | None => ∅ end.

Lemma sid_set_spec v sn : sn ∈ sid_set v ↔ token_sid v = Some sn.
Proof. unfold sid_set. destruct (token_sid v); set_solver. Qed.

(** The tokens a transaction stores. *)
Definition issues (l : list write) : list (string * bytes) :=
  omap (λ w, match w with WSet k v _ => (λ T, (T, v)) <$> token_name k | _ => None end) l.

(** The token stored under a name, expired or not. *)
Definition tok (d : rdb) (T : string) : option bytes := fst <$> strs d !! _key T.

Lemma key_inj T T' : _key T = _key T' → T = T'.
Proof. intros H. apply (f_equal token_name) in H. rewrite !token_name_key in H. congruence. Qed.

Lemma kget_tok now k d v T : kget now k d = Some v → k = _key T → tok d T = Some v.
Proof.
  intros H ->. unfold kget, tok in *. destruct (strs d !! _key T) as [[v' e]|]; [|done].
  destruct (Z.ltb now e); [|done]. cbn. congruence.
Qed.

Lemma do_write_tok now w d T :
  tok (do_write now w d) T =
  match w with
  | WSet k v _ => if bool_decide (k = _key T) then Some v else tok d T
  | _ => tok d T
  end.
Proof.
  unfold tok. destruct w as [k v ttl|k m|k ttl]; [|done|done].
  cbn [do_write set_strs strs]. case_bool_decide as H.
  - subst. by rewrite lookup_insert_eq.
  - by rewrite lookup_insert_ne.
Qed.

Lemma multi_tok now l d T :
  tok (foldl (λ d w, do_write now w d) d l) T =
  match last (snd <$> List.filter (λ p, bool_decide (p.1 = T)) (issues l)) with Some v => Some v | None => tok d T end.
Proof.
  revert d. induction l as [|w l IH]; intros d; [done|]. cbn [foldl]. rewrite IH, do_write_tok. clear IH.
  unfold issues. cbn [omap list_omap]. destruct w as [k v ttl|k m|k ttl]; [|done|done].
  destruct (token_name k) as [T'|] eqn:E.
  - apply token_name_some in E as ->. cbn [fmap option_fmap option_map List.filter fst].
    case_bool_decide as H1; case_bool_decide as H2; [| | by subst|].
    + cbn [fmap list_fmap snd]. fold (issues l). rewrite last_cons.
      by destruct (last (snd <$> _)).
    + apply key_inj in H1. done.
    + done.
  - cbn [fmap option_fmap option_map]. rewrite bool_decide_eq_false_2; [done|].
    intros ->. by rewrite token_name_key in E.
Qed.

Lemma delete_tok d T0 T :
  tok (set_strs (delete (_key T0)) d) T = if bool_decide (T = T0) then None else tok d T.
Proof.
  unfold tok. cbn [set_strs strs]. case_bool_decide as HT.
  - subst. by rewrite lookup_delete_eq.
  - rewrite lookup_delete_ne; [done|]. by intros H%key_inj.
Qed.

Lemma delete_other_tok d k T : token_name k = None → tok (set_strs (delete k) d) T = tok d T.
Proof.
  intros Hk. unfold tok. cbn [set_strs strs]. rewrite lookup_delete_ne; [done|].
  intros ->. by rewrite token_name_key in Hk.
Qed.

(** ** The logic *)

Fixpoint wp {A} (p : prog A) (ts ss : gset string) (Q : A → gset string → gset string → Prop) : Prop :=
  match p with
  | Ret a => Q a ts ss
  | Raise _ => True
  | Do c k =>
      match c with
      | Multi l =>
          match issues l with
          | [] => ∀ r, wp (k r) ts ss Q
          | [(T, v)] => T ∈ ts ∧ sid_set v ⊆ ss ∧ ∀ r, wp (k r) (ts ∖ {[T]}) (ss ∖ sid_set v) Q
          | _ => False
          end
      | GetDel key =>
          ∀ r, wp (k r) ts (match r, token_name key with RValue v, Some _ => ss ∪ sid_set v | _, _ => ss end) Q
      | _ => ∀ r, wp (k r) ts ss Q
      end
  | Ask q k => ∀ a, wp (k a) ts ss Q
  | Clock k => ∀ t, wp (k t) ts ss Q
  | Sleep d k => wp k ts ss Q
  | Draw k => ∀ x, x ≠ "" → wp (k x) (ts ∪ {[x]}) (ss ∪ {[x]}) Q
  end.

Lemma wp_bind {A B} (p : prog A) (f : A → prog B) ts ss Q :
  wp p ts ss (λ a ts ss, wp (f a) ts ss Q) → wp (p ≫= f) ts ss Q.
Proof.
  revert ts ss. induction p as [a|e|c k IH|q k IH|k IH|d k IH|k IH]; intros ts ss H; cbn in *; auto.
  destruct c; try (intros r; apply IH, H).
  destruct (issues l) as [|[T v] []]; [intros r; apply IH, H | | done].
  destruct H as (H1 & H2 & H3). split; [done|]. split; [done|]. intros r. apply IH, H3.
Qed.

Lemma wp_conseq {A} (p : prog A) ts ss (Q Q' : A → gset string → gset string → Prop) :
  (∀ a ts ss, Q a ts ss → Q' a ts ss) → wp p ts ss Q → wp p ts ss Q'.
Proof.
  intros HQ. revert ts ss. induction p as [a|e|c k IH|q k IH|k IH|d k IH|k IH]; intros ts ss H; cbn in *; auto.
  destruct c; try (intros r; apply IH, H).
  destruct (issues l) as [|[T v] []]; [intros r; apply IH, H | | done].
  destruct H as (H1 & H2 & H3). split; [done|]. split; [done|]. intros r. apply IH, H3.
Qed.

Lemma wp_fails {A} c (k : reply → prog A) e ts ss Q : wp (Do c k) ts ss Q →
  ∃ ts' ss', ts' ⊆ ts ∧ ss' ⊆ ss ∧ wp (k (RFail e)) ts' ss' Q.
Proof.
  cbn. intros H. destruct c; try (exists ts, ss; split_and!; [done..|apply (H (RFail e))]).
  destruct (issues l) as [|[T v] []]; [exists ts, ss; split_and!; [done..|apply (H (RFail e))] | | done].
  destruct H as (_ & _ & H). exists (ts ∖ {[T]}), (ss ∖ sid_set v). split_and!; [set_solver..|apply H].
Qed.

(** A program that issues no token. *)
Fixpoint quiet {A} (p : prog A) : Prop :=
  match p with
  | Ret _ | Raise _ => True
  | Do c k => match c with Multi l => issues l = [] | _ => True end ∧ ∀ r, quiet (k r)
  | Ask _ k => ∀ a, quiet (k a)
  | Clock k => ∀ t, quiet (k t)
  | Sleep _ k => quiet k
  | Draw k => ∀ x, quiet (k x)
  end.

Lemma quiet_bind {A B} (p : prog A) (f : A → prog B) : quiet p → (∀ a, quiet (f a)) → quiet (p ≫= f).
Proof.
  intros Hp Hf. induction p as [a|e|c k IH|q k IH|k IH|d k IH|k IH]; cbn in *; auto.
  destruct Hp as [Hc Hk]. split; [done|]. intros r. apply IH, Hk.
Qed.

(** What a quiet program holds only grows. *)
Lemma quiet_wp {A} (p : prog A) ts ss (Q : A → gset string → gset string → Prop) :
  quiet p → (∀ a ts' ss', ts ⊆ ts' → ss ⊆ ss' → Q a ts' ss') → wp p ts ss Q.
Proof.
  intros Hp. revert ts ss. induction p as [a|e|c k IH|q k IH|k IH|d k IH|k IH]; intros ts ss HQ; cbn in *; auto.
  - destruct Hp as [Hc Hk]. destruct c as [key|key|l|key ms|key]; try (intros r; by apply IH).
    + intros r. apply IH; [done|]. intros a ts' ss' Ht Hs. apply HQ; [done|].
      etrans; [|exact Hs]. destruct r, (token_name key); set_solver.
    + rewrite Hc. intros r. by apply IH.
  - intros x _. apply IH; [done|]. intros a ts' ss' Ht Hs. apply HQ; set_solver.
Qed.

(** ** The invariant

    [ht], [hs]: the request that holds a name. *)

Definition any {A} : A → gset string → gset string → Prop := λ _ _ _, True.

Definition holds (ht hs : gmap string nat) (i : nat) {A} (p : prog A) : Prop :=
  ∃ ts ss, wp p ts ss any ∧ (∀ x, x ∈ ts → ht !! x = Some i) ∧ (∀ x, x ∈ ss → hs !! x = Some i).

Record tokens_inv (d : rdb) (used : gset string) (taken : list string) (ht hs : gmap string nat) : Prop := {
  inv_held T i : ht !! T = Some i → T ∈ used ∧ (_key T ∉ taken) ∧ tok d T = None;
  inv_session sn i : hs !! sn = Some i → sn ∈ used ∧ ∀ T v, tok d T = Some v → token_sid v ≠ Some sn;
  inv_stored T v : tok d T = Some v → T ∈ used ∧ (_key T ∉ taken) ∧ ∀ sn, token_sid v = Some sn → sn ∈ used;
  inv_one T1 T2 v1 v2 sn : tok d T1 = Some v1 → tok d T2 = Some v2 →
    token_sid v1 = Some sn → token_sid v2 = Some sn → T1 = T2;
  inv_taken T : _key T ∈ taken → T ∈ used;
  inv_once : NoDup (omap token_name taken) }.

Definition sound {A} (s : sys A) : Prop :=
  ∃ ht hs, tokens_inv (store s) (used s) (taken s) ht hs ∧
    ∀ i p, pool s !! i = Some p → holds ht hs i p.

(** One request moves on: its own names may change, the others' stay. *)
Lemma sound_move {A} (s : sys A) i p' (s' : sys A) ht' hs' :
  pool s' = <[i := p']> (pool s) →
  tokens_inv (store s') (used s') (taken s') ht' hs' → holds ht' hs' i p' →
  (∀ j p, j ≠ i → pool s !! j = Some p → holds ht' hs' j p) → sound s'.
Proof.
  intros Hp Hi Hh Ho. exists ht', hs'. split; [done|]. intros j p. rewrite Hp.
  destruct (decide (j = i)) as [->|Hne].
  - rewrite lookup_insert_eq. by intros [= <-].
  - rewrite lookup_insert_ne by done. by apply Ho.
Qed.

Lemma inv_same d d' used taken ht hs : (∀ T, tok d' T = tok d T) →
  tokens_inv d used taken ht hs → tokens_inv d' used taken ht hs.
Proof.
  intros E [H1 H2 H3 H4 H5 H6]. split.
  - intros T i. rewrite E. apply H1.
  - intros sn i Hi. destruct (H2 sn i Hi) as [? Hs]. split; [done|]. intros T v. rewrite E. apply Hs.
  - intros T v. rewrite E. apply H3.
  - intros T1 T2 v1 v2 sn. rewrite !E. apply H4.
  - done.
  - done.
Qed.

(** A token is removed: what it named is nobody's, or its taker's. *)
Lemma inv_remove d d' used taken ht hs T0 : (∀ T, tok d' T = if bool_decide (T = T0) then None else tok d T) →
  tokens_inv d used taken ht hs → tokens_inv d' used taken ht hs.
Proof.
  intros E [H1 H2 H3 H4 H5 H6].
  assert (∀ T v, tok d' T = Some v → tok d T = Some v) as Hsub by (intros T v; rewrite E; by case_bool_decide).
  split.
  - intros T i Hi. destruct (H1 T i Hi) as (? & ? & Hn). rewrite E. by case_bool_decide.
  - intros sn i Hi. destruct (H2 sn i Hi) as [? Hs]. split; [done|]. intros T v Hv. by eapply Hs, Hsub.
  - intros T v Hv. by apply H3, Hsub.
  - intros T1 T2 v1 v2 sn E1 E2. apply H4; by apply Hsub.
  - done.
  - done.
Qed.

Lemma taken_app k T taken : _key T ∈ (taken ++ [k])%list → _key T ∈ taken ∨ token_name k = Some T.
Proof. intros [Hy|Hy%list_elem_of_singleton]%elem_of_app; [by left|]. right. subst k. apply token_name_key. Qed.

Lemma inv_take d d' used taken ht hs i T0 v : tok d T0 = Some v →
  (∀ T, tok d' T = if bool_decide (T = T0) then None else tok d T) →
  tokens_inv d used taken ht hs →
  let hs' := match token_sid v with Some sn => <[sn := i]> hs | None => hs end in
  tokens_inv d' used (taken ++ [_key T0]) ht hs' ∧ (∀ j x, j ≠ i → hs !! x = Some j → hs' !! x = Some j).
Proof.
  intros Hv E Hinv hs'. pose proof (inv_remove _ _ _ _ _ _ _ E Hinv) as [H1 H2 H3 H4 H5 H6].
  destruct Hinv as [I1 I2 I3 I4 I5 I6]. destruct (I3 T0 v Hv) as (Hu & Hnt & Hs).
  assert (tok d' T0 = None) as Hgone by (rewrite E; by rewrite bool_decide_eq_true_2).
  assert (∀ j x, j ≠ i → hs !! x = Some j → hs' !! x = Some j) as Hother.
  { intros j x Hj Hx. unfold hs'. destruct (token_sid v) as [sn|] eqn:HS; [|done].
    destruct (decide (sn = x)) as [->|]; [|by rewrite lookup_insert_ne].
    destruct (I2 x j Hx) as [_ Hno]. by destruct (Hno T0 v Hv). }
  split; [|done]. split.
  - intros T j Hj. destruct (H1 T j Hj) as (? & Hn & ?). split_and!; [done | | done].
    intros [Hy|[= ->]%(eq_trans (eq_sym (token_name_key T0)))]%taken_app; [done|].
    destruct (I1 T j Hj) as (_ & _ & Hn'). congruence.
  - intros sn j Hj. unfold hs' in Hj. destruct (token_sid v) as [sn0|] eqn:HS; [|by apply (H2 sn j)].
    apply lookup_insert_Some in Hj as [[<- <-]|[_ Hj]]; [|by apply (H2 sn j)].
    split; [by apply Hs|]. intros T v' Hv' HS'. assert (T = T0) as ->; [|congruence].
    apply (I4 T T0 v' v sn0); [|done..]. rewrite E in Hv'. by case_bool_decide.
  - intros T v' Hv'. destruct (H3 T v' Hv') as (? & Hn & ?). split_and!; [done | | done].
    intros [Hy|[= ->]%(eq_trans (eq_sym (token_name_key T0)))]%taken_app; [done|]. congruence.
  - done.
  - intros T [Hy|[= ->]%(eq_trans (eq_sym (token_name_key T0)))]%taken_app; [by apply H5|]. done.
  - rewrite omap_app. cbn [omap list_omap]. rewrite token_name_key. apply NoDup_app. split; [done|].
    split; [|apply NoDup_singleton]. intros T HT HT0%list_elem_of_singleton. subst T.
    apply list_elem_of_omap in HT as (k & Hk & Hn%token_name_some). by subst k.
Qed.

Lemma inv_taken_other d used taken ht hs k : token_name k = None →
  tokens_inv d used taken ht hs → tokens_inv d used (taken ++ [k]) ht hs.
Proof.
  intros Hk [H1 H2 H3 H4 H5 H6].
  assert (∀ T, _key T ∈ (taken ++ [k])%list → _key T ∈ taken) as Hin.
  { intros T [Hy|Hy]%taken_app; [done|]. congruence. }
  split; [| done | | done | |].
  - intros T i Hi. destruct (H1 T i Hi) as (? & Hn & ?). split_and!; [done | by intros Hy%Hin | done].
  - intros T v Hv. destruct (H3 T v Hv) as (? & Hn & ?). split_and!; [done | by intros Hy%Hin | done].
  - intros T Hy%Hin. by apply H5.
  - rewrite omap_app. cbn [omap list_omap]. by rewrite Hk, app_nil_r.
Qed.

Lemma inv_issue d d' used taken ht hs i T0 v : ht !! T0 = Some i →
  (∀ sn, token_sid v = Some sn → hs !! sn = Some i) →
  (∀ T, tok d' T = if bool_decide (T = T0) then Some v else tok d T) →
  tokens_inv d used taken ht hs →
  tokens_inv d' used taken (delete T0 ht) (match token_sid v with Some sn => delete sn hs | None => hs end).
Proof.
  intros Ht Hs E [H1 H2 H3 H4 H5 H6]. destruct (H1 T0 i Ht) as (Hu & Hn & _). split.
  - intros T j [Hne Hj]%lookup_delete_Some. destruct (H1 T j Hj) as (? & ? & ?).
    rewrite E, bool_decide_eq_false_2 by done. done.
  - intros sn j Hj. assert (hs !! sn = Some j ∧ token_sid v ≠ Some sn) as [Hj' Hv].
    { destruct (token_sid v) as [sn0|]; [|done]. apply lookup_delete_Some in Hj as [? ?]. split; congruence. }
    destruct (H2 sn j Hj') as [? Hno]. split; [done|]. intros T v'. rewrite E.
    case_bool_decide; [by intros [= <-] | apply Hno].
  - intros T v'. rewrite E. case_bool_decide; [|apply H3]. intros [= <-]. subst T.
    split_and!; [done..|]. intros sn HS. by destruct (H2 sn i (Hs sn HS)).
  - intros T1 T2 v1 v2 sn. rewrite !E. intros E1 E2 S1 S2.
    assert (∀ T v', tok d T = Some v' → token_sid v' = Some sn → token_sid v = Some sn → False) as Hx.
    { intros T v' Hv' HS' HS. destruct (H2 sn i (Hs sn HS)) as [_ Hno]. by apply (Hno T v'). }
    case_bool_decide; case_bool_decide; simplify_eq; [done | exfalso; eauto.. |]. by apply (H4 T1 T2 v1 v2 sn).
  - done.
  - done.
Qed.

Lemma inv_draw d used taken ht hs i x : x ∉ used → tokens_inv d used taken ht hs →
  tokens_inv d ({[x]} ∪ used) taken (<[x := i]> ht) (<[x := i]> hs) ∧
  (∀ y j, ht !! y = Some j → <[x := i]> ht !! y = Some j) ∧ (∀ y j, hs !! y = Some j → <[x := i]> hs !! y = Some j).
Proof.
  intros Hx [H1 H2 H3 H4 H5 H6].
  assert (∀ T v, tok d T = Some v → T ≠ x) as Hfresh by (intros T v Hv ->; by destruct (H3 x v Hv)).
  split; [split|split].
  - intros T j [[<- <-]|[_ Hj]]%lookup_insert_Some.
    + split; [set_solver|]. split; [by intros H%H5|].
      destruct (tok d x) as [v|] eqn:E; [by destruct (Hfresh x v E) | done].
    + destruct (H1 T j Hj) as (? & ? & ?). split; [set_solver | done].
  - intros sn j [[<- <-]|[_ Hj]]%lookup_insert_Some.
    + split; [set_solver|]. intros T v Hv HS. destruct (H3 T v Hv) as (_ & _ & Hu). by apply Hx, Hu.
    + destruct (H2 sn j Hj) as [? ?]. split; [set_solver | done].
  - intros T v Hv. destruct (H3 T v Hv) as (? & ? & Hu). split; [set_solver|]. split; [done|].
    intros sn HS. specialize (Hu sn HS). set_solver.
  - done.
  - intros T HT. specialize (H5 T HT). set_solver.
  - done.
  - intros y j Hy. rewrite lookup_insert_ne; [done|]. intros <-. by destruct (H1 x j Hy).
  - intros y j Hy. rewrite lookup_insert_ne; [done|]. intros <-. by destruct (H2 x j Hy).
Qed.

(** ** Every step keeps it *)

(** A step that touches neither the store nor the names. *)
Lemma sound_quiet {A} (s : sys A) i p p' : sound s → pool s !! i = Some p →
  (∀ ts ss, wp p ts ss any → wp p' ts ss any) → sound (resume i p' s).
Proof.
  intros (ht & hs & Hinv & Hp) Hi Hw. destruct (Hp i _ Hi) as (ts & ss & H & Ht & Hs).
  apply (sound_move s i p' _ ht hs); [done | done | | by intros; apply Hp].
  exists ts, ss. split; [by apply Hw | done].
Qed.

Lemma sound_fails {A} (s : sys A) i c k e : sound s → pool s !! i = Some (Do c k) → sound (resume i (k (RFail e)) s).
Proof.
  intros (ht & hs & Hinv & Hp) Hi. destruct (Hp i _ Hi) as (ts & ss & Hw & Ht & Hs).
  apply (wp_fails _ _ e) in Hw as (ts' & ss' & ? & ? & Hw).
  apply (sound_move s i (k (RFail e)) _ ht hs); [done | done | | by intros; apply Hp].
  exists ts', ss'. split; [done|]. split; [intros x Hx; apply Ht | intros x Hx; apply Hs]; set_solver.
Qed.

(** A command has run, and replied [r]. *)
Definition after {A} (s : sys A) (i : nat) (c : cmd) (k : reply → prog A) (r : reply) (d : rdb) : sys A :=
  resume i (k r) {| store := d; time := time s; used := used s; pool := pool s; taken := (taken s ++ takes c r)%list |}.

Lemma sound_same {A} (s : sys A) i c (k : reply → prog A) r d : sound s → pool s !! i = Some (Do c k) →
  (∀ T, tok d T = tok (store s) T) → (∀ T, takes c r = [_key T] → False) →
  (∀ ts ss, wp (Do c k) ts ss any → wp (k r) ts ss any) → sound (after s i c k r d).
Proof.
  intros (ht & hs & Hinv & Hp) Hi Hd Htk Hw. destruct (Hp i _ Hi) as (ts & ss & H & Ht & Hs).
  eapply (sound_move s i (k r) _ ht hs); [done | | | by intros; apply Hp].
  - cbn. eapply inv_same; [exact Hd|].
    destruct c; cbn [takes] in *; rewrite ?app_nil_r; [done | | done..].
    destruct r; rewrite ?app_nil_r; [done..| |done|done]. destruct (token_name k0) as [T|] eqn:Hk.
    + apply token_name_some in Hk as ->. by destruct (Htk T).
    + by apply inv_taken_other.
  - exists ts, ss. split; [by apply Hw | done].
Qed.

Lemma sound_getdel {A} (s : sys A) i T0 (k : reply → prog A) r : sound s → pool s !! i = Some (Do (GetDel (_key T0)) k) →
  (∀ v, r = RValue v → tok (store s) T0 = Some v) →
  sound (after s i (GetDel (_key T0)) k r (set_strs (delete (_key T0)) (store s))).
Proof.
  intros (ht & hs & Hinv & Hp) Hi Hv. destruct (Hp i _ Hi) as (ts & ss & Hw & Ht & Hs).
  cbn [wp] in Hw. specialize (Hw r). rewrite token_name_key in Hw.
  assert ((∃ v, r = RValue v) ∨ takes (GetDel (_key T0)) r = [] ∧ wp (k r) ts ss any) as [[v ->]|[Hn Hw']]
    by (destruct r; eauto).
  - destruct (inv_take _ _ _ _ _ _ i T0 v (Hv v eq_refl) (delete_tok _ T0) Hinv) as [Hinv' Ho].
    eapply (sound_move s i (k (RValue v)) _ ht); [done | exact Hinv' | |].
    + exists ts, (ss ∪ sid_set v). split; [exact Hw|]. split; [done|].
      intros x [Hx|Hx%sid_set_spec]%elem_of_union; [|rewrite Hx; by rewrite lookup_insert_eq].
      destruct (token_sid v) as [sn|]; [|by apply Hs].
      destruct (decide (sn = x)) as [->|]; [by rewrite lookup_insert_eq | rewrite lookup_insert_ne by done; by apply Hs].
    + intros j p Hj Hpj. destruct (Hp j p Hpj) as (ts' & ss' & ? & ? & ?).
      exists ts', ss'. split; [done|]. split; [done|]. intros x Hx. apply (Ho j x); auto.
  - unfold after. rewrite Hn, app_nil_r. eapply (sound_move s i (k r)); [done | | by exists ts, ss | by intros; apply Hp].
    eapply inv_remove; [apply delete_tok | exact Hinv].
Qed.

Lemma sound_issue {A} (s : sys A) i l T0 v (k : reply → prog A) r : sound s → pool s !! i = Some (Do (Multi l) k) →
  issues l = [(T0, v)] →
  sound (after s i (Multi l) k r (foldl (λ d w, do_write (time s) w d) (store s) l)).
Proof.
  intros (ht & hs & Hinv & Hp) Hi Hl. destruct (Hp i _ Hi) as (ts & ss & Hw & Ht & Hs).
  cbn [wp] in Hw. rewrite Hl in Hw. destruct Hw as (HT & Hv & Hw).
  assert (∀ sn, token_sid v = Some sn → hs !! sn = Some i) as Hsv by (intros sn Hsn; by apply Hs, Hv, sid_set_spec).
  unfold after. cbn [takes]. rewrite app_nil_r. eapply (sound_move s i (k r)); [done | | |].
  - eapply (inv_issue _ _ _ _ _ _ i T0 v); [by apply Ht | exact Hsv | | done].
    intros T. cbn [resume store]. rewrite multi_tok, Hl. cbn. rewrite (bool_decide_ext (T = T0) (T0 = T)) by done.
    by case_bool_decide.
  - exists (ts ∖ {[T0]}), (ss ∖ sid_set v). split; [apply Hw|]. split.
    + intros x Hx. rewrite lookup_delete_ne by set_solver. apply Ht. set_solver.
    + intros x Hx. destruct (token_sid v) as [sn|] eqn:E; [|apply Hs; set_solver].
      assert (sn ∈ sid_set v) by (by apply sid_set_spec).
      rewrite lookup_delete_ne by set_solver. apply Hs. set_solver.
  - intros j p Hj Hpj. destruct (Hp j p Hpj) as (ts' & ss' & ? & Ht' & Hs'). exists ts', ss'. split; [done|]. split.
    + intros x Hx. rewrite lookup_delete_ne; [by apply Ht'|]. intros <-. specialize (Ht T0 HT). specialize (Ht' _ Hx). congruence.
    + intros x Hx. destruct (token_sid v) as [sn|] eqn:E; [|by apply Hs'].
      rewrite lookup_delete_ne; [by apply Hs'|]. intros <-. specialize (Hs' _ Hx).
      specialize (Hsv _ eq_refl). congruence.
Qed.

(** A command runs; its reply arrives or is lost. *)
Lemma sound_do {A} (s : sys A) i c (k : reply → prog A) r d r' e : sound s → pool s !! i = Some (Do c k) →
  exec (time s) c (store s) = (r, d) → r' = r ∨ r' = RFail e → sound (after s i c k r' d).
Proof.
  intros Hs Hi Hex Hr. destruct c as [key|key|l|key ms|key]; cbn in Hex; simplify_eq.
  - eapply sound_same; [done..|]. intros ts ss Hw. apply Hw.
  - destruct (token_name key) as [T0|] eqn:Hkey.
    + apply token_name_some in Hkey as ->. apply sound_getdel; [done..|]. intros v ->.
      destruct Hr as [Hr|]; [|done]. destruct (kget _ _ _) eqn:E; [|done]. simplify_eq. by eapply kget_tok.
    + apply sound_same; [done..|intros T; by apply delete_other_tok | |].
      * intros T HT. destruct r'; cbn in HT; simplify_eq.
      * intros ts ss Hw. specialize (Hw r'). rewrite Hkey in Hw. by destruct r'.
  - destruct (issues l) as [|[T0 v] []] eqn:Hl.
    + apply sound_same; [done..| | done |].
      * intros T. rewrite multi_tok. by rewrite Hl.
      * intros ts ss Hw. cbn [wp] in Hw. rewrite Hl in Hw. apply Hw.
    + by eapply sound_issue.
    + destruct Hs as (ht & hs & _ & Hp). destruct (Hp i _ Hi) as (ts & ss & Hw & _). cbn [wp] in Hw. by rewrite Hl in Hw.
  - eapply sound_same; [done..|]. intros ts ss Hw. apply Hw.
  - eapply sound_same; [done..|]. intros ts ss Hw. apply Hw.
Qed.

Lemma sound_step {A} (arrives : prog A → Prop) s s' : (∀ p, arrives p → wp p ∅ ∅ any) →
  sound s → step arrives s s' → sound s'.
Proof.
  intros Ha Hs Hst. destruct Hst as [s i p Hp Hi|s d Hd|s i c k r d Hi Hex|s i c k e Hi|s i c k e r d Hi Hex
    |s i q k a Hi|s i k Hi|s i d k Hi|s i k x Hi Hx Hne].
  - destruct Hs as (ht & hs & Hinv & Hh). apply (sound_move s i p _ ht hs); [done | done | | by intros; apply Hh].
    exists ∅, ∅. split; [by apply Ha|]. split; set_solver.
  - done.
  - eapply (sound_do s i c k r d r OtherError); auto.
  - by eapply sound_fails.
  - pose proof (sound_do s i c k r d (RFail e) e Hs Hi Hex (or_intror eq_refl)) as H.
    unfold after in H. destruct c; cbn [takes] in H; rewrite app_nil_r in H; exact H.
  - eapply sound_quiet; [done..|]. intros ts ss H. apply H.
  - eapply sound_quiet; [done..|]. intros ts ss H. apply H.
  - eapply sound_quiet; [done..|]. intros ts ss H. apply H.
  - destruct Hs as (ht & hs & Hinv & Hh). destruct (Hh i _ Hi) as (ts & ss & Hw & Ht & Hs).
    destruct (inv_draw _ _ _ _ _ i x Hx Hinv) as (Hinv' & Kt & Ks).
    eapply (sound_move s i (k x)); [done | exact Hinv' | |].
    + exists (ts ∪ {[x]}), (ss ∪ {[x]}). split; [by apply Hw|].
      split; intros y [Hy|Hy%elem_of_singleton]%elem_of_union; subst;
        [by apply Kt, Ht | by rewrite lookup_insert_eq | by apply Ks, Hs | by rewrite lookup_insert_eq].
    + intros j p _ Hpj. destruct (Hh j p Hpj) as (ts' & ss' & ? & ? & ?).
      exists ts', ss'. split; [done|]. split; intros y Hy; [apply Kt | apply Ks]; auto.
Qed.

Lemma sound_initial {A} t : sound (@initial J A t).
Proof.
  exists ∅, ∅. split; [|intros i p; cbn [initial pool]; by rewrite lookup_empty].
  assert (∀ T, tok {| strs := ∅; groups := ∅ |} T = None) as Hn by (intros T; unfold tok; cbn; by rewrite lookup_empty).
  split; cbn; intros *; rewrite ?Hn, ?lookup_empty; try done; [|constructor]. by intros H%elem_of_nil.
Qed.

Lemma sound_reach {A} (arrives : prog A → Prop) t s : (∀ p, arrives p → wp p ∅ ∅ any) →
  rtc (step arrives) (initial t) s → sound s.
Proof.
  intros Ha H. assert (∀ s0, rtc (step arrives) s0 s → sound s0 → sound s) as Hall.
  { clear H. induction 1; [done|]. intros Hs. apply IHrtc. by eapply sound_step. }
  by apply (Hall _ H), sound_initial.
Qed.
End logic.
