(* ===== verification/RefreshProps.v ===== *)
(** * Refresh tokens under concurrency

    What the endpoints of RefreshTokens guarantee however requests interleave
    (a session has one token, a token is taken once), and what a rotation, a
    retry and a reuse do when one request runs alone. *)

From stdpp Require Import base strings list gmap relations.
From Stdlib Require Import ZArith Lia.
From Corelib Require Import SpecFloat.
From S2P Require Import Prelude PyText PyNum PyJson Sessions RedisProg RefreshTokens RefreshRuns RefreshLogic.

Local Open Scope string_scope.

#[local] Create HintDb quiet.

Section props.
Context `{J : JsonCodec}.
Context (raw_text : bytes → res string) (text_raw : string → bytes) (py_repr : json → string)
        (sha256_hex : string → string) (secs : Z → float) (repr_time : Z → string)
        (refresh_days access_minutes : Z).

(** ** What each program holds *)

Abbreviation token_sid := (token_sid py_repr).
Abbreviation sid_set := (sid_set py_repr).
Abbreviation wp := (wp py_repr).
Abbreviation claim_refresh_token := (claim_refresh_token py_repr secs refresh_days).
Abbreviation create_refresh_token := (create_refresh_token sha256_hex refresh_days).

Lemma quiet_call c : match c with Multi l => issues l = [] | _ => True end → quiet (call c).
Proof. intros H. split; [done|]. by intros []. Qed.

Lemma quiet_lifted {A} (r : res A) : quiet (lifted r).
Proof. by destruct r. Qed.

Lemma token_name_record t : token_name (rotated_key t) = None.
Proof. reflexivity. Qed.
Lemma token_name_ended s : token_name (ended_session_key s) = None.
Proof. reflexivity. Qed.
Lemma token_name_user_ended s : token_name (user_ended_key s) = None.
Proof. reflexivity. Qed.

Lemma quiet_setex k v ttl : token_name k = None → quiet (setex k v ttl).
Proof.
  intros H. apply quiet_bind; [|done]. apply quiet_call. unfold issues. cbn [omap list_omap]. by rewrite H.
Qed.

Lemma quiet_poll {B} fuel deadline go (again : B → prog B) a : (∀ a, quiet (again a)) → quiet (poll fuel deadline go again a).
Proof.
  intros H. revert a. induction fuel as [|fuel IH]; intros a; cbn [poll]; [exact I|].
  destruct (go a); [|exact I]. intros t. cbn. destruct (Z.ltb t deadline); [|exact I].
  cbn. apply quiet_bind; [apply H | exact IH].
Qed.

Lemma quiet_guarded {B} (p : prog B) h : quiet p → (∀ e, quiet (h e)) → quiet (guarded p h).
Proof.
  intros Hp Hh. induction p as [a|e|c k IH|q k IH|k IH|d k IH|k IH]; cbn in *; auto.
  destruct Hp as [Hc Hk]. split; [done|]. intros r. apply IH, Hk.
Qed.

Ltac quiet_step :=
  first
    [ exact I
    | progress intros
    | match goal with
      | |- quiet (_ ≫= _) => apply quiet_bind
      | |- quiet (_ <$> _) => apply quiet_bind
      | |- quiet (call _) => apply quiet_call; done
      | |- quiet (lifted _) => apply quiet_lifted
      | |- quiet (setex _ _ _) => apply quiet_setex; done
      | |- quiet (poll _ _ _ _ _) => apply quiet_poll
      | |- quiet (guarded _ _) => apply quiet_guarded
      | |- quiet (match ?x with _ => _ end) => destruct x
      | |- quiet (let '(_, _) := ?x in _) => destruct x
      end
    | assumption ].
Ltac quiet_tac := repeat quiet_step.

Lemma quiet_get k : quiet (get k). Proof. unfold get. quiet_tac. Qed.
Lemma quiet_getdel k : quiet (getdel k). Proof. unfold getdel. quiet_tac. Qed.
Lemma quiet_srem k ms : quiet (srem k ms). Proof. unfold srem. quiet_tac. Qed.
Lemma quiet_smembers k : quiet (smembers k). Proof. unfold smembers. quiet_tac. Qed.
Lemma quiet_clock : quiet clock. Proof. done. Qed.
Lemma quiet_new_session_id : quiet new_session_id. Proof. done. Qed.

#[local] Hint Resolve quiet_clock quiet_new_session_id quiet_get quiet_getdel quiet_srem quiet_smembers : quiet.
Ltac quiets := repeat first [quiet_step | solve [auto with quiet]].

Lemma quiet_rotation token : quiet (_rotation token).
Proof. unfold _rotation. quiets. Qed.
Lemma quiet_record_successor token successor : quiet (record_successor refresh_days token successor).
Proof. unfold record_successor. quiets. Qed.
Lemma quiet_record_session_ended sid ttl : quiet (_record_session_ended text_raw py_repr sid ttl).
Proof. apply quiet_setex, token_name_ended. Qed.
#[local] Hint Resolve quiet_rotation quiet_record_successor quiet_record_session_ended : quiet.

Lemma quiet_end_tokens index sid ts : quiet (end_tokens raw_text py_repr index sid ts).
Proof. induction ts as [|t ts IH]; cbn [end_tokens]; quiets. Qed.
#[local] Hint Resolve quiet_end_tokens : quiet.

Lemma quiet_end_reused_session claim : quiet (_end_reused_session raw_text text_raw py_repr refresh_days claim).
Proof. unfold _end_reused_session. quiets. Qed.
#[local] Hint Resolve quiet_end_reused_session : quiet.

Lemma quiet_replay token : quiet (replay raw_text text_raw py_repr secs refresh_days token).
Proof. unfold replay. quiets. Qed.

Lemma quiet_end_if_named sid ttl : quiet (end_if_named text_raw py_repr sid ttl).
Proof. unfold end_if_named. quiets. Qed.
#[local] Hint Resolve quiet_replay quiet_end_if_named : quiet.

Lemma quiet_revoke_refresh_token token : quiet (revoke_refresh_token raw_text text_raw py_repr access_minutes token).
Proof. unfold revoke_refresh_token. quiets. Qed.
Lemma quiet_session_was_ended sid : quiet (session_was_ended py_repr sid).
Proof. unfold session_was_ended. quiets. Qed.
Lemma quiet_revoke_each ts : quiet (revoke_each raw_text text_raw py_repr access_minutes ts).
Proof. induction ts as [|t ts IH]; cbn [revoke_each]; quiets. Qed.
#[local] Hint Resolve quiet_revoke_refresh_token quiet_session_was_ended quiet_revoke_each : quiet.

Lemma quiet_revoke_user_capabilities uid : quiet (revoke_user_capabilities uid).
Proof. unfold revoke_user_capabilities. cbn. by intros []. Qed.
Lemma quiet_revoke_all uid : quiet (revoke_all_refresh_tokens raw_text text_raw py_repr access_minutes uid).
Proof. unfold revoke_all_refresh_tokens. quiets. Qed.
#[local] Hint Resolve quiet_revoke_user_capabilities quiet_revoke_all : quiet.

Lemma quiet_end_all_sessions uid : quiet (end_all_sessions raw_text text_raw py_repr repr_time access_minutes uid).
Proof. unfold end_all_sessions. quiets. Qed.
Lemma quiet_load_user uid : quiet (load_user uid).
Proof. unfold load_user. destruct (uuid_parse uid); [|exact I]. cbn. by intros []. Qed.
Lemma quiet_is_company_active cid : quiet (is_company_active cid).
Proof. unfold is_company_active. cbn. by intros []. Qed.
#[local] Hint Resolve quiet_end_all_sessions quiet_load_user quiet_is_company_active : quiet.

Lemma quiet_logout token claims : quiet (logout raw_text text_raw py_repr access_minutes token claims).
Proof.
  unfold logout, end_session. quiets. induction (elements _) as [|u us IH]; cbn [foldr]; quiets.
Qed.

(** *** The programs that issue *)

Lemma flat_token_value uid cred s : flat_object (token_value uid cred (JStr s)) = true.
Proof. done. Qed.

Lemma truthy_str s : truthy (JStr s) = true ↔ s ≠ "".
Proof. cbn. case_bool_decide; naive_solver. Qed.

Lemma token_sid_value uid cred s : s ≠ "" → token_sid (json_dumps (token_value uid cred (JStr s))) = Some s.
Proof.
  intros Hs. unfold RefreshLogic.token_sid. rewrite loads_dumps by apply flat_token_value.
  unfold sid_of. cbn [token_value]. change (jget "sid" _) with (JStr s). by rewrite (proj2 (truthy_str s) Hs).
Qed.

(** A new token of [sid], which the program must hold; or of a drawn session. *)
Lemma wp_create uid h sid ts ss (Q : string → gset string → gset string → Prop) :
  (∀ s, sid = JStr s → s ≠ "" → s ∈ ss) → (truthy sid = true → ∃ s, sid = JStr s) →
  (∀ T ts ss, Q T ts ss) → wp (create_refresh_token uid h sid) ts ss Q.
Proof.
  intros Hs Ht HQ. unfold RefreshTokens.create_refresh_token. cbn. intros T HT.
  assert (∀ s ts' ss', T ∈ ts' → s ∈ ss' → s ≠ "" →
    wp (_ ← call (Multi [WSet (_key T) (json_dumps (token_value uid (credential_fingerprint sha256_hex h) (JStr s)))
                           (_ttl refresh_days); WAdd (_user_key uid) T; WExpire (_user_key uid) (_ttl refresh_days)]);
        mret T) ts' ss' Q) as Hput.
  { intros s ts' ss' HT' Hs' Hne. apply wp_bind. cbn [call RefreshLogic.wp].
    unfold issues. cbn [omap list_omap]. rewrite token_name_key. cbn [fmap option_fmap option_map].
    split; [done|]. split.
    - intros x Hx%sid_set_spec. rewrite token_sid_value in Hx by done. congruence.
    - intros []; cbn; auto. }
  destruct (truthy sid) eqn:E.
  - destruct (Ht eq_refl) as [s ->]. cbn [mbind prog_bind mret prog_ret]. apply truthy_str in E.
    apply Hput; [set_solver | | done]. pose proof (Hs s eq_refl E). set_solver.
  - cbn. intros s Hne. apply Hput; [set_solver..|done].
Qed.

(** A claimed token's session is the claimer's. *)
Definition claims_held (c : RefreshClaim) (ss : gset string) : Prop :=
  ∀ s, session_id c = JStr s → s ∈ ss.

Lemma parse_claim_sid raw v c : json_loads raw = Ok v → parse_claim py_repr v = Some c →
  (∃ s, session_id c = JStr s ∧ token_sid raw = Some s) ∨ session_id c = JNull.
Proof.
  intros Hl Hp. unfold RefreshLogic.token_sid. rewrite Hl. destruct v as [| | | | | |d]; try done.
  cbn [parse_claim] in Hp. destruct (dict_lookup "uid" d), (dict_lookup "cred" d); simplify_eq. cbn [session_id].
  unfold sid_of. destruct (truthy (jget "sid" d)); [left; eauto | by right].
Qed.

Lemma loads_some raw v : loads raw = Ok (Some v) → json_loads raw = Ok v.
Proof.
  unfold loads. destruct (json_loads raw) as [v'|e]; [congruence|].
  destruct e; cbn; discriminate.
Qed.

Definition claim_ok (c : RefreshClaim) (ss : gset string) : Prop :=
  session_id c = JNull ∨ ∃ s, session_id c = JStr s ∧ s ∈ ss.

Lemma wp_getdel T ts ss (Q : option bytes → gset string → gset string → Prop) :
  Q None ts ss → (∀ v, Q (Some v) ts (ss ∪ sid_set v)) → wp (getdel (_key T)) ts ss Q.
Proof.
  intros HN HS. unfold getdel, call. cbn [mbind prog_bind RefreshLogic.wp]. intros r.
  rewrite token_name_key. destruct r; cbn; auto.
Qed.

Lemma wp_new_session ts ss (Q : string → gset string → gset string → Prop) :
  (∀ s, s ≠ "" → Q s (ts ∪ {[s]}) (ss ∪ {[s]})) → wp new_session_id ts ss Q.
Proof. done. Qed.

Lemma wp_claim token ts ss (Q : option RefreshClaim → gset string → gset string → Prop) :
  (∀ c ts ss, (∀ claim, c = Some claim → claim_ok claim ss) → Q c ts ss) →
  wp (claim_refresh_token token) ts ss Q.
Proof.
  intros HQ. unfold RefreshTokens.claim_refresh_token. apply wp_bind, wp_getdel; [by apply HQ|].
  intros raw. apply wp_bind. destruct (loads raw) as [v|e] eqn:Hl; cbn [lifted RefreshLogic.wp]; [|done].
  destruct (v ≫= parse_claim py_repr) as [claim|] eqn:Hc; [|apply HQ; done].
  destruct v as [v|]; [|done]. cbn in Hc.
  pose proof (parse_claim_sid raw v claim (loads_some raw v Hl) Hc) as Hsid.
  apply wp_bind, quiet_wp; [auto with quiet|]. intros _ ts1 ss1 _ Hss1.
  apply wp_bind, quiet_wp; [auto with quiet|]. intros t ts2 ss2 _ Hss2.
  apply wp_bind, quiet_wp; [apply quiet_setex, token_name_record|]. intros _ ts3 ss3 _ Hss3.
  cbn. apply HQ. intros ? [= <-]. destruct Hsid as [(s & ? & Hs)|?]; [right|by left].
  exists s. split; [done|]. apply Hss3, Hss2, Hss1. apply elem_of_union_r. by apply sid_set_spec.
Qed.

Lemma claim_ok_mono c ss ss' : claim_ok c ss → ss ⊆ ss' → claim_ok c ss'.
Proof. intros [?|(s & ? & ?)] Hle; [by left | right; exists s; auto]. Qed.

Abbreviation continue_session :=
  (continue_session raw_text text_raw py_repr sha256_hex repr_time refresh_days access_minutes).

Lemma wp_continue token claim successor ts ss : (successor = None → claim_ok claim ss) →
  wp (continue_session token claim successor) ts ss any.
Proof.
  intros Hok. unfold RefreshTokens.continue_session.
  apply wp_bind, quiet_wp; [auto with quiet|]. intros user ts1 ss1 _ Hss1.
  destruct user as [u|]; [|done]. destruct (negb (is_active u)); [done|].
  destruct (negb (bool_decide _)); [by apply quiet_wp; [quiets|]|].
  apply wp_bind, quiet_wp; [destruct (acc_company u) as [cid|]; [destruct (bool_decide (cid = ""))|]; quiets|].
  intros active ts2 ss2 _ Hss2. destruct (negb active); [by apply quiet_wp; [quiets|]|].
  destruct successor as [sc|].
  { apply wp_bind, quiet_wp; [destruct (truthy (session_id claim)); quiets|]. done. }
  specialize (Hok eq_refl). apply (claim_ok_mono _ _ ss2) in Hok; [|set_solver].
  apply wp_bind. destruct (truthy (session_id claim)) eqn:Ht; cbn [mret prog_ret RefreshLogic.wp].
  - apply wp_bind, wp_create.
    + intros s Hs _. destruct Hok as [Hn|(s' & Hs' & ?)]; congruence.
    + intros _. destruct Hok as [Hn|(s' & Hs' & ?)]; [by rewrite Hn in Ht | eauto].
    + intros T ts3 ss3. apply wp_bind, quiet_wp; [auto with quiet|]. done.
  - apply wp_bind, wp_new_session. intros s Hne. apply wp_bind, wp_create.
    + intros s' [= <-] _. set_solver.
    + intros _. eauto.
    + intros T ts3 ss3. apply wp_bind, quiet_wp; [auto with quiet|]. done.
Qed.

(** What runs against the store: the endpoints, and the end of a user's
    sessions (a password change, a deactivation, a deletion). *)
Inductive request : prog response → Prop :=
  | request_login user : request (login sha256_hex refresh_days user)
  | request_refresh token :
      request (refresh raw_text text_raw py_repr sha256_hex secs repr_time refresh_days access_minutes token)
  | request_logout token claims : request (logout raw_text text_raw py_repr access_minutes token claims)
  | request_end uid :
      request (_ ← end_all_sessions raw_text text_raw py_repr repr_time access_minutes uid; mret NoContent).

Lemma request_wp p : request p → wp p ∅ ∅ any.
Proof.
  destruct 1 as [user|token|token claims|uid].
  - unfold login. destruct user as [u|]; [|done]. destruct (is_active u); [|done].
    apply wp_bind, wp_new_session. intros s Hne. apply wp_bind, wp_create; [intros s' [= <-] _; set_solver | eauto | done].
  - unfold refresh. destruct token as [[|a token]|]; [done | | done].
    apply wp_bind, wp_claim. intros [claim|] ts ss Hok.
    + specialize (Hok _ eq_refl). apply wp_bind, quiet_wp; [apply quiet_guarded; [quiets|done]|].
      intros [[]|] ts' ss' _ Hss; [done | | done]. apply wp_continue. intros _. by eapply claim_ok_mono.
    + apply wp_bind, quiet_wp; [auto with quiet|]. intros r ts' ss' _ _.
      destruct r as [|c first|c sc]; [done | by apply quiet_wp; [destruct first; quiets|] | by apply wp_continue].
  - by apply quiet_wp; [apply quiet_logout|].
  - by apply quiet_wp; [quiets|].
Qed.

(** ** What every interleaving guarantees *)

(** C15: two live refresh tokens never name the same session: however the
    requests' commands interleave, whatever replies are lost, each session has
    at most one token that can be presented. *)
Theorem one_token_per_session t s T1 T2 v1 v2 sn :
  rtc (step request) (initial t) s →
  kget (time s) (_key T1) (store s) = Some v1 → kget (time s) (_key T2) (store s) = Some v2 →
  token_sid v1 = Some sn → token_sid v2 = Some sn → T1 = T2.
Proof.
  intros Hr H1 H2. destruct (sound_reach py_repr _ _ _ request_wp Hr) as (ht & hs & Hinv & _).
  eapply (inv_one _ _ _ _ _ _ Hinv); by eapply kget_tok.
Qed.

(** of any number of requests presenting one refresh token, at most one
    is handed its value, and the token is never stored again. *)
Theorem token_claimed_once t s : rtc (step request) (initial t) s →
  NoDup (omap token_name (taken s)) ∧
  ∀ T, _key T ∈ taken s → kget (time s) (_key T) (store s) = None.
Proof.
  intros Hr. destruct (sound_reach py_repr _ _ _ request_wp Hr) as (ht & hs & Hinv & _).
  split; [by eapply inv_once|]. intros T HT.
  destruct (kget _ _ _) as [v|] eqn:E; [|done]. destruct (inv_stored _ _ _ _ _ _ Hinv T v (kget_tok _ _ _ _ _ E eq_refl)) as (_ & Hn & _). done.
Qed.
End props.

(** ** On a concrete store

    A login, whose token two requests then present at once: one rotates it,
    the other waits and is given the successor. *)

#[local] Existing Instance decoded_codec.
Abbreviation w_request := (request (λ _, Ok "") w_text_raw (λ _, "") (λ s, s) w_secs str_of_Z 30 15).

(** [n] steps of request [i], drawing names from [x], the account approved. *)
Definition go (i : nat) (x : string) (n : nat) : list (nat * string * answer) := repeat (i, x, AUser (Some w_user)) n.

Definition w_start : sys response := initial 0.
Definition w_logged_in : sys response :=
  play (go 0 "sn" 1 ++ go 0 "T1" 2) (resume 0 (w_login (Some w_user)) w_start).
Definition w_both : sys response :=
  resume 2 (w_refresh (Some "T1")) (resume 1 (w_refresh (Some "T1")) w_logged_in).
Definition w_raced : sys response :=
  play (go 1 "" 4 ++ go 2 "" 4 ++ go 1 "" 2 ++ [(1%nat, "", AYes true)] ++ go 1 "T2" 4 ++
        go 2 "" 6 ++ [(2%nat, "", AYes true)]) w_both.

Lemma w_raced_reached : rtc (step w_request) w_start w_raced.
Proof.
  etrans; [apply rtc_once, (step_arrive _ _ 0%nat (w_login (Some w_user))); [apply request_login | done]|].
  etrans; [apply (play_steps _ (go 0 "sn" 1 ++ go 0 "T1" 2))|]. fold w_logged_in.
  etrans; [apply rtc_once, (step_arrive _ _ 1%nat (w_refresh (Some "T1"))); [apply request_refresh | by vm_compute]|].
  etrans; [apply rtc_once, (step_arrive _ _ 2%nat (w_refresh (Some "T1"))); [apply request_refresh | by vm_compute]|].
  apply play_steps.
Qed.

Definition answer_of (i : nat) (s : sys response) : option response :=
  match pool s !! i with Some (Ret a) => Some a | _ => None end.

(** Both are answered with the same new token, and the old one was taken once. *)
Example raced : answer_of 1 w_raced = Some (TokenPair w_uid (JStr "sn") "T2") ∧
  answer_of 2 w_raced = Some (TokenPair w_uid (JStr "sn") "T2") ∧ taken w_raced = [_key "T1"].
Proof. by vm_compute. Qed.

(** Of the session both raced for, only the token both were answered is live. *)
Lemma one_token_per_session_witness :
  rtc (step w_request) w_start w_raced ∧
  kget (time w_raced) (_key "T2") (store w_raced) = Some (value_of w_uid "hash" "sn") ∧
  ∀ T v, kget (time w_raced) (_key T) (store w_raced) = Some v → RefreshLogic.token_sid (λ _, "") v = Some "sn" → T = "T2".
Proof.
  split; [exact w_raced_reached|].
  assert (kget (time w_raced) (_key "T2") (store w_raced) = Some (value_of w_uid "hash" "sn")) as H2 by by vm_compute.
  split; [exact H2|]. intros T v HT Hv.
  apply (one_token_per_session (λ _, Ok "") w_text_raw (λ _, "") (λ s, s) w_secs str_of_Z 30 15 0 w_raced T "T2"
           v (value_of w_uid "hash" "sn") "sn"); [exact w_raced_reached | exact HT | exact H2 | exact Hv | by vm_compute].
Defined.

Lemma token_claimed_once_witness :
  NoDup (omap token_name (taken w_raced)) ∧
  ∀ T, _key T ∈ taken w_raced → kget (time w_raced) (_key T) (store w_raced) = None.
Proof.
  apply (token_claimed_once (λ _, Ok "") w_text_raw (λ _, "") (λ s, s) w_secs str_of_Z 30 15 0 w_raced).
  exact w_raced_reached.
Defined.

