(* ===== verification/ColdNaming.v ===== *)
(** * Names of the cold layer

    services/cold_export/naming.py: the object keys of a day's parts and of
    its manifest, over a calendar day ([datetime.date], as the number of days
    since 0001-01-01, with the standard library's arithmetic).  Two tenants',
    two days' or two parts' keys never coincide. *)

From stdpp Require Import base strings list.
From Stdlib Require Import ZArith Lia Ascii.
From S2P Require Import Prelude PyText PyNum PyJson Tenancy.

Local Open Scope string_scope.

(** ** [datetime.date]

    The standard library's [_days_before_month], [_ymd2ord] and [_ord2ymd],
    with the ordinal counted from 0. *)

Definition is_leap (year : Z) : bool :=
  ((year mod 4 =? 0) && (negb (year mod 100 =? 0) || (year mod 400 =? 0)))%Z.

Definition days_before_year (year : Z) : Z :=
  let y := (year - 1)%Z in (y * 365 + y / 4 - y / 100 + y / 400)%Z.

Definition days_before_month (leap : bool) (month : Z) : Z :=
  (nth (Z.to_nat month) [0; 0; 31; 59; 90; 120; 151; 181; 212; 243; 273; 304; 334] 0 +
   (if (2 <? month) && leap then 1 else 0))%Z.

Definition days_in_month (leap : bool) (month : Z) : Z :=
  (nth (Z.to_nat month) [0; 31; 28; 31; 30; 31; 30; 31; 31; 30; 31; 30; 31] 0 +
   (if (month =? 2) && leap then 1 else 0))%Z.

Definition ymd2ord (ymd : Z * Z * Z) : Z :=
  let '(y, m, d) := ymd in (days_before_year y + days_before_month (is_leap y) m + d - 1)%Z.

(** The month and day of the [n]-th day of a year. *)
Definition month_day (leap : bool) (n : Z) : Z * Z :=
  let month := Z.shiftr (n + 50) 5 in
  let preceding := days_before_month leap month in
  let '(month, preceding) :=
    if (n <? preceding)%Z then ((month - 1)%Z, (preceding - days_in_month leap (month - 1))%Z)
    else (month, preceding) in
  (month, (n - preceding + 1)%Z).

Definition ord2ymd (day : Z) : Z * Z * Z :=
  let n400 := (day / 146097)%Z in let n := (day mod 146097)%Z in
  let n100 := (n / 36524)%Z in let n := (n mod 36524)%Z in
  let n4 := (n / 1461)%Z in let n := (n mod 1461)%Z in
  let n1 := (n / 365)%Z in let n := (n mod 365)%Z in
  let year := (n400 * 400 + 1 + n100 * 100 + n4 * 4 + n1)%Z in
  if (n1 =? 4)%Z || (n100 =? 4)%Z then ((year - 1)%Z, 12%Z, 31%Z)
  else let '(m, d) := month_day ((n1 =? 3)%Z && (negb (n4 =? 24)%Z || (n100 =? 3)%Z)) n in (year, m, d).

(** [date.min] to [date.max]. *)
Definition max_day : Z := 3652059%Z.
Definition day_in_range (day : Z) : bool := (0 <=? day)%Z && (day <? max_day)%Z.

(** [f"{n:0wd}"] of a number that is not negative. *)
Fixpoint zeros (n : nat) (s : string) : string :=
  match n with O => s | S n' => String "0" (zeros n' s) end.
Definition pad (w : nat) (n : Z) : string :=
  let s := str_of_nonneg n in zeros (w - String.length s) s.

(** [day.isoformat()] *)
Definition date_isoformat (day : Z) : string :=
  let '(y, m, d) := ord2ymd day in pad 4 y +:+ "-" +:+ pad 2 m +:+ "-" +:+ pad 2 d.

(** ** naming.py *)

Definition company_id_to_prefix := cold_object_prefix.
Definition company_id_to_schema := schema_name.

Definition day_partition (prefix : string) (day : Z) : string :=
  let '(y, m, d) := ord2ymd day in
  prefix +:+ "/year=" +:+ pad 4 y +:+ "/month=" +:+ pad 2 m +:+ "/day=" +:+ pad 2 d.

Definition FIRST_PART : string := "measurements.parquet".

Definition part_file (index : Z) : res string :=
  if (index <? 0)%Z then Err ValueError
  else Ok (if (index =? 0)%Z then FIRST_PART else "measurements-" +:+ pad 4 index +:+ ".parquet").

Definition part_key (prefix : string) (day : Z) (part : string) : res string :=
  if str_has "/" part || negb (bool_decide (is_Some (strip_suffix ".parquet" part))) then Err ValueError
  else Ok (day_partition prefix day +:+ "/" +:+ part).

Definition parquet_key (prefix : string) (day : Z) : res string := part_key prefix day FIRST_PART.

Definition manifest_key (prefix : string) (day : Z) : string :=
  day_partition prefix day +:+ "/_manifest.json".

Example names_ex :
  (ord2ymd 0, ord2ymd 738885, date_isoformat (max_day - 1), manifest_key "t" 738885,
   part_file 0 ≫= part_key "t" 738885, part_file 12 ≫= part_key "t" 738885) =
  ((1, 1, 1)%Z, (2024, 1, 1)%Z, "9999-12-31", "t/year=2024/month=01/day=01/_manifest.json",
   Ok "t/year=2024/month=01/day=01/measurements.parquet",
   Ok "t/year=2024/month=01/day=01/measurements-0012.parquet").
Proof. reflexivity. Qed.

(** ** The calendar inverts *)

Lemma month_day_spec (leap : bool) n : (0 ≤ n < (if leap then 366 else 365))%Z →
  let '(m, d) := month_day leap n in
  (1 ≤ m ≤ 12)%Z ∧ (1 ≤ d ≤ 31)%Z ∧ (days_before_month leap m + d - 1)%Z = n.
Proof.
  intros Hn.
  assert (∀ k, (k < (if leap then 366 else 365))%nat →
    (let '(m, d) := month_day leap (Z.of_nat k) in
     (1 <=? m) && (m <=? 12) && ((1 <=? d) && (d <=? 31)) &&
     (days_before_month leap m + d - 1 =? Z.of_nat k))%Z = true) as Hall.
  { intros k Hk.
    assert (forallb (λ k, (let '(m, d) := month_day leap (Z.of_nat k) in
      (1 <=? m) && (m <=? 12) && ((1 <=? d) && (d <=? 31)) &&
      (days_before_month leap m + d - 1 =? Z.of_nat k))%Z)
      (seq 0 (if leap then 366 else 365)) = true) as H by (destruct leap; vm_compute; reflexivity).
    rewrite forallb_forall in H. apply H. apply in_seq. lia. }
  specialize (Hall (Z.to_nat n) ltac:(destruct leap; lia)). rewrite Z2Nat.id in Hall by lia.
  destruct (month_day leap n) as [m d]. bool_hyps. lia.
Qed.

Lemma leap_years a b c d :
  (0 ≤ b ≤ 3)%Z → (0 ≤ c ≤ 24)%Z → (0 ≤ d ≤ 3)%Z →
  is_leap (400 * a + 100 * b + 4 * c + d + 1) = (d =? 3)%Z && (negb (c =? 24)%Z || (b =? 3)%Z).
Proof.
  intros Hb Hc Hd. unfold is_leap. set (y := (400 * a + 100 * b + 4 * c + d + 1)%Z).
  assert (((y mod 4 =? 0) = (d =? 3))%Z) as ->.
  { apply Bool.eq_iff_eq_true. rewrite !Z.eqb_eq. subst y. Z.to_euclidean_division_equations. lia. }
  assert (((y mod 100 =? 0) = ((c =? 24) && (d =? 3)))%Z) as ->.
  { apply Bool.eq_iff_eq_true. rewrite andb_true_iff, !Z.eqb_eq. subst y. Z.to_euclidean_division_equations. lia. }
  assert (((y mod 400 =? 0) = ((b =? 3) && ((c =? 24) && (d =? 3))))%Z) as ->.
  { apply Bool.eq_iff_eq_true. rewrite !andb_true_iff, !Z.eqb_eq. subst y. Z.to_euclidean_division_equations. lia. }
  by destruct (d =? 3)%Z, (c =? 24)%Z, (b =? 3)%Z.
Qed.

Lemma days_before_year_split a b c d :
  (0 ≤ b ≤ 3)%Z → (0 ≤ c ≤ 24)%Z → (0 ≤ d ≤ 3)%Z →
  days_before_year (400 * a + 100 * b + 4 * c + d + 1) = (146097 * a + 36524 * b + 1461 * c + 365 * d)%Z.
Proof.
  intros Hb Hc Hd. unfold days_before_year.
  replace (400 * a + 100 * b + 4 * c + d + 1 - 1)%Z with (400 * a + 100 * b + 4 * c + d)%Z by lia.
  Z.to_euclidean_division_equations. lia.
Qed.

Lemma ord2ymd_spec day : (0 ≤ day)%Z →
  let '(y, m, d) := ord2ymd day in
  (1 ≤ y)%Z ∧ (1 ≤ m ≤ 12)%Z ∧ (1 ≤ d ≤ 31)%Z ∧ ymd2ord (y, m, d) = day.
Proof.
  intros Hday. unfold ord2ymd.
  pose proof (Z.div_mod day 146097 ltac:(lia)) as E0. pose proof (Z.mod_pos_bound day 146097 ltac:(lia)) as B0.
  assert (0 ≤ day / 146097)%Z as P0 by (apply Z.div_pos; lia).
  set (a := (day / 146097)%Z) in *. set (n0 := (day mod 146097)%Z) in *.
  pose proof (Z.div_mod n0 36524 ltac:(lia)) as E1. pose proof (Z.mod_pos_bound n0 36524 ltac:(lia)) as B1.
  assert (0 ≤ n0 / 36524 ≤ 4)%Z as P1 by (Z.to_euclidean_division_equations; lia).
  set (b := (n0 / 36524)%Z) in *. set (n1 := (n0 mod 36524)%Z) in *.
  pose proof (Z.div_mod n1 1461 ltac:(lia)) as E2. pose proof (Z.mod_pos_bound n1 1461 ltac:(lia)) as B2.
  assert (0 ≤ n1 / 1461 ≤ 24)%Z as P2 by (Z.to_euclidean_division_equations; lia).
  set (c := (n1 / 1461)%Z) in *. set (n2 := (n1 mod 1461)%Z) in *.
  pose proof (Z.div_mod n2 365 ltac:(lia)) as E3. pose proof (Z.mod_pos_bound n2 365 ltac:(lia)) as B3.
  assert (0 ≤ n2 / 365 ≤ 4)%Z as P3 by (Z.to_euclidean_division_equations; lia).
  set (d := (n2 / 365)%Z) in *. set (n := (n2 mod 365)%Z) in *.
  clearbody a n0 b n1 c n2 d n.
  destruct (Z.eqb_spec d 4) as [Ed|Ed]; [|destruct (Z.eqb_spec b 4) as [Eb|Eb]]; simpl orb; cbv iota.
  - (* the last day of a leap year *)
    assert (b ≤ 3)%Z by lia. assert (c < 24 ∨ b = 3)%Z as Hl by lia.
    replace (a * 400 + 1 + b * 100 + c * 4 + d - 1)%Z with (400 * a + 100 * b + 4 * c + 3 + 1)%Z by lia.
    split; [lia|]. split; [lia|]. split; [lia|]. unfold ymd2ord.
    rewrite leap_years, days_before_year_split by lia.
    replace ((negb (c =? 24) || (b =? 3))%Z) with true; [change (days_before_month ((3 =? 3)%Z && true) 12) with 335%Z; lia|].
    symmetry. apply orb_true_iff. rewrite negb_true_iff, Z.eqb_neq, Z.eqb_eq. lia.
  - replace (a * 400 + 1 + b * 100 + c * 4 + d - 1)%Z with (400 * a + 100 * 3 + 4 * 24 + 3 + 1)%Z by lia.
    split; [lia|]. split; [lia|]. split; [lia|]. unfold ymd2ord.
    rewrite leap_years, days_before_year_split by lia.
    change (days_before_month _ 12) with 335%Z. lia.
  - set (leap := ((d =? 3)%Z && (negb (c =? 24)%Z || (b =? 3)%Z))).
    pose proof (month_day_spec leap n) as Hm. destruct (month_day leap n) as [m e].
    destruct Hm as (? & ? & Hm); [destruct leap; lia|].
    replace (a * 400 + 1 + b * 100 + c * 4 + d)%Z with (400 * a + 100 * b + 4 * c + d + 1)%Z by lia.
    split; [lia|]. split; [lia|]. split; [lia|]. unfold ymd2ord.
    rewrite leap_years, days_before_year_split by lia. fold leap. lia.
Qed.

Lemma ord2ymd_inj a b : (0 ≤ a)%Z → (0 ≤ b)%Z → ord2ymd a = ord2ymd b → a = b.
Proof.
  intros Ha Hb E. apply ord2ymd_spec in Ha, Hb. rewrite E in Ha.
  destruct (ord2ymd b) as [[y m] d]. destruct Ha as (_ & _ & _ & <-), Hb as (_ & _ & _ & <-). done.
Qed.

(** ** Numbers in names *)

Definition is_dec (c : ascii) : bool := bool_decide (is_Some (dec_value c)).

Fixpoint dec_num (acc : Z) (s : string) : Z :=
  match s with EmptyString => acc | String c r => dec_num (acc * 10 + (code c - 48))%Z r end.

Lemma dec_char_num z : (0 ≤ z < 10)%Z → (code (dec_char z) - 48)%Z = z ∧ is_dec (dec_char z) = true.
Proof.
  intros Hz. assert (code (dec_char z) = (z + 48)%Z) as E.
  { unfold code, dec_char. rewrite N_ascii_embedding by lia. lia. }
  split; [lia|]. unfold is_dec, dec_value. rewrite E, (proj2 (Z.leb_le 48 _)), (proj2 (Z.leb_le _ 57)) by lia. done.
Qed.

Lemma dec_fuel_num fuel z s : (0 ≤ z < 10 ^ Z.of_nat fuel)%Z → dec_num 0 (dec_fuel fuel z s) = dec_num z s.
Proof.
  revert z s. induction fuel as [|f IH]; intros z s Hz.
  { change (10 ^ Z.of_nat 0)%Z with 1%Z in Hz. simpl. by replace z with 0%Z by lia. }
  simpl dec_fuel. pose proof (Z.mod_pos_bound z 10 ltac:(lia)) as Hm.
  pose proof (Z.div_mod z 10 ltac:(lia)) as Hd. destruct (dec_char_num _ Hm) as [Hc _].
  destruct (Z.ltb_spec z 10) as [Hlt | Hge].
  - simpl. rewrite Hc, Z.mod_small by lia. f_equal. 
  - rewrite IH.
    + simpl. rewrite Hc. f_equal. lia.
    + rewrite Nat2Z.inj_succ, Z.pow_succ_r in Hz by lia.
      split; [apply Z.div_pos; lia | apply Z.div_lt_upper_bound; lia].
Qed.

Lemma dec_fuel_all fuel z s : str_all is_dec s = true → str_all is_dec (dec_fuel fuel z s) = true.
Proof.
  revert z s. induction fuel as [|f IH]; intros z s Hs; [done|]. simpl dec_fuel.
  destruct (dec_char_num _ (Z.mod_pos_bound z 10 ltac:(lia))) as [_ Hc].
  assert (str_all is_dec (String (dec_char (z mod 10)) s) = true) as H by (simpl; by rewrite Hc).
  case_match; [done | by apply IH].
Qed.

Lemma pad_num w n : (0 ≤ n)%Z → dec_num 0 (pad w n) = n.
Proof.
  intros Hn. unfold pad. generalize (w - String.length (str_of_nonneg n))%nat as k.
  induction k as [|k IH]; simpl; [|done].
  unfold str_of_nonneg. rewrite dec_fuel_num; [done|].
  split; [done|]. rewrite Nat2Z.inj_succ, Z2Nat.id by apply Z.log2_nonneg.
  destruct (decide (n = 0)%Z) as [->|]; [done|].
  apply Z.lt_le_trans with (2 ^ Z.succ (Z.log2 n))%Z; [apply Z.log2_spec; lia|].
  apply Z.pow_le_mono_l. lia.
Qed.

Lemma pad_all w n : str_all is_dec (pad w n) = true.
Proof.
  unfold pad. generalize (w - String.length (str_of_nonneg n))%nat as k.
  induction k as [|k IH]; [by apply dec_fuel_all | done].
Qed.

Lemma pad_inj w a b : (0 ≤ a)%Z → (0 ≤ b)%Z → pad w a = pad w b → a = b.
Proof. intros Ha Hb E. rewrite <- (pad_num w a Ha), <- (pad_num w b Hb). by rewrite E. Qed.

(** ** The names are apart *)

Abbreviation no_slash s := (str_all (λ d, negb (bool_decide (d = "/"%char))) s = true).

Lemma pad_no_slash w n : no_slash (pad w n).
Proof. eapply str_all_impl; [|apply pad_all]. intros c. all_chars c. Qed.

Lemma no_slash_app a b : no_slash a → no_slash b → no_slash (a +:+ b).
Proof. intros Ha Hb. rewrite str_all_app. by rewrite Ha, Hb. Qed.

Lemma prefix_no_slash c p : company_id_to_prefix c = Ok p → no_slash p.
Proof.
  unfold company_id_to_prefix, cold_object_prefix. intros (x & Hx & ->)%res_fmap_inv.
  apply no_slash_app; [done|]. by eapply canonical_avoids.
Qed.

Lemma str_app_inj_r a b c : a +:+ c = b +:+ c → a = b.
Proof.
  revert b. induction a as [|x a IH]; intros [|y b] E; [done| | |].
  - apply (f_equal String.length) in E. rewrite !str_length_app in E. simpl in E. lia.
  - apply (f_equal String.length) in E. rewrite !str_length_app in E. simpl in E. lia.
  - injection E as -> E. f_equal. by apply IH.
Qed.

(** Splitting a key at its slashes gives back what it was built from. *)
Lemma split_segment a b : no_slash a → str_split "/" (a +:+ "/" +:+ b) = a :: str_split "/" b.
Proof.
  intros Ha. change ("/" +:+ b) with (String "/" b).
  by rewrite (str_split_app_sep "/" a b), (str_split_no_sep _ a).
Qed.

Lemma key_segments p day f : no_slash p → no_slash f →
  str_split "/" (day_partition p day +:+ "/" +:+ f) =
    (let '(y, m, d) := ord2ymd day in
     [p; "year=" +:+ pad 4 y; "month=" +:+ pad 2 m; "day=" +:+ pad 2 d; f]).
Proof.
  intros Hp Hf. unfold day_partition. destruct (ord2ymd day) as [[y m] d].
  change ("/year=" +:+ ?x) with ("/" +:+ "year=" +:+ x).
  change ("/month=" +:+ ?x) with ("/" +:+ "month=" +:+ x).
  change ("/day=" +:+ ?x) with ("/" +:+ "day=" +:+ x).
  rewrite !str_app_assoc, split_segment by done. f_equal.
  rewrite <- (str_app_assoc "year="), split_segment by (apply no_slash_app; [done | apply pad_no_slash]). f_equal.
  rewrite <- (str_app_assoc "month="), split_segment by (apply no_slash_app; [done | apply pad_no_slash]). f_equal.
  rewrite <- (str_app_assoc "day="), split_segment by (apply no_slash_app; [done | apply pad_no_slash]). f_equal.
  by apply str_split_no_sep.
Qed.

Lemma object_key_inj p p' day day' f f' :
  no_slash p → no_slash p' → no_slash f → no_slash f' → (0 ≤ day)%Z → (0 ≤ day')%Z →
  day_partition p day +:+ "/" +:+ f = day_partition p' day' +:+ "/" +:+ f' → p = p' ∧ day = day' ∧ f = f'.
Proof.
  intros Hp Hp' Hf Hf' Hd Hd' E. apply (f_equal (str_split "/")) in E. rewrite !key_segments in E by done.
  pose proof (ord2ymd_spec day Hd) as S1. pose proof (ord2ymd_spec day' Hd') as S2.
  destruct (ord2ymd day) as [[y m] d] eqn:E1, (ord2ymd day') as [[y' m'] d'] eqn:E2.
  injection E as -> Hy Hm He ->. destruct S1 as (? & ? & ? & <-), S2 as (? & ? & ? & <-).
  apply pad_inj in Hy, Hm, He; [|lia..]. by subst.
Qed.

(** What the two kinds of file names are. *)
Lemma strip_suffix_app s t : strip_suffix t (s +:+ t) = Some s.
Proof.
  unfold strip_suffix. rewrite str_length_app, Nat.add_sub.
  assert (str_take (String.length s) (s +:+ t) = s) as -> by (induction s as [|c s IH]; simpl; [by destruct t | by rewrite IH]).
  by rewrite bool_decide_true.
Qed.

Lemma part_file_ok i : (0 ≤ i)%Z → ∃ f, part_file i = Ok f ∧ no_slash f ∧ is_Some (strip_suffix ".parquet" f).
Proof.
  intros Hi. unfold part_file. rewrite (proj2 (Z.ltb_ge i 0)) by done. case_match.
  - eexists. split; [done|]. split; [done|]. by exists "measurements".
  - eexists. split; [done|]. split.
    + apply no_slash_app; [done|]. apply no_slash_app; [apply pad_no_slash | done].
    + exists ("measurements-" +:+ pad 4 i). rewrite <- str_app_assoc. apply strip_suffix_app.
Qed.

Lemma part_file_inj i j f : part_file i = Ok f → part_file j = Ok f → i = j.
Proof.
  unfold part_file. destruct (Z.ltb_spec i 0), (Z.ltb_spec j 0); try done.
  intros [= <-] E. injection E as E. destruct (Z.eqb_spec i 0) as [->|Hi], (Z.eqb_spec j 0) as [->|Hj]; try done.
  apply str_app_inj_l, str_app_inj_r in E. symmetry. by eapply pad_inj.
Qed.

Lemma part_key_ok p day f :
  no_slash f → is_Some (strip_suffix ".parquet" f) → part_key p day f = Ok (day_partition p day +:+ "/" +:+ f).
Proof.
  intros Hf Hs. unfold part_key, str_has, str_any. rewrite Hf. simpl. by rewrite bool_decide_true.
Qed.

Lemma part_key_inv p day f k : part_key p day f = Ok k →
  no_slash f ∧ is_Some (strip_suffix ".parquet" f) ∧ k = day_partition p day +:+ "/" +:+ f.
Proof.
  unfold part_key, str_has, str_any. case_match eqn:E; [done|]. intros [= <-]. bool_hyps.
  done.
Qed.

(** No two parts of any tenants' days have one key, and no part has a
    manifest's. *)
Lemma part_key_inj c c' p p' day day' f f' k :
  company_id_to_prefix c = Ok p → company_id_to_prefix c' = Ok p' → (0 ≤ day)%Z → (0 ≤ day')%Z →
  part_key p day f = Ok k → part_key p' day' f' = Ok k → p = p' ∧ day = day' ∧ f = f'.
Proof.
  intros Hp%prefix_no_slash Hp'%prefix_no_slash Hd Hd' (Hf & _ & ->)%part_key_inv (Hf' & _ & E)%part_key_inv.
  by apply object_key_inj.
Qed.

Lemma manifest_key_inj c c' p p' day day' :
  company_id_to_prefix c = Ok p → company_id_to_prefix c' = Ok p' → (0 ≤ day)%Z → (0 ≤ day')%Z →
  manifest_key p day = manifest_key p' day' → p = p' ∧ day = day'.
Proof.
  intros Hp%prefix_no_slash Hp'%prefix_no_slash Hd Hd' E.
  by destruct (object_key_inj p p' day day' "_manifest.json" "_manifest.json") as (-> & -> & _).
Qed.

Lemma part_not_manifest c c' p p' day day' f :
  company_id_to_prefix c = Ok p → company_id_to_prefix c' = Ok p' → (0 ≤ day)%Z → (0 ≤ day')%Z →
  part_key p day f ≠ Ok (manifest_key p' day').
Proof.
  intros Hp%prefix_no_slash Hp'%prefix_no_slash Hd Hd' (Hf & Hs & E)%part_key_inv.
  destruct (object_key_inj p' p day' day "_manifest.json" f) as (_ & _ & <-); try done.
  vm_compute in Hs. by destruct Hs.
Qed.
