(* ===== verification/ColdExport.v ===== *)
(** * The cold layer's export

    services/cold_export: a tenant's raw measurements older than the horizon
    are written to the object store, a day at a time, and dropped from the
    database.  [ports.py]'s two ports as the adapters implement them
    ([source.py] over TimescaleDB, [store.py] over the object store), and the
    orchestration of [exporter.py] over them.  What the export keeps is in
    ColdExportProps.

    The state is what outlives a run: the hot tables, the record of the drops,
    the objects.  Every call to the database or to the store takes a [turn] of
    the script: what other writers do to the hot tables before it, and how it
    goes.  A run that dies is one whose call raises [SystemExit], which no
    [except Exception] catches; the database then ends its transaction and
    frees its lock. *)

From stdpp Require Import base gmap strings list fin_maps sorting.
From Stdlib Require Import ZArith Lia Ascii.
From Corelib Require Import SpecFloat.
From S2P Require Import Prelude PyText PyNum PyJson Tenancy ColdNaming.

Local Open Scope string_scope.

(** ** Measurements

    The columns of [sensor_measurements], its natural key (the table's unique
    constraint; a time in microseconds, a sensor's UUID as text) apart from
    the rest. *)

Record row := {
  equipment_id : string;
  site_id : string;
  value : float;
  unit_ : option string;
  quality_code : option Z;
  is_anomaly : option bool
}.
Abbreviation key := (Z * string)%type.
Abbreviation measurement := (key * row)%type.

#[export] Instance float_eq_dec : EqDecision float.
Proof. intros x y. unfold Decision. repeat decide equality. Defined.
#[export] Instance row_eq_dec : EqDecision row.
Proof. solve_decision. Defined.

(** [ORDER BY equipment_id, time], and the within-file sort. *)
Definition row_leb (a b : measurement) : bool :=
  if bool_decide (equipment_id a.2 = equipment_id b.2) then (a.1.1 <=? b.1.1)%Z
  else String.leb (equipment_id a.2) (equipment_id b.2).
Definition row_le (a b : measurement) : Prop := row_leb a b = true.
#[export] Instance row_le_dec : RelDecision row_le := λ a b, decide (row_leb a b = true).

(** ** The two stores *)

Inductive object :=
  | JsonText (v : json)
  | Parquet (rows : list measurement)
  | Junk.

(** How a call goes: as [call] says; or the store keeps only the first [n]
    rows of an upload it accepted, or the database's cursor fails after [n]
    batches, or the run lock is held by another run. *)
Inductive verdict :=
  | Plain (c : call)
  | Torn (n : nat)
  | Cut (n : nat) (e : exn)
  | Busy.

Record turn := { others : list (string * key * option row); goes : verdict }.

Record world := {
  hot : gmap string (gmap key row);
  drops : gset (string * Z * string);
  objects : gmap string object;
  registry : list (string * string);
  script : list turn;
  gone : list (string * Z * gmap key row)  (* what each drop removed: a history, which no code reads *)
}.

Definition set_hot h w := {| hot := h; drops := drops w; objects := objects w; registry := registry w;
                             script := script w; gone := gone w |}.
Definition set_objects o w := {| hot := hot w; drops := drops w; objects := o; registry := registry w;
                                 script := script w; gone := gone w |}.
Definition set_script s w := {| hot := hot w; drops := drops w; objects := objects w; registry := registry w;
                                script := s; gone := gone w |}.

(** Another writer inserts, updates or deletes one row. *)
Definition write_one (h : gmap string (gmap key row)) (c : string * key * option row) :=
  let '(schema, k, o) := c in <[schema := partial_alter (λ _, o) k (default ∅ (h !! schema))]> h.

Definition next : M world verdict := λ w,
  match script w with
  | [] => (Ok (Plain Runs), w)
  | t :: r => (Ok (goes t), set_script r (set_hot (fold_left write_one (others t) (hot w)) w))
  end.

(** A call that reads, and one that changes the stores. *)
Definition query {A} (f : world → A) : M world A :=
  v ← next;
  match v with Plain (Fails e) | Plain (Lost e) => raise e | _ => gets f end.

Definition act (f : world → world) : M world unit :=
  v ← next;
  match v with
  | Plain (Fails e) => raise e
  | Plain (Lost e) => _ ← modify f; raise e
  | _ => modify f
  end.

Fixpoint each {A B} (f : A → M world B) (l : list A) : M world (list B) :=
  match l with [] => mret [] | x :: r => y ← f x; ys ← each f r; mret (y :: ys) end.

(** ** source.py *)

Definition day_us : Z := 86400000000%Z.

(** A day's first instant and the next day's; [date.max] has no next day. *)
Definition _day_bounds (day : Z) : res (Z * Z) :=
  if (day + 1 <? max_day)%Z then Ok (day * day_us, (day + 1) * day_us)%Z else Err OverflowError.

Definition in_window (lo hi : Z) (kv : measurement) : bool := (lo <=? kv.1.1)%Z && (kv.1.1 <? hi)%Z.
Definition rows_in (lo hi : Z) (t : gmap key row) : gmap key row :=
  filter (λ kv, in_window lo hi kv = true) t.
Definition rows_out (lo hi : Z) (t : gmap key row) : gmap key row :=
  filter (λ kv, in_window lo hi kv = false) t.

(** A tenant's [sensor_measurements]; a schema that has none is an undefined table. *)
Definition table (schema : string) : M world (gmap key row) :=
  t ← query (λ w, hot w !! schema);
  lift (or_raise (PostgresError (Some "42P01")) t).

Record Tenant := { company_id : string; schema_name_ : string }.

Definition list_tenants : M world (list Tenant) :=
  query (λ w, map (λ cs, {| company_id := cs.1; schema_name_ := cs.2 |}) (registry w)).

(** The distinct days of the rows before [older_than], in order; a day that is
    no [date] cannot be returned. *)
Definition days_before (cutoff : Z) (t : gmap key row) : list Z :=
  merge_sort Z.le (elements (list_to_set (C := gset Z)
    (map (λ kv, kv.1.1 / day_us)%Z (base.filter (λ kv, (kv.1.1 < cutoff)%Z) (map_to_list t))))).

Definition exportable_days (schema : string) (older_than : Z) : M world (list Z) :=
  '(cutoff, _) ← lift (_day_bounds older_than);
  t ← table schema;
  let days := days_before cutoff t in
  if forallb day_in_range days then mret days else raise ValueError.

Definition drop_recorded (schema : string) (day : Z) (part : string) : M world bool :=
  query (λ w, bool_decide ((schema, day, part) ∈ drops w)).

(** [pg_try_advisory_lock], then the body; the lock is released after it, or by
    the end of the session when it raises. *)
Definition exclusive_run {A} (body : bool → M world A) : M world A :=
  v ← next;
  match v with
  | Plain (Fails e) | Plain (Lost e) => raise e
  | Busy => body false
  | _ => r ← body true; _ ← query (λ _, tt); mret r
  end.

Definition _READ_BATCH : nat := N.to_nat 50000.

Fixpoint chunks (n fuel : nat) {A} (l : list A) : list (list A) :=
  match fuel, l with
  | S f, _ :: _ => firstn n l :: chunks n f (skipn n l)
  | _, _ => []
  end.

(** What iterating over the batches gives: these, then perhaps an exception. *)
Record stream := { batches_ : list (list measurement); fault : option exn }.

(** The part names [cold_export_drop_day] accepts: [measurements.parquet] and
    [measurements-NNNN.parquet]. *)
Definition part_name_ok (part : string) : bool :=
  bool_decide (part = FIRST_PART) ||
  match strip_prefix "measurements-" part ≫= strip_suffix ".parquet" with
  | Some d => (String.length d =? 4)%nat && str_all is_dec d
  | None => false
  end.

(** ** store.py *)

Definition read_manifest (prefix : string) (day : Z) : M world (option json) :=
  o ← query (λ w, objects w !! manifest_key prefix day);
  match o with
  | None => mret None
  | Some (JsonText JNull) => mret None
  | Some (JsonText v) => mret (Some v)
  | Some _ => raise UnicodeDecodeError
  end.

(** One upload: the object appears when it completes.  An exception of the
    batches, past the first, completes it with those written so far (leaving
    the stream's [with] closes it). *)
Definition write_part (prefix : string) (day : Z) (part : string) (src : stream) : M world Z :=
  k ← lift (part_key prefix day part);
  match batches_ src with
  | [] => raise (default ValueError (fault src))
  | bs =>
      let rows := concat bs in
      v ← next;
      match v with
      | Plain (Fails e) => raise e
      | _ =>
          let kept := match v with Torn n => firstn n rows | _ => rows end in
          _ ← modify (λ w, set_objects (<[k := Parquet kept]> (objects w)) w);
          match v, fault src with
          | Plain (Lost e), _ => raise e
          | _, Some e => raise e
          | _, None => mret (Z.of_nat (length rows))
          end
      end
  end.

Definition read_part (prefix : string) (day : Z) (part : string) : M world (list measurement) :=
  k ← lift (part_key prefix day part);
  o ← query (λ w, objects w !! k);
  match o with
  | Some (Parquet rows) => mret rows
  | Some _ => raise ValueError
  | None => raise OSError
  end.

Definition part_row_count (prefix : string) (day : Z) (part : string) : M world Z :=
  rows ← read_part prefix day part; mret (Z.of_nat (length rows)).

Definition read_part_keys (prefix : string) (day : Z) (part : string) : M world (list key) :=
  rows ← read_part prefix day part; mret (rows.*1).

(** [json.dumps(manifest, sort_keys=True)], as it is read back. *)
Definition entry_le (a b : string * json) : Prop := String.leb a.1 b.1 = true.
#[export] Instance entry_le_dec : RelDecision entry_le := λ a b, decide (String.leb a.1 b.1 = true).
Fixpoint sort_keys (v : json) : json :=
  match v with
  | JDict d => JDict (merge_sort entry_le (map (λ kv, (kv.1, sort_keys kv.2)) d))
  | JList l => JList (map sort_keys l)
  | v => v
  end.

Definition write_manifest (prefix : string) (day : Z) (manifest : json) : M world unit :=
  act (λ w, set_objects (<[manifest_key prefix day := JsonText (sort_keys manifest)]> (objects w)) w).

(** ** exporter.py *)

Definition MANIFEST_FORMAT : Z := 2%Z.

Record part := { file : string; rows : Z }.
#[export] Instance part_eq_dec : EqDecision part.
Proof. solve_decision. Defined.

(** [int(v)] *)
Definition int_of_str (s : string) : res Z :=
  let '(neg, r) := split_sign (strip is_space s) in
  match dec_run 0 0 false r with
  | Some (z, S _, EmptyString) => Ok (if neg then - z else z)%Z
  | _ => Err ValueError
  end.
Definition int_of_float (f : float) : res Z :=
  match f with
  | S754_zero _ => Ok 0%Z
  | S754_finite s m e =>
      let z := if (0 <=? e)%Z then (Zpos m * 2 ^ e)%Z else (Zpos m / 2 ^ (- e))%Z in
      Ok (if s then - z else z)%Z
  | S754_infinity _ => Err OverflowError
  | S754_nan => Err ValueError
  end.
Definition py_int (v : json) : res Z :=
  match v with
  | JInt z => Ok z
  | JBool b => Ok (if b then 1 else 0)%Z
  | JFloat f => int_of_float f
  | JStr s => int_of_str s
  | _ => Err TypeError
  end.

(** [v[k]] *)
Definition json_item (k : string) (v : json) : res json :=
  match v with
  | JDict d => or_raise KeyError (dict_lookup k d)
  | _ => Err TypeError
  end.

Fixpoint res_each {A B} (f : A → res B) (l : list A) : res (list B) :=
  match l with [] => Ok [] | x :: r => y ← f x; ys ← res_each f r; Ok (y :: ys) end.

Section manifest.
Context (py_repr : json → string).

Definition part_of (v : json) : res part :=
  f ← json_item "file" v;
  r ← json_item "rows" v;
  n ← py_int r;
  Ok {| file := match f with JStr s => s | JInt z => str_of_Z z | f => py_repr f end; rows := n |}.

Definition manifest_parts (manifest : option json) : res (list part) :=
  match manifest with
  | None => Ok []
  | Some (JDict d) =>
      match dict_lookup "parts" d with
      | Some (JList l) => res_each part_of l
      | Some (JDict []) => Ok []
      | Some (JStr EmptyString) => Ok []
      | Some _ => Err TypeError
      | None => r ← json_item "rows" (JDict d);
                n ← py_int r;
                f ← part_file 0;
                Ok [{| file := f; rows := n |}]
      end
  | Some _ => Err TypeError
  end.

(** [manifest is not None and "parts" not in manifest] *)
Definition is_legacy (manifest : option json) : bool :=
  match manifest with Some (JDict d) => negb (dict_has "parts" d) | _ => false end.

Definition part_json (p : part) : json := JDict [("file", JStr (file p)); ("rows", JInt (rows p))].

Definition _manifest (schema : string) (day : Z) (parts : list part) : json :=
  JDict [("format", JInt MANIFEST_FORMAT); ("schema", JStr schema); ("day", JStr (date_isoformat day));
         ("rows", JInt (fold_right Z.add 0%Z (map rows parts))); ("parts", JList (map part_json parts))].

Definition _check_part (prefix : string) (day : Z) (p : part) : M world unit :=
  footer ← part_row_count prefix day (file p);
  if (footer =? rows p)%Z then mret tt else raise ExportError.

(** The rest of source.py: a day's snapshot and its drop. *)

Context (digest : gmap key row → Z).

Record snapshot := {
  s_schema : string;
  s_day : Z;
  s_rows : Z;
  s_fingerprint : Z;
  s_content : gmap key row  (* what its REPEATABLE READ transaction sees *)
}.

Definition snapshot_day {A} (schema : string) (day : Z) (body : snapshot → M world A) : M world A :=
  '(lo, hi) ← lift (_day_bounds day);
  finally (t ← table schema;
           let content := rows_in lo hi t in
           body {| s_schema := schema; s_day := day; s_rows := Z.of_nat (size content);
                   s_fingerprint := digest content; s_content := content |})
          (query (λ _, tt)).

Definition batches (snap : snapshot) : M world stream :=
  v ← next;
  let l := merge_sort row_le (map_to_list (s_content snap)) in
  let all := chunks _READ_BATCH (length l) l in
  mret match v with
       | Plain (Fails e) | Plain (Lost e) => {| batches_ := []; fault := Some e |}
       | Cut n e => {| batches_ := firstn n all; fault := Some e |}
       | _ => {| batches_ := all; fault := None |}
       end.

(** [cold_export_drop_day]'s transaction: under a lock on the day's chunks,
    nothing unless the day still is what the snapshot was; else the day's rows
    are dropped and the drop recorded, at once. *)
Definition drop_day (lo hi : Z) (snap : snapshot) (part : string) (w : world) : bool * world :=
  let t := default ∅ (hot w !! s_schema snap) in
  let now := rows_in lo hi t in
  if (Z.of_nat (size now) =? s_rows snap)%Z && (digest now =? s_fingerprint snap)%Z
  then (true, {| hot := <[s_schema snap := rows_out lo hi t]> (hot w);
                 drops := {[(s_schema snap, s_day snap, part)]} ∪ drops w;
                 objects := objects w; registry := registry w; script := script w;
                 gone := (gone w ++ [(s_schema snap, s_day snap, now)])%list |})
  else (false, w).

Definition drop (snap : snapshot) (part : string) : M world bool :=
  '(lo, hi) ← lift (_day_bounds (s_day snap));
  v ← next;
  if negb (part_name_ok part) then raise (PostgresError (Some "P0001"))
  else match v with
       | Plain (Fails e) => raise e
       | Plain (Lost e) => _ ← modify (λ w, snd (drop_day lo hi snap part w)); raise e
       | _ => λ w, let '(b, w') := drop_day lo hi snap part w in (Ok b, w')
       end.

(** [list(batches)], and [pa.Table.from_batches], which needs a batch. *)
Definition table_of (src : stream) : M world (list measurement) :=
  match fault src, batches_ src with
  | Some e, _ => raise e
  | None, [] => raise ValueError
  | None, bs => mret (concat bs)
  end.

(** The source rows whose key no committed part holds, sorted for the file. *)
Definition _without_archived (src : stream) (source_rows : Z) (prefix : string) (day : Z) (base : list part) :
    M world (list measurement) :=
  tab ← (if (source_rows =? 0)%Z then mret None else t ← table_of src; mret (Some t));
  match tab with
  | None => raise ExportError
  | Some t =>
      if negb (Z.of_nat (length t) =? source_rows)%Z then raise ExportError else
      archived ← each (λ p, read_part_keys prefix day (file p)) base;
      mret (merge_sort row_le (base.filter (λ kv, kv.1 ∉ concat archived) t))
  end.

Definition _write_and_verify (prefix : string) (day : Z) (part : string) (src : stream) (expected : Z) : M world unit :=
  wrote ← write_part prefix day part src;
  if negb (wrote =? expected)%Z then raise ExportError else
  footer ← part_row_count prefix day part;
  if negb (footer =? expected)%Z then raise ExportError else mret tt.

(** The branch that finds nothing in the source. *)
Definition confirm_pending (prefix : string) (day : Z) (parts : list part) (pending : bool) (snap : snapshot) :
    M world string :=
  match last parts with
  | Some p =>
      if pending then
        _ ← _check_part prefix day p;
        dropped ← drop snap (file p);
        mret (if dropped : bool then "resumed_drop" else "drop_deferred")
      else mret "already_done"
  | None => mret "empty"
  end.

(** The branch that exports what it finds. *)
Definition export_rows (schema prefix : string) (day : Z) (base : list part) (pending : bool) (snap : snapshot) :
    M world string :=
  part ← lift (part_file (Z.of_nat (length base)));
  src ← batches snap;
  '(src, expected) ←
    (if bool_decide (base = []) then mret (src, s_rows snap)
     else fresh ← _without_archived src (s_rows snap) prefix day base;
          mret ({| batches_ := match fresh with [] => [] | _ => [fresh] end; fault := None |},
                Z.of_nat (length fresh)));
  '(parts_after, part) ←
    (if negb (expected =? 0)%Z then
       _ ← _write_and_verify prefix day part src expected;
       mret ((base ++ [{| file := part; rows := expected |}])%list, part)
     else mret (base, match last base with Some p => file p | None => part end));
  _ ← write_manifest prefix day (_manifest schema day parts_after);
  dropped ← drop snap part;
  mret (if negb dropped then "drop_deferred"
        else if (expected =? 0)%Z then "resumed_drop"
        else if pending then "reexported"
        else if bool_decide (base = []) then "exported" else "late_rows_exported").

Definition export_day (schema prefix : string) (day : Z) : M world string :=
  manifest ← read_manifest prefix day;
  parts ← lift (manifest_parts manifest);
  pending ← (match last parts with
             | Some p => if is_legacy manifest then mret false
                         else recorded ← drop_recorded schema day (file p); mret (negb recorded)
             | None => mret false
             end);
  let committed := if pending : bool then removelast parts else parts in
  _ ← each (_check_part prefix day) committed;
  snapshot_day schema day (λ snap : snapshot,
    if (s_rows snap =? 0)%Z then confirm_pending prefix day parts pending snap
    else export_rows schema prefix day committed pending snap).

Abbreviation tally := (list (string * Z)).
Fixpoint tally_add (outcome : string) (n : Z) (t : tally) : tally :=
  match t with
  | [] => [(outcome, n)]
  | (o, m) :: r => if bool_decide (o = outcome) then (o, m + n)%Z :: r else (o, m) :: tally_add outcome n r
  end.

Definition export_tenant (tenant : Tenant) (cutoff : Z) : M world tally :=
  prefix ← lift (company_id_to_prefix (company_id tenant));
  schema ← lift (company_id_to_schema (company_id tenant));
  if negb (bool_decide (schema_name_ tenant = schema)) then raise ExportError else
  days ← exportable_days schema cutoff;
  foldM (λ t day, outcome ← export_day schema prefix day; mret (tally_add outcome 1 t)) [] days.

(** [today - timedelta(days=horizon_days)] *)
Definition cutoff_of (today horizon_days : Z) : res Z :=
  if day_in_range (today - horizon_days) then Ok (today - horizon_days)%Z else Err OverflowError.

(** [except Exception]: what ends the process passes through. *)
Definition isolate {A} (m : M world A) (d : A) : M world A :=
  catch m (λ e, if bool_decide (e = SystemExit) then raise e else mret d).

Definition _run_export_locked (horizon_days today : Z) : M world tally :=
  cutoff ← lift (cutoff_of today horizon_days);
  tenants ← list_tenants;
  '(t, failures) ← foldM (λ '(t, failures) tenant,
      isolate (tenant_tally ← export_tenant tenant cutoff;
               mret (fold_left (λ t oc, tally_add oc.1 oc.2 t) tenant_tally t, failures))
              (t, (failures + 1)%Z)) ([], 0%Z) tenants;
  if (failures =? 0)%Z then mret t else raise ExportError.

Definition run_export (horizon_days today : Z) : M world tally :=
  exclusive_run (λ acquired,
    if acquired : bool then _run_export_locked horizon_days today
    else mret [("skipped_overlapping_run", 1%Z)]).
End manifest.
