(* ===== verification/ColdExportProps.v ===== *)
(** * What the export keeps

    Properties of ColdExport's runs, however their calls go and whatever other
    writers do to the hot tables between them: the archive of a day only grows,
    holds each key once, and holds every row a drop removed; a quiet run
    archives and drops every day before the cutoff.

    The stores' durable part ([durable]) is all the invariant speaks of: other
    writers change the hot tables only, so it holds between any two calls. *)

From stdpp Require Import base gmap strings list fin_maps sorting.
From Stdlib Require Import ZArith Lia Ascii.
From S2P Require Import Prelude PyText PyNum PyJson Tenancy ColdNaming ColdExport.

Local Open Scope string_scope.

(** ** The durable part, and running over it *)

Record durable := {
  d_drops : gset (string * Z * string);
  d_objects : gmap string object;
  d_gone : list (string * Z * gmap key row)
}.
Definition dur (w : world) : durable := {| d_drops := drops w; d_objects := objects w; d_gone := gone w |}.

(** From every state whose durable part is [D], [m] returns in [Q] or raises in [E]. *)
Definition runs {A} (D : durable) (m : M world A) (Q : A → durable → Prop) (E : durable → Prop) : Prop :=
  ∀ w, dur w = D → match m w with (Ok a, w') => Q a (dur w') | (Err _, w') => E (dur w') end.

Lemma runs_bind {A B} D (m : M world A) (k : A → M world B) (P : A → durable → Prop) Q E :
  runs D m P E → (∀ a D', P a D' → runs D' (k a) Q E) → runs D (m ≫= k) Q E.
Proof.
  intros Hm Hk w Hw. specialize (Hm w Hw). unfold mbind, M_bind.
  destruct (m w) as [[a|e] w']; [by apply (Hk a (dur w')) | done].
Qed.

Lemma runs_ret {A} D (a : A) (Q : A → durable → Prop) E : Q a D → runs D (mret a) Q E.
Proof. by intros H w <-. Qed.

Lemma runs_raise {A} D e (Q : A → durable → Prop) (E : durable → Prop) : E D → runs D (raise e) Q E.
Proof. by intros H w <-. Qed.

Lemma runs_lift {A} D (r : res A) (Q : A → durable → Prop) (E : durable → Prop) :
  (∀ a, r = Ok a → Q a D) → E D → runs D (lift r) Q E.
Proof. intros H1 H2 w <-. unfold lift. destruct r; [by apply H1 | done]. Qed.

Lemma runs_next D (Q : verdict → durable → Prop) E : (∀ v, Q v D) → runs D next Q E.
Proof. intros H w <-. unfold next. destruct (script w); apply H. Qed.

Lemma runs_query {A} D (f : world → A) (Q : A → durable → Prop) (E : durable → Prop) :
  (∀ w, dur w = D → Q (f w) D) → E D → runs D (query f) Q E.
Proof.
  intros HQ HE. eapply runs_bind; [apply (runs_next _ (λ _ D', D' = D)); done|].
  intros v ? ->. repeat case_match; try (by apply runs_raise); intros w Hw; subst D; exact (HQ w eq_refl).
Qed.

Lemma runs_act D (f : world → world) (g : durable → durable) (Q : durable → Prop) :
  (∀ w, dur (f w) = g (dur w)) → Q D → Q (g D) → runs D (act f) (λ _ D', D' = g D) Q.
Proof.
  intros Hf H1 H2. eapply runs_bind; [apply (runs_next _ (λ _ D', D' = D)); done|].
  intros v ? ->.
  assert (runs D (modify f) (λ _ D', D' = g D) Q) as Hm by (intros w <-; apply Hf).
  destruct v as [[|e|e]|n|n e|]; try done; [by apply runs_raise|].
  eapply runs_bind; [exact Hm|]. intros ? ? ->. by apply runs_raise.
Qed.

Lemma runs_weaken {A} D (m : M world A) (P Q : A → durable → Prop) (E F : durable → Prop) :
  runs D m P E → (∀ a D', P a D' → Q a D') → (∀ D', E D' → F D') → runs D m Q F.
Proof.
  intros Hm HQ HF w Hw. specialize (Hm w Hw). destruct (m w) as [[a|e] w']; auto.
Qed.

(** What only reads. *)
Definition reads {A} (D : durable) (m : M world A) (P : A → Prop) : Prop :=
  runs D m (λ a D', D' = D ∧ P a) (λ D', D' = D).

Lemma reads_bind {A B} D (m : M world A) (k : A → M world B) (P : A → Prop) Q (E : durable → Prop) :
  reads D m P → E D → (∀ a, P a → runs D (k a) Q E) → runs D (m ≫= k) Q E.
Proof.
  intros Hm HE Hk. eapply runs_bind.
  - eapply runs_weaken; [exact Hm | intros a D' H; exact H | by intros ? ->].
  - intros a D' [-> Ha]. by apply Hk.
Qed.

Lemma reads_each {A B} D (f : A → M world B) (l : list A) (P : A → B → Prop) :
  (∀ x, x ∈ l → reads D (f x) (P x)) → reads D (each f l) (λ ys, Forall2 P l ys).
Proof.
  induction l as [|x l IH]; intros Hf; cbn; [by apply runs_ret|].
  eapply reads_bind; [apply Hf; left | done |]. intros y Hy.
  eapply reads_bind; [apply IH; intros z Hz; apply Hf; by right | done |]. intros ys Hys.
  apply runs_ret. split; [done|]. by constructor.
Qed.

(** ** A day's archive *)

Section days.
Context (py_repr : json → string).
Abbreviation manifest_parts := (manifest_parts py_repr).

(** Object [f] of the day is a Parquet file of these rows. *)
Definition holds (D : durable) (p : string) (d : Z) (f : string) (l : list measurement) : Prop :=
  ∃ k, part_key p d f = Ok k ∧ d_objects D !! k = Some (Parquet l).

(** The parts the day's manifest lists. *)
Definition lists (D : durable) (p : string) (d : Z) (ps : list part) : Prop :=
  (d_objects D !! manifest_key p d = None ∧ ps = []) ∨
  ∃ v, d_objects D !! manifest_key p d = Some (JsonText v) ∧ v ≠ JNull ∧
       manifest_parts (Some v) = Ok ps ∧ is_legacy (Some v) = false.

(** A reader of the archive finds the row; finds a row of that key, in a part
    whose drop is recorded. *)
Definition archived_row (D : durable) (p : string) (d : Z) (kv : measurement) : Prop :=
  ∃ ps q l, lists D p d ps ∧ q ∈ ps ∧ holds D p d (file q) l ∧ kv ∈ l.
Definition archived_key (D : durable) (p s : string) (d : Z) (k : key) : Prop :=
  ∃ ps q l, lists D p d ps ∧ q ∈ ps ∧ (s, d, file q) ∈ d_drops D ∧ holds D p d (file q) l ∧ k ∈ l.*1.

Lemma holds_fun D p d f l l' : holds D p d f l → holds D p d f l' → l = l'.
Proof. intros (k & Hk & H) (k' & Hk' & H'). congruence. Qed.

Record day_ok (D : durable) (p s : string) (d : Z) (ps : list part) : Prop := {
  ok_listed : lists D p d ps;
  ok_named : ∀ i q, ps !! i = Some q → part_file (Z.of_nat i) = Ok (file q);
  ok_recorded : ∀ f, (s, d, f) ∈ d_drops D → ∃ i q, ps !! i = Some q ∧ file q = f;
  ok_earlier : ∀ i q, ps !! i = Some q → (S i < length ps)%nat → (s, d, file q) ∈ d_drops D;
  ok_committed : ∀ q, q ∈ ps → (s, d, file q) ∈ d_drops D →
    ∃ l, holds D p d (file q) l ∧ Z.of_nat (length l) = rows q;
  ok_distinct : ∀ q l, q ∈ ps → holds D p d (file q) l → NoDup l.*1;
  ok_apart : ∀ i j q q' l l', (i < j)%nat → ps !! i = Some q → ps !! j = Some q' →
    holds D p d (file q) l → holds D p d (file q') l' → ∀ k, k ∈ l.*1 → k ∉ l'.*1;
  ok_gone : ∀ m k, (s, d, m) ∈ d_gone D → is_Some (m !! k) → archived_key D p s d k
}.

Definition names (c p s : string) : Prop := company_id_to_prefix c = Ok p ∧ company_id_to_schema c = Ok s.

(** Every day of every tenant is in order. *)
Definition tidy (D : durable) : Prop :=
  ∀ c p s d, names c p s → day_in_range d = true → ∃ ps, day_ok D p s d ps.

(** Parts whose drop is recorded stay what they were. *)
Definition kept (D D' : durable) : Prop :=
  d_drops D ⊆ d_drops D' ∧
  ∀ c p s d f, names c p s → day_in_range d = true → (s, d, f) ∈ d_drops D →
    ∀ k, part_key p d f = Ok k → d_objects D' !! k = d_objects D !! k.

#[export] Instance kept_refl : Reflexive kept.
Proof. intros D. split; [done|]. done. Qed.
#[export] Instance kept_trans : Transitive kept.
Proof.
  intros D1 D2 D3 [S1 K1] [S2 K2]. split; [set_solver|]. intros c p s d f Hn Hd Hf k Hk.
  rewrite (K2 c p s d f), (K1 c p s d f); try done. by apply S1.
Qed.

(** *** Nothing else changes *)

(** Another day, or another tenant's. *)
Definition agree (D D' : durable) (p s : string) (d : Z) : Prop :=
  d_objects D' !! manifest_key p d = d_objects D !! manifest_key p d ∧
  (∀ f k, part_key p d f = Ok k → d_objects D' !! k = d_objects D !! k) ∧
  (∀ f, (s, d, f) ∈ d_drops D' ↔ (s, d, f) ∈ d_drops D) ∧
  (∀ m, (s, d, m) ∈ d_gone D' → (s, d, m) ∈ d_gone D).

Lemma agree_holds D D' p s d f l : agree D D' p s d → holds D' p d f l ↔ holds D p d f l.
Proof. intros (_ & Hk & _). unfold holds. split; intros (k & E & H); exists k; by rewrite (Hk f k E) in *. Qed.

Lemma agree_lists D D' p s d ps : agree D D' p s d → lists D' p d ps ↔ lists D p d ps.
Proof. intros (Hm & _). unfold lists. by rewrite Hm. Qed.

Lemma agree_day_ok D D' p s d ps : agree D D' p s d → day_ok D p s d ps → day_ok D' p s d ps.
Proof.
  intros Ha [H1 H2 H3 H4 H5 H6 H7 H8]. pose proof (agree_holds D D' p s d) as Hh.
  pose proof Ha as (_ & _ & Hd & Hg). split.
  - by apply (agree_lists D D' p s d ps).
  - done.
  - intros f Hf. apply H3. by apply Hd.
  - intros i q Hi Hl. apply Hd. by eapply H4.
  - intros q Hq Hf. apply Hd in Hf. destruct (H5 q Hq Hf) as (l & Hl & E). exists l. by rewrite Hh.
  - intros q l Hq Hl. rewrite Hh in Hl by done. by eapply H6.
  - intros i j q q' l l' Hij Hi Hj Hl Hl'. rewrite Hh in Hl, Hl' by done. by eapply H7.
  - intros m k Hm Hk. destruct (H8 m k (Hg m Hm) Hk) as (ps' & q & l & L & Hq & Hr & Hl & Hin).
    exists ps', q, l. rewrite (agree_lists D D' p s d ps'), Hh by done. by rewrite Hd.
Qed.

(** A tenant's names determine each other. *)
Lemma names_inj c c' p p' s s' : names c p s → names c' p' s' → p = p' ↔ s = s'.
Proof.
  intros [Hp Hs] [Hp' Hs']. split; intros ->.
  - assert (canonical_company_id c = canonical_company_id c') as E by (by eapply (naming_inj (f := cold_object_prefix))).
    unfold company_id_to_schema, schema_name, tenant_token, underscored in Hs, Hs'. rewrite E in Hs. congruence.
  - assert (canonical_company_id c = canonical_company_id c') as E by (by eapply (naming_inj (f := schema_name))).
    unfold company_id_to_prefix, cold_object_prefix in Hp, Hp'. rewrite E in Hp. congruence.
Qed.

Lemma range_day d : day_in_range d = true → (0 ≤ d)%Z.
Proof. intros H. unfold day_in_range in H. bool_hyps. lia. Qed.

(** What changes one day's objects, drops and history leaves the others in
    order: only that day has to be looked at. *)
Lemma tidy_day D D' c p s d ps :
  names c p s → day_in_range d = true → tidy D →
  (∀ c' p' s' d', names c' p' s' → day_in_range d' = true → (p', d') ≠ (p, d) → agree D D' p' s' d') →
  day_ok D' p s d ps → tidy D'.
Proof.
  intros Hn Hd Ht Ha Hok c' p' s' d' Hn' Hd'. destruct (decide ((p', d') = (p, d))) as [[= -> ->]|Hne].
  - assert (s' = s) as -> by (by eapply (names_inj c' c p p)). eauto.
  - destruct (Ht _ _ _ _ Hn' Hd') as [ps' Hok']. exists ps'. eapply agree_day_ok; [|done]. by eapply Ha.
Qed.

(** *** The manifest reads back *)

Lemma res_each_map {A B C} (f : B → res C) (g : A → B) (h : A → C) l :
  (∀ x, f (g x) = Ok (h x)) → res_each f (map g l) = Ok (map h l).
Proof. intros H. induction l as [|x l IH]; cbn; [done|]. by rewrite H, IH. Qed.

Lemma part_of_json q : part_of py_repr (sort_keys (part_json q)) = Ok q.
Proof. by destruct q. Qed.

Lemma manifest_roundtrip s d ps :
  manifest_parts (Some (sort_keys (_manifest s d ps))) = Ok ps ∧
  is_legacy (Some (sort_keys (_manifest s d ps))) = false ∧ sort_keys (_manifest s d ps) ≠ JNull.
Proof.
  assert (sort_keys (_manifest s d ps) =
    JDict [("day", JStr (date_isoformat d)); ("format", JInt MANIFEST_FORMAT);
           ("parts", JList (map sort_keys (map part_json ps)));
           ("rows", JInt (fold_right Z.add 0%Z (map rows ps))); ("schema", JStr s)]) as -> by reflexivity.
  split; [|by split].
  transitivity (res_each (part_of py_repr) (map sort_keys (map part_json ps))); [reflexivity|].
  rewrite map_map, (res_each_map _ _ id) by apply part_of_json. by rewrite map_id.
Qed.

(** *** A part is written, listed, and its rows dropped *)

Section day.
Context (c p s : string) (d : Z) (Hn : names c p s) (Hd : day_in_range d = true).

(** The parts a run keeps: all, or all but a last one whose drop is not recorded. *)
Definition committed_of (D : durable) (ps base : list part) : Prop :=
  base = ps ∨ ∃ q, ps = (base ++ [q])%list ∧ (s, d, file q) ∉ d_drops D.

Lemma base_lookup D ps base i q : committed_of D ps base → base !! i = Some q → ps !! i = Some q.
Proof. intros [->|(x & -> & _)] Hi; [done | by apply lookup_app_l_Some]. Qed.

Lemma base_elem D ps base q : committed_of D ps base → q ∈ base → q ∈ ps.
Proof. intros Hb (i & Hi)%list_elem_of_lookup. eapply list_elem_of_lookup_2, base_lookup; eauto. Qed.

Lemma recorded_base D ps base f :
  day_ok D p s d ps → committed_of D ps base → (s, d, f) ∈ d_drops D → ∃ i q, base !! i = Some q ∧ file q = f.
Proof.
  intros Hok Hb Hf. destruct (ok_recorded _ _ _ _ _ Hok f Hf) as (i & q & Hi & <-).
  destruct Hb as [->|(x & -> & Hx)]; [eauto|].
  apply lookup_app_Some in Hi as [Hi|[_ Hi]]; [eauto|]. apply list_lookup_singleton_Some in Hi as [_ <-]. done.
Qed.

Lemma base_recorded D ps base q :
  day_ok D p s d ps → committed_of D ps base → base ≠ ps ∨ (∀ x, last ps = Some x → (s, d, file x) ∈ d_drops D) →
  q ∈ base → (s, d, file q) ∈ d_drops D.
Proof.
  intros Hok Hb Hl (i & Hi)%list_elem_of_lookup. pose proof (lookup_lt_Some _ _ _ Hi) as Hlt.
  pose proof (base_lookup _ _ _ _ _ Hb Hi) as Hi'.
  destruct (decide (S i < length ps)%nat) as [Hs|Hs]; [by eapply (ok_earlier _ _ _ _ _ Hok)|].
  destruct Hb as [->|(x & -> & _)]; [|rewrite length_app in Hs; cbn in Hs; lia].
  destruct Hl as [Hl|Hl]; [done|]. apply Hl. rewrite last_lookup. rewrite <- Hi'. f_equal. lia.
Qed.

(** The next part's file is none of the parts kept, and not recorded. *)
Lemma next_file_new D ps base f q :
  day_ok D p s d ps → committed_of D ps base → part_file (Z.of_nat (length base)) = Ok f → q ∈ base → file q ≠ f.
Proof.
  intros Hok Hb Hf (i & Hi)%list_elem_of_lookup E. pose proof (lookup_lt_Some _ _ _ Hi).
  pose proof (ok_named _ _ _ _ _ Hok i q (base_lookup _ _ _ _ _ Hb Hi)) as Hi'. rewrite E in Hi'.
  pose proof (part_file_inj _ _ _ Hi' Hf). lia.
Qed.

Lemma next_file_unrecorded D ps base f :
  day_ok D p s d ps → committed_of D ps base → part_file (Z.of_nat (length base)) = Ok f → (s, d, f) ∉ d_drops D.
Proof.
  intros Hok Hb Hf Hr. destruct (recorded_base _ _ _ _ Hok Hb Hr) as (i & q & Hi & E).
  eapply (next_file_new D ps base f q); eauto. by eapply list_elem_of_lookup_2.
Qed.

Definition put_object (k : string) (o : object) (D : durable) : durable :=
  {| d_drops := d_drops D; d_objects := <[k := o]> (d_objects D); d_gone := d_gone D |}.

(** Only this day of this tenant is touched. *)
Definition confined (D D' : durable) : Prop :=
  ∀ c' p' s' d', names c' p' s' → day_in_range d' = true → (p', d') ≠ (p, d) → agree D D' p' s' d'.

#[local] Instance confined_refl : Reflexive confined.
Proof. by intros D c' p' s' d' _ _ _. Qed.
#[local] Instance confined_trans : Transitive confined.
Proof.
  intros D1 D2 D3 H1 H2 c' p' s' d' Hn' Hd' Hne.
  destruct (H1 c' p' s' d' Hn' Hd' Hne) as (M1 & K1 & R1 & G1), (H2 c' p' s' d' Hn' Hd' Hne) as (M2 & K2 & R2 & G2).
  split; [by rewrite M2|]. split; [intros f k Hk; by rewrite (K2 f k), (K1 f k)|].
  split; [intros f; by rewrite R2, R1 | auto].
Qed.

Lemma put_part_agree D f k o : part_key p d f = Ok k → confined D (put_object k o D).
Proof.
  intros Hk c' p' s' d' [Hp' _] Hd' Hne. destruct Hn as [Hp _].
  repeat split; try done.
  - cbn. apply lookup_insert_ne. intros ->.
    eapply (part_not_manifest c c' p p' d d' f); eauto using range_day.
  - intros f' k' Hk'. cbn. apply lookup_insert_ne. intros ->.
    destruct (part_key_inj c c' p p' d d' f f' k') as (-> & -> & _); eauto using range_day.
Qed.

Lemma put_part_other D f k o f' l :
  part_key p d f = Ok k → f' ≠ f → holds (put_object k o D) p d f' l ↔ holds D p d f' l.
Proof.
  intros Hk Hne. destruct Hn as [Hp _]. unfold holds. cbn.
  split; intros (k' & Hk' & H); exists k'; (split; [done|]);
    (rewrite lookup_insert_ne in *; [done|]); intros ->;
    destruct (part_key_inj c c p p d d f f' k') as (_ & _ & ->); eauto using range_day.
Qed.

Lemma put_part_same D f k l l' :
  part_key p d f = Ok k → holds (put_object k (Parquet l) D) p d f l' ↔ l' = l.
Proof.
  intros Hk. unfold holds. cbn. split.
  - intros (k' & Hk' & H). rewrite Hk in Hk'. injection Hk' as <-. rewrite lookup_insert in H.
    rewrite decide_True in H by done. by injection H as ->.
  - intros ->. exists k. split; [done|]. by rewrite lookup_insert, decide_True.
Qed.

Lemma put_part_lists D f k o ps : part_key p d f = Ok k → lists (put_object k o D) p d ps ↔ lists D p d ps.
Proof.
  intros Hk. destruct Hn as [Hp _]. unfold lists. cbn. rewrite lookup_insert_ne; [done|]. intros ->.
  eapply (part_not_manifest c c p p d d f); eauto using range_day.
Qed.

(** New rows: each key once, none that a kept part holds. *)
Definition new_rows (D : durable) (base : list part) (l : list measurement) : Prop :=
  NoDup l.*1 ∧ ∀ q l' k, q ∈ base → holds D p d (file q) l' → k ∈ l'.*1 → k ∉ l.*1.

Section stages.
Context (D : durable) (ps base : list part) (f : string).
Context (Ht : tidy D) (Hok : day_ok D p s d ps) (Hb : committed_of D ps base).
Context (Hrec : ∀ q, q ∈ base → (s, d, file q) ∈ d_drops D).
Context (Hf : part_file (Z.of_nat (length base)) = Ok f).

Lemma file_index i q : ps !! i = Some q → file q = f → i = length base.
Proof.
  intros Hi E. pose proof (ok_named _ _ _ _ _ Hok i q Hi) as Hi'. rewrite E in Hi'.
  pose proof (part_file_inj _ _ _ Hi' Hf). lia.
Qed.

Lemma before_base i q : ps !! i = Some q → (i < length base)%nat → q ∈ base.
Proof.
  intros Hi Hlt. destruct Hb as [->|(x & -> & _)]; [by eapply list_elem_of_lookup_2|].
  rewrite lookup_app_l in Hi by done. by eapply list_elem_of_lookup_2.
Qed.

Lemma day_written k l : part_key p d f = Ok k → new_rows D base l →
  let D' := put_object k (Parquet l) D in day_ok D' p s d ps ∧ tidy D' ∧ kept D D' ∧ confined D D'.
Proof.
  intros Hk [Hnd Hap] D'.
  pose proof (next_file_unrecorded D ps base f Hok Hb Hf) as Hun.
  assert (day_ok D' p s d ps) as Hok'.
  { destruct Hok as [H1 H2 H3 H4 H5 H6 H7 H8]. split; try done.
    - by apply put_part_lists with (f := f).
    - intros q Hq Hr. destruct (H5 q Hq Hr) as (l' & Hl' & E). exists l'. split; [|done].
      apply (put_part_other D f); [done | by intros E' ; rewrite E' in Hr | done].
    - intros q l' Hq Hl'. destruct (decide (file q = f)) as [E|E].
      + rewrite E in Hl'. apply (put_part_same D f k l l' Hk) in Hl' as ->. done.
      + apply (put_part_other D f k _ (file q) l' Hk E) in Hl'. by eapply H6.
    - intros i j q q' l1 l2 Hij Hi Hj Hl1 Hl2. destruct (decide (file q = f)) as [E|E].
      { pose proof (file_index i q Hi E) as ->. pose proof (lookup_lt_Some _ _ _ Hj).
        destruct Hb as [->|(x & Ex & _)]; [lia|]. rewrite Ex, length_app in H. cbn in H. lia. }
      apply (put_part_other D f k _ _ _ Hk E) in Hl1. destruct (decide (file q' = f)) as [E'|E'].
      + rewrite E' in Hl2. apply (put_part_same D f k l l2 Hk) in Hl2 as ->. intros x Hx.
        eapply Hap; [|exact Hl1 | done]. apply (before_base i); [done|]. by rewrite <- (file_index j q' Hj E').
      + apply (put_part_other D f k _ _ _ Hk E') in Hl2. by eapply H7.
    - intros m x Hm Hx. destruct (H8 m x Hm Hx) as (ps' & q & l' & L & Hq & Hr & Hl' & Hin).
      exists ps', q, l'. split; [by apply put_part_lists with (f := f)|]. split; [done|]. split; [done|].
      split; [|done]. apply (put_part_other D f); [done | by intros E; rewrite E in Hr | done]. }
  assert (confined D D') as Hc by (by apply (put_part_agree D f)).
  split; [done|]. split; [by eapply (tidy_day D D' c p s d ps)|]. split; [|done].
  { split; [done|]. intros c' p' s' d' f' Hn' Hd' Hr k' Hk'. cbn. apply lookup_insert_ne. intros ->.
    destruct Hn as [Hp Hs], Hn' as [Hp' Hs'].
    destruct (part_key_inj c c' p p' d d' f f' k') as (<- & <- & <-); eauto using range_day.
    assert (s' = s) as -> by (by apply (names_inj c' c p p)). done. }
Qed.

Lemma put_manifest_holds v D0 f' l :
  holds (put_object (manifest_key p d) v D0) p d f' l ↔ holds D0 p d f' l.
Proof.
  destruct Hn as [Hp _]. unfold holds. cbn. split; intros (k & Hk & H); exists k; (split; [done|]);
    (rewrite lookup_insert_ne in *; [done|]); intros <-;
    eapply (part_not_manifest c c p p d d f'); eauto using range_day.
Qed.

Lemma put_manifest_agree D0 v : confined D0 (put_object (manifest_key p d) v D0).
Proof.
  intros c' p' s' d' [Hp' _] Hd' Hne. destruct Hn as [Hp _]. repeat split; try done.
  - cbn. apply lookup_insert_ne. intros E.
    destruct (manifest_key_inj c c' p p' d d') as [-> ->]; eauto using range_day.
  - intros f' k' Hk'. cbn. apply lookup_insert_ne. intros <-.
    eapply (part_not_manifest c' c p' p d' d f'); eauto using range_day.
Qed.

Lemma lists_fun D0 p0 d0 a b : lists D0 p0 d0 a → lists D0 p0 d0 b → a = b.
Proof. intros [[E1 ->]|(v & E1 & _ & M1 & _)] [[E2 ->]|(v' & E2 & _ & M2 & _)]; congruence. Qed.

Lemma put_manifest_lists D0 ps' a :
  lists (put_object (manifest_key p d) (JsonText (sort_keys (_manifest s d ps'))) D0) p d a ↔ a = ps'.
Proof.
  destruct (manifest_roundtrip s d ps') as (M1 & M2 & M3).
  assert (lists (put_object (manifest_key p d) (JsonText (sort_keys (_manifest s d ps'))) D0) p d ps') as L.
  { right. exists (sort_keys (_manifest s d ps')). split; [|done]. cbn. rewrite lookup_insert. by rewrite decide_True. }
  split; [intros L'; by eapply lists_fun | by intros ->].
Qed.

(** The new list: the parts kept, and the part just verified if it holds rows. *)
Lemma day_listed ps' l :
  ps' = base ∨ (∃ x, ps' = (base ++ [x])%list ∧ file x = f ∧ Z.of_nat (length l) = rows x ∧ holds D p d f l ∧ new_rows D base l) →
  let D' := put_object (manifest_key p d) (JsonText (sort_keys (_manifest s d ps'))) D in
  day_ok D' p s d ps' ∧ tidy D' ∧ kept D D' ∧ confined D D'.
Proof.
  intros Hps D'.
  assert (∀ i q, ps' !! i = Some q → base !! i = Some q ∨
            (i = length base ∧ file q = f ∧ Z.of_nat (length l) = rows q ∧ holds D p d f l ∧ new_rows D base l)) as Hcases.
  { intros i q Hi. destruct Hps as [->|(x & -> & Hx)]; [by left|].
    apply lookup_app_Some in Hi as [Hi|[Hge Hi]]; [by left|]. apply list_lookup_singleton_Some in Hi as [E ->].
    right. split; [lia | done]. }
  assert (∀ q, q ∈ base → q ∈ ps') as Hsub.
  { intros q Hq. destruct Hps as [->|(x & -> & _)]; [done | apply elem_of_app; by left]. }
  assert (day_ok D' p s d ps') as Hok'.
  { subst D'. pose proof (base_lookup D ps base) as Hbl. pose proof (base_elem D ps base) as Hbe.
    destruct Hok as [H1 H2 H3 H4 H5 H6 H7 H8]. split; try done.
    - by apply put_manifest_lists.
    - intros i q Hi. destruct (Hcases i q Hi) as [Hi'|(-> & -> & _)]; eauto.
    - intros f' Hr. destruct (recorded_base D ps base f' Hok Hb Hr) as (i & q & Hi & E).
      apply list_elem_of_lookup_2, Hsub, list_elem_of_lookup in Hi as (j & Hj). eauto.
    - intros i q Hi Hl. destruct (Hcases i q Hi) as [Hi'|(-> & _)]; [by apply Hrec; eapply list_elem_of_lookup_2|].
      destruct Hps as [->|(x & -> & _)]; rewrite ?length_app in Hl; cbn in Hl; lia.
    - intros q (i & Hi)%list_elem_of_lookup Hr. destruct (Hcases i q Hi) as [Hi'|(_ & Ef & El & Hl & _)].
      + destruct (H5 q) as (l' & Hl' & E); [eapply Hbe; [done|]; by eapply list_elem_of_lookup_2 | done |].
        exists l'. by rewrite put_manifest_holds.
      + exists l. by rewrite put_manifest_holds, Ef.
    - intros q l' (i & Hi)%list_elem_of_lookup Hl'. apply put_manifest_holds in Hl'.
      destruct (Hcases i q Hi) as [Hi'|(_ & Ef & _ & Hl & [Hnd _])].
      + eapply H6; [|exact Hl']. eapply Hbe; [done|]. by eapply list_elem_of_lookup_2.
      + rewrite Ef in Hl'. by rewrite (holds_fun _ _ _ _ _ _ Hl' Hl).
    - intros i j q q' l1 l2 Hij Hi Hj Hl1 Hl2 x Hx. rewrite put_manifest_holds in Hl1, Hl2.
      destruct (Hcases i q Hi) as [Hi'|(-> & _)].
      2: { destruct (Hcases j q' Hj) as [Hj'%lookup_lt_Some|[-> _]]; lia. }
      destruct (Hcases j q' Hj) as [Hj'|(-> & Ef & _ & Hl & [_ Hap])]; [by eapply H7; eauto|].
      rewrite Ef in Hl2. rewrite (holds_fun _ _ _ _ _ _ Hl2 Hl).
      eapply Hap; [|exact Hl1 | done]. by eapply list_elem_of_lookup_2.
    - intros m x Hm Hx. destruct (H8 m x Hm Hx) as (ps0 & q & l' & L & Hq & Hr & Hl' & Hin).
      assert (ps0 = ps) as -> by (by eapply lists_fun).
      exists ps', q, l'. rewrite put_manifest_lists, put_manifest_holds. split; [done|]. split; [|done].
      destruct (recorded_base D ps base (file q) Hok Hb Hr) as (i & q' & Hi & E).
      apply Hsub. replace q with q'; [by eapply list_elem_of_lookup_2|].
      apply list_elem_of_lookup in Hq as (j & Hj). pose proof (Hbl _ _ Hb Hi) as Hi'.
      pose proof (H2 _ _ Hi') as F1. pose proof (H2 _ _ Hj) as F2. rewrite E in F1.
      pose proof (part_file_inj _ _ _ F1 F2). assert (i = j) as -> by lia. congruence. }
  assert (confined D D') as Hc by apply put_manifest_agree.
  split; [done|]. split; [by eapply (tidy_day D D' c p s d ps')|]. split; [|done].
  split; [done|]. intros c' p' s' d' f' [Hp' _] Hd' Hr k' Hk'. cbn. apply lookup_insert_ne. intros <-.
  destruct Hn as [Hp _]. eapply (part_not_manifest c' c p' p d' d f'); eauto using range_day.
Qed.
End stages.

Definition dropped (f : string) (m : gmap key row) (D : durable) : durable :=
  {| d_drops := {[(s, d, f)]} ∪ d_drops D; d_objects := d_objects D; d_gone := (d_gone D ++ [(s, d, m)])%list |}.

(** A drop whose rows the list holds completes the last part. *)
Lemma day_dropped D ps x l m :
  tidy D → day_ok D p s d ps → last ps = Some x → holds D p d (file x) l → Z.of_nat (length l) = rows x →
  (∀ k, is_Some (m !! k) → ∃ q l', q ∈ ps ∧ holds D p d (file q) l' ∧ k ∈ l'.*1) →
  let D' := dropped (file x) m D in day_ok D' p s d ps ∧ tidy D' ∧ kept D D' ∧ confined D D'.
Proof.
  intros Ht Hok Hlast Hl El Hm D'. rewrite last_lookup in Hlast. pose proof (lookup_lt_Some _ _ _ Hlast) as Hlt.
  assert (∀ q, q ∈ ps → (s, d, file q) ∈ d_drops D') as Hall.
  { intros q (i & Hi)%list_elem_of_lookup. cbn. pose proof (lookup_lt_Some _ _ _ Hi).
    destruct (decide (S i < length ps)%nat) as [Hs|Hs].
    - apply elem_of_union_r. by eapply (ok_earlier _ _ _ _ _ Hok).
    - apply elem_of_union_l. assert (i = pred (length ps)) as -> by lia.
      rewrite Hlast in Hi. injection Hi as ->. by apply elem_of_singleton. }
  assert (day_ok D' p s d ps) as Hok'.
  { destruct Hok as [H1 H2 H3 H4 H5 H6 H7 H8]. split; try done.
    - intros f [E%elem_of_singleton|Hf]%elem_of_union; [|by apply H3]. injection E as ->. eauto.
    - intros i q Hi _. apply Hall. by eapply list_elem_of_lookup_2.
    - intros q Hq Hr. cbn in Hr. apply elem_of_union in Hr as [E%elem_of_singleton|Hr]; [|by apply H5].
      injection E as E. exists l. rewrite E. split; [done|].
      apply list_elem_of_lookup in Hq as (i & Hi). pose proof (H2 _ _ Hi) as F1. pose proof (H2 _ _ Hlast) as F2.
      rewrite E in F1. pose proof (part_file_inj _ _ _ F1 F2). assert (i = pred (length ps)) as -> by lia. congruence.
    - intros m' k Hm' Hk. cbn in Hm'. apply elem_of_app in Hm' as [Hm'|Hm'].
      + destruct (H8 m' k Hm' Hk) as (ps' & q & l' & L & Hq & Hr & Hl' & Hin).
        exists ps', q, l'. split; [done|]. split; [done|]. split; [|done]. cbn. set_solver.
      + apply list_elem_of_singleton in Hm'. injection Hm' as ->. destruct (Hm k Hk) as (q & l' & Hq & Hl' & Hin).
        exists ps, q, l'. split; [done|]. split; [done|]. split; [by apply Hall | done]. }
  assert (confined D D') as Hc.
  { intros c' p' s' d' Hn' Hd' Hne.
    assert ((s', d') ≠ (s, d)) as Hne'.
    { intros [= -> ->]. apply Hne. f_equal. by apply (names_inj c' c p' p s s). }
    repeat split; try done; cbn.
    + intros [[= -> -> _]%elem_of_singleton|Hf]%elem_of_union; [by destruct Hne' | done].
    + intros Hf. by apply elem_of_union_r.
    + intros m' [Hm'|[= -> -> _]%list_elem_of_singleton]%elem_of_app; [done | by destruct Hne']. }
  split; [done|]. split; [by eapply (tidy_day D D' c p s d ps)|]. split; [|done]. split; [cbn; set_solver | done].
Qed.

(** *** A part's upload *)

Lemma runs_read_part D f :
  reads D (read_part p d f) (λ l, holds D p d f l).
Proof.
  eapply (reads_bind D _ _ (λ k, part_key p d f = Ok k)); [by apply runs_lift | done |]. intros k Hk.
  eapply (reads_bind D _ _ (λ o, o = d_objects D !! k)); [by apply runs_query; [intros w <-|] | done |].
  intros o ->. destruct (d_objects D !! k) as [[v|l|]|] eqn:E; try by apply runs_raise.
  apply runs_ret. split; [done|]. by exists k.
Qed.

Lemma runs_part_row_count D f :
  reads D (part_row_count p d f) (λ n, ∃ l, holds D p d f l ∧ n = Z.of_nat (length l)).
Proof.
  eapply reads_bind; [apply runs_read_part | done |]. intros l Hl. apply runs_ret. eauto.
Qed.

Lemma runs_check_part D q :
  reads D (_check_part p d q) (λ _, ∃ l, holds D p d (file q) l ∧ Z.of_nat (length l) = rows q).
Proof.
  eapply reads_bind; [apply runs_part_row_count | done |]. intros n (l & Hl & ->).
  destruct (Z.eqb_spec (Z.of_nat (length l)) (rows q)); [|by apply runs_raise]. apply runs_ret. eauto.
Qed.

(** The store holds a prefix of the rows, all of them when nothing is raised
    and the count is right. *)
Definition uploaded (D : durable) (f : string) (full : list measurement) (D' : durable) : Prop :=
  ∃ k l, part_key p d f = Ok k ∧ l `prefix_of` full ∧ D' = put_object k (Parquet l) D.

Lemma prefix_torn {A} (v : verdict) (l : list A) : match v with Torn n => firstn n l | _ => l end `prefix_of` l.
Proof. destruct v; try done. eexists. symmetry. apply take_drop. Qed.

Lemma runs_write_part D f src full :
  concat (batches_ src) `prefix_of` full →
  runs D (write_part p d f src)
    (λ n D', fault src = None ∧ n = Z.of_nat (length (concat (batches_ src))) ∧
             ∃ k l, part_key p d f = Ok k ∧ l `prefix_of` concat (batches_ src) ∧ D' = put_object k (Parquet l) D)
    (λ D', D' = D ∨ uploaded D f full D').
Proof.
  intros Hpre. eapply (reads_bind D _ _ (λ k, part_key p d f = Ok k)); [by apply runs_lift | by left |].
  intros k Hk. destruct (batches_ src) as [|b bs] eqn:Eb; [apply runs_raise; by left|].
  eapply runs_bind; [by apply (runs_next _ (λ _ D', D' = D))|]. intros v ? ->.
  set (l := match v with Torn n => firstn n (concat (b :: bs)) | _ => concat (b :: bs) end).
  assert (l `prefix_of` concat (b :: bs)) as Hl by apply prefix_torn.
  assert (uploaded D f full (put_object k (Parquet l) D)) as Hup.
  { exists k, l. split; [done|]. split; [|done]. by etrans. }
  assert (runs D (modify (λ w, set_objects (<[k := Parquet l]> (objects w)) w))
            (λ _ D', D' = put_object k (Parquet l) D) (λ D', D' = D ∨ uploaded D f full D')) as Hm by (by intros w <-).
  assert (∀ o, runs (put_object k (Parquet l) D) o
            (λ n D', fault src = None ∧ n = Z.of_nat (length (concat (b :: bs))) ∧
               ∃ k l, part_key p d f = Ok k ∧ l `prefix_of` concat (b :: bs) ∧ D' = put_object k (Parquet l) D)
            (λ D', D' = D ∨ uploaded D f full D') →
          runs D (_ ← modify (λ w, set_objects (<[k := Parquet l]> (objects w)) w); o)
            (λ n D', fault src = None ∧ n = Z.of_nat (length (concat (b :: bs))) ∧
               ∃ k l, part_key p d f = Ok k ∧ l `prefix_of` concat (b :: bs) ∧ D' = put_object k (Parquet l) D)
            (λ D', D' = D ∨ uploaded D f full D')) as Hthen.
  { intros o Ho. eapply runs_bind; [exact Hm|]. by intros ? ? ->. }
  subst l. destruct v as [[|e|e]|n|n e|]; try (apply runs_raise; by left); apply Hthen;
    try (apply runs_raise; by right); (destruct (fault src) as [e'|] eqn:Ef; [apply runs_raise; by right|]);
    apply runs_ret; (split; [done|]; split; [done|]; eexists _, _; split; [done|]; split; [exact Hl | done]).
Qed.

(** Written, its count and its footer checked: the store holds every row. *)
Lemma runs_write_and_verify D f src full expected :
  concat (batches_ src) `prefix_of` full →
  runs D (_write_and_verify p d f src expected)
    (λ _ D', fault src = None ∧ expected = Z.of_nat (length (concat (batches_ src))) ∧
             ∃ k, part_key p d f = Ok k ∧ D' = put_object k (Parquet (concat (batches_ src))) D)
    (λ D', D' = D ∨ uploaded D f full D').
Proof.
  intros Hpre. eapply runs_bind; [by apply runs_write_part|].
  intros n D' (Hfault & -> & k & l & Hk & Hl & ->).
  assert (uploaded D f full (put_object k (Parquet l) D)) as Hup.
  { exists k, l. split; [done|]. split; [by etrans | done]. }
  destruct (Z.eqb_spec (Z.of_nat (length (concat (batches_ src)))) expected) as [E|]; cbn [negb]; [|apply runs_raise; by right].
  eapply reads_bind; [apply runs_part_row_count | by right |]. intros n (l' & Hl' & ->).
  apply (put_part_same D f k l l' Hk) in Hl' as ->.
  destruct (Z.eqb_spec (Z.of_nat (length l)) expected) as [E'|]; cbn [negb]; [|apply runs_raise; by right].
  apply runs_ret. split; [done|]. split; [done|]. exists k. split; [done|].
  destruct Hl as [r Hr]. pose proof (f_equal length Hr) as Hlen. rewrite length_app in Hlen.
  destruct r; [by rewrite Hr, app_nil_r | cbn in Hlen; lia].
Qed.

(** *** What is exported *)

Lemma concat_chunks {A} n fuel (l : list A) : (0 < n)%nat → (length l ≤ fuel)%nat → concat (chunks n fuel l) = l.
Proof.
  intros Hn0. revert l. induction fuel as [|fuel IH]; intros [|x l] Hl; try done; [cbn in Hl; lia|].
  change (chunks n (S fuel) (x :: l)) with (firstn n (x :: l) :: chunks n fuel (skipn n (x :: l))).
  cbn [concat]. rewrite IH; [apply take_drop|]. rewrite length_skipn. cbn in *. lia.
Qed.

Lemma concat_firstn {A} n (ls : list (list A)) : concat (firstn n ls) `prefix_of` concat ls.
Proof.
  rewrite <- (take_drop n ls) at 2. rewrite concat_app. by eexists.
Qed.

Context (digest : gmap key row → Z).

Definition sorted_rows (m : gmap key row) : list measurement := merge_sort row_le (map_to_list m).

Lemma runs_batches D snap :
  reads D (batches snap) (λ src, concat (batches_ src) `prefix_of` sorted_rows (s_content snap) ∧
    (fault src = None → concat (batches_ src) = sorted_rows (s_content snap))).
Proof.
  eapply runs_bind; [by apply (runs_next _ (λ _ D', D' = D))|]. intros v ? ->.
  assert (concat (chunks _READ_BATCH (length (sorted_rows (s_content snap))) (sorted_rows (s_content snap)))
          = sorted_rows (s_content snap)) as E by (apply concat_chunks; [unfold _READ_BATCH; lia | done]).
  apply runs_ret. split; [done|]. fold (sorted_rows (s_content snap)).
  destruct v as [[|e|e]|n|n e|]; cbn [batches_ fault]; try (split; [by eexists | done]); try (by rewrite E).
  split; [|done]. etrans; [apply concat_firstn|]. by rewrite E.
Qed.

Lemma runs_table_of D src :
  reads D (table_of src) (λ t, fault src = None ∧ t = concat (batches_ src)).
Proof. unfold table_of. destruct (fault src), (batches_ src); try by apply runs_raise. by apply runs_ret. Qed.

Lemma runs_keys D q : reads D (read_part_keys p d (file q)) (λ ks, ∃ l, holds D p d (file q) l ∧ ks = l.*1).
Proof. eapply reads_bind; [apply runs_read_part | done |]. intros l Hl. apply runs_ret. eauto. Qed.

(** The fresh rows are those whose key no kept part holds. *)
Lemma runs_without_archived D src n base :
  reads D (_without_archived src n p d base) (λ fresh, fault src = None ∧
    ∃ ks : list key, (∀ k, k ∈ ks ↔ ∃ q l, q ∈ base ∧ holds D p d (file q) l ∧ k ∈ l.*1) ∧
      fresh = merge_sort row_le (base.filter (λ kv, kv.1 ∉ ks) (concat (batches_ src)))).
Proof.
  unfold _without_archived.
  eapply (reads_bind D _ _ (λ o, ∀ t, o = Some t → fault src = None ∧ t = concat (batches_ src))).
  { destruct (n =? 0)%Z; [by apply runs_ret|]. eapply reads_bind; [apply runs_table_of | done |].
    intros t Ht. apply runs_ret. split; [done|]. by intros ? [= <-]. }
  { done. }
  intros [t|] Ht; [|by apply runs_raise]. destruct (Ht t eq_refl) as [Hfault ->].
  case_match; [by apply runs_raise|].
  eapply reads_bind; [apply (reads_each D _ base (λ q ks, ∃ l, holds D p d (file q) l ∧ ks = l.*1)); intros; apply runs_keys | done |].
  intros kss Hks. apply runs_ret. split; [done|]. split; [done|]. exists (concat kss). split; [|done].
  intros k. rewrite list_elem_of_In, in_concat. split.
  - intros (ks & Hin%list_elem_of_In & Hk%list_elem_of_In). apply list_elem_of_lookup in Hin as (i & Hi).
    destruct (Forall2_lookup_r _ _ _ _ _ Hks Hi) as (q & Hq & l & Hl & ->). exists q, l.
    split; [by eapply list_elem_of_lookup_2 | done].
  - intros (q & l & (i & Hi)%list_elem_of_lookup & Hl & Hk).
    destruct (Forall2_lookup_l _ _ _ _ _ Hks Hi) as (ks & Hks' & l' & Hl' & ->).
    rewrite (holds_fun _ _ _ _ _ _ Hl' Hl) in Hks'. exists (l.*1).
    split; apply list_elem_of_In; [by eapply list_elem_of_lookup_2 | done].
Qed.

(** *** A day's export *)

Context (Hdigest : ∀ m m', size m = size m' → digest m = digest m' → m = m').

Definition good_snap (snap : snapshot) : Prop :=
  s_schema snap = s ∧ s_day snap = d ∧ s_rows snap = Z.of_nat (size (s_content snap)) ∧
  s_fingerprint snap = digest (s_content snap).

Lemma runs_drop D snap f : good_snap snap →
  runs D (drop digest snap f) (λ b D', D' = if b : bool then dropped f (s_content snap) D else D)
    (λ D', D' = D ∨ D' = dropped f (s_content snap) D).
Proof.
  intros (Es & Ed & En & Ef).
  assert (∀ lo hi w, dur w = D → let '(b, w') := drop_day digest lo hi snap f w in
            dur w' = if b : bool then dropped f (s_content snap) D else D) as Hday.
  { intros lo hi w Hw. unfold drop_day. destruct (_ && _) eqn:E; [|done]. bool_hyps.
    assert (rows_in lo hi (default ∅ (hot w !! s_schema snap)) = s_content snap) as -> by (apply Hdigest; [lia | congruence]).
    unfold dur, dropped. cbn. rewrite Es, Ed, <- Hw. done. }
  eapply (reads_bind D _ _ (λ _, True)); [by apply runs_lift | by left |]. intros [lo hi] _.
  eapply runs_bind; [by apply (runs_next _ (λ _ D', D' = D))|]. intros v ? ->.
  case_match; [apply runs_raise; by left|].
  assert (runs D (λ w, let '(b, w') := drop_day digest lo hi snap f w in (Ok b, w'))
    (λ b D', D' = if b : bool then dropped f (s_content snap) D else D)
    (λ D', D' = D ∨ D' = dropped f (s_content snap) D)) as Hrun.
  { intros w Hw. specialize (Hday lo hi w Hw). by destruct (drop_day digest lo hi snap f w). }
  destruct v as [[|e|e]|n|n e|]; try exact Hrun; [apply runs_raise; by left|].
  eapply (runs_bind _ _ _ (λ _ D', D' = D ∨ D' = dropped f (s_content snap) D)).
  - intros w Hw. specialize (Hday lo hi w Hw). unfold modify.
    destruct (drop_day digest lo hi snap f w) as [[] w']; [by right | by left].
  - intros ? D' HD. by apply runs_raise.
Qed.

(** The state is in order, what was recorded stays, and of the rows a drop
    removed a reader finds each, or finds its key where it was before. *)
Definition progress (D D' : durable) : Prop :=
  tidy D' ∧ kept D D' ∧ confined D D' ∧
  (d_gone D' = d_gone D ∨
   ∃ m, d_gone D' = (d_gone D ++ [(s, d, m)])%list ∧
        ∀ k r, m !! k = Some r → archived_row D' p d (k, r) ∨ archived_key D p s d k).

Lemma progress_refl D : tidy D → progress D D.
Proof. intros Ht. split; [done|]. split; [done|]. split; [done|]. by left. Qed.

Lemma sorted_rows_elem m kv : kv ∈ sorted_rows m ↔ m !! kv.1 = Some kv.2.
Proof.
  unfold sorted_rows. rewrite (merge_sort_Permutation row_le (map_to_list m)). destruct kv. apply elem_of_map_to_list.
Qed.

Lemma sorted_rows_nodup m : NoDup (sorted_rows m).*1.
Proof. unfold sorted_rows. rewrite (merge_sort_Permutation row_le (map_to_list m)). apply NoDup_fst_map_to_list. Qed.

Lemma NoDup_fst_filter (P : measurement → Prop) `{∀ x, Decision (P x)} l : NoDup l.*1 → NoDup (base.filter P l).*1.
Proof.
  induction l as [|x l IH]; intros Hnd; [constructor|]. apply NoDup_cons in Hnd as [Hx Hnd].
  rewrite filter_cons. case_decide; [|by apply IH]. constructor; [|by apply IH].
  intros (y & E & Hy)%list_elem_of_fmap. apply Hx. rewrite E.
  apply list_elem_of_fmap_2. by apply list_elem_of_filter in Hy as [_ Hy].
Qed.

Lemma new_rows_prefix D base l l' : l `prefix_of` l' → new_rows D base l' → new_rows D base l.
Proof.
  intros [r ->] [Hnd Hap]. rewrite fmap_app in Hnd, Hap. apply NoDup_app in Hnd as (Hnd & _).
  split; [done|]. intros q l0 k Hq Hl0 Hk Hin. eapply Hap; [done | exact Hl0 | exact Hk |]. set_solver.
Qed.

(** What the snapshot's rows become: those to write, and how many. *)
Definition selected (D : durable) (base : list part) (snap : snapshot) (src : stream) (expected : Z) : Prop :=
  (∃ full, concat (batches_ src) `prefix_of` full ∧ new_rows D base full) ∧
  (expected = 0%Z → base ≠ []) ∧
  (fault src = None → expected = Z.of_nat (length (concat (batches_ src))) →
   ∀ k r, s_content snap !! k = Some r →
     (k, r) ∈ concat (batches_ src) ∨ ∃ q l, q ∈ base ∧ holds D p d (file q) l ∧ k ∈ l.*1) ∧
  (expected = 0%Z → fault src = None ∧ concat (batches_ src) = []).

Lemma runs_selected D base snap : good_snap snap → s_rows snap ≠ 0%Z →
  reads D (src ← batches snap;
           if bool_decide (base = []) then mret (src, s_rows snap)
           else fresh ← _without_archived src (s_rows snap) p d base;
                mret ({| batches_ := match fresh with [] => [] | _ => [fresh] end; fault := None |},
                      Z.of_nat (length fresh)))
    (λ '(src, expected), selected D base snap src expected).
Proof.
  intros (_ & _ & En & _) Hne. eapply reads_bind; [apply runs_batches | done |]. intros src [Hpre Hall].
  case_bool_decide as Hbase.
  - apply runs_ret. split; [done|]. split; [|split; [done|split; [|done]]].
    + exists (sorted_rows (s_content snap)). split; [done|]. split; [apply sorted_rows_nodup|].
      subst base. by intros q l k Hq%elem_of_nil.
    + intros Hf _ k r Hk. left. rewrite Hall by done. by apply sorted_rows_elem.
  - eapply reads_bind; [apply runs_without_archived | done |]. intros fresh (Hf & ks & Hks & ->).
    specialize (Hall Hf). set (fresh := merge_sort row_le _).
    assert (fresh ≡ₚ base.filter (λ kv : measurement, kv.1 ∉ ks) (sorted_rows (s_content snap))) as Hfresh.
    { subst fresh. rewrite merge_sort_Permutation. by rewrite Hall. }
    assert (concat (match fresh with [] => [] | _ => [fresh] end) = fresh) as Ec.
    { destruct fresh; [done|]. cbn. by rewrite app_nil_r. }
    apply runs_ret. split; [done|]. unfold selected. cbn [batches_ fault]. rewrite Ec.
    split; [exists fresh; split; [done|]; split|split; [done|split]].
    + rewrite Hfresh. apply NoDup_fst_filter, sorted_rows_nodup.
    + intros q l k Hq Hl Hk (kv & -> & Hkv)%list_elem_of_fmap. rewrite Hfresh in Hkv.
      apply list_elem_of_filter in Hkv as [Hnot _]. apply Hnot, Hks. eauto.
    + intros _ _ k r Hk. destruct (decide (k ∈ ks)) as [Hin|Hout]; [right; by apply Hks|]. left.
      rewrite Hfresh. apply list_elem_of_filter. split; [done | by apply sorted_rows_elem].
    + intros E. split; [done|]. by destruct fresh.
Qed.

Lemma runs_assoc {A B C} D (m : M world A) (k : A → M world B) (k' : B → M world C) Q E :
  runs D ((m ≫= k) ≫= k') Q E → runs D (m ≫= λ a, k a ≫= k') Q E.
Proof.
  intros H w Hw. specialize (H w Hw). unfold mbind, M_bind in *. by destruct (m w) as [[a|e] w'].
Qed.

Section rows.
Context (D : durable) (ps base : list part) (snap : snapshot).
Context (Ht : tidy D) (Hok : day_ok D p s d ps) (Hb : committed_of D ps base).
Context (Hrec : ∀ q, q ∈ base → (s, d, file q) ∈ d_drops D) (Hsnap : good_snap snap).

(** What an upload leaves is in order, whatever of the rows it kept. *)
Lemma uploaded_progress f full D' :
  part_file (Z.of_nat (length base)) = Ok f → new_rows D base full → D' = D ∨ uploaded D f full D' → progress D D'.
Proof.
  intros Hf Hnew [->|(k & l & Hk & Hl & ->)]; [by apply progress_refl|].
  destruct (day_written D ps base f Ht Hok Hb Hrec Hf k l Hk) as (_ & Ht' & Hkept & Hc); [by eapply new_rows_prefix|].
  split; [done|]. split; [done|]. split; [done|]. by left.
Qed.

(** Listing and dropping, from a state where the list's last part is written. *)
Lemma runs_list_and_drop D1 ps' x l (o : bool → string) :
  kept D D1 → confined D D1 → d_gone D1 = d_gone D →
  (let D2 := put_object (manifest_key p d) (JsonText (sort_keys (_manifest s d ps'))) D1 in
   day_ok D2 p s d ps' ∧ tidy D2 ∧ kept D1 D2 ∧ confined D1 D2) →
  last ps' = Some x → holds D1 p d (file x) l → Z.of_nat (length l) = rows x →
  tidy D1 →
  (∀ k r, s_content snap !! k = Some r → (x ∈ ps' ∧ (k, r) ∈ l) ∨ archived_key D p s d k) →
  (∀ q l, q ∈ base → holds D p d (file q) l → q ∈ ps' ∧ holds D1 p d (file q) l) →
  runs D1 (_ ← write_manifest p d (_manifest s d ps'); b ← drop digest snap (file x); mret (o b))
    (λ _, progress D) (progress D).
Proof.
  intros Hk1 Hc1 Hg1 (Hok2 & Ht2 & Hk2 & Hc2) Hlast Hl El Ht1 Hcover Hbase.
  set (D2 := put_object (manifest_key p d) (JsonText (sort_keys (_manifest s d ps'))) D1) in *.
  assert (progress D D1) as P1 by (split; [done|]; split; [done|]; split; [done|]; by left).
  assert (progress D D2) as P2 by (split; [done|]; split; [by etrans|]; split; [by etrans|]; by left).
  assert (∀ q l, holds D1 p d q l → holds D2 p d q l) as H12 by (intros q l0 H; by apply put_manifest_holds).
  assert (progress D (dropped (file x) (s_content snap) D2)) as P3.
  { destruct (day_dropped D2 ps' x l (s_content snap)) as (_ & Ht3 & Hk3 & Hc3); eauto.
    - intros k [r Hr]. destruct (Hcover k r Hr) as [[Hx Hin]|(ps0 & q & l0 & L & Hq & Hr0 & Hl0 & Hin)].
      + exists x, l. split; [done|]. split; [by apply H12|]. apply list_elem_of_fmap. by exists (k, r).
      + assert (ps0 = ps) as -> by (eapply lists_fun; [exact L | apply Hok]).
        destruct (recorded_base D ps base (file q) Hok Hb Hr0) as (i & q' & Hi & Eq).
        rewrite <- Eq in Hl0. destruct (Hbase q' l0) as [Hq' Hl1]; [by eapply list_elem_of_lookup_2 | done |].
        exists q', l0. split; [done|]. split; [by apply H12 | done].
    - split; [done|]. split; [etrans; [exact Hk1|]; by etrans|]. split; [etrans; [exact Hc1|]; by etrans|]. right. exists (s_content snap).
      split; [cbn; by rewrite Hg1|]. intros k r Hr. destruct (Hcover k r Hr) as [[Hx Hin]|Ha]; [left | by right].
      exists ps', x, l. split; [by apply put_manifest_lists|]. split; [done|]. split; [|done]. by apply H12. }
  eapply runs_bind.
  { apply (runs_act D1 _ (put_object (manifest_key p d) (JsonText (sort_keys (_manifest s d ps'))))); [by intros w | done | done]. }
  intros [] ? ->. fold D2. eapply runs_bind.
  { eapply runs_weaken; [by apply runs_drop | intros b D' HD'; exact HD' |]. by intros ? [->| ->]. }
  intros b D' ->. apply runs_ret. by destruct b.
Qed.

Lemma runs_export_rows pending : s_rows snap ≠ 0%Z →
  runs D (export_rows digest s p d base pending snap) (λ _, progress D) (progress D).
Proof.
  intros Hne. unfold export_rows.
  eapply (reads_bind D _ _ (λ f, part_file (Z.of_nat (length base)) = Ok f)); [by apply runs_lift | by apply progress_refl |].
  intros f Hf. apply runs_assoc.
  eapply reads_bind; [by apply runs_selected | by apply progress_refl |].
  intros [src expected] ((full & Hpre & Hnew) & Hne0 & Hcover & Hnone).
  destruct (Z.eqb_spec expected 0) as [E0|E0]; cbn [negb].
  - (* every row is archived: the last part kept is completed *)
    specialize (Hne0 E0). destruct (Hnone E0) as [Hfault Hnil]. rewrite Hnil in Hcover. specialize (Hcover Hfault E0).
    destruct (last base) as [x|] eqn:Ex; [|by apply last_None in Ex].
    apply (runs_bind D _ _ (λ r D', r = (base, file x) ∧ D' = D)); [by apply runs_ret|].
    intros [? ?] ? [[= -> ->] ->].
    assert (x ∈ base) as Hx by (by apply last_Some_elem_of).
    destruct (ok_committed _ _ _ _ _ Hok x) as (l & Hl & El); [by eapply base_elem | by apply Hrec |].
    apply (runs_list_and_drop D base x l (λ b, if negb b then "drop_deferred" else "resumed_drop")); try done.
    + apply (day_listed D ps base f Ht Hok Hb Hrec Hf base l). by left.
    + intros k r Hr. right. destruct (Hcover k r Hr) as [Hin%elem_of_nil|(q & l' & Hq & Hl' & Hin)]; [done|].
      exists ps, q, l'. split; [apply Hok|]. split; [by eapply base_elem|]. split; [by apply Hrec | done].
  - eapply (runs_bind D _ _ (λ r D', r = ((base ++ [{| file := f; rows := expected |}])%list, f) ∧
        fault src = None ∧ expected = Z.of_nat (length (concat (batches_ src))) ∧
        ∃ k, part_key p d f = Ok k ∧ D' = put_object k (Parquet (concat (batches_ src))) D)).
    { eapply runs_bind.
      - eapply runs_weaken; [by apply runs_write_and_verify | intros ? ? H; exact H |].
        intros D' HD'. by eapply uploaded_progress.
      - intros ? D' (H1 & H2 & H3). by apply runs_ret. }
    intros [? ?] D1 ([= -> ->] & Hfault & En & k & Hk & ->). set (l := concat (batches_ src)) in *.
    assert (new_rows D base l) as Hnewl by (by eapply new_rows_prefix).
    destruct (day_written D ps base f Ht Hok Hb Hrec Hf k l Hk Hnewl) as (Hok1 & Ht1 & Hk1 & Hc1).
    set (D1 := put_object k (Parquet l) D) in *. set (x := {| file := f; rows := expected |}) in *.
    assert (∀ q l', q ∈ base → holds D1 p d (file q) l' ↔ holds D p d (file q) l') as Hsame.
    { intros q l' Hq. apply (put_part_other D f); [done|]. by eapply next_file_new. }
    assert (new_rows D1 base l) as Hnew1.
    { destruct Hnewl as [Hnd Hap]. split; [done|]. intros q l' j Hq Hl'. eapply Hap; [done|]. by apply Hsame. }
    apply (runs_list_and_drop D1 (base ++ [x]) x l
      (λ b, if negb b then "drop_deferred" else if pending then "reexported"
            else if bool_decide (base = []) then "exported" else "late_rows_exported")); try done.
    + apply (day_listed D1 ps base f Ht1 Hok1 Hb Hrec Hf (base ++ [x]) l). right. exists x.
      split; [done|]. split; [done|]. split; [done|]. split; [by apply (put_part_same D f k l l Hk) | done].
    + apply last_snoc.
    + by apply (put_part_same D f k l l Hk).
    + intros j r Hr. destruct (Hcover Hfault En j r Hr) as [Hin|(q & l' & Hq & Hl' & Hin)].
      * left. split; [apply elem_of_app; right; by apply list_elem_of_singleton | done].
      * right. exists ps, q, l'. split; [apply Hok|]. split; [by eapply base_elem|]. split; [by apply Hrec | done].
    + intros q l' Hq Hl'. split; [apply elem_of_app; by left | by apply Hsame].
Qed.
End rows.

Lemma runs_confirm_pending D ps pending snap :
  tidy D → day_ok D p s d ps → good_snap snap → s_rows snap = 0%Z →
  runs D (confirm_pending digest p d ps pending snap) (λ _, progress D) (progress D).
Proof.
  intros Ht Hok Hsnap E0. pose proof (progress_refl D Ht) as P0. unfold confirm_pending.
  destruct (last ps) as [x|] eqn:Ex; [|by apply runs_ret]. destruct pending; [|by apply runs_ret].
  eapply reads_bind; [apply runs_check_part | done |]. intros _ (l & Hl & El).
  assert (s_content snap = ∅) as Hempty.
  { destruct Hsnap as (_ & _ & En & _). apply map_size_empty_inv. lia. }
  assert (progress D (dropped (file x) (s_content snap) D)) as P1.
  { rewrite Hempty. destruct (day_dropped D ps x l ∅ Ht Hok Ex Hl El) as (_ & Ht' & Hk' & Hc').
    - intros k Hk. rewrite lookup_empty in Hk. by destruct Hk.
    - split; [done|]. split; [done|]. split; [done|]. right. by exists ∅. }
  eapply runs_bind.
  { eapply runs_weaken; [by apply runs_drop | intros b D' HD'; exact HD' |]. by intros ? [->| ->]. }
  intros b D' ->. apply runs_ret. by destruct b.
Qed.

Lemma runs_finally {A} D (m : M world A) (f : M world unit) (G : durable → Prop) :
  runs D m (λ _, G) G → (∀ D', G D' → runs D' f (λ _, G) G) → runs D (finally m f) (λ _, G) G.
Proof.
  intros Hm Hf w Hw. specialize (Hm w Hw). unfold finally. destruct (m w) as [r w'].
  assert (G (dur w')) as HG by (by destruct r). specialize (Hf _ HG w' eq_refl). destruct (f w') as [[u|e] w'']; [by destruct r | done].
Qed.

Lemma runs_read_manifest D ps : lists D p d ps →
  reads D (read_manifest p d) (λ m, manifest_parts m = Ok ps ∧ (is_legacy m = true → ps = [])).
Proof.
  intros HL. eapply (reads_bind D _ _ (λ o, o = d_objects D !! manifest_key p d)).
  { apply runs_query; [by intros w <- | done]. }
  { done. }
  intros o ->. destruct HL as [[-> ->]|(v & -> & Hv & Hps & Hl)]; [by apply runs_ret|].
  destruct v; try done; apply runs_ret; (split; [done|]; split; [done|]; by rewrite Hl).
Qed.

(** Every state an export of the day leaves, however it goes. *)
Lemma runs_export_day D : tidy D → runs D (export_day py_repr digest s p d) (λ _, progress D) (progress D).
Proof.
  intros Ht. pose proof (progress_refl D Ht) as P0. destruct (Ht c p s d Hn Hd) as [ps Hok]. unfold export_day.
  eapply reads_bind; [apply runs_read_manifest, Hok | done |]. intros manifest [Hps Hlegacy].
  eapply (reads_bind D _ _ (λ a, a = ps)); [|done|].
  { apply runs_lift; [|done]. intros a Ha. split; [done | congruence]. }
  intros ? ->.
  eapply (reads_bind D _ _ (λ pending, let base := if pending : bool then removelast ps else ps in
    committed_of D ps base ∧ ∀ q, q ∈ base → (s, d, file q) ∈ d_drops D)); [|done|].
  { destruct (last ps) as [x|] eqn:Ex.
    2: { apply last_None in Ex as ->. apply runs_ret. split; [done|]. split; [by left | by intros q ?%elem_of_nil]. }
    destruct (is_legacy manifest) eqn:El; [by rewrite Hlegacy in Ex|].
    apply last_Some in Ex as [base Eps].
    eapply (reads_bind D _ _ (λ b, b = bool_decide ((s, d, file x) ∈ d_drops D))); [|done|].
    { apply runs_query; [by intros w <- | done]. }
    intros b ->. apply runs_ret. split; [done|]. case_bool_decide as Hx; cbn [negb].
    - split; [by left|]. intros q Hq. eapply (base_recorded D ps ps); [done | by left | | done]. right.
      intros y Hy. rewrite Eps, last_snoc in Hy. by injection Hy as <-.
    - rewrite Eps, removelast_last.
      assert (committed_of D ps base) as Hb by (right; by exists x). rewrite Eps in Hb. split; [done|].
      rewrite <- Eps in Hb. intros q Hq. eapply (base_recorded D ps base); [done | done | | done]. left.
      intros E. apply (f_equal length) in E. rewrite Eps, length_app in E. cbn in E. lia. }
  intros pending [Hb Hrec]. set (base := if pending then removelast ps else ps) in *.
  eapply (reads_bind D _ _ (λ _, True)); [|done|].
  { eapply runs_weaken; [apply (reads_each D _ base (λ _ _, True)) | by intros ? ? [-> _] | done].
    intros q Hq. eapply runs_weaken; [apply runs_check_part | by intros ? ? [-> _] | done]. }
  intros _ _. unfold snapshot_day.
  eapply (reads_bind D _ _ (λ _, True)); [by apply runs_lift | done |]. intros [lo hi] _.
  apply runs_finally; [|intros D' HD'; by apply runs_query].
  eapply (reads_bind D _ _ (λ _, True)); [|done|].
  { eapply (reads_bind D _ _ (λ _, True)); [by apply runs_query | done |]. intros. by apply runs_lift. }
  intros t _. set (snap := {| s_schema := s |}).
  assert (good_snap snap) as Hsnap by (by repeat split).
  destruct (Z.eqb_spec (s_rows snap) 0) as [E0|E0]; [by apply runs_confirm_pending | by apply (runs_export_rows D ps)].
Qed.
End day.
End days.
