(* ===== verification/ColdRuns.v ===== *)
(** * Runs of the cold export

    What any sequence of runs keeps, whatever fails and whatever other writers
    do, and what a run does when nothing fails. *)

From stdpp Require Import base gmap strings list fin_maps sorting.
From Stdlib Require Import ZArith Lia Ascii.
From Corelib Require Import SpecFloat.
From S2P Require Import Prelude PyText PyNum PyJson Tenancy ColdNaming ColdExport ColdExportProps.

Local Open Scope string_scope.

(** ** Whatever happens *)

(** The scheduler starts a run for each entry, whatever the last one ended in. *)
Definition jobs (py_repr : json → string) (digest : gmap key row → Z) (l : list (Z * Z)) : M world unit :=
  foldM (λ _ '(horizon_days, today),
    catch (_ ← run_export py_repr digest horizon_days today; mret tt) (λ _, mret tt)) tt l.

Section runs.
Context (py_repr : json → string) (digest : gmap key row → Z).
Context (Hdigest : ∀ m m', size m = size m' → digest m = digest m' → m = m').
Abbreviation tidy := (tidy py_repr).

(** One tenant's days: in order afterwards, and nothing recorded touched. *)
Definition ordered (w w' : world) : Prop := tidy (dur w) → tidy (dur w') ∧ kept (dur w) (dur w').

#[local] Instance ordered_refl : Reflexive ordered.
Proof. by intros w H. Qed.
#[local] Instance ordered_trans : Transitive ordered.
Proof. intros w1 w2 w3 H1 H2 H. destruct (H1 H) as [T1 K1]. destruct (H2 T1) as [T2 K2]. split; [done | by etrans]. Qed.

Lemma next_ordered : respects ordered next.
Proof. intros w H. unfold next, final. by destruct (script w). Qed.

Lemma query_ordered {A} (f : world → A) : respects ordered (query f).
Proof. apply respects_bind; [apply _ | apply next_ordered |]. intros v. respecting fail. Qed.

Lemma export_day_ordered c p s d :
  names c p s → day_in_range d = true → respects ordered (export_day py_repr digest s p d).
Proof.
  intros Hn Hd w Ht. pose proof (runs_export_day py_repr c p s d Hn Hd digest Hdigest (dur w) Ht w eq_refl) as H.
  unfold final. destruct (export_day py_repr digest s p d w) as [[o|e] w']; destruct H as (H1 & H2 & _); done.
Qed.

Lemma foldM_ordered {A B} (f : B → A → M world B) l b :
  (∀ b a, a ∈ l → respects ordered (f b a)) → respects ordered (foldM f b l).
Proof.
  revert b. induction l as [|a l IH]; intros b Hf; [apply respects_ret, _|].
  apply respects_bind; [apply _ | apply Hf; left |]. intros b'. apply IH. intros b0 a0 Ha. apply Hf. by right.
Qed.

Lemma days_in_range s cutoff : yields (λ days, ∀ d, d ∈ days → day_in_range d = true) (exportable_days s cutoff).
Proof.
  apply yields_bind. intros [lo hi]. apply yields_bind. intros t.
  cbv zeta. destruct (forallb day_in_range (days_before lo t)) eqn:E; [|intros w a w' [=]].
  apply yields_ret. by apply forallb_elem.
Qed.

Lemma export_tenant_ordered tenant cutoff : respects ordered (export_tenant py_repr digest tenant cutoff).
Proof.
  unfold export_tenant.
  apply (respects_bind_when _ (λ p, company_id_to_prefix (company_id tenant) = Ok p));
    [apply respects_lift, _ | by apply yields_lift|]. intros p Hp.
  apply (respects_bind_when _ (λ s, company_id_to_schema (company_id tenant) = Ok s));
    [apply respects_lift, _ | by apply yields_lift|]. intros s Hs.
  case_match; [apply respects_raise, _|].
  apply (respects_bind_when _ (λ days, ∀ d, d ∈ days → day_in_range d = true)); [|apply days_in_range|].
  { unfold exportable_days, table. respecting ltac:(apply query_ordered). }
  intros days Hdays. apply foldM_ordered. intros b d Hd.
  apply respects_bind; [apply _ | by apply (export_day_ordered (company_id tenant)); [|apply Hdays] |].
  intros o. apply respects_ret, _.
Qed.

Lemma run_ordered horizon_days today : respects ordered (run_export py_repr digest horizon_days today).
Proof.
  unfold run_export, exclusive_run. apply respects_bind; [apply _ | apply next_ordered |]. intros v.
  assert (respects ordered (_run_export_locked py_repr digest horizon_days today)) as Hrun.
  { unfold _run_export_locked, list_tenants, isolate.
    respecting ltac:(first [apply query_ordered | apply export_tenant_ordered | apply respects_foldM; [apply _.. | intros [? ?] ?]]). }
  respecting ltac:(first [apply query_ordered | exact Hrun]).
Qed.

Lemma jobs_ordered l : respects ordered (jobs py_repr digest l).
Proof.
  apply respects_foldM; [apply _.. |]. intros [] [h t].
  respecting ltac:(apply run_ordered).
Qed.

(** C21: nothing is dropped that is not archived.  In whatever order the runs'
    calls fail, lose their replies, store part of an upload or end the process,
    and whatever other writers do between them: every key of every row that a
    drop of any run removed is held by a part the day's manifest lists, whose
    drop is recorded. *)
Theorem dropped_rows_archived (l : list (Z * Z)) (w : world) (Ht : tidy (dur w)) c p s d m k :
  names c p s → day_in_range d = true →
  (s, d, m) ∈ gone (final (jobs py_repr digest l) w) → is_Some (m !! k) →
  archived_key py_repr (dur (final (jobs py_repr digest l) w)) p s d k.
Proof.
  intros Hn Hd Hm Hk. destruct (jobs_ordered l w Ht) as [Ht' _].
  destruct (Ht' c p s d Hn Hd) as [ps Hok]. by eapply (ok_gone _ _ _ _ _ _ Hok m).
Qed.

(** C22: the archive is never destroyed, and no reading is in it twice.  A part
    whose drop is recorded keeps its object and its place in the list through
    every later run, and the parts a manifest lists hold each key once. *)
Theorem archive_only_grows (l : list (Z * Z)) (w : world) (Ht : tidy (dur w)) c p s d f :
  names c p s → day_in_range d = true →
  let w' := final (jobs py_repr digest l) w in
  ((s, d, f) ∈ drops w →
     (s, d, f) ∈ drops w' ∧
     (∀ k, part_key p d f = Ok k → objects w' !! k = objects w !! k) ∧
     ∃ ps q, lists py_repr (dur w') p d ps ∧ q ∈ ps ∧ file q = f) ∧
  (∀ ps i j q q' rs rs' k, lists py_repr (dur w') p d ps → ps !! i = Some q → ps !! j = Some q' →
     holds (dur w') p d (file q) rs → holds (dur w') p d (file q') rs' →
     k ∈ rs.*1 → k ∈ rs'.*1 → i = j ∧ NoDup rs.*1).
Proof.
  intros Hn Hd w'. destruct (jobs_ordered l w Ht) as [Ht' [Hsub Hkept]].
  destruct (Ht' c p s d Hn Hd) as [ps Hok]. split.
  - intros Hf. pose proof (Hsub _ Hf) as Hf'. split; [exact Hf'|]. split; [by apply (Hkept c p s d f)|].
    destruct (ok_recorded _ _ _ _ _ _ Hok f Hf') as (i & q & Hi & E).
    exists ps, q. split; [apply Hok|]. split; [by eapply list_elem_of_lookup_2 | done].
  - intros ps' i j q q' rs rs' k HL Hi Hj Hr Hr' Hk Hk'.
    assert (ps' = ps) as -> by (by eapply lists_fun; [exact HL | apply Hok]).
    assert (¬ (i < j)%nat ∧ ¬ (j < i)%nat) as [].
    { split; intros Hlt; [eapply (ok_apart _ _ _ _ _ _ Hok i j) | eapply (ok_apart _ _ _ _ _ _ Hok j i)]; eauto. }
    split; [lia|]. eapply (ok_distinct _ _ _ _ _ _ Hok q); [by eapply list_elem_of_lookup_2 | done].
Qed.

(** one day's export drops exactly what it read, and touches that day
    alone.  Whatever its outcome, every row it dropped is in the archive as it
    was, unless a part archived before already held its key (a redelivered
    reading); no object, drop or dropped row of another day or another tenant
    changes. *)
Theorem export_day_exact c p s d (w : world) o w' :
  names c p s → day_in_range d = true → tidy (dur w) →
  export_day py_repr digest s p d w = (o, w') →
  confined p d (dur w) (dur w') ∧
  (gone w' = gone w ∨
   ∃ m, gone w' = (gone w ++ [(s, d, m)])%list ∧
        ∀ k r, m !! k = Some r →
          archived_row py_repr (dur w') p d (k, r) ∨ archived_key py_repr (dur w) p s d k).
Proof.
  intros Hn Hd Ht E. pose proof (runs_export_day py_repr c p s d Hn Hd digest Hdigest (dur w) Ht w eq_refl) as H.
  rewrite E in H. destruct o; destruct H as (_ & _ & H); exact H.
Qed.

(** ** When nothing fails *)

Lemma quiet_query {A} (f : world → A) w : script w = [] → query f w = (Ok (f w), w).
Proof. intros E. unfold query, mbind, M_bind, next. by rewrite E. Qed.

Lemma quiet_act f w : script w = [] → act f w = (Ok tt, f w).
Proof. intros E. unfold act, mbind, M_bind, next. by rewrite E. Qed.

Lemma quiet_read_part p d f l w :
  script w = [] → holds (dur w) p d f l → read_part p d f w = (Ok l, w).
Proof.
  intros E (k & Hk & Ho). cbn in Ho. unfold read_part. rewrite Hk.
  erewrite bind_ok; [|by apply lift_ok]. erewrite bind_ok; [|by apply quiet_query]. by rewrite Ho.
Qed.

Lemma quiet_row_count p d f l w :
  script w = [] → holds (dur w) p d f l → part_row_count p d f w = (Ok (Z.of_nat (length l)), w).
Proof. intros E Hl. unfold part_row_count. erewrite bind_ok; [done|]. by apply quiet_read_part. Qed.

Lemma quiet_check_part p d q l w :
  script w = [] → holds (dur w) p d (file q) l → Z.of_nat (length l) = rows q → _check_part p d q w = (Ok tt, w).
Proof.
  intros E Hl El. unfold _check_part. erewrite bind_ok; [|by apply quiet_row_count]. by rewrite El, Z.eqb_refl.
Qed.

Lemma quiet_each {A B} (f : A → M world B) l w (P : A → B → Prop) :
  (∀ x, x ∈ l → ∃ y, f x w = (Ok y, w) ∧ P x y) → ∃ ys, each f l w = (Ok ys, w) ∧ Forall2 P l ys.
Proof.
  induction l as [|x l IH]; intros Hf; [by exists []|].
  destruct (Hf x) as (y & Ey & Hy); [left|]. destruct IH as (ys & Es & Hys); [intros; apply Hf; by right|].
  exists (y :: ys). split; [|by constructor]. cbn. erewrite bind_ok; [|exact Ey]. by erewrite bind_ok; [|exact Es].
Qed.

Lemma quiet_write_and_verify p d f k src w :
  script w = [] → part_key p d f = Ok k → fault src = None → batches_ src ≠ [] →
  let w' := set_objects (<[k := Parquet (concat (batches_ src))]> (objects w)) w in
  _write_and_verify p d f src (Z.of_nat (length (concat (batches_ src)))) w = (Ok tt, w').
Proof.
  intros E Hk Hf Hb w'. unfold _write_and_verify.
  assert (write_part p d f src w = (Ok (Z.of_nat (length (concat (batches_ src)))), w')) as Hw.
  { unfold write_part. rewrite Hk. erewrite bind_ok; [|by apply lift_ok]. rewrite Hf.
    destruct (batches_ src) as [|b bs]; [done|]. unfold mbind, M_bind, next. by rewrite E. }
  erewrite bind_ok; [|exact Hw]. rewrite Z.eqb_refl. cbn [negb].
  erewrite bind_ok; [|apply (quiet_row_count p d f (concat (batches_ src))); [done|]].
  - by rewrite Z.eqb_refl.
  - exists k. split; [done|]. cbn. rewrite lookup_insert. by rewrite decide_True.
Qed.

Lemma part_names_ok i f : (0 ≤ i < 10000)%Z → part_file i = Ok f → part_name_ok f = true.
Proof.
  intros Hi Hf.
  assert (forallb (λ n, match part_file (Z.of_nat n) with Ok f => part_name_ok f | Err _ => false end)
            (seq 0 (Z.to_nat 10000)) = true) as Hall by (vm_compute; reflexivity).
  rewrite forallb_forall in Hall. specialize (Hall (Z.to_nat i)). rewrite Z2Nat.id, Hf in Hall by lia.
  apply Hall, in_seq. lia.
Qed.

Definition after_drop (s : string) (d lo hi : Z) (t : gmap key row) (f : string) (w : world) : world :=
  {| hot := <[s := rows_out lo hi t]> (hot w); drops := {[(s, d, f)]} ∪ drops w; objects := objects w;
     registry := registry w; script := script w; gone := (gone w ++ [(s, d, rows_in lo hi t)])%list |}.

Lemma quiet_drop s d lo hi t snap f w :
  script w = [] → _day_bounds d = Ok (lo, hi) → hot w !! s = Some t → part_name_ok f = true →
  snap = {| s_schema := s; s_day := d; s_rows := Z.of_nat (size (rows_in lo hi t));
            s_fingerprint := digest (rows_in lo hi t); s_content := rows_in lo hi t |} →
  drop digest snap f w = (Ok true, after_drop s d lo hi t f w).
Proof.
  intros E Hb Ht Hf ->. unfold drop. cbn [s_day]. rewrite Hb. erewrite bind_ok; [|by apply lift_ok].
  unfold mbind, M_bind, next. rewrite E, Hf. cbn [negb].
  unfold drop_day. cbn [s_schema s_rows s_fingerprint s_day]. rewrite Ht. cbn [default].
  by rewrite !Z.eqb_refl.
Qed.

(** The day of a quiet state, in order and with room for another part. *)
Section quiet_day.
Context (c p s : string) (d lo hi : Z) (t : gmap key row) (w : world) (ps base : list part).
Context (Hn : names c p s) (Hd : day_in_range d = true) (Hbounds : _day_bounds d = Ok (lo, hi)).
Context (Hquiet : script w = []) (Hot : hot w !! s = Some t) (Hrows : rows_in lo hi t ≠ ∅).
Context (Hok : day_ok py_repr (dur w) p s d ps) (Hb : committed_of s d (dur w) ps base).
Context (Hrec : ∀ q, q ∈ base → (s, d, file q) ∈ drops w) (Hroom : (Z.of_nat (length base) < 10000)%Z).

Let content := rows_in lo hi t.
Let snap := {| s_schema := s; s_day := d; s_rows := Z.of_nat (size content);
               s_fingerprint := digest content; s_content := content |}.

(** The day's rows are gone from the hot table, in a drop. *)
Definition day_done (o : string) (w' : world) : Prop :=
  script w' = [] ∧ hot w' = <[s := rows_out lo hi t]> (hot w) ∧ registry w' = registry w ∧
  gone w' = (gone w ++ [(s, d, content)])%list ∧ o ≠ "drop_deferred".

Lemma quiet_finish w1 f ps' (o : bool → string) :
  script w1 = [] → hot w1 = hot w → registry w1 = registry w → gone w1 = gone w →
  part_name_ok f = true → o true ≠ "drop_deferred" →
  ∃ w', (_ ← write_manifest p d (_manifest s d ps'); b ← drop digest snap f; mret (o b)) w1 = (Ok (o true), w') ∧
        day_done (o true) w'.
Proof.
  intros E1 Eh Er Eg Hf Ho. unfold write_manifest. erewrite bind_ok; [|by apply quiet_act].
  erewrite bind_ok; [|apply (quiet_drop s d lo hi t); cbn; rewrite ?Eh; done].
  eexists. split; [done|]. unfold day_done, after_drop. cbn. by rewrite Eh, Eg.
Qed.

Lemma content_sorted : length (sorted_rows content) = size content ∧ sorted_rows content ≠ [].
Proof.
  assert (length (sorted_rows content) = size content) as E.
  { unfold sorted_rows. rewrite merge_sort_Permutation. by rewrite length_map_to_list. }
  split; [done|]. intros En. apply Hrows. change (content = ∅). apply map_size_empty_inv. by rewrite <- E, En.
Qed.

Lemma quiet_batches : ∃ src, batches snap w = (Ok src, w) ∧ fault src = None ∧ batches_ src ≠ [] ∧
  concat (batches_ src) = sorted_rows content.
Proof.
  eexists. unfold batches, mbind, M_bind, next. rewrite Hquiet. split; [done|]. cbn [fault batches_].
  fold (sorted_rows content).
  assert (concat (chunks _READ_BATCH (length (sorted_rows content)) (sorted_rows content)) = sorted_rows content) as E
    by (apply concat_chunks; [unfold _READ_BATCH; lia | done]).
  split; [done|]. split; [|exact E]. intros En. change (s_content snap) with content in En.
  fold (sorted_rows content) in En. rewrite En in E. by destruct content_sorted.
Qed.

Lemma quiet_without_archived src : fault src = None → batches_ src ≠ [] → concat (batches_ src) = sorted_rows content →
  ∃ fresh, _without_archived src (Z.of_nat (size content)) p d base w = (Ok fresh, w).
Proof.
  intros Hf Hne Ec. destruct content_sorted as [El Hnil]. unfold _without_archived.
  destruct (Z.eqb_spec (Z.of_nat (size content)) 0) as [E|_].
  { exfalso. apply Hnil. apply length_zero_iff_nil. lia. }
  erewrite (bind_ok _ _ _ (Some (sorted_rows content)) w).
  2: { erewrite bind_ok; [done|]. unfold table_of. rewrite Hf. destruct (batches_ src); [done|]. by rewrite Ec. }
  rewrite El, Z.eqb_refl. cbn [negb].
  destruct (quiet_each (λ q, read_part_keys p d (file q)) base w (λ _ _, True)) as (ks & Ek & _).
  { intros q Hq. destruct (ok_committed _ _ _ _ _ _ Hok q) as (l & Hl & _); [by eapply base_elem | by apply Hrec |].
    exists l.*1. split; [|done]. unfold read_part_keys. erewrite bind_ok; [done|]. by apply quiet_read_part. }
  erewrite bind_ok; [|exact Ek]. eauto.
Qed.

Lemma quiet_export_rows pending :
  ∃ o w', export_rows digest s p d base pending snap w = (Ok o, w') ∧ day_done o w'.
Proof.
  destruct content_sorted as [El Hnil].
  destruct (part_file_ok (Z.of_nat (length base))) as (f & Hf & Hslash & Hsuf); [lia|].
  assert (part_name_ok f = true) as Hname by (eapply part_names_ok; [|exact Hf]; lia).
  pose proof (part_key_ok p d f Hslash Hsuf) as Hk.
  destruct quiet_batches as (src & Esrc & Hfault & Hbs & Ec).
  unfold export_rows. rewrite Hf. erewrite bind_ok; [|by apply lift_ok]. erewrite bind_ok; [|exact Esrc].
  assert (∃ src' n, (if bool_decide (base = []) then mret (src, s_rows snap)
     else fresh ← _without_archived src (s_rows snap) p d base;
          mret ({| batches_ := match fresh with [] => [] | _ => [fresh] end; fault := None |},
                Z.of_nat (length fresh))) w = (Ok (src', n), w) ∧
     fault src' = None ∧ n = Z.of_nat (length (concat (batches_ src'))) ∧ (n ≠ 0%Z → batches_ src' ≠ []) ∧
     (n = 0%Z → base ≠ [])) as (src' & n & Esel & Hfault' & En & Hbs' & Hbase).
  { case_bool_decide as Hbase.
    - exists src, (s_rows snap). cbn. rewrite Ec, El. repeat split; try done. intros E. exfalso. apply Hnil.
      apply length_zero_iff_nil. lia.
    - destruct (quiet_without_archived src Hfault Hbs Ec) as (fresh & Efresh).
      eexists _, _. erewrite bind_ok; [|exact Efresh]. split; [done|]. cbn [batches_ fault].
      destruct fresh as [|x fresh]; [done|]. cbn. rewrite app_nil_r. repeat split; done. }
  erewrite bind_ok; [|exact Esel]. cbv beta iota. destruct (Z.eqb_spec n 0) as [E0|E0]; cbn [negb].
  - destruct (last base) as [x|] eqn:Ex; [|by apply last_None, Hbase in Ex].
    erewrite (bind_ok (mret _)); [|done]. cbv beta iota.
    assert (part_name_ok (file x) = true) as Hx.
    { rewrite last_lookup in Ex. eapply part_names_ok; [|eapply (ok_named _ _ _ _ _ _ Hok), base_lookup; eauto].
      pose proof (lookup_lt_Some _ _ _ Ex). lia. }
    eexists. apply (quiet_finish w (file x) base (λ b, if negb b then "drop_deferred" else "resumed_drop")); done.
  - set (w1 := set_objects (<[day_partition p d +:+ "/" +:+ f := Parquet (concat (batches_ src'))]> (objects w)) w).
    erewrite (bind_ok _ _ _ _ w1).
    2: { erewrite bind_ok; [done|]. rewrite En. apply quiet_write_and_verify; auto. }
    cbv beta iota. eexists.
    apply (quiet_finish w1 f (base ++ [{| file := f; rows := n |}])
      (λ b, if negb b then "drop_deferred" else if pending then "reexported"
            else if bool_decide (base = []) then "exported" else "late_rows_exported")); try done.
    cbn. by destruct pending; [|case_bool_decide].
Qed.
End quiet_day.

Lemma quiet_read_manifest p d ps w :
  script w = [] → lists py_repr (dur w) p d ps →
  ∃ m, read_manifest p d w = (Ok m, w) ∧ manifest_parts py_repr m = Ok ps ∧ (is_legacy m = true → ps = []).
Proof.
  intros E HL. unfold read_manifest. erewrite bind_ok; [|by apply quiet_query].
  destruct HL as [[Ho ->]|(v & Ho & Hv & Hps & Hl)]; cbn in Ho; rewrite Ho; [by exists None|].
  destruct v; try done; (eexists; split; [done|]; split; [done|]; by rewrite Hl).
Qed.

Lemma quiet_export_day c p s d lo hi t w ps :
  names c p s → day_in_range d = true → _day_bounds d = Ok (lo, hi) → script w = [] → hot w !! s = Some t →
  rows_in lo hi t ≠ ∅ → day_ok py_repr (dur w) p s d ps → (Z.of_nat (length ps) < 10000)%Z →
  ∃ o w', export_day py_repr digest s p d w = (Ok o, w') ∧ day_done s d lo hi t w o w'.
Proof.
  intros Hn Hd Hbounds E Ht Hrows Hok Hroom. unfold export_day.
  destruct (quiet_read_manifest p d ps w E (ok_listed _ _ _ _ _ _ Hok)) as (m & Em & Hps & Hleg).
  erewrite bind_ok; [|exact Em]. rewrite Hps. erewrite bind_ok; [|by apply lift_ok].
  assert (∃ pending : bool, (match last ps with
     | Some q => if is_legacy m then mret false else recorded ← drop_recorded s d (file q); mret (negb recorded)
     | None => mret false end) w = (Ok pending, w) ∧
     let base := if pending then removelast ps else ps in
     committed_of s d (dur w) ps base ∧ (∀ q, q ∈ base → (s, d, file q) ∈ drops w) ∧ (length base ≤ length ps)%nat)
    as (pending & Epend & Hb & Hrec & Hlen).
  { destruct (last ps) as [x|] eqn:Ex.
    2: { exists false. apply last_None in Ex as ->. split; [done|]. split; [by left|]. split; [by intros q ?%elem_of_nil | done]. }
    destruct (is_legacy m) eqn:El; [by rewrite Hleg in Ex|]. apply last_Some in Ex as [base Eps].
    exists (negb (bool_decide ((s, d, file x) ∈ drops w))). split.
    { unfold drop_recorded. by erewrite bind_ok; [|by apply quiet_query]. }
    case_bool_decide as Hx; cbn [negb].
    - split; [by left|]. split; [|done]. intros q Hq.
      eapply (base_recorded py_repr p s d (dur w) ps ps); [done | by left | | done]. right.
      intros y Hy. rewrite Eps, last_snoc in Hy. by injection Hy as <-.
    - rewrite Eps, removelast_last.
      assert (committed_of s d (dur w) (base ++ [x])%list base) as Hb by (right; by exists x).
      split; [done|]. split; [|rewrite length_app; lia].
      rewrite <- Eps in Hb. intros q Hq. eapply (base_recorded py_repr p s d (dur w) ps base); [done | done | | done]. left.
      intros En. apply (f_equal length) in En. rewrite Eps, length_app in En. cbn in En. lia. }
  erewrite bind_ok; [|exact Epend]. cbv zeta in Hb, Hrec, Hlen |- *.
  set (base := if pending then removelast ps else ps) in *.
  destruct (quiet_each (_check_part p d) base w (λ _ _, True)) as (us & Eus & _).
  { intros q Hq. destruct (ok_committed _ _ _ _ _ _ Hok q) as (l & Hl & El); [by eapply base_elem | by apply Hrec |].
    exists tt. split; [|done]. by eapply quiet_check_part. }
  erewrite bind_ok; [|exact Eus]. unfold snapshot_day. rewrite Hbounds. erewrite bind_ok; [|by apply lift_ok].
  destruct (quiet_export_rows p s d lo hi t w ps base Hbounds E Ht Hrows Hok Hb Hrec ltac:(lia) pending)
    as (o & w' & Er & Hdone).
  exists o, w'. split; [|done]. unfold finally, table.
  erewrite bind_ok; [|erewrite bind_ok; [|by apply quiet_query]; rewrite Ht; by apply lift_ok].
  cbv zeta. cbn [s_rows]. destruct (Z.eqb_spec (Z.of_nat (size (rows_in lo hi t))) 0) as [E0|E0].
  { exfalso. apply Hrows, map_size_empty_inv. lia. }
  rewrite Er. rewrite quiet_query; [done | apply Hdone].
Qed.

(** *** Every day before the cutoff *)

Definition day_of (k : key) : Z := (k.1 / day_us)%Z.

Lemma in_window_day d k r : in_window (d * day_us) ((d + 1) * day_us) (k, r) = true ↔ day_of k = d.
Proof.
  unfold in_window, day_of, day_us. cbn [fst]. rewrite andb_true_iff, Z.leb_le, Z.ltb_lt.
  split; [|intros <-]; Z.to_euclidean_division_equations; lia.
Qed.

(** The rows of none of these days. *)
Definition rows_not_of (l : list Z) (t : gmap key row) : gmap key row := filter (λ kv, day_of kv.1 ∉ l) t.

Lemma rows_not_of_lookup l t k r : rows_not_of l t !! k = Some r ↔ t !! k = Some r ∧ day_of k ∉ l.
Proof. unfold rows_not_of. by rewrite map_lookup_filter_Some. Qed.

Lemma rows_out_day d t : rows_out (d * day_us) ((d + 1) * day_us) t = rows_not_of [d] t.
Proof.
  apply map_eq. intros k. apply option_eq. intros r. unfold rows_out. rewrite rows_not_of_lookup, map_lookup_filter_Some.
  rewrite <- not_true_iff_false, in_window_day. split; intros [H1 H2]; (split; [done|]); set_solver.
Qed.

Lemma rows_in_day d t k r : rows_in (d * day_us) ((d + 1) * day_us) t !! k = Some r ↔ t !! k = Some r ∧ day_of k = d.
Proof. unfold rows_in. by rewrite map_lookup_filter_Some, in_window_day. Qed.

Lemma rows_not_of_app l l' t : rows_not_of l' (rows_not_of l t) = rows_not_of (l ++ l') t.
Proof.
  apply map_eq. intros k. apply option_eq. intros r. rewrite !rows_not_of_lookup, not_elem_of_app. naive_solver.
Qed.

Lemma bounds_ok d : (d + 1 < max_day)%Z → _day_bounds d = Ok (d * day_us, (d + 1) * day_us)%Z.
Proof. intros H. unfold _day_bounds. by rewrite (proj2 (Z.ltb_lt _ _)). Qed.

Lemma days_before_elem cutoff t d :
  d ∈ days_before cutoff t ↔ ∃ k r, t !! k = Some r ∧ (k.1 < cutoff)%Z ∧ day_of k = d.
Proof.
  unfold days_before. rewrite (merge_sort_Permutation Z.le), elem_of_elements, elem_of_list_to_set, list_elem_of_fmap.
  split.
  - intros ([k r] & -> & [H1 H2]%list_elem_of_filter). apply elem_of_map_to_list in H2. by exists k, r.
  - intros (k & r & H1 & H2 & H3). exists (k, r). split; [done|]. apply list_elem_of_filter.
    split; [done|]. by apply elem_of_map_to_list.
Qed.

Lemma days_before_nodup cutoff t : NoDup (days_before cutoff t).
Proof. unfold days_before. rewrite (merge_sort_Permutation Z.le). apply NoDup_elements. Qed.

(** No day of the tenant has used up its part names. *)
Definition roomy (D : durable) (p : string) : Prop :=
  ∀ d ps, day_in_range d = true → lists py_repr D p d ps → (Z.of_nat (length ps) < 10000)%Z.

Definition drops_of (s : string) (t : gmap key row) (l : list Z) :=
  map (λ d, (s, d, rows_in (d * day_us) ((d + 1) * day_us) t)) l.

Lemma quiet_days c p s l : names c p s → NoDup l → ∀ t w acc,
  script w = [] → tidy (dur w) → hot w !! s = Some t →
  (∀ d, d ∈ l → day_in_range d = true ∧ (d + 1 < max_day)%Z ∧ (∃ k r, t !! k = Some r ∧ day_of k = d) ∧
     ∀ ps, lists py_repr (dur w) p d ps → (Z.of_nat (length ps) < 10000)%Z) →
  ∃ tl w', foldM (λ a day, outcome ← export_day py_repr digest s p day; mret (tally_add outcome 1 a)) acc l w = (Ok tl, w') ∧
    script w' = [] ∧ tidy (dur w') ∧ hot w' !! s = Some (rows_not_of l t) ∧ gone w' = (gone w ++ drops_of s t l)%list.
Proof.
  intros Hn Hnd. induction Hnd as [|d l Hd Hnd IH]; intros t w acc E Ht Hot Hl.
  { exists acc, w. split; [done|]. split; [done|]. split; [done|]. rewrite app_nil_r. split; [|done].
    rewrite Hot. f_equal. apply map_eq. intros k. apply option_eq. intros r. rewrite rows_not_of_lookup. set_solver. }
  destruct (Hl d) as (Hr & Hmax & (k & r & Hk & Hkd) & Hroom); [left|].
  destruct (Ht c p s d Hn Hr) as [ps Hok].
  destruct (quiet_export_day c p s d _ _ t w ps Hn Hr (bounds_ok d Hmax) E Hot) as (o & w1 & E1 & S1 & H1 & R1 & G1 & _).
  { intros E0. assert (rows_in (d * day_us) ((d + 1) * day_us) t !! k = Some r) as H by (by apply rows_in_day).
    by rewrite E0, lookup_empty in H. }
  { done. }
  { apply Hroom, Hok. }
  pose proof (runs_export_day py_repr c p s d Hn Hr digest Hdigest (dur w) Ht w eq_refl) as Hp. rewrite E1 in Hp.
  destruct Hp as (Ht1 & _ & Hc1 & _).
  destruct (IH (rows_not_of [d] t) w1 (tally_add o 1 acc)) as (tl & w' & E2 & S2 & T2 & H2 & G2); try done.
  { rewrite H1, rows_out_day. rewrite lookup_insert. by rewrite decide_True. }
  { intros d' Hd'. destruct (Hl d') as (Hr' & Hmax' & (k' & r' & Hk' & Hkd') & Hroom'); [by right|].
    assert (d' ≠ d) as Hne by (by intros ->).
    split; [done|]. split; [done|]. split.
    - exists k', r'. split; [|done]. apply rows_not_of_lookup. split; [done|]. set_solver.
    - intros ps' HL. apply Hroom'. apply (agree_lists py_repr (dur w) (dur w1) p s d'); [|done].
      apply (Hc1 c p s d'); try done. intros [= ->]. done. }
  exists tl, w'. split.
  { cbn [foldM]. erewrite bind_ok; [exact E2|]. by erewrite bind_ok; [|exact E1]. }
  split; [done|]. split; [done|]. split; [by rewrite H2, rows_not_of_app|].
  rewrite G2, G1, <- app_assoc. f_equal. cbn [drops_of map app]. f_equal. apply map_ext_in.
  intros d' Hd'%list_elem_of_In. f_equal. apply map_eq. intros k'. apply option_eq. intros r'.
  rewrite !rows_in_day, rows_not_of_lookup. split; [naive_solver|]. intros [Hk' <-]. split; [split; [done|]|done].
  apply not_elem_of_cons. split; [|apply not_elem_of_nil]. intros Eq. apply Hd. by rewrite <- Eq.
Qed.

(** a run in which nothing fails does its work.  Every measurement older
    than the cutoff leaves the hot table and is in the archive, the others stay,
    and a run started again finds nothing to do. *)
Theorem quiet_tenant_exported c p s cutoff t (w : world) :
  names c p s → script w = [] → tidy (dur w) → hot w !! s = Some t → roomy (dur w) p →
  (∀ k r, t !! k = Some r → (0 ≤ k.1)%Z) → (cutoff + 1 < max_day)%Z →
  let tenant := {| company_id := c; schema_name_ := s |} in
  ∃ tl w', export_tenant py_repr digest tenant cutoff w = (Ok tl, w') ∧
    hot w' !! s = Some (filter (λ kv : key * row, (cutoff * day_us ≤ kv.1.1)%Z) t) ∧
    (∀ k r, t !! k = Some r → (k.1 < cutoff * day_us)%Z → archived_key py_repr (dur w') p s (day_of k) k) ∧
    export_tenant py_repr digest tenant cutoff w' = (Ok [], w').
Proof.
  intros Hn E Ht Hot Hroom Htimes Hcut tenant. subst tenant. pose proof Hn as [Hp Hs].
  assert (∀ (w0 : world) t0, script w0 = [] → hot w0 !! s = Some t0 →
            (∀ k r, t0 !! k = Some r → (0 ≤ k.1)%Z) →
            export_tenant py_repr digest {| company_id := c; schema_name_ := s |} cutoff w0 =
            foldM (λ a day, outcome ← export_day py_repr digest s p day; mret (tally_add outcome 1 a)) []
              (days_before (cutoff * day_us) t0) w0) as Hstart.
  { intros w0 t0 E0 Hot0 Ht0. unfold export_tenant. cbn [company_id schema_name_].
    rewrite Hp. erewrite bind_ok; [|by apply lift_ok]. rewrite Hs. erewrite bind_ok; [|by apply lift_ok].
    rewrite bool_decide_true by done. cbn [negb]. erewrite bind_ok; [done|].
    unfold exportable_days. rewrite (bounds_ok cutoff Hcut). erewrite bind_ok; [|by apply lift_ok].
    cbv beta iota. unfold table.
    erewrite bind_ok; [|erewrite bind_ok; [|by apply quiet_query]; rewrite Hot0; by apply lift_ok].
    cbv zeta. replace (forallb day_in_range _) with true; [done|]. symmetry. apply forallb_elem.
    intros d (k & r & Hk & Hlt & <-)%days_before_elem. specialize (Ht0 k r Hk).
    unfold day_in_range, day_of, day_us in *. apply andb_true_iff. rewrite Z.leb_le, Z.ltb_lt.
    Z.to_euclidean_division_equations. lia. }
  rewrite (Hstart w t E Hot Htimes).
  assert (∀ d, d ∈ days_before (cutoff * day_us) t → (0 ≤ d < cutoff)%Z) as Hdays.
  { intros d (k & r & Hk & Hlt & <-)%days_before_elem. specialize (Htimes k r Hk). unfold day_of, day_us in *.
    Z.to_euclidean_division_equations. lia. }
  assert (∀ d, d ∈ days_before (cutoff * day_us) t → day_in_range d = true) as Hrange.
  { intros d Hd. specialize (Hdays d Hd). unfold day_in_range. rewrite andb_true_iff, Z.leb_le, Z.ltb_lt. lia. }
  destruct (quiet_days c p s _ Hn (days_before_nodup (cutoff * day_us) t) t w [] E Ht Hot) as (tl & w' & -> & E' & Ht' & Hot' & Hg).
  { intros d Hd. split; [by apply Hrange|]. specialize (Hdays d Hd). split; [lia|].
    split; [|intros ps; apply Hroom; by apply Hrange].
    apply days_before_elem in Hd as (k & r & Hk & _ & Hkd). by exists k, r. }
  exists tl, w'. split; [done|].
  assert (rows_not_of (days_before (cutoff * day_us) t) t = filter (λ kv : key * row, (cutoff * day_us ≤ kv.1.1)%Z) t) as Erest.
  { apply map_eq. intros k. apply option_eq. intros r. rewrite rows_not_of_lookup, map_lookup_filter_Some. cbn.
    split; intros [Hk H]; (split; [done|]).
    - destruct (Z.le_gt_cases (cutoff * day_us) k.1) as [?|Hlt]; [done|]. exfalso. apply H.
      apply days_before_elem. exists k, r. split; [done|]. split; [lia | done].
    - intros Hin. specialize (Hdays _ Hin). unfold day_of, day_us in *. Z.to_euclidean_division_equations. lia. }
  rewrite Erest in Hot'. split; [done|]. split.
  - intros k r Hk Hlt.
    assert (day_of k ∈ days_before (cutoff * day_us) t) as Hd by (apply days_before_elem; eauto).
    destruct (Ht' c p s (day_of k) Hn (Hrange _ Hd)) as [ps Hok].
    eapply (ok_gone _ _ _ _ _ _ Hok (rows_in (day_of k * day_us) ((day_of k + 1) * day_us) t)).
    + cbn. rewrite Hg. apply elem_of_app. right. apply list_elem_of_fmap. by exists (day_of k).
    + exists r. by apply rows_in_day.
  - rewrite (Hstart w' _ E' Hot').
    2: { intros k r [Hk _]%map_lookup_filter_Some. by eapply Htimes. }
    replace (days_before _ _) with (@nil Z); [done|]. symmetry.
    destruct (days_before (cutoff * day_us) (filter (λ kv : key * row, (cutoff * day_us ≤ kv.1.1)%Z) t)) as [|d l] eqn:El; [done|].
    assert (d ∈ d :: l) as Hin by left. rewrite <- El in Hin.
    apply days_before_elem in Hin as (k & r & [_ Hge]%map_lookup_filter_Some & Hlt & _). cbn in Hge. lia.
Qed.
End runs.

(** ** Concrete runs *)

#[export] Instance float_countable : Countable float.
Proof.
  refine (inj_countable'
    (λ f, match f with
          | S754_zero b => (0%nat, b, xH, 0%Z) | S754_infinity b => (1%nat, b, xH, 0%Z)
          | S754_nan => (2%nat, true, xH, 0%Z) | S754_finite b m e => (3%nat, b, m, e) end)
    (λ '(n, b, m, e), match n with 0%nat => S754_zero b | 1%nat => S754_infinity b | 2%nat => S754_nan
                                | _ => S754_finite b m e end) _).
  by intros [].
Defined.
#[export] Instance row_countable : Countable row.
Proof.
  refine (inj_countable'
    (λ r, (equipment_id r, site_id r, value r, unit_ r, quality_code r, is_anomaly r))
    (λ '(e, i, v, u, q, a), {| equipment_id := e; site_id := i; value := v; unit_ := u; quality_code := q; is_anomaly := a |}) _).
  by intros [].
Defined.

(** A digest no two days share, as the database's is taken to be. *)
Definition w_digest (m : gmap key row) : Z := Zpos (encode m).
Lemma w_digest_inj m m' : size m = size m' → w_digest m = w_digest m' → m = m'.
Proof. intros _ [= E]. by apply encode_inj in E. Qed.

Lemma fresh_tidy py_repr D : d_objects D = ∅ → d_drops D = ∅ → d_gone D = [] → tidy py_repr D.
Proof.
  intros Eo Ed Eg c p s d _ _. exists [].
  split; rewrite ?Ed, ?Eg; try set_solver. left. by rewrite Eo.
Qed.

Definition w_company : string := "11111111-1111-1111-1111-111111111111".
Definition w_prefix : string := "tenant_11111111-1111-1111-1111-111111111111".
Definition w_schema : string := "tenant_11111111_1111_1111_1111_111111111111".
Definition w_day : Z := 738885%Z.
Definition w_row (i v : Z) : measurement :=
  ((w_day * day_us + i, "s")%Z, {| equipment_id := "e"; site_id := "x"; value := S754_zero false; unit_ := None;
                                  quality_code := Some v; is_anomaly := None |}).
Definition w_table (l : list (Z * Z)) : gmap key row := list_to_map (map (λ iv, w_row iv.1 iv.2) l).
Definition w_world (l : list (Z * Z)) (sc : list turn) : world :=
  {| hot := {[w_schema := w_table l]}; drops := ∅; objects := ∅; registry := [(w_company, w_schema)];
     script := sc; gone := [] |}.
Definition w_plain : turn := {| others := []; goes := Plain Runs |}.
Definition w_insert (i v : Z) : turn :=
  {| others := [(w_schema, (w_row i v).1, Some (w_row i v).2)]; goes := Plain Runs |}.
Definition w_dies : turn := {| others := []; goes := Plain (Lost SystemExit) |}.

Lemma w_names : names w_company w_prefix w_schema.
Proof. by split. Qed.

(** A reading arrives while the first run exports; the second run is killed as
    its drop commits; a late reading follows, and the third run ends it. *)
Definition w_raced : world :=
  w_world [(1, 1); (2, 2)]%Z
    (repeat w_plain 5 ++ [w_insert 3 3] ++ repeat w_plain 16 ++ [w_dies; w_plain; w_insert 4 4])%Z%list.

Definition w_jobs (n : nat) : list (Z * Z) := repeat (1%Z, (w_day + 5)%Z) n.

(** A manifest of the single-file format, upgraded by a run whose drop did not
    commit, is taken by the next run for a part that was never dropped: the run
    writes what the source holds now over the archived file, and the archived
    reading is lost. *)
Definition w_legacy : world :=
  {| hot := {[w_schema := w_table [(1, 1)]%Z]}; drops := ∅;
     objects := {[ (w_prefix +:+ "/year=2024/month=01/day=01/measurements.parquet") := Parquet [w_row 1 1; w_row 2 2];
                   (w_prefix +:+ "/year=2024/month=01/day=01/_manifest.json") := JsonText (JDict [("rows", JInt 2)]) ]};
     registry := [(w_company, w_schema)];
     script := (repeat w_plain 9 ++ [w_insert 3 3])%list; gone := [] |}.


Definition no_repr (v : json) : string := "".
Definition w_after (n : nat) (w : world) : world := final (jobs no_repr w_digest (w_jobs n)) w.

(** What the archive and the hot table of the day hold, by the rows' numbers. *)
Definition numbers (o : option object) : option (list Z) :=
  match o with Some (Parquet l) => Some (map (λ kv, kv.1.1 - w_day * day_us)%Z l) | _ => None end.
Definition parts_shown (w : world) : option (list Z) * option (list Z) * nat :=
  (numbers (objects w !! (w_prefix +:+ "/year=2024/month=01/day=01/measurements.parquet")),
   numbers (objects w !! (w_prefix +:+ "/year=2024/month=01/day=01/measurements-0001.parquet")),
   size (default ∅ (hot w !! w_schema))).

Example raced_runs : map (λ n, parts_shown (w_after n w_raced)) [1; 2; 3]%nat =
  [(Some [1; 2], None, 3%nat); (Some [1; 2; 3], None, 0%nat); (Some [1; 2; 3], Some [4], 0%nat)]%Z.
Proof. vm_compute. reflexivity. Qed.

Example legacy_archive_overwritten : map (λ n, parts_shown (w_after n w_legacy)) [0; 1; 2]%nat =
  [(Some [1; 2], None, 1%nat); (Some [1; 2], None, 2%nat); (Some [1; 3], None, 0%nat)]%Z.
Proof. vm_compute. reflexivity. Qed.

Lemma dropped_rows_archived_witness :
  (w_schema, w_day, w_table [(1, 1); (2, 2); (3, 3)]%Z) ∈ gone (w_after 3 w_raced) ∧
  archived_key no_repr (dur (w_after 3 w_raced)) w_prefix w_schema w_day (w_row 3 3).1.
Proof.
  assert ((w_schema, w_day, w_table [(1, 1); (2, 2); (3, 3)]%Z) ∈ gone (w_after 3 w_raced)) as Hm
    by (apply (bool_decide_eq_true_1 _); vm_compute; reflexivity).
  split; [exact Hm|].
  apply (dropped_rows_archived no_repr w_digest w_digest_inj (w_jobs 3) w_raced) with (c := w_company)
    (m := w_table [(1, 1); (2, 2); (3, 3)]%Z).
  - by apply fresh_tidy.
  - exact w_names.
  - reflexivity.
  - exact Hm.
  - apply (bool_decide_eq_true_1 _). vm_compute. reflexivity.
Defined.

Lemma archive_only_grows_witness :
  let w1 := w_after 2 w_raced in
  (w_schema, w_day, FIRST_PART) ∈ drops w1 ∧
  objects (w_after 1 w1) !! (day_partition w_prefix w_day +:+ "/" +:+ FIRST_PART) =
  objects w1 !! (day_partition w_prefix w_day +:+ "/" +:+ FIRST_PART).
Proof.
  intros w1.
  assert ((w_schema, w_day, FIRST_PART) ∈ drops w1) as Hf by (apply (bool_decide_eq_true_1 _); vm_compute; reflexivity).
  split; [exact Hf|].
  assert (tidy no_repr (dur w1)) as Ht.
  { apply (jobs_ordered no_repr w_digest w_digest_inj (w_jobs 2) w_raced). by apply fresh_tidy. }
  destruct (archive_only_grows no_repr w_digest w_digest_inj (w_jobs 1) w1 Ht w_company w_prefix w_schema w_day FIRST_PART
    w_names eq_refl) as [H _].
  destruct (H Hf) as (_ & Hk & _). by apply Hk.
Defined.

Lemma export_day_exact_witness :
  let w := w_world [(1, 1)]%Z [] in
  let r := export_day no_repr w_digest w_schema w_prefix w_day w in
  length (gone r.2) = 1%nat ∧
  ∃ m, gone r.2 = (gone w ++ [(w_schema, w_day, m)])%list ∧
    ∀ k v, m !! k = Some v →
      archived_row no_repr (dur r.2) w_prefix w_day (k, v) ∨ archived_key no_repr (dur w) w_prefix w_schema w_day k.
Proof.
  intros w r. assert (length (gone r.2) = 1%nat) as Hne by (vm_compute; reflexivity).
  split; [exact Hne|].
  destruct (export_day_exact no_repr w_digest w_digest_inj w_company w_prefix w_schema w_day w r.1 r.2 w_names eq_refl) as [_ [E|H]].
  - by apply fresh_tidy.
  - apply surjective_pairing.
  - rewrite E in Hne. discriminate Hne.
  - exact H.
Defined.

Lemma quiet_tenant_exported_witness :
  let w := w_world [(1, 1); (2, 2)]%Z [] in
  let tenant := {| company_id := w_company; schema_name_ := w_schema |} in
  ∃ tl w', export_tenant no_repr w_digest tenant (w_day + 1) w = (Ok tl, w') ∧
    export_tenant no_repr w_digest tenant (w_day + 1) w' = (Ok [], w').
Proof.
  intros w tenant.
  destruct (quiet_tenant_exported no_repr w_digest w_digest_inj w_company w_prefix w_schema (w_day + 1)%Z
    (w_table [(1, 1); (2, 2)]%Z) w w_names eq_refl) as (tl & w' & H1 & _ & _ & H2).
  - by apply fresh_tidy.
  - reflexivity.
  - intros d ps _ [[_ ->]|(v & Hv & _)]; [done|]. cbn in Hv. by rewrite lookup_empty in Hv.
  - intros k r Hk. apply elem_of_list_to_map_2 in Hk. cbn in Hk.
    apply list_elem_of_In in Hk. destruct Hk as [[= <- _]|[[= <- _]|[]]]; vm_compute; discriminate.
  - reflexivity.
  - exists tl, w'. split; [exact H1 | exact H2].
Defined.
