(* ===== verification/TenantDeletion.v ===== *)
(** * The deletion of a tenant, store by store

    services/tenant_delete: [registry.py] with the database functions it calls
    (infrastructure/timescaledb/init-scripts/26-company-deletion-job.sql), and
    the run of [job.py] over any steps.  The interface [DeletionSteps] says what
    a step promises the run: that its store holds nothing of the tenant when it
    returns a removal; DeletionStores has steps that keep it. *)

From stdpp Require Import base gmap strings list fin_maps.
From Stdlib Require Import ZArith Lia.
From S2P Require Import Prelude PyJson.

Local Open Scope string_scope.

(** ** The platform's record of deletions *)

Record Removal := { detail : dict; retained_until : option Z }.

Record deletion := { requested_at : Z; completed : bool }.

(** [public.company_deletions], in the order of the requests; the steps
    recorded of the required stores; the users' rows; the tenants whose schema
    and roles exist; those whose schema's name is not the canonical one; whether
    another run holds the run lock; the outcomes of the calls to come. *)
Record lifecycle := {
  l_deletions : list (string * deletion);
  l_steps : gmap (string * string) (option Z);
  l_users : gmap string (list string);
  l_databases : gset string;
  l_strays : gset string;
  l_busy : bool;
  l_calls : list call
}.

Definition with_calls (cs : list call) (l : lifecycle) : lifecycle :=
  {| l_deletions := l_deletions l; l_steps := l_steps l; l_users := l_users l;
     l_databases := l_databases l; l_strays := l_strays l; l_busy := l_busy l; l_calls := cs |}.
Definition with_steps (st : gmap (string * string) (option Z)) (l : lifecycle) : lifecycle :=
  {| l_deletions := l_deletions l; l_steps := st; l_users := l_users l;
     l_databases := l_databases l; l_strays := l_strays l; l_busy := l_busy l; l_calls := l_calls l |}.

(** [Registry._call]: one connection, one function call. *)
Definition _call {A} (f : lifecycle → res A * lifecycle) : M lifecycle A := λ l,
  let '(c, rest) := first_call (l_calls l) in
  let l := with_calls rest l in
  match c with
  | Fails e => (Err e, l)
  | Runs => f l
  | Lost e => (Err e, snd (f l))
  end.
Definition asks {A} (f : lifecycle → res A) : M lifecycle A := _call (λ l, (f l, l)).

Definition REQUIRED_STORES : list string :=
  ["capability_store"; "cold_layer"; "tracking_store"; "notebook_volumes"; "device_certificates"; "broker"].
Definition required_stores : M lifecycle (list string) := asks (λ _, Ok REQUIRED_STORES).

Definition find_deletion (c : string) (l : lifecycle) : option deletion :=
  snd <$> List.find (λ cd, bool_decide (cd.1 = c)) (l_deletions l).
Definition is_pending (c : string) (l : lifecycle) : bool :=
  match find_deletion c l with Some d => negb (completed d) | None => false end.

Definition recorded (l : lifecycle) (c : string) : list string :=
  base.filter (λ st, is_Some (l_steps l !! (c, st))) REQUIRED_STORES.

(** [pending_company_deletions()]; of the recorded steps the run asks only for
    those of the required stores. *)
Definition pending : M lifecycle (list (string * Z * list string)) :=
  asks (λ l, Ok (map (λ cd, (cd.1, requested_at cd.2, recorded l cd.1))
                     (base.filter (λ cd, completed cd.2 = false) (l_deletions l)))).

Definition user_ids (c : string) : M lifecycle (list string) :=
  asks (λ l, Ok (if is_pending c l then default [] (l_users l !! c) else [])).

(** [record_company_deletion_step]: the first record of a store stands. *)
Definition record_tx (c store : string) (removal : Removal) (l : lifecycle) : res unit * lifecycle :=
  if negb (bool_decide (store ∈ REQUIRED_STORES)) then (Err (PostgresError (Some "22023")), l)
  else if negb (is_pending c l) then (Err (PostgresError (Some "P0002")), l)
  else (Ok tt, match l_steps l !! (c, store) with
               | Some _ => l
               | None => with_steps (<[(c, store) := retained_until removal]> (l_steps l)) l
               end).
Definition record (c store : string) (removal : Removal) : M lifecycle unit := _call (record_tx c store removal).

Definition complete_deletion (c : string) (cd : string * deletion) : string * deletion :=
  if bool_decide (cd.1 = c) then (c, {| requested_at := requested_at cd.2; completed := true |}) else cd.

(** [complete_company_deletion]: refused until every required store is
    recorded; then the tenant's database objects go, and the deletion is
    complete, at once. *)
Definition all_recorded (c : string) (l : lifecycle) : bool :=
  forallb (λ st, bool_decide (is_Some (l_steps l !! (c, st)))) REQUIRED_STORES.
Definition complete_tx (c : string) (backup_retention : Z) (l : lifecycle) : res unit * lifecycle :=
  if (backup_retention <=? 0)%Z then (Err (PostgresError (Some "22023")), l)
  else match find_deletion c l with
       | None => (Err (PostgresError (Some "P0002")), l)
       | Some d =>
           if completed d then (Ok tt, l)
           else if negb (all_recorded c l) then (Err (PostgresError (Some "55000")), l)
           else if bool_decide (c ∈ l_strays l) then (Err (PostgresError (Some "22023")), l)
           else (Ok tt, {| l_deletions := map (complete_deletion c) (l_deletions l);
                           l_steps := l_steps l;
                           l_users := delete c (l_users l);
                           l_databases := l_databases l ∖ {[c]};
                           l_strays := l_strays l;
                           l_busy := l_busy l;
                           l_calls := l_calls l |})
       end.
Definition complete (c : string) (backup_retention : Z) : M lifecycle unit :=
  _call (complete_tx c backup_retention).

(** The run lock is one session's advisory lock, given up when the run ends. *)
Definition try_lock : M lifecycle bool := asks (λ l, Ok (negb (l_busy l))).
Definition unlock : M lifecycle unit := asks (λ _, Ok tt).

(** ** job.py *)

Section job.
Context {S : Type} (get : S → lifecycle) (set : lifecycle → S → S).

Definition at_registry {A} (m : M lifecycle A) : M S A := zoom get set m.

Abbreviation Step := (string → list string → Z → M S (option Removal)).

Record Outcome := {
  o_completed : list string;
  o_waiting : list (string * list string);
  o_failed : list (string * exn)
}.

Inductive deleted := Completed | Waiting (stores : list string).

Definition delete_step (steps : string → option Step) (c : string) (at_ : Z) (removed : list string)
    (acc : option (list string) * list string) (store : string) : M S (option (list string) * list string) :=
  let '(users, waiting) := acc in
  if bool_decide (store ∈ removed) then mret (users, waiting) else
  match steps store with
  | None => mret (users, (waiting ++ [store])%list)
  | Some step =>
      us ← match users with Some us => mret us | None => at_registry (user_ids c) end;
      removal ← step c us at_;
      match removal with
      | None => mret (Some us, (waiting ++ [store])%list)
      | Some r => _ ← at_registry (record c store r); mret (Some us, waiting)
      end
  end.

Definition _delete (steps : string → option Step) (required : list string) (c : string) (at_ : Z)
    (removed : list string) (backup_retention : Z) : M S deleted :=
  acc ← foldM (delete_step steps c at_ removed) (None, []) required;
  match acc.2 with
  | [] => _ ← at_registry (complete c backup_retention); mret Completed
  | waiting => mret (Waiting waiting)
  end.

(** One tenant of the pass; [except Exception] keeps its failure to itself. *)
Definition run_one (steps : string → option Step) (required : list string) (backup_retention : Z)
    (o : Outcome) (p : string * Z * list string) : M S Outcome :=
  let '(c, at_, removed) := p in
  catch (r ← _delete steps required c at_ removed backup_retention;
         mret match r with
              | Completed => {| o_completed := (o_completed o ++ [c])%list; o_waiting := o_waiting o; o_failed := o_failed o |}
              | Waiting l => {| o_completed := o_completed o; o_waiting := (o_waiting o ++ [(c, l)])%list; o_failed := o_failed o |}
              end)
        (λ e, if bool_decide (e = SystemExit) then raise e
              else mret {| o_completed := o_completed o; o_waiting := o_waiting o;
                           o_failed := (o_failed o ++ [(c, e)])%list |}).

Definition run_pass (steps : string → option Step) (backup_retention : Z) : M S Outcome :=
  required ← at_registry required_stores;
  todo ← at_registry pending;
  foldM (run_one steps required backup_retention) {| o_completed := []; o_waiting := []; o_failed := [] |} todo.

Definition run (steps : string → option Step) (backup_retention : Z) : M S (option Outcome) :=
  held ← at_registry try_lock;
  finally (if held : bool then (o ← run_pass steps backup_retention; mret (Some o)) else mret None)
          (if held : bool then at_registry unlock else mret tt).
End job.

(** ** What a step promises *)

(** The requests for deletion, each with its time. *)
Definition requests (l : lifecycle) : list (string * Z) := map (λ cd, (cd.1, requested_at cd.2)) (l_deletions l).

(** What the registry does to a deletion: its users and the time it was
    requested stay while it is pending, and none becomes pending. *)
Definition no_new_users (l l' : lifecycle) : Prop :=
  requests l' = requests l ∧
  ∀ c, is_pending c l' = true → is_pending c l = true ∧ l_users l' !! c = l_users l !! c.

(** [s_empty c st until s]: what the record of store [st], which may hold the
    tenant [c] until [until], says of it; [s_inv]: what the stores' other users
    keep to.  A step run for a request that returns a removal makes that so, no
    step undoes it, and the deletion record and the stores are apart. *)
Class DeletionSteps {S} (get : S → lifecycle) (set : lifecycle → S → S)
    (steps : string → option (string → list string → Z → M S (option Removal))) := {
  s_empty : string → string → option Z → S → Prop;
  s_inv : S → Prop;
  get_set l s : get (set l s) = l;
  empty_set l s c st u : no_new_users (get s) l → s_empty c st u s → s_empty c st u (set l s);
  inv_set l s : no_new_users (get s) l → s_inv s → s_inv (set l s);
  step_apart st f c us at_ s : steps st = Some f → get (final (f c us at_) s) = get s;
  step_empties st f c us at_ s r s' : steps st = Some f → (c, at_) ∈ requests (get s) → s_inv s →
    f c us at_ s = (Ok (Some r), s') → s_empty c st (retained_until r) s';
  step_keeps st f c us at_ s : steps st = Some f → s_inv s →
    s_inv (final (f c us at_) s) ∧ ∀ c' st' u, s_empty c' st' u s → s_empty c' st' u (final (f c us at_) s)
}.

Section props.
Context {S : Type} (get : S → lifecycle) (set : lifecycle → S → S).
Context (steps : string → option (string → list string → Z → M S (option Removal))).
Context `{D : !DeletionSteps get set steps}.
Abbreviation at_registry := (at_registry get set).

(** Every record is true of its store. *)
Definition truthful (s : S) : Prop := s_inv s ∧ ∀ c st u, l_steps (get s) !! (c, st) = Some u → s_empty c st u s.

(** A record stays, a request keeps its time, and only a tenant whose required stores are all recorded
    loses its database. *)
Definition onward_if (P : Prop) (s s' : S) : Prop :=
  (P → truthful s → truthful s') ∧
  (∀ k, is_Some (l_steps (get s) !! k) → is_Some (l_steps (get s') !! k)) ∧
  (∀ c, c ∈ l_databases (get s) → c ∉ l_databases (get s') →
        ∀ st, st ∈ REQUIRED_STORES → is_Some (l_steps (get s') !! (c, st))) ∧
  requests (get s') = requests (get s).

Abbreviation onward := (onward_if True).

#[local] Instance onward_refl : Reflexive onward.
Proof. intros s. split; [done|]. split; [done|]. split; done. Qed.

Lemma onward_then P Q s1 s2 s3 : onward_if P s1 s2 → onward_if Q s2 s3 → (P → truthful s1 → Q) → onward_if P s1 s3.
Proof.
  intros (T1 & M1 & C1 & R1) (T2 & M2 & C2 & R2) HQ. split; [auto|]. split; [auto|]. split; [|congruence].
  intros c Hin Hout st Hst. destruct (decide (c ∈ l_databases (get s2))) as [H2|H2]; [by apply C2 | by apply M2, C1].
Qed.
#[local] Instance onward_trans : Transitive onward.
Proof. intros s1 s2 s3 H1 H2. by eapply onward_then. Qed.

(** The registry's state is written; nothing else is. *)
Lemma onward_set P s l :
  l_steps l = l_steps (get s) → l_databases l = l_databases (get s) → no_new_users (get s) l → onward_if P s (set l s).
Proof.
  intros Hs Hd Hu. unfold onward_if, truthful. rewrite get_set, Hs, Hd. split; [|split; [done|]; split; [done | apply Hu]].
  intros _ [Hi H]. split; [by apply inv_set|]. intros c' st' u Hk. by apply empty_set; [|apply H].
Qed.

Lemma onward_call {A} P (f : lifecycle → res A * lifecycle) s :
  (∀ cs, onward_if P s (set (snd (f (with_calls cs (get s)))) s)) → onward_if P s (final (at_registry (_call f)) s).
Proof.
  intros Hf. unfold final, TenantDeletion.at_registry, zoom, _call.
  destruct (first_call (l_calls (get s))) as [cl rest]. specialize (Hf rest).
  destruct cl; [|by apply onward_set|]; destruct (f (with_calls rest (get s))) as [r l]; exact Hf.
Qed.

Lemma asks_onward {A} (f : lifecycle → res A) : respects onward (at_registry (asks f)).
Proof. intros s. apply onward_call. intros cs. by apply onward_set. Qed.

(** Recording what is so. *)
Lemma record_onward c st r s : onward_if (s_empty c st (retained_until r) s) s (final (at_registry (record c st r)) s).
Proof.
  apply onward_call. intros cs. unfold record_tx.
  destruct (negb (bool_decide (st ∈ REQUIRED_STORES))); [by apply onward_set|].
  destruct (negb (is_pending c (with_calls cs (get s)))); [by apply onward_set|]. cbn [snd].
  destruct (l_steps (with_calls cs (get s)) !! (c, st)); [by apply onward_set|].
  unfold onward_if, truthful. rewrite get_set. cbn. split; [|split; [|done]].
  - intros Hempty [Hi H1]. split; [by apply inv_set|]. intros c' st' u Hk. apply empty_set; [done|].
    destruct (decide ((c', st') = (c, st))) as [[= -> ->]|Hne].
    + rewrite lookup_insert_eq in Hk. injection Hk as <-. exact Hempty.
    + rewrite lookup_insert_ne in Hk by done. by apply H1.
  - intros k Hk. destruct (decide (k = (c, st))) as [->|Hne]; [rewrite lookup_insert; by rewrite decide_True|].
    by rewrite lookup_insert_ne.
Qed.

Lemma find_deletion_other c c' l l' :
  c ≠ c' → l_deletions l' = map (complete_deletion c') (l_deletions l) → find_deletion c l' = find_deletion c l.
Proof.
  intros Hne E. unfold find_deletion. rewrite E. clear E. induction (l_deletions l) as [|[a d] ds IH]; [done|].
  cbn [map List.find fmap]. destruct (decide (a = c')) as [->|Ha].
  - replace (complete_deletion c' (c', d)) with (c', {| requested_at := requested_at d; completed := true |})
      by (unfold complete_deletion; by rewrite bool_decide_true).
    cbn [fst]. rewrite bool_decide_false by done. exact IH.
  - replace (complete_deletion c' (a, d)) with (a, d) by (unfold complete_deletion; by rewrite bool_decide_false).
    cbn [fst]. case_bool_decide; [done | exact IH].
Qed.

Lemma find_deletion_same c l l' :
  l_deletions l' = map (complete_deletion c) (l_deletions l) → is_pending c l' = false.
Proof.
  intros E. unfold is_pending, find_deletion. rewrite E. clear E. induction (l_deletions l) as [|[a d] ds IH]; [done|].
  cbn [map List.find fmap]. destruct (decide (a = c)) as [->|Ha].
  - replace (complete_deletion c (c, d)) with (c, {| requested_at := requested_at d; completed := true |})
      by (unfold complete_deletion; by rewrite bool_decide_true).
    cbn [fst]. by rewrite bool_decide_true.
  - replace (complete_deletion c (a, d)) with (a, d) by (unfold complete_deletion; by rewrite bool_decide_false).
    cbn [fst]. by rewrite bool_decide_false.
Qed.

Lemma requests_completed c l l' : l_deletions l' = map (complete_deletion c) (l_deletions l) → requests l' = requests l.
Proof.
  unfold requests. intros ->. rewrite map_map. apply map_ext. intros [a d]. unfold complete_deletion. cbn. case_bool_decide; by simplify_eq/=.
Qed.

Lemma complete_users c l l' : l_deletions l' = map (complete_deletion c) (l_deletions l) → l_users l' = delete c (l_users l) →
  no_new_users l l'.
Proof.
  intros Ed Eu. split; [by eapply requests_completed|]. intros c' Hp. destruct (decide (c' = c)) as [->|Hne]; [by rewrite (find_deletion_same c l l' Ed) in Hp|].
  rewrite Eu, lookup_delete_ne by done. split; [|done]. unfold is_pending in *. by rewrite (find_deletion_other c' c l l') in Hp.
Qed.

Lemma complete_onward c ret : respects onward (at_registry (complete c ret)).
Proof.
  intros s. apply onward_call. intros cs. unfold complete_tx.
  destruct (ret <=? 0)%Z; [by apply onward_set|]. destruct (find_deletion c _) as [d|]; [|by apply onward_set].
  destruct (completed d); [by apply onward_set|].
  destruct (all_recorded c (with_calls cs (get s))) eqn:Hall; cbn [negb snd]; [|by apply onward_set].
  case_bool_decide; [by apply onward_set|].
  unfold onward_if, truthful. rewrite get_set.
  match goal with |- context [set ?l s] => assert (no_new_users (get s) l) as Hu by by apply (complete_users c) end.
  cbn. split; [|split; [done|]; split; [|apply Hu]].
  - intros _ [Hi H1]. split; [by apply inv_set | intros c' st' u Hk; by apply empty_set; [|apply H1]].
  - intros c' Hin Hout st Hst. assert (c' = c) as ->.
    { destruct (decide (c' = c)) as [|Hne]; [done|]. exfalso. apply Hout, elem_of_difference.
      split; [done|]. by rewrite elem_of_singleton. }
    unfold all_recorded in Hall. rewrite forallb_elem in Hall. by apply (bool_decide_eq_true_1 _), Hall.
Qed.

(** A step that ran and returned a removal is recorded; every other outcome
    records nothing. *)
Lemma step_onward c us at_ st f : steps st = Some f → respects onward (f c us at_).
Proof.
  intros Hf s. unfold onward_if, truthful. rewrite (step_apart st) by done. split; [|by split].
  intros _ [Hi H]. destruct (step_keeps st f c us at_ s Hf Hi) as [Hi' He]. split; [done|]. intros c' st' u Hk. by apply He, H.
Qed.

(** What holds of a state with the request. *)
Definition asked (c : string) (at_ : Z) (s s' : S) : Prop := (c, at_) ∈ requests (get s) → onward s s'.
#[local] Instance asked_refl c at_ : Reflexive (asked c at_).
Proof. by intros s _. Qed.
#[local] Instance asked_trans c at_ : Transitive (asked c at_).
Proof. intros s1 s2 s3 H12 H23 H. pose proof (H12 H) as H1. etrans; [exact H1|]. apply H23. by rewrite (proj2 (proj2 (proj2 H1))). Qed.
Lemma asked_onward {A} c at_ (m : M S A) : respects onward m → respects (asked c at_) m.
Proof. intros H s _. apply H. Qed.


Lemma delete_step_onward c at_ removed acc st : respects (asked c at_) (delete_step get set steps c at_ removed acc st).
Proof.
  destruct acc as [users waiting]. unfold delete_step. case_bool_decide; [apply respects_ret, _|].
  destruct (steps st) as [f|] eqn:Ef; [|apply respects_ret, _].
  apply respects_bind; [apply _ | destruct users; [apply respects_ret, _ | apply asked_onward, asks_onward] |]. intros us s Hask.
  pose proof (step_onward c us at_ st f Ef s) as H1. unfold final in *. unfold mbind, M_bind.
  destruct (f c us at_ s) as [[[r|]|e] s'] eqn:E; cbn in *; [|exact H1..].
  pose proof (record_onward c st r s') as H2. unfold final in H2.
  assert (onward s (snd (at_registry (record c st r) s'))) as H3.
  { eapply onward_then; [exact H1 | exact H2 |]. intros _ [Hi _]. by eapply step_empties. }
  by destruct (at_registry (record c st r) s') as [[u|e] s''].
Qed.

Lemma run_one_onward required ret o p : respects (asked p.1.1 p.1.2) (run_one get set steps required ret o p).
Proof.
  destruct p as [[c at_] removed]. unfold run_one, _delete.
  respecting ltac:(first [apply asked_onward, complete_onward | apply respects_foldM; [apply _.. | intros; apply delete_step_onward]]).
Qed.

Lemma run_tenants_onward required ret todo : ∀ o s, (∀ p, p ∈ todo → p.1 ∈ requests (get s)) →
  onward s (final (foldM (run_one get set steps required ret) o todo) s).
Proof.
  induction todo as [|p todo IH]; intros o s Hin; [done|]. cbn [foldM].
  assert (onward s (final (run_one get set steps required ret o p) s)) as H1.
  { apply run_one_onward. destruct p as [[c at_] removed]. apply (Hin (c, at_, removed)). left. }
  unfold final, mbind, M_bind in *. destruct (run_one get set steps required ret o p s) as [[o'|e] s1]; cbn in *; [|exact H1].
  etrans; [exact H1|]. apply IH. intros q Hq. rewrite (proj2 (proj2 (proj2 H1))). apply Hin. by right.
Qed.

(** The tenants a pass reads have asked. *)
Lemma pending_asked s todo s' : at_registry pending s = (Ok todo, s') → ∀ p, p ∈ todo → p.1 ∈ requests (get s').
Proof.
  unfold TenantDeletion.at_registry, zoom, pending, asks, _call. destruct (first_call (l_calls (get s))) as [cl rest].
  destruct cl; cbn; intros [= <- <-] p Hp. apply list_elem_of_fmap in Hp as (cd & -> & [_ Hcd]%list_elem_of_filter).
  rewrite get_set. apply list_elem_of_fmap. by exists cd.
Qed.

Lemma run_onward ret : respects onward (run get set steps ret).
Proof.
  assert (respects onward (run_pass get set steps ret)) as Hpass.
  { unfold run_pass. apply respects_bind; [apply _ | apply asks_onward |]. intros required s.
    apply respects_then; [apply _ | apply asks_onward |]. intros todo s1 E1.
    apply run_tenants_onward. by eapply pending_asked. }
  unfold run. apply respects_bind; [apply _ | apply asks_onward |]. intros [].
  - apply respects_finally; [apply _ | respecting ltac:(exact Hpass) | apply asks_onward].
  - respecting fail.
Qed.

(** a tenant's database is emptied last.  In a run of the deletion job,
    whatever fails, a tenant loses its database only when each required store is
    recorded, and every record tells the truth: its store holds nothing of the
    tenant.  A record, once made, stays. *)
Theorem database_emptied_last (ret : Z) (s : S) (Ht : truthful s) :
  let s' := final (run get set steps ret) s in
  truthful s' ∧
  (∀ k, is_Some (l_steps (get s) !! k) → is_Some (l_steps (get s') !! k)) ∧
  ∀ c, c ∈ l_databases (get s) → c ∉ l_databases (get s') →
       ∀ st, st ∈ REQUIRED_STORES → ∃ u, l_steps (get s') !! (c, st) = Some u ∧ s_empty c st u s'.
Proof.
  intros s'. destruct (run_onward ret s) as (H1 & H2 & H3 & _). split; [auto|]. split; [done|].
  intros c Hin Hout st Hst. destruct (H3 c Hin Hout st Hst) as [u Hu]. exists u. split; [done|]. by apply H1.
Qed.

(** *** When nothing fails

    The job has a step for every required store but the notebook volumes, which
    the hub empties and records.  [ready]: what lets each step answer for the
    tenants of [due], and that answering keeps. *)

Context (ready : S → Prop) (due : string → Z → Prop).
Context (ready_set : ∀ l s, ready s → ready (set l s)).
Context (Hsteps : ∀ st, st ∈ REQUIRED_STORES → st ≠ "notebook_volumes" → ∃ f, steps st = Some f ∧
  ∀ c us at_ s, due c at_ → ready s → ∃ r s', f c us at_ s = (Ok (Some r), s') ∧ ready s').

(** No call of the registry fails, no other run goes on, and the stores are ready. *)
Definition quiet (s : S) : Prop :=
  l_calls (get s) = [] ∧ l_busy (get s) = false ∧ l_strays (get s) = ∅ ∧ ready s.

Lemma quiet_set l s : quiet s → l_calls l = [] → l_busy l = false → l_strays l = ∅ → quiet (set l s).
Proof. intros (_ & _ & _ & Hr) H1 H2 H3. unfold quiet. rewrite get_set. repeat split; [done..|]. by apply ready_set. Qed.

(** Only the record of [c]'s stores may grow. *)
Definition same_but_steps (s s' : S) : Prop :=
  l_deletions (get s') = l_deletions (get s) ∧ l_databases (get s') = l_databases (get s) ∧
  (∀ k, is_Some (l_steps (get s) !! k) → is_Some (l_steps (get s') !! k)).

Lemma quiet_registry_call {A} (f : lifecycle → res A * lifecycle) s :
  quiet s → at_registry (_call f) s = (let '(r, l) := f (get s) in (r, set l s)).
Proof.
  intros [Hc _]. unfold TenantDeletion.at_registry, zoom, _call. rewrite Hc. cbn.
  replace (with_calls [] (get s)) with (get s); [done|]. destruct (get s). cbn in *. by subst.
Qed.

Lemma quiet_asks {A} (f : lifecycle → res A) s :
  quiet s → ∃ s', at_registry (asks f) s = (f (get s), s') ∧ get s' = get s ∧ quiet s'.
Proof.
  intros H. unfold asks. rewrite quiet_registry_call by done. exists (set (get s) s). split; [done|]. split; [apply get_set|].
  apply quiet_set; [done | apply H..].
Qed.

Lemma is_pending_eq c l l' : l_deletions l' = l_deletions l → is_pending c l' = is_pending c l.
Proof. intros E. unfold is_pending, find_deletion. by rewrite E. Qed.

Lemma quiet_delete_step c at_ removed users st s :
  quiet s → is_pending c (get s) = true → due c at_ → st ∈ REQUIRED_STORES → "notebook_volumes" ∈ removed →
  ∃ us s', delete_step get set steps c at_ removed (users, []) st s = (Ok (us, []), s') ∧ quiet s' ∧
    same_but_steps s s' ∧ (st ∈ removed ∨ is_Some (l_steps (get s') !! (c, st))).
Proof.
  intros Hq Hp Hdue Hst Hvol. unfold delete_step. case_bool_decide as Hr.
  { exists users, s. split; [done|]. split; [done|]. split; [done|]. by left. }
  destruct (Hsteps st Hst) as (f & Ef & Hf); [congruence|]. rewrite Ef.
  assert (∃ us s1, (match users with Some us => mret us | None => at_registry (user_ids c) end) s = (Ok us, s1) ∧
            get s1 = get s ∧ quiet s1) as (us & s1 & E1 & G1 & Hq1).
  { destruct users as [us|]; [by exists us, s|]. destruct (quiet_asks (λ l, Ok (if is_pending c l then default [] (l_users l !! c) else [])) s Hq)
      as (s1 & E & G). eexists _, s1. split; [exact E | done]. }
  erewrite bind_ok; [|exact E1]. destruct (Hf c us at_ s1 Hdue) as (r & s2 & E2 & Hr2); [apply Hq1|].
  erewrite bind_ok; [|exact E2].
  pose proof (step_apart st f c us at_ s1 Ef) as G2. unfold final in G2. rewrite E2 in G2. cbn in G2. rewrite G1 in G2.
  assert (quiet s2) as Hq2 by (unfold quiet; rewrite G2; split_and!; [apply Hq..|done]).
  unfold mbind, M_bind. unfold record. rewrite quiet_registry_call by done. rewrite G2. unfold record_tx.
  rewrite bool_decide_true by done. rewrite Hp. cbn [negb].
  eexists _, _. split; [done|]. split; [apply quiet_set; [done | destruct (l_steps (get s) !! (c, st)); apply Hq..]|]. unfold same_but_steps. rewrite get_set.
  destruct (l_steps (get s) !! (c, st)) eqn:El.
  - split; [done|]. right. by rewrite El.
  - cbn. split; [split; [done|]; split; [done|]|].
    + intros k Hk. destruct (decide (k = (c, st))) as [->|Hne]; [by rewrite El in Hk; destruct Hk | by rewrite lookup_insert_ne].
    + right. rewrite lookup_insert. by rewrite decide_True.
Qed.

Lemma quiet_delete_steps c at_ removed sts : ∀ users s,
  quiet s → is_pending c (get s) = true → due c at_ → (∀ st, st ∈ sts → st ∈ REQUIRED_STORES) → "notebook_volumes" ∈ removed →
  ∃ us s', foldM (delete_step get set steps c at_ removed) (users, []) sts s = (Ok (us, []), s') ∧ quiet s' ∧
    same_but_steps s s' ∧ ∀ st, st ∈ sts → st ∈ removed ∨ is_Some (l_steps (get s') !! (c, st)).
Proof.
  induction sts as [|st sts IH]; intros users s Hq Hp Hdue Hsub Hvol.
  { exists users, s. split; [done|]. split; [done|]. split; [done|]. by intros st ?%elem_of_nil. }
  destruct (quiet_delete_step c at_ removed users st s Hq Hp Hdue) as (us & s1 & E1 & Hq1 & (D1 & B1 & M1) & R1); [apply Hsub; left | done |].
  destruct (IH us s1 Hq1) as (us' & s2 & E2 & Hq2 & (D2 & B2 & M2) & R2).
  { by rewrite (is_pending_eq c (get s)). }
  { done. }
  { intros st' Hst'. apply Hsub. by right. }
  { done. }
  exists us', s2. split; [cbn; by erewrite bind_ok; [|exact E1]|]. split; [done|].
  split; [split; [congruence|]; split; [congruence | auto]|].
  intros st' [->|Hst']%elem_of_cons; [destruct R1; [by left | right; auto] | auto].
Qed.

(** One pending tenant: its stores are recorded, its database goes. *)
Lemma quiet_delete c at_ removed ret s : (0 < ret)%Z → quiet s → is_pending c (get s) = true → due c at_ →
  (∀ st, st ∈ removed → is_Some (l_steps (get s) !! (c, st))) → "notebook_volumes" ∈ removed →
  ∃ s', _delete get set steps REQUIRED_STORES c at_ removed ret s = (Ok Completed, s') ∧ quiet s' ∧
    l_deletions (get s') = map (complete_deletion c) (l_deletions (get s)) ∧
    l_databases (get s') = l_databases (get s) ∖ {[c]} ∧
    (∀ k, is_Some (l_steps (get s) !! k) → is_Some (l_steps (get s') !! k)).
Proof.
  intros Hret Hq Hp Hdue Hrem Hvol.
  destruct (quiet_delete_steps c at_ removed REQUIRED_STORES None s Hq Hp Hdue) as (us & s1 & E1 & Hq1 & (D1 & B1 & M1) & R1); [done..|].
  unfold _delete. erewrite bind_ok; [|exact E1]. cbn [snd]. unfold mbind, M_bind, complete. rewrite quiet_registry_call by done.
  unfold complete_tx. rewrite (proj2 (Z.leb_gt _ _)) by lia.
  assert (is_pending c (get s1) = true) as Hp1 by (by rewrite (is_pending_eq c (get s))).
  unfold is_pending in Hp1. destruct (find_deletion c (get s1)) as [d|]; [|done]. apply negb_true_iff in Hp1. rewrite Hp1.
  assert (all_recorded c (get s1) = true) as ->.
  { apply forallb_elem. intros st Hst. apply bool_decide_eq_true. destruct (R1 st Hst) as [Hin|]; [|done].
    by apply M1, Hrem. }
  cbn [negb]. rewrite bool_decide_false by (rewrite (proj1 (proj2 (proj2 Hq1))); apply not_elem_of_empty).
  eexists. split; [done|]. split; [apply quiet_set; [done | apply Hq1..]|]. rewrite get_set. cbn. by rewrite D1, B1.
Qed.

Lemma quiet_tenants ret : (0 < ret)%Z → ∀ todo o s,
  quiet s → NoDup (map (λ p, p.1.1) todo) →
  (∀ p, p ∈ todo → is_pending p.1.1 (get s) = true ∧ due p.1.1 p.1.2 ∧ "notebook_volumes" ∈ p.2 ∧
                   ∀ st, st ∈ p.2 → is_Some (l_steps (get s) !! (p.1.1, st))) →
  ∃ s', foldM (run_one get set steps REQUIRED_STORES ret) o todo s =
      (Ok {| o_completed := (o_completed o ++ map (λ p, p.1.1) todo)%list; o_waiting := o_waiting o; o_failed := o_failed o |}, s') ∧
    quiet s' ∧ l_databases (get s') = l_databases (get s) ∖ list_to_set (map (λ p, p.1.1) todo) ∧
    l_deletions (get s') = foldr (λ p, map (complete_deletion p.1.1)) (l_deletions (get s)) (rev todo).
Proof.
  intros Hret. induction todo as [|[[c at_] removed] todo IH]; intros o s Hq Hnd Htodo.
  { exists s. cbn. rewrite app_nil_r. split; [by destruct o|]. split; [done|]. split; [|done].
    apply leibniz_equiv. by rewrite difference_empty. }
  apply NoDup_cons in Hnd as [Hc Hnd]. cbn [fst snd map] in *.
  destruct (Htodo (c, at_, removed)) as (Hp & Hdue & Hvol & Hrem); [left|]. cbn in Hp, Hdue, Hvol, Hrem.
  destruct (quiet_delete c at_ removed ret s Hret Hq Hp Hdue Hrem Hvol) as (s1 & E1 & Hq1 & D1 & B1 & M1).
  destruct (IH {| o_completed := (o_completed o ++ [c])%list; o_waiting := o_waiting o; o_failed := o_failed o |} s1 Hq1 Hnd)
    as (s2 & E2 & Hq2 & B2 & D2).
  { intros p Hin. destruct (Htodo p) as (Hp' & Hdue' & Hvol' & Hrem'); [by right|]. split; [|split; [done|]; split; [done|]; intros st Hst; by apply M1, Hrem'].
    unfold is_pending in *. rewrite (find_deletion_other _ c (get s)); [done | | done].
    intros E. apply Hc. rewrite <- E. apply list_elem_of_fmap. by exists p. }
  exists s2. split.
  { cbn [foldM]. erewrite bind_ok; [rewrite E2; cbn; by rewrite <- app_assoc|].
    unfold run_one, catch. by erewrite bind_ok; [|exact E1]. }
  split; [done|]. split; [rewrite B2, B1; cbn; by rewrite difference_difference_l_L|].
  rewrite D2, D1. cbn [rev]. by rewrite foldr_app.
Qed.

(** a run in which every store the job empties can be emptied, the hub has
    recorded the notebook volumes of every pending tenant and nothing fails
    completes every pending deletion, in one pass: none waits, none fails, and
    no deleted tenant keeps its database. *)
Theorem quiet_run_completes (ret : Z) (s : S) (Hret : (0 < ret)%Z) (Hq : quiet s)
    (Hkey : NoDup (l_deletions (get s)).*1)
    (Hvol : ∀ cd, cd ∈ l_deletions (get s) → completed cd.2 = false →
       due cd.1 (requested_at cd.2) ∧ is_Some (l_steps (get s) !! (cd.1, "notebook_volumes"))) :
  let todo := map fst (base.filter (λ cd, completed cd.2 = false) (l_deletions (get s))) in
  ∃ s', run get set steps ret s = (Ok (Some {| o_completed := todo; o_waiting := []; o_failed := [] |}), s') ∧
    l_databases (get s') = l_databases (get s) ∖ list_to_set todo ∧
    l_deletions (get s') = foldr (λ c, map (complete_deletion c)) (l_deletions (get s)) (rev todo).
Proof.
  intros todo. unfold run, try_lock.
  destruct (quiet_asks (λ l, Ok (negb (l_busy l))) s Hq) as (s1 & E1 & G1 & Hq1).
  erewrite bind_ok; [|rewrite E1, (proj1 (proj2 Hq)); reflexivity]. cbn [negb].
  set (items := map (λ cd, (cd.1, requested_at cd.2, recorded (get s) cd.1))
                    (base.filter (λ cd : string * deletion, completed cd.2 = false) (l_deletions (get s)))).
  assert (map (λ p, p.1.1) items = todo) as Etodo by (unfold items; by rewrite map_map).
  destruct (quiet_asks (λ _, Ok REQUIRED_STORES) s1 Hq1) as (s2 & E2 & G2 & Hq2).
  destruct (quiet_asks (λ l, Ok (map (λ cd, (cd.1, requested_at cd.2, recorded l cd.1))
                     (base.filter (λ cd, completed cd.2 = false) (l_deletions l)))) s2 Hq2) as (s3 & E3 & G3 & Hq3).
  rewrite G2, G1 in E3. fold items in E3.
  assert (get s3 = get s) as Gs by congruence.
  assert (NoDup todo) as Hnd.
  { unfold todo. clear -Hkey. induction (l_deletions (get s)) as [|cd l IH]; [constructor|].
    apply NoDup_cons in Hkey as [Hn Hk]. rewrite filter_cons. case_decide; [|by apply IH].
    cbn. constructor; [|by apply IH]. intros (x & E & Hx)%list_elem_of_fmap. apply Hn. rewrite E.
    apply list_elem_of_filter in Hx as [_ Hx]. by apply list_elem_of_fmap_2. }
  destruct (quiet_tenants ret Hret items {| o_completed := []; o_waiting := []; o_failed := [] |} s3 Hq3) as (s4 & E4 & Hq4 & B4 & D4).
  { by rewrite Etodo. }
  { intros p (cd & -> & Hin)%list_elem_of_fmap. rewrite Gs. apply list_elem_of_filter in Hin as [Hc Hin]. cbn [fst snd]. split.
    - unfold is_pending, find_deletion.
      assert (List.find (λ x, bool_decide (x.1 = cd.1)) (l_deletions (get s)) = Some cd) as ->; [|cbn; by rewrite Hc].
      clear -Hkey Hin. induction (l_deletions (get s)) as [|x l IH]; [by apply elem_of_nil in Hin|].
      apply NoDup_cons in Hkey as [Hn Hk]. cbn. apply elem_of_cons in Hin as [->|Hin].
      + by rewrite bool_decide_true.
      + rewrite bool_decide_false; [by apply IH|]. intros E. apply Hn. rewrite E. by apply list_elem_of_fmap_2.
    - destruct (Hvol cd Hin Hc) as [Hdue Hv]. split; [done|]. split; [apply list_elem_of_filter; split; [done | by repeat constructor]|].
      intros st Hst. by apply (list_elem_of_filter (λ st, is_Some (l_steps (get s) !! (cd.1, st)))) in Hst as [Hst _]. }
  rewrite Gs in B4, D4. rewrite Etodo in B4, E4.
  destruct (quiet_asks (λ _, Ok tt) s4 Hq4) as (s5 & E5 & G5 & _).
  exists s5. split.
  - unfold finally, run_pass, required_stores, pending.
    erewrite bind_ok; [|erewrite bind_ok; [|exact E2]; erewrite bind_ok; [|exact E3]; exact E4].
    cbn. unfold unlock. by rewrite E5.
  - rewrite G5. split; [done|]. rewrite D4, <- Etodo, <- map_rev. generalize (rev items) as l.
    intros l. induction l as [|x l IH]; [done|]. cbn. by rewrite IH.
Qed.
End props.
