(* ===== verification/DeletionStores.v ===== *)
(** * The stores a deletion empties

    services/tenant_delete: [cold_store.py], [device_certificates.py], the
    answer of [tracking_store.py] and [job.py]'s broker step, and the hub's
    reclaim of notebook volumes (services/notebook_hub/reclaim.py). *)

From stdpp Require Import base gmap strings list fin_maps sorting.
From Stdlib Require Import ZArith Lia Ascii.
From Corelib Require Import SpecFloat.
From S2P Require Import Prelude PyText PyNum PyJson Tenancy TrackingOffboarding ColdExport TenantDeletion.

Local Open Scope string_scope.

(** ** cold_store.py

    Over the cold layer's objects (ColdExport).  A batch of deletions runs, or
    deletes its first [n] keys and refuses the others, or is reported done and
    is not. *)

Definition _BATCH : nat := 1000.

(** [list_objects_v2]: the first keys under the prefix, in order. *)
Definition keys_under (prefix : string) (o : gmap string object) : list string :=
  merge_sort String.le (base.filter (λ k, startswith prefix k = true) (map fst (map_to_list o))).
Definition list_page (prefix : string) : M world (list string) :=
  query (λ w, firstn _BATCH (keys_under prefix (objects w))).

Definition delete_keys (ks : list string) (o : gmap string object) : gmap string object :=
  fold_left (λ o k, delete k o) ks o.

(** [delete_objects]: how many it refused. *)
Definition delete_batch (ks : list string) : M world nat :=
  v ← next;
  match v with
  | Plain (Fails e) => raise e
  | Plain (Lost e) => _ ← modify (λ w, set_objects (delete_keys ks (objects w)) w); raise e
  | Torn n => _ ← modify (λ w, set_objects (delete_keys (firstn n ks) (objects w)) w);
              mret (length ks - n)%nat
  | Busy => mret 0%nat
  | _ => _ ← modify (λ w, set_objects (delete_keys ks (objects w)) w); mret 0%nat
  end.

Fixpoint purge_loop (fuel : nat) (prefix : string) (previous : option (list string)) (removed : Z) : M world (option Z) :=
  match fuel with
  | O => mret None
  | S fuel =>
      keys ← list_page prefix;
      match keys with
      | [] => mret (Some removed)
      | _ =>
          if bool_decide (Some keys = previous) then raise OtherError else
          errors ← delete_batch keys;
          if (0 <? errors)%nat then raise OtherError
          else purge_loop fuel prefix (Some keys) (removed + Z.of_nat (length keys))
      end
  end.

Definition cold_purge (bucket : string) (c : string) (users : list string) (requested_at : Z) : M world (option Removal) :=
  prefix ← lift (cold_key_prefix c);
  fuel ← gets (λ w, S (S (size (objects w))));
  removed ← purge_loop fuel prefix None 0;
  mret match removed with
       | Some n => Some {| detail := [("bucket", JStr bucket); ("prefix", JStr prefix); ("objects", JInt n)];
                           retained_until := None |}
       | None => None
       end.

(** ** job.py's broker step: nothing to delete, the readings age out

    Times and durations are microseconds; [total_seconds()] is one division of
    integers. *)

Definition broker_step (retention clock : Z) : res Removal :=
  s ← float_div_int retention 1000000;
  h ← float_of_Z 3600;
  Ok {| detail := [("retention_hours", JFloat (fdiv s h))]; retained_until := Some (clock + retention)%Z |}.

(** ** tracking_store.py

    [opener]: the gateway's answer to DELETE on a path, read as JSON. *)

Definition tracking_purge (opener : string → res json) (url : string) (c : string) : res (option Removal) :=
  cid ← canonical_company_id c;
  answer ← opener (url +:+ "/api/2.0/industryflow-operator/tenants/" +:+ cid);
  who ← py_get "company_id" answer;
  if negb (match who with JStr w => bool_decide (w = cid) | _ => false end) then Err OtherError else
  remaining ← py_item "remaining" answer;
  match remaining with
  | JDict d => if existsb (λ kv, truthy kv.2) d then Ok None
               else Ok (Some {| detail := [("remaining", remaining)]; retained_until := None |})
  | _ => Err AttributeError
  end.

(** ** device_certificates.py

    The published files as the certificate library reads them; what it says of
    a signature, and [strptime], are parameters. *)

Record cert := { subject : string; issuer : string; cert_key : string }.
Record crl := { crl_issuer : string; crl_number : Z; next_update : option Z; last_update : Z;
                revoked : list Z }.
Record published := { certs : res (list cert); crls : res (list crl); register : res string; signature : res string }.

Record Issued := { serial : Z; not_after : Z; tenant : string; device : string }.

Section certificates.
Context (strptime : string → string → res Z).
Context (issued_by : cert → cert → bool) (crl_signed : crl → string → bool) (register_signed : string → string → string → bool)
  (sha256 : string → string).

Definition _asn1_time (value : string) : res Z :=
  strptime (if (String.length value =? 13)%nat then "%y%m%d%H%M%SZ" else "%Y%m%d%H%M%SZ") value.

(** [str.splitlines] of ASCII text. *)
Definition is_line_end (c : ascii) : bool :=
  let n := code c in ((10 <=? n) && (n <=? 13) || (28 <=? n) && (n <=? 30))%Z.
Fixpoint splitlines (s : string) : list string :=
  match s with
  | EmptyString => []
  | String c r =>
      if is_line_end c then
        EmptyString :: match r with
                       | String d r' => if bool_decide (c = "013"%char ∧ d = "010"%char) then splitlines r' else splitlines r
                       | EmptyString => []
                       end
      else match splitlines r with
           | [] => [String c EmptyString]
           | w :: ws => String c w :: ws
           end
  end.

Definition parse_line (line : string) : res (Z + Issued) :=
  match str_split "009" line with
  | ["crl_number"; n] => inl <$> or_raise ValueError (int16 n)
  | [s; t; who; dev] =>
      n ← or_raise ValueError (int16 s);
      at_ ← _asn1_time t;
      Ok (inr {| serial := n; not_after := at_; tenant := str_lower who; device := dev |})
  | _ => Err OtherError
  end.

Definition is_comment (line : string) : bool :=
  bool_decide (line = "") || startswith "#" line.

Fixpoint parse_lines (lines : list string) (number : option Z) (issued : list Issued) : res (Z * list Issued) :=
  match lines with
  | [] => n ← or_raise OtherError number; Ok (n, issued)
  | line :: r =>
      if is_comment line then parse_lines r number issued else
      x ← parse_line line;
      match x with
      | inl n => parse_lines r (Some n) issued
      | inr c => parse_lines r number (issued ++ [c])%list
      end
  end.
Definition parse_register (text : string) : res (Z * list Issued) := parse_lines (splitlines text) None [].

Definition _issuing_ca (p : published) : res cert :=
  cs ← certs p;
  match base.filter (λ c, subject c = issuer c) cs, base.filter (λ c, subject c ≠ issuer c) cs with
  | [root], [issuing] => if issued_by issuing root then Ok issuing else Err OtherError
  | _, _ => Err OtherError
  end.

Definition _issuing_crl (p : published) (issuing : cert) : res crl :=
  cs ← crls p;
  match base.filter (λ c, crl_issuer c = subject issuing) cs with
  | [c] => if crl_signed c (cert_key issuing) then Ok c else Err OtherError
  | _ => Err OtherError
  end.

Definition _register (p : published) (issuing : cert) : res string :=
  data ← register p;
  match signature p with
  | Ok sig => if register_signed (cert_key issuing) sig data then Ok data else Err OtherError
  | Err _ => Err OtherError
  end.

(** Times are microseconds. *)
Definition whole_second (t : Z) : Z := (t / 1000000 * 1000000)%Z.

Definition verify (p : published) (now : Z) (c : string) (requested_at : Z) : res (option Removal) :=
  let who := str_lower c in
  issuing ← _issuing_ca p;
  list_ ← _issuing_crl p issuing;
  data ← _register p issuing;
  '(number, issued) ← parse_register data;
  if negb (number =? crl_number list_)%Z then Ok None else
  if match next_update list_ with None => true | Some t => (t <=? now)%Z end then Err OtherError else
  if (last_update list_ <? whole_second requested_at)%Z then Ok None else
  let mine := base.filter (λ i, tenant i = who) issued in
  let unexpired := base.filter (λ i, (now < not_after i)%Z) mine in
  let missing := base.filter (λ i, serial i ∉ revoked list_) unexpired in
  match missing with
  | [] => Ok (Some {| detail := [("revoked", JInt (Z.of_nat (length unexpired)));
                                 ("expired", JInt (Z.of_nat (length mine - length unexpired)));
                                 ("crl_number", JInt (crl_number list_)); ("register_sha256", JStr (sha256 data))];
                      retained_until := None |})
  | _ => Ok None
  end.
End certificates.

(** ** reclaim.py

    The hub's users and the spawner backend's volumes.  Deleting a user removes
    the user's volume, or fails to without the hub's answer showing it; the
    backend may accept a removal it has not done yet. *)

Inductive hub_call :=
  | Answers             (* as asked *)
  | KeepsVolume         (* answered as done, the volume still there *)
  | HubAbsent
  | HubBusy
  | CallFails (e : exn).

Record hub := { volumes : gset string; hub_calls : list hub_call }.

Definition set_volumes (v : gset string) (h : hub) : hub := {| volumes := v; hub_calls := hub_calls h |}.

Definition next_hub : M hub hub_call := λ h,
  match hub_calls h with
  | [] => (Ok Answers, h)
  | x :: r => (Ok x, {| volumes := volumes h; hub_calls := r |})
  end.

Inductive hub_outcome := DELETED | ABSENT | BUSY.
#[export] Instance hub_outcome_eq_dec : EqDecision hub_outcome.
Proof. solve_decision. Defined.

Definition delete_user (u : string) : M hub hub_outcome :=
  c ← next_hub;
  match c with
  | Answers => _ ← modify (λ h, set_volumes (volumes h ∖ {[u]}) h); mret DELETED
  | KeepsVolume => mret DELETED
  | HubAbsent => mret ABSENT
  | HubBusy => mret BUSY
  | CallFails e => raise e
  end.

(** The backend's view; only a name it does not know is a volume gone. *)
Definition remains (u : string) : M hub bool :=
  c ← next_hub;
  match c with CallFails e => raise e | _ => gets (λ h, bool_decide (u ∈ volumes h)) end.
Definition remove (u : string) : M hub unit :=
  c ← next_hub;
  match c with
  | CallFails e => raise e
  | KeepsVolume => mret tt
  | _ => modify (λ h, set_volumes (volumes h ∖ {[u]}) h)
  end.

(** [except Exception] *)
Definition guarded {A} (m : M hub A) (d : A) : M hub A :=
  catch m (λ e, if bool_decide (e = SystemExit) then raise e else mret d).

(** A tenant's users are distinct, so [outcomes] has one entry for each, in order. *)
Fixpoint delete_users (us : list string) : M hub (list (string * hub_outcome)) :=
  match us with
  | [] => mret []
  | u :: r => o ← guarded (delete_user u) BUSY; os ← delete_users r; mret ((u, o) :: os)
  end.

Fixpoint _remaining (us : list string) : M hub (list string) :=
  match us with
  | [] => mret []
  | u :: r => b ← guarded (remains u) true; rest ← _remaining r; mret (if b : bool then u :: rest else rest)
  end.

Fixpoint remove_all (us : list string) : M hub unit :=
  match us with [] => mret tt | u :: r => _ ← guarded (remove u) tt; remove_all r end.

Definition count (o : hub_outcome) (os : list (string * hub_outcome)) : nat :=
  length (base.filter (λ uo, uo.2 = o) os).

Definition reclaim_detail (outcomes : list (string * hub_outcome)) (left_ : list string) : dict :=
  [("hub_users_deleted", JInt (Z.of_nat (count DELETED outcomes)));
   ("users_never_in_hub", JInt (Z.of_nat (count ABSENT outcomes)));
   ("volumes_removed_after_the_hub", JInt (Z.of_nat (length left_)))].

(** A tenant's users and volumes: what to record, or None to leave it. *)
Definition reclaim_tenant (us : list string) : M hub (option dict) :=
  outcomes ← delete_users us;
  if bool_decide (BUSY ∈ outcomes.*2) then mret None else
  left_ ← _remaining outcomes.*1;
  _ ← remove_all left_;
  still ← _remaining left_;
  match still with [] => mret (Some (reclaim_detail outcomes left_)) | _ => mret None end.

Section reclaim_once.
Context {S : Type} (get : S → hub) (set : hub → S → S) (record_ : string → dict → M S unit).

Fixpoint reclaim_once (pending : list (string * list string)) : M S (list (string * dict)) :=
  match pending with
  | [] => mret []
  | (c, us) :: r =>
      d ← zoom get set (reclaim_tenant us);
      match d with
      | None => reclaim_once r
      | Some d => _ ← record_ c d; rest ← reclaim_once r; mret ((c, d) :: rest)
      end
  end.
End reclaim_once.
