(* ===== verification/DeletionProps.v ===== *)
(** * What a deletion's steps leave behind

    Over DeletionStores: what the removal each step returns says of its store,
    and that no step touches another tenant's objects or another user's
    volume. *)

From stdpp Require Import base gmap strings list fin_maps sorting.
From Stdlib Require Import ZArith Lia Ascii.
From S2P Require Import Prelude PyText PyNum PyJson Tenancy TrackingOffboarding ColdExport TenantDeletion DeletionStores.

Local Open Scope string_scope.

(** ** cold_store.py *)

Lemma keys_under_elem p (o : gmap string object) k : k ∈ keys_under p o ↔ startswith p k = true ∧ is_Some (o !! k).
Proof.
  unfold keys_under. rewrite merge_sort_Permutation, list_elem_of_filter, list_elem_of_fmap. split.
  - intros [Hp ([k' v] & -> & H%elem_of_map_to_list)]. split; [done|]. by exists v.
  - intros [Hp [v Hv]]. split; [done|]. exists (k, v). split; [done|]. by apply elem_of_map_to_list.
Qed.

Lemma keys_under_nodup p (o : gmap string object) : NoDup (keys_under p o).
Proof. unfold keys_under. rewrite merge_sort_Permutation. apply NoDup_filter, NoDup_fst_map_to_list. Qed.

Lemma delete_keys_out ks (o : gmap string object) k : k ∉ ks → delete_keys ks o !! k = o !! k.
Proof.
  revert o. induction ks as [|x ks IH]; intros o; [done|]. intros [Hne Hk]%not_elem_of_cons.
  change (delete_keys ks (delete x o) !! k = o !! k). rewrite IH by done. by apply lookup_delete_ne.
Qed.

Lemma delete_keys_in ks (o : gmap string object) k : k ∈ ks → delete_keys ks o !! k = None.
Proof.
  revert o. induction ks as [|x ks IH]; intros o; [by intros ?%elem_of_nil|]. intros Hk.
  change (delete_keys ks (delete x o) !! k = None).
  destruct (decide (k ∈ ks)) as [|Hn]; [by apply IH|]. rewrite delete_keys_out by done.
  apply elem_of_cons in Hk as [->|]; [apply lookup_delete_eq | done].
Qed.

(** Only objects under the prefix go; the hot tables and the record of the
    drops stay as other writers leave them. *)
Definition purged (p : string) (w w' : world) : Prop :=
  (∀ k, objects w' !! k = objects w !! k ∨ startswith p k = true ∧ objects w' !! k = None) ∧
  drops w' = drops w ∧ registry w' = registry w ∧ gone w' = gone w.

#[export] Instance purged_refl p : Reflexive (purged p).
Proof. intros w. split; [|done]. by left. Qed.
#[export] Instance purged_trans p : Transitive (purged p).
Proof.
  intros w1 w2 w3 (O1 & D1 & R1 & G1) (O2 & D2 & R2 & G2). split; [|split; [|split]; congruence]. intros k.
  destruct (O2 k) as [E|]; [|by right]. rewrite E. apply O1.
Qed.

Lemma next_purged p : respects (purged p) next.
Proof. intros w. unfold next, final. destruct (script w); [done|]. split; [by left | done]. Qed.

Lemma query_purged {A} p (f : world → A) : respects (purged p) (query f).
Proof. apply respects_bind; [apply _ | apply next_purged |]. intros v. respecting fail. Qed.

Lemma delete_keys_purged p ks w : (∀ k, k ∈ ks → startswith p k = true) →
  purged p w (set_objects (delete_keys ks (objects w)) w).
Proof.
  intros Hks. split; [|done]. intros k. cbn. destruct (decide (k ∈ ks)) as [Hk|Hk].
  - right. split; [by apply Hks | by apply delete_keys_in].
  - left. by apply delete_keys_out.
Qed.

Lemma delete_batch_purged p ks : (∀ k, k ∈ ks → startswith p k = true) → respects (purged p) (delete_batch ks).
Proof.
  intros Hks. unfold delete_batch. apply respects_bind; [apply _ | apply next_purged |]. intros v.
  assert (∀ n k, k ∈ firstn n ks → startswith p k = true) as Hn.
  { intros n k Hk. apply Hks. by eapply subseteq_take. }
  respecting ltac:(apply respects_modify; intros w; apply delete_keys_purged; eauto).
Qed.

Lemma page_under p w w' ks : list_page p w = (Ok ks, w') → objects w' = objects w ∧ ks = firstn _BATCH (keys_under p (objects w)).
Proof.
  unfold list_page, query. intros (v & w1 & E1 & E2)%bind_inv_ok.
  assert (objects w1 = objects w) as Eo.
  { revert E1. unfold next. destruct (script w); intros [= _ <-]; done. }
  rewrite <- Eo. destruct v as [[]|n|n e|]; by inversion E2.
Qed.

Lemma purge_loop_purged p fuel : ∀ prev n, respects (purged p) (purge_loop fuel p prev n).
Proof.
  induction fuel as [|fuel IH]; intros prev n; [apply respects_ret, _|]. cbn [purge_loop].
  apply (respects_bind_when _ (λ ks, ∀ k, k ∈ ks → startswith p k = true)); [apply query_purged | |].
  { intros w ks w' [_ ->]%page_under k Hk%subseteq_take. by apply keys_under_elem in Hk as []. }
  intros ks Hks. destruct ks as [|x ks]; [apply respects_ret, _|].
  case_bool_decide; [apply respects_raise, _|].
  apply respects_bind; [apply _ | by apply delete_batch_purged |]. intros errors.
  case_match; [apply respects_raise, _ | apply IH].
Qed.

(** What a batch that refused nothing left. *)
Lemma delete_batch_ok ks w n w' : delete_batch ks w = (Ok n, w') → (0 <? n)%nat = false →
  objects w' = objects w ∨ objects w' = delete_keys ks (objects w).
Proof.
  unfold delete_batch. intros (v & w1 & E1 & E2)%bind_inv_ok Hn.
  assert (objects w1 = objects w) as <-.
  { revert E1. unfold next. destruct (script w); intros [= _ <-]; done. }
  destruct v as [[]|m|m e|]; cbn in E2; inversion E2; subst; [by right | | by right | by left].
  right. apply Nat.ltb_ge in Hn. rewrite firstn_all2 by lia. done.
Qed.

(** [purge_loop] ends: each turn empties a page or, listing it again, fails. *)
Definition left_to_do (p : string) (prev : option (list string)) (o : gmap string object) : nat :=
  length (keys_under p o) + (if bool_decide (Some (firstn _BATCH (keys_under p o)) = prev) then 0 else 1).

Lemma keys_under_shrinks p ks (o : gmap string object) k : k ∈ ks → k ∈ keys_under p o →
  (length (keys_under p (delete_keys ks o)) < length (keys_under p o))%nat.
Proof.
  intros Hk Hin. assert (keys_under p (delete_keys ks o) ⊆+ base.filter (λ x, x ≠ k) (keys_under p o)) as Hsub%submseteq_length.
  { apply NoDup_submseteq; [apply keys_under_nodup|]. intros x [Hp Hx]%keys_under_elem.
    destruct (decide (x ∈ ks)) as [Hxk|Hxk]; [rewrite delete_keys_in in Hx by done; by destruct Hx|].
    rewrite delete_keys_out in Hx by done. apply list_elem_of_filter. split; [by intros ->|]. by apply keys_under_elem. }
  assert (length (base.filter (λ x, x ≠ k) (keys_under p o)) < length (keys_under p o))%nat; [|lia].
  clear Hsub. induction (keys_under p o) as [|x l IH]; [by apply elem_of_nil in Hin|]. rewrite filter_cons.
  destruct (decide (x ≠ k)) as [Hx|Hx]; cbn.
  - apply elem_of_cons in Hin as [->|Hin]; [done|]. apply IH in Hin. lia.
  - pose proof (length_filter (λ x, x ≠ k) l). lia.
Qed.

Lemma purge_loop_ends p fuel : ∀ prev n w r w', purge_loop fuel p prev n w = (Ok r, w') →
  (left_to_do p prev (objects w) < fuel)%nat → ∃ m, r = Some m ∧ keys_under p (objects w') = [].
Proof.
  induction fuel as [|fuel IH]; intros prev n w r w' H Hf; [lia|]. cbn [purge_loop] in H.
  apply bind_inv_ok in H as (ks & w1 & E1 & E2). destruct (page_under _ _ _ _ E1) as [Ho ->].
  destruct (firstn _BATCH (keys_under p (objects w))) as [|x ks] eqn:Ek.
  { inversion E2; subst. exists n. split; [done|]. rewrite Ho. by destruct (keys_under p (objects w)). }
  unfold left_to_do in Hf. rewrite Ek in Hf. case_bool_decide as Hprev; [done|].
  apply bind_inv_ok in E2 as (errs & w2 & E2 & E3).
  destruct (0 <? errs)%nat eqn:Herr; [done|]. eapply IH; [exact E3|].
  destruct (delete_batch_ok _ _ _ _ E2 Herr) as [->| ->]; rewrite Ho; unfold left_to_do.
  - rewrite Ek, bool_decide_true by done. lia.
  - assert (x ∈ x :: ks) as Hx by left.
    assert (x ∈ keys_under p (objects w)) as Hin by (rewrite <- Ek in Hx; by eapply subseteq_take).
    pose proof (keys_under_shrinks p (x :: ks) (objects w) x Hx Hin) as Hlt. case_bool_decide; lia.
Qed.

Lemma keys_under_size p (o : gmap string object) : (length (keys_under p o) ≤ size o)%nat.
Proof.
  unfold keys_under. rewrite merge_sort_Permutation. etrans; [apply length_filter|].
  by rewrite length_map, length_map_to_list.
Qed.

Lemma cold_purge_ok bucket c us at_ w r w' : cold_purge bucket c us at_ w = (Ok r, w') →
  ∃ p m, cold_key_prefix c = Ok p ∧ keys_under p (objects w') = [] ∧
    r = Some {| detail := [("bucket", JStr bucket); ("prefix", JStr p); ("objects", JInt m)]; retained_until := None |}.
Proof.
  unfold cold_purge. intros (p & w1 & [Hp ->]%lift_inv & H)%bind_inv_ok.
  apply bind_inv_ok in H as (fuel & w2 & [= <- <-] & H). apply bind_inv_ok in H as (m & w3 & E & H).
  destruct (purge_loop_ends _ _ _ _ _ _ _ E) as (k & -> & Hk).
  { unfold left_to_do. pose proof (keys_under_size p (objects w)). destruct (bool_decide _); lia. }
  inversion H; subst. by exists p, k.
Qed.

Lemma cold_purge_purged bucket c us at_ w :
  cold_key_prefix c = Err ValueError ∧ final (cold_purge bucket c us at_) w = w ∨
  ∃ p, cold_key_prefix c = Ok p ∧ purged p w (final (cold_purge bucket c us at_) w).
Proof.
  destruct (cold_key_prefix c) as [p|e] eqn:Hp.
  - right. exists p. split; [done|]. revert w. change (respects (purged p) (cold_purge bucket c us at_)).
    apply (respects_bind_when _ (λ q, cold_key_prefix c = Ok q)); [apply respects_lift, _ | by apply yields_lift |].
    intros q Hq. assert (q = p) as -> by congruence. respecting ltac:(apply purge_loop_purged).
  - left. split; [|unfold final, cold_purge; by rewrite Hp].
    unfold cold_key_prefix, cold_object_prefix in Hp.
    destruct (canonical_company_id c) eqn:E; [done|]. apply canonical_value_error in E as ->. by inversion Hp.
Qed.

(** the purge of the cold layer ends, and what it records is so: when it
    returns, no object is left under the tenant's prefix; whatever it returns or
    raises, no object of another tenant has changed. *)
Theorem cold_purge_exact bucket c us at_ (w : world) r w' : cold_purge bucket c us at_ w = (r, w') →
  (∀ removal, r = Ok removal → is_Some removal ∧
     ∃ p, cold_key_prefix c = Ok p ∧ ∀ k, startswith p k = true → objects w' !! k = None) ∧
  ∀ c' p' k, canonical_company_id c' ≠ canonical_company_id c → cold_key_prefix c' = Ok p' →
    startswith p' k = true → objects w' !! k = objects w !! k.
Proof.
  intros E. split.
  - intros removal ->. destruct (cold_purge_ok _ _ _ _ _ _ _ E) as (p & m & Hp & Hk & ->). split; [done|].
    exists p. split; [done|]. intros k Hs. apply eq_None_not_Some. intros Hin.
    assert (k ∈ keys_under p (objects w')) as Hin' by by apply keys_under_elem.
    rewrite Hk in Hin'. by apply elem_of_nil in Hin'.
  - intros c' p' k Hne Hp' Hk. pose proof (cold_purge_purged bucket c us at_ w) as H. unfold final in H. rewrite E in H. cbn in H.
    destruct H as [[_ ->]|(p & Hp & Ho & _)]; [done|]. destruct (Ho k) as [|[Hs _]]; [done|].
    exfalso. apply Hne. by eapply (prefix_exclusive c' c p' p k).
Qed.

(** ** job.py's broker step *)

Lemma broker_step_until retention clock r : broker_step retention clock = Ok r → retained_until r = Some (clock + retention)%Z.
Proof. unfold broker_step. intros (s & _ & H)%res_bind_inv_ok. by apply res_bind_inv_ok in H as (h & _ & [= <-]). Qed.

(** ** tracking_store.py *)

(** The gateway answers for the tenant that nothing of it remains. *)
Definition gateway_clear (opener : string → res json) (url c : string) : Prop :=
  ∃ cid answer d, canonical_company_id c = Ok cid ∧
    opener (url +:+ "/api/2.0/industryflow-operator/tenants/" +:+ cid) = Ok answer ∧
    py_get "company_id" answer = Ok (JStr cid) ∧ py_item "remaining" answer = Ok (JDict d) ∧
    ∀ kv, kv ∈ d → truthy kv.2 = false.

Lemma remaining_none (d : dict) : existsb (λ kv, truthy kv.2) d = false ↔ ∀ kv, kv ∈ d → truthy kv.2 = false.
Proof.
  rewrite <- not_true_iff_false, existsb_exists. setoid_rewrite <- list_elem_of_In. split.
  - intros H kv Hin. destruct (truthy kv.2) eqn:E; [|done]. exfalso. eauto.
  - intros H (kv & Hin & E). rewrite H in E; done.
Qed.

(** The tracking store is recorded when the gateway is clear, and only then. *)
Lemma tracking_purge_some opener url c r :
  tracking_purge opener url c = Ok (Some r) → gateway_clear opener url c ∧ retained_until r = None.
Proof.
  unfold tracking_purge. intros (cid & Hc & H)%res_bind_inv_ok. apply res_bind_inv_ok in H as (answer & Ha & H).
  apply res_bind_inv_ok in H as (who & Hw & H).
  assert (who = JStr cid) as -> by (destruct who; cbn in H; try done; case_bool_decide; [congruence | done]).
  cbn in H. rewrite bool_decide_true in H by done. apply res_bind_inv_ok in H as (rem & Hr & H).
  destruct rem as [| | | | | |d]; try done. destruct (existsb _ d) eqn:E; [done|]. injection H as <-. split; [|done].
  exists cid, answer, d. repeat split; try done. by apply remaining_none.
Qed.
Lemma tracking_purge_clear opener url c : gateway_clear opener url c → ∃ r, tracking_purge opener url c = Ok (Some r).
Proof.
  intros (cid & answer & d & Hc & Ha & Hw & Hr & Hd). unfold tracking_purge. rewrite Hc. cbn. rewrite Ha. cbn. rewrite Hw. cbn.
  rewrite bool_decide_true by done. cbn. rewrite Hr. cbn. apply remaining_none in Hd. rewrite Hd. by eexists.
Qed.

(** ** device_certificates.py *)

Section certificates.
Context (strptime : string → string → res Z).
Context (issued_by : cert → cert → bool) (crl_signed : crl → string → bool) (register_signed : string → string → string → bool)
  (sha256 : string → string).
Abbreviation verify := (verify strptime issued_by crl_signed register_signed sha256).

(** [p] is one issuing authority's: its certificate under the one root, its CRL
    and its register, all signed. *)
Definition authentic (p : published) (ca : cert) (l : crl) (number : Z) (issued : list Issued) : Prop :=
  (∃ cs root, certs p = Ok cs ∧ base.filter (λ c, subject c = issuer c) cs = [root] ∧
     base.filter (λ c, subject c ≠ issuer c) cs = [ca] ∧ issued_by ca root = true) ∧
  (∃ ls, crls p = Ok ls ∧ base.filter (λ c, crl_issuer c = subject ca) ls = [l] ∧ crl_signed l (cert_key ca) = true) ∧
  ∃ data sig, register p = Ok data ∧ signature p = Ok sig ∧ register_signed (cert_key ca) sig data = true ∧
    parse_register strptime data = Ok (number, issued).

(** Every unexpired certificate of the tenant is revoked by a CRL of the
    register's number, current, and signed no earlier than the second of the
    request. *)
Definition revoked_all (l : crl) (number : Z) (issued : list Issued) (now : Z) (c : string) (at_ : Z) : Prop :=
  number = crl_number l ∧ (∃ t, next_update l = Some t ∧ (now < t)%Z) ∧
  (whole_second at_ ≤ last_update l)%Z ∧
  ∀ i, i ∈ issued → tenant i = str_lower c → (now < not_after i)%Z → serial i ∈ revoked l.

Lemma issuing_ca_inv p ca : _issuing_ca issued_by p = Ok ca ↔
  ∃ cs root, certs p = Ok cs ∧ base.filter (λ c, subject c = issuer c) cs = [root] ∧
    base.filter (λ c, subject c ≠ issuer c) cs = [ca] ∧ issued_by ca root = true.
Proof.
  unfold _issuing_ca. split.
  - intros (cs & -> & H)%res_bind_inv_ok. repeat case_match; simplify_eq. eauto 10.
  - intros (cs & root & -> & E1 & E2 & E3). cbn. by rewrite E1, E2, E3.
Qed.

Lemma issuing_crl_inv p ca l : _issuing_crl crl_signed p ca = Ok l ↔
  ∃ ls, crls p = Ok ls ∧ base.filter (λ c, crl_issuer c = subject ca) ls = [l] ∧ crl_signed l (cert_key ca) = true.
Proof.
  unfold _issuing_crl. split.
  - intros (cs & -> & H)%res_bind_inv_ok. repeat case_match; simplify_eq. eauto 10.
  - intros (ls & -> & E1 & E2). cbn. by rewrite E1, E2.
Qed.

Lemma register_inv p ca data : _register register_signed p ca = Ok data ↔
  ∃ sig, register p = Ok data ∧ signature p = Ok sig ∧ register_signed (cert_key ca) sig data = true.
Proof.
  unfold _register. split.
  - intros (d & -> & H)%res_bind_inv_ok. repeat case_match; simplify_eq. eauto 10.
  - intros (sig & -> & -> & E). cbn. by rewrite E.
Qed.

Lemma none_missing l (issued : list Issued) now who :
  base.filter (λ i, serial i ∉ revoked l) (base.filter (λ i, (now < not_after i)%Z) (base.filter (λ i, tenant i = who) issued)) = [] ↔
  ∀ i, i ∈ issued → tenant i = who → (now < not_after i)%Z → serial i ∈ revoked l.
Proof.
  split.
  - intros E i Hi Ht Ha. destruct (decide (serial i ∈ revoked l)) as [|Hn]; [done|]. exfalso.
    apply (not_elem_of_nil i). rewrite <- E. by rewrite !list_elem_of_filter.
  - intros H. destruct (base.filter _ _) as [|i r] eqn:E; [done|]. exfalso.
    assert (i ∈ i :: r) as Hi by left. rewrite <- E, !list_elem_of_filter in Hi. naive_solver.
Qed.

Lemma verify_iff p now c at_ :
  is_Some (res_opt (verify p now c at_) ≫= id) ↔
  ∃ ca l number issued, authentic p ca l number issued ∧ revoked_all l number issued now c at_.
Proof.
  unfold DeletionStores.verify, authentic, revoked_all. split.
  - destruct (_issuing_ca issued_by p) as [ca|] eqn:E1; [|by intros []].
    cbn. destruct (_issuing_crl crl_signed p ca) as [l|] eqn:E2; [|by intros []].
    cbn. destruct (_register register_signed p ca) as [data|] eqn:E3; [|by intros []].
    cbn. destruct (parse_register strptime data) as [[number issued]|] eqn:E4; [|by intros []].
    cbn. destruct (number =? crl_number l)%Z eqn:E5; cbn; [|by intros []].
    destruct (next_update l) as [t|] eqn:E6; [|by intros []].
    destruct (t <=? now)%Z eqn:E7; [by intros []|].
    destruct (last_update l <? whole_second at_)%Z eqn:E8; [by intros []|].
    destruct (base.filter _ (base.filter _ _)) eqn:E9; [intros _|by intros []].
    apply issuing_ca_inv in E1. apply issuing_crl_inv in E2. apply register_inv in E3 as (sig & ? & ? & ?).
    exists ca, l, number, issued. split; [naive_solver|].
    split; [lia|]. split; [exists t; split; [done | lia]|]. split; [lia|]. by apply none_missing.
  - intros (ca & l & number & issued & (H1%issuing_ca_inv & H2%issuing_crl_inv & data & sig & Hd & Hs & Hv & Hp) & Hn & (t & Ht & Hnow) & Hl & Hall).
    rewrite H1. cbn. rewrite H2. cbn.
    assert (_register register_signed p ca = Ok data) as -> by (apply register_inv; eauto).
    cbn. rewrite Hp. cbn. rewrite (proj2 (Z.eqb_eq _ _) Hn). cbn. rewrite Ht, (proj2 (Z.leb_gt _ _) Hnow), (proj2 (Z.ltb_ge _ _) Hl).
    apply none_missing in Hall. rewrite Hall. by eexists.
Qed.

(** C19: the device certificates are recorded exactly when they are revoked: the
    step returns a removal if and only if the published files verify against the
    one root and say that every unexpired certificate of the tenant is revoked,
    by a CRL that is current and no older than the request. *)
Theorem certificates_verified p now c at_ :
  is_Some (res_opt (verify p now c at_) ≫= id) ↔
  ∃ ca l number issued, authentic p ca l number issued ∧ revoked_all l number issued now c at_.
Proof. apply verify_iff. Qed.
End certificates.

(** ** reclaim.py *)

(** Volumes of [us] may go, and no others. *)
Definition reclaims (us : list string) (h h' : hub) : Prop :=
  volumes h' ⊆ volumes h ∧ ∀ u, u ∉ us → u ∈ volumes h → u ∈ volumes h'.

#[export] Instance reclaims_refl us : Reflexive (reclaims us).
Proof. by intros h. Qed.
#[export] Instance reclaims_trans us : Transitive (reclaims us).
Proof. intros h1 h2 h3 [S1 K1] [S2 K2]. split; [by etrans | auto]. Qed.

Lemma next_hub_reclaims us : respects (reclaims us) next_hub.
Proof. intros h. unfold next_hub, final. by destruct (hub_calls h). Qed.

Lemma drop_volume_reclaims us u : u ∈ us → respects (reclaims us) (modify (λ h, set_volumes (volumes h ∖ {[u]}) h)).
Proof. intros Hu. apply respects_modify. intros h. split; cbn; set_solver. Qed.

Ltac reclaiming := respecting ltac:(first [apply next_hub_reclaims | by apply drop_volume_reclaims]).

Lemma remaining_reclaims us l : respects (reclaims us) (_remaining l).
Proof. induction l as [|u l IH]; [apply respects_ret, _|]. cbn. unfold guarded, remains. respecting ltac:(first [apply next_hub_reclaims | exact IH]). Qed.

Lemma delete_users_reclaims us l : l ⊆ us → respects (reclaims us) (delete_users l).
Proof.
  induction l as [|u l IH]; intros Hl; [apply respects_ret, _|]. cbn. unfold guarded, delete_user.
  assert (u ∈ us) by (apply Hl; left). assert (l ⊆ us) as Hl' by (intros x Hx; apply Hl; by right).
  respecting ltac:(first [apply next_hub_reclaims | by apply drop_volume_reclaims | exact (IH Hl')]).
Qed.

Lemma remove_all_reclaims us l : l ⊆ us → respects (reclaims us) (remove_all l).
Proof.
  induction l as [|u l IH]; intros Hl; [apply respects_ret, _|]. cbn. unfold guarded, remove.
  assert (u ∈ us) by (apply Hl; left). assert (l ⊆ us) as Hl' by (intros x Hx; apply Hl; by right).
  respecting ltac:(first [apply next_hub_reclaims | by apply drop_volume_reclaims | exact (IH Hl')]).
Qed.

Lemma delete_users_fst l h os h' : delete_users l h = (Ok os, h') → os.*1 = l.
Proof.
  revert h os. induction l as [|u l IH]; intros h os; [by intros [= <- _]|]. cbn.
  intros (o & h1 & _ & H)%bind_inv_ok. apply bind_inv_ok in H as (os' & h2 & E & H). inversion H; subst. cbn. f_equal. by eapply IH.
Qed.

(** A user not among the remaining has no volume. *)
Lemma remaining_sound l : ∀ h left_ h', _remaining l h = (Ok left_, h') →
  volumes h' = volumes h ∧ left_ ⊆ l ∧ ∀ u, u ∈ l → u ∉ left_ → u ∉ volumes h.
Proof.
  induction l as [|u l IH]; intros h left_ h'; [by intros [= <- <-]|]. cbn.
  intros (b & h1 & E1 & H)%bind_inv_ok. apply bind_inv_ok in H as (rest & h2 & E2 & E3).
  assert (volumes h1 = volumes h ∧ (b = false → u ∉ volumes h)) as [V1 B].
  { revert E1. unfold guarded, catch, remains, mbind, M_bind, next_hub, gets, raise. destruct (hub_calls h) as [|[] r]; cbn;
      try (intros [= <- <-]; split; [done|]; intros ?%bool_decide_eq_false; done).
    case_bool_decide; intros [= <- <-]; done. }
  destruct (IH _ _ _ E2) as (V2 & S2 & R2). inversion E3; subst. split; [congruence|].
  destruct b; (split; [set_solver|]); intros x [->|Hx]%elem_of_cons Hn; first [by apply B | set_solver].
Qed.

Lemma reclaim_tenant_reclaims us : respects (reclaims us) (reclaim_tenant us).
Proof.
  unfold reclaim_tenant. apply (respects_bind_when _ (λ os, os.*1 = us)); [by apply delete_users_reclaims | |].
  { intros h os h'. apply delete_users_fst. }
  intros os ->. case_bool_decide; [apply respects_ret, _|].
  apply (respects_bind_when _ (λ l, l ⊆ us)); [apply remaining_reclaims | |].
  { intros h l h' E. by destruct (remaining_sound _ _ _ _ E) as (_ & ? & _). }
  intros l Hl. respecting ltac:(first [by apply remove_all_reclaims | apply remaining_reclaims]).
Qed.

Lemma reclaim_tenant_ok us h d h' : reclaim_tenant us h = (Ok (Some d), h') → ∀ u, u ∈ us → u ∉ volumes h'.
Proof.
  unfold reclaim_tenant. intros (os & h1 & E1 & H)%bind_inv_ok. pose proof (delete_users_fst _ _ _ _ E1) as <-.
  case_bool_decide; [done|]. apply bind_inv_ok in H as (l & h2 & E2 & H). apply bind_inv_ok in H as ([] & h3 & E3 & H).
  apply bind_inv_ok in H as (still & h4 & E4 & H). destruct still; [|done]. inversion H; subst. intros u Hu.
  destruct (remaining_sound _ _ _ _ E2) as (V2 & Hl & R2). destruct (remaining_sound _ _ _ _ E4) as (V4 & _ & R4).
  rewrite V4. pose proof (remove_all_reclaims l l (reflexivity l) h2) as [Hsub _]. unfold final in Hsub. rewrite E3 in Hsub. cbn in Hsub.
  destruct (decide (u ∈ l)) as [Hin|Hin]; [apply R4; [done | apply not_elem_of_nil]|].
  intros Hv. apply Hsub in Hv. rewrite V2 in Hv. by apply (R2 u).
Qed.
