(* ===== verification/CapabilityPurge.v ===== *)
(** * The deletion's purge of the capability store

    services/tenant_delete/capability_store.py, over the store and the process
    of HubCapabilities: between any two commands the store's other users act
    and time passes. *)

From stdpp Require Import base strings list gmap sorting.
From Stdlib Require Import ZArith Lia.
From S2P Require Import Prelude PyText PyNum PyJson Tenancy CapabilityAudit Sessions SqlBinding HubCapabilities TenantDeletion.

Local Open Scope string_scope.

#[local] Arguments uuid_str : simpl never.
#[local] Arguments uuid_parse : simpl never.
#[local] Arguments t_of : simpl never.
#[local] Arguments clean_text : simpl never.

Definition _UPLOAD_INDEX_PREFIX : string := "nbcap-upload-user:".
Definition _REFRESH_PREFIX : string := "refresh:".
Definition _REFRESH_USER_PREFIX : string := "refresh-user:".
Definition _FEATURES_PREFIX : string := "features:".
Definition _LATEST_PREFIX : string := "sensor:latest:".
Definition ROTATED_REFRESH_PREFIX : string := "refresh-rotated:".

Section purge.
Context `{J : JsonCodec} `{I : IsoCodec} (py_repr : json → string).

(** ** Commands

    A SCAN of a prefix is one command: it returns the keys that are there.  GET
    of a key of another type is an error. *)

Definition live_keys (now : Z) (d : capdb) : list string :=
  (base.filter (λ k, is_Some (vget now k d)) (map fst (map_to_list (values d))) ++
   base.filter (λ k, hgetall now k d ≠ []) (map fst (map_to_list (hashes d))) ++
   base.filter (λ k, sget now k d ≠ ∅) (map fst (map_to_list (sets d))))%list.
Definition scan_iter (prefix : string) : M hub (list string) :=
  redis (λ now d, (base.filter (λ k, startswith prefix k = true) (live_keys now d), d)).

Definition typed_get (k : string) (now : Z) (d : capdb) : res (option bytes) :=
  match vget now k d with
  | Some v => Ok (Some v)
  | None => if bool_decide (hgetall now k d = [] ∧ sget now k d = ∅) then Ok None else Err RedisError
  end.
Definition get (k : string) : M hub (option bytes) := r ← redis (λ now d, (typed_get k now d, d)); lift r.
Definition hkeys (k : string) : M hub (list string) := l ← redis (db_items k); mret l.*1.
Definition smembers (k : string) : M hub (list string) :=
  redis (λ now d, (elements (sget now k d), d)).
Definition set_ (k : string) (v : bytes) : M hub unit :=
  redis (λ _ d, (tt, with_values <[k := (v, None)]> (with_hashes (delete k) (with_sets (delete k) d)))).

(** ** What a value says *)

Definition loaded (raw : option bytes) : res (option json) :=
  match raw with None => Ok None | Some raw => load raw end.

Definition _bound_to (raw : option bytes) (company_id : string) : res bool :=
  v ← loaded raw;
  Ok match v with
     | Some (JDict record) =>
         bool_decide (str_lower (py_str py_repr (default (JStr "") (dict_lookup "company_id" record))) = company_id)
     | _ => false
     end.

Definition _names_user (raw : option bytes) (users : list string) : res bool :=
  v ← loaded raw;
  Ok match v with
     | Some (JDict record) => bool_decide (py_str py_repr (default (JStr "") (dict_lookup "uid" record)) ∈ users)
     | _ => false
     end.

Definition _entry_facts (raw : option bytes) : res facts :=
  v ← loaded raw;
  Ok match v with Some (JDict record) => SqlBinding._entry_facts record | _ => no_facts end.

(** ** The purge *)

Fixpoint such {A} (test : A → M hub bool) (l : list A) : M hub (list A) :=
  match l with [] => mret [] | x :: r => b ← test x; rest ← such test r; mret (if b : bool then x :: rest else rest) end.

Definition _matching (prefix company_id : string) : M hub (list string) :=
  keys ← scan_iter prefix;
  such (λ k, if startswith _SUSPENDED_PREFIX k then mret false else raw ← get k; lift (_bound_to raw company_id)) keys.

Fixpoint gather (us : list string) : M hub (list string * list string * list string) :=
  match us with
  | [] => mret ([], [], [])
  | u :: r =>
      let index := _USER_INDEX_PREFIX +:+ u in
      let upload := _UPLOAD_INDEX_PREFIX +:+ u in
      let refresh_index := _REFRESH_USER_PREFIX +:+ u in
      hs ← hkeys index;
      us_ ← smembers upload;
      ts ← smembers refresh_index;
      '(handles, indexes, sessions) ← gather r;
      mret ((map (λ h, _KEY_PREFIX +:+ h) (hs ++ us_) ++ handles)%list,
            [index; upload; refresh_index; user_ended_key u] ++ indexes,
            (map (λ t, _REFRESH_PREFIX +:+ t) ts ++ sessions))%list
  end.

Definition deleted_event (fs : facts) (company_id : string) : event_args :=
  {| a_kind := "revoked"; a_plane := "tenant_delete"; a_user := fact_user fs;
     a_company_id := Some (default company_id (fact_company_id fs)); a_audience := fact_audience fs;
     a_handle_id := fact_handle_id fs; a_digest := None; a_reason := Some (t_of "tenant_deleted"); a_detail := None |}.

Definition _revoke (key company_id : string) : M hub Z :=
  raw ← get key;
  fs ← lift (_entry_facts raw);
  t ← gets now;
  e ← lift (event (deleted_event fs company_id) t);
  c ← lift (delete_recorded_args key e);
  store_eval c.

Fixpoint revoke_all (keys : list string) (company_id : string) : M hub unit :=
  match keys with [] => mret tt | k :: r => _ ← _revoke k company_id; revoke_all r company_id end.

Definition _DELETE_BATCH : nat := 500.
Fixpoint delete_all (fuel : nat) (keys : list string) : M hub unit :=
  match fuel, keys with
  | S f, _ :: _ => _ ← redis (db_delete (firstn _DELETE_BATCH keys)); delete_all f (skipn _DELETE_BATCH keys)
  | _, _ => mret tt
  end.

(** [sorted(handles)] of a set *)
Definition sorted_set (l : list string) : list string := merge_sort String.le (remove_dups l).

Definition purge (text : string → bytes) (company : string) (user_ids : list string) (requested_at : Z) : M hub (option Removal) :=
  let company_id := str_lower company in
  bound ← _matching _KEY_PREFIX company_id;
  '(named, indexes, sessions) ← gather user_ids;
  let handles := sorted_set (bound ++ named) in
  rotated ← scan_iter ROTATED_REFRESH_PREFIX;
  rotations ← such (λ k, raw ← get k; lift (_names_user raw user_ids)) rotated;
  features ← scan_iter (_FEATURES_PREFIX +:+ company_id +:+ ":");
  latest ← _matching _LATEST_PREFIX company_id;
  _ ← revoke_all handles company_id;
  let keys := (sessions ++ indexes ++ rotations ++ features ++ latest)%list in
  _ ← delete_all (length keys) keys;
  _ ← set_ (_SUSPENDED_PREFIX +:+ company_id) (text "1");
  let n (l : list string) := JInt (Z.of_nat (length l)) in
  mret (Some {| detail := [("handles", n handles); ("sessions", n sessions); ("user_indexes", n indexes);
                           ("refresh_rotations", n rotations); ("feature_snapshots", n features);
                           ("latest_readings", n latest)];
                retained_until := None |}).

(** ** What a purge leaves *)

Definition kept (k : string) (v : bytes) (s : hub) : Prop := vget (now s) k (db s) = Some v.

(** While the store's other users only remove values, whatever is kept at the
    end of a command was kept throughout. *)
Definition from (s s' : hub) : Prop := Forall removing (steps s') ∧ ∀ k v, kept k v s' → kept k v s.

Lemma from_run {A} (m : M hub A) s r s' : respects shrinks m → m s = (r, s') → Forall removing (steps s) → from s s'.
Proof. intros Hm E Hs. specialize (Hm s Hs). unfold final in Hm. rewrite E in Hm. destruct Hm as (? & _ & ?). by split. Qed.

Lemma scan_shrinks p : respects shrinks (scan_iter p).
Proof. by apply redis_shrinks. Qed.
Lemma get_shrinks k : respects shrinks (get k).
Proof. apply respects_bind; [apply _ | by apply redis_shrinks |]. intros r. apply respects_lift, _. Qed.

Lemma vget_with_hashes t k f d : vget t k (with_hashes f d) = vget t k d.
Proof. done. Qed.
Lemma vget_with_sets t k f d : vget t k (with_sets f d) = vget t k d.
Proof. done. Qed.

Lemma vget_deleted t k k' v d : vget t k (with_values (delete k') d) = Some v → k ≠ k' ∧ vget t k d = Some v.
Proof.
  unfold vget. cbn. destruct (decide (k = k')) as [->|Hne]; [by rewrite lookup_delete_eq|]. by rewrite lookup_delete_ne.
Qed.

Lemma vget_deletes t k ks v d : vget t k (db_delete ks t d).2 = Some v → (k ∉ ks) ∧ vget t k d = Some v.
Proof.
  cbn. rewrite vget_with_sets, vget_with_hashes. unfold vget. cbn.
  induction ks as [|x ks IH]; cbn; [intros H; split; [apply not_elem_of_nil | exact H]|].
  destruct (decide (k = x)) as [->|Hne]; [by rewrite lookup_delete_eq|]. rewrite lookup_delete_ne by done.
  intros [Hn Hv]%IH. split; [by apply not_elem_of_cons | done].
Qed.

Lemma vget_delete_recorded t k k' f v d : vget t k (db_delete_recorded k' f t d).2 = Some v → k ≠ k' ∧ vget t k d = Some v.
Proof. unfold db_delete_recorded. destruct (vget t k' d); apply vget_deleted. Qed.

Lemma delete_shrinks ks : respects shrinks (redis (db_delete ks)).
Proof. apply redis_shrinks. intros t d k v H. by apply (vget_deletes t k ks v d). Qed.
Lemma delete_recorded_shrinks k f : respects shrinks (redis (db_delete_recorded k f)).
Proof. apply redis_shrinks. intros t d k' v H. by eapply vget_delete_recorded. Qed.

Lemma such_shrinks {A} (test : A → M hub bool) l : (∀ x, respects shrinks (test x)) → respects shrinks (such test l).
Proof. intros Ht. induction l as [|x l IH]; cbn; respecting ltac:(first [apply Ht | exact IH]). Qed.

Lemma matching_shrinks p c : respects shrinks (_matching p c).
Proof.
  unfold _matching. respecting ltac:(first [apply scan_shrinks | apply get_shrinks | apply such_shrinks; intros ?]).
Qed.

Lemma gather_shrinks us : respects shrinks (gather us).
Proof.
  induction us as [|u us IH]; cbn; unfold hkeys, smembers;
    respecting ltac:(first [exact IH | by apply redis_shrinks]).
Qed.

Lemma revoke_shrinks k c : respects shrinks (_revoke k c).
Proof.
  unfold _revoke, store_eval. respecting ltac:(first [apply get_shrinks | apply delete_recorded_shrinks]).
Qed.
Lemma revoke_all_shrinks ks c : respects shrinks (revoke_all ks c).
Proof. induction ks as [|k ks IH]; cbn; respecting ltac:(first [apply revoke_shrinks | exact IH]). Qed.
Lemma delete_all_shrinks f : ∀ ks, respects shrinks (delete_all f ks).
Proof. induction f as [|f IH]; intros [|k ks]; cbn; respecting ltac:(first [apply delete_shrinks | apply IH]). Qed.

(** A command that answers. *)
Lemma redis_answers {A} (op : Z → capdb → A * capdb) s a s' : redis op s = (Ok a, s') →
  let r := op (now (found s)) (db (found s)) in a = r.1 ∧ s' = set_db r.2 (found s).
Proof. rewrite redis_run. destruct (how s); intros [= <- <-]; done. Qed.

Lemma scan_sees p s ks s' k v : scan_iter p s = (Ok ks, s') → kept k v s' → startswith p k = true → k ∈ ks.
Proof.
  intros [-> ->]%redis_answers Hk Hp. cbn. apply list_elem_of_filter. split; [done|].
  unfold kept in Hk. cbn in Hk. apply elem_of_app. left. apply list_elem_of_filter. split; [by eexists|].
  unfold vget in Hk. destruct (values (db (found s)) !! k) as [x|] eqn:E; [|done].
  apply list_elem_of_fmap. exists (k, x). split; [done|]. by apply elem_of_map_to_list.
Qed.

Lemma get_sees k s raw s' v : get k s = (Ok raw, s') → kept k v s' → raw = Some v.
Proof.
  intros (r & s1 & E1 & E2)%bind_inv_ok Hk. apply redis_answers in E1 as [-> ->]. apply lift_inv in E2 as [H ->]. unfold kept in Hk. cbn in *.
  unfold typed_get in H. rewrite Hk in H. congruence.
Qed.

(** What a test on values keeps of a scan: every key that is still there has
    been tested on the value it has. *)
Lemma such_sees (test : option bytes → res bool) (skip : string → bool) l :
  ∀ s out s' k v, such (λ k, if skip k then mret false else raw ← get k; lift (test raw)) l s = (Ok out, s') →
  Forall removing (steps s) → kept k v s' → k ∈ l → skip k = false →
  ∃ b, test (Some v) = Ok b ∧ (b = true → k ∈ out).
Proof.
  induction l as [|x l IH]; intros s out s' k v E Hs Hk Hin Hskip; [by apply elem_of_nil in Hin|].
  cbn in E. apply bind_inv_ok in E as (b & s1 & E1 & E). apply bind_inv_ok in E as (rest & s2 & E2 & E). inversion E; subst.
  assert (from s s1) as [Hs1 _].
  { eapply from_run; [|exact E1|done]. respecting ltac:(apply get_shrinks). }
  assert (from s1 s') as [_ Hback].
  { eapply from_run; [|exact E2|done]. apply such_shrinks. intros y. respecting ltac:(apply get_shrinks). }
  destruct (decide (k = x)) as [->|Hne].
  - rewrite Hskip in E1. apply bind_inv_ok in E1 as (raw & s3 & E3 & E4). apply lift_inv in E4 as [E4 ->].
    rewrite (get_sees _ _ _ _ v E3) in E4 by by apply Hback. exists b. split; [done|]. intros ->. left.
  - apply elem_of_cons in Hin as [|Hin]; [done|]. destruct (IH _ _ _ _ _ E2 Hs1 Hk Hin Hskip) as (b' & Hb & Hout).
    exists b'. split; [done|]. intros H. apply Hout in H. destruct b; [by right | done].
Qed.

Lemma matching_sees p c s ks s' k v : _matching p c s = (Ok ks, s') → Forall removing (steps s) → kept k v s' →
  startswith p k = true → startswith _SUSPENDED_PREFIX k = false → ∃ b, _bound_to (Some v) c = Ok b ∧ (b = true → k ∈ ks).
Proof.
  intros (l & s1 & E1 & E2)%bind_inv_ok Hs Hk Hp Hskip.
  destruct (from_run _ _ _ _ (scan_shrinks p) E1 Hs) as [Hs1 _].
  assert (from s1 s') as [_ Hback].
  { eapply from_run; [|exact E2|done]. apply such_shrinks. intros y. respecting ltac:(apply get_shrinks). }
  eapply (such_sees (λ raw, _bound_to raw c) (startswith _SUSPENDED_PREFIX)); [exact E2|done..| |done]. eapply scan_sees; [exact E1 | by apply Hback | done].
Qed.

Lemma revoke_gone k c s r s' v : _revoke k c s = (Ok r, s') → ¬ kept k v s'.
Proof.
  intros (raw & s1 & _ & H)%bind_inv_ok. apply bind_inv_ok in H as (fs & s2 & _ & H). apply bind_inv_ok in H as (t & s3 & _ & H).
  apply bind_inv_ok in H as (e & s4 & _ & H). apply bind_inv_ok in H as (x & s5 & [Hc ->]%lift_inv & H).
  assert (x = CallDelete k e) as ->.
  { revert Hc. unfold delete_recorded_args. repeat case_match; congruence. }
  apply redis_answers in H as [_ ->]. intros H. by apply vget_delete_recorded in H as [? _].
Qed.

Lemma revoke_all_gone ks c : ∀ s s' k v, revoke_all ks c s = (Ok tt, s') → Forall removing (steps s) → k ∈ ks → ¬ kept k v s'.
Proof.
  induction ks as [|x ks IH]; intros s s' k v E Hs Hin; [by apply elem_of_nil in Hin|].
  cbn in E. apply bind_inv_ok in E as (r & s1 & E1 & E2).
  destruct (from_run _ _ _ _ (revoke_shrinks x c) E1 Hs) as [Hs1 _].
  apply elem_of_cons in Hin as [->|Hin]; [|by eapply IH]. intros Hk.
  destruct (from_run _ _ _ _ (revoke_all_shrinks ks c) E2 Hs1) as [_ Hback]. by eapply revoke_gone, Hback.
Qed.

Lemma delete_all_gone f : ∀ ks s s' k v, delete_all f ks s = (Ok tt, s') → (length ks ≤ f)%nat →
  Forall removing (steps s) → k ∈ ks → ¬ kept k v s'.
Proof.
  induction f as [|f IH]; intros ks s s' k v E Hf Hs Hin; [destruct ks; [by apply elem_of_nil in Hin | cbn in Hf; lia]|].
  destruct ks as [|x ks]; [by apply elem_of_nil in Hin|]. cbn [delete_all] in E.
  apply bind_inv_ok in E as ([] & s1 & E1 & E2).
  destruct (from_run _ _ _ _ (delete_shrinks _) E1 Hs) as [Hs1 _].
  rewrite <- (firstn_skipn _DELETE_BATCH (x :: ks)) in Hin. apply elem_of_app in Hin as [Hin|Hin].
  - destruct (from_run _ _ _ _ (delete_all_shrinks _ _) E2 Hs1) as [_ Hback]. intros Hk%Hback.
    apply redis_answers in E1 as [_ ->]. by apply vget_deletes in Hk as [? _].
  - eapply IH; [exact E2 | | done | done]. rewrite length_skipn. unfold _DELETE_BATCH. cbn [length] in *. lia.
Qed.

Lemma sorted_set_elem l k : k ∈ l → k ∈ sorted_set l.
Proof. intros H. unfold sorted_set. by rewrite merge_sort_Permutation, elem_of_remove_dups. Qed.

Lemma marker_back s s' cid v : set_ (_SUSPENDED_PREFIX +:+ cid) v s = (Ok tt, s') → Forall removing (steps s) →
  ∀ k w, startswith _SUSPENDED_PREFIX k = false → kept k w s' → kept k w s.
Proof.
  intros [_ ->]%redis_answers Hs k w Hk Hv. destruct (next_shrinks s Hs) as (_ & _ & B). apply B. fold (found s).
  unfold kept, vget in *. cbn in Hv. rewrite lookup_insert_ne in Hv; [exact Hv|]. intros <-. by rewrite startswith_app in Hk.
Qed.

Lemma purge_empties text company us at_ (s : hub) r s' :
  purge text company us at_ s = (Ok r, s') → Forall removing (steps s) →
  let cid := str_lower company in
  (∀ k v, (startswith _KEY_PREFIX k || startswith _LATEST_PREFIX k) = true → kept k v s' → _bound_to (Some v) cid = Ok false) ∧
  (∀ k v, startswith (_FEATURES_PREFIX +:+ cid +:+ ":") k = true → ¬ kept k v s') ∧
  kept (_SUSPENDED_PREFIX +:+ cid) (text "1") s'.
Proof.
  intros E Hs cid. unfold purge in E. fold cid in E.
  apply bind_inv_ok in E as (bound & s1 & E1 & E). destruct (from_run _ _ _ _ (matching_shrinks _ _) E1 Hs) as [Hs1 _].
  apply bind_inv_ok in E as ([[named indexes] sessions] & s2 & E2 & E). destruct (from_run _ _ _ _ (gather_shrinks _) E2 Hs1) as [Hs2 B2].
  apply bind_inv_ok in E as (rotated & s3 & E3 & E). destruct (from_run _ _ _ _ (scan_shrinks _) E3 Hs2) as [Hs3 B3].
  apply bind_inv_ok in E as (rotations & s4 & E4 & E).
  assert (from s3 s4) as [Hs4 B4].
  { eapply from_run; [|exact E4|done]. apply such_shrinks. intros y. respecting ltac:(apply get_shrinks). }
  apply bind_inv_ok in E as (features & s5 & E5 & E). destruct (from_run _ _ _ _ (scan_shrinks _) E5 Hs4) as [Hs5 B5].
  apply bind_inv_ok in E as (latest & s6 & E6 & E). destruct (from_run _ _ _ _ (matching_shrinks _ _) E6 Hs5) as [Hs6 B6].
  apply bind_inv_ok in E as ([] & s7 & E7 & E). destruct (from_run _ _ _ _ (revoke_all_shrinks _ _) E7 Hs6) as [Hs7 B7].
  apply bind_inv_ok in E as ([] & s8 & E8 & E). destruct (from_run _ _ _ _ (delete_all_shrinks _ _) E8 Hs7) as [Hs8 B8].
  apply bind_inv_ok in E as ([] & s9 & E9 & E). inversion E; subst.
  pose proof (marker_back _ _ _ _ E9 Hs8) as B9. apply redis_answers in E9 as [_ ->].
  split; [|split].
  - intros k v Hp Hk. assert (startswith _SUSPENDED_PREFIX k = false) as Hns.
    { apply orb_true_iff in Hp as [(r' & ->)%startswith_spec|(r' & ->)%startswith_spec]; done. }
    apply B9 in Hk; [|done]. apply orb_true_iff in Hp as [Hp|Hp].
    + destruct (matching_sees _ _ _ _ _ k v E1 Hs) as (b & Hb & Hin); [by apply B2, B3, B4, B5, B6, B7, B8 | done..|].
      destruct b; [|done]. exfalso. eapply (revoke_all_gone _ _ _ _ k v E7 Hs6); [|by apply B8].
      apply sorted_set_elem, elem_of_app. left. by apply Hin.
    + destruct (matching_sees _ _ _ _ _ k v E6 Hs5) as (b & Hb & Hin); [by apply B7, B8 | done..|].
      destruct b; [|done]. exfalso. eapply (delete_all_gone _ _ _ _ k v E8 (le_n _) Hs7); [|done].
      rewrite !elem_of_app. right; right; right; right. by apply Hin.
  - intros k v Hp Hk. assert (startswith _SUSPENDED_PREFIX k = false) as Hns by by apply startswith_spec in Hp as (r' & ->).
    apply B9 in Hk; [|done]. eapply (delete_all_gone _ _ _ _ k v E8 (le_n _) Hs7); [|done].
    rewrite !elem_of_app. right; right; right; left. eapply scan_sees; [exact E5 | | done]. by apply B6, B7, B8.
  - unfold kept, vget. cbn. by rewrite lookup_insert_eq.
Qed.

(** C18: a purge that answers has emptied the capability store of the tenant.
    While the store's other users only remove, no handle and no latest reading
    bound to the tenant and no snapshot of its features is left, whichever index
    named it or did not, and the suspension marker is there. *)
Theorem tenant_purged text company us at_ (s : hub) r s' :
  purge text company us at_ s = (Ok r, s') → Forall removing (steps s) →
  let cid := str_lower company in
  (∀ k v, (startswith _KEY_PREFIX k || startswith _LATEST_PREFIX k) = true → kept k v s' → _bound_to (Some v) cid = Ok false) ∧
  (∀ k v, startswith (_FEATURES_PREFIX +:+ cid +:+ ":") k = true → ¬ kept k v s') ∧
  kept (_SUSPENDED_PREFIX +:+ cid) (text "1") s'.
Proof. apply purge_empties. Qed.

(** Whatever becomes of a purge, it brings nothing into the store but the marker. *)
Definition marks (s s' : hub) : Prop :=
  Forall removing (steps s) → Forall removing (steps s') ∧ (now s ≤ now s')%Z ∧
  ∀ k v, startswith _SUSPENDED_PREFIX k = false → kept k v s' → kept k v s.

#[local] Instance marks_trans : Transitive marks.
Proof.
  intros s1 s2 s3 H12 H23 H1. destruct (H12 H1) as (H2 & ? & K1).
  destruct (H23 H2) as (H3 & ? & K2). split; [done|]. split; [lia|]. auto.
Qed.
#[local] Instance marks_refl : Reflexive marks.
Proof. by intros s H. Qed.

Lemma shrinks_marks {A} (m : M hub A) : respects shrinks m → respects marks m.
Proof. intros Hm s Hs. destruct (Hm s Hs) as (? & ? & B). split; [done|]. split; [done|]. intros k v _. apply B. Qed.

Lemma purge_marks text company us at_ : respects marks (purge text company us at_).
Proof.
  assert (∀ c v, respects marks (set_ (_SUSPENDED_PREFIX +:+ c) v)) as Hset.
  { intros c v s Hs. destruct (next_shrinks s Hs) as (Hf & Ht & B). fold (found s) in *. unfold final, set_. rewrite redis_run.
    assert (marks s (found s)) as Hfound by (intros _; split; [done|]; split; [done|]; intros k w _; apply B).
    destruct (how s); cbn [snd]; [| by apply Hfound |]; (split; [done|]; split; [done|]); intros k w Hk Hv; apply B;
      unfold kept, vget in *; cbn in Hv; (rewrite lookup_insert_ne in Hv; [exact Hv|]; intros <-; by rewrite startswith_app in Hk). }
  unfold purge. respecting ltac:(first [ apply Hset
    | apply shrinks_marks; first [apply matching_shrinks | apply gather_shrinks | apply scan_shrinks | apply revoke_all_shrinks
      | apply delete_all_shrinks | apply such_shrinks; intros ?; respecting ltac:(apply get_shrinks)]]).
Qed.

(** *** What it removes is on record *)

(** Nobody else changes the store. *)
Definition alone (s : hub) : Prop := Forall (λ st, (0 ≤ passes st)%Z ∧ ∀ d, others st d = d) (steps s).

(** [e] records the end of the handle whose entry is [v]. *)
Definition records_end (cid : string) (v : bytes) (e : fields) : Prop :=
  ∃ fs t, _entry_facts (Some v) = Ok fs ∧ event (deleted_event fs cid) t = Ok e.

(** The record only grows, the handles only go, and each one that goes before
    it expires is recorded. *)
Definition accounts (cid : string) (s s' : hub) : Prop :=
  alone s → alone s' ∧ (now s ≤ now s')%Z ∧
  (∀ k, startswith _KEY_PREFIX k = true → values (db s') !! k = values (db s) !! k ∨ values (db s') !! k = None) ∧
  ∃ new, appended (db s') = (appended (db s) ++ new)%list ∧
    ∀ k v, startswith _KEY_PREFIX k = true → vget (now s') k (db s) = Some v → values (db s') !! k = None →
      ∃ e, e ∈ new ∧ records_end cid v e.

#[local] Instance accounts_refl cid : Reflexive (accounts cid).
Proof.
  intros s H. split; [done|]. split; [lia|]. split; [by left|]. exists []. split; [by rewrite app_nil_r|].
  intros k v _ Hv Hn. unfold vget in Hv. by rewrite Hn in Hv.
Qed.
#[local] Instance accounts_trans cid : Transitive (accounts cid).
Proof.
  intros s1 s2 s3 H12 H23 H1. destruct (H12 H1) as (H2 & T1 & V1 & n1 & A1 & R1).
  destruct (H23 H2) as (H3 & T2 & V2 & n2 & A2 & R2). split; [done|]. split; [lia|]. split.
  - intros k Hk. destruct (V2 k Hk) as [->|]; [by apply V1 | by right].
  - exists (n1 ++ n2)%list. split; [rewrite A2, A1; by rewrite app_assoc|]. intros k v Hk Hv Hn.
    destruct (values (db s2) !! k) as [x|] eqn:E.
    + destruct (V1 k Hk) as [E1|E1]; [|congruence].
      destruct (R2 k v Hk) as (e & He & Hr); [|done|].
      * unfold vget in *. by rewrite <- E1, E in *.
      * exists e. split; [apply elem_of_app; by right | done].
    + destruct (R1 k v Hk) as (e & He & Hr); [by eapply vget_earlier | done |].
      exists e. split; [apply elem_of_app; by left | done].
Qed.

Lemma next_alone s : alone s → alone (found s) ∧ (now s ≤ now (found s))%Z ∧ db (found s) = db s.
Proof.
  unfold alone, found, final, next. intros H. destruct (steps s) as [|st l] eqn:E; cbn; [rewrite E; split; [done | by split]|].
  apply Forall_cons in H as [[Hp Ho] H]. split; [done|]. split; [lia | done].
Qed.

(** A command that leaves the handles and the record alone. *)
Lemma redis_accounts {A} cid (op : Z → capdb → A * capdb) :
  (∀ t d, appended (op t d).2 = appended d ∧
     ∀ k, startswith _KEY_PREFIX k = true → values (op t d).2 !! k = values d !! k) → respects (accounts cid) (redis op).
Proof.
  intros Hop s Hs. destruct (next_alone s Hs) as (Ha & Ht & Hd). unfold final. rewrite redis_run. cbv zeta.
  destruct (Hop (now (found s)) (db (found s))) as [Ho Hv]. rewrite Hd in Ho, Hv.
  assert (accounts cid s (found s)) as Hfound.
  { intros _. split; [done|]. split; [done|]. rewrite Hd. split; [by left|]. exists []. split; [by rewrite app_nil_r|].
    intros k v _ H Hn. unfold vget in H. by rewrite Hn in H. }
  assert (accounts cid s (set_db (op (now (found s)) (db (found s))).2 (found s))) as Hset.
  { intros _. split; [done|]. split; [done|]. cbn. rewrite Hd. split; [left; by apply Hv|].
    exists []. split; [by rewrite app_nil_r|]. intros k v Hk H Hn. rewrite Hv in Hn by done. unfold vget in H. by rewrite Hn in H. }
  by destruct (how s); cbn; [apply Hset | apply Hfound | apply Hset].
Qed.

Lemma get_accounts cid k : respects (accounts cid) (get k).
Proof. apply respects_bind; [apply _ | by apply redis_accounts |]. intros r. apply respects_lift, _. Qed.

(** An entry read, and removed with the event its facts make. *)
Lemma revoke_accounts cid key : respects (accounts cid) (_revoke key cid).
Proof.
  intros s. unfold _revoke. apply respects_then; [apply _ | apply get_accounts |]. intros raw s1 Eg.
  apply respects_then; [apply _ | apply respects_lift, _ |]. intros fs s2 [Ef ->]%lift_inv.
  apply respects_then; [apply _ | apply respects_gets, _ |]. intros t s2 [= <- <-].
  apply respects_then; [apply _ | apply respects_lift, _ |]. intros e s2 [Ee ->]%lift_inv.
  apply respects_then; [apply _ | apply respects_lift, _ |]. intros c s2 [Ec ->]%lift_inv.
  assert (c = CallDelete key e) as -> by (revert Ec; unfold delete_recorded_args; repeat case_match; congruence).
  cbn. intros Hs1. destruct (next_alone s1 Hs1) as (Ha & Ht & Hd). revert Hs1.
  assert (accounts cid s1 (set_db (db_delete_recorded key e (now (found s1)) (db (found s1))).2 (found s1))) as Hdel.
  { intros _. cbn. split; [done|]. split; [done|]. rewrite Hd.
    assert (values (db_delete_recorded key e (now (found s1)) (db s1)).2 = delete key (values (db s1))) as Ev.
    { unfold db_delete_recorded. by destruct (vget _ _ _). }
    rewrite Ev. split.
    { intros k _. destruct (decide (k = key)) as [->|Hne]; [right; apply lookup_delete_eq | left; by apply lookup_delete_ne]. }
    unfold db_delete_recorded. destruct (vget (now (found s1)) key (db s1)) as [w|] eqn:Ew; cbn.
    - exists [e]. split; [done|]. intros k v _ Hv Hn. exists e. split; [left|].
      destruct (decide (k = key)) as [->|Hne]; [|unfold vget in Hv; rewrite lookup_delete_ne in Hn by done; by rewrite Hn in Hv].
      exists fs, (now s1). split; [|done]. rewrite <- Ef. f_equal. symmetry. eapply get_sees; [exact Eg|].
      by eapply vget_earlier.
    - exists []. split; [by rewrite app_nil_r|]. intros k v _ Hv Hn. exfalso.
      destruct (decide (k = key)) as [->|Hne]; [congruence|]. unfold vget in Hv. rewrite lookup_delete_ne in Hn by done. by rewrite Hn in Hv. }
  unfold final. rewrite redis_run. cbv zeta. destruct (how s1); [apply Hdel | | apply Hdel].
  cbn. intros _. split; [done|]. split; [done|]. rewrite Hd. split; [by left|]. exists []. split; [by rewrite app_nil_r|].
  intros k v _ Hv Hn. unfold vget in Hv. by rewrite Hn in Hv.
Qed.

Lemma delete_accounts cid ks : (∀ k, k ∈ ks → startswith _KEY_PREFIX k = false) → respects (accounts cid) (redis (db_delete ks)).
Proof.
  intros Hks. apply redis_accounts. intros t d. split; [done|]. intros k Hk. cbn.
  assert (∀ m : gmap string (bytes * option Z), foldr delete m ks !! k = m !! k) as E; [|apply E]. intros m.
  induction ks as [|x ks IH]; [done|]. cbn. rewrite lookup_delete_ne; [apply IH; intros y Hy; apply Hks; by right|].
  intros <-. rewrite Hks in Hk; [done | left].
Qed.

Lemma delete_all_accounts cid f : ∀ ks, (∀ k, k ∈ ks → startswith _KEY_PREFIX k = false) → respects (accounts cid) (delete_all f ks).
Proof.
  induction f as [|f IH]; intros [|k ks] Hks; cbn [delete_all]; try apply respects_ret, _.
  apply respects_bind; [apply _ | apply delete_accounts; intros x Hx; eapply Hks, subseteq_take, Hx |].
  intros []. apply IH. intros x Hx. apply Hks. by eapply subseteq_drop.
Qed.

Lemma such_accounts {A} cid (test : A → M hub bool) l : (∀ x, respects (accounts cid) (test x)) → respects (accounts cid) (such test l).
Proof. intros Ht. induction l as [|x l IH]; cbn; respecting ltac:(first [apply Ht | exact IH]). Qed.
Lemma such_part {A} (test : A → M hub bool) l : yields (λ out, out ⊆ l) (such test l).
Proof.
  induction l as [|x l IH]; [by apply yields_ret|]. cbn. apply yields_bind. intros b.
  intros s out s' (rest & s1 & E & H)%bind_inv_ok. apply IH in E. inversion H; subst. destruct b; set_solver.
Qed.

Lemma scan_accounts cid p : respects (accounts cid) (scan_iter p).
Proof. by apply redis_accounts. Qed.
Lemma scan_part p : yields (λ ks, ∀ k, k ∈ ks → startswith p k = true) (scan_iter p).
Proof. intros s ks s' [-> _]%redis_answers k Hk. cbn in Hk. by apply list_elem_of_filter in Hk as [? _]. Qed.

Lemma matching_accounts cid p c : respects (accounts cid) (_matching p c).
Proof.
  unfold _matching. respecting ltac:(first [apply scan_accounts | apply get_accounts | apply such_accounts; intros ?]).
Qed.
Lemma matching_part p c : yields (λ ks, ∀ k, k ∈ ks → startswith p k = true) (_matching p c).
Proof. intros s ks s' (l & s1 & E1 & E2)%bind_inv_ok k Hk. apply such_part in E2. apply scan_part in E1. auto. Qed.

Lemma gather_accounts cid us : respects (accounts cid) (gather us).
Proof.
  induction us as [|u us IH]; cbn; unfold hkeys, smembers;
    respecting ltac:(first [exact IH | by apply redis_accounts]).
Qed.
Lemma gather_part us : yields (λ r, ∀ k, k ∈ (r.2 ++ r.1.2)%list → startswith _KEY_PREFIX k = false) (gather us).
Proof.
  induction us as [|u us IH]; [by apply yields_ret; intros k ?%elem_of_nil|]. cbn.
  do 3 (apply yields_bind; intros ?). intros s r s' ([[hs is_] ss] & s1 & E & H)%bind_inv_ok. apply IH in E. inversion H; subst.
  cbn [fst snd] in *. intros k. rewrite !elem_of_app, list_elem_of_fmap, !elem_of_cons. intros Hk.
  destruct Hk as [[(t & -> & _)|Hk]|[->|[->|[->|[->|Hk]]]]]; try done; apply E, elem_of_app; auto.
Qed.

(** every handle the purge removes is on the capability-use record.
    While nobody else changes the store, whatever call fails, a handle that was
    there, is gone and has not expired has an event that ends it, made of its
    entry's facts; no event is lost and no handle appears. *)
Theorem purged_handles_recorded text company us at_ : respects (accounts (str_lower company)) (purge text company us at_).
Proof.
  unfold purge. set (cid := str_lower company).
  apply respects_bind; [apply _ | apply matching_accounts | intros bound].
  apply (respects_bind_when _ _ _ _ (gather_accounts _ _) (gather_part us)). intros [[named indexes] sessions] Hgather.
  apply (respects_bind_when _ _ _ _ (scan_accounts _ _) (scan_part _)). intros rotated Hrot.
  apply (respects_bind_when _ (λ out, out ⊆ rotated)); [|apply such_part|]; [apply such_accounts; intros ?; respecting ltac:(apply get_accounts)|].
  intros rotations Hrotations.
  apply (respects_bind_when _ _ _ _ (scan_accounts _ _) (scan_part _)). intros features Hfeat.
  apply (respects_bind_when _ _ _ _ (matching_accounts _ _ _) (matching_part _ _)). intros latest Hlat.
  assert (∀ ks, respects (accounts cid) (revoke_all ks cid)) as Hrev.
  { induction ks as [|k ks IH]; cbn; respecting ltac:(first [apply revoke_accounts | exact IH]). }
  apply respects_bind; [apply _ | apply Hrev | intros []].
  apply respects_bind; [apply _ | apply delete_all_accounts | intros []; respecting ltac:(apply redis_accounts)].
  - intros k. cbn [fst snd] in *. rewrite !elem_of_app. intros [Hk|[Hk|[Hk|[Hk|Hk]]]].
    + apply Hgather, elem_of_app. by left.
    + apply Hgather, elem_of_app. by right.
    + by apply Hrotations, Hrot, startswith_spec in Hk as (r & ->).
    + by apply Hfeat, startswith_spec in Hk as (r & ->).
    + by apply Hlat, startswith_spec in Hk as (r & ->).
  - intros t d. split; [done|]. intros k (r & ->)%startswith_spec. cbn. by rewrite lookup_insert_ne.
Qed.
End purge.
