(* ===== verification/DeletionPlatform.v ===== *)
(** * Deletion on the platform

    The steps the job runs (services/tenant_delete/main.py) over their stores,
    and the hub's reclaim pass (services/notebook_hub/reclaim.py's [main]): an
    instance of TenantDeletion's [DeletionSteps], so that its theorems are
    theorems of the platform, and what any sequence of runs and passes keeps. *)

From stdpp Require Import base gmap strings list fin_maps.
From Stdlib Require Import ZArith Lia.
From S2P Require Import Prelude PyText PyNum PyJson Tenancy CapabilityAudit SqlBinding HubCapabilities ColdExport TenantDeletion DeletionStores DeletionProps CapabilityPurge.

Local Open Scope string_scope.

Section platform.
Context `{J : JsonCodec} `{I : IsoCodec} (py_repr : json → string) (text : string → bytes).
Context (strptime : string → string → res Z).
Context (issued_by : cert → cert → bool) (crl_signed : crl → string → bool) (register_signed : string → string → string → bool)
  (sha256 : string → string).

(** main.py: a store whose settings are missing has no step. *)
Record config := { c_cold : option string; c_tracking : option string; c_device_ca : bool; c_broker_retention : Z; c_backup_retention : Z }.

(** What a run of the job finds: its settings, what the CA publishes, the
    tracking gateway's answers, the time. *)
Record run_view := { v_cfg : config; v_ca : published; v_tracking : string → res json; v_now : Z }.

(** The deletion record, the stores, what the CA publishes, the tracking
    gateway's answers, the time; [p_members]: the users each tenant has had, and
    [p_runs]: what each run found, histories no code reads. *)
Record platform := {
  p_life : lifecycle;
  p_cap : HubCapabilities.hub;
  p_cold : world;
  p_volumes : DeletionStores.hub;
  p_ca : published;
  p_tracking : string → res json;
  p_now : Z;
  p_members : gmap string (list string);
  p_runs : list run_view
}.

Definition set_life l p := {| p_life := l; p_cap := p_cap p; p_cold := p_cold p; p_volumes := p_volumes p; p_ca := p_ca p;
  p_tracking := p_tracking p; p_now := p_now p; p_members := p_members p; p_runs := p_runs p |}.
Definition set_cap h p := {| p_life := p_life p; p_cap := h; p_cold := p_cold p; p_volumes := p_volumes p; p_ca := p_ca p;
  p_tracking := p_tracking p; p_now := p_now p; p_members := p_members p; p_runs := p_runs p |}.
Definition set_cold w p := {| p_life := p_life p; p_cap := p_cap p; p_cold := w; p_volumes := p_volumes p; p_ca := p_ca p;
  p_tracking := p_tracking p; p_now := p_now p; p_members := p_members p; p_runs := p_runs p |}.
Definition set_vols h p := {| p_life := p_life p; p_cap := p_cap p; p_cold := p_cold p; p_volumes := h; p_ca := p_ca p;
  p_tracking := p_tracking p; p_now := p_now p; p_members := p_members p; p_runs := p_runs p |}.
Definition view (cfg : config) (p : platform) : run_view :=
  {| v_cfg := cfg; v_ca := p_ca p; v_tracking := p_tracking p; v_now := p_now p |}.
Definition begin_run (cfg : config) (p : platform) : platform :=
  {| p_life := p_life p; p_cap := p_cap p; p_cold := p_cold p; p_volumes := p_volumes p; p_ca := p_ca p;
     p_tracking := p_tracking p; p_now := p_now p; p_members := p_members p; p_runs := view cfg p :: p_runs p |}.

Definition job_steps (cfg : config) (store : string) : option (string → list string → Z → M platform (option Removal)) :=
  if bool_decide (store = "capability_store") then
    Some (λ c us at_, zoom p_cap set_cap (purge py_repr text c us at_))
  else if bool_decide (store = "broker") then
    Some (λ c us at_ p, (Some <$> broker_step (c_broker_retention cfg) (p_now p), p))
  else if bool_decide (store = "cold_layer") then
    (λ bucket c us at_, zoom p_cold set_cold (cold_purge bucket c us at_)) <$> c_cold cfg
  else if bool_decide (store = "tracking_store") then
    (λ url c us at_ p, (tracking_purge (p_tracking p) url c, p)) <$> c_tracking cfg
  else if bool_decide (store = "device_certificates") then
    if c_device_ca cfg then
      Some (λ c us at_ p, (verify strptime issued_by crl_signed register_signed sha256 (p_ca p) (p_now p) c at_, p))
    else None
  else None.

(** [main]: 1 when the run raised or a deletion failed. *)
Definition main (cfg : config) : M platform Z :=
  catch (o ← run p_life set_life (job_steps cfg) (c_backup_retention cfg);
         mret match o with Some o => if bool_decide (o_failed o = []) then 0%Z else 1%Z | None => 0%Z end)
        (λ e, if bool_decide (e = SystemExit) then raise e else mret 1%Z).

(** The hub's pass: the pending deletions whose volumes are not recorded, each
    with its users, then [reclaim_once] (27-notebook-volume-reclaim.sql). *)
Definition pending_reclaims : M lifecycle (list (string * list string)) :=
  asks (λ l, Ok (map (λ cd, (cd.1, default [] (l_users l !! cd.1)))
                     (base.filter (λ cd, is_pending cd.1 l = true ∧ l_steps l !! (cd.1, "notebook_volumes") = None) (l_deletions l)))).
Definition record_reclaimed (c : string) (d : dict) : M lifecycle unit :=
  record c "notebook_volumes" {| detail := d; retained_until := None |}.
Definition reclaim_pass : M platform unit :=
  catch (pending ← zoom p_life set_life pending_reclaims;
         _ ← reclaim_once p_volumes set_vols (λ c d, zoom p_life set_life (record_reclaimed c d)) pending;
         mret tt)
        (λ e, if bool_decide (e = SystemExit) then raise e else mret tt).

(** The scheduler's runs of the job and the hub's passes, in any order; one that
    dies is followed by the next. *)
Inductive act :=
  | JobRun (cfg : config)
  | HubPass
  | Outside (ca : published) (tracking : string → res json) (now : Z).
Definition act_once (a : act) : M platform unit :=
  match a with
  | JobRun cfg => _ ← modify (begin_run cfg); catch (_ ← main cfg; mret tt) (λ _, mret tt)
  | HubPass => catch reclaim_pass (λ _, mret tt)
  | Outside ca t n => modify (λ p, {| p_life := p_life p; p_cap := p_cap p; p_cold := p_cold p; p_volumes := p_volumes p;
                                      p_ca := ca; p_tracking := t; p_now := n; p_members := p_members p; p_runs := p_runs p |})
  end.
Definition deletions (l : list act) : M platform unit := foldM (λ _ a, act_once a) tt l.

(** ** What the steps promise *)

Definition cap_empty (c : string) (h : HubCapabilities.hub) : Prop :=
  (∀ k v, (startswith _KEY_PREFIX k || startswith _LATEST_PREFIX k) = true → kept k v h →
     _bound_to py_repr (Some v) (str_lower c) = Ok false) ∧
  ∀ k v, startswith (_FEATURES_PREFIX +:+ str_lower c +:+ ":") k = true → ¬ kept k v h.
Definition cold_empty (c : string) (w : world) : Prop :=
  ∀ prefix k, cold_key_prefix c = Ok prefix → startswith prefix k = true → objects w !! k = None.
Definition volumes_empty (us : list string) (h : DeletionStores.hub) : Prop := ∀ u, u ∈ us → u ∉ volumes h.

(** A run found the gateway clear of the tenant; found the CA's files showing
    its certificates revoked since the request; or started the time for which
    the broker may hold its readings. *)
Definition tracking_clear (c : string) (p : platform) : Prop :=
  ∃ v url, v ∈ p_runs p ∧ c_tracking (v_cfg v) = Some url ∧ gateway_clear (v_tracking v) url c.
Definition certificates_revoked (c : string) (p : platform) : Prop :=
  ∃ v at_ ca l number issued, v ∈ p_runs p ∧ (c, at_) ∈ requests (p_life p) ∧
    authentic strptime issued_by crl_signed register_signed (v_ca v) ca l number issued ∧
    revoked_all l number issued (v_now v) c at_.
Definition broker_ages (until : option Z) (p : platform) : Prop :=
  ∃ v, v ∈ p_runs p ∧ until = Some (v_now v + c_broker_retention (v_cfg v))%Z.

(** What the record of each store says of it. *)
Definition store_empty (c st : string) (until : option Z) (p : platform) : Prop :=
  (st = "capability_store" → cap_empty c (p_cap p)) ∧
  (st = "cold_layer" → cold_empty c (p_cold p)) ∧
  (st = "notebook_volumes" → volumes_empty (default [] (p_members p !! c)) (p_volumes p)) ∧
  (st = "tracking_store" → tracking_clear c p) ∧
  (st = "device_certificates" → certificates_revoked c p) ∧
  (st = "broker" → broker_ages until p).

(** The capability store's other users only remove; a pending tenant's users
    are those it has had. *)
Definition platform_inv (p : platform) : Prop :=
  Forall removing (steps (p_cap p)) ∧
  ∀ c, is_pending c (p_life p) = true → l_users (p_life p) !! c = p_members p !! c.

Lemma cap_empty_marks c h h' : marks h h' → Forall removing (steps h) → cap_empty c h → cap_empty c h'.
Proof.
  intros Hm Hs [H1 H2]. destruct (Hm Hs) as (_ & _ & B). split.
  - intros k v Hp Hk. apply (H1 k v Hp), B; [|done].
    apply orb_true_iff in Hp as [(r & ->)%startswith_spec|(r & ->)%startswith_spec]; done.
  - intros k v Hp Hk. eapply (H2 k v Hp), B; [|done]. by apply startswith_spec in Hp as (r & ->).
Qed.

Lemma cold_empty_purged c w w' : (∀ k, objects w' !! k = objects w !! k ∨ objects w' !! k = None) → cold_empty c w → cold_empty c w'.
Proof. intros Ho H prefix k Hp Hk. destruct (Ho k) as [->|]; [by eapply H | done]. Qed.

Lemma cold_purge_removes bucket c us at_ w k :
  objects (final (cold_purge bucket c us at_) w) !! k = objects w !! k ∨ objects (final (cold_purge bucket c us at_) w) !! k = None.
Proof.
  destruct (cold_purge_purged bucket c us at_ w) as [[_ ->]|(p & _ & Ho & _)]; [by left|].
  destruct (Ho k) as [|[_ ?]]; [by left | by right].
Qed.

Lemma final_zoom {S T A} (get : S → T) (set : T → S → S) (m : M T A) s : final (zoom get set m) s = set (final m (get s)) s.
Proof. unfold final, zoom. by destruct (m (get s)). Qed.

Section steps.
Context (cfg : config).

Lemma step_cases st f : job_steps cfg st = Some f →
  (st = "capability_store" ∧ f = λ c us at_, zoom p_cap set_cap (purge py_repr text c us at_)) ∨
  (∃ bucket, st = "cold_layer" ∧ f = λ c us at_, zoom p_cold set_cold (cold_purge bucket c us at_)) ∨
  (∃ g, f = (λ c us at_ p, (g c at_ p, p)) ∧
     (st = "broker" ∧ g = (λ c at_ p, Some <$> broker_step (c_broker_retention cfg) (p_now p)) ∨
      (∃ url, st = "tracking_store" ∧ c_tracking cfg = Some url ∧ g = λ c at_ p, tracking_purge (p_tracking p) url c) ∨
      st = "device_certificates" ∧
        g = λ c at_ p, verify strptime issued_by crl_signed register_signed sha256 (p_ca p) (p_now p) c at_)).
Proof.
  unfold job_steps. repeat case_bool_decide; intros H'; simplify_eq.
  - by left.
  - right; right. eexists. split; [done|]. by left.
  - right; left. apply fmap_Some in H' as (b & _ & ->). by exists b.
  - right; right. apply fmap_Some in H' as (b & ? & ->). eexists. split; [done|]. right; left. by exists b.
  - right; right. destruct (c_device_ca cfg); [|done]. simplify_eq. eexists. split; [done|]. by right; right.
Qed.

(** Nothing but the store a step is for changes. *)
Lemma pure_step_true st g c at_ p r :
  (st = "broker" ∧ g = (λ c at_ p, Some <$> broker_step (c_broker_retention cfg) (p_now p)) ∨
   (∃ url, st = "tracking_store" ∧ c_tracking cfg = Some url ∧ g = λ c at_ p, tracking_purge (p_tracking p) url c) ∨
   st = "device_certificates" ∧
     g = λ c at_ p, verify strptime issued_by crl_signed register_signed sha256 (p_ca p) (p_now p) c at_) →
  view cfg p ∈ p_runs p → (c, at_) ∈ requests (p_life p) → g c at_ p = Ok (Some r) → store_empty c st (retained_until r) p.
Proof.
  intros [[-> ->]|[(url & -> & Hu & ->)|[-> ->]]] Hv Hc E; unfold store_empty; split_and!; try done; intros _.
  - exists (view cfg p). split; [done|]. cbn beta in E. destruct (broker_step _ _) as [r'|] eqn:Eb; [|done].
    injection E as <-. by apply broker_step_until in Eb.
  - exists (view cfg p), url. split; [done|]. split; [done|]. by apply tracking_purge_some in E as [? _].
  - destruct (proj1 (verify_iff strptime issued_by crl_signed register_signed sha256 (p_ca p) (p_now p) c at_))
      as (ca & l & number & issued & Ha & Hr); [cbn in E; rewrite E; by eexists|].
    by exists (view cfg p), at_, ca, l, number, issued.
Qed.

Lemma store_empty_life l p c st u : requests l = requests (p_life p) → store_empty c st u p → store_empty c st u (set_life l p).
Proof.
  intros E H. unfold store_empty, certificates_revoked in *. cbn. by rewrite E.
Qed.

#[export] Instance platform_steps : DeletionSteps p_life set_life (job_steps cfg).
Proof.
  refine {| s_empty := store_empty; s_inv := λ p, platform_inv p ∧ view cfg p ∈ p_runs p |}.
  - done.
  - intros l p c st u [E _]. by apply store_empty_life.
  - intros l p [_ Hl] [[Hs Hu] Hv]. split; [|done]. split; [done|]. intros c Hc. cbn in *. destruct (Hl c Hc) as [Hp E]. rewrite E. by apply Hu.
  - by intros st f c us at_ p [[_ ->]|[(b & _ & ->)|(g & -> & _)]]%step_cases; rewrite ?final_zoom.
  - intros st f c us at_ p r p' [[-> ->]|[(b & -> & ->)|(g & -> & Hg)]]%step_cases Hc [[Hs Hu] Hv] E.
    + split; [intros _|done]. revert E. unfold zoom. destruct (purge _ _ _ _ _ _) as [[o|e] h] eqn:Ep; [|done]. intros [= _ <-].
      destruct (purge_empties _ _ _ _ _ _ _ _ Ep Hs) as (A & B & _). by split.
    + split; [done|]. split; [intros _|done]. revert E. unfold zoom. destruct (cold_purge _ _ _ _ _) as [o w] eqn:Ep. intros [= -> <-].
      destruct (cold_purge_exact _ _ _ _ _ _ _ Ep) as [Hok _]. destruct (Hok _ eq_refl) as (_ & q & Hq & Hnone).
      intros prefix k Hp Hk. apply Hnone. congruence.
    + injection E as Eg <-. by eapply pure_step_true.
  - intros st f c us at_ p [[-> ->]|[(b & -> & ->)|(g & -> & _)]]%step_cases [[Hs Hu] Hv]; [| |done].
    + pose proof (purge_marks py_repr text c us at_ (p_cap p)) as Hm. unfold final, zoom in *.
      destruct (purge _ _ _ _ _ _) as [o h]. cbn in *. destruct (Hm Hs) as (Hs' & _). split; [by split|].
      intros c' st' u (E1 & E2). split; [|done]. intros E. by eapply cap_empty_marks; [exact Hm | | apply E1].
    + pose proof (cold_purge_removes b c us at_ (p_cold p)) as Hr. unfold final, zoom in *.
      destruct (cold_purge _ _ _ _ _) as [o w]. cbn in *. split; [by split|].
      intros c' st' u (E1 & E2 & E3). split; [done|]. split; [|done]. intros E. eapply cold_empty_purged; [exact Hr | by apply E2].
Defined.
End steps.

(** The hub records with no step of its own. *)
#[local] Instance hub_steps : DeletionSteps p_life set_life (λ _, None).
Proof.
  refine {| s_empty := store_empty; s_inv := platform_inv |}; try done.
  - intros l p c st u [E _]. by apply store_empty_life.
  - intros l p [_ Hl] [Hs Hu]. split; [done|]. intros c Hc. cbn in *. destruct (Hl c Hc) as [Hp E]. rewrite E. by apply Hu.
Defined.

(** ** Any sequence of runs and passes *)

(** What the stores' others keep to, and that every record is true. *)
Definition sound (p : platform) : Prop :=
  platform_inv p ∧ ∀ c st u, l_steps (p_life p) !! (c, st) = Some u → store_empty c st u p.

Definition onward (p p' : platform) : Prop :=
  sound p → sound p' ∧
  (∀ k, is_Some (l_steps (p_life p) !! k) → is_Some (l_steps (p_life p') !! k)) ∧
  (∀ c, c ∈ l_databases (p_life p) → c ∉ l_databases (p_life p') →
        ∀ st, st ∈ REQUIRED_STORES → is_Some (l_steps (p_life p') !! (c, st))) ∧
  p_members p' = p_members p.

#[local] Instance onward_refl : Reflexive onward.
Proof. by intros p. Qed.
#[local] Instance onward_trans : Transitive onward.
Proof.
  intros p1 p2 p3 H12 H23 H1. destruct (H12 H1) as (H2' & M1 & C1 & E1). destruct (H23 H2') as (H3 & M2 & C2 & E2).
  split; [done|]. split; [auto|]. split; [|congruence].
  intros c Hin Hout st Hst. destruct (decide (c ∈ l_databases (p_life p2))) as [H2|H2]; [by apply C2 | by apply M2, C1].
Qed.

Lemma onward_of_hub (P : Prop) p p' : onward_if p_life set_life (λ _, None) P p p' → P → p_members p' = p_members p → onward p p'.
Proof. intros (T & M & C & _) HP E H. split; [exact (T HP H)|]. by split. Qed.

Definition same_members (p p' : platform) : Prop := p_members p' = p_members p.
#[local] Instance same_members_preorder : PreOrder same_members.
Proof. split; [done|]. intros p1 p2 p3 H1 H2. unfold same_members in *. congruence. Qed.

Lemma registry_members {A} (m : M lifecycle A) : respects same_members (zoom p_life set_life m).
Proof. intros p. by rewrite final_zoom. Qed.

Lemma step_members cfg st f : job_steps cfg st = Some f → ∀ c us at_, respects same_members (f c us at_).
Proof. by intros [[_ ->]|[(b & _ & ->)|(g & -> & _)]]%step_cases c us at_ p; rewrite ?final_zoom. Qed.

Lemma run_members cfg ret : respects same_members (run p_life set_life (job_steps cfg) ret).
Proof.
  assert (respects same_members (run_pass p_life set_life (job_steps cfg) ret)) as Hpass.
  { unfold run_pass. respecting ltac:(first [apply registry_members | apply respects_foldM; [apply _..|intros o [[c at_] removed]]]).
    unfold run_one, _delete.
    respecting ltac:(first [apply registry_members | apply respects_foldM; [apply _..|intros [users waiting] st]]).
    unfold delete_step. case_bool_decide; [apply respects_ret, _|].
    destruct (job_steps cfg st) as [f|] eqn:Ef; [|apply respects_ret, _].
    respecting ltac:(first [apply registry_members | by eapply step_members]). }
  unfold run. respecting ltac:(first [apply registry_members | exact Hpass]).
Qed.

(** What a run has done, whatever becomes of it. *)
Lemma main_onward cfg p : view cfg p ∈ p_runs p → onward p (final (main cfg) p).
Proof.
  intros Hv Hsound. assert (∀ p', final (main cfg) p = p' → p' = final (run p_life set_life (job_steps cfg) (c_backup_retention cfg)) p) as E.
  { intros p' <-. unfold main, final, catch, mbind, M_bind. destruct (run _ _ _ _ p) as [[o|e] p1]; [done|]. cbn. by case_bool_decide. }
  rewrite (E _ eq_refl). destruct Hsound as [Hi Hrec].
  destruct (run_onward p_life set_life (job_steps cfg) (c_backup_retention cfg) p) as (T & M & C & _).
  destruct (T Logic.I) as [[Hi' _] Hrec']; [by split|]. split; [by split|]. split; [done|]. split; [done | apply run_members].
Qed.

Lemma begin_run_onward cfg p : onward p (begin_run cfg p).
Proof.
  intros [Hi H]. split; [split; [done|]|done]. intros c st u Hr. destruct (H c st u Hr) as (H1 & H2 & H3 & H4 & H5 & H6).
  split_and!; try done.
  - intros (v & url & Hv & Hx)%H4. exists v, url. split; [by right | done].
  - intros (v & at_ & ca & l & n & i & Hv & Hx)%H5. exists v, at_, ca, l, n, i. split; [by right | done].
  - intros (v & Hv & Hx)%H6. exists v. split; [by right | done].
Qed.

(** *** The hub's pass *)

Lemma reclaim_onward us : respects onward (zoom p_volumes set_vols (reclaim_tenant us)).
Proof.
  intros p. rewrite final_zoom. destruct (reclaim_tenant_reclaims us (p_volumes p)) as [Hsub _].
  intros [[Hs Hu] H]. split; [|by repeat split]. split; [by split|]. intros c st u.
  intros Hr. destruct (H c st u Hr) as (E1 & E2 & E3 & E4). split; [done|]. split; [done|]. split; [|done].
  intros E x Hin Hv. by apply (E3 E x Hin), Hsub.
Qed.

Lemma record_reclaimed_onward c d p : store_empty c "notebook_volumes" None p →
  onward p (final (zoom p_life set_life (record_reclaimed c d)) p).
Proof.
  intros He. eapply onward_of_hub;
    [apply record_onward | exact He | apply registry_members].
Qed.

Abbreviation reclaims_all := (reclaim_once p_volumes set_vols (λ c d, zoom p_life set_life (record_reclaimed c d))).

Lemma reclaim_once_onward todo : ∀ p, (∀ c us, (c, us) ∈ todo → us = default [] (p_members p !! c)) →
  onward p (final (reclaims_all todo) p).
Proof.
  induction todo as [|[c us] todo IH]; intros p Hus; [done|]. cbn [reclaim_once].
  assert (us = default [] (p_members p !! c)) as Ec by (apply Hus; left).
  assert (∀ p', same_members p p' → onward p' (final (reclaims_all todo) p')) as Hrest.
  { intros p' Ep. apply IH. intros c' us' Hin. rewrite Ep. apply Hus. by right. }
  apply respects_then; [apply _ | apply reclaim_onward |]. intros d p1 E1.
  assert (p_members p1 = p_members p) as Em by (revert E1; unfold zoom; destruct (reclaim_tenant _ _); by intros [= _ <-]).
  destruct d as [d|]; [|by apply Hrest].
  assert (store_empty c "notebook_volumes" None p1) as Hempty.
  { split; [done|]. split; [done|]. split; [|done]. intros _. rewrite Em, <- Ec. revert E1. unfold zoom.
    destruct (reclaim_tenant us (p_volumes p)) as [o h] eqn:Er. intros [= -> <-]. intros u Hu. by eapply reclaim_tenant_ok. }
  apply respects_then; [apply _ | by apply record_reclaimed_onward |]. intros [] p2 E2.
  pose proof (registry_members (record_reclaimed c d) p1) as Em2. unfold final in Em2. rewrite E2 in Em2. cbn in Em2.
  apply respects_then; [apply _ | apply Hrest; by etrans |]. intros rest p3 E3. done.
Qed.

(** The users a pass reads are those the tenant has had. *)
Lemma pending_reclaims_members p todo p' : zoom p_life set_life pending_reclaims p = (Ok todo, p') → platform_inv p →
  ∀ c us, (c, us) ∈ todo → us = default [] (p_members p' !! c).
Proof.
  unfold zoom, pending_reclaims, asks, _call. destruct (first_call (l_calls (p_life p))) as [cl rest].
  destruct cl; cbn; intros [= <- <-] [_ Hu] c us Hin.
  apply list_elem_of_fmap in Hin as (cd & [= -> ->] & [[Hp _] _]%list_elem_of_filter). cbn.
  rewrite <- Hu by exact Hp. done.
Qed.

Lemma asks_onward_p {A} (f : lifecycle → res A) : respects onward (zoom p_life set_life (asks f)).
Proof.
  intros p. eapply (onward_of_hub True);
    [by apply asks_onward | done | apply registry_members].
Qed.

Lemma reclaim_pass_onward : respects onward reclaim_pass.
Proof.
  unfold reclaim_pass. apply respects_catch; [apply _ | | intros e; respecting fail]. intros p Hp.
  pose proof Hp as [Hinv _]. revert Hp.
  change (onward p (final (zoom p_life set_life pending_reclaims ≫= λ todo, reclaims_all todo ≫= λ _, mret tt) p)).
  apply respects_then; [apply _ | apply asks_onward_p |]. intros todo p1 E1.
  apply respects_then; [apply _ | | done]. apply reclaim_once_onward. by eapply pending_reclaims_members.
Qed.

Lemma deletions_onward l : respects onward (deletions l).
Proof.
  apply respects_foldM; [apply _.. |]. intros [] [cfg| |ca t n]; cbn [act_once].
  - intros p. apply respects_then; [apply _ | apply begin_run_onward |]. intros [] p1 [= <-].
    unfold final, catch, mbind, M_bind. pose proof (main_onward cfg (begin_run cfg p)) as Hm. unfold final in Hm.
    destruct (main cfg (begin_run cfg p)) as [[z|e] p2]; apply Hm; left.
  - respecting ltac:(apply reclaim_pass_onward).
  - apply respects_modify. intros p H. split; [exact H|]. by repeat split.
Qed.

(** C17: a deleted tenant is gone from every store before its database goes.
    Over any sequence of the job's runs, under any settings, and of the hub's
    passes, whatever fails or dies in them and whatever the CA publishes and the
    tracking gateway answers: each record made stays and is true of its store,
    and a tenant's database goes only once every required store is recorded.  Its
    handles, latest readings and feature snapshots, its objects and its users'
    volumes are then gone; a run had the gateway's answer that nothing of it
    remains in the tracking store, and the CA's signed word that every unexpired
    certificate of it is revoked, no earlier than the request; and the broker's
    record says until when it may hold its readings.

    Assumed ([sound]): the capability store's other users only remove entries
    meanwhile.  The cold export is not part of these runs: see DeletionRuns'
    [deleted_tenant_exported_again] for what it brings back. *)
Theorem deletion_order (l : list act) (p : platform) (Hp : sound p) :
  let p' := final (deletions l) p in
  sound p' ∧ (∀ k, is_Some (l_steps (p_life p) !! k) → is_Some (l_steps (p_life p') !! k)) ∧
  ∀ c, c ∈ l_databases (p_life p) → c ∉ l_databases (p_life p') →
    (∀ st, st ∈ REQUIRED_STORES → is_Some (l_steps (p_life p') !! (c, st))) ∧
    cap_empty c (p_cap p') ∧ cold_empty c (p_cold p') ∧ volumes_empty (default [] (p_members p !! c)) (p_volumes p') ∧
    tracking_clear c p' ∧ certificates_revoked c p' ∧ ∀ u, l_steps (p_life p') !! (c, "broker") = Some u → broker_ages u p'.
Proof.
  intros p'. destruct (deletions_onward l p Hp) as (Hs & HM & HC & HE). fold p' in Hs, HM, HC, HE.
  split; [done|]. split; [done|]. intros c Hin Hout. pose proof (HC c Hin Hout) as Hr. split; [done|].
  destruct Hs as [_ Hs]. assert (∀ st, st ∈ REQUIRED_STORES → ∃ u, store_empty c st u p') as H.
  { intros st [u Hu]%Hr. exists u. by apply Hs. }
  rewrite <- HE. split_and!.
  - destruct (H "capability_store") as [u Hu]; [repeat constructor|]. by apply Hu.
  - destruct (H "cold_layer") as [u Hu]; [repeat constructor|]. by apply Hu.
  - destruct (H "notebook_volumes") as [u Hu]; [repeat constructor|]. by apply Hu.
  - destruct (H "tracking_store") as [u Hu]; [repeat constructor|]. by apply Hu.
  - destruct (H "device_certificates") as [u Hu]; [repeat constructor|]. by apply Hu.
  - intros u Hu. by apply (Hs c "broker" u Hu).
Qed.
End platform.
