(* ===== verification/DeletionQuiet.v ===== *)
(** * A run of the job when nothing fails

    The hypotheses of TenantDeletion's [quiet_run_completes] met by the steps
    that main.py wires (DeletionPlatform's [job_steps]): each store's step
    answers with a removal, and leaves the others able to. *)

From stdpp Require Import base gmap strings list fin_maps sorting.
From Stdlib Require Import ZArith Lia Ascii.
From S2P Require Import Prelude PyText PyNum PyJson Tenancy CapabilityAudit Sessions SqlBinding HubCapabilities ColdExport TenantDeletion DeletionStores DeletionProps CapabilityPurge DeletionPlatform.

Local Open Scope string_scope.

#[local] Arguments uuid_str : simpl never.
#[local] Arguments uuid_parse : simpl never.
#[local] Arguments t_of : simpl never.
#[local] Arguments clean_text : simpl never.

(** ** Computations that answer

    Started in a state of [I], [m] returns, in a state of [I]. *)

Definition answers {S A} (I : S → Prop) (m : M S A) : Prop := ∀ s, I s → ∃ a s', m s = (Ok a, s') ∧ I s'.

Section answers.
Context {S : Type} (I : S → Prop).

Lemma answers_ret {A} (a : A) : answers I (mret a).
Proof. intros s H. by exists a, s. Qed.
Lemma answers_lift {A} (r : res A) a : r = Ok a → answers I (lift r).
Proof. intros -> s H. by exists a, s. Qed.
Lemma answers_gets {A} (f : S → A) : answers I (gets f).
Proof. intros s H. by exists (f s), s. Qed.
Lemma answers_bind_when {A B} (P : A → Prop) (m : M S A) (k : A → M S B) :
  answers I m → yields P m → (∀ a, P a → answers I (k a)) → answers I (m ≫= k).
Proof.
  intros Hm HP Hk s Hs. destruct (Hm s Hs) as (a & s1 & E & H1). destruct (Hk a (HP _ _ _ E) s1 H1) as (b & s2 & E2 & H2).
  exists b, s2. by rewrite (bind_ok _ _ _ _ _ E).
Qed.
Lemma answers_bind {A B} (m : M S A) (k : A → M S B) : answers I m → (∀ a, answers I (k a)) → answers I (m ≫= k).
Proof. intros Hm Hk. apply (answers_bind_when (λ _, True)); [done | by intros ??? | by intros]. Qed.
End answers.

Ltac answering tac := repeat first
  [ apply answers_ret | apply answers_gets | tac | apply answers_bind; [|intros ?] | case_match ].

(** ** The capability store *)

Lemma str_lower_canonical c : canonical c → str_lower c = c.
Proof.
  intros (u & _ & _ & ->)%canonical_inv. pose proof (uuid_str_chars u) as H. induction (uuid_str u) as [|a s IH]; [done|].
  cbn in *. apply andb_true_iff in H as [Ha Hs]. rewrite IH by done. f_equal. revert Ha. clear. all_chars a.
Qed.

Section capability_store.
Context `{J : JsonCodec} `{I : IsoCodec} (py_repr : json → string) (text : string → bytes).

Definition entry_key (k : string) : bool :=
  startswith _KEY_PREFIX k || startswith _LATEST_PREFIX k || startswith ROTATED_REFRESH_PREFIX k.

(** No call fails and nobody else acts; an entry's key holds a text, and
    reading it as JSON gives a value or a [ValueError]. *)
Definition readable (s : HubCapabilities.hub) : Prop :=
  steps s = [] ∧ ∀ k, entry_key k = true →
    hashes (db s) !! k = None ∧ sets (db s) !! k = None ∧
    ∀ v e, values (db s) !! k = Some (v, e) → ∃ o, load v = Ok o.

Lemma redis_answers_ok {A} (op : Z → capdb → A * capdb) :
  (∀ s, readable s → readable (set_db (op (now s) (db s)).2 s)) → answers readable (redis op).
Proof.
  intros H s Hs. pose proof Hs as [Hq _]. rewrite redis_run. unfold how, found, final, HubCapabilities.next. rewrite Hq. cbn.
  eexists _, _. split; [reflexivity|]. exact (H s Hs).
Qed.

(** A command that takes values away, or writes none of an entry. *)
Lemma takes_answers {A} (op : Z → capdb → A * capdb) :
  (∀ t d k, entry_key k = true →
    (values (op t d).2 !! k = None ∨ values (op t d).2 !! k = values d !! k) ∧
    (hashes d !! k = None → hashes (op t d).2 !! k = None) ∧ (sets d !! k = None → sets (op t d).2 !! k = None)) →
  answers readable (redis op).
Proof.
  intros H. apply redis_answers_ok. intros s [Hq Hs]. split; [done|]. intros k Hk. cbn.
  destruct (H (now s) (db s) k Hk) as (Hv & Hh & Hse). destruct (Hs k Hk) as (H1 & H2 & H3).
  split; [auto|]. split; [auto|]. intros v e E. destruct Hv as [Hv|Hv]; [congruence|]. rewrite Hv in E. by eapply H3.
Qed.

Lemma scan_answers p : answers readable (scan_iter p).
Proof. apply takes_answers. intros t d k _. split; [by right | done]. Qed.

Lemma foldr_delete_none {V} (m : gmap string V) ks k : m !! k = None → foldr delete m ks !! k = None.
Proof.
  intros H. induction ks as [|x ks IH]; [done|]. cbn. destruct (decide (x = k)) as [->|]; [apply lookup_delete_eq|].
  by rewrite lookup_delete_ne.
Qed.
Lemma foldr_delete_or {V} (m : gmap string V) ks k : foldr delete m ks !! k = None ∨ foldr delete m ks !! k = m !! k.
Proof.
  induction ks as [|x ks IH]; [by right|]. cbn. destruct (decide (x = k)) as [->|]; [left; apply lookup_delete_eq|].
  by rewrite lookup_delete_ne.
Qed.

Lemma delete_answers ks : answers readable (redis (db_delete ks)).
Proof.
  apply takes_answers. intros t d k _. cbn. split; [apply foldr_delete_or|]. split; apply foldr_delete_none.
Qed.
Lemma delete_all_answers f : ∀ ks, answers readable (delete_all f ks).
Proof.
  induction f as [|f IH]; intros [|k ks]; cbn [delete_all]; answering ltac:(first [apply delete_answers | apply IH]).
Qed.
Lemma gather_answers us : answers readable (gather us).
Proof.
  induction us as [|u us IH]; cbn [gather]; unfold hkeys, smembers;
    answering ltac:(first [exact IH | apply takes_answers; intros t d k _; split; [by right | done]]).
Qed.
Lemma marker_answers c : answers readable (set_ (_SUSPENDED_PREFIX +:+ c) (text "1")).
Proof.
  apply takes_answers. intros t d k Hk. cbn.
  assert (_SUSPENDED_PREFIX +:+ c ≠ k) as Hne.
  { intros <-. unfold entry_key in Hk. rewrite !orb_true_iff in Hk. destruct Hk as [[(r & E)%startswith_spec|(r & E)%startswith_spec]|(r & E)%startswith_spec]; done. }
  split; [right; by apply lookup_insert_ne|]. split; intros H; by rewrite lookup_delete_ne.
Qed.

(** What an entry's value is read as. *)
Lemma get_answers k (test : option bytes → res bool) : entry_key k = true →
  (∀ raw, (∃ o, loaded raw = Ok o) → ∃ b, test raw = Ok b) → answers readable (raw ← get k; lift (test raw)).
Proof.
  intros Hk Ht s Hs. assert (∃ raw, get k s = (Ok raw, s) ∧ ∃ o, loaded raw = Ok o) as (raw & E & Hraw).
  { destruct Hs as [Hq Hs]. destruct (Hs k Hk) as (H1 & H2 & H3). unfold get.
    assert (redis (λ now d, (typed_get k now d, d)) s = (Ok (typed_get k (now s) (db s)), s)) as E.
    { rewrite redis_run. unfold how, found, final, HubCapabilities.next. rewrite Hq. by destruct s. }
    rewrite (bind_ok _ _ _ _ _ E). unfold typed_get, hgetall, sget, vget. rewrite H1, H2.
    destruct (values (db s) !! k) as [[v e]|]; cbn.
    - destruct (unexpired (now s) e); [|exists None; split; [by rewrite bool_decide_true | by eexists]].
      exists (Some v). split; [done|]. cbn. by eapply H3.
    - exists None. split; [by rewrite bool_decide_true | by eexists]. }
  destruct (Ht raw Hraw) as [b Hb]. exists b, s. rewrite (bind_ok _ _ _ _ _ E), Hb. done.
Qed.

Lemma such_answers (p : string) (test : string → M HubCapabilities.hub bool) l : (∀ k, k ∈ l → answers readable (test k)) → answers readable (such test l).
Proof.
  induction l as [|x l IH]; intros Ht; cbn; [apply answers_ret|].
  apply answers_bind; [apply Ht; left|]. intros b. apply answers_bind; [apply IH; intros; apply Ht; by right|]. intros. apply answers_ret.
Qed.

Lemma bound_to_ok c raw : (∃ o, loaded raw = Ok o) → ∃ b, _bound_to py_repr raw c = Ok b.
Proof. intros [o E]. unfold _bound_to. rewrite E. by eexists. Qed.
Lemma names_user_ok us raw : (∃ o, loaded raw = Ok o) → ∃ b, _names_user py_repr raw us = Ok b.
Proof. intros [o E]. unfold _names_user. rewrite E. by eexists. Qed.

Lemma scanned_answers p (test : option bytes → res bool) (skip : string → bool) ks :
  (∀ k, startswith p k = true → entry_key k = true) → (∀ k, k ∈ ks → startswith p k = true) →
  (∀ raw, (∃ o, loaded raw = Ok o) → ∃ b, test raw = Ok b) →
  answers readable (such (λ k, if skip k then mret false else raw ← get k; lift (test raw)) ks).
Proof.
  intros Hp Hks Ht. apply (such_answers p). intros k Hk. destruct (skip k); [apply answers_ret | apply get_answers; auto].
Qed.

Lemma matching_answers p c : (∀ k, startswith p k = true → entry_key k = true) → answers readable (_matching py_repr p c).
Proof.
  intros Hp. unfold _matching. apply (answers_bind_when _ _ _ _ (scan_answers p) (scan_part p)). intros ks Hks.
  eapply scanned_answers; [exact Hp | exact Hks | apply bound_to_ok].
Qed.

(** Every entry's facts make an event. *)
Definition facts_named (fs : facts) : Prop :=
  (∀ c, fact_company_id fs = Some c → canonical c) ∧ (∀ a, fact_audience fs = Some a → a ∈ AUDIENCES) ∧
  (∀ h, fact_handle_id fs = Some h → is_Some (uuid_parse h)).

Lemma id_or_empty_canonical v c : id_or_empty v = Some c → canonical c ∧ is_Some (uuid_parse c).
Proof.
  unfold id_or_empty. destruct (truthy v); [|done]. intros (u & Hu & ->)%fmap_Some.
  assert (0 ≤ u < uuid_bound)%Z as Hb by (destruct v; cbn in Hu; try done; by eapply uuid_parse_bound).
  split; [by apply canonical_str|]. rewrite uuid_parse_str by done. by eexists.
Qed.

Lemma entry_facts_named raw fs : _entry_facts raw = Ok fs → facts_named fs.
Proof.
  unfold _entry_facts. intros (v & _ & E)%res_bind_inv_ok.
  assert (facts_named no_facts) as Hnone by by repeat split.
  destruct v as [[| | | | | |record]|]; injection E as <-; try done.
  split; [|split]; cbn.
  - by intros c [? _]%id_or_empty_canonical.
  - intros a. destruct (jget "audience" record); try done. case_bool_decide; [by intros [= <-] | done].
  - by intros h [_ ?]%id_or_empty_canonical.
Qed.

Lemma deleted_event_ok fs c t : canonical c → facts_named fs → ∃ e, event (deleted_event fs c) t = Ok e.
Proof.
  intros Hc (H1 & H2 & H3). unfold event, deleted_event. cbn [a_kind a_plane a_audience a_company_id a_handle_id a_digest].
  rewrite !bool_decide_true by (cbv; set_solver). cbn [negb].
  replace (match fact_audience fs with Some x => negb (bool_decide (x ∈ AUDIENCES)) | None => false end) with false.
  2:{ destruct (fact_audience fs); [|done]. rewrite bool_decide_true by auto. done. }
  assert (canonical (default c (fact_company_id fs))) as Hd by (destruct (fact_company_id fs); [by apply H1 | done]).
  unfold canonical in Hd. rewrite Hd. cbn [fmap]. destruct (fact_handle_id fs) as [h|]; [|by eexists].
  destruct (H3 h eq_refl) as [u Hu]. rewrite Hu. by eexists.
Qed.

Lemma revoke_answers key c : canonical c → entry_key key = true → answers readable (_revoke key c).
Proof.
  intros Hc Hk s Hs. unfold _revoke.
  destruct (get_answers key (λ raw, fs ← _entry_facts raw; Ok true) Hk) with s as (b' & s1 & E & Hs1); [|done|].
  { intros raw [o Ho]. unfold _entry_facts. rewrite Ho. by eexists. }
  apply bind_inv_ok in E as (raw & s2 & E1 & [E2 ->]%lift_inv). apply res_bind_inv_ok in E2 as (fs & Ef & _).
  rewrite (bind_ok _ _ _ _ _ E1), Ef. cbn [lift].
  destruct (deleted_event_ok fs c (now s2) Hc (entry_facts_named _ _ Ef)) as [e He].
  assert (delete_recorded_args key e = Ok (CallDelete key e)) as Hargs.
  { unfold delete_recorded_args. destruct (event_ids _ _ _ He) as (-> & _). cbn. by rewrite bool_decide_true by set_solver. }
  unfold mbind, M_bind, lift, gets. rewrite He, Hargs. cbn [store_eval].
  apply takes_answers; [|done]. intros t d k _. unfold db_delete_recorded.
  destruct (vget t key d); cbn; (split; [|done]); (destruct (decide (k = key)) as [->|]; [left; apply lookup_delete_eq | right; by apply lookup_delete_ne]).
Qed.

Lemma revoke_all_answers c ks : canonical c → (∀ k, k ∈ ks → entry_key k = true) → answers readable (revoke_all ks c).
Proof.
  intros Hc. induction ks as [|k ks IH]; intros Hks; cbn; [apply answers_ret|].
  apply answers_bind; [apply revoke_answers; [done | apply Hks; left]|]. intros _. apply IH. intros x Hx. apply Hks. by right.
Qed.

Lemma gather_handles us : yields (λ r, ∀ k, k ∈ r.1.1 → startswith _KEY_PREFIX k = true) (gather us).
Proof.
  induction us as [|u us IH]; [by apply yields_ret; intros k ?%elem_of_nil|]. cbn.
  do 3 (apply yields_bind; intros ?). intros s r s' ([[hs is_] ss] & s1 & E & H)%bind_inv_ok. apply IH in E. inversion H; subst.
  cbn [fst snd] in *. intros k. rewrite elem_of_app, list_elem_of_fmap. intros [(h & -> & _)|Hk]; [apply startswith_app | auto].
Qed.

Lemma key_entry k : startswith _KEY_PREFIX k = true → entry_key k = true.
Proof. unfold entry_key. by intros ->. Qed.

Theorem purge_answers c us at_ : canonical c → answers readable (purge py_repr text c us at_).
Proof.
  intros Hc. unfold purge. rewrite (str_lower_canonical c Hc).
  apply (answers_bind_when _ _ _ _ (matching_answers _ c key_entry) (matching_part _ _ c)). intros bound Hbound.
  apply (answers_bind_when _ _ _ _ (gather_answers us) (gather_handles us)). intros [[named indexes] sessions] Hnamed.
  apply (answers_bind_when _ _ _ _ (scan_answers _) (scan_part _)). intros rotated Hrot.
  apply answers_bind.
  { apply (scanned_answers ROTATED_REFRESH_PREFIX (λ raw, _names_user py_repr raw us) (λ _, false)); [|done | apply names_user_ok].
    intros k Hk. unfold entry_key. rewrite Hk. apply orb_true_r. }
  intros rotations. apply answers_bind; [apply scan_answers|]. intros features.
  apply answers_bind; [apply matching_answers; intros k Hk; unfold entry_key; rewrite Hk; by rewrite orb_true_r|]. intros latest.
  apply answers_bind.
  { apply revoke_all_answers; [done|]. intros k. unfold sorted_set. rewrite merge_sort_Permutation, elem_of_remove_dups, elem_of_app.
    intros [Hk|Hk]; apply key_entry; [by apply Hbound | by apply Hnamed]. }
  intros _. apply answers_bind; [apply delete_all_answers|]. intros _. apply answers_bind; [apply marker_answers|]. intros _. apply answers_ret.
Qed.

Lemma purge_some c us at_ : yields (λ r, is_Some r) (purge py_repr text c us at_).
Proof. unfold purge. repeat (apply yields_bind; intros); try (destruct_and?; repeat case_match; repeat (apply yields_bind; intros)); apply yields_ret; by eexists. Qed.
End capability_store.

(** ** The cold layer *)

(** No call to the object store fails. *)
Definition cold_quiet (w : world) : Prop := script w = [].

Lemma list_page_quiet p w : cold_quiet w → list_page p w = (Ok (firstn _BATCH (keys_under p (objects w))), w).
Proof. intros H. unfold list_page, query, mbind, M_bind, next. by rewrite H. Qed.
Lemma delete_batch_quiet ks w : cold_quiet w → delete_batch ks w = (Ok 0%nat, set_objects (delete_keys ks (objects w)) w).
Proof. intros H. unfold delete_batch, mbind, M_bind, next. by rewrite H. Qed.

Lemma purge_loop_answers p fuel : ∀ prev n w, cold_quiet w →
  (∀ x, x ∈ default [] prev → x ∉ keys_under p (objects w)) → ∃ r w', purge_loop fuel p prev n w = (Ok r, w') ∧ cold_quiet w'.
Proof.
  induction fuel as [|fuel IH]; intros prev n w Hq Hprev; [by exists None, w|]. cbn [purge_loop].
  rewrite (bind_ok _ _ _ _ _ (list_page_quiet p w Hq)).
  destruct (firstn _BATCH (keys_under p (objects w))) as [|x ks] eqn:Ek; [by exists (Some n), w|].
  assert (x ∈ keys_under p (objects w)) as Hx.
  { apply (subseteq_take _BATCH). rewrite Ek. left. }
  rewrite bool_decide_false by (intros <-; apply (Hprev x); [left | done]).
  rewrite (bind_ok _ _ _ _ _ (delete_batch_quiet (x :: ks) w Hq)). cbn [Nat.ltb Nat.leb].
  apply IH; [done|]. cbn [default objects set_objects]. intros y Hy [_ [v Hv]]%keys_under_elem. cbn in Hv.
  pose proof (delete_keys_in (x :: ks) (objects w) y Hy) as Hn. cbn in Hn. congruence.
Qed.

Lemma cold_purge_answers bucket c us at_ w : canonical c → cold_quiet w →
  ∃ r w', cold_purge bucket c us at_ w = (Ok (Some r), w') ∧ cold_quiet w'.
Proof.
  intros Hc Hq. assert (∃ q, cold_key_prefix c = Ok q) as [q Hp].
  { unfold cold_key_prefix, cold_object_prefix. rewrite Hc. by eexists. }
  assert (∃ r w', cold_purge bucket c us at_ w = (Ok r, w') ∧ cold_quiet w') as (r & w' & E & Hq').
  { unfold cold_purge. rewrite Hp. unfold mbind at 1 2, M_bind at 1 2. cbn [lift gets].
    destruct (purge_loop_answers q (S (S (size (objects w)))) None 0 w Hq) as (r & w' & E & Hq'); [by intros x ?%elem_of_nil|].
    rewrite (bind_ok _ _ _ _ _ E). eexists _, w'. done. }
  destruct (cold_purge_ok _ _ _ _ _ _ _ E) as (p & m & _ & _ & ->). by eexists _, w'.
Qed.

(** ** The wired job *)

Section job.
Context `{J : JsonCodec} `{I : IsoCodec} (py_repr : json → string) (text : string → bytes).
Context (strptime : string → string → res Z).
Context (issued_by : cert → cert → bool) (crl_signed : crl → string → bool) (register_signed : string → string → string → bool)
  (sha256 : string → string).
Context (cfg : config) (p0 : platform).

(** Every store has its settings, and the broker's retention is a [timedelta]
    whose seconds are a float. *)
Definition fully_configured : Prop :=
  is_Some (c_cold cfg) ∧ is_Some (c_tracking cfg) ∧ c_device_ca cfg = true ∧
  (∃ h, float_div_int (c_broker_retention cfg) 1000000 = Ok h) ∧ (0 < c_backup_retention cfg)%Z.

(** No call of the job fails and nobody else acts on the stores while it runs. *)
Definition stores_quiet (p : platform) : Prop :=
  readable (p_cap p) ∧ cold_quiet (p_cold p) ∧ p_ca p = p_ca p0 ∧ p_tracking p = p_tracking p0 ∧ p_now p = p_now p0.

(** The tracking server's collection has been through, and the operator has
    published the revocation, for the request made at [at_]. *)
Definition can_go (c : string) (at_ : Z) : Prop :=
  canonical c ∧ (∀ url, c_tracking cfg = Some url → gateway_clear (p_tracking p0) url c) ∧
  ∃ ca l number issued, authentic strptime issued_by crl_signed register_signed (p_ca p0) ca l number issued ∧
    revoked_all l number issued (p_now p0) c at_.

Abbreviation steps_of := (job_steps py_repr text strptime issued_by crl_signed register_signed sha256 cfg).

Lemma step_answers st : fully_configured → st ∈ REQUIRED_STORES → st ≠ "notebook_volumes" → ∃ f, steps_of st = Some f ∧
  ∀ c us at_ p, can_go c at_ → stores_quiet p → ∃ r p', f c us at_ p = (Ok (Some r), p') ∧ stores_quiet p'.
Proof.
  intros ([bucket Hb] & [url Hu] & Hd & [h Hh] & _) Hst Hne. unfold REQUIRED_STORES in Hst. rewrite !elem_of_cons in Hst.
  unfold job_steps. destruct Hst as [->|[->|[->|[->|[->|[->|[]%elem_of_nil]]]]]]; [| | |done| |];
    repeat (rewrite bool_decide_true by done || rewrite bool_decide_false by done); rewrite ?Hb, ?Hu, ?Hd; eexists; (split; [done|]);
    intros c us at_ p (Hc & Hclear & Hrev) (H1 & H2 & H3 & H4 & H5).
  - destruct (purge_answers py_repr text c us at_ Hc (p_cap p) H1) as (r & s' & E & H1').
    destruct (purge_some py_repr text c us at_ _ _ _ E) as [x ->]. exists x, (set_cap s' p). unfold zoom. by rewrite E.
  - destruct (cold_purge_answers bucket c us at_ (p_cold p) Hc H2) as (r & w' & E & H2').
    exists r, (set_cold w' p). unfold zoom. by rewrite E.
  - rewrite H4. destruct (tracking_purge_clear _ _ _ (Hclear url Hu)) as [r E]. exists r, p. by rewrite E.
  - rewrite H3, H5. destruct (proj2 (verify_iff strptime issued_by crl_signed register_signed sha256 (p_ca p0) (p_now p0) c at_) Hrev) as [r E].
    exists r, p. split; [|done]. destruct (verify _ _ _ _ _ _ _ _ _) as [[x|]|]; cbn in E; try done. by injection E as ->.
  - unfold broker_step. rewrite Hh. cbn [mbind res_bind]. eexists _, p. split; [|done]. reflexivity.
Qed.

(** C20: nothing more is needed to delete.  A run of the job as main.py wires it,
    every store having its settings, in which no call fails, no other run holds
    the lock and nobody else acts, completes every pending deletion in one pass
    and exits 0, once the hub has recorded the tenants' notebook volumes, the
    gateway answers that nothing of them remains and the CA's files show their
    certificates revoked since the request: exactly those databases are gone.
    The capability store's entries are texts that read as JSON or are refused
    with a [ValueError], and no database holds what its drop would refuse. *)
Theorem quiet_job_completes :
  fully_configured → stores_quiet p0 →
  l_calls (p_life p0) = [] → l_busy (p_life p0) = false → l_strays (p_life p0) = ∅ →
  NoDup (l_deletions (p_life p0)).*1 →
  (∀ cd, cd ∈ l_deletions (p_life p0) → completed cd.2 = false →
     can_go cd.1 (requested_at cd.2) ∧ is_Some (l_steps (p_life p0) !! (cd.1, "notebook_volumes"))) →
  let todo := map fst (base.filter (λ cd, completed cd.2 = false) (l_deletions (p_life p0))) in
  ∃ p', main py_repr text strptime issued_by crl_signed register_signed sha256 cfg p0 = (Ok 0%Z, p') ∧
    l_databases (p_life p') = l_databases (p_life p0) ∖ list_to_set todo ∧
    l_deletions (p_life p') = foldr (λ c, map (complete_deletion c)) (l_deletions (p_life p0)) (rev todo).
Proof.
  intros Hcfg Hq H1 H2 H3 Hkey Hvol todo.
  destruct (quiet_run_completes p_life set_life steps_of stores_quiet can_go) with (ret := c_backup_retention cfg) (s := p0)
    as (p' & E & Hd & Hl).
  - done.
  - intros st. by apply step_answers.
  - apply Hcfg.
  - by split_and!.
  - done.
  - exact Hvol.
  - exists p'. split; [|done]. unfold main, catch. by rewrite (bind_ok _ _ _ _ _ E).
Qed.
End job.
