(* ===== verification/DeletionRuns.v ===== *)
(** * Deletions run

    Concrete runs of DeletionPlatform: a deletion that waits, is resumed and
    completes; one during which the cold export goes on; and the theorems of the
    deletion's files applied to them. *)

From stdpp Require Import base gmap strings list fin_maps.
From Stdlib Require Import ZArith Lia Ascii.
From Corelib Require Import SpecFloat.
From S2P Require Import Prelude PyText PyNum PyJson Tenancy CapabilityAudit SqlBinding HubCapabilities ColdExport ColdExportProps ColdRuns TenantDeletion DeletionStores DeletionProps CapabilityPurge DeletionPlatform DeletionQuiet.

Local Open Scope string_scope.

#[local] Existing Instance decoded_codec.
#[local] Existing Instance hex_iso.

Definition w_text (s : string) : bytes := Ok (JStr s).
Definition tab : string := String "009" EmptyString.
Definition line_end : string := String "010" EmptyString.

(** One device certificate of the tenant, and the CA's files: the CRL revokes
    those of [revoked_], signed at [signed]. *)
Definition w_register : string :=
  "# issued" +:+ line_end +:+ "crl_number" +:+ tab +:+ "1F" +:+ line_end +:+
  "AB" +:+ tab +:+ "300101000000Z" +:+ tab +:+ w_company +:+ tab +:+ "press-1" +:+ line_end.
Definition w_root : cert := {| subject := "root"; issuer := "root"; cert_key := "k0" |}.
Definition w_ca : cert := {| subject := "devices"; issuer := "root"; cert_key := "k1" |}.
Definition w_published (revoked_ : list Z) (signed : Z) : published :=
  {| certs := Ok [w_ca; w_root];
     crls := Ok [{| crl_issuer := "root"; crl_number := 3; next_update := None; last_update := 0; revoked := [] |};
                 {| crl_issuer := "devices"; crl_number := 31; next_update := Some 90000000%Z; last_update := signed;
                    revoked := revoked_ |}];
     register := Ok w_register; signature := Ok "signed" |}.
Definition w_strptime (fmt s : string) : res Z := if bool_decide (fmt = "%y%m%d%H%M%SZ") then Ok 80000000%Z else Err ValueError.
Definition w_issued_by (a b : cert) : bool := bool_decide (issuer a = subject b).
Definition w_crl_signed (l : crl) (k : string) : bool := bool_decide (k = "k1").
Definition w_register_signed (k sig data : string) : bool := bool_decide (k = "k1" ∧ sig = "signed").
Definition w_sha (s : string) : string := "sha256".

Definition w_tracking (n : Z) (path : string) : res json :=
  Ok (JDict [("company_id", JStr w_company); ("remaining", JDict [("experiments", JInt n); ("artifacts", JInt 0)])]).

Definition w_other : string := "22222222-2222-2222-2222-222222222222".
Definition w_entry (company handle_id : string) : json :=
  JDict [("user", JStr "u1"); ("company_id", JStr company); ("audience", JStr "api"); ("handle_id", JStr handle_id)].
Definition w_handle_id : string := "00000000-0000-0000-0000-0000000000aa".

Definition w_cap (sts : list hub_step) : HubCapabilities.hub :=
  {| db := {| values := list_to_map [("nbcap:h1", (Ok (w_entry w_company w_handle_id), Some 50000000%Z));
                                     ("nbcap:h2", (Ok (w_entry w_other w_handle_id), Some 50000000%Z));
                                     ("features:" +:+ w_company +:+ ":e1", (Ok JNull, None));
                                     ("sensor:latest:s1", (Ok (JDict [("company_id", JStr w_company)]), None))];
              hashes := {["nbcap-user:u1" := ([("h1", "server")], Some 50000000%Z)]};
              sets := {["refresh-user:u1" := ({["t1"]}, None)]};
              appended := [] |};
     now := 10000000; tokens := []; ids := []; steps := sts |}.

Definition w_key (c : string) : string := "tenant_" +:+ c +:+ "/year=2023/month=01/day=01/measurements.parquet".
Definition w_cold (sc : list turn) : world :=
  {| hot := {[w_schema := w_table [(1, 1); (2, 2)]%Z]}; drops := ∅;
     objects := list_to_map [(w_key w_company, Parquet []); (w_key w_other, Parquet [])];
     registry := [(w_company, w_schema)]; script := sc; gone := [] |}.

(** The deletion was requested in the second in which the CRL is signed; the
    hub's deletion of the user leaves its volume. *)
Definition w_platform (cap : list hub_step) (sc : list turn) : platform :=
  {| p_life := {| l_deletions := [(w_company, {| requested_at := 8500000; completed := false |})]; l_steps := ∅;
                  l_users := {[w_company := ["u1"]]}; l_databases := {[w_company; w_other]}; l_strays := ∅; l_busy := false;
                  l_calls := [] |};
     p_cap := w_cap cap; p_cold := w_cold sc;
     p_volumes := {| volumes := {["u1"; "u2"]}; hub_calls := [KeepsVolume] |};
     p_ca := w_published [] 8000000; p_tracking := w_tracking 1; p_now := 10000000; p_members := {[w_company := ["u1"]]}; p_runs := [] |}.

Definition w_cfg : config :=
  {| c_cold := Some "cold"; c_tracking := Some "http://gateway"; c_device_ca := true;
     c_broker_retention := 7200000000; c_backup_retention := 86400000000 |}.

Abbreviation w_deletions :=
  (deletions no_repr w_text w_strptime w_issued_by w_crl_signed w_register_signed w_sha).

(** The first run finds the object store down; the second waits for the tracking
    server's collection, the operator and the hub; the third completes. *)
Definition w_acts : list act :=
  [JobRun w_cfg; JobRun w_cfg; HubPass; Outside (w_published [171%Z] 8000000) (w_tracking 0) 20000000; JobRun w_cfg].
Definition w_down : list turn := [{| others := []; goes := Plain (Fails ClientError) |}].

Definition shown (p : platform) : list string * list string * list string * list string * list string * nat :=
  (elements (l_databases (p_life p)),
   map (λ k, k.2) (map fst (map_to_list (l_steps (p_life p)))),
   map fst (map_to_list (values (db (p_cap p)))),
   map fst (map_to_list (objects (p_cold p))),
   elements (volumes (p_volumes p)),
   length (appended (db (p_cap p)))).

Definition w_at (n : nat) : platform := final (w_deletions (firstn n w_acts)) (w_platform [] w_down).

(** At first; after each run, and after the hub's pass; at the end. *)
Definition w_tenant_key : string := w_key w_company.
Definition w_marker : string := "nbcap-suspended:" +:+ w_company.

Example deletion_resumed : map (λ n, shown (w_at n)) [1; 2; 3; 5]%nat =
  [ ([w_company; w_other], ["capability_store"], [w_marker; "nbcap:h2"], [w_tenant_key; w_key w_other], ["u1"; "u2"], 1%nat);
    ([w_company; w_other], ["cold_layer"; "capability_store"; "broker"], [w_marker; "nbcap:h2"], [w_key w_other],
     ["u1"; "u2"], 1%nat);
    ([w_company; w_other], ["cold_layer"; "capability_store"; "notebook_volumes"; "broker"], [w_marker; "nbcap:h2"],
     [w_key w_other], ["u2"], 1%nat);
    ([w_other], ["cold_layer"; "capability_store"; "notebook_volumes"; "broker"; "tracking_store"; "device_certificates"],
     [w_marker; "nbcap:h2"], [w_key w_other], ["u2"], 1%nat) ].
Proof. vm_compute. reflexivity. Qed.

(** *** The export goes on meanwhile

    The cold export exports every tenant the registry has, and a tenant whose
    deletion waits is still there: after its prefix is purged and recorded, the
    day that reaches the horizon is written under it again.  The deletion then
    completes, and the objects stay. *)
Definition w_export (p : platform) : platform :=
  set_cold (final (run_export no_repr w_digest 30 (w_day + 31)) (p_cold p)) p.

Definition w_exported : platform :=
  final (w_deletions [HubPass; Outside (w_published [171%Z] 8000000) (w_tracking 0) 20000000; JobRun w_cfg])
    (w_export (final (w_deletions [JobRun w_cfg]) (w_platform [] []))).

Example deleted_tenant_exported_again :
  elements (l_databases (p_life w_exported)) = [w_other] ∧
  keys_under (w_prefix +:+ "/") (objects (p_cold w_exported)) =
    [w_prefix +:+ "/year=2024/month=01/day=01/_manifest.json"; w_prefix +:+ "/year=2024/month=01/day=01/measurements.parquet"].
Proof. vm_compute. done. Qed.

(** ** The theorems, applied *)

Lemma w_sound cap sc : Forall removing cap → sound no_repr w_strptime w_issued_by w_crl_signed w_register_signed (w_platform cap sc).
Proof.
  intros Hcap. split; [|intros c st u Hx; cbn in Hx; by rewrite lookup_empty in Hx]. split; [exact Hcap|]. done.
Qed.

Lemma deletion_order_witness :
  (w_company ∈ l_databases (p_life (w_platform [] w_down))) ∧
  let p' := final (w_deletions w_acts) (w_platform [] w_down) in
  (w_company ∉ l_databases (p_life p')) ∧ volumes_empty ["u1"] (p_volumes p') ∧ cold_empty w_company (p_cold p') ∧
  tracking_clear w_company p' ∧ certificates_revoked w_strptime w_issued_by w_crl_signed w_register_signed w_company p'.
Proof.
  assert (w_company ∈ l_databases (p_life (w_platform [] w_down))) as Hin by (cbn; set_solver).
  split; [exact Hin|]. intros p'.
  assert (w_company ∉ l_databases (p_life p')) as Hout by (apply (bool_decide_eq_false_1 _); vm_compute; reflexivity).
  destruct (deletion_order no_repr w_text w_strptime w_issued_by w_crl_signed w_register_signed w_sha w_acts
              (w_platform [] w_down) (w_sound [] w_down (Forall_nil_2 _))) as (_ & _ & H).
  destruct (H w_company Hin Hout) as (_ & _ & Hcold & Hvol & Htrack & Hcert & _).
  split; [exact Hout|]. split; [exact Hvol|]. split; [exact Hcold|]. split; [exact Htrack | exact Hcert].
Defined.

Lemma cold_purge_exact_witness :
  let w' := final (cold_purge "cold" w_company [] 0) (w_cold []) in
  objects w' !! w_key w_company = None ∧ objects w' !! w_key w_other = Some (Parquet []).
Proof.
  intros w'. destruct (cold_purge_exact "cold" w_company [] 0 (w_cold []) _ w' (surjective_pairing _)) as [Hgone Hother].
  split.
  - destruct (Hgone (Some {| detail := [("bucket", JStr "cold"); ("prefix", JStr (w_prefix +:+ "/")); ("objects", JInt 1)];
                             retained_until := None |})) as (_ & p & Hp & Hk); [vm_compute; reflexivity|].
    apply Hk. injection Hp as <-. vm_compute. reflexivity.
  - rewrite (Hother w_other ("tenant_" +:+ w_other +:+ "/")); vm_compute; done.
Defined.

(** A handle another service removes while the purge runs. *)
Definition w_removes (k : string) : hub_step :=
  {| HubCapabilities.others := with_values (delete k); passes := 1; outcome_of := Runs |}.
Lemma w_only_removes k : removing (w_removes k).
Proof.
  split; [done|]. intros d k'. cbn. destruct (decide (k' = k)) as [->|]; [right; apply lookup_delete_eq | left; by apply lookup_delete_ne].
Qed.

Lemma tenant_purged_witness :
  let s' := final (purge no_repr w_text w_company ["u1"] 0) (w_cap [w_removes "nbcap:h2"]) in
  kept w_marker (w_text "1") s' ∧ ∀ k v, startswith "nbcap:" k = true → kept k v s' →
    _bound_to no_repr (Some v) w_company = Ok false.
Proof.
  intros s'.
  pose (r := match fst (purge no_repr w_text w_company ["u1"] 0 (w_cap [w_removes "nbcap:h2"])) with Ok r => r | _ => None end).
  destruct (tenant_purged no_repr w_text w_company ["u1"] 0 (w_cap [w_removes "nbcap:h2"]) r s') as (H & _ & Hm);
    [vm_compute; reflexivity | apply Forall_singleton, w_only_removes |].
  split; [exact Hm|]. intros k v Hk Hv. apply (H k v); [by apply orb_true_iff; left | exact Hv].
Defined.

Lemma purged_handles_recorded_witness :
  alone (w_cap []) ∧
  let s' := final (purge no_repr w_text w_company ["u1"] 0) (w_cap []) in
  ∃ e, e ∈ appended (db s') ∧ records_end w_company (Ok (w_entry w_company w_handle_id)) e.
Proof.
  split; [constructor|]. intros s'.
  destruct (purged_handles_recorded no_repr w_text w_company ["u1"] 0 (w_cap []) (Forall_nil_2 _)) as (_ & _ & _ & new & E & H).
  destruct (H "nbcap:h1" (Ok (w_entry w_company w_handle_id))) as (e & He & Hr); [vm_compute; reflexivity.. |].
  exists e. split; [|exact Hr]. unfold s'. rewrite E. exact He.
Defined.

(** *** Stores that can always be emptied *)

Record shelf := { s_life : lifecycle; s_held : gset (string * string) }.
Definition set_shelf (l : lifecycle) (s : shelf) : shelf := {| s_life := l; s_held := s_held s |}.
Definition shelf_step (st c : string) (us : list string) (at_ : Z) : M shelf (option Removal) := λ s,
  (Ok (Some {| detail := []; retained_until := None |}), {| s_life := s_life s; s_held := s_held s ∖ {[(st, c)]} |}).
Definition shelf_steps (st : string) : option (string → list string → Z → M shelf (option Removal)) :=
  if bool_decide (st = "notebook_volumes") then None else Some (shelf_step st).

#[export] Instance shelf_deletion : DeletionSteps s_life set_shelf shelf_steps.
Proof.
  refine {| s_empty := λ c st _ s, (st, c) ∉ s_held s; s_inv := λ _, True |}; try done.
  - intros st f c us at_ s. unfold shelf_steps. case_bool_decide; [done|]. by intros [= <-].
  - intros st f c us at_ s r s'. unfold shelf_steps. case_bool_decide; [done|]. intros [= <-] _ _ [= _ <-]. cbn. set_solver.
  - intros st f c us at_ s. unfold shelf_steps. case_bool_decide; [done|]. intros [= <-] _. split; [done|]. intros c' st' u. cbn. set_solver.
Defined.

Definition w_shelf : shelf :=
  {| s_life := {| l_deletions := [(w_company, {| requested_at := 1; completed := false |}); (w_other, {| requested_at := 2; completed := true |})];
                  l_steps := {[(w_company, "notebook_volumes") := None]}; l_users := ∅; l_databases := {[w_company]}; l_strays := ∅;
                  l_busy := false; l_calls := [] |};
     s_held := {[("cold_layer", w_company)]} |}.

Lemma database_emptied_last_witness :
  let s' := final (run s_life set_shelf shelf_steps 1) w_shelf in
  (w_company ∉ l_databases (s_life s')) ∧ ("cold_layer", w_company) ∉ s_held s'.
Proof.
  intros s'. assert (w_company ∉ l_databases (s_life s')) as Hout by (apply (bool_decide_eq_false_1 _); vm_compute; reflexivity).
  destruct (database_emptied_last s_life set_shelf shelf_steps 1 w_shelf) as (_ & _ & H).
  { split; [exact I|]. intros c st x Hx. cbn in Hx |- *. apply lookup_singleton_Some in Hx as [[= <- <-] _]. set_solver. }
  split; [exact Hout|]. destruct (H w_company ltac:(cbn; set_solver) Hout "cold_layer") as (u & _ & Hs); [repeat constructor | exact Hs].
Defined.

(** *** Nothing fails

    The hub has recorded the volumes, the tracking server has collected, and the
    operator has published the revocation. *)
Definition w_ready : platform :=
  let p := w_platform [] [] in
  {| p_life := {| l_deletions := l_deletions (p_life p); l_steps := {[(w_company, "notebook_volumes") := None]};
                  l_users := l_users (p_life p); l_databases := l_databases (p_life p); l_strays := ∅; l_busy := false; l_calls := [] |};
     p_cap := p_cap p; p_cold := p_cold p; p_volumes := p_volumes p; p_ca := w_published [171%Z] 8000000;
     p_tracking := w_tracking 0; p_now := 20000000; p_members := p_members p; p_runs := [] |}.

Lemma w_readable : readable (w_cap []).
Proof.
  split; [done|]. intros k Hk. cbn [db w_cap hashes sets values].
  assert (∀ x, startswith "nbcap:" x = false → startswith "sensor:latest:" x = false → startswith "refresh-rotated:" x = false → k ≠ x) as Hne.
  { intros x H1 H2 H3 ->. unfold entry_key in Hk. change _KEY_PREFIX with "nbcap:" in Hk. change _LATEST_PREFIX with "sensor:latest:" in Hk.
    change ROTATED_REFRESH_PREFIX with "refresh-rotated:" in Hk. by rewrite H1, H2, H3 in Hk. }
  split; [|split].
  - apply lookup_singleton_ne, not_eq_sym, Hne; reflexivity.
  - apply lookup_singleton_ne, not_eq_sym, Hne; reflexivity.
  - intros v e Hv%elem_of_list_to_map_2. rewrite !elem_of_cons in Hv.
    destruct Hv as [[= -> -> ->]|[[= -> -> ->]|[[= -> -> ->]|[[= -> -> ->]|[]%elem_of_nil]]]]; by eexists.
Qed.

Lemma quiet_job_completes_witness :
  ∃ p', main no_repr w_text w_strptime w_issued_by w_crl_signed w_register_signed w_sha w_cfg w_ready = (Ok 0%Z, p') ∧
    l_databases (p_life p') = {[w_other]}.
Proof.
  destruct (quiet_job_completes no_repr w_text w_strptime w_issued_by w_crl_signed w_register_signed w_sha w_cfg w_ready)
    as (p' & E & Hd & _).
  - split_and!; [by eexists..|done| |done]. eexists. vm_compute. reflexivity.
  - split_and!; [exact w_readable | done..].
  - done.
  - done.
  - done.
  - apply NoDup_singleton.
  - intros cd [->|[]%elem_of_nil]%elem_of_cons _. split; [|vm_compute; by eexists]. split_and!.
    + vm_compute. reflexivity.
    + intros url [= <-]. eexists _, _, _. split_and!; [vm_compute; reflexivity..|]. cbn.
      intros kv. rewrite !elem_of_cons, elem_of_nil. by intros [->|[->|[]]].
    + apply (verify_iff w_strptime w_issued_by w_crl_signed w_register_signed w_sha). vm_compute. by eexists.
  - exists p'. split; [exact E|]. rewrite Hd. vm_compute. reflexivity.
Defined.
