(* ===== verification/MlExtensions.v ===== *)
(** * The ML service's extension registry and its built-in transforms

    services/ml_service/api/extensions: the registry ([__init__.py]) and the
    feature transforms the platform ships ([builtins.py]), over the aggregates
    they read ([Baselines], the provider's interface; MlFeatures has it).  The
    transforms of extension modules are a parameter: [extra].  The detectors
    are in MlDetectors. *)

From stdpp Require Import base strings list gmap.
From Stdlib Require Import ZArith Lia Ascii.
From Corelib Require Import SpecFloat.
From S2P Require Import Prelude PyText PyNum PyJson SqlBinding.

Local Open Scope string_scope.

(** ** Readings *)

(** A feature's value: [float ** float] is complex for a negative base and a
    fractional power. *)
Inductive feature := Real (f : float) | Complex.
#[export] Instance feature_eq_dec : EqDecision feature.
Proof. solve_decision. Defined.

(** A reading is the request's [sensor_data].  [math.isfinite] of an int no
    float can hold raises. *)
Definition _finite (value : json) : res bool :=
  match value with
  | JFloat f => Ok (is_finite f)
  | JInt z => f ← float_of_Z z; Ok (is_finite f)
  | _ => Ok false
  end.

(** [sensor_data.get(sensor)]: its keys are strings; a list or a dict is no key. *)
Definition reading_get (sensor_data : dict) (sensor : json) : res json :=
  match sensor with
  | JStr s => Ok (jget s sensor_data)
  | JList _ | JDict _ => Err TypeError
  | _ => Ok JNull
  end.

(** [v == t] *)
Definition is_text (t : string) (v : json) : bool := match v with JStr s => bool_decide (s = t) | _ => false end.

Fixpoint texts (l : list json) : option (list string) :=
  match l with
  | [] => Some []
  | JStr s :: r => cons s <$> texts r
  | _ => None
  end.

(** [dict.fromkeys] of names: the first of each.  What is not a text is no key
    of a reading, so it is refused whether repeated or not. *)
Fixpoint fromkeys (seen : list string) (l : list json) : list json :=
  match l with
  | [] => []
  | JStr s :: r => if bool_decide (s ∈ seen) then fromkeys seen r else JStr s :: fromkeys (s :: seen) r
  | v :: r => v :: fromkeys seen r
  end.

(** [MissingSensors(sensors)], whose message joins their names. *)
Definition missing (sensors : list json) : exn :=
  match texts (fromkeys [] sensors) with Some l => MissingSensors l | None => TypeError end.

Definition sensor_value (sensor_data : dict) (sensor : json) : res float :=
  value ← reading_get sensor_data sensor;
  ok ← _finite value;
  if ok : bool then json_float value else Err (missing [sensor]).

Fixpoint missing_sensors (sensor_data : dict) (sensors : list json) : res (list json) :=
  match sensors with
  | [] => Ok []
  | s :: r =>
      value ← reading_get sensor_data s;
      ok ← _finite value;
      rest ← missing_sensors sensor_data r;
      Ok (if ok : bool then rest else s :: rest)
  end.

Lemma finite_value v : _finite v = Ok true → ∃ f, json_float v = Ok f ∧ is_finite f = true.
Proof.
  destruct v as [| |z|f| | |]; simpl; [done|done| |by intros [= Hf]; eauto|done..].
  destruct (float_of_Z z) as [f|]; simpl; [|done]. intros [= Hf]. eauto.
Qed.

Lemma missing_none data names : (∀ s, s ∈ names → _finite (jget s data) = Ok true) →
  missing_sensors data (map JStr names) = Ok [].
Proof.
  induction names as [|s l IH]; intros H; simpl; [done|]. rewrite (H s) by left. simpl. rewrite IH; [done|].
  intros t Ht. apply H. by right.
Qed.

(** ** The registry *)

(** One transformation of a configuration: feature_configs.py holds it to a
    name and a type; the rest is as it was given. *)
Record transformation := { t_name : string; t_type : string; t_rest : dict }.
Definition t_get (k : string) (t : transformation) : json := jget k (t_rest t).

(** [transformation.get("params", {}).get(k, d)] *)
Definition param (k : string) (d : json) (t : transformation) : res json :=
  match dict_lookup "params" (t_rest t) with
  | None => Ok d
  | Some (JDict ps) => Ok (default d (dict_lookup k ps))
  | Some _ => Err AttributeError
  end.

Record TransformContext := { baseline_provider : bool; ctx_equipment_id : json; ctx_company_id : string }.

(** A sensor's baseline over its newest closed window. *)
Record baseline := { b_mean : float; b_std : option float }.
#[export] Instance baseline_eq_dec : EqDecision baseline.
Proof. solve_decision. Defined.

(** What a transform may ask of the platform. *)
Class Baselines (S : Type) :=
  compute_baseline : string → json → string → json → M S (option baseline).

Section transforms.
Context {S : Type} `{B : !Baselines S}.

Record entry := {
  e_fn : transformation → dict → TransformContext → M S feature;
  e_stateful : bool;
  e_neutral : float
}.

(** ** builtins.py *)

Definition _sensor (t : transformation) : res json :=
  let s := t_get "sensor" t in if truthy s then Ok s else Err InvalidFeature.

Definition identity (t : transformation) (data : dict) (ctx : TransformContext) : M S feature :=
  lift (s ← _sensor t; v ← sensor_value data s; Ok (Real v)).

Context (py_pow : float → json → res feature).

Definition polynomial (t : transformation) (data : dict) (ctx : TransformContext) : M S feature :=
  lift (power ← param "power" (JInt 2) t; s ← _sensor t; v ← sensor_value data s; py_pow v power).

(** A number in arithmetic with a float. *)
Definition operand (v : json) : res float :=
  match v with JInt _ | JFloat _ | JBool _ => json_float v | _ => Err TypeError end.

Definition tiny : float := float_of_dec false 1 (-8).
Definition zero : float := S754_zero false.

Definition combine (operation : json) (a b : float) : res feature :=
  match operation with
  | JStr "ratio" => let d := fadd b tiny in if feq d zero then Err ZeroDivisionError else Ok (Real (fdiv a d))
  | JStr "difference" => Ok (Real (fsub a b))
  | JStr "product" => Ok (Real (fmul a b))
  | JStr "sum" => Ok (Real (fadd a b))
  | _ => Err InvalidFeature
  end.

(** [transformation.get("sensors") or []], its length and its first two. *)
Fixpoint chars (s : string) : list json :=
  match s with EmptyString => [] | String c r => JStr (String c EmptyString) :: chars r end.
Definition two_sensors (v : json) : res (json * json) :=
  match v with
  | JList (a :: b :: _) => Ok (a, b)
  | JStr s => match chars s with a :: b :: _ => Ok (a, b) | _ => Err InvalidFeature end
  | JDict (_ :: _ :: _) => Err KeyError
  | JList _ | JDict _ => Err InvalidFeature
  | v => if truthy v then Err TypeError else Err InvalidFeature
  end.

Definition interaction (t : transformation) (data : dict) (ctx : TransformContext) : M S feature :=
  lift (operation ← param "operation" (JStr "product") t;
        '(x, y) ← two_sensors (t_get "sensors" t);
        a ← sensor_value data x;
        b ← sensor_value data y;
        combine operation a b).

Definition deviation (t : transformation) (data : dict) (ctx : TransformContext) : M S feature :=
  lift (base ← param "baseline" (JFloat zero) t;
        s ← _sensor t;
        v ← sensor_value data s;
        b ← operand base;
        Ok (Real (fsub v b))).

Inductive stat := deviation_from_window_mean | window_mean | window_std.
#[export] Instance stat_eq_dec : EqDecision stat.
Proof. solve_decision. Defined.
Definition stat_of (v : json) : res stat :=
  match v with
  | JStr "deviation_from_run_mean" | JStr "deviation_from_window_mean" => Ok deviation_from_window_mean
  | JStr "window_mean" => Ok window_mean
  | JStr "window_std" => Ok window_std
  | JList _ | JDict _ => Err TypeError
  | _ => Err InvalidFeature
  end.

Definition statistical (t : transformation) (data : dict) (ctx : TransformContext) : M S feature :=
  s ← lift (_sensor t);
  named ← lift (param "stat_type" JNull t);
  stat_type ← lift (stat_of named);
  granularity ← lift (param "granularity" JNull t);
  current ← lift (if bool_decide (stat_type = deviation_from_window_mean) then sensor_value data s else Ok zero);
  if negb (baseline_provider ctx && truthy (ctx_equipment_id ctx) && negb (bool_decide (ctx_company_id ctx = "")))
  then raise StatefulUnavailable else
  b ← catch (match s with
             | JStr name => compute_baseline (ctx_company_id ctx) (ctx_equipment_id ctx) name granularity
             | _ => raise TypeError
             end)
            (λ e, if bool_decide (e = SystemExit) then raise e else raise StatefulUnavailable);
  match b with
  | None => raise StatefulUnavailable
  | Some b =>
      mret (Real match stat_type with
                 | window_mean => b_mean b
                 | window_std => default zero (b_std b)
                 | deviation_from_window_mean => fsub current (b_mean b)
                 end)
  end.

Definition rolling_stat (t : transformation) (data : dict) (ctx : TransformContext) : M S feature := raise InvalidFeature.

(** The registry the built-ins fill at import, with what the configured
    extension modules register: a module cannot take a name that is there. *)
Definition stateless (f : transformation → dict → TransformContext → M S feature) : entry :=
  {| e_fn := f; e_stateful := false; e_neutral := zero |}.
Definition stateful (f : transformation → dict → TransformContext → M S feature) : entry :=
  {| e_fn := f; e_stateful := true; e_neutral := zero |}.
Definition builtin (name : string) : option entry :=
  if bool_decide (name = "identity") then Some (stateless identity)
  else if bool_decide (name = "polynomial") then Some (stateless polynomial)
  else if bool_decide (name = "interaction") then Some (stateless interaction)
  else if bool_decide (name = "deviation") then Some (stateless deviation)
  else if bool_decide (name = "statistical") then Some (stateful statistical)
  else if bool_decide (name = "rolling_stat") then Some (stateful rolling_stat)
  else None.

Context (extra : string → option entry).
Definition get_transform (name : string) : option entry :=
  match builtin name with Some e => Some e | None => extra name end.
Definition is_stateful (name : string) : bool :=
  match get_transform name with Some e => e_stateful e | None => false end.
Definition neutral_value (name : string) : float :=
  match get_transform name with Some e => e_neutral e | None => zero end.
End transforms.
#[global] Arguments entry : clear implicits.
#[global] Arguments e_fn {S} e.
#[global] Arguments e_stateful {S} e.
#[global] Arguments e_neutral {S} e.
