(* ===== verification/MlFeatures.v ===== *)
(** * The ML service's feature engineering

    services/ml_service/api/feature_engineering: the stateful-feature switch
    ([kill_switch.py]), the provider of windowed baselines
    ([baseline_provider.py]) and the engine ([engine.py]), over a database that
    others change, that takes time and that may fail at any query.  Times are
    microseconds of the monotonic clock. *)

From stdpp Require Import base strings list gmap sorting.
From Stdlib Require Import ZArith Lia Ascii.
From Corelib Require Import SpecFloat.
From S2P Require Import Prelude PyText PyNum PyJson Tenancy Windows SqlBinding MlExtensions.

Local Open Scope string_scope.

(** ** The database and the process *)

(** The switch's row; the newest closed window's mean and deviation, by
    tenant schema, table, equipment and sensor. *)
Record mldb := {
  config_row : option json;
  newest : gmap (string * string * string * string) (option float * option float)
}.

Inductive db_query := AskSwitch | AskBaseline (schema table equipment sensor : string).
#[export] Instance db_query_eq_dec : EqDecision db_query.
Proof. solve_decision. Defined.

(** What comes before a query: time, and what others write; and how it goes. *)
Record db_turn := { passes : Z; becomes : mldb → mldb; fails : option exn }.

Record serving := {
  s_db : mldb;
  s_now : Z;
  s_turns : list db_turn;
  sw_value : bool;
  sw_expires : Z;
  sw_ever_read : bool;
  s_cache : list (string * string * string * string * (Z * option baseline));  (* least recently used first *)
  s_asked : list (Z * db_query * option mldb)  (* each query asked, when, and what answered it, if anything did:
                                                  a history no code reads *)
}.

Definition with_switch v e r (s : serving) : serving :=
  {| s_db := s_db s; s_now := s_now s; s_turns := s_turns s; sw_value := v; sw_expires := e; sw_ever_read := r;
     s_cache := s_cache s; s_asked := s_asked s |}.
Definition with_cache c (s : serving) : serving :=
  {| s_db := s_db s; s_now := s_now s; s_turns := s_turns s; sw_value := sw_value s; sw_expires := sw_expires s;
     sw_ever_read := sw_ever_read s; s_cache := c; s_asked := s_asked s |}.

Definition quiet : db_turn := {| passes := 0; becomes := λ d, d; fails := None |}.
Definition asked_now (q : db_query) (s : serving) : serving * option exn :=
  let t := default quiet (head (s_turns s)) in
  let d := becomes t (s_db s) in
  let answer := match fails t with Some _ => None | None => Some d end in
  ({| s_db := d; s_now := s_now s + Z.max 0 (passes t); s_turns := tail (s_turns s);
      sw_value := sw_value s; sw_expires := sw_expires s; sw_ever_read := sw_ever_read s; s_cache := s_cache s;
      s_asked := s_asked s ++ [(s_now s, q, answer)] |}, fails t).
Definition ask {A} (q : db_query) (f : mldb → A) : M serving A := λ s,
  let '(s', failure) := asked_now q s in
  match failure with Some e => (Err e, s') | None => (Ok (f (s_db s')), s') end.

Definition monotonic : M serving Z := gets s_now.
(** [except Exception] *)
Definition swallow {A} (m : M serving A) (d : A) : M serving A :=
  catch m (λ e, if bool_decide (e = SystemExit) then raise e else mret d).

(** ** kill_switch.py *)

(** The value's text, stripped of blanks, then of double quotes, in lower case. *)
Definition is_quote (c : ascii) : bool := bool_decide (c = "034"%char).
Definition flag_of (value : option json) : bool :=
  match value with
  | None | Some JNull => true
  | Some (JBool b) => b
  | Some (JStr s) =>
      let text := str_lower (strip is_quote (strip is_space s)) in
      if bool_decide (text = "true") || bool_decide (text = "false") then bool_decide (text = "true") else true
  | Some _ => true
  end.

Definition switch_read : M serving (option bool) :=
  swallow (v ← ask AskSwitch config_row; mret (Some (flag_of v))) None.

Section switch.
Context (switch_ttl : Z).

Definition enabled : M serving bool :=
  now ← monotonic;
  s ← getS;
  if (now <? sw_expires s)%Z then mret (sw_value s) else
  value ← switch_read;
  match value with
  | None =>
      s ← getS;
      _ ← modify (with_switch (sw_value s) (now + switch_ttl)%Z (sw_ever_read s));
      mret (sw_value s)
  | Some v => _ ← modify (with_switch v (now + switch_ttl)%Z true); mret v
  end.
End switch.

(** ** baseline_provider.py *)

Definition agg_table (granularity : string) : option string :=
  table <$> (snd <$> List.find (λ kw, bool_decide (kw.1 = granularity)) WINDOWS).

Abbreviation cache_key := (string * string * string * string)%type.
Abbreviation cache := (list (cache_key * (Z * option baseline))).

Fixpoint cache_get (k : cache_key) (c : cache) : option (Z * option baseline) :=
  match c with
  | [] => None
  | (k', v) :: r => if bool_decide (k = k') then Some v else cache_get k r
  end.
Definition cache_drop (k : cache_key) (c : cache) : cache := base.filter (λ kv, kv.1 ≠ k) c.

(** [_cache[k] = v; move_to_end(k)] *)
Definition cache_put (k : cache_key) (v : Z * option baseline) (c : cache) : cache := (cache_drop k c ++ [(k, v)])%list.

Section provider.
Context (py_repr : json → string).
Context (cache_ttl : Z) (cache_max_entries : nat).

Definition _store (k : cache_key) (v : Z * option baseline) (now : Z) (c : cache) : cache :=
  let c := cache_put k v c in
  if (length c <=? cache_max_entries)%nat then c else
  let c := base.filter (λ kv, ¬ (kv.2.1 <= now)%Z) c in
  drop (length c - cache_max_entries) c.

Definition baseline_of (row : option (option float * option float)) : option baseline :=
  match row with
  | Some (Some mean, std) => Some {| b_mean := mean; b_std := std |}
  | _ => None
  end.
Definition provider_read (schema table equipment sensor : string) : M serving (option baseline) :=
  swallow (row ← ask (AskBaseline schema table equipment sensor) (λ d, newest d !! (schema, table, equipment, sensor));
           mret (baseline_of row)) None.

(** [granularity or DEFAULT_GRANULARITY], looked up: no list and no dict is a key. *)
Definition granularity_of (v : json) : res (option string) :=
  if truthy v then match v with JStr g => Ok (Some g) | JList _ | JDict _ => Err TypeError | _ => Ok None end
  else Ok (Some DEFAULT_GRANULARITY).

(** [str(uuid.UUID(str(equipment_id)))] *)
Definition equipment_uuid (v : json) : option string := uuid_str <$> uuid_parse (py_str py_repr v).

#[export] Instance provider_compute_baseline : Baselines serving := λ company equipment_id sensor granularity,
  g ← lift (granularity_of granularity);
  match g ≫= agg_table, g with
  | Some table, Some g =>
      match schema_name company, equipment_uuid equipment_id with
      | Ok schema, Some equipment =>
          let key := (schema, equipment, sensor, g) in
          now ← monotonic;
          s ← getS;
          let miss := value ← provider_read schema table equipment sensor;
                      _ ← modify (λ s, with_cache (_store key ((now + cache_ttl)%Z, value) now (s_cache s)) s);
                      mret value in
          match cache_get key (s_cache s) with
          | Some (expires, v) =>
              if (now <? expires)%Z
              then _ ← modify (λ s, with_cache (cache_put key (expires, v) (s_cache s)) s); mret v
              else miss
          | None => miss
          end
      | _, _ => mret None
      end
  | _, _ => mret None
  end.

Definition compute_rolling_mean (company : string) (equipment_id : json) (sensor : string) (granularity : json) :
    M serving (option float) :=
  b ← compute_baseline company equipment_id sensor granularity; mret (b_mean <$> b).
End provider.

(** ** engine.py *)

Record feature_config := { base_sensors : list string; transformations : list transformation }.

(** What iterating over a JSON value gives. *)
Definition py_iter (v : json) : res (list json) :=
  match v with
  | JList l => Ok l
  | JStr s => Ok (chars s)
  | JDict d => Ok (map (λ kv, JStr kv.1) d)
  | _ => Err TypeError
  end.

Definition hashable (v : json) : bool := match v with JList _ | JDict _ => false | _ => true end.

(** The sensors a transformation names: its own, then the truthy ones of its list. *)
Definition named_sensors (t : transformation) : res (list json) :=
  let own := t_get "sensor" t in
  let many := t_get "sensors" t in
  l ← (if truthy many then py_iter many else Ok []);
  Ok ((if truthy own then [own] else []) ++ base.filter (λ v, truthy v = true) l)%list.

Section engine.
Context (py_repr : json → string) (py_pow : float → json → res feature).
Context (switch_ttl cache_ttl : Z) (cache_max_entries : nat).
Context (extra : string → option (entry serving)).

#[local] Instance baselines_here : Baselines serving := provider_compute_baseline py_repr cache_ttl cache_max_entries.
Definition transform_of : string → option (entry serving) := get_transform py_pow extra.
Definition stateful_type : string → bool := is_stateful py_pow extra.
Definition neutral_of : string → float := neutral_value py_pow extra.

Record FeatureEngineeringEngine := {
  e_config : feature_config;
  required_sensors : list json;
  e_ctx : TransformContext;
  e_kill_switch : bool
}.

(** [__init__]: every sensor the configuration reads, and no type nobody registered. *)
Definition engine_init (config : feature_config) (ctx : TransformContext) (kill_switch : bool) : res FeatureEngineeringEngine :=
  named ← mapM named_sensors (transformations config);
  let required := fromkeys [] (map JStr (base_sensors config) ++ concat named)%list in
  if negb (forallb hashable required) then Err TypeError else
  let unknown := base.filter (λ t, transform_of t = None) (map t_type (transformations config)) in
  match unknown with
  | [] => Ok {| e_config := config; required_sensors := required; e_ctx := ctx; e_kill_switch := kill_switch |}
  | _ => Err (UnknownTransform (merge_sort String.le (remove_dups unknown)))
  end.

(** A slot, its name beside it when the switch neutralized it. *)
Definition _apply_transformation (e : FeatureEngineeringEngine) (t : transformation) (data : dict) (stateful_enabled : bool) :
    M serving (feature * list string) :=
  match transform_of (t_type t) with
  | None => raise TypeError
  | Some x =>
      if negb stateful_enabled && stateful_type (t_type t) then mret (Real (neutral_of (t_type t)), [t_name t])
      else v ← e_fn x t data (e_ctx e); mret (v, [])
  end.

(** What [transform] gives: the vector, and the slots that are not the
    transforms' own: neutralized by the switch, unavailable. *)
Record engineered := { vector : list feature; neutralized_features : list string; unavailable_features : list string }.

Definition transform_step (e : FeatureEngineeringEngine) (data : dict) (on : bool) (acc : engineered) (t : transformation) :
    M serving engineered :=
  catch ('(v, neutralized) ← _apply_transformation e t data on;
         mret {| vector := vector acc ++ [v]; neutralized_features := neutralized_features acc ++ neutralized;
                 unavailable_features := unavailable_features acc |}%list)
        (λ x, if negb (bool_decide (x = StatefulUnavailable)) || negb (stateful_type (t_type t)) then raise x
              else mret {| vector := vector acc ++ [Real (neutral_of (t_type t))];
                           neutralized_features := neutralized_features acc;
                           unavailable_features := unavailable_features acc ++ [t_name t] |}%list).

Definition transform (e : FeatureEngineeringEngine) (data : dict) : M serving engineered :=
  lacking ← lift (missing_sensors data (required_sensors e));
  match lacking with
  | _ :: _ => raise (missing lacking)
  | [] =>
      on ← (if e_kill_switch e then enabled switch_ttl else mret true);
      foldM (transform_step e data on) {| vector := []; neutralized_features := []; unavailable_features := [] |}
            (transformations (e_config e))
  end.
End engine.
