(* ===== verification/MlFeatureProps.v ===== *)
(** * What the ML service's features are

    Over MlFeatures: the switch answers the last flag read, the provider's
    cache is bounded and answers only what the caller's own tenant's query
    answered within its lifetime, no baseline is asked while the switch is off,
    and the vector has one honest slot per transformation. *)

From stdpp Require Import base strings list gmap sorting.
From Stdlib Require Import ZArith Lia.
From S2P Require Import Prelude PyText PyNum PyJson Tenancy Windows MlExtensions MlFeatures.

Local Open Scope nat_scope.

(** ** The invariant of a serving process

    While nothing stops it: no turn is the process's end. *)

Section invariant.
Context (switch_ttl cache_ttl : Z) (cache_max_entries : nat).

(** The flag the last answered read of the switch gave; on before any. *)
Definition flag_step (acc : bool) (a : Z * db_query * option mldb) : bool :=
  match a with (_, AskSwitch, Some d) => flag_of (config_row d) | _ => acc end.
Definition last_flag (asked : list (Z * db_query * option mldb)) : bool := fold_left flag_step asked true.

(** What a query's answer is cached as. *)
Definition answered_with (q : db_query) (answer : option mldb) : option baseline :=
  match q, answer with
  | AskBaseline schema table equipment sensor, Some d => baseline_of (newest d !! (schema, table, equipment, sensor))
  | _, _ => None
  end.

(** A cached entry is the answer of a query asked for its key, [cache_ttl] before it expires. *)
Definition entry_ok (asked : list (Z * db_query * option mldb)) (kv : cache_key * (Z * option baseline)) : Prop :=
  let '(schema, equipment, sensor, g) := kv.1 in
  ∃ table answer, agg_table g = Some table ∧
    ((kv.2.1 - cache_ttl)%Z, AskBaseline schema table equipment sensor, answer) ∈ asked ∧
    kv.2.2 = answered_with (AskBaseline schema table equipment sensor) answer.

(** The switch is read again only once the last read is [switch_ttl] old. *)
Definition paced (s : serving) : Prop :=
  ∀ i j t u x y, i < j → s_asked s !! i = Some (t, AskSwitch, x) → s_asked s !! j = Some (u, AskSwitch, y) →
    (t + switch_ttl <= u)%Z.
Definition due (s : serving) : Prop :=
  ∀ t x, (t, AskSwitch, x) ∈ s_asked s → (t + switch_ttl <= sw_expires s)%Z.

Record serving_inv (s : serving) : Prop := {
  inv_running : Forall (λ t, fails t ≠ Some SystemExit) (s_turns s);
  inv_flag : sw_value s = last_flag (s_asked s);
  inv_paced : paced s;
  inv_due : due s;
  inv_bounded : length (s_cache s) ≤ cache_max_entries;
  inv_entries : Forall (entry_ok (s_asked s)) (s_cache s)
}.

Lemma flag_app l a : last_flag (l ++ [a]) = flag_step (last_flag l) a.
Proof. unfold last_flag. by rewrite fold_left_app. Qed.

Lemma entry_ok_mono l l' kv : entry_ok l kv → entry_ok (l ++ l') kv.
Proof.
  destruct kv as [[[[sc eq] se] g] [x v]]. intros (table & answer & Hg & Hin & Hv). exists table, answer.
  split_and!; [done | | done]. apply elem_of_app. by left.
Qed.

Lemma asked_now_eq q s s' x : asked_now q s = (s', x) → ∃ answer,
  s_asked s' = s_asked s ++ [(s_now s, q, answer)] ∧ s_cache s' = s_cache s ∧ sw_value s' = sw_value s ∧
  sw_expires s' = sw_expires s ∧ s_turns s' = tail (s_turns s) ∧ (s_now s <= s_now s')%Z ∧
  match x with
  | None => answer = Some (s_db s')
  | Some e => answer = None ∧ ∃ t, t ∈ s_turns s ∧ fails t = Some e
  end.
Proof.
  unfold asked_now. intros [= <- <-]. simpl. eexists. split_and!; [done..| lia |].
  destruct (s_turns s) as [|t ts]; simpl; [done|]. destruct (fails t) eqn:E; [|done].
  split; [done|]. exists t. by split; [left|].
Qed.

Lemma running_swallows {A B} q (f : mldb → A) (g : A → B) (d : B) s : serving_inv s →
  swallow (x ← ask q f; mret (g x)) d s =
    let '(s', x) := asked_now q s in (Ok (match x with None => g (f (s_db s')) | Some _ => d end), s').
Proof.
  intros I. unfold swallow, catch, ask, mbind, M_bind. destruct (asked_now q s) as [s' x] eqn:E. destruct x as [e|]; [|done].
  destruct (asked_now_eq _ _ _ _ E) as (a & _ & _ & _ & _ & _ & _ & _ & t & Ht & He).
  case_bool_decide; [|done]. subst e. pose proof (proj1 (Forall_forall _ _) (inv_running s I) t Ht). done.
Qed.

(** ** The provider's cache *)

Lemma cache_get_elem k v c : cache_get k c = Some v → (k, v) ∈ c.
Proof.
  induction c as [|[k' v'] c IH]; simpl; [done|]. case_bool_decide as Hk; intros H.
  - simplify_eq. left.
  - right. by apply IH.
Qed.

Lemma cache_put_length k v c w : cache_get k c = Some w → length (cache_put k v c) ≤ length c.
Proof.
  intros H%cache_get_elem. unfold cache_put, cache_drop. rewrite length_app. simpl.
  assert (length (base.filter (λ kv : cache_key * (Z * option baseline), kv.1 ≠ k) c) < length c); [|lia].
  apply length_filter_lt with (k, w); [done|]. simpl. auto.
Qed.

Lemma filter_forall {A} (P Q : A → Prop) `{!∀ x, Decision (Q x)} l : Forall P l → Forall P (base.filter Q l).
Proof. rewrite !Forall_forall. intros Hl x [_ Hx]%list_elem_of_filter. by apply Hl. Qed.

Lemma cache_put_entries (P : cache_key * (Z * option baseline) → Prop) k v c :
  Forall P c → P (k, v) → Forall P (cache_put k v c).
Proof.
  intros Hc Hk. unfold cache_put, cache_drop. apply Forall_app. split; [by apply filter_forall | by constructor].
Qed.

Lemma store_bounded k v t c : length (_store cache_max_entries k v t c) ≤ cache_max_entries.
Proof.
  unfold _store. case_match; bool_hyps; [done|]. rewrite length_drop. lia.
Qed.

Lemma store_entries (P : cache_key * (Z * option baseline) → Prop) k v t c :
  Forall P c → P (k, v) → Forall P (_store cache_max_entries k v t c).
Proof.
  intros Hc Hk. pose proof (cache_put_entries P k v c Hc Hk) as Hp. unfold _store. case_match; [done|].
  by apply Forall_drop, filter_forall.
Qed.

(** ** The switch *)

Lemma inv_ask q s s' x : asked_now q s = (s', x) → q ≠ AskSwitch → serving_inv s → serving_inv s'.
Proof.
  intros E Hq [Ir If Ip Id Ib Ie]. destruct (asked_now_eq _ _ _ _ E) as (a & Ha & Hc & Hv & Hx & Ht & _).
  split.
  - rewrite Ht. by apply Forall_tail.
  - rewrite Ha, flag_app, Hv, If. by destruct q.
  - intros i j t u y z Hij Hi Hj. rewrite Ha in Hi, Hj.
    apply lookup_app_Some in Hj as [Hj|[_ Hj]]; [|by apply list_lookup_singleton_Some in Hj as [_ [=]]].
    rewrite lookup_app_l in Hi by (apply lookup_lt_Some in Hj; lia). by eapply Ip.
  - intros t y. rewrite Ha, Hx. intros [Hi|[=]%list_elem_of_singleton]%elem_of_app; [by eapply Id | by subst].
  - by rewrite Hc.
  - rewrite Ha, Hc. eapply Forall_impl; [exact Ie|]. intros kv. apply entry_ok_mono.
Qed.

Lemma enabled_spec s : serving_inv s → (0 <= switch_ttl)%Z → ∃ b s',
  enabled switch_ttl s = (Ok b, s') ∧ serving_inv s' ∧ b = sw_value s' ∧ s_cache s' = s_cache s ∧
  ∃ l, s_asked s' = (s_asked s ++ l)%list ∧ Forall (λ a, a.1.2 = AskSwitch) l.
Proof.
  intros I Httl. pose proof I as [Ir If Ip Id Ib Ie]. unfold enabled, monotonic, gets, getS. simpl.
  unfold mbind at 1, M_bind at 1. unfold mbind at 1, M_bind at 1.
  destruct (s_now s <? sw_expires s)%Z eqn:Hf; bool_hyps.
  - eexists _, s. split_and!; [done..|]. exists []. by rewrite app_nil_r.
  - unfold switch_read, mbind at 1, M_bind at 1.
    rewrite (running_swallows AskSwitch config_row (λ v, Some (flag_of v)) None s I).
    destruct (asked_now AskSwitch s) as [s1 x] eqn:E.
    destruct (asked_now_eq _ _ _ _ E) as (a & Ha & Hc & Hv & Hx & Ht & Hn & Hans).
    assert (J : ∀ v r, v = last_flag (s_asked s1) → serving_inv (with_switch v (s_now s + switch_ttl) r s1)).
    { intros v r ->. split; simpl.
      - rewrite Ht. by apply Forall_tail.
      - done.
      - intros i j t u y z Hij Hi Hj. simpl in Hi, Hj. rewrite Ha in Hi, Hj.
        apply lookup_app_Some in Hj as [Hj|[Hl Hj]].
        + rewrite lookup_app_l in Hi by (apply lookup_lt_Some in Hj; lia). by eapply Ip.
        + apply list_lookup_singleton_Some in Hj as [Hj [= <- <-]].
          rewrite lookup_app_l in Hi by lia. apply list_elem_of_lookup_2, Id in Hi. lia.
      - intros t y. simpl. rewrite Ha. intros [Hi|[= <- <-]%list_elem_of_singleton]%elem_of_app; [apply Id in Hi|]; lia.
      - by rewrite Hc.
      - rewrite Ha, Hc. eapply Forall_impl; [exact Ie|]. intros kv. apply entry_ok_mono. }
    assert (Hl : ∀ s2, s_asked s2 = s_asked s1 →
      ∃ l, s_asked s2 = (s_asked s ++ l)%list ∧ Forall (λ a, a.1.2 = AskSwitch) l).
    { intros s2 ->. rewrite Ha. eexists. split; [done|]. by repeat constructor. }
    destruct x as [e|]; simpl; eexists _, _; (split; [reflexivity|]).
    + destruct Hans as [-> _]. split_and!; [apply J; rewrite Ha, flag_app; simpl; by rewrite Hv | done | done | by apply Hl].
    + subst a. split_and!; [apply J; by rewrite Ha, flag_app | done | done | by apply Hl].
Qed.

(** ** The provider *)

Section provider.
Context (py_repr : json → string).
Abbreviation provider := (provider_compute_baseline py_repr cache_ttl cache_max_entries).

Lemma inv_cache c s : length c ≤ cache_max_entries → Forall (entry_ok (s_asked s)) c → serving_inv s →
  serving_inv (with_cache c s).
Proof. intros Hl He [Ir If Ip Id Ib Ie]. by split. Qed.

Lemma read_spec schema table equipment sensor s : serving_inv s → ∃ s1 answer,
  provider_read schema table equipment sensor s =
    (Ok (answered_with (AskBaseline schema table equipment sensor) answer), s1) ∧
  serving_inv s1 ∧ s_asked s1 = (s_asked s ++ [(s_now s, AskBaseline schema table equipment sensor, answer)])%list.
Proof.
  intros I. unfold provider_read.
  rewrite (running_swallows _ _ baseline_of None s I).
  destruct (asked_now _ s) as [s1 x] eqn:E. pose proof (inv_ask _ _ _ _ E ltac:(done) I) as I1.
  destruct (asked_now_eq _ _ _ _ E) as (a & Ha & _ & _ & _ & _ & _ & Hans). exists s1, a.
  split; [|done]. f_equal. destruct x as [e|]; [by destruct Hans as [-> _] | by subst a].
Qed.

(** A baseline given is what the tenant's own query for that sensor answered, no longer than the lifetime ago. *)
Definition fresh_baseline (company sensor : string) (since : Z) (s : serving) (b : baseline) : Prop :=
  ∃ schema g table equipment t d, schema_name company = Ok schema ∧ agg_table g = Some table ∧
    (t, AskBaseline schema table equipment sensor, Some d) ∈ s_asked s ∧ (since <= t + cache_ttl)%Z ∧
    baseline_of (newest d !! (schema, table, equipment, sensor)) = Some b.

Lemma provider_spec company equipment_id sensor g s r s' : (0 <= cache_ttl)%Z → serving_inv s →
  provider company equipment_id sensor g s = (r, s') →
  serving_inv s' ∧ ∀ b, r = Ok (Some b) → fresh_baseline company sensor (s_now s) s' b.
Proof.
  intros Httl I. unfold provider_compute_baseline.
  destruct (granularity_of g) as [og|e]; [|intros [= <- <-]; done].
  unfold lift. unfold mbind at 1, M_bind at 1.
  destruct (og ≫= agg_table) as [table|] eqn:Et; [|intros [= <- <-]; done].
  destruct og as [gr|]; [|done]. simpl in Et.
  destruct (schema_name company) as [schema|] eqn:Es; [|intros [= <- <-]; done].
  destruct (equipment_uuid py_repr equipment_id) as [equipment|]; [|intros [= <- <-]; done].
  set (key := (schema, equipment, sensor, gr)).
  unfold monotonic, gets, getS. unfold mbind at 1, M_bind at 1. unfold mbind at 1, M_bind at 1.
  assert (Hmiss : ∀ r s', (value ← provider_read schema table equipment sensor;
      _ ← modify (λ s0, with_cache (_store cache_max_entries key ((s_now s + cache_ttl)%Z, value) (s_now s) (s_cache s0)) s0);
      mret value) s = (r, s') →
    serving_inv s' ∧ ∀ b, r = Ok (Some b) → fresh_baseline company sensor (s_now s) s' b).
  { clear r s'. intros r s'. destruct (read_spec schema table equipment sensor s I) as (s1 & a & Hr & I1 & Ha).
    rewrite (bind_ok _ _ _ _ _ Hr). intros [= <- <-]. split.
    - apply inv_cache; [apply store_bounded | | done]. apply store_entries; [apply I1|].
      exists table, a. split_and!; [done | | done]. simpl. rewrite Ha.
      apply elem_of_app. right. replace (s_now s + cache_ttl - cache_ttl)%Z with (s_now s) by lia. by left.
    - intros b [= Hb]. destruct a as [d|]; [|done]. exists schema, gr, table, equipment, (s_now s), d.
      split_and!; [done..| simpl; rewrite Ha; apply elem_of_app; right; by left | lia | done]. }
  destruct (cache_get key (s_cache s)) as [[x v]|] eqn:Eg; [|apply Hmiss].
  destruct (s_now s <? x)%Z eqn:Hx; [|apply Hmiss]. bool_hyps.
  intros [= <- <-]. pose proof (cache_get_elem _ _ _ Eg) as Hin.
  pose proof (proj1 (Forall_forall _ _) (inv_entries s I) _ Hin) as Hok. split.
  - apply inv_cache; [| |done].
    + etrans; [by eapply cache_put_length | apply I].
    + apply cache_put_entries; [apply I | done].
  - intros b [= ->]. destruct Hok as (table' & a & Ht & Hin' & Ha). simpl in *. simplify_eq.
    destruct a as [d|]; [|done]. exists schema, gr, table, equipment, (x - cache_ttl)%Z, d.
    split_and!; [done..| lia | done].
Qed.
End provider.

(** ** The transforms *)

Section engine.
Context (py_repr : json → string) (py_pow : float → json → res feature) (extra : string → option (entry serving)).
Context (Httl : (0 <= switch_ttl)%Z) (Hcttl : (0 <= cache_ttl)%Z).

#[local] Instance baselines : Baselines serving := provider_compute_baseline py_repr cache_ttl cache_max_entries.
Abbreviation transform_of := (transform_of py_repr py_pow cache_ttl cache_max_entries extra).
Abbreviation stateful_type := (stateful_type py_repr py_pow cache_ttl cache_max_entries extra).
Abbreviation neutral_of := (neutral_of py_repr py_pow cache_ttl cache_max_entries extra).
Abbreviation transform := (transform py_repr py_pow switch_ttl cache_ttl cache_max_entries extra).

(** What the registry asks of an extension's transform: it keeps the process's
    invariant, and unless it is registered stateful it asks for nothing. *)
Class Extensions : Prop := {
  ext_keeps name x t data ctx : extra name = Some x → preserves serving_inv (e_fn x t data ctx);
  ext_stateless name x t data ctx s : extra name = Some x → e_stateful x = false →
    s_asked (final (e_fn x t data ctx) s) = s_asked s
}.
Context {HX : Extensions}.

Lemma pure_transform name x : transform_of name = Some x →
  (e_fn x = statistical ∧ e_stateful x = true) ∨ extra name = Some x ∨
  (∀ t data ctx s, (e_fn x t data ctx s).2 = s).
Proof.
  unfold MlFeatures.transform_of, get_transform, builtin.
  repeat (case_bool_decide; [intros [= <-]; first [by left | by right; right]|]). intros Hx. right. by left.
Qed.

(** A statistical feature is the reading's or the window's, over a fresh baseline of the caller's tenant. *)
Definition window_feature (k : stat) (data : dict) (sensor : json) (b : baseline) : res float :=
  match k with
  | window_mean => Ok (b_mean b)
  | window_std => Ok (default zero (b_std b))
  | deviation_from_window_mean => v ← sensor_value data sensor; Ok (fsub v (b_mean b))
  end.

Lemma statistical_spec t data ctx s r s' : serving_inv s → statistical t data ctx s = (r, s') →
  serving_inv s' ∧ ∀ v, r = Ok v → ∃ k sensor b f, v = Real f ∧ t_get "sensor" t = JStr sensor ∧
    (n ← param "stat_type" JNull t; stat_of n) = Ok k ∧
    window_feature k data (JStr sensor) b = Ok f ∧
    fresh_baseline (ctx_company_id ctx) sensor (s_now s) s' b.
Proof.
  intros I. unfold statistical, lift. unfold mbind at 1, M_bind at 1.
  destruct (_sensor t) as [sv|] eqn:Es; [|intros [= <- <-]; done]. unfold mbind at 1, M_bind at 1.
  destruct (param "stat_type" JNull t) as [n|]; [|intros [= <- <-]; done]. unfold mbind at 1, M_bind at 1.
  rewrite res_bind_ok. destruct (stat_of n) as [k|]; [|intros [= <- <-]; done]. unfold mbind at 1, M_bind at 1.
  destruct (param "granularity" JNull t) as [g|]; [|intros [= <- <-]; done]. unfold mbind at 1, M_bind at 1.
  set (cur := if bool_decide (k = deviation_from_window_mean) then sensor_value data sv else Ok zero).
  destruct cur as [current|] eqn:Ecur; [|intros [= <- <-]; done].
  case_match; [intros [= <- <-]; done|]. unfold mbind at 1, M_bind at 1. unfold catch.
  assert (Hsv : t_get "sensor" t = sv).
  { unfold _sensor in Es. case_match; [by injection Es|done]. }
  destruct sv as [| | | |name| |]; try (intros [= <- <-]; done).
  destruct (compute_baseline _ _ name g s) as [o s1] eqn:Eb.
  destruct (provider_spec _ _ _ _ _ _ _ _ Hcttl I Eb) as [I1 Hb].
  destruct o as [[b|]|e].
  - intros [= <- <-]. split; [done|]. intros v [= <-]. exists k, name, b. eexists. split_and!; [reflexivity|done|done| |by apply Hb].
    subst cur. destruct k; simpl in *; [|done|done]. by rewrite Ecur.
  - intros [= <- <-]. done.
  - destruct (bool_decide (e = SystemExit)); unfold raise; intros [= <- <-]; done.
Qed.

Lemma fn_keeps name x t data ctx : transform_of name = Some x → preserves serving_inv (e_fn x t data ctx).
Proof.
  intros H s I. destruct (pure_transform name x H) as [[-> _]|[Hx|Hp]].
  - unfold final. destruct (statistical t data ctx s) as [r s'] eqn:E. by eapply statistical_spec.
  - by eapply ext_keeps.
  - unfold final. by rewrite Hp.
Qed.

Lemma fn_asks_nothing name x t data ctx s : transform_of name = Some x → e_stateful x = false →
  s_asked (e_fn x t data ctx s).2 = s_asked s.
Proof.
  intros H Hs. destruct (pure_transform name x H) as [[_ He]|[Hx|Hp]]; [congruence | by eapply ext_stateless | by rewrite Hp].
Qed.

(** ** The vector *)

(** How a slot was filled: by its transform, or with its type's neutral value
    because the switch is off or the aggregate was not there. *)
Inductive how := Computed | Neutralized | Unavailable.
#[export] Instance how_eq_dec : EqDecision how.
Proof. solve_decision. Defined.

Definition slot (e : FeatureEngineeringEngine) (data : dict) (on : bool) (t : transformation) (hv : how * feature) : Prop :=
  match hv.1 with
  | Computed => (stateful_type (t_type t) = true → on = true) ∧ ∃ x s0 s1,
      transform_of (t_type t) = Some x ∧ serving_inv s0 ∧ e_fn x t data (e_ctx e) s0 = (Ok hv.2, s1)
  | Neutralized => on = false ∧ stateful_type (t_type t) = true ∧ hv.2 = Real (neutral_of (t_type t))
  | Unavailable => on = true ∧ stateful_type (t_type t) = true ∧ hv.2 = Real (neutral_of (t_type t)) ∧ ∃ x s0 s1,
      transform_of (t_type t) = Some x ∧ e_fn x t data (e_ctx e) s0 = (Err StatefulUnavailable, s1)
  end.

Definition filled (h : how) (ts : list transformation) (slots : list (how * feature)) : list string :=
  omap (λ p, if bool_decide (p.2.1 = h) then Some (t_name p.1) else None) (zip ts slots).

Definition vector_of (ts : list transformation) (slots : list (how * feature)) (acc : engineered) : engineered :=
  {| vector := vector acc ++ map snd slots; neutralized_features := neutralized_features acc ++ filled Neutralized ts slots;
     unavailable_features := unavailable_features acc ++ filled Unavailable ts slots |}%list.

Abbreviation step := (transform_step py_repr py_pow cache_ttl cache_max_entries extra).

Lemma step_keeps e data on acc t : preserves serving_inv (step e data on acc t).
Proof.
  intros s I. unfold transform_step, catch, _apply_transformation, final.
  destruct (MlFeatures.transform_of _ _ _ _ _ (t_type t)) as [x|] eqn:Ex; [|by destruct (stateful_type (t_type t))].
  destruct (negb on && _); [done|]. pose proof (fn_keeps _ _ t data (e_ctx e) Ex s I) as I'. unfold final in I'.
  unfold mbind, M_bind. destruct (e_fn x t data (e_ctx e) s) as [[v|err] s1]; simpl in *; [done|]. by destruct (negb _ || negb _).
Qed.

Lemma step_spec e data on acc t s acc' s' : serving_inv s → step e data on acc t s = (Ok acc', s') →
  ∃ hv, slot e data on t hv ∧ acc' = vector_of [t] [hv] acc.
Proof.
  intros I. unfold transform_step, catch, _apply_transformation, vector_of, filled, slot.
  destruct (MlFeatures.transform_of _ _ _ _ _ (t_type t)) as [x|] eqn:Ex; [|done].
  destruct (MlFeatures.stateful_type _ _ _ _ _ (t_type t)) eqn:Es, on; simpl;
    try (unfold mbind, M_bind; destruct (e_fn x t data (e_ctx e) s) as [[v|err] s1] eqn:E; simpl).
  all: try (intros [= <- <-]; exists (Computed, v); simpl; split; [split; [done | by exists x, s, s1] | by rewrite ?app_nil_r]).
  - destruct (bool_decide (err = StatefulUnavailable)) eqn:He; bool_hyps; subst; simpl; [|done]. intros [= <- <-]. exists (Unavailable, Real (neutral_of (t_type t))).
    simpl. rewrite app_nil_r. split; [|done]. split_and!; [done..|]. by exists x, s, s1.
  - intros [= <- <-]. exists (Neutralized, Real (neutral_of (t_type t))). simpl. by rewrite app_nil_r.
  - intros [= <- <-]. exists (Neutralized, Real (neutral_of (t_type t))). simpl. by rewrite app_nil_r.
  - by destruct (bool_decide (err = StatefulUnavailable)).
  - by destruct (bool_decide (err = StatefulUnavailable)).
Qed.

Lemma loop_spec e data on ts : ∀ acc s r s', serving_inv s → foldM (step e data on) acc ts s = (r, s') →
  serving_inv s' ∧ ∀ acc', r = Ok acc' → ∃ slots, Forall2 (slot e data on) ts slots ∧ acc' = vector_of ts slots acc.
Proof.
  induction ts as [|t ts IH]; intros acc s r s' I; simpl.
  - intros [= <- <-]. split; [done|]. intros acc' [= <-]. exists []. split; [done|]. unfold vector_of, filled. simpl.
    destruct acc. by rewrite !app_nil_r.
  - unfold mbind, M_bind. destruct (step e data on acc t s) as [[acc1|err] s1] eqn:E;
      pose proof (step_keeps e data on acc t s I) as I1; unfold final in I1; rewrite E in I1; simpl in I1.
    + intros (I2 & Hr)%IH; [|done]. split; [done|]. intros acc' ->. destruct (Hr acc' eq_refl) as (slots & Hs & ->).
      destruct (step_spec _ _ _ _ _ _ _ _ I E) as (hv & Hhv & ->). exists (hv :: slots). split; [by constructor|].
      unfold vector_of, filled. simpl. repeat case_bool_decide; simpl; by rewrite <- ?app_assoc, ?app_nil_r.
    + intros [= <- <-]. done.
Qed.

(** A sensor read: a finite number of the reading. *)
Definition present (data : dict) (sensor : json) : Prop :=
  ∃ name f, sensor = JStr name ∧ sensor_value data sensor = Ok f ∧ is_finite f = true.

Lemma missing_nothing data l : missing_sensors data l = Ok [] → Forall (present data) l.
Proof.
  induction l as [|s l IH]; simpl; [by constructor|].
  intros (v & Hv & (ok & Hok & (rest & Hr & Hrest)%res_bind_inv_ok)%res_bind_inv_ok)%res_bind_inv_ok.
  destruct ok; [|done]. injection Hrest as ->. constructor; [|by apply IH].
  destruct (finite_value _ Hok) as (f & Hf & Hfin). unfold present, sensor_value. rewrite Hv. simpl. rewrite Hok. simpl.
  destruct s as [| | | |name| |]; simpl in Hv; simplify_eq; try done. by exists name, f.
Qed.

(** Whether the stateful class computes, and what asking leaves. *)
Definition stateful_enabled (e : FeatureEngineeringEngine) : M serving bool :=
  if e_kill_switch e then enabled switch_ttl else mret true.

Lemma stateful_enabled_spec e s : serving_inv s → ∃ on s1, stateful_enabled e s = (Ok on, s1) ∧ serving_inv s1 ∧
  ∃ l, s_asked s1 = (s_asked s ++ l)%list ∧ Forall (λ a, a.1.2 = AskSwitch) l.
Proof.
  intros I. unfold stateful_enabled. destruct (e_kill_switch e).
  - destruct (enabled_spec s I Httl) as (b & s1 & E & I1 & _ & _ & Hl). eauto.
  - exists true, s. split; [done|]. split; [done|]. exists []. by rewrite app_nil_r.
Qed.

Lemma transform_unfold e data s on s1 : missing_sensors data (required_sensors e) = Ok [] →
  stateful_enabled e s = (Ok on, s1) →
  transform e data s = foldM (step e data on) {| vector := []; neutralized_features := []; unavailable_features := [] |}
                             (transformations (e_config e)) s1.
Proof.
  intros Hm Hon. unfold MlFeatures.transform, lift. rewrite Hm. unfold mbind at 1, M_bind at 1.
  by rewrite (bind_ok _ _ _ _ _ Hon).
Qed.

Lemma transform_cases e data s :
  missing_sensors data (required_sensors e) = Ok [] ∨ ∃ x, transform e data s = (Err x, s).
Proof.
  unfold MlFeatures.transform, lift, mbind, M_bind.
  destruct (missing_sensors _ _) as [[|]|]; [by left | right; by eexists | right; by eexists].
Qed.

Lemma transform_slots e data s r s' : serving_inv s → transform e data s = (r, s') →
  serving_inv s' ∧ ∀ out, r = Ok out →
    Forall (present data) (required_sensors e) ∧
    ∃ on slots, outcome (stateful_enabled e) s = Ok on ∧ Forall2 (slot e data on) (transformations (e_config e)) slots ∧
      vector out = map snd slots ∧
      neutralized_features out = filled Neutralized (transformations (e_config e)) slots ∧
      unavailable_features out = filled Unavailable (transformations (e_config e)) slots.
Proof.
  intros I. destruct (transform_cases e data s) as [Hm|[x E]].
  - destruct (stateful_enabled_spec e s I) as (on & s1 & Hon & I1 & _). rewrite (transform_unfold _ _ _ _ _ Hm Hon).
    intros (I' & Hr)%loop_spec; [|done]. split; [done|]. intros out ->. split; [by apply missing_nothing|].
    destruct (Hr out eq_refl) as (slots & Hs & ->). exists on, slots. split_and!; try done. unfold outcome. by rewrite Hon.
  - rewrite E. intros [= <- <-]. done.
Qed.

(** C9: The engine keeps the process's invariant, and what it returns is one
    honest slot per transformation, in order: an incomplete reading has no
    vector, every stateful slot that is not its transform's own value is the
    type's neutral value and is named, and nothing else is named. *)
Theorem transform_spec e data s r s' : serving_inv s → transform e data s = (r, s') →
  serving_inv s' ∧ ∀ out, r = Ok out →
    Forall (present data) (required_sensors e) ∧
    ∃ on slots, outcome (stateful_enabled e) s = Ok on ∧ Forall2 (slot e data on) (transformations (e_config e)) slots ∧
      vector out = map snd slots ∧
      neutralized_features out = filled Neutralized (transformations (e_config e)) slots ∧
      unavailable_features out = filled Unavailable (transformations (e_config e)) slots.
Proof. apply transform_slots. Qed.

(** While the switch is off no transform asks the aggregates anything. *)
Lemma step_off_asks_nothing e data acc t s : s_asked (step e data false acc t s).2 = s_asked s.
Proof.
  unfold transform_step, catch, _apply_transformation.
  destruct (MlFeatures.transform_of _ _ _ _ _ (t_type t)) as [x|] eqn:Ex; [|by destruct (stateful_type (t_type t))].
  destruct (MlFeatures.stateful_type _ _ _ _ _ (t_type t)) eqn:Es; simpl; [done|].
  assert (He : e_stateful x = false).
  { unfold MlFeatures.stateful_type, is_stateful in Es. unfold MlFeatures.transform_of in Ex. by rewrite Ex in Es. }
  pose proof (fn_asks_nothing _ _ t data (e_ctx e) s Ex He) as Hq.
  unfold mbind, M_bind. destruct (e_fn x t data (e_ctx e) s) as [[v|err] s1]; simpl in *; [done|].
  by destruct (bool_decide (err = StatefulUnavailable)).
Qed.

Theorem switched_off_asks_no_baseline e data s r s' : serving_inv s → outcome (stateful_enabled e) s = Ok false →
  transform e data s = (r, s') →
  ∃ l, s_asked s' = (s_asked s ++ l)%list ∧ Forall (λ a, a.1.2 = AskSwitch) l.
Proof.
  intros I Hoff Ht. destruct (transform_cases e data s) as [Hm|[x E]].
  - destruct (stateful_enabled_spec e s I) as (on & s1 & Hon & _ & l & Hl & Hq). exists l. split; [|done].
    unfold outcome in Hoff. rewrite Hon in Hoff. injection Hoff as ->. rewrite (transform_unfold _ _ _ _ _ Hm Hon) in Ht.
    rewrite <- Hl. clear -Ht HX. revert Ht. generalize (transformations (e_config e)). intros ts.
    match goal with |- foldM _ ?a _ _ = _ → _ => generalize a end. intros acc. revert acc s1. 
    induction ts as [|t ts IH]; intros acc s1; simpl; [by intros [= _ <-]|].
    pose proof (step_off_asks_nothing e data acc t s1) as Hs. unfold mbind, M_bind.
    destruct (step e data false acc t s1) as [[acc1|err] s2]; simpl in Hs; [|by intros [= _ <-]].
    intros ->%IH. done.
  - rewrite E in Ht. injection Ht as _ <-. exists [].
    by rewrite app_nil_r.
Qed.

(** What the provider answers. *)
Theorem baseline_served_is_fresh company equipment_id sensor g s b s' : serving_inv s →
  compute_baseline company equipment_id sensor g s = (Ok (Some b), s') →
  fresh_baseline company sensor (s_now s) s' b.
Proof. intros I E. by eapply provider_spec in E as [_ Hb]; [apply Hb|..]. Qed.
End engine.
End invariant.
