(* ===== verification/MlDetectors.v ===== *)
(** * The ML service's detectors

    services/ml_service/api/extensions: the detector registry ([__init__.py])
    and the detectors the platform ships ([builtins_detectors.py]).  A model is
    what its library makes it: [predict_proba], [decision_function], [predict]
    and the raw model behind MLflow's wrapper are its own functions, and NumPy's
    exponential and mean square are parameters. *)

From stdpp Require Import base strings list sets sorting.
From Stdlib Require Import ZArith Lia.
From Corelib Require Import SpecFloat.
From S2P Require Import Prelude PyText PyNum PyJson MlExtensions.

Local Open Scope string_scope.

(** ** Models *)

Record ndarray := { shape : list nat; cells : list float }.

Record estimator := {
  predict_proba : option (list feature → res ndarray);
  decision_function : option (list feature → res ndarray)
}.

(** A loaded model: itself as an estimator, and MLflow's accessor to the model
    it wraps, which may have none ([NotImplementedError]). *)
Record model := {
  own : estimator;
  predict : list feature → res ndarray;
  get_raw_model : option (res (option estimator))
}.

Definition _estimator (m : model) : res estimator :=
  match get_raw_model m with
  | None => Ok (own m)
  | Some raw => r ← raw; Ok (default (own m) r)
  end.

(** ** Results *)

Definition ANOMALY_PROBABILITY : string := "anomaly_probability".
Definition OUTLIER_SCORE : string := "outlier_score".
Definition RECONSTRUCTION_ERROR : string := "reconstruction_error".
Definition DIRECT_SCORE : string := "direct_score".
Definition SCORE_SEMANTICS : list string := [ANOMALY_PROBABILITY; OUTLIER_SCORE; RECONSTRUCTION_ERROR; DIRECT_SCORE].

Record DetectorContext := { d_equipment_id : json; reconstruction_scale : json }.
Record DetectionResult := { score : float; is_anomaly : bool; detail : list (string * json) }.

Definition one : float := float_of_dec false 1 0.

(** [max(0.0, min(1.0, x))]: Python's [min] and [max] keep their first argument
    unless another compares past it, which a NaN does not. *)
Definition _clamp (x : float) : float :=
  let y := if flt x one then x else one in if fgt y zero then y else zero.

Definition detected (s threshold : float) (detail : list (string * json)) : DetectionResult :=
  {| score := s; is_anomaly := fge s threshold; detail := detail |}.

(** [.ravel()[0]] *)
Definition first_cell (a : ndarray) : res float := or_raise OtherError (head (cells a)).

Section detectors.
Context (np_exp : float → float) (mean_square : list feature → list float → res float).

Definition TEMPERATURE : float := float_of_dec false 6 (-2).
Definition _outlier_result (raw threshold : float) : DetectionResult :=
  detected (_clamp (fdiv one (fadd one (np_exp (fdiv raw TEMPERATURE))))) threshold
    [("semantics", JStr OUTLIER_SCORE); ("raw_outlier_score", JFloat raw)].

Definition sklearn_detector (features : list feature) (m : model) (threshold : float) (ctx : DetectorContext) :
    res DetectionResult :=
  est ← _estimator m;
  match predict_proba est, decision_function est with
  | Some f, _ =>
      proba ← f features;
      width ← or_raise OtherError (shape proba !! 1);
      p ← or_raise OtherError (cells proba !! (if (1 <? width)%nat then 1 else 0));
      Ok (detected (_clamp p) threshold [("semantics", JStr ANOMALY_PROBABILITY)])
  | None, Some f => a ← f features; raw ← first_cell a; Ok (_outlier_result raw threshold)
  | None, None => Err UninterpretableModel
  end.

Definition on_scale (x : float) : bool := is_finite x && fle zero x && fle x one.

Definition direct_detector (features : list feature) (m : model) (threshold : float) (ctx : DetectorContext) :
    res DetectionResult :=
  prediction ← predict m features;
  match cells prediction with
  | p :: _ => if on_scale p then Ok (detected p threshold [("semantics", JStr DIRECT_SCORE)])
              else Err UninterpretableModel
  | [] => Err UninterpretableModel
  end.

Definition outlier_detector (features : list feature) (m : model) (threshold : float) (ctx : DetectorContext) :
    res DetectionResult :=
  est ← _estimator m;
  match decision_function est with
  | None => Err UninterpretableModel
  | Some f => a ← f features; raw ← first_cell a; Ok (_outlier_result raw threshold)
  end.

(** [not scale or scale <= 0], then the scale in arithmetic with a float. *)
Definition usable_scale (v : json) : res float :=
  if negb (truthy v) then Err UninterpretableModel else
  match v with
  | JInt z => if (z <=? 0)%Z then Err UninterpretableModel else json_float v
  | JFloat f => if fle f zero then Err UninterpretableModel else Ok f
  | JBool _ => json_float v
  | _ => Err TypeError
  end.

Definition autoencoder_detector (features : list feature) (m : model) (threshold : float) (ctx : DetectorContext) :
    res DetectionResult :=
  reconstruction ← predict m features;
  if negb (bool_decide (shape reconstruction = [1; length features])) then Err UninterpretableModel else
  mse ← mean_square features (cells reconstruction);
  scale ← usable_scale (reconstruction_scale ctx);
  let total := fadd mse scale in
  if feq total zero then Err ZeroDivisionError else
  Ok (detected (_clamp (fdiv mse total)) threshold
        [("semantics", JStr RECONSTRUCTION_ERROR); ("reconstruction_error", JFloat mse);
         ("training_scale", reconstruction_scale ctx)]).

(** ** The registry *)

Abbreviation detector_fn := (list feature → model → float → DetectorContext → res DetectionResult).

(** [d_object] is the function's identity, which a name is registered to. *)
Record detector := { d_object : string; d_fn : detector_fn; d_semantics : string; d_flavors : list string }.
Abbreviation detectors := (list (string * detector)).

Definition PLATFORM_LOADERS : list string := ["mlflow.sklearn"; "mlflow.xgboost"].

Fixpoint get_detector (name : string) (reg : detectors) : option detector :=
  match reg with
  | [] => None
  | (n, d) :: r => if bool_decide (n = name) then Some d else get_detector name r
  end.
Fixpoint set_detector (name : string) (d : detector) (reg : detectors) : detectors :=
  match reg with
  | [] => [(name, d)]
  | (n, d') :: r => if bool_decide (n = name) then (name, d) :: r else (n, d') :: set_detector name d r
  end.

Definition register_detector (name : string) (d : detector) (reg : detectors) : res detectors :=
  if negb (forallb (λ f, bool_decide (f ∈ PLATFORM_LOADERS)) (d_flavors d)) then Err ValueError else
  match get_detector name reg with
  | Some d' => if bool_decide (d_object d' = d_object d) then Ok (set_detector name d reg) else Err ValueError
  | None => Ok (set_detector name d reg)
  end.

Definition registered_detectors (reg : detectors) : list string := merge_sort String.le (map fst reg).

Definition scores_flavor (flavor : string) (reg : detectors) (n : string) : bool :=
  match get_detector n reg with Some d => bool_decide (flavor ∈ d_flavors d) | None => false end.
Definition means (semantics : string) (reg : detectors) (n : string) : bool :=
  match get_detector n reg with Some d => bool_decide (d_semantics d = semantics) | None => false end.
Definition detectors_for_flavor (flavor : string) (reg : detectors) : list string :=
  List.filter (scores_flavor flavor reg) (registered_detectors reg).
Definition detectors_for (semantics flavor : string) (reg : detectors) : list string :=
  List.filter (λ n, means semantics reg n && scores_flavor flavor reg n) (registered_detectors reg).

Definition builtin_detectors : detectors :=
  [("sklearn", {| d_object := "builtins_detectors.sklearn_detector"; d_fn := sklearn_detector;
                  d_semantics := ANOMALY_PROBABILITY; d_flavors := PLATFORM_LOADERS |});
   ("direct", {| d_object := "builtins_detectors.direct_detector"; d_fn := direct_detector;
                 d_semantics := DIRECT_SCORE; d_flavors := PLATFORM_LOADERS |});
   ("outlier", {| d_object := "builtins_detectors.outlier_detector"; d_fn := outlier_detector;
                  d_semantics := OUTLIER_SCORE; d_flavors := ["mlflow.sklearn"] |});
   ("autoencoder", {| d_object := "builtins_detectors.autoencoder_detector"; d_fn := autoencoder_detector;
                      d_semantics := RECONSTRUCTION_ERROR; d_flavors := ["mlflow.sklearn"] |})].

(** The modules a deployment loads register after the built-ins, in order; the first refusal stops the load. *)
Fixpoint load_detectors (found : detectors) (reg : detectors) : res detectors :=
  match found with
  | [] => Ok reg
  | (n, d) :: r => reg' ← register_detector n d reg; load_detectors r reg'
  end.
End detectors.

(** ** What the detectors promise *)

Lemma on_scale_clamp x : on_scale (_clamp x) = true.
Proof.
  unfold _clamp. set (y := if flt x one then x else one).
  assert (Hy : fle y one = true).
  { subst y. destruct (flt x one) eqn:E; [|done]. revert E. unfold flt, fle, SFltb, SFleb.
    destruct (SFcompare x one) as [[]|]; done. }
  destruct (fgt y zero) eqn:E; [|done]. unfold on_scale. apply andb_true_iff; split; [apply andb_true_iff; split|done].
  - destruct y as [|[]| |]; done.
  - revert E. unfold fgt, fle, SFltb, SFleb. destruct (SFcompare zero y) as [[]|]; done.
Qed.

(** A verdict on the declared scale: a number from 0 to 1, an anomaly when it
    reaches the threshold, and under a semantics the platform knows. *)
Definition on_declared_scale (threshold : float) (r : DetectionResult) : Prop :=
  on_scale (score r) = true ∧ is_anomaly r = fge (score r) threshold ∧
  ∃ s, s ∈ SCORE_SEMANTICS ∧ dict_lookup "semantics" (detail r) = Some (JStr s).

Lemma detected_on_scale s threshold k rest : on_scale s = true → k ∈ SCORE_SEMANTICS →
  on_declared_scale threshold (detected s threshold (("semantics", JStr k) :: rest)).
Proof. intros Hs Hk. split; [done|]. split; [done|]. by exists k. Qed.

Section promises.
Context (np_exp : float → float) (mean_square : list feature → list float → res float).

Lemma outlier_on_scale raw threshold : on_declared_scale threshold (_outlier_result np_exp raw threshold).
Proof. apply detected_on_scale; [apply on_scale_clamp|]. set_solver. Qed.

(** Whatever a model's library answers, the platform's own detectors score it
    on the declared scale or not at all. *)
Theorem builtin_scores_on_scale name d features m threshold ctx r :
  get_detector name (builtin_detectors np_exp mean_square) = Some d →
  d_fn d features m threshold ctx = Ok r → on_declared_scale threshold r.
Proof.
  unfold builtin_detectors. simpl. repeat (case_bool_decide; [intros [= <-]; simpl|]); [..|done].
  - unfold sklearn_detector. intros (est & _ & HH)%res_bind_inv_ok.
    destruct (predict_proba est) as [f|]; [|destruct (decision_function est) as [f|]; [|done]].
    + revert HH. intros (? & _ & (w & _ & (p & _ & [= <-])%res_bind_inv_ok)%res_bind_inv_ok)%res_bind_inv_ok.
      apply detected_on_scale; [apply on_scale_clamp|]. set_solver.
    + revert HH. intros (? & _ & (raw & _ & [= <-])%res_bind_inv_ok)%res_bind_inv_ok. apply outlier_on_scale.
  - unfold direct_detector. intros (p & _ & HH)%res_bind_inv_ok. destruct (cells p) as [|x]; [done|].
    destruct (on_scale x) eqn:E; [|done]. injection HH as <-. apply detected_on_scale; [done|]. set_solver.
  - unfold outlier_detector. intros (est & _ & HH)%res_bind_inv_ok. destruct (decision_function est) as [f|]; [|done].
    revert HH. intros (? & _ & (raw & _ & [= <-])%res_bind_inv_ok)%res_bind_inv_ok. apply outlier_on_scale.
  - unfold autoencoder_detector. intros (p & _ & HH)%res_bind_inv_ok. case_match; [done|].
    revert HH. intros (mse & _ & (sc & _ & HH)%res_bind_inv_ok)%res_bind_inv_ok. case_match; [done|]. injection HH as <-.
    apply detected_on_scale; [apply on_scale_clamp|]. set_solver.
Qed.

(** ** The registry's promises *)

Lemma get_set n d reg k : get_detector k (set_detector n d reg) = if bool_decide (n = k) then Some d else get_detector k reg.
Proof.
  induction reg as [|[m e] reg IH]; simpl; [done|].
  destruct (bool_decide (m = n)) eqn:Hm; bool_hyps; simpl.
  - subst m. by destruct (bool_decide (n = k)).
  - rewrite IH. repeat case_bool_decide; naive_solver.
Qed.

Lemma get_elem n reg d : get_detector n reg = Some d → n ∈ map fst reg.
Proof.
  induction reg as [|[m e] reg IH]; simpl; [done|]. case_bool_decide; [subst; left|]. right. by apply IH.
Qed.

Lemma detectors_for_spec semantics flavor reg n : n ∈ detectors_for semantics flavor reg ↔
  ∃ d, get_detector n reg = Some d ∧ d_semantics d = semantics ∧ flavor ∈ d_flavors d.
Proof.
  unfold detectors_for. rewrite list_elem_of_In, filter_In, <- list_elem_of_In, andb_true_iff. unfold means, scores_flavor.
  split.
  - intros [_ [H1 H2]]. destruct (get_detector n reg) as [d|]; [|done]. bool_hyps. by exists d.
  - intros (d & E & <- & Hf). rewrite E, !bool_decide_eq_true. split; [|done].
    unfold registered_detectors. rewrite merge_sort_Permutation. by eapply get_elem.
Qed.

(** Every registered detector claims only what a data-only loader reads. *)
Definition loadable (reg : list (string * detector)) : Prop :=
  ∀ n d, get_detector n reg = Some d → ∀ f, f ∈ d_flavors d → f ∈ PLATFORM_LOADERS.

Lemma register_loadable n d reg reg' : register_detector n d reg = Ok reg' → loadable reg →
  loadable reg' ∧ ∀ k e, get_detector k reg = Some e → ∃ e', get_detector k reg' = Some e' ∧ d_object e' = d_object e.
Proof.
  unfold register_detector. intros H Hl. destruct (forallb _ _) eqn:Ef; simpl in H; [|done].
  assert (Hf : ∀ f, f ∈ d_flavors d → f ∈ PLATFORM_LOADERS).
  { intros f Hf. rewrite forallb_elem in Ef. apply Ef in Hf. by bool_hyps. }
  assert (Hset : loadable (set_detector n d reg)).
  { intros k e. rewrite get_set. case_bool_decide; [by intros [= <-]|]. apply Hl. }
  destruct (get_detector n reg) as [e|] eqn:Eg.
  - destruct (bool_decide (d_object e = d_object d)) eqn:Eo; [|done]. bool_hyps. injection H as <-. split; [done|].
    intros k e' Hk. rewrite get_set. case_bool_decide; [subst k; exists d; naive_solver|]. by exists e'.
  - injection H as <-. split; [done|]. intros k e' Hk. rewrite get_set. case_bool_decide; [congruence|]. by exists e'.
Qed.

Lemma load_loadable found : ∀ reg reg', load_detectors found reg = Ok reg' → loadable reg →
  loadable reg' ∧ ∀ k e, get_detector k reg = Some e → ∃ e', get_detector k reg' = Some e' ∧ d_object e' = d_object e.
Proof.
  induction found as [|[n d] found IH]; intros reg reg'; simpl.
  - intros [= <-] Hl. split; [done|]. intros k e Hk. by exists e.
  - intros (r1 & H1 & H2)%res_bind_inv_ok Hl. destruct (register_loadable _ _ _ _ H1 Hl) as [Hl1 Ho].
    destruct (IH _ _ H2 Hl1) as [Hl2 Ho2]. split; [done|]. intros k e (e1 & He1 & <-)%Ho.
    destruct (Ho2 _ _ He1) as (e2 & He2 & <-). by exists e2.
Qed.

Lemma builtins_loadable : loadable (builtin_detectors np_exp mean_square).
Proof.
  intros n d. unfold builtin_detectors. simpl. repeat (case_bool_decide; [intros [= <-]; simpl; set_solver|]). done.
Qed.

(** A deployment's modules never replace the platform's detectors, and whatever
    they register, the detectors a declaration selects are the registered ones
    that implement it for a flavor a data-only loader reads. *)
Theorem loaded_registry_sound found reg : load_detectors found (builtin_detectors np_exp mean_square) = Ok reg →
  (∀ n d, get_detector n (builtin_detectors np_exp mean_square) = Some d →
     ∃ d', get_detector n reg = Some d' ∧ d_object d' = d_object d) ∧
  ∀ semantics flavor n, n ∈ detectors_for semantics flavor reg →
    flavor ∈ PLATFORM_LOADERS ∧ ∃ d, get_detector n reg = Some d ∧ d_semantics d = semantics ∧ flavor ∈ d_flavors d.
Proof.
  intros H. destruct (load_loadable _ _ _ H builtins_loadable) as [Hl Ho]. split; [done|].
  intros semantics flavor n (d & Hd & Hs & Hf)%detectors_for_spec. split; [by eapply Hl | by exists d].
Qed.
End promises.

(** A probability that is not a number is scored a certain anomaly. *)
Lemma nan_is_certain : _clamp S754_nan = one.
Proof. reflexivity. Qed.
