(* ===== verification/MlWorld.v ===== *)
(** * The world the ML service runs in

    What its processes share and others write: the tenants' tables (repository.py),
    the tracking store's runs and experiments and the artifacts of the object
    store; what one process keeps: its serving state (MlFeatures) and its warm
    models; and the calls between them.  Before each call others may write
    ([others]), and the call runs, fails, or takes effect and loses its reply. *)

From stdpp Require Import base strings list gmap.
From Stdlib Require Import ZArith Lia.
From S2P Require Import Prelude PyText PyNum PyJson MlExtensions MlFeatures MlDetectors.

Local Open Scope string_scope.

(** ** The tenants' tables *)

(** A row of [ml_models]; ids are the texts of UUIDs.  The metric columns,
    which the service only copies, are left out. *)
Record model_row := {
  m_name : string; m_version : Z; m_type : string; m_equipment : option string;
  m_status : string;
  m_run : option string; m_artifact_uri : option string; m_provenance : option string;
  m_detector : option string; m_config : option string; m_sensor_ids : option (list string);
  m_training_metrics : json; m_profile : json; m_compatibility : option string
}.

(** A row of [feature_engineering_configs]. *)
Record config_row := {
  c_equipment_type : string; c_name : string; c_description : option string;
  c_inputs : feature_config; c_created_by : option string
}.

Record tenant := {
  t_models : gmap string model_row;
  t_configs : gmap string config_row;
  t_sensors : gmap (string * string) string  (* of an equipment, by name *)
}.
Definition no_tenant : tenant := {| t_models := ∅; t_configs := ∅; t_sensors := ∅ |}.

(** ** The stores *)

(** A downloaded artifact: its manifest's flavors, and its directory: [a_root]
    is the real path of the copy, [real] resolves a path joined to it, links
    followed.  [a_requirements] are the lines of its requirements file. *)
Record artifact := {
  manifest : option dict;
  a_root : string;
  real : string → string;
  is_file : string → bool;
  a_requirements : option (list string)
}.

(** An account with its company's flag, as one read joins them. *)
Record account := {
  u_active : bool; u_company : option Z;  (* a UUID *) u_company_active : bool;
  u_role : option string; u_superuser : bool; u_must_change : bool
}.

Record shared := {
  accounts : gmap Z account;
  ended_store : string → Z * res (option string);  (* the session store's reads: how long, and what *)
  tenants : gmap string tenant;  (* by schema *)
  runs : gmap string string;  (* a run's experiment *)
  experiments : gmap string string;  (* an experiment's name *)
  logged_models : gmap (string * string) (list (list (string * option string)));  (* of an experiment and a run, by page: id, source run *)
  artifacts : gmap string artifact  (* by address *)
}.
Definition tenant_of (schema : string) (sh : shared) : tenant := default no_tenant (tenants sh !! schema).
Definition set_tenant (schema : string) (t : tenant) (sh : shared) : shared :=
  {| accounts := accounts sh; ended_store := ended_store sh; tenants := <[schema := t]> (tenants sh); runs := runs sh; experiments := experiments sh;
     logged_models := logged_models sh; artifacts := artifacts sh |}.

(** ** A process *)

Record address := { ad_company : string; ad_run : option string; ad_artifact : option string; ad_provenance : option string }.
#[export] Instance address_eq_dec : EqDecision address.
Proof. solve_decision. Defined.

Inductive loader_call := Skops (path : string) (trusted : option (list string)) (predict_fn : string) | Booster (class path : string).

Inductive verdict := COMPATIBLE | PATCH_DRIFT | INCOMPATIBLE.
#[export] Instance verdict_eq_dec : EqDecision verdict.
Proof. solve_decision. Defined.

(** A history no code reads: what the stores answered, what a process fetched
    and opened and how, what the gates saw and what they recorded. *)
Inductive event :=
  | AccountRead (user : Z) (a : option account)
  | SessionRead (user : string) (ended : bool)
  | ModelRead (schema id : string) (r : model_row)
  | ConfigRead (schema id : string) (c : config_row)
  | Experiment (run : string) (name : option string)
  | LoggedModels (run : string) (pages : list (list (string * option string)))
  | Fetched (uri : string) (a : artifact)
  | Opened (a : artifact) (provenance : option string) (c : loader_call)
  | Manifest (uri : string) (flavors : dict)
  | Compared (uri : string) (flavor : json) (v : verdict)
  | Probed (uri : string) (ok : bool)
  | StatusSet (schema id status : string)
  | Registered (schema id : string) (r : model_row).

Record world_turn := { others : shared → shared; goes : call }.

Record world := {
  w_shared : shared;
  w_serving : serving;
  w_cache : list (string * model);  (* least recently used first *)
  w_turns : list world_turn;
  w_log : list event
}.

Definition with_shared sh w := {| w_shared := sh; w_serving := w_serving w; w_cache := w_cache w; w_turns := w_turns w; w_log := w_log w |}.
Definition with_serving s w := {| w_shared := w_shared w; w_serving := s; w_cache := w_cache w; w_turns := w_turns w; w_log := w_log w |}.
Definition with_warm c w := {| w_shared := w_shared w; w_serving := w_serving w; w_cache := c; w_turns := w_turns w; w_log := w_log w |}.
Definition logged e w := {| w_shared := w_shared w; w_serving := w_serving w; w_cache := w_cache w; w_turns := w_turns w; w_log := w_log w ++ [e] |}%list.

Definition calm : world_turn := {| others := λ sh, sh; goes := Runs |}.
Definition remote {A} (f : shared → res A * shared) : M world A := λ w,
  let t := default calm (head (w_turns w)) in
  let sh := others t (w_shared w) in
  let go sh := {| w_shared := sh; w_serving := w_serving w; w_cache := w_cache w; w_turns := tail (w_turns w); w_log := w_log w |} in
  match goes t with
  | Runs => ((f sh).1, go (f sh).2)
  | Fails e => (Err e, go sh)
  | Lost e => (Err e, go (f sh).2)
  end.
Definition look {A} (f : shared → res A) : M world A := remote (λ sh, (f sh, sh)).
Definition on_serving {A} (m : M serving A) : M world A := zoom w_serving with_serving m.
