(* ===== verification/MlTrust.v ===== *)
(** * What the ML service may load

    services/ml_service/api: the manifest rules and the loaders of
    [skops_trust.py], the addresses of [model_uri.py], [uploaded_model.py] and
    [model_loader.py], and the warm cache of [model_cache.py], over a tracking
    store and an object store that others write and that may fail at any call.
    skops, xgboost and MLflow's wrappers are parameters: what a model built from
    an artifact's file is. *)

From stdpp Require Import base strings list gmap sets.
From Stdlib Require Import ZArith Lia Ascii.
From S2P Require Import Prelude PyText PyNum PyJson Tenancy SqlBinding MlExtensions MlDetectors MlWorld.

Local Open Scope string_scope.

(** ** Manifests *)

Definition KERNEL_TRUSTED_TYPES : list string :=
  ["sklearn.tree._tree.Tree"; "sklearn.ensemble._hist_gradient_boosting.predictor.TreePredictor"].
Definition PROVENANCE_KERNEL : string := "kernel".
Definition PROVENANCE_UPLOADED : string := "uploaded".

Definition trusted_types_for (provenance : option string) : option (list string) :=
  if bool_decide (provenance = Some PROVENANCE_KERNEL) then Some KERNEL_TRUSTED_TYPES else None.

(** [conf.get(k)] of what a manifest holds: only an object has it. *)
Definition conf_get (conf : json) (k : string) : res json :=
  match conf with JDict d => Ok (jget k d) | _ => Err AttributeError end.
Definition conf_default (conf : dict) (k : string) (d : json) : json := default d (dict_lookup k conf).

Definition is_skops_sklearn (flavors : dict) : res bool :=
  let conf := jget "sklearn" flavors in
  if truthy conf then v ← conf_get conf "serialization_format"; Ok (is_text "skops" v) else Ok false.

Definition _PREDICT_FNS : list string := ["predict"; "predict_proba"; "predict_log_proba"; "predict_joint_log_proba"; "score"].
Definition _XGBOOST_MODEL_CLASSES : list string :=
  ["xgboost.core.Booster"; "xgboost.sklearn.XGBClassifier"; "xgboost.sklearn.XGBRegressor";
   "xgboost.sklearn.XGBRanker"; "xgboost.sklearn.XGBRFClassifier"; "xgboost.sklearn.XGBRFRegressor"].

(** [v in names]: a list or a dict has no hash. *)
Definition named_in (v : json) (names : list string) : res bool :=
  match v with
  | JStr s => Ok (bool_decide (s ∈ names))
  | JList _ | JDict _ => Err TypeError
  | _ => Ok false
  end.

Definition ships_code (flavors : dict) : bool :=
  existsb (λ kv : string * json, match kv.2 with JDict conf => truthy (jget "code" conf) | _ => false end) flavors.

(** The class an xgboost flavor names, of those it may. *)
Definition xgboost_class (flavors : dict) : res string :=
  match jget "xgboost" flavors with
  | JDict conf =>
      let c := conf_default conf "model_class" (JStr "xgboost.core.Booster") in
      ok ← named_in c _XGBOOST_MODEL_CLASSES;
      match ok : bool, c with true, JStr name => Ok name | _, _ => Err UnsafeArtifact end
  | _ => Err UnsafeArtifact
  end.

Definition refuse_author_code (flavors : dict) : res unit :=
  let py := jget "python_function" flavors in
  if negb (truthy py) then Err UnsafeArtifact else
  if ships_code flavors then Err UnsafeArtifact else
  loader ← conf_get py "loader_module";
  known ← named_in loader PLATFORM_LOADERS;
  if negb known then Err UnsafeArtifact else
  skops ← (if is_text "mlflow.sklearn" loader then is_skops_sklearn flavors else Ok true);
  if negb skops then Err UnsafeArtifact else
  if is_text "mlflow.xgboost" loader then _ ← xgboost_class flavors; Ok tt else Ok tt.

(** ** A downloaded artifact's paths *)

(** [os.path.join(root, x)]: an absolute path stands alone. *)
Definition path_join (r x : string) : string := if startswith "/" x then x else r +:+ "/" +:+ x.

(** [os.path.commonpath([root, path]) == root], of two real paths. *)
Definition components (p : string) : list string := List.filter (λ c, negb (bool_decide (c = ""))) (str_split "/" p).
Fixpoint is_prefix (l m : list string) : bool :=
  match l, m with
  | [], _ => true
  | x :: l', y :: m' => bool_decide (x = y) && is_prefix l' m'
  | _, _ => false
  end.
Definition inside (a : artifact) (path : string) : bool := is_prefix (components (a_root a)) (components path).
Definition resolve (a : artifact) (rel : string) : string := real a (path_join (a_root a) rel).

Section paths.
Context (py_repr : json → string).

(** [str(v)] *)
Definition path_text (v : json) : string := SqlBinding.py_str py_repr v.

Definition _refuse_paths_outside (a : artifact) (flavors : dict) : res unit :=
  let check conf := match conf with
                    | JDict d =>
                        match jget "data" d with
                        | JNull => Ok tt
                        | rel => if inside a (resolve a (path_text rel)) then Ok tt else Err UnsafeArtifact
                        end
                    | _ => Ok tt
                    end in
  _ ← check (jget "python_function" flavors); check (jget "xgboost" flavors).

(** The file a loader opens: inside the model. *)
Definition model_file (a : artifact) (rel : string) : res string :=
  let path := resolve a rel in
  if inside a path && is_file a path then Ok path else Err ValueError.
End paths.
