(* ===== verification/MlLoading.v ===== *)
(** * Where the ML service's models are, and how they are loaded

    services/ml_service/api: [uploaded_model.py], [model_uri.py],
    [model_loader.py], [skops_trust.load_pyfunc] and its loaders,
    [model_cache.py] and [inference.load_model_for]. *)

From stdpp Require Import base strings list gmap sets.
From Stdlib Require Import ZArith Lia Ascii.
From S2P Require Import Prelude PyText PyNum PyJson Tenancy SqlBinding MlExtensions MlDetectors MlWorld MlTrust.

Local Open Scope string_scope.

(** ** uploaded_model.py *)

Definition given (v : option string) : bool := match v with Some s => negb (bool_decide (s = "")) | None => false end.

Definition provenance_of (mlflow_run_id artifact_uri : option string) : string :=
  if given mlflow_run_id then PROVENANCE_KERNEL else PROVENANCE_UPLOADED.

Definition ADMITTED_ROOT : string := "uploads/".
Definition id_char (c : ascii) : bool :=
  let n := nat_of_ascii c in
  ((48 <=? n) && (n <=? 57) || (65 <=? n) && (n <=? 90) || (97 <=? n) && (n <=? 122) || (n =? 95) || (n =? 45))%nat.
Definition of_length (lo hi : nat) (s : string) : bool := ((lo <=? String.length s) && (String.length s <=? hi))%nat.
Definition is_upload_id (s : string) : bool := of_length 16 64 s && str_all id_char s.

(** The text without its last character, if that is [c]. *)
Definition drop_last (c : ascii) (s : string) : string := default s (strip_suffix (String c EmptyString) s).

Inductive refusal := NoArtifact | NoBucket | InvalidTenant | NotAdmitted.
#[export] Instance refusal_eq_dec : EqDecision refusal.
Proof. solve_decision. Defined.

Definition uploads_of (bucket prefix : string) : string := "s3://" +:+ bucket +:+ "/" +:+ prefix +:+ ADMITTED_ROOT.
Definition admitted_artifact_refusal (artifact_uri : option string) (company_id bucket : string) : option refusal :=
  match artifact_uri with
  | None => Some NoArtifact
  | Some uri =>
      if bool_decide (uri = "") then Some NoArtifact else
      if bool_decide (bucket = "") then Some NoBucket else
      match mlflow_artifact_prefix company_id with
      | Err _ => Some InvalidTenant
      | Ok prefix =>
          let expected := uploads_of bucket prefix in
          if startswith expected uri && is_upload_id (drop_last "/" (str_drop (String.length expected) uri))
          then None else Some NotAdmitted
      end
  end.

(** ** model_uri.py *)

(** [_RUN_ID.match]: its [$] also holds before a final newline. *)
Definition newline : ascii := "010"%char.
Definition is_run_id (value : string) : bool :=
  let id := drop_last newline value in of_length 1 64 id && str_all id_char id.

Definition resolve_model_uri (mlflow_run_id : string) : M world string :=
  if negb (is_run_id mlflow_run_id) then raise ValueError else
  catch (experiment ← look (λ sh, or_raise OtherError (runs sh !! mlflow_run_id));
         pages ← look (λ sh, Ok (default [] (logged_models sh !! (experiment, mlflow_run_id))));
         _ ← modify (logged (LoggedModels mlflow_run_id pages));
         mret match List.find (λ m : string * option string, bool_decide (m.2 = Some mlflow_run_id)) (concat pages) with
              | Some (id, _) => "models:/" +:+ id
              | None => "runs:/" +:+ mlflow_run_id +:+ "/model"
              end)
        (λ e, if bool_decide (e = SystemExit) then raise e else mret ("runs:/" +:+ mlflow_run_id +:+ "/model")).

(** ** model_loader.py: addresses *)

(** The store's "does not exist" is not a failure of the store. *)
Definition experiment_of (run : string) : M world (option string) :=
  experiment ← look (λ sh, Ok (runs sh !! run));
  name ← match experiment with
         | None => mret None
         | Some x => look (λ sh, Ok (experiments sh !! x))
         end;
  _ ← modify (logged (Experiment run name));
  mret name.

Definition _run_owned_by (mlflow_run_id company_id : string) : M world bool :=
  name ← catch (experiment_of mlflow_run_id)
               (λ e, if bool_decide (e = SystemExit) then raise e else raise TrackingStoreUnavailable);
  prefix ← lift (mlflow_name_prefix company_id);
  mret (bool_decide (is_Some (owned_name prefix name))).

Section addresses.
Context (bucket : string).

Definition check_address (company_id : string) (mlflow_run_id artifact_uri : option string) : res unit :=
  if given mlflow_run_id && given artifact_uri then Err ModelNotAdmissible else
  if given mlflow_run_id then
    if is_run_id (default "" mlflow_run_id) then Ok tt else Err ModelNotAdmissible
  else match admitted_artifact_refusal artifact_uri company_id bucket with
       | Some _ => Err ModelNotAdmissible
       | None => Ok tt
       end.

Definition check_admissible (company_id : string) (mlflow_run_id artifact_uri : option string) : M world unit :=
  _ ← lift (check_address company_id mlflow_run_id artifact_uri);
  if given mlflow_run_id then
    owned ← _run_owned_by (default "" mlflow_run_id) company_id;
    if owned : bool then mret tt else raise ModelNotAdmissible
  else mret tt.

Definition model_uri_for (mlflow_run_id artifact_uri : option string) : M world string :=
  if given mlflow_run_id then resolve_model_uri (default "" mlflow_run_id)
  else if given artifact_uri then mret (default "" artifact_uri)
  else raise ModelNotAdmissible.
End addresses.

(** ** skops_trust.py: the loaders *)

Section loading.
Context (py_repr : json → string) (bucket : string).
(** What skops, or xgboost, and MLflow's wrapper make of a file. *)
Context (build : artifact → loader_call → res model).

Definition open (a : artifact) (provenance : option string) (c : loader_call) : M world model :=
  _ ← modify (logged (Opened a provenance c)); lift (build a c).

Definition flavors_of (a : artifact) : res dict := or_raise OtherError (manifest a).

(** [py.get("data") or py.get("model_path") or ""], joined to a path. *)
Definition data_file (py : dict) : res string :=
  let d := jget "data" py in
  let p := if truthy d then d else jget "model_path" py in
  if truthy p then match p with JStr s => Ok s | _ => Err TypeError end else Ok "".

Definition skops_call (a : artifact) (provenance : option string) : res loader_call :=
  flavors ← flavors_of a;
  match jget "python_function" flavors with
  | JDict py =>
      if negb (truthy (JDict py)) then Err ValueError else
      if negb (is_text "mlflow.sklearn" (jget "loader_module" py)) then Err ValueError else
      let predict_fn := conf_default py "predict_fn" (JStr "predict") in
      known ← named_in predict_fn _PREDICT_FNS;
      match known : bool, predict_fn with
      | true, JStr fn =>
          rel ← data_file py;
          path ← model_file a rel;
          Ok (Skops path (trusted_types_for provenance) fn)
      | _, _ => Err ValueError
      end
  | py => if truthy py then Err AttributeError else Err ValueError
  end.
Definition _load_local_skops (a : artifact) (provenance : option string) : M world model :=
  c ← lift (skops_call a provenance); open a provenance c.

Definition xgboost_call (a : artifact) : res loader_call :=
  flavors ← flavors_of a;
  py ← match jget "python_function" flavors with
       | JDict py => Ok py
       | v => if truthy v then Err AttributeError else Ok []
       end;
  if negb (is_text "mlflow.xgboost" (jget "loader_module" py)) then Err UnsafeArtifact else
  if negb (is_text "predict" (conf_default py "predict_fn" (JStr "predict"))) then Err ValueError else
  class ← xgboost_class flavors;
  let data := match jget "xgboost" flavors with JDict conf => jget "data" conf | _ => JNull end in
  path ← model_file a (if truthy data then path_text py_repr data else "");
  Ok (Booster class path).
Definition _load_local_xgboost (a : artifact) (provenance : option string) : M world model :=
  c ← lift (xgboost_call a); open a provenance c.

Definition download_artifacts (artifact_uri : string) : M world artifact :=
  a ← look (λ sh, or_raise OtherError (artifacts sh !! artifact_uri));
  _ ← modify (logged (Fetched artifact_uri a));
  mret a.

Definition load_pyfunc (model_uri : string) (provenance : option string) : M world model :=
  a ← download_artifacts model_uri;
  flavors ← lift (flavors_of a);
  _ ← lift (refuse_author_code flavors);
  _ ← lift (_refuse_paths_outside py_repr a flavors);
  skops ← lift (is_skops_sklearn flavors);
  if skops : bool then _load_local_skops a provenance else _load_local_xgboost a provenance.

(** ** model_loader.load *)

Definition load (ad : address) : M world model :=
  _ ← check_admissible bucket (ad_company ad) (ad_run ad) (ad_artifact ad);
  uri ← model_uri_for (ad_run ad) (ad_artifact ad);
  load_pyfunc uri (ad_provenance ad).

Definition cache_key (ad : address) : string :=
  ad_company ad +:+ "|" +:+ default "None" (ad_provenance ad) +:+ "|" +:+
  (if given (ad_run ad) then default "" (ad_run ad) else default "None" (ad_artifact ad)).

(** ** model_cache.py *)

Section cache.
Context (max_entries : nat).

Fixpoint cached (k : string) (c : list (string * model)) : option model :=
  match c with
  | [] => None
  | (k', m) :: r => if bool_decide (k = k') then Some m else cached k r
  end.
Definition without (k : string) (c : list (string * model)) : list (string * model) :=
  List.filter (λ kv, negb (bool_decide (kv.1 = k))) c.
Definition put_last (k : string) (m : model) (c : list (string * model)) : list (string * model) := (without k c ++ [(k, m)])%list.

Definition get_or_load (k : string) (loader : M world model) : M world model :=
  w ← getS;
  match cached k (w_cache w) with
  | Some m => _ ← modify (with_warm (put_last k m (w_cache w))); mret m
  | None =>
      m ← loader;
      _ ← modify (λ w, let c := put_last k m (w_cache w) in with_warm (drop (length c - max_entries) c) w);
      mret m
  end.
Definition invalidate (k : string) : M world unit := modify (λ w, with_warm (without k (w_cache w)) w).
Definition clear : M world unit := modify (with_warm []).

(** ** inference.py: [load_model_for] *)

Definition record_provenance (r : model_row) : string :=
  if given (m_provenance r) then default "" (m_provenance r) else provenance_of (m_run r) (m_artifact_uri r).

Definition address_of (company_id : string) (r : model_row) : address :=
  {| ad_company := company_id; ad_run := m_run r; ad_artifact := m_artifact_uri r;
     ad_provenance := Some (record_provenance r) |}.

Definition load_model_for (company_id : string) (r : model_row) : M world model :=
  let ad := address_of company_id r in
  _ ← lift (check_address bucket company_id (ad_run ad) (ad_artifact ad));
  get_or_load (cache_key ad) (load ad).

Definition load_model_or_refuse (company_id : string) (r : model_row) : M world model :=
  catch (load_model_for company_id r)
        (λ e, match e with
              | ModelNotAdmissible => raise (HTTPException 422 "artifact not one your tenant may load")
              | TrackingStoreUnavailable => raise (HTTPException 503 "tracking store did not answer")
              | e => raise e
              end).
End cache.
End loading.
