(* ===== verification/MlLoadProps.v ===== *)
(** * What the ML service loads

    Over MlLoading: every file a process opened was one the manifest's rules
    allow, and every warm model was loaded for the tenant whose key finds it,
    after the tracking store named the tenant's own experiment for its run. *)

From stdpp Require Import base strings list gmap sets.
From Stdlib Require Import ZArith Lia Ascii.
From S2P Require Import Prelude PyText PyNum PyJson Tenancy SqlBinding MlExtensions MlDetectors MlWorld MlTrust MlLoading.

Local Open Scope nat_scope.

(** ** The warm cache's keys *)

Definition bar_free (s : string) : bool := str_all (λ c, negb (bool_decide (c = "|"%char))) s.

Lemma bar_inside a b : bar_free (a +:+ "|" +:+ b)%string = false.
Proof. unfold bar_free. rewrite str_all_app. simpl. apply andb_false_r. Qed.

Lemma last_bar a b a' b' : bar_free b = true → bar_free b' = true →
  (a +:+ "|" +:+ b = a' +:+ "|" +:+ b')%string → a = a' ∧ b = b'.
Proof.
  intros Hb Hb'. revert a'. induction a as [|c a IH]; intros [|c' a']; intros H.
  - by injection H.
  - exfalso. assert (b = a' +:+ "|" +:+ b')%string as -> by (by injection H). by rewrite bar_inside in Hb.
  - exfalso. assert (a +:+ "|" +:+ b = b')%string as <- by (by injection H). by rewrite bar_inside in Hb'.
  - assert (c = c' ∧ a +:+ "|" +:+ b = a' +:+ "|" +:+ b')%string as [-> H'] by (by injection H).
    by destruct (IH a' H') as [-> ->].
Qed.

Lemma ids_bar_free s : str_all id_char s = true → bar_free s = true.
Proof.
  apply str_all_impl. intros c Hc. apply negb_true_iff, bool_decide_eq_false. intros ->. discriminate.
Qed.

Lemma drop_last_cases c s : drop_last c s = s ∨ s = (drop_last c s +:+ String c EmptyString)%string.
Proof.
  unfold drop_last, strip_suffix. case_bool_decide as H; simpl; [by right | by left].
Qed.

Lemma run_id_bar_free s : is_run_id s = true → bar_free s = true.
Proof.
  unfold is_run_id. intros [_ H%ids_bar_free]%andb_true_iff. destruct (drop_last_cases newline s) as [<-|E]; [done|].
  rewrite E. unfold bar_free. rewrite str_all_app. unfold bar_free in H. by rewrite H.
Qed.

Definition no_slash_in (s : string) : bool := str_all (λ c, negb (bool_decide (c = "/"%char))) s.
Lemma run_id_slash_free s : is_run_id s = true → no_slash_in s = true.
Proof.
  assert (Hid : ∀ t, str_all id_char t = true → no_slash_in t = true).
  { intros t. apply str_all_impl. intros c Hc. apply negb_true_iff, bool_decide_eq_false. intros ->. discriminate. }
  unfold is_run_id. intros [_ H%Hid]%andb_true_iff. destruct (drop_last_cases newline s) as [<-|E]; [done|].
  rewrite E. unfold no_slash_in. rewrite str_all_app. unfold no_slash_in in H. by rewrite H.
Qed.

(** An admitted upload: the bucket, the tenant's prefix and the upload's id. *)
Lemma admitted_inv uri company bucket : admitted_artifact_refusal (Some uri) company bucket = None →
  ∃ prefix id, mlflow_artifact_prefix company = Ok prefix ∧ uri = (uploads_of bucket prefix +:+ id)%string ∧
    is_upload_id (drop_last "/" id) = true.
Proof.
  unfold admitted_artifact_refusal. repeat (case_bool_decide; [done|]).
  destruct (mlflow_artifact_prefix company) as [prefix|]; [|done]. case_match eqn:E; [|done]. intros _. bool_hyps.
  exists prefix. match goal with H : startswith _ _ = true |- _ => apply startswith_spec in H as [id ->] end.
  exists id. rewrite str_drop_prefix in *. done.
Qed.

Section keys.
Context (bucket : string) (Hbucket : bar_free bucket = true).

Definition admissible (ad : address) : Prop := check_address bucket (ad_company ad) (ad_run ad) (ad_artifact ad) = Ok tt.
Definition where_is (ad : address) : string :=
  if given (ad_run ad) then default "" (ad_run ad) else default "None" (ad_artifact ad).

Lemma upload_bar_free prefix company id : mlflow_artifact_prefix company = Ok prefix → is_upload_id (drop_last "/" id) = true →
  bar_free (uploads_of bucket prefix +:+ id)%string = true.
Proof.
  intros Hp Hid. unfold uploads_of, bar_free. rewrite !str_all_app. fold (bar_free bucket). rewrite Hbucket.
  assert (Hpre : bar_free prefix = true).
  { unfold mlflow_artifact_prefix in Hp. apply res_fmap_inv in Hp as (t & Ht & ->). apply token_chars in Ht.
    unfold bar_free. rewrite str_all_app. apply andb_true_iff. split; [|done]. revert Ht. apply str_all_impl.
    intros c Hc. apply negb_true_iff, bool_decide_eq_false. intros ->. discriminate. }
  unfold bar_free in Hpre. rewrite Hpre. simpl.
  unfold is_upload_id in Hid. apply andb_true_iff in Hid as [_ Hid%ids_bar_free].
  destruct (drop_last_cases "/" id) as [<-|E]; [done|]. rewrite E, str_all_app. unfold bar_free in Hid. by rewrite Hid.
Qed.

Lemma admissible_cases ad : admissible ad →
  (given (ad_run ad) = true ∧ given (ad_artifact ad) = false ∧ is_run_id (where_is ad) = true) ∨
  (given (ad_run ad) = false ∧ ∃ prefix id, mlflow_artifact_prefix (ad_company ad) = Ok prefix ∧
     ad_artifact ad = Some (where_is ad) ∧ where_is ad = (uploads_of bucket prefix +:+ id)%string ∧
     is_upload_id (drop_last "/" id) = true).
Proof.
  unfold admissible, check_address, where_is. destruct (given (ad_run ad)) eqn:Er; simpl.
  - destruct (given (ad_artifact ad)) eqn:Ea; [done|]. case_match; [|done]. intros _. by left.
  - destruct (admitted_artifact_refusal _ _ _) eqn:E; [done|]. intros _. right. split; [done|].
    destruct (ad_artifact ad) as [uri|]; [|done]. destruct (admitted_inv _ _ _ E) as (p & id & ? & ? & ?). by exists p, id.
Qed.

Lemma where_bar_free ad : admissible ad → bar_free (where_is ad) = true.
Proof.
  intros [(_ & _ & H)|(_ & p & id & Hp & _ & -> & Hid)]%admissible_cases; [by apply run_id_bar_free | by eapply upload_bar_free].
Qed.

(** Two admissible records of canonical tenants share a cache key only when
    they are one address of one tenant, loaded with one trust. *)
Lemma cache_key_inj a b : canonical (ad_company a) → canonical (ad_company b) → admissible a → admissible b →
  cache_key a = cache_key b →
  ad_company a = ad_company b ∧ default "None" (ad_provenance a) = default "None" (ad_provenance b) ∧
  given (ad_run a) = given (ad_run b) ∧ where_is a = where_is b.
Proof.
  intros Ha Hb Aa Ab. unfold cache_key. fold (where_is a) (where_is b). intros E.
  assert (Hc : ad_company a = ad_company b).
  { eapply (startswith_same_length _ _ (cache_key a)).
    - apply startswith_app.
    - unfold cache_key. fold (where_is a). rewrite E. apply startswith_app.
    - by rewrite (canonical_length _ _ Ha), (canonical_length _ _ Hb). }
  split; [done|]. rewrite Hc in E. apply str_app_inj_l in E.
  assert (E' : (default "None" (ad_provenance a) +:+ "|" +:+ where_is a =
                default "None" (ad_provenance b) +:+ "|" +:+ where_is b)%string) by (by injection E).
  apply last_bar in E' as [Hp Hw]; [|by apply where_bar_free..]. split; [done|]. split; [|done].
  destruct (admissible_cases a Aa) as [(-> & _ & Ra)|(-> & pa & ia & _ & _ & Wa & _)],
    (admissible_cases b Ab) as [(-> & _ & Rb)|(-> & pb & ib & _ & _ & Wb & _)]; try done.
  - apply run_id_slash_free in Ra. rewrite Hw, Wb in Ra. discriminate.
  - apply run_id_slash_free in Rb. rewrite <- Hw, Wa in Rb. discriminate.
Qed.
End keys.

(** ** What is opened *)

(** A file a process may open: inside its model, by the platform's own loader,
    with the trust the record's provenance grants and never the artifact's, of
    a manifest that ships no code; a booster's class is xgboost's own. *)
Definition safe_open (a : artifact) (provenance : option string) (c : loader_call) : Prop :=
  ∃ flavors py loader, manifest a = Some flavors ∧ ships_code flavors = false ∧
    jget "python_function" flavors = JDict py ∧ jget "loader_module" py = JStr loader ∧ loader ∈ PLATFORM_LOADERS ∧
    match c with
    | Skops path trusted fn => is_skops_sklearn flavors = Ok true ∧ trusted = trusted_types_for provenance ∧
        fn ∈ _PREDICT_FNS ∧ inside a path = true ∧ is_file a path = true
    | Booster class path => class ∈ _XGBOOST_MODEL_CLASSES ∧ inside a path = true ∧ is_file a path = true
    end.

Lemma named_in_ok v names b : named_in v names = Ok b → b = true → ∃ s, v = JStr s ∧ s ∈ names.
Proof. destruct v; simpl; try done; intros [= <-]; [done..|]. intros H. bool_hyps. eauto. Qed.

Lemma refuse_inv flavors : refuse_author_code flavors = Ok tt → ships_code flavors = false ∧
  ∃ py loader, jget "python_function" flavors = JDict py ∧ jget "loader_module" py = JStr loader ∧ loader ∈ PLATFORM_LOADERS ∧
    (loader = "mlflow.sklearn"%string → is_skops_sklearn flavors = Ok true).
Proof.
  unfold refuse_author_code. case_match; [done|]. destruct (ships_code flavors); [done|].
  intros (l & Hl & (known & Hk & HH)%res_bind_inv_ok)%res_bind_inv_ok. split; [done|].
  destruct known; [|done]. destruct (named_in_ok _ _ _ Hk eq_refl) as (loader & -> & Hin).
  unfold conf_get in Hl. destruct (jget "python_function" flavors) as [| | | | | |py]; try done. injection Hl as Hl.
  simpl in HH. revert HH. intros (sk & Hs & HH)%res_bind_inv_ok. exists py, loader. split_and!; [done..|].
  intros ->. simpl in Hs. destruct sk; [done|]. discriminate.
Qed.

Section opened.
Context (py_repr : json → string) (bucket : string) (build : artifact → loader_call → res model).

Lemma model_file_ok a rel path : model_file a rel = Ok path → inside a path = true ∧ is_file a path = true.
Proof. unfold model_file. case_match; [|done]. bool_hyps. by intros [= <-]. Qed.

Lemma xgboost_class_ok flavors c : xgboost_class flavors = Ok c → c ∈ _XGBOOST_MODEL_CLASSES.
Proof.
  unfold xgboost_class. destruct (jget "xgboost" flavors) as [| | | | | |conf]; try done.
  intros (ok & Hok & HH)%res_bind_inv_ok. destruct ok; [|done].
  destruct (named_in_ok _ _ _ Hok eq_refl) as (s & E & Hin). rewrite E in HH. by injection HH as <-.
Qed.

Lemma skops_call_safe a flavors provenance c : manifest a = Some flavors → refuse_author_code flavors = Ok tt →
  is_skops_sklearn flavors = Ok true → skops_call a provenance = Ok c → safe_open a provenance c.
Proof.
  intros Hm (Hcode & py & loader & Hpy & Hl & Hin & _)%refuse_inv Hs. unfold skops_call, flavors_of. rewrite Hm. simpl.
  rewrite Hpy. destruct py as [|kv py0]; [done|]. set (py := kv :: py0) in *. change (negb (truthy (JDict py))) with false. cbv iota. destruct (negb (is_text _ _)); [done|]. intros (known & Hk & HH)%res_bind_inv_ok.
  destruct known; [|done]. destruct (named_in_ok _ _ _ Hk eq_refl) as (fn & E & Hfn). rewrite E in HH. revert HH.
  intros (rel & _ & (path & [? ?]%model_file_ok & [= <-])%res_bind_inv_ok)%res_bind_inv_ok.
  exists flavors, py, loader. split_and!; done.
Qed.

Lemma xgboost_call_safe a flavors provenance c : manifest a = Some flavors → refuse_author_code flavors = Ok tt →
  xgboost_call py_repr a = Ok c → safe_open a provenance c.
Proof.
  intros Hm (Hcode & py & loader & Hpy & Hl & Hin & _)%refuse_inv. unfold xgboost_call, flavors_of. rewrite Hm. simpl.
  rewrite Hpy. simpl. destruct (negb (is_text _ _)); [done|]. destruct (negb (is_text _ _)); [done|].
  intros (class & Hc%xgboost_class_ok & (path & [? ?]%model_file_ok & [= <-])%res_bind_inv_ok)%res_bind_inv_ok.
  exists flavors, py, loader. split_and!; done.
Qed.

(** ** Steps that only add to the history *)

Definition ok_event (e : event) : Prop := match e with Opened a p c => safe_open a p c | _ => True end.
Definition extends (w w' : world) : Prop :=
  w_cache w' = w_cache w ∧ ∃ l, w_log w' = (w_log w ++ l)%list ∧ Forall ok_event l.

#[local] Instance extends_refl : Reflexive extends.
Proof. intros w. split; [done|]. exists []. by rewrite app_nil_r. Qed.
#[local] Instance extends_trans : Transitive extends.
Proof.
  intros w1 w2 w3 [E1 (l1 & H1 & F1)] [E2 (l2 & H2 & F2)]. split; [congruence|]. exists (l1 ++ l2)%list.
  rewrite H2, H1, app_assoc. split; [done|]. by apply Forall_app.
Qed.

Lemma remote_extends {A} (f : shared → res A * shared) : respects extends (remote f).
Proof.
  intros w. unfold remote, final. destruct (goes _); simpl; (split; [done|]); exists []; by rewrite app_nil_r.
Qed.
Lemma look_extends {A} (f : shared → res A) : respects extends (look f).
Proof. apply remote_extends. Qed.
Lemma logged_extends e : ok_event e → respects extends (modify (logged e)).
Proof. intros He w. split; [done|]. exists [e]. split; [done|]. by repeat constructor. Qed.

Ltac calls := respecting ltac:(first [apply look_extends | apply logged_extends; exact I]).

Lemma experiment_of_extends run : respects extends (experiment_of run).
Proof. unfold experiment_of. calls. Qed.
Lemma run_owned_extends run company : respects extends (_run_owned_by run company).
Proof. unfold _run_owned_by. respecting ltac:(apply experiment_of_extends). Qed.
Lemma resolve_extends run : respects extends (resolve_model_uri run).
Proof. unfold resolve_model_uri. calls. Qed.

Lemma download_extends uri : respects extends (download_artifacts uri).
Proof. unfold download_artifacts. calls. Qed.

Lemma open_safely a provenance (r : res loader_call) w : (∀ c, r = Ok c → safe_open a provenance c) →
  extends w (final (c ← lift r; open build a provenance c) w).
Proof.
  intros H. unfold lift, open, final, mbind, M_bind. destruct r as [c|]; simpl; [|done].
  split; [done|]. exists [Opened a provenance c]. split; [done|]. repeat constructor. by apply H.
Qed.

Lemma load_pyfunc_extends uri provenance : respects extends (load_pyfunc py_repr build uri provenance).
Proof.
  unfold load_pyfunc. apply respects_bind; [apply _ | apply download_extends|]. intros a w.
  unfold lift, final. destruct (flavors_of a) as [flavors|] eqn:Ef; [|done]. unfold mbind at 1, M_bind at 1.
  destruct (refuse_author_code flavors) as [[]|] eqn:Er; [|done]. unfold mbind at 1, M_bind at 1.
  destruct (_refuse_paths_outside py_repr a flavors); [|done]. unfold mbind at 1, M_bind at 1.
  destruct (is_skops_sklearn flavors) as [sk|] eqn:Es; [|done]. unfold mbind at 1, M_bind at 1.
  assert (Hm : manifest a = Some flavors). { unfold flavors_of in Ef. destruct (manifest a); [|done]. by injection Ef as ->. }
  destruct sk; apply open_safely; intros c Hc; [by eapply skops_call_safe | by eapply xgboost_call_safe].
Qed.

(** ** The warm models *)

(** What shows that a record's model is its tenant's: an admissible address,
    and for a run the experiment the tracking store named, in the tenant's
    namespace. *)
Definition shown (ad : address) (log : list event) : Prop :=
  admissible bucket ad ∧ (given (ad_run ad) = true → ∃ name prefix,
    Experiment (where_is ad) name ∈ log ∧ mlflow_name_prefix (ad_company ad) = Ok prefix ∧ is_Some (owned_name prefix name)).

(** Where a record's bytes are: the model the tracking store listed for its run
    (or the run's own directory), or the upload. *)
Definition located (run artifact : option string) (uri : string) (log : list event) : Prop :=
  if given run
  then uri = ("runs:/" +:+ default "" run +:+ "/model")%string ∨
       ∃ pages id, LoggedModels (default "" run)%string pages ∈ log ∧ (id, run) ∈ concat pages ∧ uri = ("models:/" +:+ id)%string
  else uri = default ""%string artifact.

(** The model of a record: what was built from the artifact fetched from the
    record's address, opened as the rules allow with the record's trust. *)
Definition served_from (ad : address) (m : model) (log : list event) : Prop :=
  ∃ uri a c, located (ad_run ad) (ad_artifact ad) uri log ∧ Fetched uri a ∈ log ∧
    Opened a (ad_provenance ad) c ∈ log ∧ safe_open a (ad_provenance ad) c ∧ build a c = Ok m.

Context (max_entries : nat).

Record loads_inv (w : world) : Prop := {
  li_opened : ∀ a p c, Opened a p c ∈ w_log w → safe_open a p c;
  li_cache : ∀ k m, (k, m) ∈ w_cache w → ∃ ad, k = cache_key ad ∧ canonical (ad_company ad) ∧ is_Some (ad_provenance ad) ∧
    shown ad (w_log w) ∧ served_from ad m (w_log w);
  li_bounded : length (w_cache w) ≤ max_entries
}.

Lemma located_mono run artifact uri l l' : located run artifact uri l → located run artifact uri (l ++ l').
Proof.
  unfold located. destruct (given run); [|done]. intros [?|(pages & id & Hin & ?)]; [by left|right].
  exists pages, id. split; [|done]. apply elem_of_app. by left.
Qed.

Lemma served_mono ad m l l' : served_from ad m l → served_from ad m (l ++ l').
Proof.
  intros (uri & a & c & ? & ? & ? & ? & ?). exists uri, a, c. split; [by apply located_mono|].
  split_and!; try done; apply elem_of_app; by left.
Qed.

Lemma shown_mono ad l l' : shown ad l → shown ad (l ++ l').
Proof.
  intros [Ha Hs]. split; [done|]. intros (name & prefix & Hin & ?)%Hs. exists name, prefix. split; [|done].
  apply elem_of_app. by left.
Qed.

Lemma extends_inv w w' : extends w w' → loads_inv w → loads_inv w'.
Proof.
  intros [Hc (l & Hl & Hf)] [Io Ic Ib]. rewrite Forall_forall in Hf. split.
  - intros a p c. rewrite Hl. intros [H|H]%elem_of_app; [by apply Io | by apply (Hf _ H)].
  - intros k m. rewrite Hc. intros (ad & ? & ? & ? & ? & ?)%Ic. exists ad. rewrite Hl.
    split_and!; try done; [by apply shown_mono | by apply served_mono].
  - by rewrite Hc.
Qed.

Lemma extends_log w w' e : extends w w' → e ∈ w_log w → e ∈ w_log w'.
Proof. intros [_ (l & -> & _)] H. apply elem_of_app. by left. Qed.

Lemma experiment_logged run w name w' : experiment_of run w = (Ok name, w') → Experiment run name ∈ w_log w'.
Proof.
  unfold experiment_of. intros (x & w1 & _ & (n & w2 & _ & (u & w3 & E & E')%bind_inv_ok)%bind_inv_ok)%bind_inv_ok.
  injection E as _ <-. injection E' as -> <-. simpl. apply elem_of_app. right. by left.
Qed.

Lemma run_owned_logged run company w w' : _run_owned_by run company w = (Ok true, w') →
  ∃ name prefix, Experiment run name ∈ w_log w' ∧ mlflow_name_prefix company = Ok prefix ∧ is_Some (owned_name prefix name).
Proof.
  unfold _run_owned_by. intros (name & w1 & E & (prefix & w2 & [Hp ->]%lift_inv & E2)%bind_inv_ok)%bind_inv_ok.
  injection E2 as Hs <-. bool_hyps. exists name, prefix. split; [|done]. unfold catch in E.
  destruct (experiment_of run w) as [[n|e] w3] eqn:Ex.
  - injection E as <- <-. by eapply experiment_logged.
  - destruct (bool_decide (e = SystemExit)); discriminate.
Qed.

Lemma check_admissible_spec ad w r w' :
  check_admissible bucket (ad_company ad) (ad_run ad) (ad_artifact ad) w = (r, w') →
  extends w w' ∧ (r = Ok tt → shown ad (w_log w')).
Proof.
  intros E. split.
  - replace w' with (final (check_admissible bucket (ad_company ad) (ad_run ad) (ad_artifact ad)) w) by (unfold final; by rewrite E).
    unfold check_admissible. respecting ltac:(apply run_owned_extends).
  - intros ->. unfold check_admissible in E. apply bind_inv_ok in E as ([] & w1 & [Ha ->]%lift_inv & E).
    split; [exact Ha|]. intros Hr. rewrite Hr in E. apply bind_inv_ok in E as (owned & w2 & Eo & E). destruct owned; [|done].
    injection E as <-. apply run_owned_logged in Eo. unfold where_is. by rewrite Hr.
Qed.

(** *** One load *)

Lemma logged_last w w' e u : modify (logged e) w = (Ok u, w') → e ∈ w_log w'.
Proof. intros [= _ <-]. simpl. apply elem_of_app. right. by left. Qed.

Lemma resolve_located run artifact w uri w' : given run = true → resolve_model_uri (default "" run)%string w = (Ok uri, w') →
  located run artifact uri (w_log w').
Proof.
  intros Hg. unfold resolve_model_uri, located. rewrite Hg. destruct (negb (is_run_id _)); [done|]. unfold catch.
  match goal with |- context [match ?m w with _ => _ end] => destruct (m w) as [[u|e] w1] eqn:E end.
  - intros [= <- <-]. apply bind_inv_ok in E as (x & w2 & _ & (pages & w3 & _ & E)%bind_inv_ok).
    apply bind_inv_ok in E as ([] & w4 & Hl%logged_last & [= Hu <-]).
    destruct (List.find _ _) as [[id s]|] eqn:Ef; [right | by left]. apply List.find_some in Ef as [Hin Hs]. bool_hyps.
    simpl in Hs. subst s. exists pages, id. split_and!; [done| |done]. destruct run as [run|]; [|done]. by apply list_elem_of_In.
  - case_match; [done|]. intros [= <- _]. by left.
Qed.

Lemma uri_for_located run artifact w uri w' : model_uri_for run artifact w = (Ok uri, w') → located run artifact uri (w_log w').
Proof.
  unfold model_uri_for. destruct (given run) eqn:Hg; [by apply resolve_located|].
  case_match; [|done]. intros [= <- _]. unfold located. by rewrite Hg.
Qed.

Lemma open_inv a provenance (r : res loader_call) w m w' : (c ← lift r; open build a provenance c) w = (Ok m, w') →
  ∃ c, r = Ok c ∧ Opened a provenance c ∈ w_log w' ∧ build a c = Ok m ∧ w_log w' = (w_log w ++ [Opened a provenance c])%list.
Proof.
  intros (c & w1 & [Hc ->]%lift_inv & H)%bind_inv_ok. unfold open in H.
  apply bind_inv_ok in H as ([] & w2 & Hl & [Hb ->]%lift_inv). exists c. split; [done|].
  split; [by eapply logged_last|]. split; [done|]. by injection Hl as <-.
Qed.

Lemma load_pyfunc_spec uri provenance w m w' : load_pyfunc py_repr build uri provenance w = (Ok m, w') →
  ∃ a c, Fetched uri a ∈ w_log w' ∧ Opened a provenance c ∈ w_log w' ∧ build a c = Ok m.
Proof.
  unfold load_pyfunc. intros (a & w1 & E1 & H)%bind_inv_ok. unfold download_artifacts in E1.
  apply bind_inv_ok in E1 as (a' & w0 & _ & E1). apply bind_inv_ok in E1 as ([] & w2 & Hf%logged_last & [= -> ->]).
  apply bind_inv_ok in H as (flavors & w3 & [_ ->]%lift_inv & H). apply bind_inv_ok in H as ([] & w3 & [_ ->]%lift_inv & H).
  apply bind_inv_ok in H as ([] & w3 & [_ ->]%lift_inv & H). apply bind_inv_ok in H as (sk & w3 & [_ ->]%lift_inv & H).
  destruct sk; apply open_inv in H as (c & _ & Ho & Hb & Hl); exists a, c; (split; [|done]); rewrite Hl; apply elem_of_app; by left.
Qed.

Lemma load_extends ad : respects extends (load py_repr bucket build ad).
Proof.
  unfold load. apply respects_bind; [apply _ | | intros _; apply respects_bind; [apply _ | |]].
  - unfold check_admissible. respecting ltac:(apply run_owned_extends).
  - unfold model_uri_for. respecting ltac:(apply resolve_extends).
  - intros uri. apply load_pyfunc_extends.
Qed.

Lemma load_spec ad w r w' : loads_inv w → load py_repr bucket build ad w = (r, w') →
  loads_inv w' ∧ ∀ m, r = Ok m → shown ad (w_log w') ∧ served_from ad m (w_log w').
Proof.
  intros I E. assert (X : extends w w') by (pose proof (load_extends ad w) as X; unfold final in X; by rewrite E in X).
  pose proof (extends_inv _ _ X I) as I'. split; [done|]. intros m ->. unfold load in E.
  apply bind_inv_ok in E as ([] & w1 & E1 & (uri & w2 & E2 & E3)%bind_inv_ok).
  destruct (check_admissible_spec _ _ _ _ E1) as [_ S1].
  assert (X2 : extends w1 w2).
  { assert (respects extends (model_uri_for (ad_run ad) (ad_artifact ad))) as H
      by (unfold model_uri_for; respecting ltac:(apply resolve_extends)).
    specialize (H w1). unfold final in H. by rewrite E2 in H. }
  assert (X3 : extends w2 w') by (pose proof (load_pyfunc_extends uri (ad_provenance ad) w2) as H; unfold final in H; by rewrite E3 in H).
  destruct (transitivity X2 X3) as [_ (l & Hl & _)]. destruct X3 as [_ (l3 & Hl3 & _)]. split.
  - rewrite Hl. by apply shown_mono, S1.
  - apply load_pyfunc_spec in E3 as (a & c & Hf & Ho & Hb). exists uri, a, c. split_and!; try done; [|by apply I'].
    rewrite Hl3. apply located_mono. by eapply uri_for_located.
Qed.

Lemma cached_elem k c m : cached k c = Some m → (k, m) ∈ c.
Proof.
  induction c as [|[k' m'] c IH]; simpl; [done|]. destruct (bool_decide (k = k')) eqn:Hk; bool_hyps; [intros [= ->]; subst; left|].
  intros H. right. by apply IH.
Qed.

Lemma without_elem k c kv : kv ∈ without k c → kv ∈ c.
Proof. unfold without. rewrite !list_elem_of_In, filter_In. by intros [? _]. Qed.

Lemma without_shorter k c m : (k, m) ∈ c → length (without k c) < length c.
Proof.
  unfold without. induction c as [|[k' m'] c IH]; [by intros ?%not_elem_of_nil|].
  intros [[= <- <-]|H]%elem_of_cons; simpl.
  - rewrite bool_decide_true by done. simpl. pose proof (filter_length_le (λ kv : string * model, negb (bool_decide (kv.1 = k))) c). lia.
  - apply IH in H. destruct (negb _); simpl; lia.
Qed.

Lemma cache_update k m ad c w : loads_inv w → k = cache_key ad → canonical (ad_company ad) → is_Some (ad_provenance ad) →
  shown ad (w_log w) → served_from ad m (w_log w) →
  (∀ kv, kv ∈ c → kv ∈ w_cache w ∨ kv = (k, m)) → length c ≤ max_entries → loads_inv (with_warm c w).
Proof.
  intros [Io Ic Ib] Hk Hcan Hp Hs Hm Hc Hl. split; simpl; [done| |done].
  intros k' m' [H|[= -> ->]]%Hc; [by apply Ic | by exists ad].
Qed.

(** Addresses with one cache key have their bytes in one place. *)
Lemma served_same a b m log : admissible bucket a → admissible bucket b → given (ad_run a) = given (ad_run b) →
  where_is a = where_is b → ad_provenance a = ad_provenance b → served_from a m log → served_from b m log.
Proof.
  intros Ha Hb Hg Hw Hp (uri & x & c & Hl & H). rewrite Hp in H. exists uri, x, c. split; [|done].
  unfold located in *. rewrite <- Hg. destruct (given (ad_run a)) eqn:Ea.
  - assert (ad_run a = ad_run b) as <-; [|done]. unfold where_is in Hw. rewrite <- Hg, Ea in Hw.
    destruct (ad_run a), (ad_run b); by simplify_eq/=.
  - destruct (admissible_cases _ _ Ha) as [(? & _)|(_ & ? & ? & _ & Wa & _)]; [congruence|].
    destruct (admissible_cases _ _ Hb) as [(? & _)|(_ & ? & ? & _ & Wb & _)]; [congruence|].
    rewrite Wa in Hl. rewrite Wb. simpl in *. congruence.
Qed.

Lemma shown_same a b log : admissible bucket b → ad_company a = ad_company b → given (ad_run a) = given (ad_run b) →
  where_is a = where_is b → shown a log → shown b log.
Proof. intros Hb Hc Hg Hw [_ Hs]. split; [done|]. rewrite <- Hg, <- Hw, <- Hc. exact Hs. Qed.

(** A record's model, loaded or warm. *)
Lemma load_for_spec (company : string) (row : model_row) w r w' :
  bar_free bucket = true → canonical company → loads_inv w →
  load_model_for py_repr bucket build max_entries company row w = (r, w') →
  loads_inv w' ∧ ∀ m, r = Ok m → shown (address_of company row) (w_log w') ∧ served_from (address_of company row) m (w_log w').
Proof.
  intros Hb Hcan I. unfold load_model_for. set (ad := address_of company row).
  change company with (ad_company ad) at 1. destruct (check_address bucket _ _ _) as [[]|e] eqn:Ea.
  2: { intros [= <- <-]. done. }
  assert (Aad : admissible bucket ad) by exact Ea.
  unfold lift, mbind at 1, M_bind at 1. unfold get_or_load, getS. unfold mbind at 1, M_bind at 1.
  destruct (cached (cache_key ad) (w_cache w)) as [m|] eqn:Ec.
  - intros [= <- <-]. apply cached_elem in Ec. destruct (li_cache w I _ _ Ec) as (ad' & Hk & Hcan' & [p' Hp'] & Hs' & Hv').
    destruct (cache_key_inj bucket Hb ad ad') as (E1 & E2 & E3 & E4); try done; [apply Hs'|].
    assert (Hp : ad_provenance ad' = ad_provenance ad) by (rewrite Hp' in *; simpl in *; by rewrite <- E2).
    assert (Hs : shown ad (w_log w)) by (by apply (shown_same ad')).
    assert (Hv : served_from ad m (w_log w)) by (apply (served_same ad'); [apply Hs'|done..]). split.
    + apply (cache_update (cache_key ad) m ad); try done.
      * unfold put_last. intros kv [H%without_elem|H%list_elem_of_singleton]%elem_of_app; [by left | by right].
      * unfold put_last. rewrite length_app. simpl. pose proof (without_shorter _ _ _ Ec). pose proof (li_bounded w I). lia.
    + intros m' [= <-]. by split.
  - unfold mbind, M_bind. destruct (load py_repr bucket build ad w) as [[m|e] w1] eqn:El;
      destruct (load_spec _ _ _ _ I El) as [I1 L1]; intros [= <- <-]; [|done].
    destruct (L1 m eq_refl) as [Hs Hv]. split; [|by intros m' [= <-]].
    apply (cache_update (cache_key ad) m ad); try done.
    + intros kv H. assert (H' : kv ∈ put_last (cache_key ad) m (w_cache w1)).
      { rewrite <- (take_drop (length (put_last (cache_key ad) m (w_cache w1)) - max_entries)). apply elem_of_app. by right. }
      revert H'. unfold put_last. intros [H'%without_elem|H'%list_elem_of_singleton]%elem_of_app; [by left | by right].
    + rewrite length_drop. lia.
Qed.

(** C8: The model a record is served with, warm or loaded, was built from the
    artifact fetched from the record's own address, opened by a rule-abiding
    loader under the trust of the record's provenance, after the tracking store
    named an experiment of the tenant's for its run and listed the model under
    it; and every file ever opened was one the rules allow. *)
Theorem served_model_is_the_tenants (company : string) (row : model_row) w r w' :
  bar_free bucket = true → canonical company → loads_inv w →
  load_model_for py_repr bucket build max_entries company row w = (r, w') →
  loads_inv w' ∧ ∀ m, r = Ok m → shown (address_of company row) (w_log w') ∧
    ∃ uri a c, located (m_run row) (m_artifact_uri row) uri (w_log w') ∧ Fetched uri a ∈ w_log w' ∧
      Opened a (Some (record_provenance row)) c ∈ w_log w' ∧ safe_open a (Some (record_provenance row)) c ∧ build a c = Ok m.
Proof. apply load_for_spec. Qed.
End opened.
