(* ===== verification/MlCompat.v ===== *)
(** * Whether this environment can serve a model

    services/ml_service/api/model_compat.py: what an artifact declares, compared
    with what is installed.  [installed] is the environment's own packages. *)

From stdpp Require Import base strings list gmap sets sorting.
From Stdlib Require Import ZArith Lia Ascii.
From S2P Require Import Prelude PyText PyNum PyJson Tenancy MlExtensions MlDetectors MlWorld MlTrust MlLoading.

Local Open Scope string_scope.

Definition verdict_text (v : verdict) : string :=
  match v with COMPATIBLE => "compatible" | PATCH_DRIFT => "patch_drift" | INCOMPATIBLE => "incompatible" end.

(** ** Versions *)

(** [[int(p) for p in re.findall(r"\d+", v)]]: [run] is the number being read. *)
Fixpoint components_from (run : option Z) (v : string) : list Z :=
  match v with
  | EmptyString => match run with Some n => [n] | None => [] end
  | String c r =>
      match dec_value c with
      | Some d => components_from (Some (default 0 run * 10 + d)%Z) r
      | None => match run with Some n => n :: components_from None r | None => components_from None r end
      end
  end.
Definition _components (v : string) : list Z := components_from None v.

(** [p < d] on lists of ints *)
Fixpoint lex_lt (p d : list Z) : bool :=
  match p, d with
  | _, [] => false
  | [], _ :: _ => true
  | x :: p', y :: d' => (x <? y)%Z || (x =? y)%Z && lex_lt p' d'
  end.

Inductive fault := NotInstalled | MajorDiffers | MajorMinorDiffers | Backwards.
#[export] Instance fault_eq_dec : EqDecision fault.
Proof. solve_decision. Defined.

Definition _same_components (n : nat) (declared present : string) : option fault :=
  if bool_decide (take n (_components declared) = take n (_components present)) then None
  else Some (if (n =? 1)%nat then MajorDiffers else MajorMinorDiffers).
Definition _serving_at_least (declared present : string) : option fault :=
  let d := _components declared in
  let p := _components present in
  if negb (bool_decide (take 1 d = take 1 p)) then Some MajorDiffers
  else if lex_lt p d then Some Backwards else None.

Definition SERIALIZATION_CRITICAL (package : string) : option (string → string → option fault) :=
  if bool_decide (package = "numpy") then Some (_same_components 1)
  else if bool_decide (package = "scikit-learn") then Some (_same_components 2)
  else if bool_decide (package = "skops") then Some _serving_at_least
  else if bool_decide (package = "xgboost") then Some _serving_at_least
  else None.
Definition FLAVOR_LIBRARY (flavor : string) : option string :=
  if bool_decide (flavor = "mlflow.sklearn") then Some "scikit-learn"
  else if bool_decide (flavor = "mlflow.xgboost") then Some "xgboost"
  else if bool_decide (flavor = "mlflow.pytorch") then Some "torch"
  else if bool_decide (flavor = "mlflow.keras") then Some "keras"
  else if bool_decide (flavor = "mlflow.tensorflow") then Some "tensorflow"
  else if bool_decide (flavor = "mlflow.lightgbm") then Some "lightgbm"
  else None.

(** ** Requirements *)

Fixpoint span (p : ascii → bool) (s : string) : string * string :=
  match s with
  | EmptyString => (EmptyString, EmptyString)
  | String c r => if p c then let '(a, b) := span p r in (String c a, b) else (EmptyString, s)
  end.
Definition is_alnum (c : ascii) : bool :=
  let n := nat_of_ascii c in ((48 <=? n) && (n <=? 57) || (65 <=? n) && (n <=? 90) || (97 <=? n) && (n <=? 122))%nat.
Definition name_char (c : ascii) : bool := is_alnum c || bool_decide (c = "_"%char) || bool_decide (c = "."%char) || bool_decide (c = "-"%char).
Definition version_char (c : ascii) : bool := is_alnum c || bool_decide (c = "."%char) || bool_decide (c = "-"%char).

(** [_PIN.match(line)]: a name, [==] and a version that starts with a digit. *)
Definition pin (line : string) : option (string * string) :=
  let '(name, r) := span name_char line in
  if bool_decide (name = "") then None else
  r ← strip_prefix "==" (lstrip is_space r);
  let '(v, _) := span version_char (lstrip is_space r) in
  match v with
  | String c _ => if bool_decide (is_Some (dec_value c)) then Some (str_lower name, v) else None
  | EmptyString => None
  end.

Fixpoint put_pin (k v : string) (l : list (string * string)) : list (string * string) :=
  match l with
  | [] => [(k, v)]
  | (k', v') :: r => if bool_decide (k = k') then (k, v) :: r else (k', v') :: put_pin k v r
  end.
Definition pins (lines : list string) : list (string * string) :=
  fold_left (λ acc line, match pin (strip is_space (default "" (head (str_split "#" line)))) with
                         | Some (k, v) => put_pin k v acc
                         | None => acc
                         end) lines [].

(** ** The comparison *)

Record Compatibility := {
  status : verdict;
  faults : list (string * fault);
  declared : list (string * string);
  flavor : json;
  flavor_supported : bool
}.
Definition servable (c : Compatibility) : bool := negb (bool_decide (status c = INCOMPATIBLE)).

Section compat.
Context (installed : string → option string) (reg : list (string * detector)).

Definition _supported_flavor (f : string) : bool :=
  bool_decide (is_Some (FLAVOR_LIBRARY f)) || existsb (λ nd : string * detector, bool_decide (f ∈ d_flavors nd.2)) reg.

Definition _read_declarations (model_uri : string) : M world (json * list (string * string)) :=
  '(f, lines) ← catch (flavors ← look (λ sh, a ← or_raise OtherError (artifacts sh !! model_uri); flavors_of a);
                       f ← lift (conf_get (conf_default flavors "python_function" (JDict [])) "loader_module");
                       lines ← look (λ sh, a ← or_raise OtherError (artifacts sh !! model_uri); or_raise OtherError (a_requirements a));
                       mret (f, lines))
                      (λ e, if bool_decide (e = SystemExit) then raise e else raise ArtifactUnreadable);
  mret (f, pins lines).

(** The framework a flavor needs, and whether it is a flavor served here:
    an unhashable one is no key. *)
Definition flavor_library (f : json) : res (option string) :=
  match f with
  | JStr s => Ok (FLAVOR_LIBRARY s)
  | JList (_ :: _) | JDict (_ :: _) => Err TypeError
  | _ => Ok None
  end.
Definition flavor_served (f : json) (library : option string) : bool :=
  negb (truthy f) ||
  match library with Some l => bool_decide (is_Some (installed l)) | None => true end &&
  match f with JStr s => _supported_flavor s | _ => false end.

(** One declared package, in the order of their names. *)
Definition needed (library : option string) (package : string) : bool :=
  bool_decide (library = Some package) || bool_decide (is_Some (SERIALIZATION_CRITICAL package)).
Definition judge (library : option string) (acc : verdict * list (string * fault)) (kv : string * string) :
    verdict * list (string * fault) :=
  let '(package, version) := kv in
  match installed package with
  | None => if needed library package then (INCOMPATIBLE, acc.2 ++ [(package, NotInstalled)])%list else acc
  | Some present =>
      match SERIALIZATION_CRITICAL package with
      | None => acc
      | Some rule =>
          match rule version present with
          | Some f => (INCOMPATIBLE, acc.2 ++ [(package, f)])%list
          | None => if negb (bool_decide (present = version)) && bool_decide (acc.1 = COMPATIBLE) then (PATCH_DRIFT, acc.2) else acc
          end
      end
  end.

Definition pin_le (a b : string * string) : Prop := String.le a.1 b.1.
#[local] Instance pin_le_dec a b : Decision (pin_le a b).
Proof. unfold pin_le. apply _. Defined.

Definition compare_declared (f : json) (l : list (string * string)) : res Compatibility :=
  library ← flavor_library f;
  let ok := flavor_served f library in
  let '(v, fs) := fold_left (judge library) (merge_sort pin_le l) (if ok then COMPATIBLE else INCOMPATIBLE, []) in
  Ok {| status := v; faults := fs; declared := l; flavor := f; flavor_supported := ok |}.

Definition evaluate (model_uri : string) : M world Compatibility :=
  '(f, l) ← _read_declarations model_uri;
  c ← lift (compare_declared f l);
  _ ← modify (logged (Compared model_uri f (status c)));
  mret c.

Definition evaluate_run (mlflow_run_id : string) : M world Compatibility :=
  uri ← resolve_model_uri mlflow_run_id; evaluate uri.
Definition evaluate_uri (model_uri : string) : M world Compatibility := evaluate model_uri.

(** ** Exactly when an artifact is servable *)

(** A declared package the environment does not stand in the way of. *)
Definition package_ok (library : option string) (kv : string * string) : bool :=
  match installed kv.1 with
  | None => negb (needed library kv.1)
  | Some present => match SERIALIZATION_CRITICAL kv.1 with Some rule => bool_decide (rule kv.2 present = None) | None => true end
  end.
(** Within the contract, and not the version declared. *)
Definition package_drifts (kv : string * string) : bool :=
  match installed kv.1, SERIALIZATION_CRITICAL kv.1 with
  | Some present, Some _ => negb (bool_decide (present = kv.2))
  | _, _ => false
  end.

Lemma judge_all library l : ∀ v fs, (fold_left (judge library) l (v, fs)).1 =
  if bool_decide (v = INCOMPATIBLE) || negb (forallb (package_ok library) l) then INCOMPATIBLE
  else if bool_decide (v = PATCH_DRIFT) || existsb package_drifts l then PATCH_DRIFT else COMPATIBLE.
Proof.
  induction l as [|[p d] l IH]; intros v fs; simpl; [by destruct v|].
  unfold package_ok at 1, package_drifts at 1. simpl.
  destruct (installed p) as [present|]; [|destruct (needed library p); simpl; rewrite IH; by destruct v].
  destruct (SERIALIZATION_CRITICAL p) as [rule|]; [|rewrite IH; by destruct v].
  destruct (rule d present) as [f|] eqn:Er; simpl.
  - rewrite IH. simpl. by destruct v.
  - destruct (bool_decide (present = d)); simpl; [rewrite IH; by destruct v|].
    destruct v; simpl; rewrite IH; simpl; done.
Qed.

(** C10: A verdict is [INCOMPATIBLE] exactly when the flavor is not served here or a
    declared package stands in the way, and of what can be served it is
    [PATCH_DRIFT] exactly when a package that wrote the artifact's bytes is not
    the version declared. *)
Theorem compare_exact f l c : compare_declared f l = Ok c →
  (servable c = true ↔ ∃ library, flavor_library f = Ok library ∧ flavor_served f library = true ∧
     ∀ kv, kv ∈ l → package_ok library kv = true) ∧
  (status c = PATCH_DRIFT ↔ servable c = true ∧ ∃ kv, kv ∈ l ∧ package_drifts kv = true).
Proof.
  unfold compare_declared. intros (library & Hl & HH)%res_bind_inv_ok.
  destruct (fold_left _ _ _) as [v fs] eqn:E. injection HH as <-. unfold servable. simpl.
  assert (Hv : v = (fold_left (judge library) (merge_sort pin_le l) (if flavor_served f library then COMPATIBLE else INCOMPATIBLE, [])).1)
    by (by rewrite E).
  rewrite judge_all in Hv. clear E.
  assert (Hok : forallb (package_ok library) (merge_sort pin_le l) = true ↔ ∀ kv, kv ∈ l → package_ok library kv = true).
  { rewrite forallb_elem. by setoid_rewrite merge_sort_Permutation. }
  assert (Hdr : existsb package_drifts (merge_sort pin_le l) = true ↔ ∃ kv, kv ∈ l ∧ package_drifts kv = true).
  { rewrite existsb_elem. by setoid_rewrite merge_sort_Permutation. }
  assert (Hs : (∃ library', flavor_library f = Ok library' ∧ flavor_served f library' = true ∧
      ∀ kv, kv ∈ l → package_ok library' kv = true) ↔
    flavor_served f library && forallb (package_ok library) (merge_sort pin_le l) = true).
  { rewrite andb_true_iff, Hok, Hl. split; [by intros (? & [= <-] & ?) | intros [? ?]; by exists library]. }
  rewrite Hs, <- Hdr. clear Hs Hok Hdr Hl. revert Hv.
  destruct (flavor_served f library), (forallb _ _), (existsb _ _); simpl; intros ->; simpl; intuition discriminate.
Qed.
End compat.
