(* ===== verification/MlProfile.v ===== *)
(** * The drift baseline

    services/ml_service/api/drift/reference_profile.py: the feature sample a model
    is monitored against, and the scores the deployment gate derives from it.  A
    reason's text is kept without the values it quotes.  NumPy's [linspace],
    truncated, is a parameter: [even n m] are [m] of [n] row numbers. *)

From stdpp Require Import base strings list sets sorting.
From Stdlib Require Import ZArith Lia.
From Corelib Require Import SpecFloat.
From S2P Require Import Prelude PyText PyNum PyJson SqlBinding MlExtensions MlFeatures MlDetectors.

Local Open Scope string_scope.

Definition REFERENCE_PROFILE_VERSION : Z := 2.
Definition DEFAULT_MAX_SAMPLE_ROWS : nat := 5000.
Definition DEFAULT_PREDICTION_COLUMN : string := "prediction_score".

(** ** Scores *)

(** What is no score of the declared scale; [math.isfinite] of an int no float can hold raises. *)
Definition score_of (v : json) : res (option float) :=
  match v with
  | JInt z => f ← float_of_Z z; Ok (if on_scale f then Some f else None)
  | JFloat f => Ok (if on_scale f then Some f else None)
  | _ => Ok None
  end.
Fixpoint _score_refusal_from (values : list json) : res (option string) :=
  match values with
  | [] => Ok None
  | v :: r => s ← score_of v; match s with Some _ => _score_refusal_from r | None => Ok (Some "it holds what is not a score of the declared scale") end
  end.
Definition _score_refusal (values : list json) : res (option string) :=
  match values with [] => Ok (Some "it holds no scores") | _ => _score_refusal_from values end.

(** [d.get(k)] where [d] should be an object. *)
Definition object_of (v : json) : option dict := match v with JDict d => Some d | _ => None end.

Definition prediction_column_refusal (profile : dict) : res (option string) :=
  let pred := jget "prediction_column" profile in
  if negb (truthy pred) then Ok None else
  values ← (match object_of (jget "sample" profile) with
            | Some sample => reading_get sample pred
            | None => Ok JNull
            end : res json);
  match values with
  | JList l =>
      r ← _score_refusal l;
      Ok (match r with Some _ => Some "the prediction column is not a baseline" | None => None end)
  | _ => Ok (Some "the profile names a prediction column but carries no values for it")
  end.

Definition supplied_scores_refusal (profile : dict) : option string :=
  if truthy (jget "prediction_column" profile) || truthy (jget "prediction_baseline" profile)
  then Some "the sample carries prediction scores; the platform derives them" else None.

(** ** Samples *)

Section samples.
Context (py_repr : json → string).

Definition is_version (v : json) : bool :=
  match v with JInt z => Z.eqb z REFERENCE_PROFILE_VERSION | JFloat f => feq f (float_of_dec false 2 0) | _ => false end.

(** A column's values: each null or a finite number. *)
Fixpoint values_ok (l : list json) : res bool :=
  match l with
  | [] => Ok true
  | JNull :: r => values_ok r
  | v :: r => ok ← _finite v; if ok : bool then values_ok r else Ok false
  end.
Fixpoint columns_refusal (sample : dict) (columns : list string) (lengths : list nat) : res (option string) :=
  match columns with
  | [] => Ok (match remove_dups lengths with [_] => None | _ => Some "the sample's columns differ in length" end)
  | name :: r =>
      match jget name sample with
      | JList (v :: l) =>
          ok ← values_ok (v :: l);
          if ok : bool then columns_refusal sample r (length (v :: l) :: lengths)
          else Ok (Some "the sample's column holds what is not a number")
      | _ => Ok (Some "the sample holds no values for a column")
      end
  end.

Definition sorted_names (l : list string) : list string := merge_sort String.le l.
Definition sample_refusal (profile : json) (base_sensors : list string) : res (option string) :=
  match profile with
  | JDict p =>
      if negb (is_version (jget "schema_version" p)) then Ok (Some "the sample's schema_version is not the current one") else
      match jget "columns" p, jget "sample" p with
      | JList columns, JDict sample =>
          if bool_decide (base_sensors = []) then Ok (Some "the model is bound to no feature configuration with base sensors") else
          if negb (bool_decide (sorted_names (map (SqlBinding.py_str py_repr) columns) = sorted_names base_sensors))
          then Ok (Some "the sample's columns are not the feature configuration's inputs") else
          if negb (forallb hashable columns) then Err TypeError else
          match texts columns with
          | None => Ok (Some "the sample holds no values for a column")
          | Some names =>
              if negb (bool_decide (NoDup names)) then Ok (Some "the sample's columns are not the feature configuration's inputs")
              else columns_refusal sample names []
          end
      | _, _ => Ok (Some "the sample has no columns and values")
      end
  | _ => Ok (Some "the sample is not an object")
  end.

Context (even : nat → nat → list nat).
Definition _sample_indices (n_rows max_rows : nat) : list nat :=
  if (n_rows <=? max_rows)%nat then seq 0 n_rows else even n_rows max_rows.

Definition column (sample : dict) (name : string) : res (list json) :=
  match jget name sample with JList l => Ok l | _ => Err KeyError end.
Definition pick (l : list json) (idx : list nat) : res (list json) := mapM (λ i, or_raise OtherError (l !! i)) idx.

(** The stored sample's names and their values. *)
Definition sample_of (profile : dict) : res (list string * dict) :=
  columns ← (match jget "columns" profile with JList l => or_raise TypeError (texts l) | _ => Err TypeError end : res _);
  sample ← (match jget "sample" profile with JDict d => Ok d | _ => Err TypeError end : res _);
  Ok (columns, sample).

Definition accepted_sample (profile : dict) : res dict :=
  '(columns, sample) ← sample_of profile;
  first ← or_raise OtherError (head columns);
  values ← column sample first;
  let supplied := length values in
  let idx := _sample_indices supplied DEFAULT_MAX_SAMPLE_ROWS in
  kept ← mapM (λ c, l ← column sample c; p ← pick l idx; Ok (c, JList p)) columns;
  let n_training := match jget "n_training_rows" profile with
                    | JInt n => if (n <? Z.of_nat supplied)%Z then Z.of_nat supplied else n
                    | _ => Z.of_nat supplied
                    end in
  Ok [("schema_version", JInt REFERENCE_PROFILE_VERSION); ("method", JStr "evidently_sample");
      ("columns", JList (map JStr columns)); ("prediction_column", JNull);
      ("n_training_rows", JInt n_training); ("n_samples", JInt (Z.of_nat (length idx)));
      ("sample", JDict kept)].

Definition refused_baseline (reason : string) : dict :=
  [("schema_version", JInt REFERENCE_PROFILE_VERSION); ("refused", JStr reason)].

(** A row of the sample, if no value of it is missing. *)
Fixpoint row_of (sample : dict) (columns : list string) (i : nat) : res (option dict) :=
  match columns with
  | [] => Ok (Some [])
  | c :: r =>
      l ← column sample c;
      v ← or_raise OtherError (l !! i);
      rest ← row_of sample r i;
      match v, rest with
      | JNull, _ | _, None => Ok None
      | v, Some row => f ← json_float v; Ok (Some ((c, JFloat f) :: row))
      end
  end.
Definition sample_rows (profile : dict) : res (list dict) :=
  '(columns, sample) ← sample_of profile;
  match columns with
  | [] => Ok []
  | first :: _ =>
      let n := match jget first sample with JList l => length l | _ => 0%nat end in
      rows ← mapM (row_of sample columns) (seq 0 n);
      Ok (omap id rows)
  end.
End samples.

(** ** What a deployment records *)

Definition drop_key (k : string) (d : dict) : dict := List.filter (λ kv : string * json, negb (bool_decide (kv.1 = k))) d.

Definition _features_only (profile : dict) : dict :=
  let pred := jget "prediction_column" profile in
  let sample := match jget "sample" profile with JDict d => d | _ => [] end in
  let kept := match pred with JStr p => drop_key p sample | _ => sample end in
  dict_put "prediction_column" JNull (dict_put "sample" (JDict kept) (drop_key "prediction_baseline" profile)).

Definition sample_dict (profile : dict) : dict := match jget "sample" profile with JDict d => d | _ => [] end.

Definition with_derived_scores (profile : dict) (scores : list float) (derived_at : string) : res dict :=
  reason ← _score_refusal (map JFloat scores);
  match reason with
  | Some _ => Err ValueError
  | None =>
      let out := _features_only profile in
      Ok (dict_put "prediction_baseline" (JDict [("origin", JStr "derived"); ("derived_at", JStr derived_at)])
           (dict_put "sample" (JDict (dict_put DEFAULT_PREDICTION_COLUMN (JList (map JFloat scores)) (sample_dict out)))
             (dict_put "prediction_column" (JStr DEFAULT_PREDICTION_COLUMN) out)))
  end.

Definition without_prediction_baseline (profile : dict) (reason : string) : dict :=
  dict_put "prediction_baseline" (JDict [("origin", JNull); ("reason", JStr reason)]) (_features_only profile).

(** What a model's baseline lets monitoring do. *)
Record baseline_view := { data_drift : bool; prediction : option string; reason : json }.
Definition baseline_state (profile : option dict) : baseline_view :=
  match profile with
  | None | Some [] => {| data_drift := false; prediction := None; reason := JStr "no feature sample was supplied" |}
  | Some p =>
      if truthy (jget "refused" p) then {| data_drift := false; prediction := None; reason := jget "refused" p |} else
      match jget "prediction_baseline" p with
      | JDict pb =>
          if is_text "derived" (jget "origin" pb) then {| data_drift := true; prediction := Some "derived"; reason := JNull |}
          else {| data_drift := true; prediction := None; reason := jget "reason" pb |}
      | _ =>
          if truthy (jget "prediction_column" p)
          then {| data_drift := true; prediction := Some "supplied"; reason := JStr "scores supplied before ADR-0035" |}
          else {| data_drift := true; prediction := None; reason := JStr "prediction scores are derived when the model is deployed" |}
      end
  end.

(** ** What an accepted sample is *)

Lemma texts_inv l names : texts l = Some names → l = map JStr names.
Proof.
  revert names. induction l as [|v l IH]; intros names; simpl; [by intros [= <-]|].
  destruct v; try done. destruct (texts l) as [t|]; simpl; [|done]. intros [= <-]. simpl. by rewrite (IH t).
Qed.
Lemma texts_names names : texts (map JStr names) = Some names.
Proof. induction names as [|n l IH]; simpl; [done|]. by rewrite IH. Qed.

Definition value_ok (v : json) : Prop := v = JNull ∨ _finite v = Ok true.
Lemma values_ok_spec l : values_ok l = Ok true ↔ Forall value_ok l.
Proof.
  induction l as [|v l IH]; simpl; [split; [by constructor | done]|]. rewrite Forall_cons, <- IH. unfold value_ok.
  destruct v as [| |z|f| | |]; simpl; try (split; [done | by intros [[|] _]]).
  - split; [by intros ?; split; [left|] | by intros [_ ?]].
  - destruct (float_of_Z z) as [x|]; simpl; [|by split; [|intros [[|] _]]].
    destruct (is_finite x); simpl; [split; [by intros ?; split; [right|] | by intros [_ ?]]|by split; [|intros [[|] _]]].
  - destruct (is_finite f); simpl; [split; [by intros ?; split; [right|] | by intros [_ ?]]|by split; [|intros [[|] _]]].
Qed.

#[local] Arguments values_ok : simpl never.

(** A column of [n] values. *)
Definition column_ok (sample : dict) (n : nat) (c : string) : Prop :=
  ∃ l, jget c sample = JList l ∧ length l = n ∧ Forall value_ok l.

Lemma columns_refusal_spec sample columns : ∀ lengths,
  columns_refusal sample columns lengths = Ok None ↔
  ∃ n, (columns ≠ [] → 0 < n)%nat ∧ Forall (column_ok sample n) columns ∧ (lengths = [] → columns ≠ []) ∧ Forall (eq n) lengths.
Proof.
  induction columns as [|c columns IH]; intros lengths; simpl.
  - split.
    + destruct (remove_dups lengths) as [|n [|]] eqn:E; try done. intros _. exists n.
      assert (Hin : ∀ x, x ∈ lengths → x = n).
      { intros x Hx. rewrite <- elem_of_remove_dups, E in Hx. by apply list_elem_of_singleton in Hx. }
      split_and!; [done|by constructor| |by apply Forall_forall; intros x Hx%Hin].
      intros ->. done.
    + intros (n & _ & _ & Hne & Hall). destruct lengths as [|x lengths]; [by destruct (Hne eq_refl)|].
      assert (Hd : remove_dups (x :: lengths) = [n]); [|by rewrite Hd].
      pose proof (NoDup_remove_dups (x :: lengths)) as Hn.
      assert (Hin : ∀ y, y ∈ remove_dups (x :: lengths) → y = n).
      { intros y. rewrite elem_of_remove_dups. intros Hy. symmetry. exact (proj1 (Forall_forall _ _) Hall y Hy). }
      assert (Hx : x ∈ remove_dups (x :: lengths)) by (apply elem_of_remove_dups; left).
      destruct (remove_dups (x :: lengths)) as [|y [|z d]]; [by apply not_elem_of_nil in Hx| |].
      * f_equal. apply Hin. left.
      * exfalso. apply NoDup_cons in Hn as [Hn _]. apply Hn. rewrite (Hin y ltac:(left)), <- (Hin z ltac:(right; left)). left.
  - split.
    + destruct (jget c sample) as [| | | | |[|v l]|] eqn:Ec; try done. 
      destruct (values_ok (v :: l)) as [[]|] eqn:Ev; [|done|done]. apply values_ok_spec in Ev. intros (n & Hn & Hc & _ & Hl)%IH.
      apply Forall_cons in Hl as [-> Hl]. exists (length (v :: l)). split_and!; [simpl; lia| |done|done].
      constructor; [|done]. by exists (v :: l).
    + intros (n & Hn & ((l & Hg & Hl & Hv) & Hc)%Forall_cons & _ & Hlen). rewrite Hg.
      destruct l as [|v l]; [simpl in Hl; subst n; specialize (Hn ltac:(done)); lia|].
      apply values_ok_spec in Hv. rewrite Hv. simpl.
      apply IH. exists n. split_and!; [intros; apply Hn; done|done|done|]. constructor; [done|done].
Qed.

Lemma sorted_names_perm l k : sorted_names l = sorted_names k → l ≡ₚ k.
Proof. unfold sorted_names. intros H. by rewrite <- (merge_sort_Permutation String.le l), H, merge_sort_Permutation. Qed.

Section accepted.
Context (py_repr : json → string) (even : nat → nat → list nat).
(** NumPy's documented [linspace]: as many points as asked for, from the first row to the last. *)
Context (even_length : ∀ n m, length (even n m) = m) (even_bound : ∀ n m i, (0 < n)%nat → i ∈ even n m → (i < n)%nat).

(** A feature sample of a configuration's inputs: a column of [n] values for each, every value null or finite. *)
Record sample_shape (p : dict) (sensors columns : list string) (sample : dict) (n : nat) : Prop := {
  sh_version : is_version (jget "schema_version" p) = true;
  sh_columns : jget "columns" p = JList (map JStr columns);
  sh_sample : jget "sample" p = JDict sample;
  sh_sensors : sensors ≠ [];
  sh_names : sorted_names columns = sorted_names sensors;
  sh_distinct : NoDup columns;
  sh_rows : (0 < n)%nat;
  sh_values : Forall (column_ok sample n) columns
}.

Lemma py_str_names names : map (SqlBinding.py_str py_repr) (map JStr names) = names.
Proof. rewrite map_map. induction names; simpl; [done|]. by f_equal. Qed.

Lemma hashable_names names : forallb hashable (map JStr names) = true.
Proof. by induction names. Qed.

Lemma sample_refusal_spec p sensors : sample_refusal py_repr (JDict p) sensors = Ok None ↔
  ∃ columns sample n, sample_shape p sensors columns sample n.
Proof.
  unfold sample_refusal. split.
  - destruct (is_version _) eqn:Ev; [|done]. simpl. destruct (jget "columns" p) as [| | | | |cols|] eqn:Ec; try done.
    destruct (jget "sample" p) as [| | | | | |sample] eqn:Es; try done. case_bool_decide as Hne; [done|].
    case_bool_decide as Hs; [|done]. simpl. destruct (forallb hashable cols); [|done]. simpl.
    destruct (texts cols) as [names|] eqn:Et; [|done]. apply texts_inv in Et as ->. rewrite py_str_names in Hs.
    case_bool_decide as Hd; [|done]. simpl. intros (n & Hn & Hc & Hl & _)%columns_refusal_spec.
    exists names, sample, n. split; try done. apply Hn, (Hl eq_refl).
  - intros (names & sample & n & [Hv Hc Hs Hne Hn Hd Hr Hvals]). rewrite Hv, Hc, Hs. simpl.
    rewrite bool_decide_false by done. rewrite py_str_names, bool_decide_true by done. simpl.
    rewrite hashable_names, texts_names. simpl. rewrite bool_decide_true by done. simpl. apply columns_refusal_spec.
    exists n. split_and!; [done|done| |by constructor]. intros _ ->. apply Hne. symmetry in Hn. apply sorted_names_perm in Hn.
    by apply Permutation_nil_r in Hn.
Qed.

Lemma sample_of_shape p sensors columns sample n : sample_shape p sensors columns sample n → sample_of p = Ok (columns, sample).
Proof. intros [_ Hc Hs _ _ _ _ _]. unfold sample_of. rewrite Hc, Hs, texts_names. done. Qed.

Lemma indices_ok n m : (0 < n)%nat → (∀ i, i ∈ _sample_indices even n m → (i < n)%nat) ∧
  length (_sample_indices even n m) = Nat.min n m ∧ ((0 < m)%nat → (0 < length (_sample_indices even n m))%nat).
Proof.
  intros Hn. unfold _sample_indices. destruct (n <=? m)%nat eqn:E; bool_hyps.
  - rewrite length_seq. split_and!; [|lia|lia]. intros i. rewrite elem_of_seq. lia.
  - rewrite even_length. split_and!; [|lia|lia]. intros i Hi. by eapply even_bound.
Qed.

Lemma pick_ok l idx : (∀ i, i ∈ idx → (i < length l)%nat) → Forall value_ok l →
  ∃ p, pick l idx = Ok p ∧ length p = length idx ∧ Forall value_ok p.
Proof.
  intros Hi Hv. unfold pick. induction idx as [|i idx IH]; simpl; [by exists []|].
  destruct (lookup_lt_is_Some_2 l i) as [v Hl]; [apply Hi; left|]. rewrite Hl. simpl.
  destruct IH as (p & -> & Hp & Hf); [intros j Hj; apply Hi; by right|]. exists (v :: p). simpl. split_and!; [done|by rewrite Hp|].
  constructor; [|done]. rewrite Forall_forall in Hv. apply Hv. by eapply list_elem_of_lookup_2.
Qed.

(** A stored column: the supplied one's values in the rows kept. *)
Definition picked (sample kept : dict) (idx : list nat) (c : string) : Prop :=
  ∃ l k, jget c sample = JList l ∧ pick l idx = Ok k ∧ jget c kept = JList k.

Lemma kept_ok sample columns n idx : (∀ i, i ∈ idx → (i < n)%nat) → Forall (column_ok sample n) columns →
  ∃ kept, mapM (λ c, l ← column sample c; p ← pick l idx; Ok (c, JList p)) columns = Ok kept ∧ map fst kept = columns ∧
    (NoDup columns → Forall (column_ok kept (length idx)) columns ∧ Forall (picked sample kept idx) columns).
Proof.
  intros Hi. induction 1 as [|c columns (l & Hg & Hl & Hv) Hc IH]; simpl; [by exists []|].
  assert (Hcol : column sample c = Ok l) by (unfold column; by rewrite Hg). rewrite Hcol. simpl.
  destruct (pick_ok l idx) as (p & Hpk & Hp & Hpv); [by rewrite Hl|done|]. rewrite Hpk. simpl.
  destruct IH as (kept & -> & Hk & Hok). simpl. exists ((c, JList p) :: kept). simpl. rewrite Hk. split_and!; [done|done|].
  intros [Hnin Hnd]%NoDup_cons. destruct (Hok Hnd) as [Hcol' Hpick]. clear Hok.
  assert (Hhere : jget c ((c, JList p) :: kept) = JList p) by (unfold jget; simpl; by rewrite bool_decide_true).
  assert (Hthere : ∀ d, d ∈ columns → jget d ((c, JList p) :: kept) = jget d kept).
  { intros d Hd. unfold jget. simpl. rewrite bool_decide_false; [done|]. by intros ->. }
  rewrite Forall_forall in Hcol'. rewrite Forall_forall in Hpick. split; constructor.
  - by exists p.
  - apply Forall_forall. intros d Hd. unfold column_ok. rewrite Hthere by done. by apply Hcol'.
  - by exists l, p.
  - apply Forall_forall. intros d Hd. unfold picked. rewrite Hthere by done. by apply Hpick.
Qed.

Lemma accepted_shape p sensors columns sample n : sample_shape p sensors columns sample n →
  ∃ out kept idx, accepted_sample even p = Ok out ∧ sample_shape out sensors columns kept (length idx) ∧
    (length idx <= DEFAULT_MAX_SAMPLE_ROWS)%nat ∧ Forall (picked sample kept idx) columns.
Proof.
  intros Hsh. pose proof (sample_of_shape _ _ _ _ _ Hsh) as Hof. destruct Hsh as [Hv Hc Hs Hne Hn Hd Hr Hvals].
  assert (Hcne : columns ≠ []).
  { intros ->. symmetry in Hn. apply sorted_names_perm in Hn. by apply Permutation_nil_r in Hn. }
  unfold accepted_sample. rewrite Hof, res_bind_ok. destruct columns as [|c0 cols]; [done|].
  pose proof Hvals as Hv0. apply Forall_cons in Hv0 as [(l & Hg & Hl & _) _].
  assert (Hcol : column sample c0 = Ok l) by (unfold column; by rewrite Hg).
  change (or_raise OtherError (head (c0 :: cols))) with (Ok c0). rewrite res_bind_ok, Hcol, res_bind_ok. cbv zeta beta. rewrite Hl.
  destruct (indices_ok n DEFAULT_MAX_SAMPLE_ROWS Hr) as (Hi & Hlen & Hpos).
  destruct (kept_ok sample (c0 :: cols) n _ Hi Hvals) as (kept & Hk & Hfst & Hok).
  rewrite Hk, res_bind_ok. destruct (Hok Hd) as [Hcols Hpicked].
  eexists _, kept, (_sample_indices even n DEFAULT_MAX_SAMPLE_ROWS). split; [reflexivity|]. split_and!.
  - split; try done. apply Hpos; unfold DEFAULT_MAX_SAMPLE_ROWS; lia.
  - rewrite Hlen. lia.
  - done.
Qed.

(** A row: none, or a finite number for every column. *)
Definition row_complete (columns : list string) (row : dict) : Prop :=
  map fst row = columns ∧ ∀ c, c ∈ columns → _finite (jget c row) = Ok true.

Lemma row_of_ok sample columns n i : (i < n)%nat → NoDup columns → Forall (column_ok sample n) columns →
  ∃ o, row_of sample columns i = Ok o ∧ ∀ row, o = Some row → row_complete columns row.
Proof.
  intros Hi. induction columns as [|c columns IH]; simpl.
  - intros _ _. exists (Some []). split; [done|]. intros row [= <-]. split; [done|]. by intros c ?%not_elem_of_nil.
  - intros [Hnin Hnd]%NoDup_cons ((l & Hg & Hl & Hv) & Hcs)%Forall_cons.
    assert (Hcol : column sample c = Ok l) by (unfold column; by rewrite Hg). rewrite Hcol. cbn [mbind res_bind].
    destruct (lookup_lt_is_Some_2 l i) as [v Hlk]; [by rewrite Hl|]. rewrite Hlk. cbn [or_raise mbind res_bind].
    destruct (IH Hnd Hcs) as (o & -> & Ho). cbn [mbind res_bind].
    assert (Hvv : value_ok v). { rewrite Forall_forall in Hv. apply Hv. by eapply list_elem_of_lookup_2. }
    destruct o as [row|]; [|exists None; by destruct v].
    destruct Hvv as [->|Hf]; [by exists None|]. destruct (finite_value _ Hf) as (f & Hfv & Hfin).
    assert (E : match v with JNull => Ok None | _ => f ← json_float v; Ok (Some ((c, JFloat f) :: row)) end = Ok (Some ((c, JFloat f) :: row))).
    { destruct v; try done; by rewrite Hfv. }
    exists (Some ((c, JFloat f) :: row)). split; [destruct v; try done; by rewrite Hfv|].
    intros row' [= <-]. destruct (Ho row eq_refl) as [Hm Hc]. split; [simpl; by rewrite Hm|].
    intros d [->|Hd]%elem_of_cons; unfold jget; simpl.
    + rewrite bool_decide_true by done. simpl. by rewrite Hfin.
    + rewrite bool_decide_false by (by intros ->). by apply Hc.
Qed.

(** What is not the name of one of [names]. *)
Definition beside (names : list string) (l : list json) : list json :=
  List.filter (λ v, negb (match v with JStr s => bool_decide (s ∈ names) | _ => false end)) l.

Lemma beside_perm a b l : Permutation a b → beside a l = beside b l.
Proof.
  intros Hp. unfold beside. apply List.filter_ext. intros []; try done. do 2 f_equal. apply bool_decide_ext. by rewrite Hp.
Qed.

(** A row has a number for its columns, and nothing else. *)
Lemma missing_of_row columns row l : row_complete columns row → forallb hashable l = true →
  missing_sensors row l = Ok (beside columns l).
Proof.
  intros [Hk Hc]. induction l as [|v l IH]; [done|]. cbn [forallb missing_sensors beside List.filter]. intros [Hv Hl]%andb_true_iff.
  rewrite IH by done. fold (beside columns l). destruct v as [| | | |s| |]; try done. cbn [reading_get mbind res_bind].
  case_bool_decide as Hin; cbn [negb]; [by rewrite Hc|].
  assert (jget s row = JNull) as ->; [|done]. unfold jget. destruct (dict_lookup s row) as [x|] eqn:E; [|done].
  exfalso. apply Hin. rewrite <- Hk. clear -E.
  induction row as [|[k y] row IH]; [done|]. simpl in *. case_bool_decide as Hk; [subst k; left|]. right. by apply IH.
Qed.

Lemma accepted_sample_ok p sensors : sample_refusal py_repr (JDict p) sensors = Ok None →
  ∃ out rows columns sample kept idx, accepted_sample even p = Ok out ∧ sample_refusal py_repr (JDict out) sensors = Ok None ∧
    sample_of p = Ok (columns, sample) ∧ sample_of out = Ok (columns, kept) ∧ Permutation columns sensors ∧
    (length idx <= DEFAULT_MAX_SAMPLE_ROWS)%nat ∧ Forall (picked sample kept idx) columns ∧
    sample_rows out = Ok rows ∧ (length rows <= length idx)%nat ∧ ∀ row, row ∈ rows → row_complete columns row.
Proof.
  intros (columns & sample & n & Hsh)%sample_refusal_spec.
  destruct (accepted_shape _ _ _ _ _ Hsh) as (out & kept & idx & Ho & Hsh' & Hk & Hpick). set (k := length idx) in *.
  assert (Hof := sample_of_shape _ _ _ _ _ Hsh').
  assert (Hrows : ∀ m, (m <= k)%nat → ∃ os, mapM (row_of kept columns) (seq (k - m) m) = Ok os ∧ length os = m ∧
      ∀ row, Some row ∈ os → row_complete columns row).
  { induction m as [|m IH]; intros Hm; [exists []; split; [done|]; split; [done|]; by intros row ?%not_elem_of_nil|]. destruct IH as (os & Hos & Hlen & Hcomp); [lia|].
    destruct (row_of_ok kept columns k (k - S m)) as (o & Hrow & Hc); [lia|apply Hsh'|apply Hsh'|].
    exists (o :: os). simpl. rewrite Hrow. simpl. replace (S (k - S m)) with (k - m)%nat by lia. rewrite Hos. simpl.
    split_and!; [done|by rewrite Hlen|]. intros row [E|H]%elem_of_cons; [by apply Hc | by apply Hcomp]. }
  destruct (Hrows k) as (os & Hos & Hlen & Hcomp); [lia|]. rewrite Nat.sub_diag in Hos.
  exists out, (omap id os), columns, sample, kept, idx. split; [done|]. split; [apply sample_refusal_spec; by eexists _, _, _|].
  split; [by eapply sample_of_shape|]. split; [done|]. split; [apply sorted_names_perm, Hsh|]. split; [done|]. split; [done|].
  split; [|split].
  - unfold sample_rows. rewrite Hof, res_bind_ok. destruct columns as [|c cols].
    { exfalso. destruct Hsh' as [_ _ _ Hne Hn _ _ _]. symmetry in Hn. apply sorted_names_perm in Hn. by apply Permutation_nil_r in Hn. }
    pose proof (sh_values _ _ _ _ _ Hsh') as Hv. apply Forall_cons in Hv as [(l & Hg & Hl & _) _]. rewrite Hg, Hl.
    by rewrite Hos.
  - fold k. rewrite <- Hlen. clear. induction os as [|o os IH]; [done|]. change (omap id os) with (list_omap _ _ id os) in IH. destruct o; simpl in *; lia.
  - intros row ([r|] & Hr & [= ->])%list_elem_of_omap. by apply Hcomp.
Qed.

(** C11: A feature sample the registration accepts for a configuration's base
    sensors is stored as the same rows of every column, at most the platform's
    bound of them, and the gate accepts what was stored again; each row the gate
    reads lacks, of what the configuration's engine requires, exactly the
    sensors its transformations name beside the base: so it is a complete
    reading if and only if they name no other. *)
Theorem accepted_sample_readings py_pow ttl max_entries extra p config ctx ks e :
  sample_refusal py_repr (JDict p) (base_sensors config) = Ok None → engine_init py_repr py_pow ttl max_entries extra config ctx ks = Ok e →
  ∃ out rows columns sample kept idx, accepted_sample even p = Ok out ∧
    sample_refusal py_repr (JDict out) (base_sensors config) = Ok None ∧
    sample_of p = Ok (columns, sample) ∧ sample_of out = Ok (columns, kept) ∧ Permutation columns (base_sensors config) ∧
    (length idx <= DEFAULT_MAX_SAMPLE_ROWS)%nat ∧ Forall (picked sample kept idx) columns ∧
    sample_rows out = Ok rows ∧ (length rows <= length idx)%nat ∧
    ∀ row, row ∈ rows → missing_sensors row (required_sensors e) =
      Ok (beside (base_sensors config) (required_sensors e)).
Proof.
  intros (out & rows & columns & sample & kept & idx & H1 & H2 & H3 & H4 & Hp & H6 & H7 & H8 & H9 & Hrows)%accepted_sample_ok He.
  exists out, rows, columns, sample, kept, idx. split_and!; try done. intros row Hrow.
  assert (forallb hashable (required_sensors e) = true) as Hh.
  { unfold engine_init in He. apply res_bind_inv_ok in He as (named & _ & He). destruct (forallb _ _) eqn:Eh; [|done].
    cbn [negb] in He. destruct (base.filter _ _); [|done]. by injection He as <-. }
  rewrite (missing_of_row _ _ _ (Hrows _ Hrow) Hh). f_equal. by apply beside_perm.
Qed.
End accepted.

(** ** What derived scores make of a profile *)

Lemma jget_put_eq k v d : jget k (dict_put k v d) = v.
Proof. unfold jget. by rewrite dict_put_eq. Qed.
Lemma jget_put_ne k k' v d : k ≠ k' → jget k' (dict_put k v d) = jget k' d.
Proof. intros H. unfold jget. by rewrite dict_put_ne. Qed.
Lemma jget_drop k k' d : k ≠ k' → jget k' (drop_key k d) = jget k' d.
Proof.
  intros Hk. unfold jget, drop_key. f_equal. induction d as [|[j v] d IH]; simpl; [done|].
  destruct (bool_decide (j = k)) eqn:E; bool_hyps; simpl; [rewrite bool_decide_false by congruence; done|].
  by rewrite IH.
Qed.

Lemma score_refusal_none scores : scores ≠ [] → Forall (λ f, on_scale f = true) scores ↔
  _score_refusal (map JFloat scores) = Ok None.
Proof.
  intros Hne. destruct scores as [|f0 fs]; [done|]. clear Hne.
  change (_score_refusal (map JFloat (f0 :: fs))) with (_score_refusal_from (map JFloat (f0 :: fs))).
  generalize (f0 :: fs). intros l. induction l as [|f l IH]; simpl; [by split; [|constructor]|].
  rewrite Forall_cons, IH. destruct (on_scale f); simpl; [by split; [intros [_ ?] | split]|]. by split; [intros [[=] _] | intros [=]].
Qed.

(** Scores are recorded exactly when they are scores of the declared scale, and
    the profile is then a derived baseline: its prediction column is one the
    drift evaluation accepts, and every other column is as it was. *)
Theorem derived_baseline profile scores derived_at :
  (scores ≠ [] ∧ Forall (λ f, on_scale f = true) scores ↔ is_ok (with_derived_scores profile scores derived_at) = true) ∧
  ∀ out, with_derived_scores profile scores derived_at = Ok out →
    prediction_column_refusal out = Ok None ∧
    (truthy (jget "refused" profile) = false → prediction (baseline_state (Some out)) = Some "derived") ∧
    ∀ c, c ≠ DEFAULT_PREDICTION_COLUMN → is_text c (jget "prediction_column" profile) = false →
      jget c (sample_dict out) = jget c (sample_dict profile).
Proof.
  unfold with_derived_scores. destruct (decide (scores = [])) as [->|Hne].
  { simpl. split; [|done]. by split; [intros [? _]|]. }
  assert (Hval : _score_refusal (map JFloat scores) = Ok None ∨ ∃ r, _score_refusal (map JFloat scores) = Ok (Some r)).
  { destruct scores as [|f0 fs]; [done|]. clear Hne.
    change (_score_refusal (map JFloat (f0 :: fs))) with (_score_refusal_from (map JFloat (f0 :: fs))).
    generalize (f0 :: fs). intros l. induction l as [|f l IH]; simpl; [by left|]. destruct (on_scale f); simpl; [done|]. right. by eexists. }
  pose proof (score_refusal_none scores Hne) as Hsr. destruct Hval as [E|[r E]]; rewrite E; cbn [mbind res_bind].
  2: { split; [|done]. split; [|done]. intros [_ H%Hsr]. congruence. }
  split; [split; [done|]; intros _; split; [done|]; by apply Hsr|].
  intros out [= <-]. set (base := _features_only profile).
  assert (Hout : ∀ k, k ≠ "prediction_baseline"%string → k ≠ "sample"%string → k ≠ "prediction_column"%string → jget k base = jget k profile).
  { intros k H1 H2 H3. unfold base, _features_only. rewrite jget_put_ne by done. rewrite jget_put_ne by done. by apply jget_drop. }
  split_and!.
  - unfold prediction_column_refusal. rewrite jget_put_ne, jget_put_ne, jget_put_eq by done. simpl.
    rewrite jget_put_ne, jget_put_eq by done. simpl. rewrite jget_put_eq. rewrite E. done.
  - intros Hr. unfold baseline_state. destruct (dict_put "prediction_baseline" _ _) as [|kv d] eqn:Ed.
    { exfalso. apply (f_equal (dict_lookup "prediction_baseline")) in Ed. by rewrite dict_put_eq in Ed. }
    rewrite <- Ed. rewrite jget_put_ne, jget_put_ne, jget_put_ne, Hout by done. rewrite Hr, jget_put_eq. done.
  - intros c Hc Hp. unfold sample_dict at 1. rewrite jget_put_ne, jget_put_eq by done. rewrite jget_put_ne by done.
    unfold sample_dict at 1, base, _features_only. rewrite jget_put_ne, jget_put_eq by done.
    fold (sample_dict profile). destruct (jget "prediction_column" profile) as [| | | |p| |]; try done.
    apply jget_drop. simpl in Hp. by bool_hyps.
Qed.
