(* ===== verification/MlRepository.v ===== *)
(** * The ML service's tables

    services/ml_service/api/repository.py, over the tenants' tables with the rules
    the database holds them to (init-scripts 03, 06, 19 and 30): what a model
    and a configuration may be, and that a bound configuration keeps what it
    computes.  A fresh id is what [gen_random_uuid] gives. *)

From stdpp Require Import base strings list gmap sets sorting.
From Stdlib Require Import ZArith Lia Ascii.
From S2P Require Import Prelude PyText PyNum PyJson Tenancy MlExtensions MlFeatures MlDetectors MlWorld.

Local Open Scope string_scope.

(** ** Equality of what is stored as JSON *)

Fixpoint json_eq (a b : json) : bool :=
  match a, b with
  | JNull, JNull => true
  | JBool x, JBool y => Bool.eqb x y
  | JInt x, JInt y => Z.eqb x y
  | JFloat x, JFloat y => bool_decide (x = y)
  | JStr x, JStr y => bool_decide (x = y)
  | JList l, JList k =>
      (fix go l k := match l, k with [], [] => true | x :: l, y :: k => json_eq x y && go l k | _, _ => false end) l k
  | JDict l, JDict k =>
      (fix go l k := match l, k with
                     | [], [] => true
                     | (n, x) :: l, (m, y) :: k => bool_decide (n = m) && json_eq x y && go l k
                     | _, _ => false
                     end) l k
  | _, _ => false
  end.

Lemma json_eq_sound : ∀ a b, json_eq a b = true → a = b.
Proof.
  fix IH 1. intros a b. destruct a as [|x|x|x|x|l|l], b as [|y|y|y|y|k|k]; simpl; try discriminate; intros H.
  - done.
  - f_equal. by apply Bool.eqb_prop.
  - f_equal. by apply Z.eqb_eq.
  - f_equal. by bool_hyps.
  - f_equal. by bool_hyps.
  - f_equal. revert k H. induction l as [|x l IHl]; intros [|y k]; try discriminate; [done|]. intros H. bool_hyps.
    f_equal; [by apply IH | by apply IHl].
  - f_equal. revert k H. induction l as [|[n x] l IHl]; intros [|[m y] k]; try discriminate; [done|]. intros H. bool_hyps.
    f_equal; [f_equal; [done | by apply IH] | by apply IHl].
Qed.
Lemma json_eq_refl : ∀ a, json_eq a a = true.
Proof.
  fix IH 1. intros [|x|x|x|x|l|l]; simpl; try done.
  - apply Bool.eqb_reflx.
  - apply Z.eqb_refl.
  - by apply bool_decide_eq_true.
  - by apply bool_decide_eq_true.
  - induction l as [|x l IHl]; [done|]. by rewrite IH.
  - induction l as [|[n x] l IHl]; [done|]. rewrite IH, IHl, bool_decide_true by done. done.
Qed.
#[export] Instance json_eq_dec : EqDecision json.
Proof.
  intros a b. destruct (json_eq a b) eqn:E; [left; by apply json_eq_sound | right; intros ->; by rewrite json_eq_refl in E].
Defined.
#[export] Instance transformation_eq_dec : EqDecision transformation.
Proof. solve_decision. Defined.
#[export] Instance feature_config_eq_dec : EqDecision feature_config.
Proof. solve_decision. Defined.

(** ** The tables' rules *)

Definition UniqueViolation : exn := PostgresError (Some "23505").
Definition RestrictViolation : exn := PostgresError (Some "23001").
Definition ForeignKeyViolation : exn := PostgresError (Some "23503").
Definition CheckViolation : exn := PostgresError (Some "23514").

Definition STATUSES : list string := ["training"; "active"; "production"; "deprecated"; "failed"].
Definition PROVENANCES : list string := ["kernel"; "uploaded"].

Definition with_models t m : tenant := {| t_models := m; t_configs := t_configs t; t_sensors := t_sensors t |}.
Definition with_configs t c : tenant := {| t_models := t_models t; t_configs := c; t_sensors := t_sensors t |}.

(** The models bound to a configuration, by id. *)
Definition bound_models (t : tenant) (config : string) : list (string * model_row) :=
  List.filter (λ kv, bool_decide (m_config kv.2 = Some config)) (map_to_list (t_models t)).

Definition insert_model (new_id : tenant → string) (r : model_row) (t : tenant) : res (string * tenant) :=
  if negb (bool_decide (m_status r ∈ STATUSES)) then Err CheckViolation else
  if negb (match m_provenance r with Some p => bool_decide (p ∈ PROVENANCES) | None => true end) then Err CheckViolation else
  if negb ((- 2 ^ 31 <=? m_version r) && (m_version r <? 2 ^ 31))%Z then Err InterfaceError else
  if existsb (λ kv : string * model_row, bool_decide (m_name kv.2 = m_name r ∧ m_version kv.2 = m_version r)) (map_to_list (t_models t))
  then Err UniqueViolation else
  if negb (match m_config r with Some c => bool_decide (is_Some (t_configs t !! c)) | None => true end) then Err ForeignKeyViolation else
  Ok (new_id t, with_models t (<[new_id t := r]> (t_models t))).

Definition same_key (a b : config_row) : bool := bool_decide (c_equipment_type a = c_equipment_type b ∧ c_name a = c_name b).
Definition insert_config (new_id : tenant → string) (c : config_row) (t : tenant) : res (string * tenant) :=
  if existsb (λ kv : string * config_row, same_key kv.2 c) (map_to_list (t_configs t)) then Err UniqueViolation
  else Ok (new_id t, with_configs t (<[new_id t := c]> (t_configs t))).

(** [refuse_bound_feature_config_change], then the unique key.  Inputs are the
    same here when they are the same JSON; jsonb also takes 2 and 2.0, or an
    object with its keys in another order, as not distinct, and lets such an
    edit of a bound configuration through. *)
Definition change_config (id : string) (old new : config_row) (t : tenant) : res tenant :=
  if negb (bool_decide (c_inputs new = c_inputs old)) && negb (bool_decide (bound_models t id = [])) then Err RestrictViolation else
  if existsb (λ kv : string * config_row, negb (bool_decide (kv.1 = id)) && same_key kv.2 new) (map_to_list (t_configs t))
  then Err UniqueViolation
  else Ok (with_configs t (<[id := new]> (t_configs t))).

(** [ON DELETE RESTRICT] *)
Definition remove_config (id : string) (t : tenant) : res (bool * tenant) :=
  match t_configs t !! id with
  | None => Ok (false, t)
  | Some _ => if bool_decide (bound_models t id = []) then Ok (true, with_configs t (base.delete id (t_configs t))) else Err ForeignKeyViolation
  end.

(** An UPDATE of one model: whether there is one; the CHECK on its status. *)
Definition change_model (id : string) (f : model_row → model_row) (t : tenant) : res (bool * tenant) :=
  match t_models t !! id with
  | None => Ok (false, t)
  | Some r => if bool_decide (m_status (f r) ∈ STATUSES) then Ok (true, with_models t (<[id := f r]> (t_models t))) else Err CheckViolation
  end.

(** ** The repository *)

(** A statement in the tenant's schema; an argument that is no UUID is not encoded. *)
Definition tenant_call {A} (company : string) (f : string → tenant → res (A * tenant)) : M world A :=
  schema ← lift (schema_name company);
  remote (λ sh, match f schema (tenant_of schema sh) with
                | Ok (a, t) => (Ok a, set_tenant schema t sh)
                | Err e => (Err e, sh)
                end).
Definition pg_uuid (s : string) : res string := or_raise InterfaceError (uuid_str <$> uuid_parse s).
Definition log (e : event) : M world unit := modify (logged e).

Definition get_model_by_id (company model_id : string) : M world (option model_row) :=
  schema ← lift (schema_name company);
  id ← lift (pg_uuid model_id);
  r ← tenant_call company (λ _ t, Ok (t_models t !! id, t));
  _ ← (match r with Some r => log (ModelRead schema id r) | None => mret tt end);
  mret r.

Definition get_feature_config_by_id (company config_id : string) : M world (option config_row) :=
  schema ← lift (schema_name company);
  id ← lift (pg_uuid config_id);
  c ← tenant_call company (λ _ t, Ok (t_configs t !! id, t));
  _ ← (match c with Some c => log (ConfigRead schema id c) | None => mret tt end);
  mret c.

Definition sensor_ids_by_name (company equipment_id : string) (names : list string) : M world (list (string * string)) :=
  id ← lift (pg_uuid equipment_id);
  tenant_call company (λ _ t, Ok (omap (λ n, s ← t_sensors t !! (id, n); Some (n, s)) (remove_dups names), t)).

(** [int(value.split(".")[0])], 1 where it is no number. *)
Definition py_int (s : string) : option Z :=
  let '(neg, d) := split_sign (strip is_space s) in
  match dec_run 0 0 false d with
  | Some (v, S _, EmptyString) => Some (if neg then - v else v)%Z
  | _ => None
  end.
Definition version_number (version : string) : Z := default 1%Z (py_int (default "" (head (str_split "."%char version)))).

Section writes.
Context (new_id : tenant → string).

(** The row a registration inserts, its version and its ids as given. *)
Definition uuids_of (r : model_row) : res model_row :=
  let opt o := match o with Some s => v ← pg_uuid s; Ok (Some v) | None => Ok None end in
  equipment ← opt (m_equipment r);
  config ← opt (m_config r);
  sensors ← (match m_sensor_ids r with Some l => v ← mapM pg_uuid l; Ok (Some v) | None => Ok None end : res _);
  Ok {| m_name := m_name r; m_version := m_version r; m_type := m_type r; m_equipment := equipment; m_status := m_status r;
        m_run := m_run r; m_artifact_uri := m_artifact_uri r; m_provenance := m_provenance r; m_detector := m_detector r;
        m_config := config; m_sensor_ids := sensors; m_training_metrics := m_training_metrics r;
        m_profile := m_profile r; m_compatibility := m_compatibility r |}.

(** [bound_inputs] are the inputs the row was checked against: the
    configuration is compared under the lock that holds it until the insert
    commits, so both are one step. *)
Definition held (bound_inputs : option feature_config) (config : option string) : res (option (feature_config * string)) :=
  match bound_inputs, config with
  | Some i, Some c => if bool_decide (c = "") then Ok None else id ← pg_uuid c; Ok (Some (i, id))
  | _, _ => Ok None
  end.
Definition insert_held (bound : option (feature_config * string)) (r : model_row) (t : tenant) : res (string * tenant) :=
  let changed := match bound with Some (i, c) => negb (bool_decide (c_inputs <$> t_configs t !! c = Some i)) | None => false end in
  if changed then Err FeatureConfigChanged else r ← uuids_of r; insert_model new_id r t.
Definition create_model (company : string) (r : model_row) (bound_inputs : option feature_config) : M world (option string) :=
  schema ← lift (schema_name company);
  _ ← look (λ _, Ok tt);
  bound ← lift (held bound_inputs (m_config r));
  catch
    (id ← tenant_call company (λ _ t, insert_held bound r t);
     _ ← log (Registered schema id r);
     mret (Some id))
    (λ e, if bool_decide (e = UniqueViolation) || bool_decide (e = FeatureConfigChanged) || bool_decide (e = SystemExit)
          then raise e else mret None).

Definition change_by (company model_id : string) (f : model_row → model_row) : M world bool :=
  id ← lift (pg_uuid model_id);
  tenant_call company (λ _ t, change_model id f t).

Definition with_status s (r : model_row) : model_row :=
  {| m_name := m_name r; m_version := m_version r; m_type := m_type r; m_equipment := m_equipment r; m_status := s;
     m_run := m_run r; m_artifact_uri := m_artifact_uri r; m_provenance := m_provenance r; m_detector := m_detector r;
     m_config := m_config r; m_sensor_ids := m_sensor_ids r; m_training_metrics := m_training_metrics r;
     m_profile := m_profile r; m_compatibility := m_compatibility r |}.
Definition with_profile p (r : model_row) : model_row :=
  {| m_name := m_name r; m_version := m_version r; m_type := m_type r; m_equipment := m_equipment r; m_status := m_status r;
     m_run := m_run r; m_artifact_uri := m_artifact_uri r; m_provenance := m_provenance r; m_detector := m_detector r;
     m_config := m_config r; m_sensor_ids := m_sensor_ids r; m_training_metrics := m_training_metrics r;
     m_profile := p; m_compatibility := m_compatibility r |}.
Definition with_compatibility v (r : model_row) : model_row :=
  {| m_name := m_name r; m_version := m_version r; m_type := m_type r; m_equipment := m_equipment r; m_status := m_status r;
     m_run := m_run r; m_artifact_uri := m_artifact_uri r; m_provenance := m_provenance r; m_detector := m_detector r;
     m_config := m_config r; m_sensor_ids := m_sensor_ids r; m_training_metrics := m_training_metrics r;
     m_profile := m_profile r; m_compatibility := v |}.

Definition update_model_status (company model_id status : string) : M world bool :=
  ok ← change_by company model_id (with_status status);
  schema ← lift (schema_name company);
  id ← lift (pg_uuid model_id);
  _ ← (if ok : bool then log (StatusSet schema id status) else mret tt);
  mret ok.
Definition update_model_reference_profile (company model_id : string) (profile : json) : M world bool :=
  change_by company model_id (with_profile profile).
Definition update_model_compatibility (company model_id : string) (v : string) : M world bool :=
  change_by company model_id (with_compatibility (Some v)).
Definition delete_model (company model_id : string) : M world bool := change_by company model_id (with_status "deprecated").

Definition create_feature_config (company : string) (c : config_row) : M world (string * config_row) :=
  id ← tenant_call company (λ _ t, insert_config new_id c t); mret (id, c).

(** A change of a configuration: the fields given. *)
Record config_change := {
  ch_equipment_type : option string; ch_name : option string; ch_description : option string;
  ch_base_sensors : option (list string); ch_transformations : option (list transformation)
}.
Definition no_change : config_change :=
  {| ch_equipment_type := None; ch_name := None; ch_description := None; ch_base_sensors := None; ch_transformations := None |}.
Definition changed (u : config_change) (c : config_row) : config_row :=
  {| c_equipment_type := default (c_equipment_type c) (ch_equipment_type u); c_name := default (c_name c) (ch_name u);
     c_description := match ch_description u with Some d => Some d | None => c_description c end;
     c_inputs := {| base_sensors := default (base_sensors (c_inputs c)) (ch_base_sensors u);
                    transformations := default (transformations (c_inputs c)) (ch_transformations u) |};
     c_created_by := c_created_by c |}.
Definition gives_nothing (u : config_change) : bool :=
  bool_decide (ch_equipment_type u = None ∧ ch_name u = None ∧ ch_description u = None) &&
  bool_decide (ch_base_sensors u = None ∧ ch_transformations u = None).

Definition update_feature_config (company config_id : string) (u : config_change) : M world (option config_row) :=
  if gives_nothing u then get_feature_config_by_id company config_id else
  id ← lift (pg_uuid config_id);
  tenant_call company (λ _ t,
    match t_configs t !! id with
    | None => Ok (None, t)
    | Some old => t' ← change_config id old (changed u old) t; Ok (Some (changed u old), t')
    end).

Definition delete_feature_config (company config_id : string) : M world bool :=
  id ← lift (pg_uuid config_id);
  tenant_call company (λ _ t, remove_config id t).

Definition models_bound_to_feature_config (company config_id : string) : M world (list (string * string)) :=
  id ← lift (pg_uuid config_id);
  tenant_call company (λ _ t, Ok (map (λ kv : string * model_row, (kv.1, m_name kv.2)) (bound_models t id), t)).
End writes.
