(* ===== verification/MlKeeps.v ===== *)
(** * What a call keeps of the tenants' tables

    Over MlWorld and MlRepository: a relation on a tenant's tables, kept by the
    others before every call ([lawful]), is kept by every call whose own change
    keeps it ([keeps]). *)

From stdpp Require Import base strings list gmap sets.
From Stdlib Require Import ZArith Lia.
From S2P Require Import Prelude PyText PyNum PyJson Tenancy MlExtensions MlFeatures MlDetectors MlWorld MlRepository.

Lemma tenant_of_set schema t sh : tenant_of schema (set_tenant schema t sh) = t.
Proof. unfold tenant_of, set_tenant. simpl. by rewrite lookup_insert_eq. Qed.
Lemma tenant_of_set_ne schema k t sh : k ≠ schema → tenant_of k (set_tenant schema t sh) = tenant_of k sh.
Proof. intros H. unfold tenant_of, set_tenant. simpl. by rewrite lookup_insert_ne. Qed.

Section keeps.
Context (R : tenant → tenant → Prop) `{!Reflexive R} `{!Transitive R}.

Definition on_tenants (sh sh' : shared) : Prop := ∀ schema, R (tenant_of schema sh) (tenant_of schema sh').
#[export] Instance on_tenants_refl : Reflexive on_tenants.
Proof. intros sh schema. reflexivity. Qed.
#[export] Instance on_tenants_trans : Transitive on_tenants.
Proof. intros a b c H1 H2 schema. etrans; [apply H1 | apply H2]. Qed.

Definition lawful (w : world) : Prop := Forall (λ t, ∀ sh, on_tenants sh (others t sh)) (w_turns w).
Definition keeps (w w' : world) : Prop := lawful w → on_tenants (w_shared w) (w_shared w') ∧ lawful w'.
#[export] Instance keeps_refl : Reflexive keeps.
Proof. intros w H. by split. Qed.
#[export] Instance keeps_trans : Transitive keeps.
Proof. intros a b c H1 H2 H. destruct (H1 H) as [S1 L1]. destruct (H2 L1) as [S2 L2]. split; [by etrans|done]. Qed.

Lemma remote_keeps {A} (f : shared → res A * shared) : (∀ sh, on_tenants sh (f sh).2) → respects keeps (remote f).
Proof.
  intros Hf w Hl. unfold remote, final. set (t := default calm (head (w_turns w))).
  assert (Ho : on_tenants (w_shared w) (others t (w_shared w))).
  { subst t. unfold lawful in Hl. destruct (w_turns w) as [|t ts]; simpl; [done|]. apply Forall_cons in Hl as [Ht _]. apply Ht. }
  assert (Htl : Forall (λ t, ∀ sh, on_tenants sh (others t sh)) (tail (w_turns w))) by (by apply Forall_tail).
  destruct (goes t); simpl; (split; [|done]); (etrans; [exact Ho|]); [apply Hf | reflexivity | apply Hf].
Qed.
Lemma look_keeps {A} (f : shared → res A) : respects keeps (look f).
Proof. apply remote_keeps. intros sh. reflexivity. Qed.
Lemma own_keeps (f : world → world) : (∀ w, w_shared (f w) = w_shared w ∧ w_turns (f w) = w_turns w) →
  respects keeps (modify f).
Proof. intros Hf w Hl. destruct (Hf w) as [E1 E2]. unfold final, modify. simpl. unfold lawful. by rewrite E1, E2. Qed.
Lemma log_keeps e : respects keeps (log e).
Proof. by apply own_keeps. Qed.
Lemma logged_keeps e : respects keeps (modify (logged e)).
Proof. by apply own_keeps. Qed.
Lemma serving_keeps {A} (m : M serving A) : respects keeps (on_serving m).
Proof. intros w Hl. unfold final, on_serving, zoom. destruct (m (w_serving w)). simpl. by split. Qed.

Lemma set_tenant_keeps schema t sh : R (tenant_of schema sh) t → on_tenants sh (set_tenant schema t sh).
Proof.
  intros HR k. destruct (decide (k = schema)) as [->|Hne]; [by rewrite tenant_of_set | by rewrite tenant_of_set_ne].
Qed.
Lemma tenant_call_keeps {A} company (f : string → tenant → res (A * tenant)) :
  (∀ schema t a t', f schema t = Ok (a, t') → R t t') → respects keeps (tenant_call company f).
Proof.
  intros Hf. unfold tenant_call. apply respects_bind; [apply _ | apply respects_lift, _ |]. intros schema. apply remote_keeps.
  intros sh. destruct (f schema (tenant_of schema sh)) as [[a t]|] eqn:E; simpl; [|reflexivity]. apply Hf in E.
  by apply set_tenant_keeps.
Qed.
(** What a statement did, whatever became of its reply: nothing, or its change
    to the tenant's tables as the others left them. *)
Lemma tenant_call_cases {A} company (f : string → tenant → res (A * tenant)) w r w' :
  lawful w → tenant_call company f w = (r, w') → lawful w' ∧
  (on_tenants (w_shared w) (w_shared w') ∨
   ∃ schema sh a t', schema_name company = Ok schema ∧ on_tenants (w_shared w) sh ∧
     f schema (tenant_of schema sh) = Ok (a, t') ∧ w_shared w' = set_tenant schema t' sh).
Proof.
  intros Hl. unfold tenant_call, lift, mbind, M_bind. destruct (schema_name company) as [schema|]; [|intros [= _ <-]; split; [done|by left]].
  unfold remote. set (t := default calm (head (w_turns w))). set (sh := others t (w_shared w)).
  assert (Ho : on_tenants (w_shared w) sh).
  { subst sh t. unfold lawful in Hl. destruct (w_turns w) as [|t ts]; simpl; [done|]. apply Forall_cons in Hl as [Ht _]. apply Ht. }
  assert (Htl : Forall (λ t, ∀ sh, on_tenants sh (others t sh)) (tail (w_turns w))) by (by apply Forall_tail).
  destruct (goes t); [| intros [= _ <-]; split; [done | by left] |];
    (destruct (f schema (tenant_of schema sh)) as [[a t']|] eqn:E; intros [= _ <-]; (split; [done|]); simpl; [right|by left]);
    exists schema, sh, a, t'; done.
Qed.
Lemma change_by_cases company id f w r w' : lawful w → change_by company id f w = (r, w') → lawful w' ∧
  (on_tenants (w_shared w) (w_shared w') ∨
   ∃ schema key sh a t', schema_name company = Ok schema ∧ pg_uuid id = Ok key ∧ on_tenants (w_shared w) sh ∧
     change_model key f (tenant_of schema sh) = Ok (a, t') ∧ w_shared w' = set_tenant schema t' sh).
Proof.
  intros Hl. unfold change_by, lift, mbind, M_bind. destruct (pg_uuid id) as [key|]; [|intros [= _ <-]; split; [done|by left]].
  intros [? [?|(schema & sh & a & t' & ?)]]%tenant_call_cases; [split; [done|by left] | | done].
  split; [done|]. right. exists schema, key, sh, a, t'. naive_solver.
Qed.
(** A statement that only reads. *)
Lemma tenant_read_keeps {A} company (g : string → tenant → A) : respects keeps (tenant_call company (λ s t, Ok (g s t, t))).
Proof. apply tenant_call_keeps. intros ? ? ? ? E. injection E as _ <-. reflexivity. Qed.
End keeps.

Ltac keeping extra := respecting ltac:(first
  [ apply look_keeps; apply _ | apply log_keeps; apply _ | apply logged_keeps; apply _ | apply serving_keeps; apply _
  | apply tenant_read_keeps; apply _ | extra ]).

(** The calls that only read the tables. *)
Section reads.
Context (R : tenant → tenant → Prop) `{!Reflexive R} `{!Transitive R}.

Lemma get_model_keeps company id : respects (keeps R) (get_model_by_id company id).
Proof. unfold get_model_by_id. keeping fail. Qed.
Lemma get_config_keeps company id : respects (keeps R) (get_feature_config_by_id company id).
Proof. unfold get_feature_config_by_id. keeping fail. Qed.
Lemma sensor_ids_keeps company id names : respects (keeps R) (sensor_ids_by_name company id names).
Proof. unfold sensor_ids_by_name. keeping fail. Qed.
Lemma bound_models_keeps company id : respects (keeps R) (models_bound_to_feature_config company id).
Proof. unfold models_bound_to_feature_config. keeping fail. Qed.
End reads.
