(* ===== verification/MlRepositoryProps.v ===== *)
(** * Bound configurations stay fixed

    Over MlRepository: whatever the service's calls do and whoever else obeys the
    tables' rules, a model keeps its configuration and the configuration keeps
    what it computes (ADR-0041). *)

From stdpp Require Import base strings list gmap sets.
From Stdlib Require Import ZArith Lia.
From S2P Require Import Prelude PyText PyNum PyJson Tenancy MlExtensions MlFeatures MlDetectors MlWorld MlRepository MlKeeps.

Local Open Scope nat_scope.

(** Every model is still there with its binding, and a bound configuration with its inputs. *)
Definition t_fixed (t t' : tenant) : Prop := ∀ m r, t_models t !! m = Some r →
  ∃ r', t_models t' !! m = Some r' ∧ m_config r' = m_config r ∧
    ∀ c row, m_config r = Some c → t_configs t !! c = Some row →
      ∃ row', t_configs t' !! c = Some row' ∧ c_inputs row' = c_inputs row.
#[export] Instance t_fixed_refl : Reflexive t_fixed.
Proof. intros t m r H. exists r. split; [done|]. split; [done|]. intros c row _ Hc. by exists row. Qed.
#[export] Instance t_fixed_trans : Transitive t_fixed.
Proof.
  intros t1 t2 t3 H1 H2 m r Hr. destruct (H1 m r Hr) as (r2 & Hr2 & E2 & C2). destruct (H2 m r2 Hr2) as (r3 & Hr3 & E3 & C3).
  exists r3. split; [done|]. split; [congruence|]. intros c row Hc Hrow. destruct (C2 c row Hc Hrow) as (row2 & Hrow2 & I2).
  destruct (C3 c row2) as (row3 & Hrow3 & I3); [congruence|done|]. exists row3. split; [done|congruence].
Qed.
Lemma bound_elem t id m r : t_models t !! m = Some r → m_config r = Some id → (m, r) ∈ bound_models t id.
Proof.
  intros Hm Hc. unfold bound_models. rewrite list_elem_of_In, filter_In, <- list_elem_of_In, elem_of_map_to_list.
  split; [done|]. simpl. by rewrite bool_decide_eq_true.
Qed.

Section rules.
Context (new_id : tenant → string) (fresh : ∀ t, t_models t !! new_id t = None).

Lemma insert_model_fixed r t id t' : insert_model new_id r t = Ok (id, t') → t_fixed t t'.
Proof.
  unfold insert_model. repeat (destruct (negb _); [done|]). destruct (existsb _ _); [done|]. destruct (negb _); [done|].
  intros [= _ <-] m q Hq. exists q. simpl. split.
  - rewrite lookup_insert_ne; [done|]. intros E. rewrite <- E in Hq. by rewrite fresh in Hq.
  - split; [done|]. intros c row _ Hc. by exists row.
Qed.

Lemma change_model_fixed id f t b t' : (∀ r, m_config (f r) = m_config r) → change_model id f t = Ok (b, t') → t_fixed t t'.
Proof.
  unfold change_model. intros Hf. destruct (t_models t !! id) as [r0|] eqn:E; [|by intros [= _ <-]].
  case_bool_decide; [|done]. intros [= _ <-] m r Hr. simpl. destruct (decide (id = m)) as [->|Hne].
  - simplify_eq. exists (f r0). rewrite lookup_insert_eq. split; [done|]. split; [done|]. intros c row _ Hc. by exists row.
  - exists r. rewrite lookup_insert_ne by done. split; [done|]. split; [done|]. intros c row _ Hc. by exists row.
Qed.

Lemma insert_config_fixed c t id t' : (∀ t, t_configs t !! new_id t = None) → insert_config new_id c t = Ok (id, t') → t_fixed t t'.
Proof.
  unfold insert_config. intros Hfr. destruct (existsb _ _); [done|]. intros [= _ <-] m r Hr. exists r. simpl.
  split; [done|]. split; [done|]. intros k row _ Hk. exists row. split; [|done]. rewrite lookup_insert_ne; [done|].
  intros E. rewrite <- E in Hk. by rewrite Hfr in Hk.
Qed.

Lemma change_config_fixed id old new t t' : t_configs t !! id = Some old → change_config id old new t = Ok t' → t_fixed t t'.
Proof.
  unfold change_config. intros Hid. destruct (bool_decide (c_inputs new = c_inputs old)) eqn:E1;
    destruct (bool_decide (bound_models t id = [])) eqn:E2; simpl; try done;
    (destruct (existsb _ _); [done|]); bool_hyps; intros [= <-] m r Hr; exists r; simpl; (split; [done|]); (split; [done|]);
    intros c row Hc Hrow; (destruct (decide (id = c)) as [->|Hne];
      [|exists row; by rewrite lookup_insert_ne]).
  - exists new. rewrite lookup_insert_eq. split; [done|]. by simplify_eq.
  - exists new. rewrite lookup_insert_eq. split; [done|]. by simplify_eq.
  - exfalso. pose proof (bound_elem t c m r Hr Hc) as Hin. rewrite E2 in Hin. by apply not_elem_of_nil in Hin.
Qed.

Lemma remove_config_fixed id t b t' : remove_config id t = Ok (b, t') → t_fixed t t'.
Proof.
  unfold remove_config. destruct (t_configs t !! id) as [c0|]; [|by intros [= _ <-]]. case_bool_decide as E; [|done].
  intros [= _ <-] m r Hr. exists r. simpl. split; [done|]. split; [done|]. intros c row Hc Hrow. exists row. split; [|done].
  rewrite lookup_delete_ne; [done|]. intros <-. pose proof (bound_elem t id m r Hr Hc) as Hin. rewrite E in Hin.
  by apply not_elem_of_nil in Hin.
Qed.
End rules.

(** ** Every call *)

(** Others obey the same rules, and stay obeying. *)
Abbreviation keeps_bound := (keeps t_fixed).

Lemma change_by_keeps company id f : (∀ r, m_config (f r) = m_config r) → respects keeps_bound (change_by company id f).
Proof.
  intros Hf. unfold change_by. keeping ltac:(apply (tenant_call_keeps t_fixed); intros ? ? ? ?; by apply change_model_fixed).
Qed.
Lemma status_keeps company id s : respects keeps_bound (update_model_status company id s).
Proof. unfold update_model_status. keeping ltac:(by apply change_by_keeps). Qed.
Lemma profile_keeps company id p : respects keeps_bound (update_model_reference_profile company id p).
Proof. by apply change_by_keeps. Qed.
Lemma compatibility_keeps company id v : respects keeps_bound (update_model_compatibility company id v).
Proof. by apply change_by_keeps. Qed.
Lemma delete_keeps company id : respects keeps_bound (delete_model company id).
Proof. by apply change_by_keeps. Qed.
Lemma update_config_keeps company id u : respects keeps_bound (update_feature_config company id u).
Proof.
  unfold update_feature_config. destruct (gives_nothing u); [apply get_config_keeps; apply _|].
  apply respects_bind; [apply _ | apply respects_lift, _ |]. intros cid. apply (tenant_call_keeps t_fixed). intros _ t a t' E.
  destruct (t_configs t !! cid) as [old|] eqn:Hc; [|by injection E as _ <-].
  apply res_bind_inv_ok in E as (t1 & E & E1). injection E1 as _ <-. by eapply change_config_fixed.
Qed.
Lemma delete_config_keeps company id : respects keeps_bound (delete_feature_config company id).
Proof.
  unfold delete_feature_config. keeping ltac:(apply (tenant_call_keeps t_fixed); intros ? ? ? ?; apply remove_config_fixed).
Qed.
Section inserts.
Context (new_id : tenant → string).
Class FreshIds : Prop := {
  fresh_model t : t_models t !! new_id t = None;
  fresh_config t : t_configs t !! new_id t = None
}.
Context {F : FreshIds}.

Lemma insert_held_fixed bound r t id t' : insert_held new_id bound r t = Ok (id, t') → t_fixed t t'.
Proof. unfold insert_held. case_match; [done|]. intros (r' & _ & E)%res_bind_inv_ok. by eapply insert_model_fixed; [apply fresh_model|]. Qed.

Lemma create_model_keeps company r bound : respects keeps_bound (create_model new_id company r bound).
Proof.
  unfold create_model. keeping ltac:(apply (tenant_call_keeps t_fixed); intros ? ? ? ? E; by eapply insert_held_fixed).
Qed.
Lemma create_config_keeps company c : respects keeps_bound (create_feature_config new_id company c).
Proof.
  unfold create_feature_config.
  keeping ltac:(apply (tenant_call_keeps t_fixed); intros _ t a t' E; by eapply insert_config_fixed; [apply fresh_config|]).
Qed.
End inserts.
