(* ===== verification/MlAuth.v ===== *)
(** * Who calls the ML service

    services/ml_service/api/auth.py: the caller behind an access token, read again
    from the account and the session store on every request, the writer's gate and
    the caller's tenant; and [inference._resolve_company_id].  [jwt_decode] is
    jose's, None where it raises: the claims of a token signed for this platform. *)

From stdpp Require Import base strings list gmap.
From Stdlib Require Import ZArith Lia Ascii.
From S2P Require Import Prelude PyText PyNum PyJson Tenancy Sessions SqlBinding MlExtensions MlFeatures MlDetectors MlWorld MlLoading MlRepository.

Local Open Scope string_scope.

Record caller := { user_id : string; payload : dict; role : option string; is_superuser : bool }.

Definition WRITER_ROLES : list string := ["engineer"; "admin"].

Definition refuse {A} (status : Z) (detail : string) : M world A := raise (HTTPException status detail).

(** What a request carries: its headers, its cookie. *)
Record credentials := {
  authorization : option string; if_access : option string; internal_service_token : option string
}.

Section auth.
Context (jwt_decode : string → option dict) (py_repr : json → string).

(** [Bearer ] is cut out wherever the header has it. *)
Definition bearer (authorization if_access : option string) : option string :=
  match authorization with
  | Some a => if startswith "Bearer " a then Some (str_replace "Bearer " "" a)
              else if given if_access then if_access else None
  | None => if given if_access then if_access else None
  end.

Definition _usable_account (user : string) : M world (option account) :=
  match uuid_parse user with
  | None => mret None
  | Some uid =>
      a ← look (λ sh, Ok (accounts sh !! uid));
      _ ← log (AccountRead uid a);
      match a with
      | None => mret None
      | Some a =>
          if negb (u_active a) then mret None else
          if bool_decide (is_Some (u_company a)) && negb (u_company_active a) then mret None else
          if u_must_change a then refuse 403 "PASSWORD_CHANGE_REQUIRED" else mret (Some a)
      end
  end.

(** The claim and the account name the same tenant, or neither names one. *)
Definition same_tenant (claim : json) (company : option Z) : bool :=
  bool_decide ((if truthy claim then Some (str_lower (py_str py_repr claim)) else None) = uuid_str <$> company).

(** The session id a token carries: a value that is no text is written as one. *)
Definition session_id (payload : dict) : option string :=
  let sid := jget "sid" payload in if truthy sid then Some (py_str py_repr sid) else None.

Definition verify_jwt_token (authorization if_access : option string) : M world caller :=
  match bearer authorization if_access with
  | None => refuse 401 "Missing or invalid authorization header"
  | Some token =>
      match jwt_decode token with
      | None => refuse 401 "Invalid or expired token"
      | Some payload =>
          match jget "sub" payload with
          | JStr user =>
              if bool_decide (user = "") then refuse 401 "Invalid token payload" else
              a ← catch (_usable_account user)
                        (λ e, match e with
                              | PostgresError _ => refuse 503 "Account store not available"
                              | e => if is_os_error e then refuse 503 "Account store not available" else raise e
                              end);
              match a with
              | None => refuse 401 "User not found or inactive"
              | Some a =>
                  if negb (same_tenant (jget "company_id" payload) (u_company a))
                  then refuse 401 "Token names another tenant than the account" else
                  ended ← catch (look (λ sh, session_ended (ended_store sh) user (session_id payload) (jget "iat" payload) READ_TIMEOUT))
                                (λ e, if bool_decide (e = SystemExit) then raise e else refuse 503 "Session store not available");
                  _ ← log (SessionRead user ended);
                  if ended : bool then refuse 401 "Session ended" else
                  mret {| user_id := user; payload := payload; role := u_role a; is_superuser := u_superuser a |}
              end
          | v => if truthy v then refuse 401 "Invalid or expired token" else refuse 401 "Invalid token payload"
          end
      end
  end.

Definition require_writer (c : caller) : M world caller :=
  if is_superuser c || match role c with Some r => bool_decide (r ∈ WRITER_ROLES) | None => false end
  then mret c else refuse 403 "Required role: engineer or admin; an observer has read-only access".

Definition company_id_of (c : caller) : M world string :=
  let claim := jget "company_id" (payload c) in
  if negb (truthy claim) then refuse 401 "Token carries no tenant" else
  match canonical_company_id (py_str py_repr claim) with
  | Ok company => mret company
  | Err _ => refuse 401 "Token carries an invalid tenant"
  end.

Definition get_company_id (c : credentials) : M world string :=
  u ← verify_jwt_token (authorization c) (if_access c); company_id_of u.

(** [hmac.compare_digest] of texts: both must be ASCII. *)
Definition ascii_only (s : string) : bool := str_all (λ c, Z.ltb (code c) 128) s.

(** [_resolve_company_id]: [internal] is the deployment's token, [body] the
    request's company. *)
Definition _resolve_company_id (internal : option string) (c : credentials) (body : option string) : M world string :=
  if given internal && given (internal_service_token c) &&
     negb (ascii_only (default "" internal) && ascii_only (default "" (internal_service_token c)))
  then raise TypeError else
  if given internal && given (internal_service_token c) && bool_decide (internal_service_token c = internal)
  then if negb (given body) then refuse 400 "company_id required for internal service calls" else
       match canonical_company_id (default "" body) with
       | Ok company => mret company
       | Err _ => refuse 400 "company_id must be a valid UUID"
       end
  else get_company_id c.

(** ** The caller's tenant *)

(** What the stores said of a tenant's caller: an active account of this
    company, itself active, and a session nobody ended. *)
Definition vouched (company : string) (log : list event) : Prop :=
  ∃ uid user a u, uuid_parse user = Some uid ∧ AccountRead uid (Some a) ∈ log ∧ u_active a = true ∧
    u_company a = Some u ∧ company = uuid_str u ∧ u_company_active a = true ∧ u_must_change a = false ∧
    SessionRead user false ∈ log.

(** *** A UUID's text in capitals *)

Definition is_hex (c : ascii) : bool := is_lower_hex (lower c).

Lemma hex_digits_lower s : ∀ acc us, str_all is_hex s = true → hex_digits acc us (str_lower s) = hex_digits acc us s.
Proof.
  induction s as [|c s IH]; intros acc us; simpl; [done|]. intros [Hc Hs]%andb_true_iff.
  assert (Hv : hex_value (lower c) = hex_value c) by (revert Hc; clear; all_chars c).
  assert (H1 : bool_decide (lower c = "_"%char) = false) by (revert Hc; clear; all_chars c).
  assert (H2 : bool_decide (c = "_"%char) = false) by (revert Hc; clear; all_chars c).
  rewrite Hv, H1, H2. destruct (hex_value c); [|done]. by apply IH.
Qed.

Lemma int16_hex s : str_all is_hex s = true → s ≠ "" → int16 s = hex_digits 0 false s.
Proof.
  intros Hs Hne. unfold int16. rewrite strip_id by (eapply str_all_impl; [|done]; intros c; all_chars c).
  destruct s as [|c s]; [done|]. simpl in Hs. apply andb_true_iff in Hs as [Hc Hs].
  assert (hex_prefix (String c s) = String c s) as Hp.
  { destruct s as [|d s]; [by destruct c as [[] [] [] [] [] [] [] []]|].
    simpl in Hs. apply andb_true_iff in Hs as [Hd _]. revert Hd. clear. all_chars c; all_chars d. }
  rewrite Hp. transitivity (hex_body (String c s)); [revert Hc; clear; all_chars c|].
  unfold hex_body. simpl. rewrite bool_decide_false by (intros ->; done). by destruct (hex_value c).
Qed.

Lemma str_lower_length s : String.length (str_lower s) = String.length s.
Proof. induction s; simpl; [done | by f_equal]. Qed.
Lemma str_all_lower (p q : ascii → bool) s : (∀ c, p (lower c) = true → q c = true) → str_all p (str_lower s) = true → str_all q s = true.
Proof.
  intros H. induction s as [|c s IH]; simpl; [done|]. intros [Hc Hs]%andb_true_iff. apply andb_true_iff. split; [by apply H | by apply IH].
Qed.

Lemma uuid_parse_lower s : str_all is_uuid_char (str_lower s) = true → uuid_parse (str_lower s) = uuid_parse s.
Proof.
  intros Hs.
  assert (Hall : ∀ q, (∀ c, is_uuid_char (lower c) = true → q c = true) → str_all q s = true) by (intros q Hq; by eapply str_all_lower).
  unfold uuid_parse.
  assert (Hid : ∀ t, str_all (λ c, negb (bool_decide (c = "u"%char))) t = true → str_all (λ c, negb (is_brace c)) t = true →
    strip is_brace (str_replace "uuid:" "" (str_replace "urn:" "" t)) = t).
  { intros t Ht Hb. rewrite (str_replace_id _ "rn:") by done. rewrite str_replace_id by done. by apply strip_id. }
  rewrite Hid, Hid.
  2, 3: apply Hall; intros c; all_chars c.
  2, 3: eapply str_all_impl; [|exact Hs]; intros c; all_chars c.
  assert (Hr : ∀ t, str_remove "-" (str_lower t) = str_lower (str_remove "-" t)).
  { induction t as [|c t IH]; simpl; [done|]. rewrite IH.
    assert (Hc : bool_decide (lower c = "-"%char) = bool_decide (c = "-"%char)) by all_chars c. rewrite Hc. by destruct (bool_decide (c = "-"%char)). }
  rewrite Hr. set (t := str_remove "-" s). assert (Ht : str_all is_hex t = true).
  { assert (Hx : str_all (λ c, is_uuid_char (lower c)) s = true) by (by apply Hall). subst t. clear -Hx.
    induction s as [|c s IH]; simpl in *; [done|]. apply andb_true_iff in Hx as [Hc Hx].
    destruct (bool_decide (c = "-"%char)) eqn:E; [by apply IH|]. simpl. rewrite (IH Hx), andb_true_r.
    revert Hc E. clear. all_chars c. }
  rewrite str_lower_length. destruct (String.length t =? 32)%nat eqn:El; [|done].
  assert (Hne : t ≠ "") by (intros Ht0; rewrite Ht0 in El; done).
  assert (Hl : str_all is_hex (str_lower t) = true).
  { clear -Ht. induction t as [|c t IH]; simpl in *; [done|]. apply andb_true_iff in Ht as [Hc Ht]. rewrite (IH Ht), andb_true_r.
    revert Hc. clear. all_chars c. }
  rewrite (int16_hex t), (int16_hex (str_lower t)), hex_digits_lower by (done || by destruct t). done.
Qed.

Lemma hex_fixed_mod n : ∀ z, hex_fixed n (z mod 16 ^ Z.of_nat n)%Z = hex_fixed n z.
Proof.
  induction n as [|n IH]; intros z; [done|]. simpl hex_fixed. rewrite Nat2Z.inj_succ, Z.pow_succ_r by lia.
  rewrite Z.rem_mul_r by lia.
  assert (Hm := Z.mod_pos_bound z 16 ltac:(lia)).
  set (q := ((z / 16) mod 16 ^ Z.of_nat n)%Z).
  replace ((z mod 16 + 16 * q) / 16)%Z with q by (apply Z.div_unique with (z mod 16)%Z; lia).
  replace ((z mod 16 + 16 * q) mod 16)%Z with (z mod 16)%Z by (apply Z.mod_unique with q; lia).
  subst q. by rewrite IH.
Qed.

Lemma uuid_str_parse u : ∃ v, uuid_parse (uuid_str u) = Some v ∧ uuid_str v = uuid_str u.
Proof.
  exists (u mod uuid_bound)%Z. assert (E : uuid_str (u mod uuid_bound) = uuid_str u).
  { unfold uuid_str, uuid_bound. f_equal. exact (hex_fixed_mod 32 u). }
  split; [|done]. rewrite <- E. apply uuid_parse_str, Z.mod_pos_bound. done.
Qed.

Lemma look_log {A} (f : shared → res A) w r w' : look f w = (r, w') → w_log w' = w_log w.
Proof. unfold look, remote. destruct (goes _); by intros [= _ <-]. Qed.

Lemma usable_account_spec user w a w' : _usable_account user w = (Ok (Some a), w') →
  ∃ uid, uuid_parse user = Some uid ∧ AccountRead uid (Some a) ∈ w_log w' ∧ u_active a = true ∧
    (is_Some (u_company a) → u_company_active a = true) ∧ u_must_change a = false.
Proof.
  unfold _usable_account. destruct (uuid_parse user) as [uid|]; [|done].
  intros (o & w1 & _ & (u & w2 & E2 & E)%bind_inv_ok)%bind_inv_ok. injection E2 as _ <-. exists uid.
  destruct o as [b|]; [|done]. destruct (u_active b) eqn:Ea; [|done]. simpl in E.
  destruct (bool_decide (is_Some (u_company b)) && negb (u_company_active b)) eqn:Ec; [done|].
  destruct (u_must_change b) eqn:Em; [done|]. injection E as <- <-. split_and!; try done.
  - simpl. apply elem_of_app. right. by left.
  - intros Hc. apply andb_false_iff in Ec as [Ec|Ec]; bool_hyps; done.
Qed.

Lemma verify_spec authorization if_access w c w' : verify_jwt_token authorization if_access w = (Ok c, w') →
  ∃ uid a, uuid_parse (user_id c) = Some uid ∧ AccountRead uid (Some a) ∈ w_log w' ∧ u_active a = true ∧
    (is_Some (u_company a) → u_company_active a = true) ∧ u_must_change a = false ∧
    same_tenant (jget "company_id" (payload c)) (u_company a) = true ∧ SessionRead (user_id c) false ∈ w_log w' ∧
    role c = u_role a ∧ is_superuser c = u_superuser a.
Proof.
  unfold verify_jwt_token. destruct (bearer _ _) as [token|]; [|done]. destruct (jwt_decode token) as [p|]; [|done].
  destruct (jget "sub" p) as [|[]|z|f|user|l|d]; try (by case_match); try done. case_bool_decide; [done|].
  intros (o & w1 & E1 & E)%bind_inv_ok. destruct o as [a|]; [|done].
  unfold catch in E1. destruct (_usable_account user w) as [[o|e] w2] eqn:Eu.
  2: { exfalso. destruct e; try done; simpl in E1; by destruct (is_os_error _). }
  injection E1 as -> <-. destruct (usable_account_spec _ _ _ _ Eu) as (uid & Hp & Hlog & Ha & Hc & Hm).
  destruct (same_tenant _ _) eqn:Es; [|done]. simpl in E. apply bind_inv_ok in E as (ended & w3 & E3 & E).
  apply bind_inv_ok in E as (u & w4 & E4 & E). injection E4 as _ <-. destruct ended; [done|]. injection E as <- <-.
  assert (Hl : w_log w3 = w_log w2).
  { unfold catch in E3. destruct (look _ w2) as [[x|e] w5] eqn:El; [injection E3 as _ <-; by eapply look_log|].
    destruct (bool_decide (e = SystemExit)); done. }
  exists uid, a. simpl. rewrite Hl. split_and!; try done.
  - apply elem_of_app. by left.
  - apply elem_of_app. right. by left.
Qed.

(** The account behind a caller and the tenant read off its token agree. *)
Lemma caller_vouched authorization if_access w c w1 w2 company w3 :
  verify_jwt_token authorization if_access w = (Ok c, w1) → company_id_of c w2 = (Ok company, w3) →
  canonical company ∧ w3 = w2 ∧ ∃ uid a u, uuid_parse (user_id c) = Some uid ∧ AccountRead uid (Some a) ∈ w_log w1 ∧
    u_active a = true ∧ u_company a = Some u ∧ company = uuid_str u ∧ u_company_active a = true ∧ u_must_change a = false ∧
    SessionRead (user_id c) false ∈ w_log w1 ∧ role c = u_role a ∧ is_superuser c = u_superuser a.
Proof.
  intros E1 E. destruct (verify_spec _ _ _ _ _ E1) as (uid & a & Hp & Hlog & Ha & Hc & Hm & Hs & He & Hr & Hsu).
  unfold company_id_of, refuse in E.
  destruct (truthy (jget "company_id" (payload c))) eqn:Et; [|done]. simpl in E.
  destruct (canonical_company_id _) as [co|e] eqn:Eco; [|done]. injection E as <- <-.
  split; [by eapply canonical_idem|]. split; [done|]. unfold same_tenant in Hs. rewrite Et in Hs. bool_hyps.
  destruct (u_company a) as [u|] eqn:Eu; [|done]. simpl in Hs. injection Hs as Hs.
  exists uid, a, u. split_and!; try done; [|by apply Hc].
  apply canonical_inv in Eco as (v & Hv & _ & ->). destruct (uuid_str_parse u) as (v' & Hv' & <-).
  rewrite <- uuid_parse_lower, Hs, Hv' in Hv by (rewrite Hs; apply uuid_str_chars). by simplify_eq.
Qed.

(** A request's tenant is never the request's own word: it is the company of an
    active account, itself active, that the account store named for the token's
    subject, in a session the session store says nobody ended. *)
Lemma tenant_is_the_accounts cr w company w' : get_company_id cr w = (Ok company, w') →
  canonical company ∧ vouched company (w_log w').
Proof.
  unfold get_company_id. intros (c & w1 & E1 & E)%bind_inv_ok.
  destruct (caller_vouched _ _ _ _ _ _ _ _ E1 E) as (Hc & -> & uid & a & u & H). split; [done|].
  exists uid, (user_id c), a, u. naive_solver.
Qed.

(** A tenant's writer: its account may write, or is a superuser. *)
Definition writer_vouched (company : string) (log : list event) : Prop :=
  ∃ uid user a u, uuid_parse user = Some uid ∧ AccountRead uid (Some a) ∈ log ∧ u_active a = true ∧
    u_company a = Some u ∧ company = uuid_str u ∧ u_company_active a = true ∧ SessionRead user false ∈ log ∧
    (u_superuser a = true ∨ ∃ r, u_role a = Some r ∧ r ∈ WRITER_ROLES).
Lemma require_writer_spec c w c' w' : require_writer c w = (Ok c', w') →
  c' = c ∧ w' = w ∧ (is_superuser c = true ∨ ∃ r, role c = Some r ∧ r ∈ WRITER_ROLES).
Proof.
  unfold require_writer, refuse. case_match eqn:E; [|done]. intros [= <- <-]. split_and!; [done..|].
  apply orb_true_iff in E as [E|E]; [by left|right]. destruct (role c) as [r|]; [|done]. bool_hyps. by exists r.
Qed.
End auth.
