(* ===== verification/MlServing.v ===== *)
(** * Scoring a reading

    services/ml_service/api/routers/inference.py: [detector_for] and [predict],
    over the caller's tenant (MlAuth), the tables (MlRepository), the models
    (MlLoading), the features (MlFeatures) and the detectors (MlDetectors). *)

From stdpp Require Import base strings list gmap.
From Stdlib Require Import ZArith Lia.
From S2P Require Import Prelude PyText PyNum PyJson Tenancy SqlBinding MlExtensions MlFeatures MlDetectors MlWorld MlTrust MlLoading MlRepository MlAuth.

Local Open Scope string_scope.

Record InferenceRequest := { model_id : string; sensor_data : dict; threshold : float; q_company_id : option string }.
Record InferenceResponse := {
  a_model_id : string; a_prediction : float; a_is_anomaly : bool; a_threshold : float; a_model_version : string;
  a_degraded : bool; a_neutralized_features : list string
}.

(** A deployment: its settings, its extensions, and what it calls. *)
Record deployment := {
  jwt_decode : string → option dict;
  json_loads : string → res json;
  py_repr : json → string;
  py_pow : float → json → res feature;
  switch_ttl : Z; baseline_ttl : Z; baseline_max : nat;
  has_provider : bool; has_switch : bool;
  extra_transforms : string → option (entry serving);
  detectors : list (string * detector);
  bucket : string; build : artifact → loader_call → res model; model_max : nat;
  internal_token : option string
}.

Section serving.
Context (D : deployment).

Definition load_model_checked (company : string) (r : model_row) : M world model :=
  load_model_or_refuse (py_repr D) (bucket D) (build D) (model_max D) company r.

Definition engine_for (company : string) (config : feature_config) (data : dict) : res FeatureEngineeringEngine :=
  engine_init (py_repr D) (py_pow D) (baseline_ttl D) (baseline_max D) (extra_transforms D) config
    {| baseline_provider := has_provider D; ctx_equipment_id := jget "equipment_id" data; ctx_company_id := company |}
    (has_switch D).
Definition transform_on (e : FeatureEngineeringEngine) (data : dict) : M world engineered :=
  on_serving (transform (py_repr D) (py_pow D) (switch_ttl D) (baseline_ttl D) (baseline_max D) (extra_transforms D) e data).

(** The detector the record names: refused, never assumed. *)
Definition detector_for (r : model_row) : res detector :=
  if negb (given (m_detector r)) then Err (HTTPException 422 "model records no detector") else
  or_raise (HTTPException 500 "Unknown anomaly detector") (get_detector (default "" (m_detector r)) (detectors D)).

(** [model_data.get("training_metrics") or {}], a text of it decoded, and its scale. *)
Definition scale_of (metrics : json) : res json :=
  let v := if truthy metrics then metrics else JDict [] in
  v ← (match v with JStr s => json_loads D s | v => Ok v end : res json);
  match v with JDict d => Ok (jget "reconstruction_scale" d) | _ => Err AttributeError end.

Definition SERVING : list string := ["production"; "active"].

(** Everything after the checks on the record, whose refusals are answers and
    whose other failures are not told apart. *)
Definition is_refusal (e : exn) : bool :=
  match e with MissingSensors _ | InvalidFeature | UnknownTransform _ => true | _ => false end.
Definition scored (company : string) (q : InferenceRequest) (row : model_row) (d : detector) : M world InferenceResponse :=
  m ← load_model_checked company row;
  if negb (given (m_config row)) then refuse 400 "Model has no feature_config_id" else
  c ← get_feature_config_by_id company (default "" (m_config row));
  match c with
  | None => refuse 404 "Feature config not found"
  | Some c =>
      e ← lift (engine_for company (c_inputs c) (sensor_data q));
      out ← transform_on e (sensor_data q);
      let neutralized := (neutralized_features out ++ unavailable_features out)%list in
      scale ← lift (scale_of (m_training_metrics row));
      result ← catch (lift (d_fn d (vector out) m (threshold q)
                              {| d_equipment_id := jget "equipment_id" (sensor_data q); reconstruction_scale := scale |}))
                     (λ e, if bool_decide (e = UninterpretableModel) then refuse 422 "output cannot be interpreted" else raise e);
      mret {| a_model_id := model_id q; a_prediction := score result; a_is_anomaly := is_anomaly result;
              a_threshold := threshold q; a_model_version := str_of_Z (m_version row);
              a_degraded := negb (bool_decide (neutralized = [])); a_neutralized_features := neutralized |}
  end.

Definition answer_failure {A} (e : exn) : M world A :=
  if is_refusal e then refuse 422 "the reading or the configuration cannot be scored" else
  match e with
  | HTTPException _ _ | SystemExit => raise e
  | _ => refuse 500 "Inference failed"
  end.

Definition predict (cr : credentials) (q : InferenceRequest) : M world InferenceResponse :=
  company ← _resolve_company_id (jwt_decode D) (py_repr D) (internal_token D) cr (q_company_id q);
  row ← get_model_by_id company (model_id q);
  match row with
  | None => refuse 404 "Model not found"
  | Some row =>
      if negb (bool_decide (m_status row ∈ SERVING)) then refuse 400 "Model is not deployed" else
      d ← lift (detector_for row);
      catch (scored company q row d) answer_failure
  end.
End serving.
