(* ===== verification/MlServingProps.v ===== *)
(** * What an answered score is

    Over MlServing: a score is answered only to a caller the stores vouch for (or
    an internal call), of a deployed model of that caller's own tenant, from a
    complete reading, by the detector the record names, and says when its input
    was degraded. *)

From stdpp Require Import base strings list gmap sets.
From Stdlib Require Import ZArith Lia.
From S2P Require Import Prelude PyText PyNum PyJson Tenancy SqlBinding MlExtensions MlFeatures MlFeatureProps MlDetectors MlWorld MlTrust MlLoading MlLoadProps MlRepository MlRepositoryProps MlAuth MlServing.

Local Open Scope nat_scope.

(** ** The history only grows *)

Definition grows (w w' : world) : Prop := ∃ l, w_log w' = (w_log w ++ l)%list.
#[export] Instance grows_refl : Reflexive grows.
Proof. intros w. exists []. by rewrite app_nil_r. Qed.
#[export] Instance grows_trans : Transitive grows.
Proof. intros a b c [l Hl] [k Hk]. exists (l ++ k)%list. by rewrite Hk, Hl, app_assoc. Qed.

Lemma grows_elem w w' e : grows w w' → e ∈ w_log w → e ∈ w_log w'.
Proof. intros [l ->] H. apply elem_of_app. by left. Qed.

Lemma remote_same_log {A} (f : shared → res A * shared) w : w_log (final (remote f) w) = w_log w.
Proof. unfold remote, final. by destruct (goes _). Qed.
Lemma remote_grows {A} (f : shared → res A * shared) : respects grows (remote f).
Proof. intros w. exists []. by rewrite remote_same_log, app_nil_r. Qed.
Lemma look_grows {A} (f : shared → res A) : respects grows (look f).
Proof. apply remote_grows. Qed.
Lemma log_grows e : respects grows (log e).
Proof. intros w. by exists [e]. Qed.
Lemma logged_grows e : respects grows (modify (logged e)).
Proof. apply log_grows. Qed.
Lemma modify_grows (f : world → world) : (∀ w, w_log (f w) = w_log w) → respects grows (modify f).
Proof. intros H w. exists []. by rewrite app_nil_r. Qed.
Lemma serving_grows {A} (m : M serving A) : respects grows (on_serving m).
Proof. intros w. exists []. unfold final, on_serving, zoom. destruct (m _). simpl. by rewrite app_nil_r. Qed.
Lemma tenant_call_grows {A} company (f : string → tenant → res (A * tenant)) : respects grows (tenant_call company f).
Proof. unfold tenant_call. respecting ltac:(apply remote_grows). Qed.
Ltac growing extra := respecting ltac:(first
  [ apply look_grows | apply log_grows | apply logged_grows | apply serving_grows | apply tenant_call_grows | extra ]).

Lemma get_model_grows company id : respects grows (get_model_by_id company id).
Proof. unfold get_model_by_id. growing fail. Qed.
Lemma get_config_grows company id : respects grows (get_feature_config_by_id company id).
Proof. unfold get_feature_config_by_id. growing fail. Qed.

(** ** What the reads answered *)

Lemma get_model_spec company id w r w' : get_model_by_id company id w = (Ok (Some r), w') →
  ∃ schema key, schema_name company = Ok schema ∧ pg_uuid id = Ok key ∧ ModelRead schema key r ∈ w_log w'.
Proof.
  unfold get_model_by_id. intros (schema & w1 & [Hs ->]%lift_inv & (key & w2 & [Hk ->]%lift_inv & (o & w3 & _ & E)%bind_inv_ok)%bind_inv_ok)%bind_inv_ok.
  apply bind_inv_ok in E as (u & w4 & E & E'). injection E' as -> <-. injection E as _ <-.
  exists schema, key. split_and!; [done..|]. simpl. apply elem_of_app. right. by left.
Qed.
Lemma get_config_spec company id w c w' : get_feature_config_by_id company id w = (Ok (Some c), w') →
  ∃ schema key, schema_name company = Ok schema ∧ pg_uuid id = Ok key ∧ ConfigRead schema key c ∈ w_log w'.
Proof.
  unfold get_feature_config_by_id. intros (schema & w1 & [Hs ->]%lift_inv & (key & w2 & [Hk ->]%lift_inv & (o & w3 & _ & E)%bind_inv_ok)%bind_inv_ok)%bind_inv_ok.
  apply bind_inv_ok in E as (u & w4 & E & E'). injection E' as -> <-. injection E as _ <-.
  exists schema, key. split_and!; [done..|]. simpl. apply elem_of_app. right. by left.
Qed.

(** ** A process's invariant *)

Section process.
Context (D : deployment).
Context (Hbucket : bar_free (bucket D) = true) (Hsw : (0 <= switch_ttl D)%Z) (Hbl : (0 <= baseline_ttl D)%Z).
Context {HX : Extensions (switch_ttl D) (baseline_ttl D) (baseline_max D) (extra_transforms D)}.

Record process_ok (w : world) : Prop := {
  ok_serving : serving_inv (switch_ttl D) (baseline_ttl D) (baseline_max D) (w_serving w);
  ok_loads : loads_inv (bucket D) (build D) (model_max D) w
}.

(** A step that opens and loads nothing, and leaves the serving state alone. *)
Definition plain (w w' : world) : Prop := w_serving w' = w_serving w ∧ extends w w'.
#[export] Instance plain_refl : Reflexive plain.
Proof. intros w. split; [done|]. split; [done|]. exists []. by rewrite app_nil_r. Qed.
#[export] Instance plain_trans : Transitive plain.
Proof.
  intros a b c [E1 [C1 (l & L1 & F1)]] [E2 [C2 (k & L2 & F2)]]. split; [congruence|]. split; [congruence|].
  exists (l ++ k)%list. rewrite L2, L1, app_assoc. split; [done|]. by apply Forall_app.
Qed.
Lemma plain_ok w w' : plain w w' → process_ok w → process_ok w'.
Proof. intros [E X] [H1 H2]. split; [by rewrite E | by eapply extends_inv]. Qed.
Lemma plain_grows w w' : plain w w' → grows w w'.
Proof. intros [_ [_ (l & H & _)]]. by exists l. Qed.

Lemma remote_plain {A} (f : shared → res A * shared) : respects plain (remote f).
Proof. intros w. unfold remote, final. destruct (goes _); simpl; (split; [done|]; split; [done|]); exists []; by rewrite app_nil_r. Qed.
Lemma look_plain {A} (f : shared → res A) : respects plain (look f).
Proof. apply remote_plain. Qed.
Lemma log_plain e : ok_event e → respects plain (log e).
Proof. intros H w. split; [done|]. split; [done|]. exists [e]. split; [done|]. by repeat constructor. Qed.
Lemma tenant_call_plain {A} company (f : string → tenant → res (A * tenant)) : respects plain (tenant_call company f).
Proof. unfold tenant_call. respecting ltac:(apply remote_plain). Qed.
Ltac plainly extra := respecting ltac:(first
  [ apply look_plain | apply log_plain; exact I | apply tenant_call_plain | extra ]).

Lemma get_model_plain company id : respects plain (get_model_by_id company id).
Proof. unfold get_model_by_id. plainly fail. Qed.
Lemma get_config_plain company id : respects plain (get_feature_config_by_id company id).
Proof. unfold get_feature_config_by_id. plainly fail. Qed.
Lemma verify_plain a i : respects plain (verify_jwt_token (jwt_decode D) (py_repr D) a i).
Proof. unfold verify_jwt_token, _usable_account, refuse. plainly fail. Qed.
Lemma resolve_plain cr body : respects plain (_resolve_company_id (jwt_decode D) (py_repr D) (internal_token D) cr body).
Proof. unfold _resolve_company_id, get_company_id, company_id_of, refuse. plainly ltac:(apply verify_plain). Qed.

(** The tenant of a request: an internal call's, or the vouched caller's. *)
Definition tenant_established (cr : credentials) (body : option string) (company : string) (log : list event) : Prop :=
  canonical company ∧
  ((given (internal_token D) = true ∧ internal_service_token cr = internal_token D ∧
    canonical_company_id (default "" body)%string = Ok company) ∨ vouched company log).

Lemma resolve_spec cr body w company w' :
  _resolve_company_id (jwt_decode D) (py_repr D) (internal_token D) cr body w = (Ok company, w') →
  tenant_established cr body company (w_log w').
Proof.
  unfold _resolve_company_id. destruct (_ && negb _); [done|].
  destruct (given (internal_token D) && given (internal_service_token cr) && bool_decide _) eqn:Ei.
  - bool_hyps. destruct (negb (given body)); [done|]. destruct (canonical_company_id _) as [c|] eqn:Ec; [|done].
    intros [= <- <-]. split; [by eapply canonical_idem|]. left. by split_and!.
  - intros [Hc Hv]%tenant_is_the_accounts. split; [done|]. by right.
Qed.

(** Loading leaves the serving state alone. *)
Definition loading (w w' : world) : Prop := w_serving w' = w_serving w ∧ grows w w'.
#[export] Instance loading_refl : Reflexive loading.
Proof. intros w. split; done || reflexivity. Qed.
#[export] Instance loading_trans : Transitive loading.
Proof. intros a b c [E1 G1] [E2 G2]. split; [congruence | by etrans]. Qed.
Lemma look_loading {A} (f : shared → res A) : respects loading (look f).
Proof. intros w. destruct (look_plain f w) as [E X]. split; [done|]. by apply plain_grows. Qed.
Lemma modify_loading (f : world → world) : (∀ w, w_serving (f w) = w_serving w ∧ grows w (f w)) → respects loading (modify f).
Proof. intros H w. apply H. Qed.
Lemma logged_loading e : respects loading (modify (logged e)).
Proof. apply modify_loading. intros w. split; [done|]. by exists [e]. Qed.
Lemma cached_loading (f : world → list (string * model)) : respects loading (modify (λ w, with_warm (f w) w)).
Proof. apply modify_loading. intros w. split; [done|]. exists []. by rewrite app_nil_r. Qed.

Lemma load_loading ad : respects loading (load (py_repr D) (bucket D) (build D) ad).
Proof.
  unfold load, check_admissible, _run_owned_by, experiment_of, model_uri_for, resolve_model_uri, load_pyfunc,
    download_artifacts, _load_local_skops, _load_local_xgboost, open.
  respecting ltac:(first [apply look_loading | apply logged_loading]).
Qed.
Lemma load_for_loading company row : respects loading (load_model_for (py_repr D) (bucket D) (build D) (model_max D) company row).
Proof.
  unfold load_model_for, get_or_load.
  respecting ltac:(first [apply load_loading | apply (cached_loading (λ w, _))]).
Qed.

Lemma load_checked_spec company row w r w' : canonical company → process_ok w →
  load_model_checked D company row w = (r, w') →
  process_ok w' ∧ grows w w' ∧ ∀ m, r = Ok m → shown (bucket D) (address_of company row) (w_log w') ∧
    served_from (build D) (address_of company row) m (w_log w').
Proof.
  intros Hcan [Hs Hl]. unfold load_model_checked, load_model_or_refuse, catch.
  destruct (load_model_for _ _ _ _ company row w) as [o w1] eqn:E.
  destruct (load_for_spec _ _ _ _ company row w o w1 Hbucket Hcan Hl E) as [Hl1 Hm].
  assert (G : loading w w1).
  { replace w1 with (final (load_model_for (py_repr D) (bucket D) (build D) (model_max D) company row) w) by (unfold final; by rewrite E).
    apply load_for_loading. }
  assert (P1 : process_ok w1). { split; [|done]. destruct G as [-> _]. done. }
  intros Hr. assert (w' = w1 ∧ (∀ m, r = Ok m → o = Ok m)) as [-> Ho].
  { destruct o as [m|e]; [injection Hr as <- <-; by split|]. destruct e; injection Hr as <- <-; by split. }
  split_and!; [done | apply G |]. intros m ->%Ho. by apply Hm.
Qed.

(** ** Scoring *)

Abbreviation slots_of := (slot (switch_ttl D) (baseline_ttl D) (baseline_max D) (py_repr D) (py_pow D) (extra_transforms D)).

(** What a score is of: the model loaded for the tenant and the record, a complete
    reading of the record's configuration, one honest slot per transformation,
    and the record's own detector; degraded when a slot is not its own. *)
Record score_of (company schema : string) (row : model_row) (q : InferenceRequest) (log : list event) (resp : InferenceResponse) : Prop := {
  so_model : ∃ m cid c on slots d scale result,
    shown (bucket D) (address_of company row) log ∧ served_from (build D) (address_of company row) m log ∧
    ConfigRead schema cid c ∈ log ∧ pg_uuid (default "" (m_config row))%string = Ok cid ∧
    (∀ n, n ∈ base_sensors (c_inputs c) → present (sensor_data q) (JStr n)) ∧
    (∃ e, engine_for D company (c_inputs c) (sensor_data q) = Ok e ∧
       Forall2 (slots_of e (sensor_data q) on) (transformations (c_inputs c)) slots) ∧
    a_neutralized_features resp = (filled Neutralized (transformations (c_inputs c)) slots ++
                                   filled Unavailable (transformations (c_inputs c)) slots)%list ∧
    get_detector (default "" (m_detector row))%string (detectors D) = Some d ∧
    d_fn d (map snd slots) m (threshold q)
      {| d_equipment_id := jget "equipment_id" (sensor_data q); reconstruction_scale := scale |} = Ok result ∧
    a_prediction resp = score result ∧ a_is_anomaly resp = is_anomaly result;
  so_degraded : a_degraded resp = true ↔ a_neutralized_features resp ≠ []
}.

Lemma base_required config data company e n : engine_for D company config data = Ok e → n ∈ base_sensors config →
  JStr n ∈ required_sensors e ∧ e_config e = config.
Proof.
  unfold engine_for, engine_init. intros (named & _ & H)%res_bind_inv_ok. destruct (negb _); [done|].
  destruct (base.filter _ _); [|done]. injection H as <-. simpl. intros Hn. split; [|done].
  assert (Hf : ∀ l seen, JStr n ∈ l → n ∉ seen → JStr n ∈ fromkeys seen l).
  { clear. induction l as [|v l IH]; intros seen; [by intros ?%not_elem_of_nil|]. intros [<-|H]%elem_of_cons Hs; simpl.
    - rewrite bool_decide_false by done. left.
    - destruct v; try (right; by apply IH). case_bool_decide; [by apply IH|].
      destruct (decide (n = s)) as [->|Hne]; [left|]. right. apply IH; [done|]. set_solver. }
  apply Hf; [|set_solver]. apply elem_of_app. left. apply list_elem_of_fmap. by exists n.
Qed.

Lemma transform_on_spec e data w r w' : process_ok w → transform_on D e data w = (r, w') →
  process_ok w' ∧ w_log w' = w_log w ∧ ∀ out, r = Ok out → Forall (present data) (required_sensors e) ∧
    ∃ on slots, Forall2 (slots_of e data on) (transformations (e_config e)) slots ∧ vector out = map snd slots ∧
      neutralized_features out = filled Neutralized (transformations (e_config e)) slots ∧
      unavailable_features out = filled Unavailable (transformations (e_config e)) slots.
Proof.
  intros [Hs Hl]. unfold transform_on, on_serving, zoom.
  destruct (transform _ _ _ _ _ _ e data (w_serving w)) as [o s'] eqn:E. intros [= <- <-].
  destruct (transform_slots _ _ _ _ _ _ Hsw Hbl e data _ _ _ Hs E) as [Hs' Ho]. split_and!; [|done|].
  - split; [done|]. eapply extends_inv; [|exact Hl]. split; [done|]. exists []. by rewrite app_nil_r.
  - intros out ->. destruct (Ho out eq_refl) as (Hp & on & slots & _ & ?). split; [done|]. by exists on, slots.
Qed.

Lemma scored_spec company q row d w r w' : canonical company → process_ok w →
  detector_for D row = Ok d → scored D company q row d w = (r, w') →
  process_ok w' ∧ ∀ resp, r = Ok resp → grows w w' ∧ ∃ schema, schema_name company = Ok schema ∧
    score_of company schema row q (w_log w') resp.
Proof.
  intros Hcan P Hd. unfold scored. unfold mbind at 1, M_bind at 1.
  destruct (load_model_checked D company row w) as [[m|e] w1] eqn:E1;
    destruct (load_checked_spec _ _ _ _ _ Hcan P E1) as (P1 & G1 & L1); [|by intros [= <- <-]].
  destruct (L1 m eq_refl) as (Hsh & Hlo). clear L1.
  destruct (given (m_config row)); simpl; [|by intros [= <- <-]]. unfold mbind at 1, M_bind at 1.
  destruct (get_feature_config_by_id company _ w1) as [[oc|e] w2] eqn:E2;
    assert (X2 : plain w1 w2) by (pose proof (get_config_plain company (default "" (m_config row))%string w1) as X;
      unfold final in X; by rewrite E2 in X);
    pose proof (plain_ok _ _ X2 P1) as P2; [|by intros [= <- <-]].
  destruct oc as [c|]; [|by intros [= <- <-]]. destruct (get_config_spec _ _ _ _ _ E2) as (schema & cid & Hsn & Hcid & Hcr).
  unfold lift. unfold mbind at 1, M_bind at 1. destruct (engine_for D company (c_inputs c) (sensor_data q)) as [eng|e] eqn:Ee; [|by intros [= <- <-]].
  unfold mbind at 1, M_bind at 1. destruct (transform_on D eng (sensor_data q) w2) as [[out|e] w3] eqn:E3;
    destruct (transform_on_spec _ _ _ _ _ P2 E3) as (P3 & Hl3 & T3); [|by intros [= <- <-]].
  destruct (T3 out eq_refl) as (Hpres & on & slots & Hslots & Hvec & Hneu & Hun). clear T3.
  unfold mbind at 1, M_bind at 1. destruct (scale_of D (m_training_metrics row)) as [scale|e]; [|by intros [= <- <-]].
  unfold mbind, M_bind, catch. destruct (d_fn d _ _ _ _) as [result|e] eqn:Er.
  2: { destruct (bool_decide _); intros [= <- <-]; by split. }
  intros [= <- <-]. split; [done|]. intros resp [= <-]. pose proof (plain_grows _ _ X2) as G2.
  split; [etrans; [exact G1|]; etrans; [exact G2|]; exists []; by rewrite Hl3, app_nil_r|].
  exists schema. split; [done|]. rewrite Hl3.
  assert (Hcfg : e_config eng = c_inputs c).
  { unfold engine_for, engine_init in Ee. apply res_bind_inv_ok in Ee as (nm & _ & Ee). destruct (negb _); [done|].
    destruct (base.filter _ _); [|done]. by injection Ee as <-. }
  rewrite Hcfg in *. split; simpl.
  - exists m, cid, c, on, slots, d, scale, result. unfold detector_for in Hd. destruct (negb _); [done|].
    rewrite <- Hvec, Hneu, Hun. split_and!; try done.
    + destruct G2 as [l ->]. by apply shown_mono.
    + destruct G2 as [l ->]. by apply served_mono.
    + intros n Hn. destruct (base_required _ _ _ _ _ Ee Hn) as [Hin _]. rewrite Forall_forall in Hpres. by apply Hpres.
    + by exists eng.
    + by destruct (get_detector _ _); [injection Hd as ->|].
  - rewrite negb_true_iff, bool_decide_eq_false. done.
Qed.

(** C5: A score is answered only for a tenant established by the stores or by the
    deployment's own service, of a model of that tenant that is deployed, and
    for what [score_of] says: the model its record addresses, loaded for this
    tenant, a complete reading, and the record's own detector, degraded exactly
    when a slot is named.  Whatever is answered, the process keeps its
    invariant. *)
Theorem answered_score cr q w r w' : process_ok w → predict D cr q w = (r, w') →
  process_ok w' ∧ ∀ resp, r = Ok resp → ∃ company schema key row,
    tenant_established cr (q_company_id q) company (w_log w') ∧ schema_name company = Ok schema ∧
    pg_uuid (model_id q) = Ok key ∧ ModelRead schema key row ∈ w_log w' ∧ m_status row ∈ SERVING ∧
    score_of company schema row q (w_log w') resp.
Proof.
  intros P. unfold predict. unfold mbind at 1, M_bind at 1.
  destruct (_resolve_company_id _ _ _ cr _ w) as [[company|e] w1] eqn:E1;
    assert (X1 : plain w w1) by (pose proof (resolve_plain cr (q_company_id q) w) as X; unfold final in X; by rewrite E1 in X);
    pose proof (plain_ok _ _ X1 P) as P1; [|by intros [= <- <-]].
  pose proof (resolve_spec _ _ _ _ _ E1) as Hten. unfold mbind at 1, M_bind at 1.
  destruct (get_model_by_id company (model_id q) w1) as [[o|e] w2] eqn:E2;
    assert (X2 : plain w1 w2) by (pose proof (get_model_plain company (model_id q) w1) as X; unfold final in X; by rewrite E2 in X);
    pose proof (plain_ok _ _ X2 P1) as P2; [|by intros [= <- <-]].
  destruct o as [row|]; [|by intros [= <- <-]]. destruct (get_model_spec _ _ _ _ _ E2) as (schema & key & Hsn & Hk & Hmr).
  case_bool_decide as Hst; simpl; [|by intros [= <- <-]]. unfold lift, mbind, M_bind.
  destruct (detector_for D row) as [d|e] eqn:Hd; [|by intros [= <- <-]]. unfold catch.
  destruct (scored D company q row d w2) as [[resp|e] w3] eqn:E3;
    destruct (scored_spec _ _ _ _ _ _ _ (proj1 Hten) P2 Hd E3) as [P3 S3].
  - intros [= <- <-]. split; [done|]. intros resp' [= <-]. destruct (S3 resp eq_refl) as (G3 & schema' & Hsn' & Hso).
    assert (schema' = schema) as -> by congruence. exists company, schema, key, row. split_and!; try done.
    + destruct Hten as [Hc Ht]. split; [done|]. destruct Ht as [?|Hv]; [by left|right].
      assert (G : grows w1 w3) by (etrans; [by apply plain_grows|done]).
      destruct Hv as (uid & user & a & u & ? & Ha & ? & ? & ? & ? & ? & Hss).
      exists uid, user, a, u. split_and!; try done; by eapply grows_elem.
    + by eapply grows_elem.
  - unfold answer_failure. intros Hr. assert (w' = w3 ∧ ∃ x, r = Err x) as [-> [x ->]].
    { destruct (is_refusal e); [injection Hr as <- <-; eauto|]. destruct e; injection Hr as <- <-; eauto. }
    by split.
Qed.
End process.
