(* ===== verification/MlGates.v ===== *)
(** * The gates a model passes

    services/ml_service/api: [uploaded_model.judge_semantics] and, in
    routers/models.py, the gates that registration and deployment share, the
    choice of a detector, the binding of a model's inputs and the registration
    itself.  The texts of refusals are shortened. *)

From stdpp Require Import base strings list gmap sets sorting.
From Stdlib Require Import ZArith Lia.
From S2P Require Import Prelude PyText PyNum PyJson Tenancy SqlBinding MlExtensions MlFeatures MlDetectors MlWorld MlTrust MlLoading MlCompat MlProfile MlRepository MlAuth MlServing.

Local Open Scope string_scope.

(** ** uploaded_model.py: judge_semantics *)

Inductive SemanticsVerdict := Accepted (detector : string) | Refused (reason : string).

(** [detectors_for] answers for any flavor: what is no text is in no list of them. *)
Definition matching (detectors_for : string → string → list string) (declared : string) (flavor : json) : list string :=
  match flavor with JStr f => detectors_for declared f | _ => [] end.
Definition judge_semantics (vocabulary : list string) (detectors_for : string → string → list string)
    (declared : option string) (flavor : json) : SemanticsVerdict :=
  if negb (given declared) then Refused "this model does not declare what its output means" else
  let d := default "" declared in
  if negb (bool_decide (d ∈ vocabulary)) then Refused "not a score semantics this platform knows" else
  if negb (truthy flavor) then Refused "this artifact does not declare a flavor" else
  match merge_sort String.le (matching detectors_for d flavor) with
  | [] => Refused "nothing in this deployment can score such a model"
  | n :: _ => Accepted n
  end.

(** ** routers/models.py *)

Record ModelCreateRequest := {
  r_equipment_id : option string; r_model_name : string; r_model_version : string; r_model_type : string;
  r_detector : option string; r_artifact_uri : option string; r_score_semantics : option string; r_status : string;
  r_training_metrics : option dict; r_feature_config_id : option string; r_sensor_ids : option (list string);
  r_mlflow_run_id : option string; r_reference_profile : json
}.

Section gates.
Context (D : deployment) (installed : string → option string) (even : nat → nat → list nat) (new_id : tenant → string).

Definition _admit_address_or_refuse (company : string) (run uri : option string) (on_refused : Z) : M world unit :=
  catch (check_admissible (bucket D) company run uri)
        (λ e, match e with
              | ModelNotAdmissible => refuse on_refused "not an artifact your tenant may register or serve"
              | TrackingStoreUnavailable => refuse 503 "the tracking store did not answer"
              | e => raise e
              end).

Definition read_flavors (model_uri : string) : M world dict :=
  flavors ← look (λ sh, a ← or_raise OtherError (artifacts sh !! model_uri); flavors_of a);
  _ ← log (Manifest model_uri flavors);
  mret flavors.

Definition manifest_of (run uri : option string) : M world dict :=
  catch (u ← model_uri_for run uri; read_flavors u)
        (λ e, if bool_decide (e = SystemExit) then raise e else refuse 503 "could not read the model's manifest").
Definition _refuse_author_code_or_reject (run uri : option string) (on_refused : Z) : M world unit :=
  flavors ← manifest_of run uri;
  match refuse_author_code flavors with
  | Err UnsafeArtifact => refuse on_refused "loading this model would run code its author chose"
  | r => lift r
  end.

Definition compatibility_of (run uri : option string) : M world Compatibility :=
  catch (if given run then evaluate_run installed (detectors D) (default "" run)
         else evaluate_uri installed (detectors D) (default "" uri))
        (λ e, if bool_decide (e = ArtifactUnreadable) then refuse 503 "could not read the declared requirements" else raise e).
Definition _evaluate_or_reject (run uri : option string) (on_incompatible : Z) : M world (option Compatibility) :=
  if negb (given run || given uri) then mret None else
  c ← compatibility_of run uri;
  if negb (servable c) then refuse on_incompatible "this serving environment cannot honour what the model declares"
  else mret (Some c).

Definition _kernel_detector_or_refuse (named : option string) (flavor : json) : res string :=
  let name := if given named then default "" named else "sklearn" in
  match get_detector name (detectors D) with
  | None => Err (HTTPException 422 "no such detector is loaded in this deployment")
  | Some d =>
      let listed := match flavor with JStr f => bool_decide (f ∈ d_flavors d) | _ => false end in
      if truthy flavor && negb (bool_decide (d_flavors d = [])) && negb listed
      then Err (HTTPException 422 "the detector does not score such models") else Ok name
  end.

(** The detector an uploaded model is scored by: one that implements what it
    declares, and of those the one its author names. *)
Definition semantics_verdict (declared : option string) (flavor : json) : SemanticsVerdict :=
  judge_semantics SCORE_SEMANTICS (λ s f, detectors_for s f (detectors D)) declared flavor.
Definition _uploaded_detector_or_refuse (named declared : option string) (flavor : json) : res string :=
  match semantics_verdict declared flavor with
  | Refused reason => Err (HTTPException 422 reason)
  | Accepted detector =>
      if negb (given named) then Ok detector else
      if negb (bool_decide (default "" named ∈ matching (λ s f, detectors_for s f (detectors D)) (default "" declared) flavor))
      then Err (HTTPException 422 "the detector does not implement the declared semantics") else Ok (default "" named)
  end.

(** The inputs bound, the sensors they are read from, and the baseline stored. *)
Record bound := { b_inputs : option feature_config; b_sensor_ids : option (list string); b_profile : json }.

Definition sensors_of (company : string) (q : ModelCreateRequest) (base : list string) : M world (option (list string)) :=
  if given (r_equipment_id q) && match r_sensor_ids q with None | Some [] => true | _ => false end then
    found ← sensor_ids_by_name company (default "" (r_equipment_id q)) base;
    let id_of n := snd <$> List.find (λ kv : string * string, bool_decide (kv.1 = n)) found in
    if negb (forallb (λ n, bool_decide (is_Some (id_of n))) base) then refuse 422 "the equipment has no such sensor"
    else mret (Some (omap id_of base))
  else mret (r_sensor_ids q).

(** A sample that is refused leaves its reason. *)
Definition judged_profile (profile : json) (base : list string) : res json :=
  if negb (truthy profile) then Ok profile else
  reason ← match profile with
           | JDict p => match supplied_scores_refusal p with
                        | Some r => Ok (Some r)
                        | None => sample_refusal (py_repr D) profile base
                        end
           | _ => sample_refusal (py_repr D) profile base
           end;
  match reason, profile with
  | Some r, _ => Ok (JDict (refused_baseline r))
  | None, JDict p => out ← accepted_sample even p; Ok (JDict out)
  | None, _ => Err TypeError
  end.

Definition _bind_inputs_and_baseline (company : string) (q : ModelCreateRequest) (refusal : option string) : M world bound :=
  config ← (if given (r_feature_config_id q) then
              c ← get_feature_config_by_id company (default "" (r_feature_config_id q));
              match c with
              | Some c => mret (Some c)
              | None => refuse 422 "the feature config does not exist in your organization"
              end
            else mret None);
  let base := match config with Some c => base_sensors (c_inputs c) | None => [] end in
  ids ← (match config with Some _ => sensors_of company q base | None => mret (r_sensor_ids q) end);
  profile ← lift (if given refusal then Ok (JDict (refused_baseline (default "" refusal)))
                  else judged_profile (r_reference_profile q) base);
  mret {| b_inputs := c_inputs <$> config; b_sensor_ids := ids; b_profile := profile |}.

(** The row the gate writes for what passed it. *)
Definition row_for (q : ModelCreateRequest) (detector : string) (c : option Compatibility) (b : bound) : model_row :=
  {| m_name := r_model_name q; m_version := version_number (r_model_version q); m_type := r_model_type q;
     m_equipment := r_equipment_id q; m_status := r_status q; m_run := r_mlflow_run_id q;
     m_artifact_uri := r_artifact_uri q; m_provenance := Some (provenance_of (r_mlflow_run_id q) (r_artifact_uri q));
     m_detector := Some detector; m_config := r_feature_config_id q; m_sensor_ids := b_sensor_ids b;
     m_training_metrics := match r_training_metrics q with Some d => JDict d | None => JNull end;
     m_profile := b_profile b; m_compatibility := (λ c, verdict_text (status c)) <$> c |}.

Definition register_model (q : ModelCreateRequest) (company : string) (refusal : option string) : M world string :=
  let run := r_mlflow_run_id q in
  let uri := r_artifact_uri q in
  let uploaded := bool_decide (provenance_of run uri = PROVENANCE_UPLOADED) in
  if uploaded && negb (given uri) then refuse 422 "neither a run nor an artifact" else
  _ ← _admit_address_or_refuse company run uri 422;
  _ ← _refuse_author_code_or_reject run uri 422;
  c ← _evaluate_or_reject run uri 422;
  let flavor := match c with Some c => MlCompat.flavor c | None => JNull end in
  detector ← lift (if uploaded then _uploaded_detector_or_refuse (r_detector q) (r_score_semantics q) flavor
                   else _kernel_detector_or_refuse (r_detector q) flavor);
  b ← _bind_inputs_and_baseline company q refusal;
  id ← catch (create_model new_id company (row_for q detector c b) (b_inputs b))
             (λ e, match e with
                   | FeatureConfigChanged => refuse 409 "the feature config changed while the model was being registered"
                   | e => if bool_decide (e = UniqueViolation) then refuse 409 "already registered under this name and version" else raise e
                   end);
  match id with Some id => mret id | None => refuse 500 "Failed to create model" end.

(** The dependencies of a route that writes: one verified caller, a writer, and its tenant. *)
Definition writer_of (cr : credentials) : M world string :=
  u ← verify_jwt_token (jwt_decode D) (py_repr D) (authorization cr) (if_access cr);
  _ ← require_writer u;
  company_id_of (py_repr D) u.
Definition create_model_request (cr : credentials) (q : ModelCreateRequest) : M world string :=
  company ← writer_of cr; register_model q company None.
End gates.
