(* ===== verification/MlProbe.v ===== *)
(** * What a deployment observes of a model

    services/ml_service/api: the isolated load of an uploaded artifact
    ([load_probe_worker.py]) and what the service makes of its report
    ([load_probe.py]); the scoring of a feature sample at deployment
    ([baseline_gate.py]).  The worker reports lines; it may not start, die or
    be stopped after any of them ([fate]).  A signature, and what a model makes
    of an input built from it, are MLflow's; the texts of errors are shortened. *)

From stdpp Require Import base strings list gmap.
From Stdlib Require Import ZArith Lia.
From S2P Require Import Prelude PyText PyNum PyJson Tenancy SqlBinding MlExtensions MlFeatures MlDetectors MlWorld MlTrust MlLoading MlCompat MlProfile MlRepository MlServing.

Local Open Scope string_scope.

(** ** Signatures and the inputs built from them *)

Record tensor_spec := { ts_name : option string; ts_shape : list (option Z); ts_type : string }.
Inductive column_type := ColString | ColBinary | ColDatetime | ColData (dtype : string) | ColNested.
Inductive schema := TensorSchema (named : bool) (specs : list tensor_spec) | ColumnSchema (columns : list (option string * column_type)).

Abbreviation zeros := (list nat * string)%type.
Inductive column_value := EmptyText | EmptyBytes | Epoch | Zero (dtype : string).
Inductive frame := Tensor (t : zeros) | Tensors (ts : list (option string * zeros)) | DataFrame (columns : list (option string * column_value)).

Fixpoint put_named {A} (k : option string) (v : A) (l : list (option string * A)) : list (option string * A) :=
  match l with
  | [] => [(k, v)]
  | (k', v') :: r => if bool_decide (k = k') then (k, v) :: r else (k', v') :: put_named k v r
  end.

Definition dim (d : option Z) : res nat :=
  match d with
  | None => Ok 1%nat
  | Some z => if (z =? -1)%Z then Ok 1%nat else if (z <? 0)%Z then Err ValueError else Ok (Z.to_nat z)
  end.
Definition zeros_of (s : tensor_spec) : res zeros := shape ← mapM dim (ts_shape s); Ok (shape, ts_type s).
Definition column_of (t : column_type) : res column_value :=
  match t with
  | ColString => Ok EmptyText
  | ColBinary => Ok EmptyBytes
  | ColDatetime => Ok Epoch
  | ColData dtype => Ok (Zero dtype)
  | ColNested => Err ValueError
  end.

Definition put_tensor (acc : list (option string * zeros)) (s : tensor_spec) : res (list (option string * zeros)) :=
  z ← zeros_of s; Ok (put_named (ts_name s) z acc).
Definition put_column (acc : list (option string * column_value)) (c : option string * column_type) :
    res (list (option string * column_value)) :=
  v ← column_of c.2; Ok (put_named c.1 v acc).
Definition each {A B} (f : A → B → res A) (a : A) (l : list B) : res A := fold_left (λ acc b, a ← acc; f a b) l (Ok a).

Definition _synthetic_frame (s : schema) : res frame :=
  match s with
  | TensorSchema named specs =>
      tensors ← each put_tensor [] specs;
      if named : bool then Ok (Tensors tensors) else
      match tensors with (_, t) :: _ => Ok (Tensor t) | [] => Err OtherError end
  | ColumnSchema columns => row ← each put_column [] columns; Ok (DataFrame row)
  end.

(** ** The worker's report, and the service's reading of it *)

Inductive line := Verdict (ok : bool) (stage error : string) | Scores (l : list float) | SampleError (error : string).

Record ProbeResult := { p_ok : bool; p_stage : string; p_error : string; p_scores : option (list float); p_sample_error : string }.
Definition probe_refused (r : ProbeResult) : bool := negb (p_ok r).
Definition not_shown (stage error : string) : ProbeResult :=
  {| p_ok := false; p_stage := stage; p_error := error; p_scores := None; p_sample_error := "" |}.

Definition is_verdict (l : line) : bool := match l with Verdict _ _ _ => true | _ => false end.
Definition _result (lines : list line) (stalled : string) : option ProbeResult :=
  match List.find is_verdict lines with
  | Some (Verdict ok stage error) =>
      Some (match List.find (λ l, negb (is_verdict l)) lines with
            | Some (Scores l) => {| p_ok := ok; p_stage := stage; p_error := error; p_scores := Some l; p_sample_error := "" |}
            | Some (SampleError e) => {| p_ok := ok; p_stage := stage; p_error := error; p_scores := None; p_sample_error := e |}
            | _ => {| p_ok := ok; p_stage := stage; p_error := error; p_scores := None; p_sample_error := stalled |}
            end)
  | _ => None
  end.

(** What the service gives the worker besides the address: the sample, engineered. *)
Record sample := { s_detector : option string; s_context : DetectorContext; s_rows : list (list feature) }.
Definition writable (s : sample) : bool :=
  forallb (forallb (λ f, match f with Real _ => true | Complex => false end)) (s_rows s).

Inductive process := CannotRun | Ends (printed : nat) | TimesOut (printed : nat).

(** [except Exception] *)
Definition attempt {S A} (m : M S A) : M S (res A) :=
  catch (a ← m; mret (Ok a)) (λ e, if bool_decide (e = SystemExit) then raise e else mret (Err e)).

Definition threshold_half : float := float_of_dec false 5 (-1).
(** [score_rows]: each row through the detector. *)
Definition score_rows (rows : list (list feature)) (m : model) (d : detector) (ctx : DetectorContext) : res (list float) :=
  mapM (λ row, r ← d_fn d row m threshold_half ctx; Ok (score r)) rows.

Section probe.
Context (D : deployment).
Context (signature_of : artifact → option schema) (predict_frame : model → frame → res unit) (untrusted_types : exn → bool).
Context (fate : world → process).

Definition load_signature (model_uri : string) : M world (option schema) :=
  look (λ sh, a ← or_raise OtherError (artifacts sh !! model_uri); _ ← flavors_of a; Ok (signature_of a)).

Definition _probe (model_uri : string) : M world (line * option model) :=
  meta ← attempt (load_signature model_uri);
  match meta with
  | Err _ => mret (Verdict false "manifest" "the manifest could not be read", None)
  | Ok None => mret (Verdict false "signature" "the artifact declares no input signature", None)
  | Ok (Some s) =>
      loaded ← attempt (load_pyfunc (py_repr D) (build D) model_uri (Some PROVENANCE_UPLOADED));
      match loaded with
      | Err e => mret (Verdict false (if bool_decide (e = UnsafeArtifact) || untrusted_types e then "trust" else "load")
                         "the model could not be loaded", None)
      | Ok m =>
          match _synthetic_frame s with
          | Err _ => mret (Verdict false "signature" "no input could be built", None)
          | Ok f =>
              match predict_frame m f with
              | Err SystemExit => raise SystemExit
              | Err _ => mret (Verdict false "score" "the model could not score it", None)
              | Ok _ => mret (Verdict true "score" "", Some m)
              end
          end
      end
  end.

Definition score_sample (m : model) (s : sample) : line :=
  match get_detector (default "" (s_detector s)) (detectors D) with
  | None => SampleError "no such detector is loaded"
  | Some d => match score_rows (s_rows s) m d (s_context s) with
              | Ok l => Scores l
              | Err _ => SampleError "the detector could not score the sample"
              end
  end.

(** What a worker that nothing stops prints. *)
Definition worker (model_uri : string) (s : option sample) : M world (list line) :=
  catch ('(verdict, m) ← _probe model_uri;
         mret (verdict :: match m, s with Some m, Some s => [score_sample m s] | _, _ => [] end))
        (λ _, mret []).

Definition _run (model_uri : string) (s : option sample) : M world ProbeResult :=
  _ ← lift (if match s with Some s => writable s | None => true end then Ok tt else Err TypeError);
  w ← getS;
  match fate w with
  | CannotRun => mret (not_shown "invoke" "could not run the check")
  | Ends n =>
      lines ← worker model_uri s;
      mret (default (not_shown "crash" "the check ended without a verdict")
              (_result (take n lines) "scoring the feature sample ended without a result"))
  | TimesOut n =>
      lines ← worker model_uri s;
      mret (default (not_shown "timeout" "loading and scoring did not finish in time")
              (_result (take n lines) "scoring the feature sample did not finish in time"))
  end.

Definition probe (model_uri : string) (s : option sample) : M world ProbeResult :=
  r ← _run model_uri s;
  _ ← log (Probed model_uri (p_ok r));
  mret r.

(** ** baseline_gate.py *)

Record Plan := {
  pl_profile : dict; pl_detector : option string; pl_context : DetectorContext; pl_rows : list (list feature);
  pl_reason : option string
}.
Definition no_context : DetectorContext := {| d_equipment_id := JNull; reconstruction_scale := JNull |}.
Definition unscored (profile : dict) (reason : string) : Plan :=
  {| pl_profile := profile; pl_detector := None; pl_context := no_context; pl_rows := []; pl_reason := Some reason |}.

Definition for_probe (p : Plan) : option sample :=
  if given (pl_reason p) || bool_decide (pl_rows p = []) then None
  else Some {| s_detector := pl_detector p; s_context := pl_context p; s_rows := pl_rows p |}.

Context (even : nat → nat → list nat) (derived_at : string).

Definition finish (p : Plan) (scores : option (list float)) (error : string) : res dict :=
  if given (pl_reason p) then Ok (without_prediction_baseline (pl_profile p) (default "" (pl_reason p))) else
  if negb (bool_decide (error = "")) then Ok (without_prediction_baseline (pl_profile p) "the model's detector could not score its sample") else
  match scores with
  | None | Some [] => Ok (without_prediction_baseline (pl_profile p) "the model's detector could not score its sample")
  | Some l =>
      match with_derived_scores (pl_profile p) l derived_at with
      | Err e => if is_value_error e then Ok (without_prediction_baseline (pl_profile p) "it holds what is not a score of the declared scale")
                 else Err e
      | Ok out => Ok out
      end
  end.

(** The engine a model's sample goes through: that of its own equipment. *)
Definition sample_engine (company : string) (r : model_row) (config : feature_config) : res FeatureEngineeringEngine :=
  engine_init (py_repr D) (py_pow D) (baseline_ttl D) (baseline_max D) (extra_transforms D) config
    {| baseline_provider := has_provider D; ctx_company_id := company;
       ctx_equipment_id := match m_equipment r with Some e => JStr e | None => JNull end |}
    (has_switch D).
Definition engineer (company : string) (r : model_row) (config : feature_config) (rows : list dict) : M world (list (list feature)) :=
  e ← lift (sample_engine company r config);
  mapM (λ row, out ← transform_on D e row; mret (vector out)) rows.

(** A profile held to the registration's rule again, bounded, and its complete rows. *)
Definition sample_of_profile (profile : dict) (base : list string) : res (string + dict * list dict) :=
  reason ← sample_refusal (py_repr D) (JDict (without_prediction_baseline profile "")) base;
  match reason with
  | Some r => Ok (inl r)
  | None => bounded ← accepted_sample even profile; rows ← sample_rows bounded; Ok (inr (bounded, rows))
  end.

Definition plan (company : string) (r : model_row) : M world (option Plan) :=
  match m_profile r with
  | JDict profile =>
      if negb (truthy (JDict profile)) || truthy (jget "refused" profile) then mret None else
      config ← (if given (m_config r) then get_feature_config_by_id company (default "" (m_config r)) else mret None);
      match config with
      | None => mret (Some (unscored profile "the model has no feature configuration, so its sample cannot be scored"))
      | Some c =>
          found ← lift (sample_of_profile profile (base_sensors (c_inputs c)));
          match found with
          | inl reason => mret (Some (unscored profile reason))
          | inr (bounded, []) => mret (Some (unscored bounded "the sample has no complete row to score"))
          | inr (bounded, rows) =>
              scored ← attempt (engineer company r (c_inputs c) rows);
              match scored with
              | Err _ => mret (Some (unscored bounded "the sample cannot be scored"))
              | Ok vectors =>
                  scale ← lift (if truthy (m_training_metrics r) then conf_get (m_training_metrics r) "reconstruction_scale" else Ok JNull);
                  mret (Some {| pl_profile := bounded; pl_detector := m_detector r; pl_rows := vectors; pl_reason := None;
                                pl_context := {| d_equipment_id := match m_equipment r with Some e => JStr e | None => JNull end;
                                                 reconstruction_scale := scale |} |})
              end
          end
      end
  | v => if truthy v then raise AttributeError else mret None
  end.

Definition score_in_process (p : Plan) (m : model) (d : detector) : M world dict :=
  if given (pl_reason p) then lift (finish p None "") else
  match score_rows (pl_rows p) m d (pl_context p) with
  | Err SystemExit => raise SystemExit
  | Err _ => lift (finish p None "the detector failed")
  | Ok l => lift (finish p (Some l) "")
  end.
End probe.
