(* ===== verification/MlModels.v ===== *)
(** * Deploying and retiring a model, and the configurations models bind

    services/ml_service/api/routers: [deploy_model] and [delete_model] of
    models.py, over the gates (MlGates) and what is observed of a model
    (MlProbe); feature_configs.py, whose changes the database holds to the
    models bound (MlRepository). *)

From stdpp Require Import base strings list gmap sets.
From Stdlib Require Import ZArith Lia.
From S2P Require Import Prelude PyText PyNum PyJson Tenancy SqlBinding MlExtensions MlFeatures MlDetectors MlWorld MlTrust MlLoading MlCompat MlProfile MlRepository MlAuth MlServing MlGates MlProbe.

Local Open Scope string_scope.

(** What the models' routes are deployed over. *)
Record platform := {
  served : deployment;
  installed : string → option string;
  even : nat → nat → list nat;
  new_id : tenant → string;
  signature_of : artifact → option schema;
  predict_frame : model → frame → res unit;
  untrusted_types : exn → bool;
  fate : world → process;
  derived_at : string
}.

Section models.
Context (P : platform).
Abbreviation D := (served P).

(** ** routers/models.py *)

Definition valid_statuses : list string := ["production"; "active"; "deprecated"].

(** The detector a row names must be loaded here. *)
Definition check_detector (r : model_row) : M world unit :=
  if negb (given (m_detector r)) || negb (bool_decide (is_Some (get_detector (default "" (m_detector r)) (detectors D))))
  then refuse 409 "this model names no detector this deployment has loaded" else mret tt.

Definition load_to_deploy (company : string) (r : model_row) : M world model :=
  catch (load_model_checked D company r)
        (λ e, match e with
              | HTTPException 503 _ | SystemExit => raise e
              | _ => refuse 409 "this model does not load in this serving environment"
              end).

(** The baseline this deployment derives, if it derives one; an uploaded model
    is observed in the probe, or is refused. *)
Definition derived_profile (company : string) (r : model_row) (pl : option Plan) : M world (option dict) :=
  if bool_decide (provenance_of (m_run r) (m_artifact_uri r) = PROVENANCE_UPLOADED) then
    result ← probe D (signature_of P) (predict_frame P) (untrusted_types P) (fate P) (default "" (m_artifact_uri r)) (pl ≫= for_probe);
    out ← lift (match pl with Some p => d ← finish (derived_at P) p (p_scores result) (p_sample_error result); Ok (Some d) | None => Ok None end);
    if probe_refused result then refuse 409 "not shown to load and score in this serving environment" else mret out
  else match pl with
       | None => mret None
       | Some p =>
           if given (pl_reason p) then lift (d ← finish (derived_at P) p None ""; Ok (Some d)) else
           m ← load_to_deploy company r;
           d ← lift (detector_for D r);
           out ← score_in_process (derived_at P) p m d;
           mret (Some out)
       end.

(** What stands before a model that is to serve. *)
Definition deployment_gate (company model_id : string) (r : model_row) : M world unit :=
  _ ← _admit_address_or_refuse D company (m_run r) (m_artifact_uri r) 409;
  _ ← check_detector r;
  _ ← _refuse_author_code_or_reject (m_run r) (m_artifact_uri r) 409;
  c ← _evaluate_or_reject D (installed P) (m_run r) (m_artifact_uri r) 409;
  _ ← (match c with Some c => update_model_compatibility company model_id (verdict_text (status c)) | None => mret false end);
  pl ← plan D (even P) company r;
  profile ← derived_profile company r pl;
  match profile with
  | Some d => _ ← update_model_reference_profile company model_id (JDict d); mret tt
  | None => mret tt
  end.

Definition deploy (company model_id environment : string) : M world unit :=
  if negb (bool_decide (environment ∈ valid_statuses)) then refuse 400 "Invalid environment" else
  row ← get_model_by_id company model_id;
  match row with
  | None => refuse 404 "Model not found"
  | Some r =>
      _ ← (if bool_decide (environment ∈ SERVING) then deployment_gate company model_id r else mret tt);
      success ← update_model_status company model_id environment;
      if success : bool then mret tt else refuse 500 "Failed to update model status"
  end.
Definition deploy_model (cr : credentials) (model_id environment : string) : M world unit :=
  company ← writer_of D cr; deploy company model_id environment.

Definition retire (company model_id : string) : M world unit :=
  row ← get_model_by_id company model_id;
  match row with
  | None => refuse 404 "Model not found"
  | Some _ => success ← MlRepository.delete_model company model_id;
              if success : bool then mret tt else refuse 500 "Failed to deprecate model"
  end.
Definition delete_model (cr : credentials) (model_id : string) : M world unit :=
  company ← writer_of D cr; retire company model_id.

(** ** routers/feature_configs.py *)

(** A request's transformations, each named and of a registered type. *)
Definition known_transform (type : string) : bool :=
  bool_decide (is_Some (transform_of (py_repr D) (py_pow D) (baseline_ttl D) (baseline_max D) (extra_transforms D) type)).
Definition checked_transform (t : dict) : res transformation :=
  match jget "name" t, jget "type" t with
  | JStr name, JStr type =>
      if bool_decide (name = "") || negb (known_transform type) then Err ValueError
      else Ok {| t_name := name; t_type := type; t_rest := drop_key "name" (drop_key "type" t) |}
  | JStr name, (JList _ | JDict _) => if bool_decide (name = "") then Err ValueError else Err TypeError
  | _, _ => Err ValueError
  end.
Definition _known_transforms (l : list dict) : res (list transformation) := mapM checked_transform l.

(** Pydantic answers a validator's ValueError with a 422. *)
Definition validated {A} (r : res A) : M world A :=
  match r with Err e => if is_value_error e then refuse 422 "the request is not valid" else raise e | Ok a => mret a end.

Definition _bound_refusal {A} (company config_id : string) : M world A :=
  _ ← models_bound_to_feature_config company config_id;
  refuse 409 "the feature config is bound by a model".
Definition unreachable : string := "The feature configuration store could not be reached".

Record FeatureConfigCreate := {
  f_equipment_type : string; f_name : string; f_description : option string;
  f_base_sensors : list string; f_transformations : list dict
}.
Definition new_config (company : string) (c : config_row) : M world string :=
  catch (r ← MlRepository.create_feature_config (new_id P) company c; mret r.1)
        (λ e, if bool_decide (e = SystemExit) then raise e else
              if bool_decide (e = UniqueViolation) then refuse 400 "already exists for the equipment type"
              else refuse 500 unreachable).
Definition create_feature_config (cr : credentials) (f : FeatureConfigCreate) : M world string :=
  u ← verify_jwt_token (jwt_decode D) (py_repr D) (authorization cr) (if_access cr);
  _ ← require_writer u;
  company ← company_id_of (py_repr D) u;
  ts ← validated (_known_transforms (f_transformations f));
  new_config company {| c_equipment_type := f_equipment_type f; c_name := f_name f; c_description := f_description f;
                        c_inputs := {| base_sensors := f_base_sensors f; transformations := ts |};
                        c_created_by := Some (user_id u) |}.

Definition get_feature_config (cr : credentials) (config_id : string) : M world config_row :=
  company ← get_company_id (jwt_decode D) (py_repr D) cr;
  catch (c ← get_feature_config_by_id company config_id;
         match c with Some c => mret c | None => refuse 404 "not found" end)
        (λ e, match e with HTTPException _ _ | SystemExit => raise e | _ => refuse 500 unreachable end).

(** A change of a configuration as it is asked for. *)
Record FeatureConfigUpdate := {
  g_equipment_type : option string; g_name : option string; g_description : option string;
  g_base_sensors : option (list string); g_transformations : option (list dict)
}.
Definition change_of (g : FeatureConfigUpdate) : res config_change :=
  ts ← (match g_transformations g with Some l => ts ← _known_transforms l; Ok (Some ts) | None => Ok None end : res _);
  Ok {| ch_equipment_type := g_equipment_type g; ch_name := g_name g; ch_description := g_description g;
        ch_base_sensors := g_base_sensors g; ch_transformations := ts |}.
Definition changed_config (company config_id : string) (u : config_change) : M world config_row :=
  catch (c ← MlRepository.update_feature_config company config_id u;
         match c with Some c => mret c | None => refuse 404 "not found" end)
        (λ e, match e with
              | HTTPException _ _ | SystemExit => raise e
              | e => if bool_decide (e = RestrictViolation) then _bound_refusal company config_id else refuse 500 unreachable
              end).
Definition update_feature_config (cr : credentials) (config_id : string) (g : FeatureConfigUpdate) : M world config_row :=
  company ← writer_of D cr; u ← validated (change_of g); changed_config company config_id u.

Definition removed_config (company config_id : string) : M world unit :=
  catch (ok ← MlRepository.delete_feature_config company config_id;
         if ok : bool then mret tt else refuse 404 "not found")
        (λ e, match e with
              | HTTPException _ _ | SystemExit => raise e
              | e => if bool_decide (e = ForeignKeyViolation) then _bound_refusal company config_id else refuse 500 unreachable
              end).
Definition delete_feature_config (cr : credentials) (config_id : string) : M world unit :=
  company ← writer_of D cr; removed_config company config_id.
End models.
