(* ===== verification/MlGateProps.v ===== *)
(** * What the gates keep and what they establish

    Over MlGates, MlProbe and MlModels: a relation on the service's worlds that
    reading and loading keep is kept by every gate ([Reading], [Serving]); and a
    gate that lets a model through leaves its reasons in the history. *)

From stdpp Require Import base strings list gmap sets.
From Stdlib Require Import ZArith Lia.
From S2P Require Import Prelude PyText PyNum PyJson Tenancy SqlBinding MlExtensions MlFeatures MlFeatureProps MlDetectors MlWorld MlTrust MlLoading MlLoadProps MlCompat MlProfile MlRepository MlKeeps MlAuth MlServing MlServingProps MlGates MlProbe MlModels.

Local Open Scope nat_scope.

(** ** Relations kept by reading *)

(** What reads the stores, opens safely and remembers it keeps [T]. *)
Class Reading (D : deployment) (T : world → world → Prop) : Prop := {
  rd_refl :: Reflexive T;
  rd_trans :: Transitive T;
  rd_look {A} (f : shared → res A) : respects T (look f);
  rd_log e : ok_event e → respects T (modify (logged e));
  rd_read {A} company (g : string → tenant → A) : respects T (tenant_call company (λ s t, Ok (g s t, t)));
  rd_pyfunc uri provenance : respects T (load_pyfunc (py_repr D) (build D) uri provenance)
}.

(** And so does what serves: features, and the warm models of a tenant. *)
Class Serving (D : deployment) (T : world → world → Prop) : Prop := {
  sv_reading :: Reading D T;
  sv_transform e data : respects T (transform_on D e data);
  sv_load company r : canonical company → respects T (load_model_checked D company r)
}.

Lemma rd_log' D T `{!Reading D T} e : ok_event e → respects T (log e).
Proof. apply (rd_log (D := D)). Qed.

Ltac reading D extra := respecting ltac:(first
  [ apply (rd_look (D := D)) | apply (rd_log (D := D)); exact I | apply (rd_log' D); exact I
  | apply (rd_read (D := D)) | apply (rd_pyfunc (D := D)) | extra | apply _ ]).

Section reading.
Context (D : deployment) (T : world → world → Prop) {HT : Reading D T}.

Lemma get_model_reads company id : respects T (get_model_by_id company id).
Proof. unfold get_model_by_id. reading D fail. Qed.
Lemma get_config_reads company id : respects T (get_feature_config_by_id company id).
Proof. unfold get_feature_config_by_id. reading D fail. Qed.
Lemma sensor_ids_reads company id names : respects T (sensor_ids_by_name company id names).
Proof. unfold sensor_ids_by_name. reading D fail. Qed.
Lemma bound_models_reads company id : respects T (models_bound_to_feature_config company id).
Proof. unfold models_bound_to_feature_config. reading D fail. Qed.

Lemma verify_reads a i : respects T (verify_jwt_token (jwt_decode D) (py_repr D) a i).
Proof. unfold verify_jwt_token, _usable_account, refuse. reading D fail. Qed.
Lemma company_reads c : respects T (company_id_of (py_repr D) c).
Proof. unfold company_id_of, refuse. reading D fail. Qed.
Lemma writer_reads c : respects T (require_writer c).
Proof. unfold require_writer, refuse. reading D fail. Qed.
Lemma writer_of_reads cr : respects T (writer_of D cr).
Proof.
  unfold writer_of. reading D ltac:(first [apply verify_reads | apply writer_reads | apply company_reads]).
Qed.
Lemma get_company_reads cr : respects T (get_company_id (jwt_decode D) (py_repr D) cr).
Proof. unfold get_company_id. reading D ltac:(first [apply verify_reads | apply company_reads]). Qed.

Lemma admissible_reads company run uri : respects T (check_admissible (bucket D) company run uri).
Proof. unfold check_admissible, _run_owned_by, experiment_of. reading D fail. Qed.
Lemma admit_reads company run uri status : respects T (_admit_address_or_refuse D company run uri status).
Proof. unfold _admit_address_or_refuse, refuse. reading D ltac:(apply admissible_reads). Qed.
Lemma resolve_reads run : respects T (resolve_model_uri run).
Proof. unfold resolve_model_uri. reading D fail. Qed.
Lemma manifest_reads run uri : respects T (manifest_of run uri).
Proof. unfold manifest_of, model_uri_for, read_flavors, refuse. reading D ltac:(apply resolve_reads). Qed.
Lemma author_code_reads run uri status : respects T (_refuse_author_code_or_reject run uri status).
Proof. unfold _refuse_author_code_or_reject, refuse. reading D ltac:(apply manifest_reads). Qed.
Lemma compatibility_reads installed run uri : respects T (compatibility_of D installed run uri).
Proof.
  unfold compatibility_of, evaluate_run, evaluate_uri, evaluate, _read_declarations, refuse.
  reading D ltac:(apply resolve_reads).
Qed.
Lemma evaluate_reads installed run uri status : respects T (_evaluate_or_reject D installed run uri status).
Proof. unfold _evaluate_or_reject, refuse. reading D ltac:(apply compatibility_reads). Qed.
Lemma bind_reads even company q refusal : respects T (_bind_inputs_and_baseline D even company q refusal).
Proof.
  unfold _bind_inputs_and_baseline, sensors_of, refuse.
  reading D ltac:(first [apply get_config_reads | apply sensor_ids_reads]).
Qed.
Lemma worker_reads sg pf ut uri s : respects T (worker D sg pf ut uri s).
Proof. unfold worker, _probe, attempt, load_signature. reading D fail. Qed.
Lemma probe_reads sg pf ut fate uri s : respects T (probe D sg pf ut fate uri s).
Proof. unfold probe, _run. reading D ltac:(apply worker_reads). Qed.
End reading.

Section serving.
Context (P : platform) (T : world → world → Prop) {HT : Serving (served P) T}.

Lemma check_detector_reads r : respects T (check_detector P r).
Proof. unfold check_detector, refuse. reading (served P) fail. Qed.

Lemma mapM_respects {A B} (f : A → M world B) l : (∀ a, respects T (f a)) → respects T (mapM f l).
Proof.
  intros Hf. induction l as [|a l IH]; simpl; [apply respects_ret, _|].
  apply respects_bind; [apply _ | apply Hf|]. intros b. apply respects_bind; [apply _ | apply IH|]. intros bs. apply respects_ret, _.
Qed.
Lemma plan_serves company r : respects T (plan (served P) (even P) company r).
Proof.
  unfold plan, attempt, engineer.
  reading (served P) ltac:(first [apply (get_config_reads (served P)) | apply mapM_respects; intros ? | apply sv_transform]).
Qed.
Lemma load_to_deploy_serves company r : canonical company → respects T (load_to_deploy P company r).
Proof. intros Hc. unfold load_to_deploy, refuse. reading (served P) ltac:(by apply sv_load). Qed.
Lemma derived_profile_serves company r pl : canonical company → respects T (derived_profile P company r pl).
Proof.
  intros Hc. unfold derived_profile, score_in_process, refuse.
  reading (served P) ltac:(first [apply (probe_reads (served P)) | by apply load_to_deploy_serves]).
Qed.

(** A deployment's own writes, besides the model's status. *)
Context (compat : ∀ company id v, respects T (update_model_compatibility company id v)).
Context (profile : ∀ company id v, respects T (update_model_reference_profile company id v)).
Lemma gate_serves company id r : canonical company → respects T (deployment_gate P company id r).
Proof.
  intros Hc. unfold deployment_gate.
  reading (served P) ltac:(first [apply (admit_reads (served P)) | apply check_detector_reads | apply (author_code_reads (served P)) | apply (evaluate_reads (served P))
    | apply compat | apply plan_serves | by apply derived_profile_serves | apply profile]).
Qed.
End serving.

(** The tenant a writer acts for is a canonical id. *)
Lemma writer_of_spec D cr w company w' : writer_of D cr w = (Ok company, w') → canonical company ∧ writer_vouched company (w_log w').
Proof.
  unfold writer_of. intros (u & w1 & E1 & (v & w2 & (-> & -> & Hw)%require_writer_spec & E)%bind_inv_ok)%bind_inv_ok.
  destruct (caller_vouched _ _ _ _ _ _ _ _ _ _ E1 E) as (Hc & -> & uid & a & x & Hp & Ha & Hac & Hco & -> & Hca & _ & Hs & Hr & Hsu).
  split; [done|]. exists uid, (user_id u), a, x. rewrite <- Hr, <- Hsu. split_and!; done.
Qed.
Lemma respects_writer {A} D T `{!Reading D T} cr (f : string → M world A) :
  (∀ company, canonical company → respects T (f company)) → respects T (company ← writer_of D cr; f company).
Proof.
  intros Hf w. unfold final, mbind, M_bind. pose proof (writer_of_reads D T cr w) as H. unfold final in H.
  destruct (writer_of D cr w) as [[c|e] w1] eqn:E; [|done]. simpl in H. etrans; [exact H|].
  apply Hf. by apply writer_of_spec in E as [? _].
Qed.

(** ** The instances *)

#[export] Instance keeps_reading D R `{!Reflexive R} `{!Transitive R} : Reading D (keeps R).
Proof.
  split; try apply _; intros.
  - apply look_keeps; apply _.
  - apply logged_keeps; apply _.
  - apply tenant_read_keeps; apply _.
  - unfold load_pyfunc, _load_local_skops, _load_local_xgboost, open. keeping fail.
Qed.
#[export] Instance keeps_serving D R `{!Reflexive R} `{!Transitive R} : Serving D (keeps R).
Proof.
  split; [apply _ | intros; apply serving_keeps; apply _|]. intros company r _.
  unfold load_model_checked, load_model_or_refuse, load_model_for, get_or_load, load, refuse, check_admissible, _run_owned_by,
    experiment_of, model_uri_for.
  keeping ltac:(first [apply (resolve_reads D) | apply (rd_pyfunc (D := D)) | apply own_keeps; [apply _ | by intros ?; split] | apply _]).
Qed.

#[export] Instance grows_reading D : Reading D grows.
Proof.
  split; try apply _; intros.
  - apply look_grows.
  - apply logged_grows.
  - apply tenant_call_grows.
  - unfold load_pyfunc, _load_local_skops, _load_local_xgboost, open. growing fail.
Qed.
#[export] Instance grows_serving D : Serving D grows.
Proof.
  split; [apply _ | intros; apply serving_grows|]. intros company r _ w.
  unfold load_model_checked, load_model_or_refuse.
  assert (H : respects grows (load_model_for (py_repr D) (bucket D) (build D) (model_max D) company r)).
  { intros w0. apply (load_for_loading D company r w0). }
  revert w. change (respects grows (catch (load_model_for (py_repr D) (bucket D) (build D) (model_max D) company r)
    (λ e, match e with
          | ModelNotAdmissible => raise (HTTPException 422 "artifact not one your tenant may load")
          | TrackingStoreUnavailable => raise (HTTPException 503 "tracking store did not answer")
          | e => raise e
          end))). growing ltac:(apply H).
Qed.

(** ** One step of a handler *)

Lemma kept {A} T (m : M world A) w o w' : respects T m → m w = (o, w') → T w w'.
Proof. intros H E. specialize (H w). unfold final in H. by rewrite E in H. Qed.

(** A step that fails ends the handler with the tables as it left them; one
    that succeeds leaves the rest to go on from there. *)
Lemma handler_step {A B} R (m : M world A) (f : A → M world B) w r w' :
  respects (keeps R) m → respects grows m → lawful R w → (a ← m; f a) w = (r, w') →
  on_tenants R (w_shared w) (w_shared w') ∨
  ∃ a w1, m w = (Ok a, w1) ∧ on_tenants R (w_shared w) (w_shared w1) ∧ lawful R w1 ∧ grows w w1 ∧ f a w1 = (r, w').
Proof.
  intros Hk Hg L. unfold mbind, M_bind. destruct (m w) as [[a|e] w1] eqn:E.
  - intros Hf. right. exists a, w1. destruct (kept _ _ _ _ _ Hk E L) as [S1 L1]. split_and!; try done. exact (kept _ _ _ _ _ Hg E).
  - intros [= _ <-]. left. exact (proj1 (kept _ _ _ _ _ Hk E L)).
Qed.
