(* ===== verification/MlModelsProps.v ===== *)
(** * What deploying and registering a model guarantees

    Over MlModels: a status set, a model registered and a configuration changed
    leave in the history the gates they passed; whatever is asked of the service
    in whatever order, a bound configuration keeps what it computes and every
    process keeps its invariant. *)

From stdpp Require Import base strings list gmap sets.
From Stdlib Require Import ZArith Lia.
From S2P Require Import Prelude PyText PyNum PyJson Tenancy SqlBinding MlExtensions MlFeatures MlFeatureProps MlDetectors MlWorld MlTrust MlLoading MlLoadProps MlCompat MlProfile MlRepository MlKeeps MlRepositoryProps MlAuth MlServing MlServingProps MlGates MlProbe MlModels MlGateProps.

Local Open Scope nat_scope.

(** ** What a gate leaves in the history *)

(** Where a record's bytes are. *)
Abbreviation located_row r uri log := (located (m_run r) (m_artifact_uri r) uri log).

Section events.
Context (D : deployment) (installed : string → option string).

Lemma admit_spec company run uri status w w' : _admit_address_or_refuse D company run uri status w = (Ok tt, w') →
  ∀ p, shown (bucket D) {| ad_company := company; ad_run := run; ad_artifact := uri; ad_provenance := p |} (w_log w').
Proof.
  unfold _admit_address_or_refuse, catch. destruct (check_admissible _ _ _ _ w) as [[[]|e] w1] eqn:E.
  - intros [= <-] p. by eapply (check_admissible_spec (bucket D) {| ad_company := company; ad_run := run; ad_artifact := uri; ad_provenance := p |}) in E as [_ H]; apply H.
  - by destruct e.
Qed.

Lemma author_code_spec r status w w' : _refuse_author_code_or_reject (m_run r) (m_artifact_uri r) status w = (Ok tt, w') →
  ∃ uri flavors, located_row r uri (w_log w') ∧ Manifest uri flavors ∈ w_log w' ∧ refuse_author_code flavors = Ok tt.
Proof.
  unfold _refuse_author_code_or_reject. intros (flavors & w1 & E & H)%bind_inv_ok.
  assert (w' = w1 ∧ refuse_author_code flavors = Ok tt) as [-> Hr].
  { destruct (refuse_author_code flavors) as [[]|e]; [by injection H | by destruct e]. }
  unfold manifest_of, catch in E.
  match type of E with context [match ?m w with _ => _ end] => destruct (m w) as [[f|e] w2] eqn:Em end.
  2: { destruct (bool_decide (e = SystemExit)); done. }
  injection E as -> ->. apply bind_inv_ok in Em as (uri & w3 & Hu%uri_for_located & Em).
  unfold read_flavors in Em. apply bind_inv_ok in Em as (f & w4 & H4 & (u & w5 & [= _ <-] & [= -> <-])%bind_inv_ok).
  apply look_log in H4. exists uri, flavors. simpl. rewrite H4. split; [by apply located_mono|]. split; [|done].
  apply elem_of_app. right. by left.
Qed.

Lemma located_grows run artifact uri w w' : grows w w' → located run artifact uri (w_log w) → located run artifact uri (w_log w').
Proof. intros [l ->]. apply located_mono. Qed.

Lemma evaluate_logged uri w c w' : evaluate installed (detectors D) uri w = (Ok c, w') → Compared uri (flavor c) (status c) ∈ w_log w'.
Proof.
  unfold evaluate. intros ([f l] & w1 & _ & (c1 & w2 & [Hc ->]%lift_inv & (u & w3 & [= _ <-] & [= -> <-])%bind_inv_ok)%bind_inv_ok)%bind_inv_ok.
  assert (f = flavor c) as <-. { unfold compare_declared in Hc. apply res_bind_inv_ok in Hc as (lib & _ & Hc). destruct (fold_left _ _ _). by injection Hc as <-. }
  simpl. apply elem_of_app. right. by left.
Qed.
Lemma evaluate_spec r status w o w' : _evaluate_or_reject D installed (m_run r) (m_artifact_uri r) status w = (Ok o, w') →
  given (m_run r) || given (m_artifact_uri r) = true →
  ∃ c uri, o = Some c ∧ located_row r uri (w_log w') ∧ Compared uri (flavor c) (MlCompat.status c) ∈ w_log w' ∧ servable c = true.
Proof.
  unfold _evaluate_or_reject. intros E Hg. rewrite Hg in E. simpl in E.
  apply bind_inv_ok in E as (c & w1 & E & H). destruct (servable c) eqn:Es; [|done]. injection H as <- <-.
  unfold compatibility_of, catch in E.
  match type of E with context [match ?m w with _ => _ end] => destruct (m w) as [[c1|e] w2] eqn:Em end.
  2: { destruct (bool_decide (e = ArtifactUnreadable)); done. }
  injection E as -> ->. destruct (given (m_run r)) eqn:Er.
  - unfold evaluate_run in Em. apply bind_inv_ok in Em as (uri & w3 & Hu & Em).
    apply (resolve_located _ (m_artifact_uri r)) in Hu; [|done].
    assert (G : grows w3 w1) by (eapply (kept grows); [|exact Em]; unfold evaluate, _read_declarations; growing fail).
    apply evaluate_logged in Em. exists c, uri. split_and!; try done. by eapply located_grows.
  - apply evaluate_logged in Em. exists c, (default ""%string (m_artifact_uri r)). split_and!; try done. unfold located. by rewrite Er.
Qed.
End events.

Lemma shown_addressed bucket company r log : shown bucket (address_of company r) log → given (m_run r) || given (m_artifact_uri r) = true.
Proof.
  intros [Ha _]. unfold admissible, check_address in Ha. simpl in Ha. destruct (given (m_run r)); [done|]. simpl in *.
  destruct (m_artifact_uri r) as [u|]; simpl in *; [|done]. case_bool_decide; done.
Qed.

(** ** Deployment *)

Section deployment.
Context (P : platform).
Abbreviation D := (served P).

(** The reasons a model may serve: its address is the tenant's, its detector is
    loaded, its manifest ships no code of its author's, this environment
    honours what it declares, and an upload was seen to load and score here. *)
Record may_serve (company : string) (r : model_row) (log : list event) : Prop := {
  ms_address : shown (bucket D) (address_of company r) log;
  ms_detector : ∃ name d, m_detector r = Some name ∧ get_detector name (detectors D) = Some d;
  ms_manifest : ∃ uri flavors, located_row r uri log ∧ Manifest uri flavors ∈ log ∧ refuse_author_code flavors = Ok tt;
  ms_compared : ∃ uri f v, located_row r uri log ∧ Compared uri f v ∈ log ∧ v ≠ INCOMPATIBLE;
  ms_probed : given (m_run r) = false → Probed (default ""%string (m_artifact_uri r)) true ∈ log
}.

Lemma check_detector_spec r w w' : check_detector P r w = (Ok tt, w') →
  ∃ name d, m_detector r = Some name ∧ get_detector name (detectors D) = Some d.
Proof.
  unfold check_detector. case_match eqn:E; [done|]. intros _. bool_hyps. destruct (m_detector r) as [n|]; [|done].
  match goal with H : is_Some _ |- _ => destruct H as [d Hd] end. by exists n, d.
Qed.
Lemma probe_logged sg pf ut fate uri s w o w' : probe D sg pf ut fate uri s w = (Ok o, w') → Probed uri (p_ok o) ∈ w_log w'.
Proof.
  unfold probe. intros (x & w1 & _ & (u & w2 & [= _ <-] & [= -> <-])%bind_inv_ok)%bind_inv_ok.
  simpl. apply elem_of_app. right. by left.
Qed.
Lemma derived_spec company r pl w o w' : derived_profile P company r pl w = (Ok o, w') → given (m_run r) = false →
  Probed (default ""%string (m_artifact_uri r)) true ∈ w_log w'.
Proof.
  unfold derived_profile, provenance_of. intros E Hg. rewrite Hg in E. rewrite bool_decide_true in E by done.
  apply bind_inv_ok in E as (res & w1 & Hp%probe_logged & (out & w2 & [_ ->]%lift_inv & E)%bind_inv_ok).
  unfold probe_refused in E. destruct (p_ok res) eqn:Eo; [|done]. by injection E as _ <-.
Qed.

Lemma may_serve_grows company r w w' : grows w w' → may_serve company r (w_log w) → may_serve company r (w_log w').
Proof.
  intros [l ->] [Ha Hd (u & f & ? & ? & ?) (u' & f' & v & ? & ? & ?) Hp]. split; [by apply shown_mono|done| | |].
  - exists u, f. split_and!; [by apply located_mono| |done]. apply elem_of_app. by left.
  - exists u', f', v. split_and!; [by apply located_mono| |done]. apply elem_of_app. by left.
  - intros H'. apply elem_of_app. left. by apply Hp.
Qed.


Lemma compat_grows company id v : respects grows (update_model_compatibility company id v).
Proof. unfold update_model_compatibility, change_by. growing fail. Qed.
Lemma profile_grows company id v : respects grows (update_model_reference_profile company id v).
Proof. unfold update_model_reference_profile, change_by. growing fail. Qed.

Lemma status_grows company id v : respects grows (update_model_status company id v).
Proof. unfold update_model_status, change_by. growing fail. Qed.
Lemma writer_vouched_grows company w w' : grows w w' → writer_vouched company (w_log w) → writer_vouched company (w_log w').
Proof.
  intros G (uid & user & a & u & ? & Ha & ? & ? & ? & ? & Hs & ?). exists uid, user, a, u.
  split_and!; try done; by eapply grows_elem.
Qed.

Lemma gate_spec company id r w w' : canonical company → deployment_gate P company id r w = (Ok tt, w') →
  may_serve company r (w_log w').
Proof.
  intros Hc. unfold deployment_gate.
  intros ([] & w1 & E1 & ([] & w2 & E2 & ([] & w3 & E3 & (c & w4 & E4 & E)%bind_inv_ok)%bind_inv_ok)%bind_inv_ok)%bind_inv_ok.
  pose proof (admit_spec D _ _ _ _ _ _ E1 (Some (record_provenance r))) as Ha.
  apply check_detector_spec in E2 as Hd. apply (author_code_spec r) in E3 as Hm.
  pose proof (shown_addressed _ _ _ _ Ha) as Hg.
  destruct (evaluate_spec D (installed P) r _ _ _ _ E4 Hg) as (c' & uri & -> & Hloc & Hcmp & Hserv).
  assert (G2 : grows w1 w2) by (eapply (kept grows); [|exact E2]; apply check_detector_reads; apply _).
  assert (G3 : grows w2 w3) by (eapply (kept grows); [|exact E3]; apply (author_code_reads D); apply _).
  assert (G4 : grows w3 w4) by (eapply (kept grows); [|exact E4]; apply (evaluate_reads D); apply _).
  apply bind_inv_ok in E as (b & w5 & E5 & (pl & w6 & E6 & (o & w7 & E7 & E8)%bind_inv_ok)%bind_inv_ok).
  assert (G5 : grows w4 w5) by (eapply (kept grows); [|exact E5]; apply compat_grows).
  assert (G6 : grows w5 w6) by (eapply (kept grows); [|exact E6]; apply plan_serves; apply _).
  assert (G7 : grows w6 w7) by (eapply (kept grows); [|exact E7]; apply derived_profile_serves; [apply _|done]).
  assert (G8 : grows w7 w').
  { destruct o as [d|]; [|by injection E8 as <-]. eapply (kept grows); [|exact E8].
    apply respects_bind; [apply _ | apply profile_grows | intros ?; apply respects_ret, _]. }
  assert (G47 : grows w4 w') by exact (transitivity G5 (transitivity G6 (transitivity G7 G8))).
  assert (G37 : grows w3 w') by exact (transitivity G4 G47).
  split.
  - assert (G17 : grows w1 w') by exact (transitivity G2 (transitivity G3 G37)). destruct G17 as [l ->]. by apply shown_mono.
  - done.
  - destruct Hm as (u & f & Hl & Hin & ?). exists u, f. split_and!; [exact (located_grows _ _ _ _ _ G37 Hl)|exact (grows_elem _ _ _ G37 Hin)|done].
  - exists uri, (flavor c'), (MlCompat.status c'). split_and!; [exact (located_grows _ _ _ _ _ G47 Hloc) | exact (grows_elem _ _ _ G47 Hcmp)|]. unfold servable in Hserv. by bool_hyps.
  - intros Hr. eapply grows_elem; [exact G8|]. by eapply derived_spec.
Qed.

(** *** The status of a model *)

Definition status_of (schema key : string) (sh : shared) : option string := m_status <$> t_models (tenant_of schema sh) !! key.
Definition same_status (t t' : tenant) : Prop := ∀ key, m_status <$> t_models t' !! key = m_status <$> t_models t !! key.
#[export] Instance same_status_refl : Reflexive same_status.
Proof. by intros t key. Qed.
#[export] Instance same_status_trans : Transitive same_status.
Proof. intros a b c H1 H2 key. by rewrite H2, H1. Qed.

Lemma change_same_status id f t a t' : (∀ r, m_status (f r) = m_status r) → change_model id f t = Ok (a, t') → same_status t t'.
Proof.
  intros Hf. unfold change_model. destruct (t_models t !! id) as [r|] eqn:E; [|by intros [= _ <-]].
  case_bool_decide; [|done]. intros [= _ <-] key. simpl. destruct (decide (id = key)) as [<-|Hne].
  - rewrite lookup_insert_eq, E. simpl. by rewrite Hf.
  - by rewrite lookup_insert_ne.
Qed.
Lemma change_by_same company id f : (∀ r, m_status (f r) = m_status r) → respects (keeps same_status) (change_by company id f).
Proof.
  intros Hf. unfold change_by. keeping ltac:(apply (tenant_call_keeps same_status); intros ? ? ? ?; by apply change_same_status).
Qed.

(** A status is set for one model, or for none. *)
Definition sets_status (schema key s : string) (sh sh' : shared) : Prop :=
  status_of schema key sh' = Some s ∧
  ∀ schema' key', (schema', key') ≠ (schema, key) → status_of schema' key' sh' = status_of schema' key' sh.

Lemma set_status_tenant schema key s t a t' sh : tenant_of schema sh = t → change_model key (with_status s) t = Ok (a, t') →
  on_tenants same_status sh (set_tenant schema t' sh) ∨ sets_status schema key s sh (set_tenant schema t' sh).
Proof.
  intros Ht. unfold change_model. destruct (t_models t !! key) as [r|] eqn:E.
  2: { intros [= _ <-]. left. apply (set_tenant_keeps same_status). rewrite Ht. reflexivity. }
  case_bool_decide; [|done]. intros [= _ <-]. right. unfold sets_status, status_of, set_tenant, tenant_of. simpl. split.
  - by rewrite lookup_insert_eq; simpl; rewrite lookup_insert_eq.
  - intros schema' key' Hne. destruct (decide (schema' = schema)) as [->|Hs].
    + rewrite lookup_insert_eq. simpl. rewrite lookup_insert_ne by congruence. unfold tenant_of in Ht. by rewrite Ht.
    + by rewrite lookup_insert_ne.
Qed.

Lemma status_step company id s w r w' : lawful same_status w → update_model_status company id s w = (r, w') →
  on_tenants same_status (w_shared w) (w_shared w') ∨
  ∃ schema key, schema_name company = Ok schema ∧ pg_uuid id = Ok key ∧ sets_status schema key s (w_shared w) (w_shared w').
Proof.
  intros Hl. unfold update_model_status. unfold mbind at 1, M_bind at 1.
  destruct (change_by company id _ w) as [[b|e] w1] eqn:E1;
    destruct (change_by_cases same_status _ _ _ _ _ _ Hl E1) as [_ Hc]; intros E.
  all: assert (Hw : w_shared w' = w_shared w1) by
    (revert E; unfold lift, mbind, M_bind; try (destruct (schema_name company); [|by intros [= _ <-]];
      destruct (pg_uuid id); [|by intros [= _ <-]]; destruct b); by intros [= _ <-]).
  all: rewrite Hw; destruct Hc as [Hs|(schema & key & sh & a & t' & Hsn & Hk & Hs & Hch & ->)]; [by left|].
  all: destruct (set_status_tenant schema key s _ a t' sh eq_refl Hch) as [H|[H1 H2]]; [left; by etrans|right; exists schema, key].
  all: split_and!; try done; (split; [done|]); intros k k' Hne; rewrite H2 by done; apply Hs.
Qed.

(** C3: A deployment changes the status of the model asked for or of none, for its
    tenant's writer; and to a status that serves only a model that may serve.
    This holds of every outcome, a lost reply included, as long as nobody else
    sets statuses meanwhile. *)
Theorem deployed_models_passed cr id environment w r w' : lawful same_status w →
  deploy_model P cr id environment w = (r, w') →
  on_tenants same_status (w_shared w) (w_shared w') ∨
  ∃ company schema key row, writer_vouched company (w_log w') ∧ schema_name company = Ok schema ∧ pg_uuid id = Ok key ∧
    ModelRead schema key row ∈ w_log w' ∧ sets_status schema key environment (w_shared w) (w_shared w') ∧
    environment ∈ valid_statuses ∧ (environment ∈ SERVING → may_serve company row (w_log w')).
Proof.
  intros L. unfold deploy_model. intros E.
  apply (handler_step same_status) in E as [?|(company & w1 & E1 & S1 & L1 & _ & E)];
    [by left| |apply writer_of_reads, _|apply writer_of_reads, _|done].
  apply writer_of_spec in E1 as (Hc & Hv). unfold deploy in E. case_bool_decide as He; simpl in E; [|injection E as _ <-; by left].
  apply (handler_step same_status) in E as [?|(o & w2 & E2 & S2 & L2 & G2 & E)];
    [left; by etrans| |apply (get_model_reads D), _|apply (get_model_reads D), _|done].
  destruct o as [row|]; [|injection E as _ <-; left; by etrans].
  destruct (get_model_spec _ _ _ _ _ E2) as (schema & key & Hsn & Hk & Hmr).
  apply (handler_step same_status) in E as [?|([] & w3 & E3 & S3 & L3 & G3 & E)];
    [left; exact (transitivity S1 (transitivity S2 H))|..|done].
  2, 3: case_bool_decide; [|apply respects_ret, _]; apply gate_serves; first [done | apply _ |
    intros ???; first [apply compat_grows | apply profile_grows | by apply change_by_same]].
  assert (Hgate : environment ∈ SERVING → may_serve company row (w_log w3)).
  { intros H. rewrite bool_decide_true in E3 by done. by eapply gate_spec. }
  assert (S13 : on_tenants same_status (w_shared w) (w_shared w3)) by exact (transitivity S1 (transitivity S2 S3)).
  assert (Hu : ∃ o, update_model_status company id environment w3 = (o, w')).
  { revert E. unfold mbind, M_bind. destruct (update_model_status company id environment w3) as [[[]|e] w4];
      intros [= _ <-]; by eexists. }
  destruct Hu as [o Hu]. assert (G4 : grows w3 w') by (eapply (kept grows); [apply status_grows|exact Hu]).
  destruct (status_step _ _ _ _ _ _ L3 Hu) as [S|(schema' & key' & Hsn' & Hk' & Hset)]; [left; by etrans|right].
  assert (schema' = schema) as -> by congruence. assert (key' = key) as -> by congruence.
  destruct Hset as [H1 H2]. exists company, schema, key, row. split_and!; try done.
  - assert (G : grows w1 w') by exact (transitivity G2 (transitivity G3 G4)). by eapply writer_vouched_grows.
  - exact (grows_elem _ _ _ (transitivity G3 G4) Hmr).
  - split; [done|]. intros k k' Hne. rewrite H2 by done. apply S13.
  - intros H. eapply may_serve_grows; [exact G4 | by apply Hgate].
Qed.
End deployment.
