(* ===== verification/MlRegisterProps.v ===== *)
(** * What registering a model guarantees

    Over MlGates: a row is added to a tenant's models only for what passed every
    gate, with the detector its output is read by, the provenance that was seen
    and a baseline that is a sample of the inputs it is bound to. *)

From stdpp Require Import base strings list gmap sets sorting.
From Stdlib Require Import ZArith Lia.
From S2P Require Import Prelude PyText PyNum PyJson Tenancy SqlBinding MlExtensions MlFeatures MlFeatureProps MlDetectors MlWorld MlTrust MlLoading MlLoadProps MlCompat MlProfile MlRepository MlKeeps MlRepositoryProps MlAuth MlServing MlServingProps MlGates MlProbe MlModels MlGateProps MlModelsProps.

Local Open Scope nat_scope.

(** ** The insert *)

Lemma uuids_of_spec r row : uuids_of r = Ok row →
  m_run row = m_run r ∧ m_artifact_uri row = m_artifact_uri r ∧ m_provenance row = m_provenance r ∧
  m_detector row = m_detector r ∧ m_status row = m_status r ∧ m_profile row = m_profile r ∧
  ∀ c, m_config row = Some c → ∃ s, m_config r = Some s ∧ pg_uuid s = Ok c.
Proof.
  unfold uuids_of. intros (e & _ & (cf & Hc & (sn & _ & [= <-])%res_bind_inv_ok)%res_bind_inv_ok)%res_bind_inv_ok.
  simpl. split_and!; [done..|]. intros c ->. destruct (m_config r) as [s|]; [|done].
  apply res_bind_inv_ok in Hc as (v & Hv & [= ->]). by exists s.
Qed.

Lemma insert_held_spec new_id bound r t id t' : insert_held new_id bound r t = Ok (id, t') →
  ∃ row, uuids_of r = Ok row ∧ id = new_id t ∧ t' = with_models t (<[id := row]> (t_models t)) ∧ m_status row ∈ STATUSES ∧
    ∀ i c, bound = Some (i, c) → c_inputs <$> t_configs t !! c = Some i.
Proof.
  unfold insert_held. destruct (match bound with Some (i, c) => negb _ | None => false end) eqn:Eb; [done|].
  intros (row & Hu & E)%res_bind_inv_ok. exists row. revert E. unfold insert_model.
  case_bool_decide as Es; simpl; [|done]. destruct (negb _); [done|]. destruct (negb _); [done|].
  destruct (existsb _ _); [done|]. destruct (negb _); [done|]. intros [= <- <-]. bool_hyps. split_and!; [done..|].
  intros i c ->. by bool_hyps.
Qed.

Section create.
Context (R : tenant → tenant → Prop) `{!Reflexive R} `{!Transitive R} (new_id : tenant → string).

Lemma create_model_cases company r b w o w' : lawful R w → create_model new_id company r b w = (o, w') → lawful R w' ∧
  (on_tenants R (w_shared w) (w_shared w') ∨
   ∃ schema sh bound id t', schema_name company = Ok schema ∧ on_tenants R (w_shared w) sh ∧ held b (m_config r) = Ok bound ∧
     insert_held new_id bound r (tenant_of schema sh) = Ok (id, t') ∧ w_shared w' = set_tenant schema t' sh).
Proof.
  intros Hl. unfold create_model, lift. unfold mbind at 1, M_bind at 1.
  destruct (schema_name company) as [schema|] eqn:Hs; [|intros [= _ <-]; split; [done|by left]].
  unfold mbind at 1, M_bind at 1. pose proof (look_keeps R (λ _, Ok tt) w Hl) as [S1 L1]. unfold final in S1, L1.
  destruct (look (λ _, Ok tt) w) as [[[]|e] w1]; simpl in S1, L1; [|intros [= _ <-]; split; [done|by left]].
  unfold mbind at 1, M_bind at 1. destruct (held b (m_config r)) as [bound|] eqn:Hb; [|intros [= _ <-]; split; [done|by left]].
  unfold catch, mbind, M_bind. destruct (tenant_call company _ w1) as [[id|e] w2] eqn:E;
    destruct (tenant_call_cases R _ _ _ _ _ L1 E) as [L2 Hc]; intros E2.
  all: assert (w_shared w' = w_shared w2 ∧ w_turns w' = w_turns w2) as [Ew Et]
    by (revert E2; simpl; try case_match; by intros [= _ <-]).
  all: split; [unfold lawful; by rewrite Et|]; rewrite Ew.
  all: destruct Hc as [Hk|(schema' & sh & a & t' & Hs' & Hk & Hi & Hw)]; [left; by etrans|right].
  all: exists schema', sh, bound, a, t'; split_and!; try done; [congruence | by etrans].
Qed.
End create.

(** ** What the gate decides *)

Section decided.
Context (D : deployment) (even : nat → nat → list nat).
Context (even_length : ∀ n m, length (even n m) = m) (even_bound : ∀ n m i, (0 < n) → i ∈ even n m → (i < n)).

(** A detector that reads what such a model's output means. *)
Definition detector_fits (q : ModelCreateRequest) (flavor : json) (name : string) : Prop :=
  ∃ d, get_detector name (detectors D) = Some d ∧
    if given (r_mlflow_run_id q)
    then truthy flavor = false ∨ d_flavors d = [] ∨ ∃ f, flavor = JStr f ∧ f ∈ d_flavors d
    else ∃ s f, r_score_semantics q = Some s ∧ s ∈ SCORE_SEMANTICS ∧ flavor = JStr f ∧ d_semantics d = s ∧ f ∈ d_flavors d.

Lemma matching_spec s flavor n : n ∈ matching (λ s f, detectors_for s f (detectors D)) s flavor →
  ∃ f d, flavor = JStr f ∧ get_detector n (detectors D) = Some d ∧ d_semantics d = s ∧ f ∈ d_flavors d.
Proof.
  unfold matching. destruct flavor; try by intros ?%not_elem_of_nil.
  intros (d & ? & ? & ?)%detectors_for_spec. naive_solver.
Qed.

Lemma uploaded_detector_fits q flavor n : given (r_mlflow_run_id q) = false →
  _uploaded_detector_or_refuse D (r_detector q) (r_score_semantics q) flavor = Ok n → detector_fits q flavor n.
Proof.
  intros Hg. unfold _uploaded_detector_or_refuse, semantics_verdict, judge_semantics.
  destruct (given (r_score_semantics q)) eqn:Hs; simpl; [|done]. destruct (r_score_semantics q) as [s|] eqn:Hq; [|done]. simpl.
  case_bool_decide as Hin; simpl; [|done]. destruct (negb (truthy flavor)); [done|].
  destruct (merge_sort _ _) as [|m l] eqn:Em; [done|].
  assert (Hm : m ∈ matching (λ s f, detectors_for s f (detectors D)) s flavor).
  { rewrite <- (merge_sort_Permutation String.le), Em. left. }
  intros E. assert (Hn : n ∈ matching (λ s f, detectors_for s f (detectors D)) s flavor).
  { revert E. destruct (negb (given (r_detector q))); [by intros [= <-]|]. case_bool_decide; simpl; [|done]. by intros [= <-]. }
  apply matching_spec in Hn as (f & d & -> & ? & ? & ?). exists d. split; [done|]. rewrite Hg. by exists s, f.
Qed.
Lemma kernel_detector_fits q flavor n : given (r_mlflow_run_id q) = true →
  _kernel_detector_or_refuse D (r_detector q) flavor = Ok n → detector_fits q flavor n.
Proof.
  intros Hg. unfold _kernel_detector_or_refuse. set (name := if given _ then _ else _).
  destruct (get_detector name (detectors D)) as [d|] eqn:Ed; [|done]. case_match eqn:E; [done|]. intros [= <-].
  exists d. split; [done|]. rewrite Hg. destruct (truthy flavor); [|by left]. right. simpl in E.
  case_bool_decide as Hf; [by left|]. right. simpl in E. destruct flavor; try done. exists s. by bool_hyps.
Qed.

(** A baseline stored: none, one refused with its reason, or a sample of the bound inputs. *)
Definition baseline_ok (profile : json) (inputs : option feature_config) : Prop :=
  truthy profile = false ∨ (∃ reason, profile = JDict (refused_baseline reason)) ∨
  ∃ p i, profile = JDict p ∧ inputs = Some i ∧ sample_refusal (py_repr D) (JDict p) (base_sensors i) = Ok None.

Lemma no_base_no_sample p : sample_refusal (py_repr D) p [] ≠ Ok None.
Proof.
  unfold sample_refusal. destruct p as [| | | | | |p]; try done. destruct (negb _); [done|].
  destruct (jget "columns" p); try done. by destruct (jget "sample" p).
Qed.

Lemma judged_profile_ok profile i out :
  judged_profile D even profile (match i with Some c => base_sensors c | None => [] end) = Ok out → baseline_ok out i.
Proof.
  unfold judged_profile. set (base := match i with Some c => base_sensors c | None => [] end).
  destruct (truthy profile) eqn:Et; simpl; [|by intros [= <-]; left]. intros (reason & Hr & E)%res_bind_inv_ok.
  destruct reason as [r|]; [injection E as <-; right; left; by exists r|].
  destruct profile as [| | | | | |p]; try done. destruct (supplied_scores_refusal p); [done|].
  destruct (accepted_sample_ok (py_repr D) even even_length even_bound p base Hr) as (o & rows & ? & ? & ? & ? & Ho & Hok & _).
  rewrite Ho in E. injection E as <-. right. right. subst base. destruct i as [i|]; [by exists o, i|].
  by apply no_base_no_sample in Hok.
Qed.

Lemma bind_inputs_spec company q refusal w b w' : _bind_inputs_and_baseline D even company q refusal w = (Ok b, w') →
  baseline_ok (b_profile b) (b_inputs b) ∧ (given (r_feature_config_id q) = true → is_Some (b_inputs b)).
Proof.
  unfold _bind_inputs_and_baseline. intros (config & w1 & Hc & (ids & w2 & _ & (p & w3 & [Hp ->]%lift_inv & [= <- _])%bind_inv_ok)%bind_inv_ok)%bind_inv_ok.
  simpl. split.
  - destruct (given refusal); [injection Hp as <-; right; left; by eexists|].
    apply (judged_profile_ok (r_reference_profile q)). by destruct config.
  - intros Hg. rewrite Hg in Hc. apply bind_inv_ok in Hc as ([c|] & w4 & _ & Hc); [|done]. injection Hc as <- _. by eexists.
Qed.
End decided.

(** ** Registration *)

Definition same_models (t t' : tenant) : Prop := t_models t' = t_models t.
#[export] Instance same_models_refl : Reflexive same_models.
Proof. by intros t. Qed.
#[export] Instance same_models_trans : Transitive same_models.
Proof. intros a b c H1 H2. unfold same_models in *. congruence. Qed.

(** A row is added to one tenant's models, and no other model is touched. *)
Definition adds_model (schema id : string) (row : model_row) (sh sh' : shared) : Prop :=
  t_models (tenant_of schema sh') = <[id := row]> (t_models (tenant_of schema sh)) ∧
  ∀ other, other ≠ schema → t_models (tenant_of other sh') = t_models (tenant_of other sh).

Section registration.
Context (D : deployment) (installed : string → option string) (even : nat → nat → list nat) (new_id : tenant → string).
Context (even_length : ∀ n m, length (even n m) = m) (even_bound : ∀ n m i, (0 < n) → i ∈ even n m → (i < n)).

(** What a registered row is: what the request says, from where it was seen to
    come, of a manifest without its author's code, honoured here, read by a
    detector that fits it, bound to a configuration that still says what was
    checked, with a baseline that is a sample of its inputs. *)
Record registered (company : string) (q : ModelCreateRequest) (row : model_row) (configs : gmap string config_row)
    (log : list event) : Prop := {
  rg_status : m_status row = r_status q ∧ m_status row ∈ STATUSES;
  rg_origin : m_run row = r_mlflow_run_id q ∧ m_artifact_uri row = r_artifact_uri q ∧
    m_provenance row = Some (provenance_of (r_mlflow_run_id q) (r_artifact_uri q));
  rg_address : shown (bucket D) (address_of company row) log;
  rg_manifest : ∃ uri flavors, located_row row uri log ∧ Manifest uri flavors ∈ log ∧ refuse_author_code flavors = Ok tt;
  rg_detector : ∃ uri f v name, located_row row uri log ∧ Compared uri f v ∈ log ∧ v ≠ INCOMPATIBLE ∧
    m_detector row = Some name ∧ detector_fits D q f name;
  rg_baseline : ∃ i, baseline_ok D (m_profile row) i ∧
    ∀ c, m_config row = Some c → ∃ crow, configs !! c = Some crow ∧ i = Some (c_inputs crow)
}.

Lemma inserted_adds w_sh schema sh row id :
  on_tenants same_models w_sh sh →
  let sh' := set_tenant schema (with_models (tenant_of schema sh) (<[id := row]> (t_models (tenant_of schema sh)))) sh in
  adds_model schema id row w_sh sh' ∧ t_configs (tenant_of schema sh') = t_configs (tenant_of schema sh).
Proof.
  intros Hs. unfold adds_model. rewrite tenant_of_set. simpl. split; [|done]. split; [by rewrite (Hs schema)|].
  intros other Hne. rewrite tenant_of_set_ne by done. apply Hs.
Qed.

Lemma create_grows company r b : respects grows (create_model new_id company r b).
Proof. unfold create_model. growing fail. Qed.

(** Registration ends as its insert does. *)
Lemma creates company row0 b w (h : exn → M world (option string)) r w' : (∀ e w1, (h e w1).2 = w1) →
  (id ← catch (create_model new_id company row0 b) h; match id with Some id => mret id | None => refuse 500 "Failed to create model" end) w = (r, w') →
  ∃ o, create_model new_id company row0 b w = (o, w').
Proof.
  intros Hh. unfold catch, mbind, M_bind. destruct (create_model _ _ _ _ w) as [[[id|]|e] w1]; [by intros [= _ <-]; eexists..|].
  specialize (Hh e w1). destruct (h e w1) as [[[id|]|e'] w2]; simpl in Hh; subst w2; intros [= _ <-]; by eexists.
Qed.

(** The row inserted is the one that was judged, its ids canonical. *)
Lemma row_registered company q name c b row t log uri f v :
  let row0 := row_for q name c b in
  uuids_of row0 = Ok row → m_status row ∈ STATUSES →
  shown (bucket D) (address_of company row0) log →
  (∃ uri flavors, located_row row0 uri log ∧ Manifest uri flavors ∈ log ∧ refuse_author_code flavors = Ok tt) →
  located_row row0 uri log → Compared uri f v ∈ log → v ≠ INCOMPATIBLE → detector_fits D q f name →
  baseline_ok D (b_profile b) (b_inputs b) → (given (r_feature_config_id q) = true → is_Some (b_inputs b)) →
  (∀ bound, held (b_inputs b) (m_config row0) = Ok bound → ∀ i c, bound = Some (i, c) → c_inputs <$> t_configs t !! c = Some i) →
  registered company q row (t_configs t) log.
Proof.
  intros row0 Hu Hst Ha Hm Hl Hcmp Hv Hfit Hbase Hgiven Hbound.
  destruct (uuids_of_spec _ _ Hu) as (Hrun & Huri & Hprov & Hdet & Hstat & Hprof & Hconf).
  assert (Hloc : ∀ x, located_row row x log ↔ located_row row0 x log) by (intros x; by rewrite Hrun, Huri).
  split.
  - split; [by rewrite Hstat | done].
  - by rewrite Hrun, Huri, Hprov.
  - unfold address_of, record_provenance. by rewrite Hrun, Huri, Hprov.
  - destruct Hm as (x & fl & ? & ? & ?). exists x, fl. by rewrite Hloc.
  - exists uri, f, v, name. by rewrite Hloc, Hdet.
  - exists (b_inputs b). rewrite Hprof. split; [done|]. intros cid (s & Hs & Hid)%Hconf. simpl in Hs.
    assert (Hne : s ≠ ""%string) by (intros ->; by vm_compute in Hid).
    rewrite Hs in Hgiven. simpl in Hgiven. rewrite bool_decide_false in Hgiven by done. destruct (Hgiven eq_refl) as [i Hi].
    specialize (Hbound (Some (i, cid))). unfold held in Hbound. simpl in Hbound. rewrite Hi, Hs, bool_decide_false, Hid in Hbound by done.
    specialize (Hbound eq_refl i cid eq_refl). rewrite Hi. destruct (t_configs t !! cid) as [crow|]; [|done].
    exists crow. split; [done|]. by injection Hbound as ->.
Qed.

(** C4: A registration adds a row for what passed every gate, or nothing: whatever
    its outcome, as long as nobody else changes models meanwhile. *)
Theorem registered_models_passed company q refusal w r w' : lawful same_models w →
  register_model D installed even new_id q company refusal w = (r, w') →
  on_tenants same_models (w_shared w) (w_shared w') ∨
  ∃ schema id row, schema_name company = Ok schema ∧ adds_model schema id row (w_shared w) (w_shared w') ∧
    registered company q row (t_configs (tenant_of schema (w_shared w'))) (w_log w').
Proof.
  intros L. unfold register_model. set (run := r_mlflow_run_id q). set (uri := r_artifact_uri q).
  set (uploaded := bool_decide (provenance_of run uri = PROVENANCE_UPLOADED)).
  destruct (uploaded && negb (given uri)); [intros [= _ <-]; by left|]. intros E.
  apply (handler_step same_models) in E as [?|([] & w1 & E1 & S1 & L1 & _ & E)];
    [by left| |apply (admit_reads D), _|apply (admit_reads D), _|done].
  apply (handler_step same_models) in E as [?|([] & w2 & E2 & S2 & L2 & G2 & E)];
    [left; by etrans| |apply (author_code_reads D), _|apply (author_code_reads D), _|done].
  apply (handler_step same_models) in E as [H|(c & w3 & E3 & S3 & L3 & G3 & E)];
    [left; exact (transitivity S1 (transitivity S2 H))| |apply (evaluate_reads D), _|apply (evaluate_reads D), _|done].
  assert (S13 : on_tenants same_models (w_shared w) (w_shared w3)) by exact (transitivity S1 (transitivity S2 S3)).
  set (flavor := match c with Some c => MlCompat.flavor c | None => JNull end) in E.
  unfold mbind at 1, M_bind at 1, lift at 1 in E.
  set (detector := if uploaded then _ else _) in E. destruct detector as [name|e] eqn:Hd; [|injection E as _ <-; by left].
  apply (handler_step same_models) in E as [H|(b & w4 & E4 & S4 & L4 & G4 & E)];
    [left; by etrans| |apply (bind_reads D), _|apply (bind_reads D), _|done].
  assert (S14 : on_tenants same_models (w_shared w) (w_shared w4)) by (by etrans).
  set (row0 := row_for q name c b) in E.
  apply creates in E as [o Hcr]; [|intros [] ?; simpl; repeat case_bool_decide; done]. assert (G5 : grows w4 w') by (eapply (kept grows); [apply create_grows|exact Hcr]).
  destruct (create_model_cases same_models new_id _ _ _ _ _ _ L4 Hcr) as [_ [?|(schema & sh & bound & id & t' & Hsn & Hsh & Hb & Hi & Hw)]];
    [left; by etrans|right].
  destruct (insert_held_spec _ _ _ _ _ _ Hi) as (row & Hu & _ & -> & Hst & Hbound).
  exists schema, id, row. split; [done|]. rewrite Hw.
  destruct (inserted_adds (w_shared w) schema sh row id) as [Hadd Hcfg]; [by etrans|]. split; [done|]. rewrite Hcfg.
  assert (G3' : grows w3 w') by exact (transitivity G4 G5). assert (G2' : grows w2 w') by exact (transitivity G3 G3').
  pose proof (admit_spec D _ _ _ _ _ _ E1 (Some (record_provenance row0))) as Ha.
  destruct (author_code_spec row0 _ _ _ E2) as (mu & fl & Hml & Hmi & Hmr).
  destruct (evaluate_spec D installed row0 _ _ _ _ E3 (shown_addressed _ company row0 _ Ha)) as (c' & cu & -> & Hcl & Hci & Hcs).
  destruct (bind_inputs_spec D even even_length even_bound _ _ _ _ _ _ E4) as [Hbase Hgiven].
  apply (row_registered company q name (Some c') b row _ _ cu (MlCompat.flavor c') (MlCompat.status c')); try done.
  - assert (G1' : grows w1 w') by exact (transitivity G2 G2'). destruct G1' as [l ->]. by apply shown_mono.
  - exists mu, fl. split_and!; [exact (located_grows _ _ _ _ _ G2' Hml) | exact (grows_elem _ _ _ G2' Hmi) | done].
  - exact (located_grows _ _ _ _ _ G3' Hcl).
  - exact (grows_elem _ _ _ G3' Hci).
  - unfold servable in Hcs. by bool_hyps.
  - subst detector flavor uploaded. unfold provenance_of in Hd. destruct (given run) eqn:Hg.
    + by apply kernel_detector_fits.
    + by apply uploaded_detector_fits.
  - intros bound' Hb'. assert (bound' = bound) as -> by (cut (Ok bound' = Ok bound); [by intros [= ->] | by rewrite <- Hb', <- Hb]). done.
Qed.
End registration.
