(* ===== verification/MlRequests.v ===== *)
(** * Requests to the ML service

    Whatever requests a process serves, in whatever order and with whatever
    failures: over MlServing and MlModels, a relation that reading, serving and
    each write of a tenant's tables keep is kept by every request ([Writing]). *)

From stdpp Require Import base strings list gmap sets.
From Stdlib Require Import ZArith Lia.
From S2P Require Import Prelude PyText PyNum PyJson Tenancy SqlBinding MlExtensions MlFeatures MlFeatureProps MlDetectors MlWorld MlTrust MlLoading MlLoadProps MlCompat MlProfile MlRepository MlKeeps MlRepositoryProps MlAuth MlServing MlServingProps MlGates MlProbe MlModels MlGateProps.

Local Open Scope nat_scope.

Inductive request :=
  | Predict (cr : credentials) (q : InferenceRequest)
  | Register (cr : credentials) (q : ModelCreateRequest)
  | Deploy (cr : credentials) (id environment : string)
  | Retire (cr : credentials) (id : string)
  | NewConfig (cr : credentials) (f : FeatureConfigCreate)
  | ReadConfig (cr : credentials) (id : string)
  | ChangeConfig (cr : credentials) (id : string) (g : FeatureConfigUpdate)
  | RemoveConfig (cr : credentials) (id : string).

(** An exception is the answer of its request; only the process's end ends the rest. *)
Definition answered {A} (m : M world A) : M world unit :=
  catch (_ ← m; mret tt) (λ e, if bool_decide (e = SystemExit) then raise e else mret tt).

Section requests.
Context (P : platform).

Definition serve (q : request) : M world unit :=
  match q with
  | Predict cr q => answered (predict (served P) cr q)
  | Register cr q => answered (create_model_request (served P) (installed P) (even P) (new_id P) cr q)
  | Deploy cr id environment => answered (deploy_model P cr id environment)
  | Retire cr id => answered (MlModels.delete_model P cr id)
  | NewConfig cr f => answered (MlModels.create_feature_config P cr f)
  | ReadConfig cr id => answered (get_feature_config P cr id)
  | ChangeConfig cr id g => answered (MlModels.update_feature_config P cr id g)
  | RemoveConfig cr id => answered (MlModels.delete_feature_config P cr id)
  end.
Definition serve_all (l : list request) : M world unit := foldM (λ _ q, serve q) tt l.

(** ** Relations every request keeps *)

Class Writing (T : world → world → Prop) : Prop := {
  wr_serving :: Serving (served P) T;
  wr_create company r b : respects T (create_model (new_id P) company r b);
  wr_status company id s : respects T (update_model_status company id s);
  wr_profile company id p : respects T (update_model_reference_profile company id p);
  wr_compat company id v : respects T (update_model_compatibility company id v);
  wr_delete company id : respects T (MlRepository.delete_model company id);
  wr_new_config company c : respects T (MlRepository.create_feature_config (new_id P) company c);
  wr_change company id u : respects T (MlRepository.update_feature_config company id u);
  wr_remove company id : respects T (MlRepository.delete_feature_config company id)
}.

Section writing.
Context (T : world → world → Prop) {HT : Writing T}.

Lemma answered_keeps {A} (m : M world A) : respects T m → respects T (answered m).
Proof. intros H. unfold answered. reading (served P) ltac:(apply H). Qed.

Lemma resolve_company_reads cr body :
  respects T (_resolve_company_id (jwt_decode (served P)) (py_repr (served P)) (internal_token (served P)) cr body).
Proof. unfold _resolve_company_id, refuse. reading (served P) ltac:(apply (get_company_reads (served P))). Qed.
Lemma resolved_canonical cr body w company w' :
  _resolve_company_id (jwt_decode (served P)) (py_repr (served P)) (internal_token (served P)) cr body w = (Ok company, w') →
  canonical company.
Proof. intros H. by apply resolve_spec in H as [? _]. Qed.

(** A step whose answer is a canonical id. *)
Lemma respects_canonical {A} (m : M world string) (f : string → M world A) : respects T m →
  (∀ w company w', m w = (Ok company, w') → canonical company) → (∀ company, canonical company → respects T (f company)) →
  respects T (company ← m; f company).
Proof.
  intros Hm Hc Hf w. unfold final, mbind, M_bind. pose proof (Hm w) as H. unfold final in H.
  destruct (m w) as [[c|e] w1] eqn:E; [|done]. simpl in H. etrans; [exact H|]. apply Hf. by eapply Hc.
Qed.

Lemma scored_serves company q row d : canonical company → respects T (scored (served P) company q row d).
Proof.
  intros Hc. unfold scored, refuse.
  reading (served P) ltac:(first [by apply sv_load | apply sv_transform | apply (get_config_reads (served P))]).
Qed.
Lemma predict_serves cr q : respects T (predict (served P) cr q).
Proof.
  unfold predict. apply respects_canonical; [apply resolve_company_reads | apply resolved_canonical|]. intros company Hc.
  unfold answer_failure, refuse. reading (served P) ltac:(first [apply (get_model_reads (served P)) | by apply scored_serves]).
Qed.
Lemma register_serves q company refusal :
  respects T (register_model (served P) (installed P) (even P) (new_id P) q company refusal).
Proof.
  unfold register_model, refuse.
  reading (served P) ltac:(first [apply (admit_reads (served P)) | apply (author_code_reads (served P))
    | apply (evaluate_reads (served P)) | apply (bind_reads (served P)) | apply wr_create]).
Qed.
Lemma create_request_serves cr q : respects T (create_model_request (served P) (installed P) (even P) (new_id P) cr q).
Proof. unfold create_model_request. apply respects_writer; [apply _|]. intros company _. apply register_serves. Qed.

Lemma deploy_serves cr id environment : respects T (deploy_model P cr id environment).
Proof.
  unfold deploy_model. apply respects_writer; [apply _|]. intros company Hc. unfold deploy, refuse.
  reading (served P) ltac:(first [apply (get_model_reads (served P)) | apply wr_status
    | apply gate_serves; [apply _ | apply wr_compat | apply wr_profile | done]]).
Qed.
Lemma retire_serves cr id : respects T (MlModels.delete_model P cr id).
Proof.
  unfold MlModels.delete_model. apply respects_writer; [apply _|]. intros company _. unfold retire, refuse.
  reading (served P) ltac:(first [apply (get_model_reads (served P)) | apply wr_delete]).
Qed.

Lemma new_config_serves cr f : respects T (MlModels.create_feature_config P cr f).
Proof.
  unfold MlModels.create_feature_config, validated, new_config, refuse.
  reading (served P) ltac:(first [apply (verify_reads (served P)) | apply (writer_reads (served P))
    | apply (company_reads (served P)) | apply wr_new_config]).
Qed.
Lemma read_config_serves cr id : respects T (get_feature_config P cr id).
Proof.
  unfold get_feature_config, refuse.
  reading (served P) ltac:(first [apply (get_company_reads (served P)) | apply (get_config_reads (served P))]).
Qed.
Lemma change_serves cr id g : respects T (MlModels.update_feature_config P cr id g).
Proof.
  unfold MlModels.update_feature_config. apply respects_writer; [apply _|]. intros company _.
  unfold validated, changed_config, _bound_refusal, refuse.
  reading (served P) ltac:(first [apply wr_change | apply (bound_models_reads (served P))]).
Qed.
Lemma remove_serves cr id : respects T (MlModels.delete_feature_config P cr id).
Proof.
  unfold MlModels.delete_feature_config. apply respects_writer; [apply _|]. intros company _.
  unfold removed_config, _bound_refusal, refuse.
  reading (served P) ltac:(first [apply wr_remove | apply (bound_models_reads (served P))]).
Qed.

Lemma serve_keeps q : respects T (serve q).
Proof.
  destruct q; apply answered_keeps;
    [apply predict_serves | apply create_request_serves | apply deploy_serves | apply retire_serves | apply new_config_serves
    | apply read_config_serves | apply change_serves | apply remove_serves].
Qed.
Lemma serve_all_keeps l : respects T (serve_all l).
Proof.
  unfold serve_all. generalize tt. induction l as [|q l IH]; intros u; simpl; [apply respects_ret, _|].
  apply respects_bind; [apply _ | apply serve_keeps | apply IH].
Qed.
End writing.
End requests.
