(* ===== verification/MlRequestProps.v ===== *)
(** * What no request undoes

    Over MlRequests: a bound configuration keeps what it computes (ADR-0041), and
    a process keeps its invariant: the switch and baselines as last read, files
    opened only as the rules allow, warm models only their tenants'. *)

From stdpp Require Import base strings list gmap sets.
From Stdlib Require Import ZArith Lia.
From S2P Require Import Prelude PyText PyNum PyJson Tenancy SqlBinding MlExtensions MlFeatures MlFeatureProps MlDetectors MlWorld MlTrust MlLoading MlLoadProps MlCompat MlProfile MlRepository MlKeeps MlRepositoryProps MlAuth MlServing MlServingProps MlGates MlProbe MlModels MlGateProps MlRequests.

Local Open Scope nat_scope.

Section bound.
Context (P : platform) {F : FreshIds (new_id P)}.

#[export] Instance bound_writing : Writing P (keeps t_fixed).
Proof.
  split; [apply _ | intros..].
  - by apply create_model_keeps.
  - apply status_keeps.
  - apply profile_keeps.
  - apply compatibility_keeps.
  - apply delete_keeps.
  - by apply create_config_keeps.
  - apply update_config_keeps.
  - apply delete_config_keeps.
Qed.

(** C6: Whatever requests are served, and whatever others who hold to the same rules
    do between them, every model stays, with the configuration it is bound to,
    and that configuration computes what it did when the model was bound. *)
Theorem bound_inputs_fixed l w r w' : lawful t_fixed w → serve_all P l w = (r, w') →
  ∀ schema m row, t_models (tenant_of schema (w_shared w)) !! m = Some row →
  ∃ row', t_models (tenant_of schema (w_shared w')) !! m = Some row' ∧ m_config row' = m_config row ∧
    ∀ c config, m_config row = Some c → t_configs (tenant_of schema (w_shared w)) !! c = Some config →
      ∃ config', t_configs (tenant_of schema (w_shared w')) !! c = Some config' ∧ c_inputs config' = c_inputs config.
Proof.
  intros L E schema. destruct (kept _ _ _ _ _ (serve_all_keeps P (keeps t_fixed) l) E L) as [H _]. exact (H schema).
Qed.
End bound.

Section process.
Context (P : platform).
Abbreviation D := (served P).
Context (Hbucket : bar_free (bucket D) = true) (Hsw : (0 <= switch_ttl D)%Z) (Hbl : (0 <= baseline_ttl D)%Z).
Context {HX : Extensions (switch_ttl D) (baseline_ttl D) (baseline_max D) (extra_transforms D)}.

Definition sound (w w' : world) : Prop := process_ok D w → process_ok D w'.
#[local] Instance sound_refl : Reflexive sound.
Proof. by intros w. Qed.
#[local] Instance sound_trans : Transitive sound.
Proof. intros a b c H1 H2 H. by apply H2, H1. Qed.

Lemma plain_sound {A} (m : M world A) : respects plain m → respects sound m.
Proof. intros H w Hw. eapply plain_ok; [apply H | done]. Qed.
Ltac plainly extra := respecting ltac:(first
  [ apply look_plain | apply log_plain; exact I | apply tenant_call_plain | extra ]).

#[local] Instance sound_reading : Reading D sound.
Proof.
  split; try apply _; intros.
  - apply plain_sound, look_plain.
  - apply plain_sound. by apply log_plain.
  - apply plain_sound, tenant_call_plain.
  - intros w [H1 H2].
    assert (respects loading (load_pyfunc (py_repr D) (build D) uri provenance)) as HL.
    { unfold load_pyfunc, _load_local_skops, _load_local_xgboost, open. respecting ltac:(first [apply look_loading | apply logged_loading]). }
    destruct (HL w) as [E _]. split; [by rewrite E|].
    eapply extends_inv; [apply load_pyfunc_extends | done].
Qed.
#[local] Instance sound_serving : Serving D sound.
Proof.
  split; [apply _| |].
  - intros e data w H. destruct (transform_on D e data w) as [o w'] eqn:E.
    unfold final. rewrite E. by eapply transform_on_spec.
  - intros company r Hc w H. destruct (load_model_checked D company r w) as [o w'] eqn:E.
    unfold final. rewrite E. by eapply load_checked_spec.
Qed.
#[local] Instance sound_writing : Writing P sound.
Proof.
  split; [apply _ | intros..]; apply plain_sound.
  - unfold create_model. plainly fail.
  - unfold update_model_status, change_by. plainly fail.
  - apply respects_bind; [apply _ | apply respects_lift, _ | intros; apply tenant_call_plain].
  - apply respects_bind; [apply _ | apply respects_lift, _ | intros; apply tenant_call_plain].
  - apply respects_bind; [apply _ | apply respects_lift, _ | intros; apply tenant_call_plain].
  - unfold MlRepository.create_feature_config. plainly fail.
  - unfold MlRepository.update_feature_config. plainly ltac:(apply get_config_plain).
  - unfold MlRepository.delete_feature_config. plainly fail.
Qed.

(** C7: A process keeps its invariant whatever it is asked. *)
Theorem process_stays_sound l w r w' : process_ok D w → serve_all P l w = (r, w') → process_ok D w'.
Proof. intros H E. exact (kept _ _ _ _ _ (serve_all_keeps P sound l) E H). Qed.
End process.
