(* ===== verification/MlRuns.v ===== *)
(** * Runs of the ML service

    A deployment with its built-in extensions, a tenant with one deployed model,
    and requests of its users: the theorems over MlServing and the files it is
    built from, applied to them. *)

From stdpp Require Import base strings list gmap sets.
From Stdlib Require Import ZArith Lia.
From Corelib Require Import SpecFloat.
From S2P Require Import Prelude PyText PyNum PyJson Tenancy SqlBinding Windows MlExtensions MlFeatures MlFeatureProps MlDetectors MlWorld MlTrust MlLoading MlLoadProps MlCompat MlProfile MlRepository MlKeeps MlRepositoryProps MlAuth MlServing MlServingProps MlGates MlProbe MlModels MlGateProps MlModelsProps MlRegisterProps MlRequests MlRequestProps.

Local Open Scope string_scope.

(** ** A process that has just started *)

Definition started (db : mldb) : serving :=
  {| s_db := db; s_now := 0; s_turns := []; sw_value := true; sw_expires := 0; sw_ever_read := false;
     s_cache := []; s_asked := [] |}.

Lemma started_ok st ct n db : serving_inv st ct n (started db).
Proof.
  split; simpl; [constructor|done| | |lia|constructor].
  - by intros i j t u x y _ H.
  - intros t x H. by apply not_elem_of_nil in H.
Qed.

Lemma nothing_loaded bucket build n sh s ts :
  loads_inv bucket build n {| w_shared := sh; w_serving := s; w_cache := []; w_turns := ts; w_log := [] |}.
Proof. split; simpl; [set_solver..|lia]. Qed.

#[local] Instance no_extensions st ct n : Extensions st ct n (λ _, None).
Proof. by split. Qed.

(** ** A deployment *)

Definition half : float := float_of_dec false 5 (-1).
Definition seven : float := float_of_dec false 7 0.
Definition sevens (l : list feature) (r : list float) : res float := Ok seven.

(** A classifier that is half certain whatever it reads. *)
Definition undecided : model :=
  {| own := {| predict_proba := Some (λ _, Ok {| shape := [1; 2]%nat; cells := [half; half] |}); decision_function := None |};
     MlDetectors.predict := λ _, Ok {| shape := [1]%nat; cells := [half] |}; get_raw_model := None |}.

Definition acme : string := uuid_str 1.
Definition pump : string := uuid_str 2.
Definition inputs_id : string := uuid_str 3.
Definition model_1 : string := uuid_str 4.
Definition ada : string := uuid_str 5.

Definition claims : dict := [("sub", JStr ada); ("company_id", JStr acme); ("sid", JStr "s1"); ("iat", JInt 100)].

Definition D1 : deployment :=
  {| jwt_decode := λ t, if bool_decide (t = "token") then Some claims else None;
     json_loads := λ _, Err ValueError; MlServing.py_repr := λ _, "?"; MlServing.py_pow := λ f _, Ok (Real f);
     MlServing.switch_ttl := 30000000; baseline_ttl := 60000000; baseline_max := 100; has_provider := true; has_switch := true;
     extra_transforms := λ _, None; detectors := builtin_detectors (λ x, x) sevens;
     MlServing.bucket := "store"; MlServing.build := λ _ _, Ok undecided; model_max := 4; internal_token := Some "secret" |}.

Definition temperature (k : string) : dict := [("sensor", JStr "temp"); ("params", JDict [("stat_type", JStr k)])].
Definition inputs_1 : feature_config :=
  {| base_sensors := ["temp"];
     transformations := [{| t_name := "now"; t_type := "identity"; t_rest := [("sensor", JStr "temp")] |};
                         {| t_name := "hourly"; t_type := "statistical"; t_rest := temperature "window_mean" |}] |}.
Definition config_1 : config_row :=
  {| c_equipment_type := "pump"; c_name := "inputs"; c_description := None; c_inputs := inputs_1; c_created_by := None |}.
Definition row_1 : model_row :=
  {| m_name := "watch"; m_version := 1; m_type := "classifier"; m_equipment := Some pump; m_status := "production";
     m_run := Some "run1"; m_artifact_uri := None; m_provenance := Some "kernel"; m_detector := Some "sklearn";
     m_config := Some inputs_id; m_sensor_ids := None; m_training_metrics := JNull; m_profile := JNull; m_compatibility := None |}.

Definition manifest_1 : dict :=
  [("python_function", JDict [("loader_module", JStr "mlflow.sklearn"); ("model_path", JStr "model.skops")]);
   ("sklearn", JDict [("serialization_format", JStr "skops"); ("code", JNull)])].
Definition artifact_1 : artifact :=
  {| manifest := Some manifest_1; a_root := "/tmp/m1"; real := λ p, p;
     is_file := λ p, bool_decide (p = "/tmp/m1/model.skops"); a_requirements := Some ["scikit-learn==1.5.0"] |}.

Definition schema_of (c : string) : string := match schema_name c with Ok s => s | Err _ => "" end.
Definition prefix_of (c : string) : string := match mlflow_name_prefix c with Ok s => s | Err _ => "" end.
Definition shared_1 : shared :=
  {| accounts := {[ 5%Z := {| u_active := true; u_company := Some 1%Z; u_company_active := true; u_role := Some "engineer";
                              u_superuser := false; u_must_change := false |} ]};
     ended_store := λ _, (0%Z, Ok None);
     tenants := {[ schema_of acme := {| t_models := {[ model_1 := row_1 ]}; t_configs := {[ inputs_id := config_1 ]};
                                        t_sensors := {[ (pump, "temp") := uuid_str 6 ]} |} ]};
     runs := {[ "run1" := "17" ]}; experiments := {[ "17" := prefix_of acme +:+ "pumps" ]};
     logged_models := {[ ("17", "run1") := [[("m-1", Some "run1")]] ]};
     artifacts := {[ "models:/m-1" := artifact_1 ]} |}.

Definition table_1 : string := default "" (agg_table DEFAULT_GRANULARITY).
Definition db_1 : mldb :=
  {| MlFeatures.config_row := None; newest := {[ (schema_of acme, table_1, pump, "temp") := (Some seven, Some half) ]} |}.
Definition world_1 : world :=
  {| w_shared := shared_1; w_serving := started db_1; w_cache := []; w_turns := []; w_log := [] |}.

Definition reading : dict := [("equipment_id", JStr pump); ("temp", JInt 8)].
Definition asks : InferenceRequest := {| model_id := model_1; sensor_data := reading; threshold := half; q_company_id := None |}.
Definition signed_in : credentials :=
  {| authorization := Some "Bearer token"; if_access := None; internal_service_token := None |}.

Lemma started_process : process_ok D1 world_1.
Proof. split; [apply started_ok | apply nothing_loaded]. Qed.

(** ** Requests *)

Abbreviation predicted := (predict D1 signed_in asks world_1).

Lemma answered_score_witness :
  process_ok D1 world_1 ∧ ∃ resp, predicted.1 = Ok resp ∧ process_ok D1 predicted.2 ∧
    ∃ row, ModelRead (schema_of acme) model_1 row ∈ w_log predicted.2 ∧
      score_of D1 acme (schema_of acme) row asks (w_log predicted.2) resp.
Proof.
  split; [exact started_process|].
  pose (resp := match predicted.1 with Ok a => a | Err _ => {| a_model_id := ""; a_prediction := half; a_is_anomaly := false;
    a_threshold := half; a_model_version := ""; a_degraded := false; a_neutralized_features := [] |} end).
  assert (E : predicted.1 = Ok resp) by (vm_compute; reflexivity). exists resp. split; [exact E|].
  destruct (answered_score D1 eq_refl ltac:(vm_compute; discriminate) ltac:(vm_compute; discriminate) signed_in asks world_1 _ _
              started_process (surjective_pairing _)) as [P H]. split; [exact P|].
  destruct (H resp E) as (company & schema & key & row & Ht & Hs & Hk & Hr & _ & Hso).
  assert (company = acme) as ->.
  { destruct Ht as [_ [(_ & Hi & _)|(uid & user & a & u & Hu & Ha & _ & Hc & -> & _)]]; [discriminate Hi|].
    assert (Hl : ∀ e, e ∈ w_log predicted.2 → match e with AccountRead _ (Some a) => u_company a = Some 1%Z | _ => True end).
    { apply Forall_forall. vm_compute. repeat constructor. }
    specialize (Hl _ Ha). simpl in Hl. rewrite Hc in Hl. injection Hl as ->. reflexivity. }
  assert (schema = schema_of acme) as -> by (unfold schema_of; rewrite Hs; reflexivity).
  assert (key = model_1) as -> by (vm_compute in Hk; injection Hk as <-; reflexivity).
  exists row. split; [exact Hr | exact Hso].
Defined.

Lemma is_ok_inv {A} (r : res A) : is_ok r = true → ∃ a, r = Ok a.
Proof. destruct r as [a|e]; [by exists a | done]. Qed.

Abbreviation warm := (load_model_for (MlServing.py_repr D1) "store" (MlServing.build D1) 4 acme row_1 world_1).
Lemma served_model_is_the_tenants_witness :
  loads_inv "store" (MlServing.build D1) 4 world_1 ∧ ∃ m, warm.1 = Ok m ∧ shown "store" (address_of acme row_1) (w_log warm.2) ∧
    ∃ uri a c, located (m_run row_1) (m_artifact_uri row_1) uri (w_log warm.2) ∧ Fetched uri a ∈ w_log warm.2 ∧
      Opened a (Some "kernel") c ∈ w_log warm.2 ∧ safe_open a (Some "kernel") c ∧ MlServing.build D1 a c = Ok m.
Proof.
  assert (I : loads_inv "store" (MlServing.build D1) 4 world_1) by apply nothing_loaded. split; [exact I|].
  assert (E : is_ok warm.1 = true) by (vm_compute; reflexivity).
  destruct (served_model_is_the_tenants (MlServing.py_repr D1) "store" (MlServing.build D1) 4 acme row_1 world_1 _ _ eq_refl
              ltac:(vm_compute; reflexivity) I (surjective_pairing _)) as [_ H].
  destruct (is_ok_inv _ E) as [m Em]. exists m. split; [exact Em | exact (H m Em)].
Defined.

(** ** What a process computes *)

Definition context_1 : TransformContext :=
  {| baseline_provider := true; ctx_equipment_id := JStr pump; ctx_company_id := acme |}.
Definition engine_1 : FeatureEngineeringEngine :=
  {| e_config := inputs_1; required_sensors := [JStr "temp"]; e_ctx := context_1; e_kill_switch := true |}.
Abbreviation computed := (transform (MlServing.py_repr D1) (MlServing.py_pow D1) 30000000 60000000 100 (λ _, None) engine_1 reading (started db_1)).

Lemma transform_spec_witness :
  serving_inv 30000000 60000000 100 (started db_1) ∧ ∃ out, computed.1 = Ok out ∧
    serving_inv 30000000 60000000 100 computed.2 ∧
    vector out = [Real (float_of_dec false 8 0); Real seven] ∧ Forall (present reading) (required_sensors engine_1).
Proof.
  split; [apply started_ok|].
  pose (out := match computed.1 with Ok o => o | Err _ => {| vector := []; neutralized_features := []; unavailable_features := [] |} end).
  assert (E : computed.1 = Ok out) by (vm_compute; reflexivity). exists out. split; [exact E|].
  destruct (transform_spec 30000000 60000000 100 (MlServing.py_repr D1) (MlServing.py_pow D1) (λ _, None)
              ltac:(vm_compute; discriminate) ltac:(vm_compute; discriminate) engine_1 reading (started db_1) _ _
              (started_ok _ _ _ _) (surjective_pairing _)) as [I H].
  split; [exact I|]. split; [vm_compute; reflexivity|]. apply (H out E).
Defined.

Lemma builtin_scores_on_scale_witness :
  ∃ d r, get_detector "outlier" (builtin_detectors (λ x, x) sevens) = Some d ∧ on_declared_scale half r.
Proof.
  pose (far := {| own := {| predict_proba := None; decision_function := Some (λ _, Ok {| shape := [1]%nat; cells := [seven] |}) |};
                  MlDetectors.predict := λ _, Ok {| shape := []; cells := [] |}; get_raw_model := None |}).
  eexists {| d_object := _; d_fn := outlier_detector (λ x, x); d_semantics := _; d_flavors := _ |}, _.
  split; [reflexivity|].
  eapply (builtin_scores_on_scale (λ x, x) sevens "outlier" _ [] far half {| d_equipment_id := JNull; reconstruction_scale := JNull |});
    reflexivity.
Defined.

Definition rival : detector :=
  {| d_object := "acme.detector"; d_fn := λ _ _ _ _, Err UninterpretableModel; d_semantics := DIRECT_SCORE; d_flavors := ["mlflow.xgboost"] |}.
Lemma loaded_registry_sound_witness :
  ∃ reg, load_detectors [("acme", rival)] (builtin_detectors (λ x, x) sevens) = Ok reg ∧
    "acme" ∈ detectors_for DIRECT_SCORE "mlflow.xgboost" reg ∧
    ∃ d', get_detector "sklearn" reg = Some d' ∧ d_object d' = "builtins_detectors.sklearn_detector".
Proof.
  eexists. split; [reflexivity|].
  assert (H := loaded_registry_sound (λ x, x) sevens [("acme", rival)] _ eq_refl). split; [|exact (proj1 H "sklearn" _ eq_refl)].
  apply (bool_decide_eq_true_1 _). vm_compute. reflexivity.
Defined.

Definition here (package : string) : option string :=
  if bool_decide (package = "scikit-learn") then Some "1.5.2" else if bool_decide (package = "numpy") then Some "2.1.0" else None.
Lemma compare_exact_witness :
  ∃ c, compare_declared here (builtin_detectors (λ x, x) sevens) (JStr "mlflow.sklearn")
         (pins ["numpy == 2.0.0"; "scikit-learn==1.5.1 # as trained"; "pandas==2.2"]) = Ok c ∧
    servable c = true ∧ status c = PATCH_DRIFT ∧ faults c = [] ∧
    ∃ kv, kv ∈ pins ["numpy == 2.0.0"; "scikit-learn==1.5.1 # as trained"; "pandas==2.2"] ∧ package_drifts here kv = true.
Proof.
  pose (l := pins ["numpy == 2.0.0"; "scikit-learn==1.5.1 # as trained"; "pandas==2.2"]). fold l.
  eexists. split; [vm_compute; reflexivity|].
  match goal with |- servable ?c = true ∧ _ => pose proof (compare_exact here (builtin_detectors (λ x, x) sevens) (JStr "mlflow.sklearn") l c) as H end.
  destruct H as [_ H]; [vm_compute; reflexivity|]. split; [reflexivity|]. split; [reflexivity|]. split; [reflexivity|].
  exact (proj2 (proj1 H eq_refl)).
Defined.

Definition sample_1 : dict :=
  [("schema_version", JInt 2); ("columns", JList [JStr "temp"]); ("sample", JDict [("temp", JList [JInt 1; JInt 2; JFloat half])])].
(** The engine of [inputs_1]'s base sensor and of a transformation that names
    another one as well. *)
Definition inputs_other : feature_config :=
  {| base_sensors := ["temp"]; transformations := [{| t_name := "now"; t_type := "identity"; t_rest := [("sensor", JStr "flow")] |}] |}.
Definition engine_other : FeatureEngineeringEngine :=
  {| e_config := inputs_other; required_sensors := [JStr "temp"; JStr "flow"]; e_ctx := context_1; e_kill_switch := true |}.

Lemma accepted_sample_readings_witness :
  ∃ out rows, accepted_sample (λ _ m, repeat 0%nat m) sample_1 = Ok out ∧ sample_rows out = Ok rows ∧ length rows = 3%nat ∧
    (∀ row, row ∈ rows → missing_sensors row [JStr "temp"; JStr "flow"] = Ok [JStr "flow"]).
Proof.
  destruct (accepted_sample_readings (λ _, "?") (λ _ m, repeat 0%nat m) (λ _ m, repeat_length 0%nat m)
              ltac:(intros n m i Hn Hi; apply list_elem_of_In, repeat_spec in Hi; lia)
              (MlServing.py_pow D1) 60000000 100 (λ _, None) sample_1 inputs_other context_1 true engine_other
              ltac:(vm_compute; reflexivity) ltac:(vm_compute; reflexivity))
    as (out & rows & columns & sample & kept & idx & Ho & _ & _ & _ & _ & _ & _ & Hr & _ & Hc).
  exists out, rows. split; [exact Ho|]. split; [exact Hr|]. split; [|exact Hc].
  vm_compute in Ho. injection Ho as <-. vm_compute in Hr. injection Hr as <-. reflexivity.
Defined.

(** ** Models registered, deployed and kept *)

Definition ids (t : tenant) : gset string := dom (t_models t) ∪ dom (t_configs t).
Definition free_id (t : tenant) : string := fresh (ids t).
#[local] Instance free_ids : FreshIds free_id.
Proof.
  assert (H : ∀ t, free_id t ∉ ids t) by (intros t; exact (is_fresh (ids t))).
  split; intros t; apply not_elem_of_dom; specialize (H t); unfold ids in H; set_solver.
Qed.

Definition P1 : platform :=
  {| served := D1; installed := here; even := λ _ m, repeat 0%nat m; new_id := free_id;
     signature_of := λ _, Some (ColumnSchema [(Some "temp", ColData "float64")]); predict_frame := λ _ _, Ok tt;
     untrusted_types := λ _, false; fate := λ _, Ends 2; derived_at := "2026-01-01T00:00:00+00:00" |}.

Definition asks_registration : ModelCreateRequest :=
  {| r_equipment_id := Some pump; r_model_name := "watch"; r_model_version := "2.1"; r_model_type := "classifier";
     r_detector := None; r_artifact_uri := None; r_score_semantics := None; r_status := "training"; r_training_metrics := None;
     r_feature_config_id := Some inputs_id; r_sensor_ids := None; r_mlflow_run_id := Some "run1";
     r_reference_profile := JDict sample_1 |}.
Abbreviation registering := (register_model D1 here (λ _ m, repeat 0%nat m) free_id asks_registration acme None world_1).

(** The model in training, with a feature sample: it is deployed, and its scores are derived. *)
Definition row_0 : model_row := with_profile (JDict sample_1) (with_status "training" row_1).
Definition world_0 : world :=
  with_shared (set_tenant (schema_of acme) {| t_models := {[ model_1 := row_0 ]}; t_configs := {[ inputs_id := config_1 ]};
                                              t_sensors := {[ (pump, "temp") := uuid_str 6 ]} |} shared_1) world_1.
Abbreviation deployed := (deploy_model P1 signed_in model_1 "production" world_0).

Lemma deployed_models_passed_witness :
  deployed.1 = Ok tt ∧ status_of (schema_of acme) model_1 (w_shared deployed.2) = Some "production" ∧
  ∃ company row, writer_vouched company (w_log deployed.2) ∧ may_serve P1 company row (w_log deployed.2).
Proof.
  split; [vm_compute; reflexivity|].
  assert (E : status_of (schema_of acme) model_1 (w_shared deployed.2) = Some "production") by (vm_compute; reflexivity).
  split; [exact E|].
  destruct (deployed_models_passed P1 signed_in model_1 "production" world_0 _ _ (Forall_nil_2 _) (surjective_pairing _))
    as [H|(company & schema & key & row & Hw & _ & _ & _ & _ & _ & Hs)].
  - specialize (H (schema_of acme) model_1). unfold status_of in E. rewrite E in H. vm_compute in H. discriminate H.
  - exists company, row. split; [exact Hw|]. apply Hs. left.
Defined.

Lemma registered_models_passed_witness :
  is_ok registering.1 = true ∧ ∃ row, m_status row = "training" ∧ m_detector row = Some "sklearn" ∧
    shown "store" (address_of acme row) (w_log registering.2).
Proof.
  split; [vm_compute; reflexivity|].
  destruct (registered_models_passed D1 here (λ _ m, repeat 0%nat m) free_id (λ _ m, repeat_length 0%nat m)
              ltac:(intros n m i Hn Hi; apply list_elem_of_In, repeat_spec in Hi; lia)
              acme asks_registration None world_1 _ _ (Forall_nil_2 _) (surjective_pairing _))
    as [H|(schema & id & row & Hs & Ha & [[Hst _] _ Hsh _ (uri & f & v & name & _ & Hc & _ & Hn & Hd) _])].
  - specialize (H (schema_of acme)). apply (f_equal (λ m, size m)) in H. vm_compute in H. discriminate H.
  - exists row. split; [exact Hst|]. split; [|exact Hsh]. rewrite Hn. f_equal.
    destruct Ha as [Hm _]. unfold schema_of in *. apply (f_equal (λ m, m_detector <$> m !! id)) in Hm.
    rewrite lookup_insert_eq in Hm. simpl in Hm. rewrite Hn in Hm.
    assert (Hd1 : ∀ x n, m_detector <$> t_models (tenant_of schema (w_shared registering.2)) !! x = Some (Some n) → n = "sklearn").
    { assert (schema = schema_of acme) as -> by (unfold schema_of; rewrite Hs; reflexivity).
      intros x n Hx. destruct (t_models _ !! x) as [r|] eqn:Er; [|discriminate Hx]. apply elem_of_map_to_list in Er.
      assert (Hall : Forall (λ kv, m_detector kv.2 = Some "sklearn") (map_to_list (t_models (tenant_of (schema_of acme) (w_shared registering.2)))))
        by (vm_compute; repeat constructor).
      rewrite Forall_forall in Hall. specialize (Hall _ Er). simpl in Hall. simpl in Hx. rewrite Hall in Hx. by injection Hx as <-. }
    exact (Hd1 _ _ Hm).
Defined.

Definition a_day : list request :=
  [Predict signed_in asks; Register signed_in asks_registration; Deploy signed_in model_1 "deprecated";
   ChangeConfig signed_in inputs_id {| g_equipment_type := None; g_name := Some "renamed"; g_description := None;
                                       g_base_sensors := Some []; g_transformations := None |};
   RemoveConfig signed_in inputs_id].
Abbreviation served_day := (serve_all P1 a_day world_1).
Lemma bound_inputs_fixed_witness :
  ∃ row config, t_models (tenant_of (schema_of acme) (w_shared served_day.2)) !! model_1 = Some row ∧ m_status row = "deprecated" ∧
    m_config row = Some inputs_id ∧
    t_configs (tenant_of (schema_of acme) (w_shared served_day.2)) !! inputs_id = Some config ∧ c_inputs config = inputs_1.
Proof.
  destruct (bound_inputs_fixed P1 a_day world_1 _ _ (Forall_nil_2 _) (surjective_pairing _) (schema_of acme) model_1 row_1)
    as (row & Hrow & Hc & Hcfg); [vm_compute; reflexivity|].
  destruct (Hcfg inputs_id config_1) as (config & Hconfig & Hi); [reflexivity | vm_compute; reflexivity|].
  exists row, config. split; [exact Hrow|]. split; [|split; [exact Hc|split; [exact Hconfig | exact Hi]]].
  vm_compute in Hrow. injection Hrow as <-. reflexivity.
Defined.

Lemma process_stays_sound_witness : process_ok D1 world_1 ∧ process_ok D1 served_day.2.
Proof.
  split; [exact started_process|].
  apply (process_stays_sound P1 eq_refl ltac:(vm_compute; discriminate) ltac:(vm_compute; discriminate) a_day world_1 _ _
           started_process (surjective_pairing _)).
Defined.

(** ** What modelling showed *)

(** A model registered as in production is scored with, though no deployment gate ever saw it. *)
Definition asks_production : ModelCreateRequest :=
  {| r_equipment_id := None; r_model_name := "other"; r_model_version := "1"; r_model_type := "classifier";
     r_detector := None; r_artifact_uri := None; r_score_semantics := None; r_status := "production"; r_training_metrics := None;
     r_feature_config_id := Some inputs_id; r_sensor_ids := None; r_mlflow_run_id := Some "run1"; r_reference_profile := JNull |}.
Example registered_into_production :
  let w := final (register_model D1 here (λ _ m, repeat 0%nat m) (λ _, uuid_str 7) asks_production acme None) world_1 in
  let q := {| model_id := uuid_str 7; sensor_data := reading; threshold := half; q_company_id := None |} in
  is_ok (predict D1 signed_in q w).1 = true ∧
  Forall (λ e, match e with StatusSet _ _ _ => False | _ => True end) (w_log (predict D1 signed_in q w).2).
Proof. split; [vm_compute; reflexivity | vm_compute; repeat constructor]. Qed.

(** A run id may end in a newline. *)
Example run_id_with_newline : is_run_id (String.append "run1" (String (Ascii.ascii_of_nat 10) EmptyString)) = true.
Proof. reflexivity. Qed.

(** A transformation whose type is a list is no validation error. *)
Example unhashable_type : checked_transform P1 [("name", JStr "f"); ("type", JList [])] = Err TypeError.
Proof. reflexivity. Qed.

(** Renaming a configuration to a name taken is answered as a store that is down. *)
Definition two_configs : world :=
  with_shared (set_tenant (schema_of acme)
    {| t_models := ∅; t_configs := <[ uuid_str 8 := {| c_equipment_type := "pump"; c_name := "other"; c_description := None;
                                                      c_inputs := inputs_1; c_created_by := None |} ]> {[ inputs_id := config_1 ]};
       t_sensors := ∅ |} shared_1) world_1.
Example renamed_to_a_taken_name :
  (update_feature_config P1 signed_in (uuid_str 8) {| g_equipment_type := None; g_name := Some "inputs"; g_description := None;
     g_base_sensors := None; g_transformations := None |} two_configs).1 =
  Err (HTTPException 500 "The feature configuration store could not be reached").
Proof. vm_compute. reflexivity. Qed.
