(* ===== verification/MlUpload.v ===== *)
(** * Upload capabilities: services/ml_service/api/upload_capability.py

    The record of an upload handle and its mint, on the hub's shared store: the
    synchronous [mint] over any adapter, and what the route of routers/models.py
    does once it knows its caller ([mint_upload]).  [live_listed]: every live
    upload handle is in its user's index, which lives at least as long, so that
    ending the user's sessions ends it. *)

From stdpp Require Import base strings list gmap.
From Stdlib Require Import ZArith Lia.
From S2P Require Import Prelude PyText PyJson Tenancy CapabilityAudit SqlBinding HubCapabilities ApiCapabilities ColdBroker TrackingPolicy PlaneCapabilities.

Local Open Scope string_scope.

#[local] Arguments uuid_str : simpl never.
#[local] Arguments uuid_parse : simpl never.
#[local] Arguments t_of : simpl never.
#[local] Arguments clean_text : simpl never.

Definition AUDIENCE_UPLOAD : string := "upload".
Definition _KEY_PREFIX : string := "nbcap:".
Definition DEFAULT_TTL_SECONDS : Z := 600.
Definition PLANE : string := "ml_service".
Definition _UPLOAD_INDEX_PREFIX : string := "nbcap-upload-user:".
Definition _SUSPENDED_PREFIX : string := "nbcap-suspended:".

Definition user_index_key (user : string) : string := _UPLOAD_INDEX_PREFIX +:+ user.
Definition suspended_key (company_id : string) : string := _SUSPENDED_PREFIX +:+ company_id.
Definition store_key (handle : string) : string := _KEY_PREFIX +:+ handle.

Definition _validated_tenant (company_id : string) : res string :=
  match uuid_parse company_id with Some u => Ok (uuid_str u) | None => Err ValueError end.

(** What a handle is bound to; the claim that names the user is any value. *)
Record upload_record := { r_user : json; r_company_id : string; r_audience : string; r_read_only : bool; r_handle_id : string }.

Definition record_json (r : upload_record) : json :=
  JDict [("user", r_user r); ("company_id", JStr (r_company_id r)); ("audience", JStr (r_audience r));
         ("read_only", JBool (r_read_only r)); ("handle_id", JStr (r_handle_id r))].

(** What the route answers with. *)
Record upload_grant := { capability : string; expires_in : Z; upload_url : option string }.

Section upload.
Context `{J : JsonCodec} `{I : IsoCodec} (py_repr : json → string).

Definition build_record (user : json) (company_id : string) : M hub (string * upload_record) :=
  if negb (truthy user) then raise ValueError else
  if bool_decide (company_id = "") then raise ValueError else
  company ← lift (_validated_tenant company_id);
  handle_id ← new_handle_id;
  handle ← draw_token;
  mret (handle, {| r_user := user; r_company_id := company; r_audience := AUDIENCE_UPLOAD; r_read_only := false;
                   r_handle_id := handle_id |}).

Definition minted_event (r : upload_record) (t : Z) : res fields :=
  event {| a_kind := "minted"; a_plane := PLANE; a_user := shown py_repr (r_user r);
           a_company_id := Some (r_company_id r); a_audience := Some (r_audience r);
           a_handle_id := Some (r_handle_id r); a_digest := None; a_reason := None; a_detail := None |} t.

(** [store_write]: the caller's adapter. *)
Definition mint (store_write : string → bytes → Z → fields → M hub unit) (user : json) (company_id : string) (ttl : Z) : M hub string :=
  if Z.leb ttl 0 then raise ValueError else
  r ← build_record user company_id;
  t ← gets now;
  e ← lift (minted_event r.2 t);
  _ ← store_write (store_key r.1) (json_dumps (record_json r.2)) ttl e;
  mret r.1.

(** The MULTI of the route: SADD and EXPIRE of the index, SET EX of the entry,
    XADD of the event. *)
Definition db_mint_upload (index handle : string) (v : bytes) (e : fields) (t : Z) (d : capdb) : unit * capdb :=
  (tt, append_event e
         (with_values <[store_key handle := (v, in_seconds t DEFAULT_TTL_SECONDS)]>
            (with_sets <[index := ({[handle]} ∪ sget t index d, in_seconds t DEFAULT_TTL_SECONDS)]> d))).

Definition index_of (r : upload_record) : string := user_index_key (py_str py_repr (r_user r)).

(** [configured]: the deployment has a capability store; [url]: its UPLOAD_GATEWAY_URL. *)
Definition mint_upload (configured : bool) (url : string) (user : json) (company_id : string) : M hub upload_grant :=
  if negb configured then raise (HTTPException 501 "This deployment has no capability store configured") else
  r ← catch (build_record user company_id)
            (λ e, if is_value_error e then raise (HTTPException 400 "no verified principal to bind to") else raise e);
  marker ← redis (db_get (suspended_key (r_company_id r.2)));
  match marker with
  | Some _ => raise (HTTPException 403 "This company is suspended.")
  | None =>
      t ← gets now;
      e ← lift (minted_event r.2 t);
      _ ← redis (db_mint_upload (index_of r.2) r.1 (json_dumps (record_json r.2)) e);
      mret {| capability := r.1; expires_in := DEFAULT_TTL_SECONDS;
              upload_url := if bool_decide (url = "") then None else Some url |}
  end.

(** ** What a mint writes *)

Definition bound (user company hid : string) : upload_record :=
  {| r_user := JStr user; r_company_id := company; r_audience := AUDIENCE_UPLOAD; r_read_only := false; r_handle_id := hid |}.

Lemma bound_entry user company hid : record_json (bound user company hid) = entry user company AUDIENCE_UPLOAD hid.
Proof. done. Qed.

Lemma _validated_tenant_ok c c' : _validated_tenant c = Ok c' → canonical c' ∧ c' ≠ "".
Proof.
  unfold _validated_tenant. destruct (uuid_parse c) as [u|] eqn:E; [|done]. intros [= <-]. split.
  - apply (canonical_idem c). unfold canonical_company_id. by rewrite E.
  - intros H%(f_equal String.length). by rewrite uuid_str_length in H.
Qed.

Lemma build_record_spec user company s r s' : build_record user company s = (Ok r, s') →
  truthy user = true ∧ db s' = db s ∧ now s' = now s ∧ steps s' = steps s ∧
  ∃ c x, _validated_tenant company = Ok c ∧
    r.2 = {| r_user := user; r_company_id := c; r_audience := AUDIENCE_UPLOAD; r_read_only := false;
             r_handle_id := uuid_str (x mod uuid_bound) |}.
Proof.
  unfold build_record. destruct (truthy user); [|done]. cbn [negb]. case_bool_decide as Hne; [done|].
  intros (c & s1 & [Hc ->]%lift_inv & H)%bind_inv_ok. apply bind_inv_ok in H as (hid & s2 & Hid & H).
  apply bind_inv_ok in H as (h & s3 & Hh & H). injection H as <- <-.
  unfold new_handle_id in Hid. destruct (ids s) as [|x l]; [done|]. injection Hid as <- <-.
  unfold draw_token in Hh. destruct (tokens _) as [|y l']; [done|]. injection Hh as <- <-.
  split_and!; [done..|]. by exists c, x.
Qed.

(** What an answered mint wrote, in one transaction. *)
Lemma mint_upload_ok configured url user company s a s' : mint_upload configured url user company s = (Ok a, s') →
  truthy user = true ∧ ∃ r c x e sg, _validated_tenant company = Ok c ∧
    r = {| r_user := user; r_company_id := c; r_audience := AUDIENCE_UPLOAD; r_read_only := false;
           r_handle_id := uuid_str (x mod uuid_bound) |} ∧
    (∃ t, minted_event r t = Ok e) ∧
    s' = set_db (db_mint_upload (index_of r) (capability a) (json_dumps (record_json r)) e (now sg) (db sg)).2 sg.
Proof.
  unfold mint_upload. destruct configured; [|done]. cbn [negb].
  intros (r & s1 & Hb & H)%bind_inv_ok. unfold catch in Hb.
  destruct (build_record user company s) as [[r'|ex] s0] eqn:E; [injection Hb as -> <-|by destruct (is_value_error ex)].
  apply build_record_spec in E as (Hu & _ & _ & _ & c & x & Hc & Hr). split; [done|].
  apply bind_inv_ok in H as (marker & s2 & _ & H). destruct marker; [done|].
  apply bind_inv_ok in H as (t & s3 & _ & H). apply bind_inv_ok in H as (e & s4 & [He _]%lift_inv & H).
  apply bind_inv_ok in H as ([] & s5 & Hw & H). injection H as <- <-. apply redis_ok in Hw as [_ ->].
  exists r.2, c, x, e, (found s4). split_and!; [done..|by exists t|]. by destruct r.
Qed.

(** ** A minted upload resolves, at the upload plane only *)

Lemma handle_id_uuid x : ∃ u, uuid_parse (uuid_str (x mod uuid_bound)) = Some u ∧ uuid_str (x mod uuid_bound) = uuid_str u.
Proof. exists (x mod uuid_bound)%Z. split; [apply uuid_parse_str; by apply Z.mod_pos_bound | done]. Qed.

Lemma minted_upload_names user company x t e : minted_event (bound user company (uuid_str (x mod uuid_bound))) t = Ok e →
  minted_for (json_dumps (entry user company AUDIENCE_UPLOAD (uuid_str (x mod uuid_bound)))) e.
Proof. intros He. eapply (minted_event_of_plane PLANE _ _ _ _ None); [exact He | apply handle_id_uuid]. Qed.

(** What an answered mint left: the entry of the user and the tenant, its event
    and its place in the index; it resolves at the tracking gateway's upload
    plane, as long as it lives and the tenant is not suspended, to the user and
    tenant it was minted for, and is refused for any other audience. *)
Lemma mint_upload_written configured url user company s a s' : canonical company →
  mint_upload configured url (JStr user) company s = (Ok a, s') →
  ∃ hid e l, values (db s') !! _key (capability a) =
      Some (json_dumps (entry user company AUDIENCE_UPLOAD hid), in_seconds (now s') DEFAULT_TTL_SECONDS) ∧
  e ∈ appended (db s') ∧ minted_for (json_dumps (entry user company AUDIENCE_UPLOAD hid)) e ∧
  sets (db s') !! user_index_key user = Some (l, in_seconds (now s') DEFAULT_TTL_SECONDS) ∧ capability a ∈ l ∧
  ∀ t expected cs, SqlBinding.steps cs = [] → (now s' ≤ t < now s' + DEFAULT_TTL_SECONDS * 1000000)%Z → capability a ≠ "" →
    entries cs !! t_of (_key (capability a)) = vget t (_key (capability a)) (db s') →
    entries cs !! ApiCapabilities.suspended_key company = None →
    (learned TrackingPolicy.user TrackingPolicy.company_id TrackingPolicy.handle_id
       (TrackingPolicy._resolve_outcome (t_of (capability a)) expected cs)).1 =
    Ok (if bool_decide (expected = AUDIENCE_UPLOAD)
        then (Some (JStr user, company, Some hid), None, minted_facts user company AUDIENCE_UPLOAD hid)
        else (None, Some "wrong_audience", minted_facts user company AUDIENCE_UPLOAD hid)).
Proof.
  intros Hcan (_ & r & c & x & e & sg & Hc & -> & (t0 & He) & ->)%mint_upload_ok.
  destruct (_validated_tenant_ok _ _ Hc) as [_ Hco]. assert (c = company) as ->.
  { revert Hcan Hc. unfold canonical, canonical_company_id, _validated_tenant. destruct (uuid_parse company); [|done].
    cbn. by intros [= ->] [= ->]. }
  eexists (uuid_str (x mod uuid_bound)), e, _. cbn. rewrite !lookup_insert_eq.
  split; [done|]. split; [set_solver|]. split; [by eapply minted_upload_names|]. split; [done|]. split; [set_solver|].
  intros t expected cs Hst Ht Hne Hk Hs. destruct (planes_contract py_repr expected (t_of (capability a)) cs) as (_ & _ & _ & ->).
  rewrite learned_as. pose proof (entry_granted user company AUDIENCE_UPLOAD (uuid_str (x mod uuid_bound)) (capability a) expected cs) as Hg.
  destruct (contract _ _ cs) as [o cs']. cbn in Hg. rewrite Hg; try done; [by case_bool_decide | set_solver | by apply handle_id_uuid |].
  rewrite Hk. unfold vget. cbn. rewrite lookup_insert_eq. cbn.
  by destruct (Z.ltb_spec t (now sg + DEFAULT_TTL_SECONDS * 1000000)); [|cbn in Ht; lia].
Qed.

(** ** Every upload handle is on record *)

Lemma stays_build P user company : respects (λ s s', stays P s → stays P s') (build_record user company).
Proof. unfold build_record. respecting ltac:(first [apply stays_draw | apply stays_id]). Qed.

Lemma on_record_upload index h v e t d : minted_for v e → on_record d → on_record (db_mint_upload index h v e t d).2.
Proof.
  intros Hm H h' v' exp. cbn. intros [[_ [= <- <-]]|[_ Hd]]%lookup_insert_Some.
  - exists e. split; [set_solver | done].
  - destruct (H _ _ _ Hd) as (f & ? & ?). exists f. split; [set_solver | done].
Qed.

(** Minting keeps the store [on_record], however its calls end and whatever
    others who keep it do. *)
Lemma upload_keeps_record configured url user company :
  respects (λ s s', stays on_record s → stays on_record s') (mint_upload configured url (JStr user) company).
Proof.
  unfold mint_upload. destruct configured; cbn [negb]; [|apply respects_raise, _].
  apply (respects_bind_when _ (λ r, ∃ c x, r.2 = bound user c (uuid_str (x mod uuid_bound)))).
  - apply respects_catch; [apply _ | apply stays_build |]. intros e. respecting fail.
  - intros s r s'. unfold catch. destruct (build_record _ _ s) as [[r'|ex] s0] eqn:E; [|by destruct (is_value_error ex)].
    intros [= <- <-]. apply build_record_spec in E as (_ & _ & _ & _ & c & x & _ & ->). by exists c, x.
  - intros [h r] (c & x & Hr). cbn in Hr. subst r.
    apply respects_bind; [apply _ | by apply stays_redis |]. intros [m|]; [apply respects_raise, _|].
    apply respects_bind; [apply _ | apply respects_gets, _ |]. intros t.
    apply (respects_bind_when _ (λ e, minted_event (bound user c (uuid_str (x mod uuid_bound))) t = Ok e));
      [apply respects_lift, _ | by intros s e s' [? _]%lift_inv |].
    intros e He. apply respects_bind; [apply _ | | intros _; apply respects_ret, _].
    apply stays_redis. intros t' d. apply on_record_upload. by eapply minted_upload_names.
Qed.

(** ** Ending a user's sessions ends their uploads *)

Definition upload_of (v : bytes) (u : string) : Prop := ∃ c hid, json_loads v = Ok (entry u c AUDIENCE_UPLOAD hid).

(** Every live upload handle is in the index of its user, which outlives it. *)
Definition listed (t : Z) (d : capdb) : Prop := ∀ h v u exp,
  values d !! _key h = Some (v, exp) → upload_of v u → unexpired t exp = true →
  ∃ e l e', exp = Some e ∧ (e ≤ t + DEFAULT_TTL_SECONDS * 1000000)%Z ∧
    sets d !! user_index_key u = Some (l, Some e') ∧ (e ≤ e')%Z ∧ h ∈ l.

Definition live_listed (s : hub) : Prop :=
  listed (now s) (db s) ∧ Forall (λ st, (0 ≤ passes st)%Z ∧ ∀ t d, listed t d → listed t (others st d)) (steps s).

Lemma listed_later t t' d : (t ≤ t')%Z → listed t d → listed t' d.
Proof.
  intros Ht H h v u exp Hv Hu Hl. destruct (H h v u exp Hv Hu) as (e & l & e' & -> & ? & ? & ? & ?).
  - destruct exp as [e|]; [|done]. unfold unexpired in *. by destruct (Z.ltb_spec t' e), (Z.ltb_spec t e); try lia.
  - exists e, l, e'. split_and!; try done. lia.
Qed.

Lemma listed_less t d d' : (∀ h v exp, values d' !! _key h = Some (v, exp) → values d !! _key h = Some (v, exp) ∨ ∀ u, ¬ upload_of v u) →
  (∀ u, sets d' !! user_index_key u = sets d !! user_index_key u) → listed t d → listed t d'.
Proof.
  intros Hv Hs H h v u exp Hk Hu Hl. rewrite Hs. destruct (Hv _ _ _ Hk) as [Hd|Hn]; [by apply (H h v) | by destruct (Hn u)].
Qed.

Lemma handle_key_inj h h' : _key h = _key h' → h = h'.
Proof. unfold _key, HubCapabilities._KEY_PREFIX. intros E. by simplify_eq/=. Qed.

Lemma upload_of_user u u' c hid : upload_of (json_dumps (entry u c AUDIENCE_UPLOAD hid)) u' → u' = u.
Proof. intros (c' & hid' & H). rewrite loads_dumps in H by done. by injection H. Qed.

Lemma listed_mint u c hid h e t d : listed t d →
  listed t (db_mint_upload (user_index_key u) h (json_dumps (entry u c AUDIENCE_UPLOAD hid)) e t d).2.
Proof.
  intros H h' v u' exp Hk Hu Hl. cbn in Hk. unfold store_key in Hk. change (_KEY_PREFIX +:+ h) with (_key h) in Hk.
  apply lookup_insert_Some in Hk as [[<-%handle_key_inj [= <- <-]]|[Hne Hk]].
  - apply upload_of_user in Hu as ->. eexists _, _, _. cbn. rewrite lookup_insert_eq. split_and!; [done|lia|done|lia|set_solver].
  - destruct (H _ _ _ _ Hk Hu Hl) as (x & l & x' & -> & Hx & Hs & Hle & Hin). cbn.
    destruct (decide (user_index_key u = user_index_key u')) as [E|Hn].
    + rewrite E, lookup_insert_eq. unfold sget. rewrite Hs. cbn in Hl |- *.
      assert ((t <? x')%Z = true) as Hb by (apply Z.ltb_lt; apply Z.ltb_lt in Hl; lia).
      rewrite Hb. eexists _, _, _. split_and!; [done..|lia|set_solver].
    + rewrite lookup_insert_ne by done. by exists x, l, x'.
Qed.

Abbreviation keeps_listed := (respects (λ s s', live_listed s → live_listed s')).

Lemma found_listed s : live_listed s → live_listed (found s).
Proof.
  intros [H Hs]. unfold found, final, next. destruct (steps s) as [|st l] eqn:E; cbn; [by split; rewrite ?E|].
  apply Forall_cons in Hs as [[Hp Ho] Hs]. split; [|done]. cbn.
  apply (listed_later (now s)); [lia|]. by apply Ho.
Qed.

Lemma redis_listed {A} (op : Z → capdb → A * capdb) : (∀ t d, listed t d → listed t (op t d).2) → keeps_listed (redis op).
Proof.
  intros Hop s [H Hs]%found_listed. unfold final. rewrite redis_run.
  destruct (how s); cbn; [| by split |]; split; cbn; auto.
Qed.

Lemma draw_listed : keeps_listed draw_token.
Proof. intros s H. unfold final, draw_token. by destruct (tokens s). Qed.
Lemma id_listed : keeps_listed new_handle_id.
Proof. intros s H. unfold final, new_handle_id. by destruct (ids s). Qed.

Lemma build_listed user company : keeps_listed (build_record user company).
Proof. unfold build_record. respecting ltac:(first [apply draw_listed | apply id_listed]). Qed.

(** The route keeps every live upload listed. *)
Lemma upload_keeps_listed configured url user company : keeps_listed (mint_upload configured url (JStr user) company).
Proof.
  unfold mint_upload. destruct configured; cbn [negb]; [|apply respects_raise, _].
  apply (respects_bind_when _ (λ r, ∃ c hid, r.2 = bound user c hid)).
  - apply respects_catch; [apply _ | apply build_listed |]. intros e. respecting fail.
  - intros s r s'. unfold catch. destruct (build_record _ _ s) as [[r'|ex] s0] eqn:E; [|by destruct (is_value_error ex)].
    intros [= <- <-]. apply build_record_spec in E as (_ & _ & _ & _ & c & x & _ & ->). by eexists c, _.
  - intros [h r] (c & hid & Hr). cbn in Hr. subst r.
    respecting ltac:(apply redis_listed; intros ? ? Hd; first [exact Hd | exact (listed_mint user c hid h _ _ _ Hd)]).
Qed.

(** So do the commands that revoke or consume a handle, whatever service runs
    them. *)
Lemma delete_recorded_listed k e : keeps_listed (redis (db_delete_recorded k e)).
Proof.
  apply redis_listed. intros t d. apply listed_less; unfold db_delete_recorded.
  - intros h v exp. destruct (vget t k d); cbn; intros H; left; first [exact H | by eapply delete_get].
  - intros u. by destruct (vget t k d).
Qed.

(** And the hub's mint, whose handles are of other audiences. *)
Lemma hub_mint_listed user company audience ttl server : keeps_listed (HubCapabilities.mint user company audience ttl server).
Proof.
  unfold HubCapabilities.mint. destruct (negb (bool_decide (audience ∈ _AUDIENCES))) eqn:Ha; [apply respects_raise, _|]. bool_hyps.
  assert (∀ index k h e, keeps_listed (redis (db_set_recorded k (json_dumps (entry user company audience h)) ttl e index))) as Hset.
  { intros index k h e. apply redis_listed. intros t d. apply listed_less; [|by destruct index as [[[? ?] ?]|]].
    intros h' v exp. assert (values (db_set_recorded k (json_dumps (entry user company audience h)) ttl e index t d).2 =
      <[k := (json_dumps (entry user company audience h), in_seconds t ttl)]> (values d)) as -> by (by destruct index as [[[? ?] ?]|]).
    intros [[_ [= <- _]]|[_ ?]]%lookup_insert_Some; [right | by left].
    intros u (c & hid & Hl). rewrite loads_dumps in Hl by done. injection Hl as _ _ Hau _ _. subst audience.
    unfold _AUDIENCES in Ha. set_solver. }
  unfold is_suspended, store_get. respecting ltac:(first [apply Hset | apply draw_listed | apply id_listed | by apply redis_listed]).
Qed.

Lemma live_is_listed t d h v u : listed t d → vget t (_key h) d = Some v → upload_of v u → h ∈ sget t (user_index_key u) d.
Proof.
  unfold vget. intros H Hv Hu. destruct (values d !! _key h) as [[w exp]|] eqn:E; [|done].
  destruct (unexpired t exp) eqn:El; [|done]. injection Hv as ->.
  destruct (H _ _ _ _ E Hu El) as (e & l & e' & -> & _ & Hs & Hle & Hin). unfold sget. rewrite Hs. cbn in El |- *.
  assert ((t <? e')%Z = true) as -> by (apply Z.ltb_lt; apply Z.ltb_lt in El; lia). done.
Qed.

(** Ending a user's sessions ends every capability of theirs: when
    [revoke_user_capabilities] returns, no handle the hub's index listed is
    live, and no upload handle of the user either, as long as every live upload
    was listed, which minting, consuming and revoking keep; whatever is live
    was before, others at most removing meanwhile. *)
Theorem signed_out_user_holds_nothing uid s n s' : live_listed s → Forall removing (steps s) →
  ApiCapabilities.revoke_user_capabilities uid s = (Ok n, s') →
  (∃ l s1, redis (db_items (ApiCapabilities._USER_INDEX_PREFIX +:+ uid)) s = (Ok l, s1) ∧
     ∀ h, h ∈ l.*1 → vget (now s') (_key h) (db s') = None) ∧
  (∀ h v, vget (now s') (_key h) (db s') = Some v → ¬ upload_of v uid) ∧
  (∀ k v, vget (now s') k (db s') = Some v → vget (now s) k (db s) = Some v).
Proof.
  intros Hl Hs Hrun. destruct (signed_out_handles _ _ _ _ Hs Hrun) as (l & uploads & s1 & s2 & H1 & H2 & Hg & Hk).
  split; [exists l, s1; split; [done|]; intros h Hh; apply Hg; by left|].
  split; [|intros k v Hv; by apply Hk]. intros h v Hv Hu. assert (live_listed s1) as Hl1.
  { pose proof (redis_listed (db_items (ApiCapabilities._USER_INDEX_PREFIX +:+ uid)) (λ _ _ H, H) s Hl) as H.
    unfold final in H. by rewrite H1 in H. }
  apply found_listed in Hl1 as [Hl1 _]. apply redis_ok in H2 as [-> ->]. cbn [ApiCapabilities.db_smembers fst snd] in *.
  destruct (Hk _ _ Hv) as [Hlive _]. cbn [set_db now db] in Hlive.
  assert (vget (now s') (_key h) (db s') = None) as Hn; [|congruence].
  apply Hg. right. apply elem_of_elements. by apply (live_is_listed _ _ _ v).
Qed.
End upload.

(** ** On a concrete store *)

#[local] Existing Instance decoded_codec.
#[local] Existing Instance hex_iso.

(** A handle of the hub's, and an upload handle, are live. *)
Definition w_both : hub := final (mint_upload (λ _, "") true "" (JStr "ann") w_tenant) w_minted.
Definition w_ended : hub := final (ApiCapabilities.revoke_user_capabilities "ann") w_both.

Lemma w_both_listed : live_listed w_both.
Proof.
  apply upload_keeps_listed. apply (hub_mint_listed "ann" w_tenant "sql" 600 (Some "srv") w_hub).
  split; [|constructor]. intros h v u exp Hk. cbn in Hk. by rewrite lookup_empty in Hk.
Qed.

Example both_live : is_Some (vget (now w_both) (_key "h1") (db w_both)) ∧ is_Some (vget (now w_both) (_key "h2") (db w_both)).
Proof. split; vm_compute; by eexists. Qed.

Lemma signed_out_user_holds_nothing_witness :
  (∃ l s1, redis (db_items (ApiCapabilities._USER_INDEX_PREFIX +:+ "ann")) w_both = (Ok l, s1) ∧
     ∀ h, h ∈ l.*1 → vget (now w_ended) (_key h) (db w_ended) = None) ∧
  (∀ h v, vget (now w_ended) (_key h) (db w_ended) = Some v → ¬ upload_of v "ann") ∧
  (∀ k v, vget (now w_ended) k (db w_ended) = Some v → vget (now w_both) k (db w_both) = Some v).
Proof. apply (signed_out_user_holds_nothing "ann" w_both 2 w_ended w_both_listed); [constructor | by vm_compute]. Defined.

(** A suspended company is issued nothing. *)
Definition w_suspended : hub := set_db (with_values <[suspended_key w_tenant := (json_dumps JNull, None)]> (db w_hub)) w_hub.

Example suspended_company_refused :
  (mint_upload (λ _, "") true "" (JStr "ann") w_tenant w_suspended).1 = Err (HTTPException 403 "This company is suspended.") ∧
  db (final (mint_upload (λ _, "") true "" (JStr "ann") w_tenant) w_suspended) = db w_suspended.
Proof. split; by vm_compute. Qed.

(** A session is checked once, before the mint: a mint that was let through and
    takes effect after the user's sign-out leaves a handle that is live. *)
Definition w_late : hub := final (mint_upload (λ _, "") true "" (JStr "ann") w_tenant) (final (ApiCapabilities.revoke_user_capabilities "ann") w_minted).

Example minted_after_sign_out : is_Some (vget (now w_late) (_key "h2") (db w_late)).
Proof. vm_compute. by eexists. Qed.
