(* ===== verification/MlUploadRoute.v ===== *)
(** * The route that mints an upload capability: services/ml_service/api/routers/models.py

    [mint_upload_capability]: the caller and the tenant the stores establish
    (MlAuth), then the mint on the shared capability store (MlUpload). *)

From stdpp Require Import base strings list gmap.
From Stdlib Require Import ZArith Lia.
From S2P Require Import Prelude PyText PyJson Tenancy CapabilityAudit SqlBinding HubCapabilities ApiCapabilities ColdBroker TrackingPolicy PlaneCapabilities MlUpload MlWorld MlAuth MlServing MlRuns.

Local Open Scope string_scope.

#[local] Arguments uuid_str : simpl never.
#[local] Arguments uuid_parse : simpl never.
#[local] Arguments t_of : simpl never.
#[local] Arguments clean_text : simpl never.

Section route.
Context `{J : JsonCodec} `{I : IsoCodec} (D : deployment).

(** The service's process, and the capability store it shares. *)
Record ml_side := { ml : world; caps : hub }.

(** [configured]: main.py opened a capability store; [url]: UPLOAD_GATEWAY_URL. *)
Context (configured : bool) (url : string).

Definition in_service {A} (m : M world A) : M ml_side A := zoom ml (λ w s, {| ml := w; caps := caps s |}) m.
Definition in_store {A} (m : M hub A) : M ml_side A := zoom caps (λ h s, {| ml := ml s; caps := h |}) m.

(** [payload.get("sub") or str(user_id)] *)
Definition principal (c : caller) : json :=
  let sub := jget "sub" (payload c) in if truthy sub then sub else JStr (MlAuth.user_id c).

Definition mint_upload_capability (cr : credentials) : M ml_side upload_grant :=
  c ← in_service (verify_jwt_token (jwt_decode D) (MlServing.py_repr D) (authorization cr) (if_access cr));
  _ ← in_service (require_writer c);
  company ← in_service (company_id_of (MlServing.py_repr D) c);
  in_store (mint_upload (MlServing.py_repr D) configured url (principal c) company).

Lemma zoom_inv {S T A} (get : S → T) (set : T → S → S) (m : M T A) s r s' : zoom get set m s = (r, s') →
  ∃ t, m (get s) = (r, t) ∧ s' = set t s.
Proof. unfold zoom. destruct (m (get s)) as [r' t] eqn:E. intros [= <- <-]. by exists t. Qed.

Lemma verify_sub jwt_decode py_repr authorization if_access w c w' :
  verify_jwt_token jwt_decode py_repr authorization if_access w = (Ok c, w') →
  jget "sub" (payload c) = JStr (MlAuth.user_id c) ∧ MlAuth.user_id c ≠ "".
Proof.
  unfold verify_jwt_token, refuse. destruct (bearer _ _) as [token|]; [|done]. destruct (jwt_decode token) as [p|]; [|done].
  destruct (jget "sub" p) as [|[]|z|f|user|l|d] eqn:E; try (by case_match); try done. case_bool_decide as Hne; [done|].
  intros (o & w1 & _ & H)%bind_inv_ok. destruct o as [a|]; [|done]. destruct (same_tenant _ _ _); [|done]. cbn [negb] in H.
  apply bind_inv_ok in H as (ended & w2 & _ & H). apply bind_inv_ok in H as (u & w3 & _ & H).
  destruct ended; [done|]. by injection H as <- <-.
Qed.

(** The account of a writer of [company], as the stores named it. *)
Definition writer_account (user company : string) (log : list event) : Prop :=
  ∃ uid a u, uuid_parse user = Some uid ∧ AccountRead uid (Some a) ∈ log ∧ u_active a = true ∧
    u_company a = Some u ∧ company = uuid_str u ∧ u_company_active a = true ∧ SessionRead user false ∈ log ∧
    (u_superuser a = true ∨ ∃ r, u_role a = Some r ∧ r ∈ WRITER_ROLES).

(** The upload capability is the writer's: it is answered only to a writer of an
    active company, in a session nobody ended, and what it wrote binds the
    handle to that user and company for the upload audience, for ten minutes
    after the transaction, under the user's index, with its minted event. *)
Theorem upload_capability_is_the_writers cr s a s' : mint_upload_capability cr s = (Ok a, s') →
  ∃ user company hid e l, let d := db (caps s') in let t := HubCapabilities.now (caps s') in
    writer_account user company (w_log (ml s')) ∧
    values d !! _key (capability a) = Some (json_dumps (entry user company AUDIENCE_UPLOAD hid), in_seconds t 600) ∧
    e ∈ appended d ∧ minted_for (json_dumps (entry user company AUDIENCE_UPLOAD hid)) e ∧
    sets d !! user_index_key user = Some (l, in_seconds t 600) ∧ capability a ∈ l ∧
    (∀ t' expected cs, SqlBinding.steps cs = [] → (t ≤ t' < t + 600 * 1000000)%Z → capability a ≠ "" →
       entries cs !! t_of (_key (capability a)) = vget t' (_key (capability a)) d →
       entries cs !! ApiCapabilities.suspended_key company = None →
       (learned TrackingPolicy.user TrackingPolicy.company_id TrackingPolicy.handle_id
          (TrackingPolicy._resolve_outcome (t_of (capability a)) expected cs)).1 =
       Ok (if bool_decide (expected = AUDIENCE_UPLOAD)
           then (Some (JStr user, company, Some hid), None, minted_facts user company AUDIENCE_UPLOAD hid)
           else (None, Some "wrong_audience", minted_facts user company AUDIENCE_UPLOAD hid))).
Proof.
  unfold mint_upload_capability, in_service, in_store. intros (c & s1 & H1 & H)%bind_inv_ok.
  apply zoom_inv in H1 as (w1 & H1 & ->). apply bind_inv_ok in H as (c' & s2 & H2 & H).
  apply zoom_inv in H2 as (w2 & H2 & ->). apply require_writer_spec in H2 as (-> & -> & Hw).
  apply bind_inv_ok in H as (company & s3 & H3 & H). apply zoom_inv in H3 as (w3 & H3 & ->). cbn in H3.
  apply zoom_inv in H as (h & H & ->). destruct (verify_sub _ _ _ _ _ _ _ H1) as [Hsub Hne].
  destruct (caller_vouched _ _ _ _ _ _ _ _ _ _ H1 H3) as (Hc & -> & uid & acc & u & Hacc).
  unfold principal in H. rewrite Hsub in H. cbn [truthy] in H. rewrite bool_decide_eq_false_2 in H by done. cbn [negb] in H.
  apply mint_upload_written in H as (hid & e & l & H); [|done]. cbn [ml caps]. exists (MlAuth.user_id c), company, hid, e, l.
  split; [|exact H]. exists uid, acc, u. destruct Hacc as (? & ? & ? & ? & ? & ? & ? & ? & <- & <-). done.
Qed.
End route.

(** ** A writer asks for one *)

#[local] Existing Instance decoded_codec.
#[local] Existing Instance hex_iso.

Definition side_1 : ml_side := {| ml := world_1; caps := w_hub |}.
Definition granted_1 : ml_side := final (mint_upload_capability D1 true "https://upload" signed_in) side_1.

Lemma upload_capability_is_the_writers_witness :
  ∃ user company hid e l, let d := db (caps granted_1) in let t := HubCapabilities.now (caps granted_1) in
    writer_account user company (w_log (ml granted_1)) ∧
    values d !! _key "h1" = Some (json_dumps (entry user company AUDIENCE_UPLOAD hid), in_seconds t 600) ∧
    e ∈ appended d ∧ minted_for (json_dumps (entry user company AUDIENCE_UPLOAD hid)) e ∧
    sets d !! user_index_key user = Some (l, in_seconds t 600) ∧ "h1" ∈ l.
Proof.
  destruct (upload_capability_is_the_writers D1 true "https://upload" signed_in side_1
              {| capability := "h1"; expires_in := 600; upload_url := Some "https://upload" |} granted_1
              (injective_projections _ (_, _) ltac:(by vm_compute) eq_refl)) as (user & company & hid & e & l & H1 & H2 & H3 & H4 & H5 & H6 & _).
  exists user, company, hid, e, l. exact (conj H1 (conj H2 (conj H3 (conj H4 (conj H5 H6))))).
Defined.

(** The same account, signed in as an observer. *)
Definition observer_1 : ml_side :=
  {| ml := with_shared (let sh := w_shared world_1 in
       {| accounts := (λ a, {| u_active := u_active a; u_company := u_company a; u_company_active := u_company_active a; u_role := Some "observer";
                               u_superuser := false; u_must_change := false |}) <$> accounts sh;
          ended_store := ended_store sh; tenants := tenants sh; runs := runs sh; experiments := experiments sh;
          logged_models := logged_models sh; artifacts := artifacts sh |}) world_1; caps := w_hub |}.

Example observer_refused :
  (mint_upload_capability D1 true "" signed_in observer_1).1 =
    Err (HTTPException 403 "Required role: engineer or admin; an observer has read-only access") ∧
  caps (final (mint_upload_capability D1 true "" signed_in) observer_1) = w_hub.
Proof. split; [by vm_compute | reflexivity]. Qed.
